(* ===== verification/_CoqProject ===== *)
-Q . S2P
Prelude.v
GoStd.v
Json.v
JsonText.v
JsonStruct.v
Sha256.v
Sha1.v
Policy.v
Sample.v
Queue.v
AuditLog.v
Database.v
QueueStore.v
Sources.v
Admission.v
ExpansionTotal.v
HoldMachine.v
Reconcile.v
Postfix.v
Http.v
Helper.v
Remote.v
RemoteRefinement.v
Release.v
Decision.v
Backup.v
Admin.v
Activation.v
Daemon.v
ControlWire.v
Routes.v
Gate.v
Relay.v
GateSafety.v
Verifier.v
Lookup.v
LookupRoutes.v
PlanDigest.v
Tokens.v
Authz.v
NotifyText.v
Regex.v
Notification.v
Approval.v
Executor.v
Telegram.v
Identity.v
IdentityFacts.v
IdentitySafety.v
Scim.v
ScimFacts.v
ScimProjection.v
Authn.v
AuthnSafety.v
AuthnSessions.v
RoleBinding.v
RoleBindingSafety.v
IdentityApi.v
SessionAuthority.v
ScimToken.v
FrontAuth.v
AdminApi.v
HoldTrail.v
Witnesses.v
AdminWitnesses.v
PostfixWitnesses.v
GateWitnesses.v
DaemonWitnesses.v
AccessWitnesses.v
IdentityWitnesses.v
ScimWitnesses.v
AuthnWitnesses.v
FrontWitnesses.v
BackupWitnesses.v
AdminApiWitnesses.v
