(* ===== verification/Prelude.v ===== *)
(** * GOTTH Mail: outbound policy and access control, verified

    GOTTH Mail is a mail server built around Postfix, Dovecot and Rspamd.  Its
    core decides which mail may leave a domain: a domain may be restricted to
    mail inside itself, the restriction is enforced at submission and again
    when Postfix is about to hand a queued message over, a message that is no
    longer allowed is held in Postfix as a whole, and an operator releases it
    by confirming a digest of what would be released.  Around that core stand
    the parts that decide who may do what: mailboxes and their application
    passwords, SCIM provisioning, OIDC logins and sessions, role bindings, API
    tokens, and the approval of queue operations over Telegram.  This library
    models both as the Go source writes them, function by function, and proves
    that they keep their promises under every schedule of database, Postfix
    and network failures.

    ** The parts and how they call each other

    The outbound policy (internal/outboundpolicy, internal/postfixgate):
    - Policy.v (policy.go, authority.go, automatic.go, validScope of admin.go):
      the pure decision.  [Evaluate] judges one recipient against the governing
      domains; [NormalizeDomain], [recipientDomain] and [validLongQueueID]
      decide which texts are names at all.
    - Queue.v (queue.go, pure part of reconcile.go): the provenance record of a
      queued message, its canonical sets and length-framed digests.
    - AuditLog.v (internal/audit): events, redaction, secret detection.
    - Database.v, QueueStore.v (queue.go), Sources.v and Decision.v
      (decision.go), Admission.v (admission.go), Reconcile.v (reconcile.go),
      Release.v (release.go), Admin.v (admin.go), Backup.v (backup.go): the
      services.  They share one PostgreSQL database, and each is a function of
      the world (below).
    - HoldMachine.v: the abstract machine of the hold states, the
      specification the services are shown to refine.  HoldTrail.v puts the
      calls of all the services in a row and reads the machine's path off the
      audit log they write.
    - Postfix.v (postfix.go): the postqueue and postsuper commands behind a
      bounded runner.  Helper.v (postfixgate/helper.go) serves them over HTTP,
      Remote.v (remote_postfix.go) is the client of that helper.  Reconcile.v
      and Release.v see either through the class [QueueBoundary];
      RemoteRefinement.v shows that the two are the same boundary.
    - Daemon.v, ControlWire.v, Routes.v (daemon.go and http.go of
      internal/daemon): the core's control API over these services, its JSON
      and its tokens.  Gate.v and Relay.v (postfixgate/gate.go, control.go and
      the arguments of cmd/gotth-mail-postfix-gate): the pipe transport that
      Postfix runs for every message, which calls the control API and then the
      SMTP relay.  GateSafety.v composes all of it.
    - Verifier.v, Lookup.v, LookupRoutes.v (daemon.go, http.go): the lookups of
      Postfix, Dovecot and Rspamd over the directory maps, password
      verifiers, and the identity projection that updates the maps.

    Access control:
    - Authz.v (internal/authz): [Decide] from an actor, its scopes and roles.
    - Identity.v (internal/identity): mailboxes, application passwords and API
      tokens, kept in memory, in the database and in the daemon at once;
      IdentityFacts.v and IdentitySafety.v show that the three agree, and where
      they do not.
    - Scim.v, ScimFacts.v (internal/scimstore): the transactions of the SCIM
      server and the mailboxes they provision; ScimProjection.v: what they
      project onto the identity service.  ScimToken.v
      (internal/scimtoken): the bearer tokens of its clients.
    - Authn.v, AuthnSafety.v, AuthnSessions.v (internal/authn): OIDC logins and
      sessions, over the interface [StateStore].
    - RoleBinding.v, RoleBindingSafety.v (internal/rolebinding): the roles of
      verified identities.
    - IdentityApi.v (api/identity_api.go and the self-service page of httpui),
      SessionAuthority.v, AdminApi.v (api/outbound_policy.go and
      notification_approvals.go): requests, from the header to the change.
    - FrontAuth.v (internal/frontauth): what NGINX asks before it proxies a
      mail connection, answered from the lookups and the identity service.

    Notifications (internal/notification, internal/notifyruntime):
    - NotifyText.v, Regex.v, Notification.v: bounding, redaction and delivery
      of alerts.  Approval.v, Executor.v, Telegram.v: approval requests, their
      one-time tokens, the execution of an approved operation on the mail
      queue, and the Telegram receiver.

    Prelude.v holds what everything shares: Go results, tactics, list lemmas.
    GoStd.v, Json.v, JsonText.v, JsonStruct.v, Sha256.v, Sha1.v, Tokens.v and
    Http.v define what the source uses of Go's standard library: strings, mail
    addresses, JSON text and its mapping to structs, digests, base64, HTTP
    requests.  They are executable, so a digest or a response is computed, not
    assumed.

    ** How code becomes definitions

    A function that returns a value and an error is a function into [result];
    an early return is a [guard_err], [let!] or [guardM].  Definitions keep the
    names of the source, methods included; a loop is a [Fixpoint] over the list
    it ranges over, and a block that needs a name of its own for a lemma
    is named after what it does (the manifest maps it to its lines).  Structs
    are records whose fields carry a prefix.  A file whose names meet those of
    another declares them in a Module named after the Go package.

    A service is a function of a [World]: the database, a list of outcomes for
    its round trips, the readings of the clock, the random bytes, and the state
    of what is outside: Postfix, or the identity service with its maps.  Each
    round trip consumes an outcome: [Good], [Fail] (no effect) or [FailLate]
    (the effect took place and the reply was lost).  A theorem over all worlds
    is a theorem over all failure schedules.  Transactions are atomic and
    isolated, and runs are sequential: the advisory lock of a queue is the
    round trip that takes it, and concurrent logins are interleavings of their
    round trips.  HTTP and the gate use the same state; the SMTP relay has a
    state of its own.  Times are integers, kept exactly.

    What the source delegates is a class: [Host] (IDNA, Unicode case, address
    literals, PostgreSQL's collation), [MailParser], [UrlParser], [CommandRunner]
    and [Processes] (the Postfix commands), [HttpClient], [SmtpConnection],
    [Pbkdf2], [MapOrder] (the order of Go's range over a map), [OIDCClient],
    [Resolver] (DNS), [PromptSender] and [Recorder] (notification backends).
    What a theorem needs of them is a class of laws ([IdnaLaws], [MailLaws],
    [ByteCollation], [SmtpLaws], ...), and the *Witnesses.v files instantiate
    every one.

    ** What the theorems show

    - The decision: [Policy.Evaluate_ok_iff] and [Policy.Evaluate_refusal] say
      what OK and every refusal mean.
    - Fail closed: [Decision.Decide_fail_closed] and
      [Decision.DecideSMTPRecipient_fail_closed] tie an OK to the policy tables
      under every schedule; [Decision.Decide_hold_durable] makes a policy-hold
      answer durable; [Decision.Decide_transport_complete] is the converse.
    - Provenance: [QueueStore.Register_sound], [QueueStore.Register_roundtrip],
      [QueueStore.Load_well_formed], [Queue.sameQueueIdentity_sets],
      [Admission.Admit_sound]; the alias expansion is exact
      ([Admission.expandOriginal_exact]) and terminates with an answer on every
      acyclic graph within the source's bounds
      ([ExpansionTotal.expandOriginal_terminates]).
    - Holding and releasing: [Reconcile.Reconcile_sound],
      [Release.Release_sound], [Release.Release_guarded],
      [Release.Release_requires_hold], [Release.confirmation_binds]; both
      services refine the hold machine ([Reconcile.Reconcile_history],
      [Release.Release_history]), and over any sequence of calls of
      any of the services the audit events replay to the stored states and
      attempts ([HoldTrail.services_replay]).
    - Administration: [Admin.ApplyChange_atomic],
      [PlanDigest.plan_digest_binds], [PlanDigest.preview_then_apply],
      [Activation.ActivationApply_holds], and from the HTTP request
      [AdminApi.outbound_policy_admin_guarded].
    - Backup: [Backup.backup_round_trip]: what is restored is what was captured.
    - The Postfix boundary: [Postfix.postfix_inspect_exact],
      [Postfix.exec_run_bounds], [Postfix.arrival_fingerprint_identity],
      [Postfix.snapshot_order_independent], [Helper.Handler_authenticated],
      [RemoteRefinement.remote_boundary_refines].
    - The gate: [GateSafety.Deliver_guarded] composes the gate, the wire, the
      routes and the services: what reaches the relay was registered and
      allowed.  [Relay.Submit_exact], [Routes.control_routes_authenticated].
    - The daemons: [Lookup.DovecotPassdb_sound],
      [Lookup.lookup_order_independent], [Lookup.identity_projection],
      [Verifier.verifier_round_trip], [FrontAuth.ServeHTTP_guarded]; redaction
      of audit payloads in [AuditLog.redactValue_discloses].
    - Identity: an invariant of every history of calls
      ([IdentitySafety.identity_invariant]), by which Dovecot and the service
      accept the same secrets ([IdentitySafety.Dovecot_agrees]); a created
      password logs in and a revoked one never again
      ([IdentitySafety.created_password_accepted],
      [IdentitySafety.revocation_final]).  These histories are over canonical
      addresses; [IdentitySafety.twin_address_overwrites] shows what the
      program does with an admitted address that is not (below).
    - Provisioning: [ScimFacts.scim_invariant], [ScimFacts.delete_deprovisions],
      [ScimProjection.Transact_in_step],
      [ScimToken.issued_token_authenticates].
    - Logins and sessions: [AuthnSafety.attempts_exchanged_once];
      [AuthnSessions.login_session_sound] gives what a login writes, to the
      row; [AuthnSessions.deleted_user_has_no_session];
      [SessionAuthority.session_authority] follows a cookie through its stored
      session, identity, mailbox and role bindings to the decision.
    - Authority: [Authz.authz.Decide_allows_iff],
      [RoleBindingSafety.Apply_confirmed],
      [SessionAuthority.revoked_admin_powerless],
      [SessionAuthority.app_passwords_guarded].
    - Approvals: [AdminApi.approval_routes_guarded]: the approval stored and
      the prompt sent are for the mapped operator;
      [Telegram.HandlerWithSecret_guarded] and
      [Executor.ExecuteTelegramApproval_guarded]: an approved operation runs
      once, for the operator it was prompted to, and a pending one only on the
      queue as it was (one left executing by a crash is resumed without that
      comparison, as the source means it).

    ** Canonical addresses

    The identity service keeps a mailbox under its lower-cased address, the
    daemon under the trimmed and lower-cased one (normalizeAddress).  What
    net/mail admits can differ between the two: a no-break space in front of
    an address is an atom character to net/mail and white space to
    strings.TrimSpace.  Such a mailbox replaces the daemon's entry of the
    mailbox without the space ([IdentitySafety.twin_address_overwrites], run in
    IdentityWitnesses.v), so no invariant between the service and the daemon
    holds in its presence.  The histories of IdentityFacts.v therefore take
    user writes of canonical addresses ([canonical_email], which every
    printable ASCII address without spaces is that net/mail reads as itself:
    [plain_canonical]) and SCIM projections of canonical ones ([scim_ready]); ScimProjection.v derives the
    latter from the user names of the SCIM documents.  A SCIM projection may
    also rename a mailbox onto another one and merge their application
    passwords, beyond the limit of active ones: the histories with [free]
    exclude that, and the limit and [Dovecot_agrees] are stated for these; the
    others hold of both.

    Statements about digests have the form "equal, or here is a SHA-256
    collision": no theorem assumes that there are none.

    ** Bounds and fuel

    Most recursion is structural.  The alias walk and the layer loop recurse on
    the depth the source itself allows (64).  The JSON parser's fuel is
    twice the length of the text plus one, and [Json.parse_value_fuel] shows
    that more changes nothing.  The binary
    search of decision.go has the length of the list as fuel
    ([Decision.search_loop_spec]).  A SCIM transaction is a program of finite
    depth over the operations of the store.  Machine integers are Z or N with
    the wrap or range check of the source; attempt counters and revisions are
    bounded where PostgreSQL's bigint bounds them.

    ** Not modelled

    - Constraints on text lengths in the schema; two services at work on one
      message at once; timeouts and contexts (a cancelled call is a failed
      round trip); logging; response headers, but for the mail front.
    - identityadopt: queries and a digest around one call of the third-party
      SCIM reconciler, which makes the change.  The SQL recorder of
      notification deliveries is represented by its interface and law.
    - The monitor and the e-mail, Telegram and gRPC transports of
      notifyruntime; internal/plugin, extensionsadmin and extensionsruntime:
      processes and remote calls around generated protocol code.
    - internal/webmail: IMAP, MIME, OpenPGP and SMTP clients, whose content is
      that of the libraries they call; the remaining routes and the templates
      of internal/api and internal/httpui.
    - internal/ops: snapshots and imports over an in-memory mirror; the
      migration runner and row mappers of internal/store; internal/config,
      render and apply: files and templates; cmd: flags and wiring; generated
      protocol buffers. *)

From stdpp Require Import base list gmap sets strings sorting pretty.
From Stdlib Require Import ZArith Lia.

#[export] Set Default Goal Selector "!".
#[export] Set Warnings "-clear-no-such-hyp".

(** ** Go results

    A Go function that returns [(T, error)] and whose first component is
    meaningless when the error is set returns a [result T].  Errors are the
    texts the source passes to [errors.New]. *)

Inductive result (A : Type) : Type :=
| Ok (a : A)
| Err (e : string).
Arguments Ok {A} a.
Arguments Err {A} e.

Definition is_ok {A} (r : result A) : bool :=
  match r with Ok _ => true | Err _ => false end.

Definition rbind {A B} (r : result A) (k : A -> result B) : result B :=
  match r with Ok a => k a | Err e => Err e end.

(** [relabel msg r] is the idiom [if err != nil { return errors.New(msg) }]:
    the value is kept and any error text is replaced. *)
Definition relabel {A} (msg : string) (r : result A) : result A :=
  match r with Ok a => Ok a | Err _ => Err msg end.

(** The early-return idiom [if bad { return errors.New(msg) }]. *)
Definition guard_err (bad : bool) (msg : string) : result unit :=
  if bad then Err msg else Ok tt.

Fixpoint rmap {A B} (f : A -> result B) (l : list A) : result (list B) :=
  match l with
  | [] => Ok []
  | x :: l => rbind (f x) (fun y => rbind (rmap f l) (fun ys => Ok (y :: ys)))
  end.

Declare Scope go_scope.
Delimit Scope go_scope with go.
Notation "'let!' x ':=' c 'in' k" := (rbind c (fun x => k))
  (at level 10, x pattern, c at level 100, k at level 200,
   format "'[v' 'let!'  x  ':='  c  'in' '/' k ']'") : go_scope.
Notation "x =?s y" := (String.eqb x y) (at level 70) : go_scope.
Notation "x <>?s y" := (negb (String.eqb x y)) (at level 70) : go_scope.
#[global] Open Scope go_scope.

(** ** Booleans of the source as propositions *)

Lemma eqs_true (x y : string) : (x =?s y) = true <-> x = y.
Proof. apply String.eqb_eq. Qed.
Lemma eqs_false (x y : string) : (x =?s y) = false <-> x <> y.
Proof. apply String.eqb_neq. Qed.
Lemma eqs_refl (x : string) : (x =?s x) = true.
Proof. by apply eqs_true. Qed.

Create Rewrite HintDb go_bool.
#[export] Hint Rewrite
  andb_true_iff andb_false_iff orb_true_iff orb_false_iff
  negb_true_iff negb_false_iff eqs_true eqs_false
  Z.eqb_eq Z.eqb_neq Z.leb_le Z.leb_gt Z.ltb_lt Z.ltb_ge
  Nat.eqb_eq Nat.eqb_neq Nat.leb_le Nat.leb_gt Nat.ltb_lt Nat.ltb_ge
  N.eqb_eq N.eqb_neq N.leb_le N.leb_gt N.ltb_lt N.ltb_ge
  bool_decide_eq_true bool_decide_eq_false : go_bool.

(** [to_prop] turns every boolean test of the context and the goal into the
    proposition it decides. *)
Ltac to_prop := autorewrite with go_bool in *.

(** [go_inv H] follows the control flow recorded in [H : program = outcome]
    from its head: it splits each test, match and call in the order the
    program makes them and discards the branches whose outcome cannot be the
    recorded one. *)
Ltac go_scrutinee t k :=
  lazymatch t with
  | match ?x with _ => _ end => go_scrutinee x k
  | rbind ?c _ => go_scrutinee c k
  | relabel _ ?c => go_scrutinee c k
  | ?x => k x
  end.
Ltac go_split H :=
  lazymatch type of H with
  | ?t = _ =>
      lazymatch t with
      | match _ with _ => _ end =>
          go_scrutinee t ltac:(fun x => let E := fresh "E" in destruct x eqn:E)
      | rbind _ _ =>
          go_scrutinee t ltac:(fun x => let E := fresh "E" in destruct x eqn:E)
      | relabel _ _ =>
          go_scrutinee t ltac:(fun x => let E := fresh "E" in destruct x eqn:E)
      end
  end.
Ltac go_inv H :=
  cbv zeta in H;
  repeat (go_split H; cbn [rbind relabel guard_err is_ok] in H; try discriminate H);
  simplify_eq.

(** ** Results *)

Lemma rbind_ok {A B} (r : result A) (k : A -> result B) b :
  rbind r k = Ok b <-> exists a, r = Ok a /\ k a = Ok b.
Proof.
  split.
  - destruct r as [a|e]; simpl; [by eauto | discriminate].
  - by intros (a & -> & ?).
Qed.

Lemma relabel_ok {A} msg (r : result A) a : relabel msg r = Ok a <-> r = Ok a.
Proof. destruct r; simpl; naive_solver. Qed.

Lemma rmap_ok {A B} (f : A -> result B) l ys :
  rmap f l = Ok ys <-> Forall2 (fun x y => f x = Ok y) l ys.
Proof.
  revert ys. induction l as [|x l IH]; intros ys; simpl.
  - split; [intros [= <-]; constructor | by inversion 1].
  - rewrite rbind_ok. split.
    + intros (y & Hy & (ys' & Hys & [= <-])%rbind_ok).
      constructor; [done | by apply IH].
    + inversion 1 as [|? y ? ys' Hy Hys]; subst. exists y. split; [done|].
      apply rbind_ok. exists ys'. split; [by apply IH | done].
Qed.

Lemma rmap_perm {A B} (f : A -> result B) l1 l2 k1 :
  l1 ≡ₚ l2 -> rmap f l1 = Ok k1 -> exists k2, rmap f l2 = Ok k2 /\ k1 ≡ₚ k2.
Proof.
  intros Hp. revert k1. induction Hp as [|x l1 l2 _ IH|x y l|l1 l2 l3 _ IH1 _ IH2]; intros k1 H.
  - by exists k1.
  - simpl in *. apply rbind_ok in H as (a & -> & H). apply rbind_ok in H as (k & Hk & [= <-]).
    apply IH in Hk as (k2 & -> & Hk). exists (a :: k2). by rewrite Hk.
  - simpl in *. apply rbind_ok in H as (b & -> & H). apply rbind_ok in H as (k & Hk & [= <-]).
    apply rbind_ok in Hk as (a & -> & Hk). apply rbind_ok in Hk as (k' & -> & [= <-]).
    eexists. split; [done|]. constructor.
  - apply IH1 in H as (k2 & Hk & E). apply IH2 in Hk as (k3 & ? & E2). exists k3.
    by rewrite E, E2.
Qed.

(** [List.filter] and permutations. *)
#[export] Instance bool_filter_perm {A} (p : A -> bool) :
  Proper ((≡ₚ) ==> (≡ₚ)) (List.filter p).
Proof.
  induction 1; simpl; repeat case_match; try done; [by constructor..|by etrans].
Qed.

(** ** Canonical string sets

    [sort.Strings] on the keys of a Go map: the order of iteration of the map
    is unspecified, and sorting removes it. *)

Definition sort_strings (l : list string) : list string := merge_sort String.le l.

Definition sorted_set (s : gset string) : list string := sort_strings (elements s).

Definition canonical_set (l : list string) : list string :=
  sorted_set (list_to_set l).

Lemma sort_strings_perm l : sort_strings l ≡ₚ l.
Proof. apply merge_sort_Permutation. Qed.

Lemma sort_strings_sorted l : StronglySorted String.le (sort_strings l).
Proof. apply StronglySorted_merge_sort; apply _. Qed.

(** Two sorted lists with the same elements are the same list. *)
Lemma sorted_perm_eq (l k : list string) :
  StronglySorted String.le l -> StronglySorted String.le k -> l ≡ₚ k -> l = k.
Proof. intros Hl Hk Hp. apply (StronglySorted_unique String.le); done. Qed.

Lemma sort_strings_of_perm l k : l ≡ₚ k -> sort_strings l = sort_strings k.
Proof.
  intros Hp. apply sorted_perm_eq; [apply sort_strings_sorted..|].
  by rewrite !sort_strings_perm.
Qed.

#[export] Instance sort_strings_proper :
  Proper ((≡ₚ) ==> (=)) sort_strings.
Proof. intros l k. apply sort_strings_of_perm. Qed.

Lemma sort_strings_id l : StronglySorted String.le l -> sort_strings l = l.
Proof.
  intros Hs. apply sorted_perm_eq; [apply sort_strings_sorted | done |].
  apply sort_strings_perm.
Qed.

Lemma sorted_set_sorted s : StronglySorted String.le (sorted_set s).
Proof. apply sort_strings_sorted. Qed.

Lemma sorted_set_nodup s : NoDup (sorted_set s).
Proof. unfold sorted_set. rewrite sort_strings_perm. apply NoDup_elements. Qed.

Lemma elem_of_sorted_set x s : x ∈ sorted_set s <-> x ∈ s.
Proof. unfold sorted_set. by rewrite sort_strings_perm, elem_of_elements. Qed.

Lemma elem_of_canonical_set x l : x ∈ canonical_set l <-> x ∈ l.
Proof. unfold canonical_set. by rewrite elem_of_sorted_set, elem_of_list_to_set. Qed.

Lemma canonical_set_nil_iff l : canonical_set l = [] <-> l = [].
Proof.
  split; [|by intros ->].
  intros H. destruct l as [|x l]; [done|].
  assert (x ∈ canonical_set (x :: l)) as Hx
    by (apply elem_of_canonical_set; left).
  rewrite H in Hx. by apply not_elem_of_nil in Hx.
Qed.

(** A canonical list is a fixed point: canonicalising it changes nothing. *)
Lemma canonical_set_id l :
  StronglySorted String.le l -> NoDup l -> canonical_set l = l.
Proof.
  intros Hs Hn. apply sorted_perm_eq; [apply sorted_set_sorted | done |].
  apply NoDup_Permutation; [apply sorted_set_nodup | done |].
  intros x. apply elem_of_canonical_set.
Qed.

Lemma canonical_set_ext l k : (forall x, x ∈ l <-> x ∈ k) -> canonical_set l = canonical_set k.
Proof.
  intros H. apply sorted_perm_eq; [apply sorted_set_sorted..|].
  apply NoDup_Permutation; [apply sorted_set_nodup..|].
  intros x. by rewrite !elem_of_canonical_set.
Qed.

Lemma length_canonical_set l : length (canonical_set l) <= length l.
Proof.
  apply submseteq_length, NoDup_submseteq; [apply sorted_set_nodup|].
  intros x. by rewrite elem_of_canonical_set.
Qed.

Lemma canonical_set_sorted l : StronglySorted String.le (canonical_set l).
Proof. apply sorted_set_sorted. Qed.

Lemma canonical_set_nodup l : NoDup (canonical_set l).
Proof. apply sorted_set_nodup. Qed.

(** Two positions of a sorted list. *)
Lemma sorted_lookup {A} (R : relation A) l i j x y :
  StronglySorted R l -> l !! i = Some x -> l !! j = Some y -> i < j -> R x y.
Proof.
  revert i j. induction l as [|z l IH]; intros i j Hs Hi Hj Hij; [done|].
  apply StronglySorted_cons in Hs as [Hz Hs].
  destruct j as [|j]; [lia|]. simpl in Hj. destruct i as [|i]; simpl in Hi.
  - injection Hi as ->. rewrite Forall_forall in Hz. by eapply Hz, list_elem_of_lookup_2.
  - eapply IH; [done..|lia].
Qed.

Create HintDb gotth.
#[export] Hint Resolve sort_strings_sorted sorted_set_sorted sorted_set_nodup
  canonical_set_sorted canonical_set_nodup : gotth.
