(* ===== verification/GoStd.v ===== *)
(** * The parts of the Go standard library the source uses

    A Go string is a byte sequence: Rocq's [string], whose characters are the
    bytes.  Functions that Go defines on runes are written on the UTF-8 bytes,
    which is exact because UTF-8 is self-synchronising: a lead byte is never
    inside another encoded rune, so the byte patterns of the spaces and of the
    control characters occur only where the decoder finds those runes.

    What depends on data this library does not carry (the Unicode case tables,
    the IDNA tables, the collation and [lower] of the PostgreSQL server, JSON
    text) is a field of the class [Host]; the properties of a field that a
    theorem needs are named classes of their own. *)

From stdpp Require Import base list strings pretty.
From Stdlib Require Import ZArith Lia Ascii.
From S2P Require Import Prelude.

(** ** Bytes *)

Definition byte_val (c : ascii) : N := N_of_ascii c.

Definition in_range (lo hi : N) (c : ascii) : bool :=
  (lo <=? byte_val c)%N && (byte_val c <=? hi)%N.

Fixpoint forall_bytes (p : ascii -> bool) (s : string) : bool :=
  match s with
  | EmptyString => true
  | String c s => p c && forall_bytes p s
  end.

Definition is_ascii_byte (c : ascii) : bool := (byte_val c <? 128)%N.
Definition is_ascii (s : string) : bool := forall_bytes is_ascii_byte s.

(** The bytes of a string, each as its code: what [[]byte(s)] converts to. *)
Fixpoint bytes_of (s : string) : list N :=
  match s with
  | EmptyString => []
  | String c s => byte_val c :: bytes_of s
  end.

(** Go's [len]: the number of bytes. *)
Abbreviation len := String.length.

(** ** package strings *)

(** [strings.HasPrefix] *)
Definition HasPrefix (s p : string) : bool := String.prefix p s.

(** [strings.Contains] *)
Fixpoint Contains (s sub : string) : bool :=
  HasPrefix s sub ||
  match s with
  | EmptyString => false
  | String _ s => Contains s sub
  end.

(** The bytes before and after the last occurrence of [b]: with
    [i := strings.LastIndexByte(s, b)], these are [s[:i]] and [s[i+1:]];
    [None] when [i = -1]. *)
Fixpoint SplitLastByte (b : ascii) (s : string) : option (string * string) :=
  match s with
  | EmptyString => None
  | String c s =>
      match SplitLastByte b s with
      | Some (l, r) => Some (String c l, r)
      | None => if Ascii.eqb c b then Some (EmptyString, s) else None
      end
  end.

(** The same for the first occurrence, as [strings.IndexByte] finds it. *)
Fixpoint SplitFirstByte (b : ascii) (s : string) : option (string * string) :=
  match s with
  | EmptyString => None
  | String c s =>
      if Ascii.eqb c b then Some (EmptyString, s)
      else match SplitFirstByte b s with
           | Some (l, r) => Some (String c l, r)
           | None => None
           end
  end.

(** [strings.HasSuffix(s, ".")] and [strings.TrimSuffix(s, ".")] for a
    one-byte suffix. *)
Fixpoint HasSuffixByte (s : string) (b : ascii) : bool :=
  match s with
  | EmptyString => false
  | String c EmptyString => Ascii.eqb c b
  | String _ s => HasSuffixByte s b
  end.

Fixpoint DropLast (s : string) : string :=
  match s with
  | EmptyString => EmptyString
  | String _ EmptyString => EmptyString
  | String c s => String c (DropLast s)
  end.

Definition TrimSuffixByte (s : string) (b : ascii) : string :=
  if HasSuffixByte s b then DropLast s else s.

(** The runes with the Unicode property White_Space, by their encodings. *)
Definition space1 (a : ascii) : bool :=
  in_range 9 13 a || (byte_val a =? 32)%N.
Definition space2 (a b : ascii) : bool :=
  (byte_val a =? 194)%N && ((byte_val b =? 133)%N || (byte_val b =? 160)%N).
Definition space3 (a b c : ascii) : bool :=
  ((byte_val a =? 225)%N && (byte_val b =? 154)%N && (byte_val c =? 128)%N)
  || ((byte_val a =? 226)%N && (byte_val b =? 128)%N
      && (in_range 128 138 c || in_range 168 169 c || (byte_val c =? 175)%N))
  || ((byte_val a =? 226)%N && (byte_val b =? 129)%N && (byte_val c =? 159)%N)
  || ((byte_val a =? 227)%N && (byte_val b =? 128)%N && (byte_val c =? 128)%N).

Fixpoint TrimLeftSpace (s : string) : string :=
  match s with
  | EmptyString => EmptyString
  | String a s1 =>
      if space1 a then TrimLeftSpace s1 else
      match s1 with
      | EmptyString => s
      | String b s2 =>
          if space2 a b then TrimLeftSpace s2 else
          match s2 with
          | EmptyString => s
          | String c s3 => if space3 a b c then TrimLeftSpace s3 else s
          end
      end
  end.

(** [TrimRightSpaceRev] trims a reversed string: its first byte is the last
    byte of the string, as [utf8.DecodeLastRuneInString] reads it. *)
Fixpoint TrimRightSpaceRev (r : string) : string :=
  match r with
  | EmptyString => EmptyString
  | String c r1 =>
      if space1 c then TrimRightSpaceRev r1 else
      match r1 with
      | EmptyString => r
      | String b r2 =>
          if space2 b c then TrimRightSpaceRev r2 else
          match r2 with
          | EmptyString => r
          | String a r3 => if space3 a b c then TrimRightSpaceRev r3 else r
          end
      end
  end.

(** [strings.TrimSpace] *)
Definition TrimSpace (s : string) : string :=
  String.rev (TrimRightSpaceRev (String.rev (TrimLeftSpace s))).

Definition lower_byte (c : ascii) : ascii :=
  if in_range 65 90 c then ascii_of_N (byte_val c + 32) else c.

Fixpoint map_bytes (f : ascii -> ascii) (s : string) : string :=
  match s with
  | EmptyString => EmptyString
  | String c s => String (f c) (map_bytes f s)
  end.

(** ** package unicode/utf8 *)

Definition cont (c : ascii) : bool := in_range 128 191 c.

(** The well-formed second bytes of a three- or four-byte encoding. *)
Definition second3 (a b : ascii) : bool :=
  let v := byte_val a in
  if (v =? 224)%N then in_range 160 191 b
  else if (v =? 237)%N then in_range 128 159 b
  else cont b.
Definition second4 (a b : ascii) : bool :=
  let v := byte_val a in
  if (v =? 240)%N then in_range 144 191 b
  else if (v =? 244)%N then in_range 128 143 b
  else cont b.

(** [utf8.ValidString] *)
Fixpoint ValidString (s : string) : bool :=
  match s with
  | EmptyString => true
  | String a s1 =>
      if is_ascii_byte a then ValidString s1
      else if in_range 194 223 a then
        match s1 with
        | String b s2 => cont b && ValidString s2
        | _ => false
        end
      else if in_range 224 239 a then
        match s1 with
        | String b (String c s3) => second3 a b && cont c && ValidString s3
        | _ => false
        end
      else if in_range 240 244 a then
        match s1 with
        | String b (String c (String d s4)) =>
            second4 a b && cont c && cont d && ValidString s4
        | _ => false
        end
      else false
  end.

(** ** package unicode

    [HasControl s]: a rune of the valid UTF-8 string [s] satisfies
    [unicode.IsControl] (U+0000-U+001F and U+007F-U+009F). *)
Fixpoint HasControl (s : string) : bool :=
  match s with
  | EmptyString => false
  | String a s1 =>
      (byte_val a <? 32)%N || (byte_val a =? 127)%N
      || match s1 with
         | String b _ => (byte_val a =? 194)%N && in_range 128 159 b
         | EmptyString => false
         end
      || HasControl s1
  end.

(** ** package net/mail

    The source always asks of [mail.ParseAddress(canonical)] that it returns
    an empty display name and the address [canonical] itself.  Every syntax
    [ParseAddress] accepts other than a bare [addr-spec] with an unquoted
    local part (surrounding space, angle brackets, quoted local parts,
    comments, groups) drops at least one byte of the input from the address,
    so the test holds exactly when the whole input is
    [dot-atom "@" (dot-atom / domain-literal)], read as [consumeAtom] does. *)

Definition mail_special (c : ascii) : bool :=
  existsb (Ascii.eqb c)
    ["("; ")"; "<"; ">"; "["; "]"; ":"; ";"; "@"; "092"; ","; "034"]%char.

Definition is_atext (c : ascii) : bool :=
  (in_range 33 126 c && negb (mail_special c)) || (128 <=? byte_val c)%N.

Definition dot_atom (s : string) : bool :=
  negb (s =?s "") && ValidString s && forall_bytes is_atext s
  && negb (HasPrefix s ".") && negb (Contains s "..") && negb (HasSuffixByte s ".").

(** ** package encoding/hex and encoding/binary *)

Definition hex_digit (n : N) : ascii :=
  if (n <? 10)%N then ascii_of_N (48 + n) else ascii_of_N (87 + n).

Fixpoint hex_encode (l : list N) : string :=
  match l with
  | [] => ""
  | b :: l => String (hex_digit (b / 16)) (String (hex_digit (b mod 16)) (hex_encode l))
  end.

(** The [k] low-order bytes of [n], most significant first. *)
Fixpoint be_bytes (k : nat) (n : N) : list N :=
  match k with
  | O => []
  | S k => be_bytes k (n / 256)%N ++ [(n mod 256)%N]
  end.

(** [binary.BigEndian.PutUint64(size[:], uint64(n))] *)
Definition be64 (n : N) : list N := be_bytes 8 (n mod 2 ^ 64).

(** [strconv.FormatUint(n, 10)] and [strconv.FormatInt(n, 10)]. *)
Definition FormatInt (n : Z) : string := pretty n.

(** ** What the source delegates to code outside this library *)

Class Host := {
  (** [lookupProfile.ToASCII] of golang.org/x/net/idna; [None] on error. *)
  idna_to_ascii : string -> option string;
  (** [strings.ToLower] on a string with a non-ASCII byte. *)
  unicode_to_lower : string -> string;
  (** [strings.EqualFold] when one string has a non-ASCII byte. *)
  unicode_equal_fold : string -> string -> bool;
  (** whether net/mail admits the text, brackets included, as a domain-literal *)
  mail_domain_literal : string -> bool;
  (** [json.Unmarshal] of JSON text into a [[]string]. *)
  json_strings : string -> option (list string);
  (** [json.Marshal] of a [[]string]. *)
  json_of_strings : list string -> string;
  (** PostgreSQL's [lower(text)] and the order of [ORDER BY] on text. *)
  sql_lower : string -> string;
  sql_leb : string -> string -> bool;
}.

Section WithHost.
Context `{HOST : !Host}.

(** [strings.ToLower] *)
Definition ToLower (s : string) : string :=
  if is_ascii s then map_bytes lower_byte s else unicode_to_lower s.

(** [strings.EqualFold] *)
Definition EqualFold (s t : string) : bool :=
  if is_ascii s && is_ascii t
  then map_bytes lower_byte s =?s map_bytes lower_byte t
  else unicode_equal_fold s t.

(** [p, err := mail.ParseAddress(s)] with [err == nil], [p.Name == ""] and
    [p.Address == s]. *)
Definition ParseAddressExact (s : string) : bool :=
  match SplitFirstByte "@" s with
  | Some (l, d) => dot_atom l && (dot_atom d || mail_domain_literal d)
  | None => false
  end.
End WithHost.

(** ** Strings *)

Lemma app_empty_r (s : string) : s +:+ "" = s.
Proof. induction s as [|c s IH]; [done|]. simpl. unfold String.append in *. by rewrite IH. Qed.

Lemma app_cons c (s t : string) : String c s +:+ t = String c (s +:+ t).
Proof. done. Qed.

Lemma app_assoc_s (s t u : string) : s +:+ (t +:+ u) = (s +:+ t) +:+ u.
Proof. induction s as [|c s IH]; [done|]. by rewrite !app_cons, IH. Qed.

Lemma len_app (s t : string) : len (s +:+ t) = len s + len t.
Proof. induction s as [|c s IH]; [done|]. rewrite app_cons. simpl. by rewrite IH. Qed.

Lemma app_nonempty_r (s : string) c t : s +:+ String c t <> "".
Proof. by destruct s. Qed.

Lemma rev_app_eq (s t : string) : String.rev_app s t = String.rev s +:+ t.
Proof.
  unfold String.rev. revert t. induction s as [|c s IH]; intros t; [done|]. simpl.
  rewrite IH, (IH (String c "")), <- app_assoc_s. done.
Qed.

Lemma rev_cons_s c (s : string) : String.rev (String c s) = String.rev s +:+ String c "".
Proof. exact (rev_app_eq s (String c "")). Qed.

Lemma rev_app_distr_s (s t : string) :
  String.rev (s +:+ t) = String.rev t +:+ String.rev s.
Proof.
  induction s as [|c s IH]; [by rewrite app_empty_r|].
  by rewrite app_cons, !rev_cons_s, IH, app_assoc_s.
Qed.

Lemma rev_involutive_s (s : string) : String.rev (String.rev s) = s.
Proof.
  induction s as [|c s IH]; [done|]. by rewrite rev_cons_s, rev_app_distr_s, IH.
Qed.

Lemma forall_bytes_app p (s t : string) :
  forall_bytes p (s +:+ t) = forall_bytes p s && forall_bytes p t.
Proof.
  induction s as [|c s IH]; [done|]. rewrite app_cons. simpl. by rewrite IH, andb_assoc.
Qed.

Lemma forall_bytes_rev p (s : string) : forall_bytes p (String.rev s) = forall_bytes p s.
Proof.
  induction s as [|c s IH]; [done|].
  rewrite rev_cons_s, forall_bytes_app, IH. simpl. by rewrite andb_true_r, andb_comm.
Qed.

Lemma forall_bytes_impl (p q : ascii -> bool) (s : string) :
  (forall c, p c = true -> q c = true) ->
  forall_bytes p s = true -> forall_bytes q s = true.
Proof.
  intros Hpq. induction s as [|c s IH]; simpl; [done|].
  rewrite !andb_true_iff. intros [??]; split; auto.
Qed.

(** ** SplitLastByte *)

Lemma SplitLastByte_none b s :
  SplitLastByte b s = None <-> forall_bytes (fun c => negb (Ascii.eqb c b)) s = true.
Proof.
  induction s as [|c s IH]; simpl; [done|].
  destruct (SplitLastByte b s) as [[l r]|]; [|destruct (Ascii.eqb c b)]; simpl.
  - split; [done|]. rewrite andb_true_iff. intros [_ ?%IH]. done.
  - done.
  - rewrite <- IH. done.
Qed.

Lemma SplitLastByte_app b l r :
  SplitLastByte b r = None -> SplitLastByte b (l +:+ String b r) = Some (l, r).
Proof.
  intros Hr. induction l as [|c l IH].
  - change ("" +:+ String b r) with (String b r). simpl. by rewrite Hr, Ascii.eqb_refl.
  - rewrite app_cons. simpl. by rewrite IH.
Qed.

Lemma SplitLastByte_some b s l r :
  SplitLastByte b s = Some (l, r) -> s = l +:+ String b r /\ SplitLastByte b r = None.
Proof.
  revert l r. induction s as [|c s IH]; intros l r; simpl; [done|].
  destruct (SplitLastByte b s) as [[l' r']|] eqn:E.
  - intros [= <- <-]. destruct (IH _ _ eq_refl) as [-> ?]. done.
  - destruct (Ascii.eqb c b) eqn:Ec; [|done]. intros [= <- <-].
    apply Ascii.eqb_eq in Ec as ->. done.
Qed.

(** ** TrimSpace *)

Definition starts_space (s : string) : bool :=
  match s with
  | EmptyString => false
  | String a s1 =>
      space1 a ||
      match s1 with
      | EmptyString => false
      | String b s2 => space2 a b ||
          match s2 with EmptyString => false | String c _ => space3 a b c end
      end
  end.

Definition ends_space_rev (r : string) : bool :=
  match r with
  | EmptyString => false
  | String c r1 =>
      space1 c ||
      match r1 with
      | EmptyString => false
      | String b r2 => space2 b c ||
          match r2 with EmptyString => false | String a _ => space3 a b c end
      end
  end.

Lemma TrimLeftSpace_id s : starts_space s = false -> TrimLeftSpace s = s.
Proof.
  destruct s as [|a [|b [|c s]]]; simpl; [done|..];
    destruct (space1 a); try done; destruct (space2 a b); try done.
  by destruct (space3 a b c).
Qed.

Lemma TrimRightSpaceRev_id r : ends_space_rev r = false -> TrimRightSpaceRev r = r.
Proof.
  destruct r as [|a [|b [|c s]]]; simpl; [done|..];
    destruct (space1 a); try done; destruct (space2 b a); try done.
  by destruct (space3 c b a).
Qed.

Lemma TrimLeftSpace_eq a s1 :
  TrimLeftSpace (String a s1) =
    if space1 a then TrimLeftSpace s1 else
    match s1 with
    | EmptyString => String a s1
    | String b s2 =>
        if space2 a b then TrimLeftSpace s2 else
        match s2 with
        | EmptyString => String a s1
        | String c s3 => if space3 a b c then TrimLeftSpace s3 else String a s1
        end
    end.
Proof. done. Qed.

Lemma TrimRightSpaceRev_eq c r1 :
  TrimRightSpaceRev (String c r1) =
    if space1 c then TrimRightSpaceRev r1 else
    match r1 with
    | EmptyString => String c r1
    | String b r2 =>
        if space2 b c then TrimRightSpaceRev r2 else
        match r2 with
        | EmptyString => String c r1
        | String a r3 => if space3 a b c then TrimRightSpaceRev r3 else String c r1
        end
    end.
Proof. done. Qed.

Lemma TrimLeftSpace_starts s : starts_space (TrimLeftSpace s) = false.
Proof.
  remember (len s) as n eqn:Hn. revert s Hn.
  induction n as [n IH] using lt_wf_ind; intros s ->.
  assert (forall s', len s' < len s -> starts_space (TrimLeftSpace s') = false) as IH'
    by (intros s' Hl; by eapply IH).
  clear IH. destruct s as [|a s1]; [done|].
  rewrite TrimLeftSpace_eq. destruct (space1 a) eqn:Ea; [apply IH'; simpl; lia|].
  destruct s1 as [|b s2]; [by simpl; rewrite Ea|].
  destruct (space2 a b) eqn:Eb; [apply IH'; simpl; lia|].
  destruct s2 as [|c s3]; [by simpl; rewrite Ea, Eb|].
  destruct (space3 a b c) eqn:Ec; [apply IH'; simpl; lia|].
  simpl. by rewrite Ea, Eb, Ec.
Qed.

Lemma TrimRightSpaceRev_suffix r : exists p, r = p +:+ TrimRightSpaceRev r.
Proof.
  remember (len r) as n eqn:Hn. revert r Hn.
  induction n as [n IH] using lt_wf_ind; intros r ->.
  assert (forall p r', len r' < len r -> r = p +:+ r' ->
            exists q, r = q +:+ TrimRightSpaceRev r') as Hstep.
  { intros p r' Hl Hr. destruct (IH _ Hl r' eq_refl) as [q Hq].
    exists (p +:+ q). rewrite <- app_assoc_s. by rewrite <- Hq. }
  clear IH. destruct r as [|c r1]; [by exists ""|].
  rewrite TrimRightSpaceRev_eq.
  destruct (space1 c); [apply (Hstep (String c "")); [simpl; lia|done]|].
  destruct r1 as [|b r2]; [by exists ""|].
  destruct (space2 b c); [apply (Hstep (String c (String b ""))); [simpl; lia|done]|].
  destruct r2 as [|a r3]; [by exists ""|].
  destruct (space3 a b c); [|by exists ""].
  apply (Hstep (String c (String b (String a "")))); [simpl; lia|done].
Qed.

Lemma starts_space_app s t : starts_space s = true -> starts_space (s +:+ t) = true.
Proof.
  destruct s as [|a [|b [|c s]]]; [done| | |]; rewrite !app_cons; simpl;
    destruct (space1 a); simpl; try done.
  - destruct (space2 a b); simpl; done.
Qed.

Lemma TrimSpace_starts s : starts_space (TrimSpace s) = false.
Proof.
  unfold TrimSpace. set (l := TrimLeftSpace s).
  destruct (TrimRightSpaceRev_suffix (String.rev l)) as [p Hp].
  destruct (starts_space (String.rev _)) eqn:E; [|done].
  apply (starts_space_app _ (String.rev p)) in E.
  rewrite <- rev_app_distr_s, <- Hp, rev_involutive_s in E.
  unfold l in E. by rewrite TrimLeftSpace_starts in E.
Qed.

Lemma TrimSpace_id s :
  starts_space s = false -> ends_space_rev (String.rev s) = false -> TrimSpace s = s.
Proof.
  intros Hs He. unfold TrimSpace.
  by rewrite TrimLeftSpace_id, TrimRightSpaceRev_id, rev_involutive_s.
Qed.

(** Printable ASCII without the space. *)
Definition plain_byte (c : ascii) : bool := in_range 33 126 c.

Lemma plain_not_space a : plain_byte a = true ->
  space1 a = false /\ (forall b, space2 a b = false /\ space2 b a = false)
  /\ (forall b c, space3 a b c = false /\ space3 b c a = false).
Proof.
  unfold plain_byte, space1, space2, space3, in_range. intros Ha. to_prop.
  split; [to_prop; lia|]. split.
  - intros b. split; to_prop; lia.
  - intros b c. split; to_prop; lia.
Qed.

Lemma plain_starts a s : plain_byte a = true -> starts_space (String a s) = false.
Proof.
  intros (H1 & H2 & H3)%plain_not_space. simpl. rewrite H1.
  destruct s as [|b [|c s]]; [done| |]; destruct (H2 b) as [-> _]; [done|].
  by destruct (H3 b c) as [-> _].
Qed.

Lemma plain_ends_rev a s : plain_byte a = true -> ends_space_rev (String a s) = false.
Proof.
  intros (H1 & H2 & H3)%plain_not_space. simpl. rewrite H1.
  destruct s as [|b [|c s]]; [done| |]; destruct (H2 b) as [_ ->]; [done|].
  by destruct (H3 c b) as [_ ->].
Qed.

Lemma plain_ends s t :
  t <> "" -> forall_bytes plain_byte t = true ->
  ends_space_rev (String.rev (s +:+ t)) = false.
Proof.
  intros Ht Hp. rewrite rev_app_distr_s.
  rewrite <- forall_bytes_rev in Hp.
  destruct (String.rev t) as [|c u] eqn:E.
  - destruct Ht. by rewrite <- (rev_involutive_s t), E.
  - rewrite app_cons. apply plain_ends_rev. simpl in Hp. by apply andb_true_iff in Hp as [].
Qed.

Lemma TrimSpace_plain s : forall_bytes plain_byte s = true -> TrimSpace s = s.
Proof.
  intros Hp. destruct s as [|a s]; [done|]. apply TrimSpace_id.
  - apply plain_starts. simpl in Hp. by apply andb_true_iff in Hp as [].
  - by apply (plain_ends ""); [done|].
Qed.

(** What follows an "@" does not influence whether a string starts with a
    space. *)
Lemma starts_space_at l t u :
  l <> "" -> starts_space (l +:+ String "@" t) = starts_space (l +:+ String "@" u).
Proof.
  intros Hl. destruct l as [|a [|b [|c l]]]; [done| | |]; rewrite !app_cons; [| |done].
  - assert (space2 a "@" = false /\ forall c, space3 a "@" c = false) as [H2 H3].
    { unfold space2, space3. change (byte_val "@") with 64%N.
      split; [|intros c]; to_prop; lia. }
    change ("" +:+ String "@" t) with (String "@" t).
    change ("" +:+ String "@" u) with (String "@" u).
    simpl. rewrite H2. destruct t, u; rewrite ?H3; done.
  - change ("" +:+ String "@" t) with (String "@" t).
    change ("" +:+ String "@" u) with (String "@" u). done.
Qed.

(** ** Bytes and big-endian lengths *)

Definition be_value (l : list N) : N := foldl (fun acc b => acc * 256 + b)%N 0%N l.

Lemma be_value_bytes k n : (n < 256 ^ N.of_nat k)%N -> be_value (be_bytes k n) = n.
Proof.
  revert n. induction k as [|k IH]; intros n Hn.
  - simpl in *. unfold be_value. simpl. lia.
  - cbn [be_bytes]. unfold be_value in *. rewrite foldl_app. simpl.
    rewrite IH.
    + rewrite (N.mul_comm (n / 256)). symmetry. apply N.div_mod. lia.
    + rewrite Nat2N.inj_succ, N.pow_succ_r' in Hn. apply N.Div0.div_lt_upper_bound. lia.
Qed.

Lemma length_be_bytes k n : length (be_bytes k n) = k.
Proof. revert n. induction k as [|k IH]; intros n; simpl; [done|]. rewrite length_app, IH. simpl. lia. Qed.

Lemma length_be64 n : length (be64 n) = 8.
Proof. apply length_be_bytes. Qed.

Lemma be64_inj m n : (m < 2 ^ 64)%N -> (n < 2 ^ 64)%N -> be64 m = be64 n -> m = n.
Proof.
  intros Hm Hn H. apply (f_equal be_value) in H. unfold be64 in H.
  rewrite !be_value_bytes, !N.mod_small in H; rewrite ?N.mod_small; done.
Qed.

Lemma byte_val_inj a b : byte_val a = byte_val b -> a = b.
Proof.
  intros H. rewrite <- (ascii_N_embedding a), <- (ascii_N_embedding b).
  unfold byte_val in H. by rewrite H.
Qed.

Lemma length_bytes_of s : length (bytes_of s) = len s.
Proof. induction s as [|c s IH]; simpl; [done|]. by rewrite IH. Qed.

Lemma bytes_of_inj s t : bytes_of s = bytes_of t -> s = t.
Proof.
  revert t. induction s as [|c s IH]; intros [|d t]; simpl; try done.
  intros [= ?%byte_val_inj ?]. f_equal; auto.
Qed.

(** ** Checking a predicate on every byte *)

Definition all_bytes : list ascii := map ascii_of_nat (seq 0 256).

Lemma forall_ascii (p : ascii -> bool) : forallb p all_bytes = true -> forall c, p c = true.
Proof.
  intros H c. rewrite forallb_forall in H. apply H. unfold all_bytes.
  rewrite <- (ascii_nat_embedding c). apply in_map, in_seq.
  pose proof (nat_ascii_bounded c). lia.
Qed.

(** One byte class inside another. *)
Lemma byte_class_incl (p q : ascii -> bool) :
  forallb (fun c => implb (p c) (q c)) all_bytes = true ->
  forall s, forall_bytes p s = true -> forall_bytes q s = true.
Proof.
  intros H s. apply forall_bytes_impl. intros c Hp.
  pose proof (forall_ascii _ H c) as Hc. simpl in Hc. by rewrite Hp in Hc.
Qed.
