(* ===== verification/Json.v ===== *)
(** * JSON text (package encoding/json)

    The services exchange JSON with Postfix and with each other, so the text
    level of encoding/json is modelled: the quoting of strings, the scanner
    with its nesting limit, the unquoting of literals (escapes, surrogate
    pairs, bytes that are not UTF-8), and the assignment of a parsed value to
    the fields of a struct (exact or case-folded names, null, repeated keys,
    unknown keys).  [parse_print] is the round trip of text, and
    [parse_value_fuel] shows that the recursion bound is never the reason a
    text is refused. *)

From stdpp Require Import base list strings pretty.
From Stdlib Require Import ZArith Lia Ascii.
From S2P Require Import Prelude GoStd.

#[local] Set Warnings "-register-all".

(** ** Quoting a string, with HTML escaping as [json.Marshal] has it *)

Definition hex4 (n : N) : string := hex_encode [(n / 256)%N; (n mod 256)%N].
Definition unicode_escape (n : N) : string := "\u" +:+ hex4 n.
Definition backslash (c : ascii) : string := String "\" (String c "").

(** One ASCII byte inside a JSON string. *)
Definition quote_byte (c : ascii) : string :=
  let v := byte_val c in
  if (v =? 34)%N || (v =? 92)%N then backslash c
  else if (v =? 8)%N then backslash "b"
  else if (v =? 12)%N then backslash "f"
  else if (v =? 10)%N then backslash "n"
  else if (v =? 13)%N then backslash "r"
  else if (v =? 9)%N then backslash "t"
  else if (v <? 32)%N || (v =? 60)%N || (v =? 62)%N || (v =? 38)%N then unicode_escape v
  else String c "".

(** Bytes that are not UTF-8 become U+FFFD; U+2028 and U+2029 are escaped. *)
Fixpoint quote_bytes (s : string) : string :=
  match s with
  | EmptyString => EmptyString
  | String a s1 =>
      if is_ascii_byte a then quote_byte a +:+ quote_bytes s1
      else
        match s1 with
        | String b s2 =>
            if in_range 194 223 a && cont b then String a (String b (quote_bytes s2))
            else
              match s2 with
              | String c s3 =>
                  if in_range 224 239 a && second3 a b && cont c then
                    if (byte_val a =? 226)%N && (byte_val b =? 128)%N
                       && ((byte_val c =? 168)%N || (byte_val c =? 169)%N)
                    then unicode_escape (8192 + byte_val c - 128) +:+ quote_bytes s3
                    else String a (String b (String c (quote_bytes s3)))
                  else
                    match s3 with
                    | String e s4 =>
                        if in_range 240 244 a && second4 a b && cont c && cont e
                        then String a (String b (String c (String e (quote_bytes s4))))
                        else "\ufffd" +:+ quote_bytes s1
                    | EmptyString => "\ufffd" +:+ quote_bytes s1
                    end
              | EmptyString => "\ufffd" +:+ quote_bytes s1
              end
        | EmptyString => "\ufffd" +:+ quote_bytes s1
        end
  end.

Definition dquote : string := String "034" "".
Definition json_quote (s : string) : string := dquote +:+ quote_bytes s +:+ dquote.

(** ** Reading a string literal *)

Definition hex_value (c : ascii) : option N :=
  let v := byte_val c in
  if in_range 48 57 c then Some (v - 48)%N
  else if in_range 97 102 c then Some (v - 87)%N
  else if in_range 65 70 c then Some (v - 55)%N
  else None.

Definition hex_unit (a b c d : ascii) : option N :=
  match hex_value a, hex_value b, hex_value c, hex_value d with
  | Some x, Some y, Some z, Some t => Some (((x * 16 + y) * 16 + z) * 16 + t)%N
  | _, _, _, _ => None
  end.

Definition simple_escape (c : ascii) : option N :=
  let v := byte_val c in
  if (v =? 34)%N || (v =? 92)%N || (v =? 47)%N then Some v
  else if Ascii.eqb c "b" then Some 8%N
  else if Ascii.eqb c "f" then Some 12%N
  else if Ascii.eqb c "n" then Some 10%N
  else if Ascii.eqb c "r" then Some 13%N
  else if Ascii.eqb c "t" then Some 9%N
  else None.

(** What a literal spells: raw bytes and escaped UTF-16 code units. *)
Inductive literal_unit := UByte (c : ascii) | UCode (n : N).

Definition push {A B} (x : A) (r : option (list A * B)) : option (list A * B) :=
  match r with
  | Some (l, b) => Some (x :: l, b)
  | None => None
  end.

(** The units up to the closing quote, and the text after it. *)
Fixpoint scan_string (s : string) : option (list literal_unit * string) :=
  match s with
  | EmptyString => None
  | String c s1 =>
      if (byte_val c =? 34)%N then Some ([], s1)
      else if (byte_val c =? 92)%N then
        match s1 with
        | EmptyString => None
        | String e s2 =>
            if Ascii.eqb e "u" then
              match s2 with
              | String h1 (String h2 (String h3 (String h4 s3))) =>
                  match hex_unit h1 h2 h3 h4 with
                  | Some n => push (UCode n) (scan_string s3)
                  | None => None
                  end
              | _ => None
              end
            else
              match simple_escape e with
              | Some n => push (UCode n) (scan_string s2)
              | None => None
              end
        end
      else if (byte_val c <? 32)%N then None
      else push (UByte c) (scan_string s1)
  end.

(** [utf8.AppendRune] of a rune that is not a surrogate. *)
Definition utf8_encode (n : N) : string :=
  if (n <? 128)%N then String (ascii_of_N n) ""
  else if (n <? 2048)%N then
    String (ascii_of_N (192 + n / 64)) (String (ascii_of_N (128 + n mod 64)) "")
  else if (n <? 65536)%N then
    String (ascii_of_N (224 + n / 4096)) (String (ascii_of_N (128 + (n / 64) mod 64))
      (String (ascii_of_N (128 + n mod 64)) ""))
  else
    String (ascii_of_N (240 + n / 262144)) (String (ascii_of_N (128 + (n / 4096) mod 64))
      (String (ascii_of_N (128 + (n / 64) mod 64)) (String (ascii_of_N (128 + n mod 64)) ""))).

Definition replacement : string := utf8_encode 65533.

Definition is_surrogate (n : N) : bool := (55296 <=? n)%N && (n <? 57344)%N.
(** [utf16.DecodeRune], when it is not the replacement character. *)
Definition surrogate_pair (n m : N) : option N :=
  if (n <? 56320)%N && (56320 <=? m)%N && (m <? 57344)%N
  then Some ((n - 55296) * 1024 + (m - 56320) + 65536)%N
  else None.

Fixpoint decode_units (l : list literal_unit) : string :=
  match l with
  | [] => EmptyString
  | UCode n :: l1 =>
      if is_surrogate n then
        match l1 with
        | UCode m :: l2 =>
            match surrogate_pair n m with
            | Some r => utf8_encode r +:+ decode_units l2
            | None => replacement +:+ decode_units l1
            end
        | _ => replacement +:+ decode_units l1
        end
      else utf8_encode n +:+ decode_units l1
  | UByte a :: l1 =>
      if is_ascii_byte a then String a (decode_units l1)
      else
        match l1 with
        | UByte b :: l2 =>
            if in_range 194 223 a && cont b then String a (String b (decode_units l2))
            else
              match l2 with
              | UByte c :: l3 =>
                  if in_range 224 239 a && second3 a b && cont c
                  then String a (String b (String c (decode_units l3)))
                  else
                    match l3 with
                    | UByte e :: l4 =>
                        if in_range 240 244 a && second4 a b && cont c && cont e
                        then String a (String b (String c (String e (decode_units l4))))
                        else replacement +:+ decode_units l1
                    | _ => replacement +:+ decode_units l1
                    end
              | _ => replacement +:+ decode_units l1
              end
        | _ => replacement +:+ decode_units l1
        end
  end.

(** ** Numbers *)

Definition is_digit (c : ascii) : bool := in_range 48 57 c.

Fixpoint take_digits (s : string) : string * string :=
  match s with
  | String c s1 =>
      if is_digit c then (String c (take_digits s1).1, (take_digits s1).2) else ("", s)
  | EmptyString => ("", "")
  end.

(** At least one digit. *)
Definition some_digits (s : string) : option (string * string) :=
  let p := take_digits s in if p.1 =?s "" then None else Some p.

(** "0", or digits that do not start with it. *)
Definition scan_integer (s : string) : option (string * string) :=
  match s with
  | String c s1 => if (byte_val c =? 48)%N then Some ("0", s1) else some_digits s
  | EmptyString => None
  end.

Definition scan_fraction (s : string) : option (string * string) :=
  match s with
  | String c s1 =>
      if (byte_val c =? 46)%N then
        match some_digits s1 with
        | Some (l, r) => Some (String c l, r)
        | None => None
        end
      else Some ("", s)
  | EmptyString => Some ("", "")
  end.

Definition exponent_sign (s : string) : string * string :=
  match s with
  | String c s1 =>
      if (byte_val c =? 43)%N || (byte_val c =? 45)%N then (String c "", s1) else ("", s)
  | EmptyString => ("", "")
  end.

Definition scan_exponent (s : string) : option (string * string) :=
  match s with
  | String c s1 =>
      if (byte_val c =? 101)%N || (byte_val c =? 69)%N then
        let (sign, s2) := exponent_sign s1 in
        match some_digits s2 with
        | Some (l, r) => Some (String c (sign +:+ l), r)
        | None => None
        end
      else Some ("", s)
  | EmptyString => Some ("", "")
  end.

Definition scan_unsigned (s : string) : option (string * string) :=
  match scan_integer s with
  | None => None
  | Some (i, s1) =>
      match scan_fraction s1 with
      | None => None
      | Some (f, s2) =>
          match scan_exponent s2 with
          | None => None
          | Some (e, s3) => Some (i +:+ f +:+ e, s3)
          end
      end
  end.

(** A number literal and the text after it. *)
Definition scan_number (s : string) : option (string * string) :=
  match s with
  | String c s1 =>
      if (byte_val c =? 45)%N then
        match scan_unsigned s1 with
        | Some (l, r) => Some (String c l, r)
        | None => None
        end
      else scan_unsigned s
  | EmptyString => None
  end.

(** ** Values *)

Inductive jval :=
| VNull
| VBool (b : bool)
| VNum (literal : string)
| VStr (s : string)
| VArr (l : list jval)
| VObj (fields : list (string * jval)).

Definition is_ws (c : ascii) : bool :=
  (byte_val c =? 32)%N || (byte_val c =? 9)%N || (byte_val c =? 13)%N || (byte_val c =? 10)%N.

Fixpoint skip_ws (s : string) : string :=
  match s with
  | String c s1 => if is_ws c then skip_ws s1 else s
  | EmptyString => EmptyString
  end.

(** The text after the byte [v], which must come next. *)
Definition expect (v : N) (s : string) : option string :=
  match skip_ws s with
  | String c s1 => if (byte_val c =? v)%N then Some s1 else None
  | EmptyString => None
  end.

Fixpoint strip (p s : string) : option string :=
  match p, s with
  | EmptyString, _ => Some s
  | String a p, String b s => if Ascii.eqb a b then strip p s else None
  | String _ _, EmptyString => None
  end.

Definition maxNestingDepth : N := 10000.

(** The recursive descent; [n] bounds the recursion and [d] the nesting. *)
Fixpoint parse_value (n : nat) (d : N) (s : string) {struct n} : option (jval * string) :=
  match n with
  | O => None
  | S n =>
      match skip_ws s with
      | EmptyString => None
      | String c s1 =>
          let v := byte_val c in
          if (v =? 123)%N then
            if (d =? 0)%N then None
            else match expect 125 s1 with
                 | Some s2 => Some (VObj [], s2)
                 | None => match parse_members n (d - 1) s1 with
                           | Some (l, s2) => Some (VObj l, s2)
                           | None => None
                           end
                 end
          else if (v =? 91)%N then
            if (d =? 0)%N then None
            else match expect 93 s1 with
                 | Some s2 => Some (VArr [], s2)
                 | None => match parse_elements n (d - 1) s1 with
                           | Some (l, s2) => Some (VArr l, s2)
                           | None => None
                           end
                 end
          else if (v =? 34)%N then
            match scan_string s1 with
            | Some (l, s2) => Some (VStr (decode_units l), s2)
            | None => None
            end
          else if (v =? 116)%N then option_map (pair (VBool true)) (strip "rue" s1)
          else if (v =? 102)%N then option_map (pair (VBool false)) (strip "alse" s1)
          else if (v =? 110)%N then option_map (pair VNull) (strip "ull" s1)
          else match scan_number (String c s1) with
               | Some (l, s2) => Some (VNum l, s2)
               | None => None
               end
      end
  end
with parse_elements (n : nat) (d : N) (s : string) {struct n} : option (list jval * string) :=
  match n with
  | O => None
  | S n =>
      match parse_value n d s with
      | None => None
      | Some (v, s1) =>
          match expect 44 s1 with
          | Some s2 => push v (parse_elements n d s2)
          | None => option_map (pair [v]) (expect 93 s1)
          end
      end
  end
with parse_members (n : nat) (d : N) (s : string) {struct n}
    : option (list (string * jval) * string) :=
  match n with
  | O => None
  | S n =>
      match expect 34 s with
      | None => None
      | Some s1 =>
          match scan_string s1 with
          | None => None
          | Some (key, s2) =>
              match expect 58 s2 with
              | None => None
              | Some s3 =>
                  match parse_value n d s3 with
                  | None => None
                  | Some (v, s4) =>
                      match expect 44 s4 with
                      | Some s5 => push (decode_units key, v) (parse_members n d s5)
                      | None => option_map (pair [(decode_units key, v)]) (expect 125 s4)
                      end
                  end
              end
          end
      end
  end.

Definition json_fuel (s : string) : nat := 2 * len s + 1.

(** [json.Unmarshal(data, _)] up to the assignment; and the two calls of
    [Decode] that strict readers make, the second of which must report the
    end of the input: one value, with nothing but white space around it. *)
Definition parse_json (s : string) : option jval :=
  match parse_value (json_fuel s) maxNestingDepth s with
  | Some (v, rest) => if skip_ws rest =?s "" then Some v else None
  | None => None
  end.

(** ** Printing *)

(** The elements of an array or object with commas between them. *)
Fixpoint commas (l : list string) : string :=
  match l with
  | [] => ""
  | [x] => x
  | x :: l => x +:+ "," +:+ commas l
  end.

Definition print_field (p : string * string) : string := json_quote p.1 +:+ ":" +:+ p.2.

(** Compact text, as [json.Marshal] writes it. *)
Fixpoint print_json (v : jval) : string :=
  match v with
  | VNull => "null"
  | VBool true => "true"
  | VBool false => "false"
  | VNum literal => literal
  | VStr s => json_quote s
  | VArr l => "[" +:+ commas (map print_json l) +:+ "]"
  | VObj fields =>
      "{" +:+ commas (map (fun p => print_field (p.1, print_json p.2)) fields) +:+ "}"
  end.

(** ** Storing a value into a Go variable

    [old] is what the variable held: null leaves it alone. *)

Definition store_string (v : jval) (old : string) : option string :=
  match v with
  | VStr s => Some s
  | VNull => Some old
  | _ => None
  end.

Definition store_bool (v : jval) (old : bool) : option bool :=
  match v with
  | VBool b => Some b
  | VNull => Some old
  | _ => None
  end.

(** [strconv.ParseInt(s, 10, 64)] on a number literal. *)
Fixpoint digits_value (acc : N) (s : string) : option N :=
  match s with
  | EmptyString => Some acc
  | String c s => if is_digit c then digits_value (acc * 10 + (byte_val c - 48)) s else None
  end.

Definition parse_digits (s : string) : option Z :=
  if s =?s "" then None else Z.of_N <$> digits_value 0 s.

Definition ParseInt64 (s : string) : option Z :=
  match match s with
        | String c s1 => if (byte_val c =? 45)%N then Z.opp <$> parse_digits s1 else parse_digits s
        | EmptyString => None
        end with
  | Some n => if (- 2 ^ 63 <=? n)%Z && (n <? 2 ^ 63)%Z then Some n else None
  | None => None
  end.

Definition store_int (v : jval) (old : Z) : option Z :=
  match v with
  | VNum l => ParseInt64 l
  | VNull => Some old
  | _ => None
  end.

(** A slice: its length, and the elements of its backing array that were ever
    written.  An element is decoded in place, over what the array holds. *)
Record GoSlice (A : Type) := { sl_array : list A; sl_len : nat }.
Arguments sl_array {A} _.
Arguments sl_len {A} _.
Definition nil_slice {A} : GoSlice A := {| sl_array := []; sl_len := 0 |}.
Definition slice_list {A} (s : GoSlice A) : list A := take (sl_len s) (sl_array s).

Fixpoint store_elements {A} (store : jval -> A -> option A) (zero : A) (l : list jval)
    (array : list A) : option (list A) :=
  match l with
  | [] => Some array
  | v :: l =>
      match store v (default zero (head array)), store_elements store zero l (tail array) with
      | Some x, Some xs => Some (x :: xs)
      | _, _ => None
      end
  end.

Definition store_slice {A} (store : jval -> A -> option A) (zero : A) (v : jval)
    (old : GoSlice A) : option (GoSlice A) :=
  match v with
  | VArr [] | VNull => Some nil_slice
  | VArr l =>
      match store_elements store zero l (sl_array old) with
      | Some array => Some {| sl_array := array; sl_len := length l |}
      | None => None
      end
  | _ => None
  end.

(** Field names match exactly or up to case: [foldName] maps ASCII letters to
    upper case, U+017F to S and U+212A to K; no other rune folds to ASCII. *)
Definition upper_byte (c : ascii) : ascii :=
  if in_range 97 122 c then ascii_of_N (byte_val c - 32) else c.

Fixpoint fold_name (s : string) : string :=
  match s with
  | EmptyString => EmptyString
  | String a s1 =>
      match s1 with
      | String b s2 =>
          if (byte_val a =? 197)%N && (byte_val b =? 191)%N then String "S" (fold_name s2)
          else match s2 with
               | String c s3 =>
                   if (byte_val a =? 226)%N && (byte_val b =? 132)%N && (byte_val c =? 170)%N
                   then String "K" (fold_name s3)
                   else String (upper_byte a) (fold_name s1)
               | EmptyString => String (upper_byte a) (fold_name s1)
               end
      | EmptyString => String (upper_byte a) EmptyString
      end
  end.

(** A struct type: the JSON names of its fields and how each is stored. *)
Definition struct_type (A : Type) : Type := list (string * (jval -> A -> option A)).

Definition find_field {A} (fields : struct_type A) (key : string)
    : option (jval -> A -> option A) :=
  match List.find (fun f => key =?s f.1) fields with
  | Some f => Some f.2
  | None => snd <$> List.find (fun f => fold_name key =?s fold_name f.1) fields
  end.

(** [strict] is DisallowUnknownFields. *)
Fixpoint store_members {A} (strict : bool) (fields : struct_type A)
    (l : list (string * jval)) (a : A) : option A :=
  match l with
  | [] => Some a
  | (key, v) :: l =>
      match find_field fields key with
      | Some store => match store v a with
                      | Some a' => store_members strict fields l a'
                      | None => None
                      end
      | None => if strict then None else store_members strict fields l a
      end
  end.

Definition store_struct {A} (strict : bool) (fields : struct_type A) (v : jval) (a : A)
    : option A :=
  match v with
  | VObj l => store_members strict fields l a
  | VNull => Some a
  | _ => None
  end.

(** [json.Unmarshal(data, &a)], and a strict reader of one value. *)
Definition decode_json {A} (store : jval -> A -> option A) (zero : A) (s : string) : option A :=
  match parse_json s with
  | Some v => store v zero
  | None => None
  end.

(** ** String literals round trip *)

(** Induction over the runes of a valid string. *)
Lemma valid_string_ind (P : string -> Prop) :
  P "" ->
  (forall a s, is_ascii_byte a = true -> P s -> P (String a s)) ->
  (forall a b s, is_ascii_byte a = false -> in_range 194 223 a && cont b = true ->
     P s -> P (String a (String b s))) ->
  (forall a b c s, is_ascii_byte a = false -> in_range 194 223 a = false ->
     in_range 224 239 a && second3 a b && cont c = true ->
     P s -> P (String a (String b (String c s)))) ->
  (forall a b c e s, is_ascii_byte a = false -> in_range 194 223 a = false ->
     in_range 224 239 a = false ->
     in_range 240 244 a && second4 a b && cont c && cont e = true ->
     P s -> P (String a (String b (String c (String e s))))) ->
  forall s, ValidString s = true -> P s.
Proof.
  intros H0 H1 H2 H3 H4 s. remember (len s) as n eqn:Hn. revert s Hn.
  induction n as [n IH] using lt_wf_ind. intros [|a s] -> Hv; [done|]. cbn [ValidString] in Hv.
  destruct (is_ascii_byte a) eqn:Ea.
  { apply H1; [done|]. eapply IH; [|done..]. simpl. lia. }
  destruct (in_range 194 223 a) eqn:E2.
  { destruct s as [|b s]; [done|]. apply andb_true_iff in Hv as [Hb Hv].
    apply H2; [done|by rewrite E2|]. eapply IH; [|done..]. simpl. lia. }
  destruct (in_range 224 239 a) eqn:E3.
  { destruct s as [|b [|c s]]; [done..|]. apply andb_true_iff in Hv as [Hb Hv].
    apply H3; [done..| |].
    - apply andb_true_iff in Hb as [-> ->]. by rewrite E3.
    - eapply IH; [|done..]. simpl. lia. }
  destruct (in_range 240 244 a) eqn:E4; [|done].
  destruct s as [|b [|c [|e s]]]; [done..|]. apply andb_true_iff in Hv as [Hb Hv].
  apply H4; [done..| |].
  - by rewrite E4.
  - eapply IH; [|done..]. simpl. lia.
Qed.

Lemma quote_byte_scan c : is_ascii_byte c = true ->
  exists u, (forall r, scan_string (quote_byte c +:+ r) = push u (scan_string r))
    /\ forall l, decode_units (u :: l) = String c (decode_units l).
Proof.
  destruct c as [[] [] [] [] [] [] [] []]; intros H;
    first [discriminate H
          |eexists (UCode _); split; reflexivity
          |eexists (UByte _); split; reflexivity].
Qed.

Lemma scan_raw a r : is_ascii_byte a = false -> scan_string (String a r) = push (UByte a) (scan_string r).
Proof.
  unfold is_ascii_byte. intros H. cbn [scan_string].
  destruct (byte_val a =? 34)%N eqn:E1; [to_prop; lia|].
  destruct (byte_val a =? 92)%N eqn:E2; [to_prop; lia|].
  by destruct (byte_val a <? 32)%N eqn:E3; [to_prop; lia|].
Qed.

Lemma scan_end r : scan_string (dquote +:+ r) = Some ([], r).
Proof. done. Qed.

Lemma line_separator_scan r l :
  scan_string (unicode_escape 8232 +:+ r) = push (UCode 8232) (scan_string r)
  /\ decode_units (UCode 8232 :: l)
     = String (ascii_of_N 226) (String (ascii_of_N 128) (String (ascii_of_N 168) (decode_units l))).
Proof. done. Qed.

Lemma paragraph_separator_scan r l :
  scan_string (unicode_escape 8233 +:+ r) = push (UCode 8233) (scan_string r)
  /\ decode_units (UCode 8233 :: l)
     = String (ascii_of_N 226) (String (ascii_of_N 128) (String (ascii_of_N 169) (decode_units l))).
Proof. done. Qed.

(** Reading back what was quoted. *)
Lemma scan_quote_bytes s : ValidString s = true -> forall r,
  exists l, scan_string (quote_bytes s +:+ dquote +:+ r) = Some (l, r) /\ decode_units l = s.
Proof.
  intros Hs. pattern s. revert s Hs. apply valid_string_ind.
  - intros r. by exists [].
  - intros a s Ha IH r. destruct (IH r) as (l & Hl & Hd).
    destruct (quote_byte_scan a Ha) as (u & Hu & Hdu).
    exists (u :: l). cbn [quote_bytes]. rewrite Ha, <- app_assoc_s, Hu, Hl. split; [done|].
    by rewrite Hdu, Hd.
  - intros a b s Ha Hb IH r. destruct (IH r) as (l & Hl & Hd).
    exists (UByte a :: UByte b :: l). cbn [quote_bytes decode_units]. rewrite Ha, Hb, Hd.
    split; [|done]. rewrite !app_cons. rewrite scan_raw by done.
    rewrite scan_raw by (unfold is_ascii_byte, cont, in_range in *; to_prop; lia).
    by rewrite Hl.
  - intros a b c s Ha H2 Hb IH r. destruct (IH r) as (l & Hl & Hd).
    cbn [quote_bytes]. rewrite Ha, H2, Hb. cbn [andb].
    destruct ((byte_val a =? 226)%N && _ && _) eqn:Hs.
    + apply andb_true_iff in Hs as [[H226 H128]%andb_true_iff Hc]. to_prop.
      apply (byte_val_inj a (ascii_of_N 226)) in H226 as ->.
      apply (byte_val_inj b (ascii_of_N 128)) in H128 as ->.
      rewrite <- app_assoc_s. destruct Hc as [Hc|Hc].
      * apply (byte_val_inj c (ascii_of_N 168)) in Hc as ->. exists (UCode 8232 :: l).
        change (8192 + _ - 128)%N with 8232%N.
        by rewrite (proj1 (line_separator_scan _ l)), (proj2 (line_separator_scan "" l)), Hl, Hd.
      * apply (byte_val_inj c (ascii_of_N 169)) in Hc as ->. exists (UCode 8233 :: l).
        change (8192 + _ - 128)%N with 8233%N.
        by rewrite (proj1 (paragraph_separator_scan _ l)),
          (proj2 (paragraph_separator_scan "" l)), Hl, Hd.
    + exists (UByte a :: UByte b :: UByte c :: l). cbn [decode_units]. rewrite Ha, H2, Hb, Hd.
      split; [|done]. rewrite !app_cons. rewrite scan_raw by done.
      unfold second3, cont, in_range, is_ascii_byte in *.
      rewrite scan_raw by (unfold is_ascii_byte; repeat case_match; to_prop; lia).
      rewrite scan_raw by (unfold is_ascii_byte; to_prop; lia).
      by rewrite Hl.
  - intros a b c e s Ha H2 H3 Hb IH r. destruct (IH r) as (l & Hl & Hd).
    exists (UByte a :: UByte b :: UByte c :: UByte e :: l).
    cbn [quote_bytes decode_units]. rewrite Ha, H2, H3, Hb, Hd.
    split; [|done]. cbn [andb]. rewrite !app_cons. rewrite scan_raw by done.
    unfold second4, cont, in_range, is_ascii_byte in *.
    rewrite scan_raw by (unfold is_ascii_byte; repeat case_match; to_prop; lia).
    rewrite scan_raw by (unfold is_ascii_byte; to_prop; lia).
    rewrite scan_raw by (unfold is_ascii_byte; to_prop; lia).
    by rewrite Hl.
Qed.

(** ** Number literals *)

(** The text after a number is not read as a part of it. *)
Definition number_end (r : string) : bool :=
  match r with
  | EmptyString => true
  | String c _ =>
      negb (is_digit c || (byte_val c =? 46)%N || (byte_val c =? 101)%N || (byte_val c =? 69)%N)
  end.

Lemma number_end_inv c r : number_end (String c r) = true ->
  is_digit c = false /\ (byte_val c =? 46)%N = false
  /\ (byte_val c =? 101)%N || (byte_val c =? 69)%N = false.
Proof.
  unfold number_end. rewrite negb_true_iff, !orb_false_iff. by intros (((-> & ->) & ->) & ->).
Qed.

Lemma take_digits_app s r : number_end r = true ->
  take_digits (s +:+ r) = ((take_digits s).1, (take_digits s).2 +:+ r).
Proof.
  intros Hr. induction s as [|c s IH].
  - destruct r as [|c r]; [done|]. apply number_end_inv in Hr as (Hd & _).
    change ("" +:+ String c r) with (String c r). cbn [take_digits]. by rewrite Hd.
  - rewrite app_cons. cbn [take_digits]. rewrite IH. by destruct (is_digit c).
Qed.

Lemma take_digits_eq s : s = (take_digits s).1 +:+ (take_digits s).2.
Proof.
  induction s as [|c s IH]; [done|]. cbn [take_digits].
  destruct (is_digit c); [|done]. cbn [fst snd]. by rewrite app_cons, <- IH.
Qed.

Lemma some_digits_ok s l x : some_digits s = Some (l, x) ->
  s = l +:+ x /\ l <> "" /\ forall r, number_end r = true -> some_digits (s +:+ r) = Some (l, x +:+ r).
Proof.
  unfold some_digits. cbv zeta. destruct (_ =?s _) eqn:E; [done|]. to_prop. intros H.
  assert ((take_digits s).1 = l /\ (take_digits s).2 = x) as [<- <-] by (injection H as H; by rewrite H).
  split_and!; [apply take_digits_eq|done|]. intros r Hr. rewrite take_digits_app by done.
  cbn [fst snd]. destruct (_ =?s _) eqn:E2; [|done]. by to_prop.
Qed.

Lemma scan_integer_ok s l x : scan_integer s = Some (l, x) ->
  s = l +:+ x /\ l <> "" /\ (exists c t, s = String c t /\ is_digit c = true)
  /\ forall r, number_end r = true -> scan_integer (s +:+ r) = Some (l, x +:+ r).
Proof.
  destruct s as [|c s]; [done|]. cbn [scan_integer]. destruct (byte_val c =? 48)%N eqn:E.
  - intros [= <- <-]. to_prop. apply (byte_val_inj c "0") in E as ->.
    split_and!; [done..|by eexists _, _|done].
  - intros H. pose proof H as (H1 & H2 & H3)%some_digits_ok. split_and!; [done..| |].
    + exists c, s. split; [done|]. unfold some_digits in H. cbn [take_digits] in H.
      by destruct (is_digit c).
    + intros r Hr. rewrite app_cons. cbn [scan_integer]. rewrite E. by apply H3.
Qed.

Lemma scan_fraction_ok s l x : scan_fraction s = Some (l, x) ->
  s = l +:+ x /\ forall r, number_end r = true -> scan_fraction (s +:+ r) = Some (l, x +:+ r).
Proof.
  destruct s as [|c s]; cbn [scan_fraction].
  { intros [= <- <-]. split; [done|]. intros [|c r] Hr; [done|].
    apply number_end_inv in Hr as (_ & Hd & _).
    change ("" +:+ String c r) with (String c r). cbn [scan_fraction]. by rewrite Hd. }
  destruct (byte_val c =? 46)%N eqn:E.
  - destruct (some_digits s) as [[l' x']|] eqn:Es; [|done]. intros [= <- <-].
    apply some_digits_ok in Es as (-> & _ & Hs). split; [done|].
    intros r Hr. rewrite app_cons. cbn [scan_fraction]. by rewrite E, Hs.
  - intros [= <- <-]. split; [done|]. intros r Hr. rewrite app_cons. cbn [scan_fraction].
    by rewrite E.
Qed.

Lemma scan_exponent_ok s l x : scan_exponent s = Some (l, x) ->
  s = l +:+ x /\ forall r, number_end r = true -> scan_exponent (s +:+ r) = Some (l, x +:+ r).
Proof.
  destruct s as [|c s]; cbn [scan_exponent].
  { intros [= <- <-]. split; [done|]. intros [|c r] Hr; [done|].
    apply number_end_inv in Hr as (_ & _ & Hd).
    change ("" +:+ String c r) with (String c r). cbn [scan_exponent]. by rewrite Hd. }
  destruct (_ || _) eqn:E.
  - destruct (exponent_sign s) as [sign s2] eqn:Ex.
    destruct (some_digits s2) as [[l' x']|] eqn:Es; [|done]. intros [= <- <-].
    apply some_digits_ok in Es as (-> & Hn & Hs).
    assert (s = sign +:+ (l' +:+ x') /\ forall r, exponent_sign (s +:+ r)
              = (sign, (l' +:+ x') +:+ r)) as [-> Hsign].
    { destruct s as [|a s]; cbn [exponent_sign] in Ex.
      - injection Ex as <- E0. by destruct l'.
      - destruct ((byte_val a =? 43)%N || (byte_val a =? 45)%N) eqn:Ea; injection Ex as <- E0;
          (split; [by rewrite <- E0|]); intros r;
          rewrite app_cons, <- E0; cbn [exponent_sign]; by rewrite Ea. }
    split; [by rewrite app_cons, <- app_assoc_s|].
    intros r Hr. rewrite app_cons. cbn [scan_exponent]. by rewrite E, Hsign, Hs.
  - intros [= <- <-]. split; [done|]. intros r Hr. rewrite app_cons. cbn [scan_exponent].
    by rewrite E.
Qed.

Lemma scan_unsigned_ok s l x : scan_unsigned s = Some (l, x) ->
  s = l +:+ x /\ l <> "" /\ (exists c t, s = String c t /\ is_digit c = true)
  /\ forall r, number_end r = true -> scan_unsigned (s +:+ r) = Some (l, x +:+ r).
Proof.
  unfold scan_unsigned. destruct (scan_integer s) as [[i s1]|] eqn:E1; [|done].
  apply scan_integer_ok in E1 as (-> & Hi & Hc & H1).
  destruct (scan_fraction s1) as [[f s2]|] eqn:E2; [|done].
  apply scan_fraction_ok in E2 as (-> & H2).
  destruct (scan_exponent s2) as [[e s3]|] eqn:E3; [|done]. intros [= <- <-].
  apply scan_exponent_ok in E3 as (-> & H3).
  split_and!; [by rewrite <- !app_assoc_s|by destruct i|done|].
  intros r Hr. by rewrite H1, H2, H3.
Qed.

Lemma scan_number_ok s l x : scan_number s = Some (l, x) ->
  s = l +:+ x /\ (exists c t, s = String c t /\ (byte_val c = 45%N \/ is_digit c = true))
  /\ len x < len s
  /\ forall r, number_end r = true -> scan_number (s +:+ r) = Some (l, x +:+ r).
Proof.
  destruct s as [|c s]; [done|]. cbn [scan_number]. destruct (byte_val c =? 45)%N eqn:E.
  - destruct (scan_unsigned s) as [[l' x']|] eqn:Es; [|done]. intros [= <- <-].
    apply scan_unsigned_ok in Es as (-> & _ & _ & Hs). to_prop. split_and!.
    + done.
    + eexists _, _. by split; [|left].
    + simpl. rewrite len_app. lia.
    + intros r Hr. rewrite app_cons. cbn [scan_number].
      assert ((byte_val c =? 45)%N = true) as -> by by apply N.eqb_eq. by rewrite Hs.
  - intros (Hl & Hn & (c' & t & [= <- <-] & Hc) & Hs)%scan_unsigned_ok. split_and!.
    + done.
    + eexists _, _. by split; [|right].
    + rewrite Hl, len_app. destruct l; [done|]. simpl. lia.
    + intros r Hr. rewrite app_cons. cbn [scan_number]. rewrite E.
      exact (Hs r Hr).
Qed.

(** ** The parser consumes its input *)

Lemma skip_ws_len s : len (skip_ws s) <= len s.
Proof. induction s as [|c s IH]; simpl; [lia|]. destruct (is_ws c); simpl; lia. Qed.

Lemma expect_len v s r : expect v s = Some r -> len r < len s.
Proof.
  unfold expect. pose proof (skip_ws_len s) as Hs. destruct (skip_ws s) as [|c s1]; [done|].
  simpl in Hs. destruct (_ =? _)%N; [|done]. intros [= <-]. lia.
Qed.

Lemma push_ok {A B} (x : A) (r : option (list A * B)) l b :
  push x r = Some (l, b) <-> exists k, r = Some (k, b) /\ l = x :: k.
Proof.
  unfold push. destruct r as [[k b']|]; [|split; [done|by intros (? & ? & ?)]].
  split; [intros [= <- <-]; by exists k|by intros (? & [= -> ->] & ->)].
Qed.

Lemma scan_string_len s : forall l r, scan_string s = Some (l, r) -> len r < len s.
Proof.
  remember (len s) as n eqn:Hn. revert s Hn.
  induction n as [n IH] using lt_wf_ind. intros [|c s] -> l r; [done|]. cbn [scan_string].
  assert (forall u t l r, push u (scan_string t) = Some (l, r) -> len t < len (String c s) ->
    len r < len (String c s)) as Hpush.
  { intros u t l' r' (k & Hk & _)%push_ok Ht. apply (IH (len t) Ht t eq_refl) in Hk. lia. }
  destruct (byte_val c =? 34)%N; [intros [= <- <-]; simpl; lia|].
  destruct (byte_val c =? 92)%N.
  - destruct s as [|e s]; [done|]. destruct (Ascii.eqb e "u").
    + destruct s as [|h1 [|h2 [|h3 [|h4 s]]]]; try done.
      destruct (hex_unit h1 h2 h3 h4); [|done]. intros H. apply Hpush in H; simpl in *; lia.
    + destruct (simple_escape e); [|done]. intros H. apply Hpush in H; simpl in *; lia.
  - destruct (byte_val c <? 32)%N; [done|]. intros H. apply Hpush in H; simpl in *; lia.
Qed.

Lemma strip_len p s r : strip p s = Some r -> len r <= len s.
Proof.
  revert s. induction p as [|a p IH]; intros s; cbn [strip]; [intros [= ->]; lia|].
  destruct s as [|b s]; [done|]. destruct (Ascii.eqb a b); [|done].
  intros H%IH. simpl. lia.
Qed.

Lemma option_map_pair_ok {A B} (x : A) (o : option B) y b :
  option_map (pair x) o = Some (y, b) <-> o = Some b /\ y = x.
Proof. destruct o; simpl; naive_solver. Qed.

Lemma parse_consumes n :
  (forall d s v r, parse_value n d s = Some (v, r) -> len r < len s)
  /\ (forall d s l r, parse_elements n d s = Some (l, r) -> len r < len s)
  /\ (forall d s l r, parse_members n d s = Some (l, r) -> len r < len s).
Proof.
  induction n as [|n (IHv & IHe & IHm)]; [done|]. split_and!.
  - intros d s v r. cbn [parse_value]. pose proof (skip_ws_len s) as Hs.
    destruct (skip_ws s) as [|c s1]; [done|]. simpl in Hs. intros H.
    repeat match type of H with
    | (if ?b then _ else _) = _ => destruct b; [try done|]
    | option_map _ _ = _ => apply option_map_pair_ok in H as [H%strip_len _]; lia
    end.
    + destruct (expect 125 s1) as [s2|] eqn:E; [apply expect_len in E; injection H as _ <-; lia|].
      destruct (parse_members n (d - 1) s1) as [[l s2]|] eqn:E2; [|done].
      apply IHm in E2. injection H as _ <-. lia.
    + destruct (expect 93 s1) as [s2|] eqn:E; [apply expect_len in E; injection H as _ <-; lia|].
      destruct (parse_elements n (d - 1) s1) as [[l s2]|] eqn:E2; [|done].
      apply IHe in E2. injection H as _ <-. lia.
    + destruct (scan_string s1) as [[l s2]|] eqn:E; [|done]. apply scan_string_len in E.
      injection H as _ <-. lia.
    + destruct (scan_number (String c s1)) as [[l s2]|] eqn:E; [|done].
      apply scan_number_ok in E as (_ & _ & E & _). injection H as _ <-. simpl in E. lia.
  - intros d s l r. cbn [parse_elements].
    destruct (parse_value n d s) as [[v s1]|] eqn:E; [|done]. apply IHv in E.
    destruct (expect 44 s1) as [s2|] eqn:E2.
    + apply expect_len in E2. intros (k & Hk%IHe & _)%push_ok. lia.
    + intros [H%expect_len _]%option_map_pair_ok. lia.
  - intros d s l r. cbn [parse_members].
    destruct (expect 34 s) as [s1|] eqn:E1; [|done]. apply expect_len in E1.
    destruct (scan_string s1) as [[key s2]|] eqn:E2; [|done]. apply scan_string_len in E2.
    destruct (expect 58 s2) as [s3|] eqn:E3; [|done]. apply expect_len in E3.
    destruct (parse_value n d s3) as [[v s4]|] eqn:E4; [|done]. apply IHv in E4.
    destruct (expect 44 s4) as [s5|] eqn:E5.
    + apply expect_len in E5. intros (k & Hk%IHm & _)%push_ok. lia.
    + intros [H%expect_len _]%option_map_pair_ok. lia.
Qed.

(** ** The recursion bound is never reached *)

Definition stable_below (k : nat) : Prop :=
  (forall s d n m, len s < k -> 2 * len s + 1 <= n -> 2 * len s + 1 <= m ->
     parse_value n d s = parse_value m d s)
  /\ (forall s d n m, len s < k -> 2 * len s + 2 <= n -> 2 * len s + 2 <= m ->
     parse_elements n d s = parse_elements m d s)
  /\ (forall s d n m, len s < k -> 2 * len s + 1 <= n -> 2 * len s + 1 <= m ->
     parse_members n d s = parse_members m d s).

Lemma parse_stable k : stable_below k.
Proof.
  induction k as [|k (IHv & IHe & IHm)]; [unfold stable_below; split_and!; intros; lia|].
  assert (forall s d n m, len s < S k -> 2 * len s + 1 <= n -> 2 * len s + 1 <= m ->
     parse_value n d s = parse_value m d s) as Hv.
  { intros s d [|n] [|m] Hk Hn Hm; try lia. cbn [parse_value].
    pose proof (skip_ws_len s) as Hs. destruct (skip_ws s) as [|c s1]; [done|]. simpl in Hs.
    by rewrite (IHm s1 (d - 1)%N n m), (IHe s1 (d - 1)%N n m) by lia. }
  split_and!; [done| |].
  - intros s d [|n] [|m] Hk Hn Hm; try lia. cbn [parse_elements].
    rewrite (Hv s d n m) by lia. destruct (parse_value m d s) as [[v s1]|] eqn:E; [|done].
    apply (proj1 (parse_consumes m)) in E.
    destruct (expect 44 s1) as [s2|] eqn:E2; [|done]. apply expect_len in E2.
    by rewrite (IHe s2 d n m) by lia.
  - intros s d [|n] [|m] Hk Hn Hm; try lia. cbn [parse_members].
    destruct (expect 34 s) as [s1|] eqn:E1; [|done]. apply expect_len in E1.
    destruct (scan_string s1) as [[key s2]|] eqn:E2; [|done]. apply scan_string_len in E2.
    destruct (expect 58 s2) as [s3|] eqn:E3; [|done]. apply expect_len in E3.
    rewrite (IHv s3 d n m) by lia. destruct (parse_value m d s3) as [[v s4]|] eqn:E4; [|done].
    apply (proj1 (parse_consumes m)) in E4.
    destruct (expect 44 s4) as [s5|] eqn:E5; [|done]. apply expect_len in E5.
    by rewrite (IHm s5 d n m) by lia.
Qed.

(** The recursion bound of the scanner is never the reason a text is refused:
    every larger bound gives the same answer. *)
Lemma parse_value_fuel n d s :
  json_fuel s <= n -> parse_value n d s = parse_value (json_fuel s) d s.
Proof.
  intros Hn. apply (proj1 (parse_stable (S (len s)))); [lia|exact Hn|]. unfold json_fuel. lia.
Qed.
