(* ===== verification/JsonText.v ===== *)
(** * The round trip of JSON text

    Whatever encoding/json prints, it reads back: for values (with strings
    that are UTF-8, well-formed number literals and the nesting limit of the
    scanner) and for the integers and slices of the wire structs. *)

From stdpp Require Import base list strings pretty.
From Stdlib Require Import ZArith Lia Ascii.
From S2P Require Import Prelude GoStd Json.

(** ** Well-formed values *)

Definition number_literal (s : string) : bool :=
  match scan_number s with
  | Some (_, r) => r =?s ""
  | None => false
  end.

Fixpoint wf_json (v : jval) : bool :=
  match v with
  | VNull | VBool _ => true
  | VNum literal => number_literal literal
  | VStr s => ValidString s
  | VArr l => forallb wf_json l
  | VObj fields => forallb (fun p => ValidString p.1 && wf_json p.2) fields
  end.

(** The nesting of arrays and objects. *)
Fixpoint json_depth (v : jval) : N :=
  match v with
  | VArr l => (1 + foldr (fun v n => N.max (json_depth v) n) 0 l)%N
  | VObj fields => (1 + foldr (fun p n => N.max (json_depth p.2) n) 0 fields)%N
  | _ => 0%N
  end.

Lemma jval_induction (P : jval -> Prop) :
  P VNull -> (forall b, P (VBool b)) -> (forall l, P (VNum l)) -> (forall s, P (VStr s)) ->
  (forall l, Forall P l -> P (VArr l)) ->
  (forall l, Forall (fun p => P p.2) l -> P (VObj l)) ->
  forall v, P v.
Proof.
  intros Hn Hb Hi Hs Ha Ho. fix IH 1. intros [|b|l|s|l|l].
  - exact Hn.
  - apply Hb.
  - apply Hi.
  - apply Hs.
  - apply Ha. induction l as [|v l IHl]; constructor; [apply IH|exact IHl].
  - apply Ho. induction l as [|[k v] l IHl]; constructor; [apply (IH v)|exact IHl].
Qed.

(** ** The first byte of a printed value *)

Definition starts_value (c : ascii) : bool :=
  negb (is_ws c || (byte_val c =? 93)%N || (byte_val c =? 125)%N).

Lemma print_first v : wf_json v = true ->
  exists c s, print_json v = String c s /\ starts_value c = true.
Proof.
  destruct v as [|[]|l|s|l|l]; intros H.
  1-3: by eexists _, _.
  2-4: by eexists _, _.
  cbn [wf_json print_json] in *. unfold number_literal in H.
  destruct (scan_number l) as [[x r]|] eqn:E; [|done].
  apply scan_number_ok in E as (_ & (c & t & -> & Hc) & _). exists c, t. split; [done|].
  unfold starts_value, is_ws, is_digit, in_range in *. to_prop. destruct Hc; lia.
Qed.

Lemma skip_ws_start c s : starts_value c = true -> skip_ws (String c s) = String c s.
Proof.
  unfold starts_value. intros H. cbn [skip_ws]. to_prop. by destruct H as [[-> _] _].
Qed.

Lemma expect_not_start v c s : starts_value c = true -> (v = 93 \/ v = 125)%N ->
  expect v (String c s) = None.
Proof.
  intros H Hv. unfold expect. rewrite skip_ws_start by done.
  destruct (byte_val c =? v)%N eqn:E; [|done]. unfold starts_value in H. to_prop. lia.
Qed.

Lemma expect_here v c s : byte_val c = v -> is_ws c = false -> expect v (String c s) = Some s.
Proof. intros <- H. unfold expect. cbn [skip_ws]. by rewrite H, N.eqb_refl. Qed.

(** ** Values *)

Definition prints_back (v : jval) : Prop :=
  forall d, wf_json v = true -> (json_depth v <= d)%N ->
  exists n0, forall n r, n0 <= n -> number_end r = true ->
    parse_value n d (print_json v +:+ r) = Some (v, r).

Lemma parse_elements_print d l :
  l <> [] -> Forall (fun v => exists n0, forall n r, n0 <= n -> number_end r = true ->
    parse_value n d (print_json v +:+ r) = Some (v, r)) l ->
  exists n0, forall n r, n0 <= n ->
    parse_elements n d (commas (map print_json l) +:+ String "]" r) = Some (l, r).
Proof.
  intros Hn H. induction H as [|v l [n1 Hv] _ IH]; [done|].
  destruct l as [|v2 l].
  - exists (S n1). intros [|n] r Hr; [lia|]. cbn [map commas parse_elements].
    rewrite Hv by (done || lia). done.
  - destruct IH as [n2 IH]; [done|]. exists (S (Nat.max n1 n2)). intros [|n] r Hr; [lia|].
    cbn [map commas parse_elements] in *.
    rewrite <- !app_assoc_s, Hv by (done || lia).
    change ("," +:+ ?x) with (String "," x). rewrite expect_here by done.
    by rewrite IH by lia.
Qed.

Lemma parse_members_print d l :
  l <> [] -> forallb (fun p => ValidString p.1) l = true ->
  Forall (fun p => exists n0, forall n r, n0 <= n -> number_end r = true ->
    parse_value n d (print_json p.2 +:+ r) = Some (p.2, r)) l ->
  exists n0, forall n r, n0 <= n ->
    parse_members n d (commas (map (fun p => print_field (p.1, print_json p.2)) l)
                       +:+ String "}" r) = Some (l, r).
Proof.
  intros Hn Hk H.
  assert (forall (k : string) v n1 n tail, ValidString k = true ->
    (forall n r, n1 <= n -> number_end r = true ->
       parse_value n d (print_json v +:+ r) = Some (v, r)) -> n1 <= n -> number_end tail = true ->
    parse_members (S n) d (print_field (k, print_json v) +:+ tail) =
      match expect 44 tail with
      | Some s5 => push (k, v) (parse_members n d s5)
      | None => option_map (pair [(k, v)]) (expect 125 tail)
      end) as Hfield.
  { intros k v n1 n tail Hv Hp Hle Htail. cbn [parse_members]. unfold print_field, json_quote.
    cbn [fst snd]. rewrite <- !app_assoc_s.
    change (expect 34 (dquote +:+ ?x)) with (Some x).
    destruct (scan_quote_bytes k Hv (":" +:+ print_json v +:+ tail)) as (u & -> & ->).
    change (":" +:+ ?x) with (String ":" x). rewrite expect_here by done. by rewrite Hp. }
  induction H as [|[k v] l [n1 Hv] _ IH]; [done|].
  cbn [forallb fst snd] in *. apply andb_true_iff in Hk as [Hk Hl].
  destruct l as [|p2 l].
  - exists (S n1). intros [|n] r Hr; [lia|]. cbn [map commas fst snd].
    rewrite (Hfield k v n1) by (done || lia). done.
  - destruct IH as [n2 IH]; [done..|]. exists (S (Nat.max n1 n2)). intros [|n] r Hr; [lia|].
    cbn [map commas fst snd] in *. rewrite <- app_assoc_s.
    rewrite (Hfield k v n1) by (done || lia).
    change (("," +:+ ?x) +:+ ?y) with (String "," (x +:+ y)). rewrite expect_here by done.
    by rewrite IH by lia.
Qed.

Lemma commas_first x l :
  exists t, commas (x :: l) = x +:+ t.
Proof. destruct l as [|y l]; [exists ""; by rewrite app_empty_r|by eexists]. Qed.

Lemma depth_bound {A} (f : A -> N) d l :
  (1 + foldr (fun x n => N.max (f x) n) 0 l <= d)%N -> Forall (fun x => (f x <= d - 1)%N) l.
Proof. induction l as [|x l IH]; simpl; intros H; constructor; [lia|apply IH; lia]. Qed.

Lemma parse_string_value n d x :
  parse_value (S n) d (dquote +:+ x) =
    match scan_string x with
    | Some (l, r) => Some (VStr (decode_units l), r)
    | None => None
    end.
Proof. done. Qed.

Lemma print_parses v : prints_back v.
Proof.
  induction v as [|b|l|s|l IH|l IH] using jval_induction; intros d Hw Hd.
  - exists 1. intros [|n] r Hn Hr; [lia|done].
  - exists 1. intros [|n] r Hn Hr; [lia|by destruct b].
  - exists 1. intros [|n] r Hn Hr; [lia|]. cbn [wf_json print_json] in *.
    unfold number_literal in Hw. destruct (scan_number l) as [[x t]|] eqn:E; [|done]. to_prop.
    subst t. apply scan_number_ok in E as (Hx & (c & t & -> & Hc) & _ & Hr').
    rewrite app_empty_r in Hx. subst x. specialize (Hr' r Hr). rewrite app_cons in *.
    change ("" +:+ r) with r in Hr'. cbn [parse_value].
    unfold is_digit, in_range in Hc.
    rewrite skip_ws_start by (unfold starts_value, is_ws; to_prop; lia). rewrite Hr'.
    assert (forall w, (58 <= w)%N \/ w = 34%N -> (byte_val c =? w)%N = false) as Hne
      by (intros w Hw'; to_prop; lia).
    by rewrite !Hne by (left; lia) || (right; done).
  - exists 1. intros [|n] r Hn Hr; [lia|]. cbn [wf_json print_json] in *.
    unfold json_quote. rewrite <- !app_assoc_s, parse_string_value.
    destruct (scan_quote_bytes s Hw r) as (u & Hu & Hs). by rewrite Hu, Hs.
  - cbn [wf_json json_depth print_json] in *.
    assert (d <> 0)%N as Hd0 by lia. apply depth_bound in Hd.
    assert (forall n x, parse_value (S n) d (String "[" x) =
      match expect 93 x with
      | Some s2 => Some (VArr [], s2)
      | None => match parse_elements n (d - 1) x with
                | Some (l, s2) => Some (VArr l, s2) | None => None end
      end) as Hpv.
    { intros n x. cbn [parse_value]. change (skip_ws (String "[" x)) with (String "[" x).
      cbn. destruct d; done. }
    destruct l as [|v l].
    { exists 1. intros [|n] r Hn Hr; [lia|]. exact (Hpv n (String "]" r)). }
    destruct (parse_elements_print (d - 1) (v :: l)) as [n0 H]; [done| |].
    { rewrite forallb_forall in Hw. rewrite Forall_forall in IH, Hd |- *.
      intros x Hx. apply IH; [done| |by apply Hd]. by apply Hw, list_elem_of_In. }
    exists (S n0). intros [|n] r Hn Hr; [lia|]. rewrite <- !app_assoc_s.
    change ("[" +:+ ?x) with (String "[" x). rewrite Hpv.
    change ("]" +:+ r) with (String "]" r). rewrite H by lia.
    cbn [forallb] in Hw. apply andb_true_iff in Hw as [Hv _].
    destruct (print_first v Hv) as (c & s & Hs & Hc).
    destruct (commas_first (print_json v) (map print_json l)) as [t Ht].
    cbn [map]. rewrite Ht, Hs, <- app_assoc_s, app_cons, expect_not_start by auto. done.
  - cbn [wf_json json_depth print_json] in *.
    assert (d <> 0)%N as Hd0 by lia. apply depth_bound in Hd.
    assert (forall n x, parse_value (S n) d (String "{" x) =
      match expect 125 x with
      | Some s2 => Some (VObj [], s2)
      | None => match parse_members n (d - 1) x with
                | Some (l, s2) => Some (VObj l, s2) | None => None end
      end) as Hpv.
    { intros n x. cbn [parse_value]. change (skip_ws (String "{" x)) with (String "{" x).
      cbn. destruct d; done. }
    destruct l as [|[k v] l].
    { exists 1. intros [|n] r Hn Hr; [lia|]. exact (Hpv n (String "}" r)). }
    destruct (parse_members_print (d - 1) ((k, v) :: l)) as [n0 H]; [done| | |].
    { rewrite forallb_forall in *. intros p Hp%Hw. by apply andb_true_iff in Hp as [-> _]. }
    { rewrite forallb_forall in Hw. rewrite Forall_forall in IH, Hd |- *.
      intros x Hx. apply IH; [done| |by apply Hd].
      by apply list_elem_of_In, Hw, andb_true_iff in Hx as [_ ->]. }
    exists (S n0). intros [|n] r Hn Hr; [lia|]. rewrite <- !app_assoc_s.
    change ("{" +:+ ?x) with (String "{" x). rewrite Hpv.
    change ("}" +:+ r) with (String "}" r). rewrite H by lia.
    cbn [map fst snd]. destruct (commas_first (print_field (k, print_json v))
      (map (fun p => print_field (p.1, print_json p.2)) l)) as [t Ht].
    rewrite Ht. unfold print_field, json_quote. cbn [fst snd]. rewrite <- !app_assoc_s.
    change (expect 125 (dquote +:+ ?x)) with (@None string). done.
Qed.

(** The package encoding/json reads back what it prints, with white space after it: a
    well-formed value within the nesting limit is the value of its text. *)
Lemma parse_print_space v r :
  wf_json v = true -> (json_depth v <= maxNestingDepth)%N -> number_end r = true ->
  skip_ws r = "" -> parse_json (print_json v +:+ r) = Some v.
Proof.
  intros Hw Hd Hr Hs. destruct (print_parses v maxNestingDepth Hw Hd) as [n0 H].
  unfold parse_json. set (n := Nat.max n0 (json_fuel (print_json v +:+ r))).
  rewrite <- (parse_value_fuel n) by lia. rewrite (H n r) by (done || lia).
  by rewrite Hs.
Qed.

Lemma parse_print v :
  wf_json v = true -> (json_depth v <= maxNestingDepth)%N -> parse_json (print_json v) = Some v.
Proof.
  intros Hw Hd. rewrite <- (app_empty_r (print_json v)). by apply parse_print_space.
Qed.

(** ** Texts *)

(** Bytes that JSON quoting copies. *)
Definition json_plain (c : ascii) : bool :=
  plain_byte c && negb (existsb (N.eqb (byte_val c)) [34; 92; 60; 62; 38]%N).

Lemma quote_plain s : forall_bytes json_plain s = true -> quote_bytes s = s.
Proof.
  induction s as [|c s IH]; [done|]. simpl. intros [Hc Hs]%andb_true_iff.
  unfold json_plain, plain_byte, in_range in Hc. simpl in Hc. to_prop.
  unfold is_ascii_byte. destruct (byte_val c <? 128)%N eqn:E; to_prop; [|lia].
  rewrite (IH Hs). unfold quote_byte.
  repeat match goal with
  | |- context [(byte_val c =? ?k)%N] => destruct (byte_val c =? k)%N eqn:?; to_prop; [lia|]
  | |- context [(byte_val c <? ?k)%N] => destruct (byte_val c <? k)%N eqn:?; to_prop; [lia|]
  end.
  done.
Qed.

Lemma ValidString_ascii s : is_ascii s = true -> ValidString s = true.
Proof.
  induction s as [|c s IH]; [done|]. unfold is_ascii in *. cbn [forall_bytes ValidString].
  intros [-> Hs]%andb_true_iff. by apply IH.
Qed.

Lemma ValidString_plain s : forall_bytes plain_byte s = true -> ValidString s = true.
Proof.
  intros Hs. apply ValidString_ascii. revert Hs. apply forall_bytes_impl.
  intros c. unfold plain_byte, in_range, is_ascii_byte. to_prop. lia.
Qed.

Lemma ValidString_app s t : ValidString s = true -> ValidString t = true -> ValidString (s +:+ t) = true.
Proof.
  intros Hs Ht. pattern s. revert s Hs. apply valid_string_ind; [done|..].
  - intros a s Ha IH. rewrite app_cons. cbn [ValidString]. by rewrite Ha.
  - intros a b s Ha Hb IH. rewrite !app_cons. cbn [ValidString]. rewrite Ha.
    apply andb_true_iff in Hb as [-> ->]. done.
  - intros a b c s Ha H2 Hb IH. rewrite !app_cons. cbn [ValidString]. rewrite Ha, H2.
    apply andb_true_iff in Hb as [[-> ->]%andb_true_iff ->]. done.
  - intros a b c e s Ha H2 H3 Hb IH. rewrite !app_cons. cbn [ValidString]. rewrite Ha, H2, H3.
    apply andb_true_iff in Hb as [[[-> ->]%andb_true_iff ->]%andb_true_iff ->]. done.
Qed.

(** ** Integers *)

Lemma small_digit n : (n < 10)%N -> n ∈ [0; 1; 2; 3; 4; 5; 6; 7; 8; 9]%N.
Proof.
  intros Hn. rewrite !elem_of_cons, elem_of_nil.
  destruct n as [|[[[p|p|]|[p|p|]|]|[[p|p|]|[p|p|]|]|]]; try lia; tauto.
Qed.

Lemma digit_char n : (n < 10)%N ->
  is_digit (pretty_N_char n) = true /\ (byte_val (pretty_N_char n) - 48 = n)%N
  /\ ((byte_val (pretty_N_char n) =? 48)%N = true -> n = 0%N).
Proof.
  intros Hn%small_digit. rewrite !elem_of_cons, elem_of_nil in Hn. destruct_or!; by subst.
Qed.

Lemma pretty_N_go_ind (P : N -> string -> Prop) :
  (forall s, P 0%N s) ->
  (forall x s, (0 < x)%N -> (x mod 10 < 10)%N ->
     P (x / 10)%N (String (pretty_N_char (x mod 10)) s) -> P x s) ->
  forall x s, P x s.
Proof.
  intros H0 Hs x. induction (N.lt_wf_0 x) as [x _ IH]. intros s.
  destruct (decide (0 < x)%N) as [Hx|Hx].
  - apply Hs; [done|by apply N.mod_upper_bound|]. apply IH. by apply N.div_lt.
  - assert (x = 0%N) as -> by lia. apply H0.
Qed.

Lemma digits_value_pretty x s : digits_value 0 (pretty_N_go x s) = digits_value x s.
Proof.
  revert x s. apply pretty_N_go_ind; [done|]. intros x s Hx Hm IH.
  rewrite pretty_N_go_step by done. rewrite IH. destruct (digit_char _ Hm) as (Hd & Hv & _).
  cbn [digits_value]. rewrite Hd, Hv. f_equal.
  pose proof (N.div_mod x 10 ltac:(lia)). lia.
Qed.

Lemma pretty_N_go_digits x s :
  forall_bytes is_digit s = true -> forall_bytes is_digit (pretty_N_go x s) = true.
Proof.
  revert x s. apply (pretty_N_go_ind (fun x s => forall_bytes is_digit s = true ->
    forall_bytes is_digit (pretty_N_go x s) = true)); [done|].
  intros x s Hx Hm IH Hs. rewrite pretty_N_go_step by done. apply IH. simpl.
  destruct (digit_char _ Hm) as (-> & _ & _). by rewrite Hs.
Qed.

(** No leading zero. *)
Lemma pretty_N_go_first x s : (0 < x)%N ->
  exists c t, pretty_N_go x s = String c t /\ (byte_val c =? 48)%N = false.
Proof.
  revert x s. apply (pretty_N_go_ind (fun x s => (0 < x)%N -> exists c t,
    pretty_N_go x s = String c t /\ (byte_val c =? 48)%N = false)); [lia|].
  intros x s Hx Hm IH _. rewrite pretty_N_go_step by done.
  destruct (decide (0 < x / 10)%N) as [Hd|Hd]; [by apply IH|].
  assert (x / 10 = 0)%N as E by (clear -Hd; generalize dependent (x / 10)%N; intros; lia). rewrite E, pretty_N_go_0. eexists _, _. split; [done|].
  destruct (digit_char _ Hm) as (_ & _ & H0). destruct (_ =? 48)%N; [|done].
  pose proof (N.div_mod x 10 ltac:(lia)) as Hx10. rewrite E, (H0 eq_refl) in Hx10. lia.
Qed.

Lemma pretty_N_text (n : N) :
  forall_bytes is_digit (pretty n) = true /\ digits_value 0 (pretty n) = Some n
  /\ scan_integer (pretty n) = Some (pretty n, "").
Proof.
  unfold pretty, pretty_N. destruct (decide (n = 0%N)) as [->|Hn]; [done|].
  split; [by apply pretty_N_go_digits|]. split; [apply digits_value_pretty|].
  assert (forall s, s <> "" -> forall_bytes is_digit s = true -> some_digits s = Some (s, "")) as Hs.
  { intros s Hne Hs. unfold some_digits. assert (take_digits s = (s, "")) as ->.
    { clear Hne. induction s as [|c s IH]; [done|]. simpl in *.
      apply andb_true_iff in Hs as [-> Hs]. by rewrite IH. }
    cbn [fst snd]. by apply eqs_false in Hne as ->. }
  destruct (pretty_N_go_first n "") as (c & t & E & Hc); [lia|].
  pose proof (pretty_N_go_digits n "" eq_refl) as Hd. rewrite E in *.
  cbn [scan_integer]. rewrite Hc. by apply Hs.
Qed.

Lemma pretty_N_first (n : N) : exists c t, (pretty n : string) = String c t /\ is_digit c = true.
Proof.
  destruct (pretty_N_text n) as (Hd & _ & Hs). destruct (pretty n : string) as [|c t]; [done|].
  exists c, t. split; [done|]. simpl in Hd. by apply andb_true_iff in Hd as [-> _].
Qed.

Lemma scan_unsigned_pretty (n : N) : scan_unsigned (pretty n) = Some (pretty n, "").
Proof.
  unfold scan_unsigned. destruct (pretty_N_text n) as (_ & _ & ->). simpl. by rewrite app_empty_r.
Qed.

Lemma FormatInt_eq z : FormatInt z =
  match z with
  | Zneg p => String "-" (pretty (Npos p))
  | _ => pretty (Z.to_N z)
  end.
Proof. by destruct z. Qed.

Lemma FormatInt_literal z : number_literal (FormatInt z) = true.
Proof.
  assert (forall n : N, number_literal (pretty n) = true) as Hn.
  { intros n. unfold number_literal. destruct (pretty_N_first n) as (c & t & E & Hc).
    rewrite E. cbn [scan_number]. unfold is_digit, in_range in Hc.
    destruct (byte_val c =? 45)%N eqn:E45; [to_prop; lia|]. by rewrite <- E, scan_unsigned_pretty. }
  rewrite FormatInt_eq. destruct z; [apply Hn..|]. unfold number_literal.
  cbn [scan_number]. change (byte_val "-" =? 45)%N with true. cbn [andb].
  by rewrite scan_unsigned_pretty.
Qed.

Lemma parse_digits_pretty (n : N) : parse_digits (pretty n) = Some (Z.of_N n).
Proof.
  unfold parse_digits. destruct (pretty_N_first n) as (c & t & E & _).
  destruct (_ =?s "") eqn:Es; [apply eqs_true in Es; congruence|].
  destruct (pretty_N_text n) as (_ & -> & _). done.
Qed.

(** The length of a decimal text. *)
Lemma len_pretty_go k : forall x s, (x < 10 ^ N.of_nat k)%N -> len (pretty_N_go x s) <= k + len s.
Proof.
  induction k as [|k IH]; intros x s Hx.
  - assert (x = 0%N) as -> by (simpl in Hx; lia). rewrite pretty_N_go_0. lia.
  - destruct (decide (0 < x)%N) as [Hp|Hz].
    + rewrite pretty_N_go_step by done. etrans; [apply IH|simpl; lia].
      apply N.Div0.div_lt_upper_bound. rewrite Nat2N.inj_succ, N.pow_succ_r' in Hx. lia.
    + assert (x = 0%N) as -> by lia. rewrite pretty_N_go_0. lia.
Qed.

Lemma len_FormatInt k z : 1 <= k -> (0 <= z < 10 ^ Z.of_nat k)%Z -> len (FormatInt z) <= k.
Proof.
  intros Hk Hz. rewrite FormatInt_eq. destruct z as [|p|p]; [simpl; lia| |lia].
  unfold pretty, pretty_N. destruct (decide _); [simpl; lia|].
  etrans; [apply len_pretty_go with (k := k)|simpl; lia].
  rewrite <- nat_N_Z in Hz. change 10%Z with (Z.of_N 10) in Hz. rewrite <- N2Z.inj_pow in Hz. lia.
Qed.

(** An integer of 64 bits is read back. *)
Lemma ParseInt64_FormatInt z : (- 2 ^ 63 <= z < 2 ^ 63)%Z -> ParseInt64 (FormatInt z) = Some z.
Proof.
  intros Hz. unfold ParseInt64. rewrite FormatInt_eq.
  assert (forall n : N, match (pretty n : string) with
    | String c s1 => if (byte_val c =? 45)%N then Z.opp <$> parse_digits s1 else parse_digits (pretty n)
    | EmptyString => None end = Some (Z.of_N n)) as Hn.
  { intros n. destruct (pretty_N_first n) as (c & t & E & Hc).
    rewrite E. unfold is_digit, in_range in Hc.
    destruct (byte_val c =? 45)%N eqn:E45; [to_prop; lia|]. by rewrite <- E, parse_digits_pretty. }
  assert (forall y : Z, (- 2 ^ 63 <= y < 2 ^ 63)%Z ->
    (if (- 2 ^ 63 <=? y)%Z && (y <? 2 ^ 63)%Z then Some y else None) = Some y) as Hr.
  { intros y [H1 H2]. destruct (_ <=? _)%Z eqn:E1; [|to_prop; lia].
    destruct (_ <? _)%Z eqn:E2; [done|to_prop; lia]. }
  destruct z as [|p|p].
  - rewrite Hn. apply (Hr 0%Z Hz).
  - rewrite Hn. apply (Hr (Zpos p) Hz).
  - change (byte_val "-" =? 45)%N with true. cbn iota. rewrite parse_digits_pretty.
    apply (Hr (Zneg p) Hz).
Qed.

Lemma store_int_FormatInt z old :
  (- 2 ^ 63 <= z < 2 ^ 63)%Z -> store_int (VNum (FormatInt z)) old = Some z.
Proof. apply ParseInt64_FormatInt. Qed.

(** ** Slices *)

Lemma store_slice_fresh {A} (store : jval -> A -> option A) zero (print : A -> jval) l :
  (forall x, x ∈ l -> store (print x) zero = Some x) ->
  slice_list <$> store_slice store zero (VArr (map print l)) nil_slice = Some l.
Proof.
  intros H. assert (store_elements store zero (map print l) [] = Some l) as He.
  { induction l as [|x l IH]; [done|]. simpl. rewrite H by left. rewrite IH; [done|].
    intros y Hy. apply H. by right. }
  destruct l as [|x l]; [done|]. unfold store_slice. cbn [map]. cbn [map] in He.
  cbn [sl_array nil_slice]. rewrite He. cbn. unfold slice_list. cbn [sl_len sl_array].
  rewrite length_map. f_equal. exact (firstn_all (x :: l)).
Qed.
