(* ===== verification/JsonStruct.v ===== *)
(** * JSON objects and Go structs (encoding/json)

    Field updates derived from the projections of a record, the map and
    unsigned types of the control API, and the round trip of a struct whose
    members are printed in declaration order, [omitempty] included. *)

From stdpp Require Import base list gmap sets strings pretty.
From Stdlib Require Import ZArith Lia Ascii.
From S2P Require Import Prelude GoStd Json JsonText.

(** ** Field update *)

(** [eta] rebuilds a record from its projections; replacing one projection of
    it gives the update of that field. *)
Class Eta (R : Type) := eta : R -> R.
Class Setter {R T : Type} (proj : R -> T) := put : T -> R -> R.
Arguments put {R T} proj {_} _ _.

Ltac derive_setter proj :=
  match goal with
  | |- @Setter ?R ?T _ =>
      let rebuild := eval hnf in (@eta R _) in
      lazymatch eval pattern proj in rebuild with
      | ?f _ =>
          let g := constr:(fun x : T => f (fun _ : R => x)) in
          let _ := constr:(fun (x : T) (r : R) => eq_refl : proj (g x r) = x) in
          let g := eval cbv beta in g in
          exact g
      end
  end.
#[export] Hint Extern 1 (@Setter _ _ ?proj) => derive_setter proj : typeclass_instances.

(** The member of a struct that is stored through a projection. *)
Definition member {R T} (proj : R -> T) `{SET : !Setter proj}
    (store : jval -> T -> option T) : jval -> R -> option R :=
  fun v r => (fun x => put proj x r) <$> store v (proj r).

(** ** Unsigned integers and maps *)

(** [strconv.ParseUint(s, 10, 64)] on a number literal. *)
Definition ParseUint64 (s : string) : option N :=
  match parse_digits s with
  | Some n => if (n <? 2 ^ 64)%Z then Some (Z.to_N n) else None
  | None => None
  end.

Definition store_uint (v : jval) (old : N) : option N :=
  match v with
  | VNum l => ParseUint64 l
  | VNull => Some old
  | _ => None
  end.

(** A [map[string]T]: null makes it nil, and every member is decoded into a
    fresh element. *)
Fixpoint store_entries {A} (store : jval -> A -> option A) (zero : A)
    (l : list (string * jval)) (m : gmap string A) : option (gmap string A) :=
  match l with
  | [] => Some m
  | (k, v) :: l =>
      match store v zero with
      | Some x => store_entries store zero l (<[k := x]> m)
      | None => None
      end
  end.

Definition store_map {A} (store : jval -> A -> option A) (zero : A) (v : jval)
    (old : gmap string A) : option (gmap string A) :=
  match v with
  | VObj l => store_entries store zero l old
  | VNull => Some ∅
  | _ => None
  end.

(** A map is printed in the order of its keys. *)
Definition map_json {A} (print : A -> jval) (m : gmap string A) : jval :=
  VObj (map (fun k => (k, default VNull (print <$> m !! k))) (sorted_set (dom m))).

Definition uint_json (n : N) : jval := VNum (FormatInt (Z.of_N n)).
Definition int_json (n : Z) : jval := VNum (FormatInt n).

(** A member that is left out when it is empty. *)
Definition omitempty (empty : bool) (name : string) (v : jval) : list (string * jval) :=
  if empty then [] else [(name, v)].

Lemma ParseUint64_FormatInt n : (n < 2 ^ 64)%N -> ParseUint64 (FormatInt (Z.of_N n)) = Some n.
Proof.
  intros Hn. unfold ParseUint64. rewrite FormatInt_eq.
  assert ((match Z.of_N n with Zneg p => String "-" (pretty (Npos p)) | _ => pretty (Z.to_N (Z.of_N n)) end
           : string) = pretty n) as -> by (rewrite N2Z.id; by destruct n).
  rewrite parse_digits_pretty, N2Z.id. destruct (_ <? _)%Z eqn:E; [done|to_prop; lia].
Qed.

Lemma store_uint_json n old : (n < 2 ^ 64)%N -> store_uint (uint_json n) old = Some n.
Proof. apply ParseUint64_FormatInt. Qed.

Lemma store_int_json n old : (- 2 ^ 63 <= n < 2 ^ 63)%Z -> store_int (int_json n) old = Some n.
Proof. apply store_int_FormatInt. Qed.

Section Maps.
Context {A : Type} (store : jval -> A -> option A) (zero : A) (print : A -> jval).

Lemma store_entries_fresh (m : gmap string A) ks : forall acc,
  (forall k x, m !! k = Some x -> store (print x) zero = Some x) ->
  (forall k, k ∈ ks -> is_Some (m !! k)) -> NoDup ks ->
  exists r, store_entries store zero (map (fun k => (k, default VNull (print <$> m !! k))) ks) acc = Some r
    /\ forall k, r !! k = if decide (k ∈ ks) then m !! k else acc !! k.
Proof.
  induction ks as [|k ks IH]; intros acc Hs Hm Hn; cbn [map store_entries].
  { exists acc. by split; [|intros k; destruct (decide _) as [?%not_elem_of_nil|]]. }
  apply NoDup_cons in Hn as [Hk Hn].
  destruct (Hm k ltac:(left)) as [x Hx]. rewrite Hx. simpl. rewrite (Hs k x Hx).
  destruct (IH (<[k:=x]> acc) Hs (fun j Hj => Hm j (list_elem_of_further _ _ _ Hj)) Hn) as (r & E & Hr).
  exists r. split; [exact E|]. intros j. rewrite Hr.
  destruct (decide (j ∈ ks)) as [Hj|Hj]; destruct (decide (j ∈ k :: ks)) as [Hj'|Hj'];
    rewrite elem_of_cons in Hj'; try (exfalso; tauto); [done| |].
  - destruct Hj' as [->|?]; [|done]. by rewrite lookup_insert, decide_True.
  - rewrite lookup_insert_ne; [done|]. intros ->. by apply Hj'; left.
Qed.

Lemma store_map_json (m : gmap string A) :
  (forall k x, m !! k = Some x -> store (print x) zero = Some x) ->
  store_map store zero (map_json print m) ∅ = Some m.
Proof.
  intros Hs. unfold store_map, map_json.
  destruct (store_entries_fresh m (sorted_set (dom m)) ∅ Hs) as (r & -> & Hr).
  - intros k Hk%elem_of_sorted_set. by apply elem_of_dom.
  - apply sorted_set_nodup.
  - f_equal. apply map_eq. intros k. rewrite Hr. destruct (decide _) as [|Hk]; [done|].
    rewrite elem_of_sorted_set, not_elem_of_dom in Hk. by rewrite Hk.
Qed.
End Maps.

(** ** Structs in declaration order *)

Lemma store_members_app {R} strict (fields : struct_type R) l k r :
  store_members strict fields (l ++ k) r =
  match store_members strict fields l r with
  | Some r' => store_members strict fields k r'
  | None => None
  end.
Proof.
  revert r. induction l as [|[key v] l IH]; intros r; [done|]. simpl.
  destruct (find_field _ _) as [st|]; [by destruct (st v r)|]. by destruct strict.
Qed.

(** One member, printed or omitted: afterwards the struct holds its value. *)
Lemma store_member {R} strict (fields : struct_type R) (empty : bool) name v st l r r' :
  find_field fields name = Some st ->
  (empty = true -> r' = r) -> (empty = false -> st v r = Some r') ->
  store_members strict fields (omitempty empty name v ++ l) r = store_members strict fields l r'.
Proof.
  intros Hf He Hs. destruct empty; simpl; [by rewrite He|]. by rewrite Hf, Hs.
Qed.

Lemma omitempty_valid empty name v :
  ValidString name = true -> wf_json v = true ->
  forallb (fun p => ValidString p.1 && wf_json p.2) (omitempty empty name v) = true.
Proof. intros Hn Hv. destruct empty; simpl; [done|]. by rewrite Hn, Hv. Qed.

Definition members_depth (l : list (string * jval)) : N :=
  foldr (fun p n => N.max (json_depth p.2) n) 0%N l.

Lemma members_depth_app l k n :
  (members_depth (l ++ k) <= n <-> members_depth l <= n /\ members_depth k <= n)%N.
Proof.
  unfold members_depth. induction l as [|p l IH]; simpl; [lia|]. rewrite N.max_lub_iff, IH. lia.
Qed.

Lemma omitempty_depth empty name v n :
  (json_depth v <= n)%N -> (members_depth (omitempty empty name v) <= n)%N.
Proof. destruct empty; simpl; lia. Qed.

Lemma map_json_valid {A} (print : A -> jval) (m : gmap string A) :
  (forall k x, m !! k = Some x -> ValidString k = true /\ wf_json (print x) = true) ->
  wf_json (map_json print m) = true.
Proof.
  intros H. unfold map_json. cbn [wf_json]. rewrite forallb_forall. intros p Hp.
  apply in_map_iff in Hp as (k & <- & Hk%list_elem_of_In). simpl.
  rewrite elem_of_sorted_set, elem_of_dom in Hk. destruct Hk as [x Hx]. rewrite Hx. simpl.
  destruct (H k x Hx) as [-> ->]. done.
Qed.

Lemma map_json_depth {A} (print : A -> jval) (m : gmap string A) :
  (forall x, json_depth (print x) = 0%N) -> (json_depth (map_json print m) <= 1)%N.
Proof.
  intros H. unfold map_json. cbn [json_depth].
  assert (forall ks, foldr (fun p n => N.max (json_depth p.2) n) 0%N
            (map (fun k => (k, default VNull (print <$> m !! k))) ks) = 0%N) as Hz.
  { induction ks as [|k ks IH]; [done|]. simpl. rewrite IH.
    by destruct (m !! k) as [x|]; simpl; [rewrite H|]. }
  rewrite Hz. done.
Qed.

Lemma strings_json_valid l : forallb ValidString l = true -> wf_json (VArr (map VStr l)) = true.
Proof.
  rewrite !forallb_forall. intros H. cbn [wf_json]. rewrite forallb_forall. intros x Hx.
  apply in_map_iff in Hx as (y & <- & Hy). by apply H.
Qed.

Lemma strings_json_depth l : (json_depth (VArr (map VStr l)) <= 1)%N.
Proof.
  cbn [json_depth]. assert (foldr (fun v n => N.max (json_depth v) n) 0%N (map VStr l) = 0%N) as ->.
  { induction l as [|x l IH]; [done|]. simpl. by rewrite IH. }
  done.
Qed.
