(* ===== verification/Sha256.v ===== *)
(** * package crypto/sha256

    FIPS 180-4 on byte lists, executable: the digests of the model are the
    digests of the program.  Words are [N] below 2^32. *)

From stdpp Require Import base list strings.
From Stdlib Require Import ZArith Lia Ascii.
From S2P Require Import Prelude GoStd.

Module Sha.
Local Open Scope N_scope.

Definition w32 (n : N) : N := n mod 2 ^ 32.
Definition add32 (a b : N) : N := w32 (a + b).
Definition rotr (k x : N) : N :=
  N.lor (N.shiftr x k) (w32 (N.shiftl x (32 - k))).

Definition ch (x y z : N) : N := N.lxor (N.land x y) (N.ldiff z x).
Definition maj (x y z : N) : N :=
  N.lxor (N.land x y) (N.lxor (N.land x z) (N.land y z)).
Definition big0 (x : N) : N := N.lxor (rotr 2 x) (N.lxor (rotr 13 x) (rotr 22 x)).
Definition big1 (x : N) : N := N.lxor (rotr 6 x) (N.lxor (rotr 11 x) (rotr 25 x)).
Definition small0 (x : N) : N := N.lxor (rotr 7 x) (N.lxor (rotr 18 x) (N.shiftr x 3)).
Definition small1 (x : N) : N := N.lxor (rotr 17 x) (N.lxor (rotr 19 x) (N.shiftr x 10)).

(** The round constants as the standard defines them: the first 32 fractional
    bits of the cube roots of the first 64 primes, found by bisection.  The
    roots are evaluated once, when the table is defined. *)
Definition is_prime (n : N) : bool :=
  forallb (fun d => negb (n mod N.of_nat d =? 0)) (seq 2 (N.to_nat n - 2)).
Definition primes : list N :=
  List.filter is_prime (map N.of_nat (seq 2 310)).
Fixpoint cube_root (fuel : nat) (n lo hi : N) : N :=
  match fuel with
  | O => lo
  | S fuel =>
      let mid := N.div2 (lo + hi) in
      if mid * mid * mid <=? n then cube_root fuel n mid hi else cube_root fuel n lo mid
  end.
Definition cube_fraction (p : N) : N := w32 (cube_root 40 (p * 2 ^ 96) 0 (2 ^ 36)).
Definition k256 : list N := Eval vm_compute in map cube_fraction primes.

Record regs := { ra : N; rb : N; rc : N; rd : N; re : N; rf : N; rg : N; rh : N }.

Definition init : regs :=
  {| ra := 0x6a09e667; rb := 0xbb67ae85; rc := 0x3c6ef372; rd := 0xa54ff53a;
     re := 0x510e527f; rf := 0x9b05688c; rg := 0x1f83d9ab; rh := 0x5be0cd19 |}.

Definition round (s : regs) (k w : N) : regs :=
  let t1 := add32 (add32 (add32 (rh s) (big1 (re s))) (add32 (ch (re s) (rf s) (rg s)) k)) w in
  let t2 := add32 (big0 (ra s)) (maj (ra s) (rb s) (rc s)) in
  {| ra := add32 t1 t2; rb := ra s; rc := rb s; rd := rc s;
     re := add32 (rd s) t1; rf := re s; rg := rf s; rh := rg s |}.

(** One word of the message schedule from the sixteen before it. *)
Definition next_word (win : list N) : N :=
  match win with
  | w0 :: w1 :: _ :: _ :: _ :: _ :: _ :: _ :: _ :: w9 :: _ :: _ :: _ :: _ :: w14 :: _ =>
      add32 (add32 (small1 w14) w9) (add32 (small0 w1) w0)
  | _ => 0
  end.

(** The rounds consume the schedule as it is produced: [win] holds the next
    sixteen words. *)
Fixpoint rounds (ks : list N) (win : list N) (s : regs) : regs :=
  match ks, win with
  | k :: ks, w :: rest => rounds ks (rest ++ [next_word win]) (round s k w)
  | _, _ => s
  end.

Definition add_regs (s t : regs) : regs :=
  {| ra := add32 (ra s) (ra t); rb := add32 (rb s) (rb t);
     rc := add32 (rc s) (rc t); rd := add32 (rd s) (rd t);
     re := add32 (re s) (re t); rf := add32 (rf s) (rf t);
     rg := add32 (rg s) (rg t); rh := add32 (rh s) (rh t) |}.

Fixpoint words (l : list N) : list N :=
  match l with
  | a :: b :: c :: d :: l => (a * 2 ^ 24 + b * 2 ^ 16 + c * 2 ^ 8 + d) :: words l
  | _ => []
  end.

Definition pad (l : list N) : list N :=
  let n := length l in
  let z := (64 - (n + 9) mod 64)%nat in
  l ++ [128] ++ repeat 0 (if (z =? 64)%nat then 0%nat else z) ++ be64 (8 * N.of_nat n).

Fixpoint blocks (fuel : nat) (ws : list N) (s : regs) : regs :=
  match fuel with
  | O => s
  | S fuel =>
      match ws with
      | [] => s
      | _ => blocks fuel (drop 16 ws) (add_regs s (rounds k256 (take 16 ws) s))
      end
  end.

Definition bytes4 (w : N) : list N :=
  [(w / 2 ^ 24) mod 256; (w / 2 ^ 16) mod 256; (w / 2 ^ 8) mod 256; w mod 256].

Definition sum256 (l : list N) : list N :=
  let ws := words (pad l) in
  let s := blocks (length ws) ws init in
  bytes4 (ra s) ++ bytes4 (rb s) ++ bytes4 (rc s) ++ bytes4 (rd s)
  ++ bytes4 (re s) ++ bytes4 (rf s) ++ bytes4 (rg s) ++ bytes4 (rh s).
End Sha.

(** The two test vectors of FIPS 180-4 with one and two blocks. *)
Example sha256_abc :
  hex_encode (Sha.sum256 (bytes_of "abc")) =
  "ba7816bf8f01cfea414140de5dae2223b00361a396177a9cb410ff61f20015ad".
Proof. vm_compute. reflexivity. Qed.

Example sha256_two_blocks :
  hex_encode (Sha.sum256 (bytes_of "abcdbcdecdefdefgefghfghighijhijkijkljklmklmnlmnomnopnopq")) =
  "248d6a61d20638b8e5c026930c3e6039a33ce45964ff2167f6ecedd419db06c1".
Proof. vm_compute. reflexivity. Qed.

(** ** The digest as text *)

Definition is_byte (n : N) : Prop := (n < 256)%N.

Lemma sum256_shape l : length (Sha.sum256 l) = 32 /\ Forall is_byte (Sha.sum256 l).
Proof.
  unfold Sha.sum256. set (s := Sha.blocks _ _ _). clearbody s. split; [done|].
  unfold Sha.bytes4, is_byte. repeat constructor; by apply N.mod_upper_bound.
Qed.

#[global] Opaque Sha.sum256.

Definition hex_byte (c : ascii) : bool := in_range 48 57 c || in_range 97 102 c.

Lemma hex_digit_ok n : (n < 16)%N -> hex_byte (hex_digit n) = true.
Proof.
  intros Hn. unfold hex_byte, hex_digit, in_range, byte_val.
  destruct (n <? 10)%N eqn:E; rewrite N_ascii_embedding by (to_prop; lia); to_prop; lia.
Qed.

Lemma hex_encode_ok l :
  Forall is_byte l ->
  len (hex_encode l) = 2 * length l /\ forall_bytes hex_byte (hex_encode l) = true.
Proof.
  induction 1 as [|b l Hb _ [IH1 IH2]]; simpl; [done|]. unfold is_byte in Hb.
  split; [lia|]. rewrite !andb_true_iff. split_and!; [..|done]; apply hex_digit_ok.
  - apply N.Div0.div_lt_upper_bound. lia.
  - by apply N.mod_upper_bound.
Qed.

(** [hex.EncodeToString] of a hash, as the source writes it. *)
Definition sha256_hex (l : list N) : string := hex_encode (Sha.sum256 l).

Lemma sha256_hex_ok l :
  len (sha256_hex l) = 64 /\ forall_bytes hex_byte (sha256_hex l) = true.
Proof.
  destruct (sum256_shape l) as [Hn Hb]. unfold sha256_hex.
  destruct (hex_encode_ok _ Hb) as [-> ?]. by rewrite Hn.
Qed.
