(* ===== verification/Sha1.v ===== *)
(** * package crypto/sha1

    FIPS 180-4 on byte lists, with the padding and the words of Sha256.v. *)

From stdpp Require Import base list strings.
From Stdlib Require Import ZArith Lia Ascii.
From S2P Require Import Prelude GoStd Sha256.

Module Sha1.
Local Open Scope N_scope.

Definition rotl (k x : N) : N := Sha.rotr (32 - k) x.

Record regs := { ra : N; rb : N; rc : N; rd : N; re : N }.

Definition init : regs :=
  {| ra := 0x67452301; rb := 0xefcdab89; rc := 0x98badcfe; rd := 0x10325476; re := 0xc3d2e1f0 |}.

(** The function and the constant of round [t]. *)
Definition round_mix (t : nat) (x y z : N) : N * N :=
  if (t <? 20)%nat then (Sha.ch x y z, 0x5a827999)
  else if (t <? 40)%nat then (N.lxor x (N.lxor y z), 0x6ed9eba1)
  else if (t <? 60)%nat then (Sha.maj x y z, 0x8f1bbcdc)
  else (N.lxor x (N.lxor y z), 0xca62c1d6).

Definition round (s : regs) (t : nat) (w : N) : regs :=
  let (f, k) := round_mix t (rb s) (rc s) (rd s) in
  {| ra := Sha.add32 (Sha.add32 (Sha.add32 (rotl 5 (ra s)) f) (Sha.add32 (re s) k)) w;
     rb := ra s; rc := rotl 30 (rb s); rd := rc s; re := rd s |}.

(** One word of the message schedule from the sixteen before it. *)
Definition next_word (win : list N) : N :=
  rotl 1 (N.lxor (N.lxor (nth 13 win 0) (nth 8 win 0)) (N.lxor (nth 2 win 0) (nth 0 win 0))).

Fixpoint rounds (n t : nat) (win : list N) (s : regs) : regs :=
  match n, win with
  | S n, w :: rest => rounds n (S t) (rest ++ [next_word win]) (round s t w)
  | _, _ => s
  end.

Definition add_regs (s t : regs) : regs :=
  {| ra := Sha.add32 (ra s) (ra t); rb := Sha.add32 (rb s) (rb t); rc := Sha.add32 (rc s) (rc t);
     rd := Sha.add32 (rd s) (rd t); re := Sha.add32 (re s) (re t) |}.

(** Blocks of sixteen words; the fuel is the number of words. *)
Fixpoint blocks (fuel : nat) (ws : list N) (s : regs) : regs :=
  match fuel, ws with
  | S fuel, _ :: _ => blocks fuel (drop 16 ws) (add_regs s (rounds 80 0 (take 16 ws) s))
  | _, _ => s
  end.

Definition sum (l : list N) : list N :=
  let ws := Sha.words (Sha.pad l) in
  let s := blocks (length ws) ws init in
  Sha.bytes4 (ra s) ++ Sha.bytes4 (rb s) ++ Sha.bytes4 (rc s) ++ Sha.bytes4 (rd s) ++ Sha.bytes4 (re s).
End Sha1.

(** The test vectors of FIPS 180-4 with one and two blocks. *)
Example sha1_abc :
  hex_encode (Sha1.sum (bytes_of "abc")) = "a9993e364706816aba3e25717850c26c9cd0d89d".
Proof. vm_compute. reflexivity. Qed.
Example sha1_two_blocks :
  hex_encode (Sha1.sum (bytes_of "abcdbcdecdefdefgefghfghighijhijkijkljklmklmnlmnomnopnopq"))
  = "84983e441c3bd26ebaae4aa1f95129e5e54670f1".
Proof. vm_compute. reflexivity. Qed.
