(* ===== verification/Policy.v ===== *)
(** * The outbound-policy decision (internal/outboundpolicy: policy.go,
      authority.go, automatic.go, and [validScope] of admin.go)

    [Evaluate] is the single decision procedure every enforcement point calls:
    SMTP submission, queue transport, release preview and activation.  The
    section [Spec] states what it promises, as a predicate on requests that
    does not mention its maps or its loop; the theorems show that the code
    decides exactly that predicate. *)

From stdpp Require Import base list gmap sets strings.
From Stdlib Require Import ZArith Lia Ascii.
From S2P Require Import Prelude GoStd.

(** ** Data (policy.go) *)

(** [Scope], [Stage], [Action] and [Reason] are Go string types: any text can
    reach them from a request or a table, so they stay strings here and the
    checks of the source decide which are meaningful. *)
Definition ScopeUnrestricted : string := "unrestricted".
Definition ScopeSameDomainOnly : string := "same_domain_only".

Definition StageSubmission : string := "submission".
Definition StageTransport : string := "transport".

Definition ActionOK : string := "ok".
Definition ActionReject : string := "reject".
Definition ActionDefer : string := "defer".

Definition ReasonUnrestricted : string := "outbound_scope_unrestricted".
Definition ReasonSameDomain : string := "same_domain".
Definition ReasonRecipientForbidden : string := "recipient_domain_forbidden".
Definition ReasonCrossDomainConflict : string := "cross_domain_policy_conflict".
Definition ReasonPolicyHold : string := "recipient_domain_policy_hold".
Definition ReasonUnavailable : string := "outbound_policy_unavailable".

Record GoverningDomain := {
  gd_domain : string;
  gd_scope : string;
  gd_revision : N;
}.

Record Request := {
  rq_stage : string;
  rq_queue_id : string;
  rq_recipient : string;
  rq_governing : list GoverningDomain;
}.

(** A nil [Revisions] map and an empty one are the same value here: both have
    length 0 and are omitted from JSON. *)
Record Decision := {
  d_action : string;
  d_reason : string;
  d_revisions : gmap string N;
}.

Definition maxEnvelopeRecipientBytes : nat := 254.
Definition maxGoverningDomains : nat := 64.
Definition maxPostfixQueueIDBytes : nat := 100.

Definition decision_of (action reason : string) : Decision :=
  {| d_action := action; d_reason := reason; d_revisions := ∅ |}.

Definition defer_unavailable : Decision := decision_of ActionDefer ReasonUnavailable.

(** ** Validators *)

(** admin.go *)
Definition validScope (scope : string) : bool :=
  (scope =?s ScopeUnrestricted) || (scope =?s ScopeSameDomainOnly).

Definition queue_id_alphabet : string :=
  "0123456789BCDFGHJKLMNPQRSTVWXYZbcdfghjklmnpqrstvwxyz".

Fixpoint byte_in (c : ascii) (s : string) : bool :=
  match s with
  | EmptyString => false
  | String d s => Ascii.eqb c d || byte_in c s
  end.

#[global] Arguments byte_in : simpl never.

(** The loop of [validLongQueueID]: [i] is the index of the first byte of [s]
    in the identifier and [separator] the flag; [None] is the early return. *)
Fixpoint queue_id_scan (i total : nat) (separator : bool) (s : string) : option bool :=
  match s with
  | EmptyString => Some separator
  | String c s =>
      if negb (byte_in c queue_id_alphabet) then None
      else queue_id_scan (S i) total
             (separator || (Ascii.eqb c "z" && (10 <=? i) && (i <? total - 1))) s
  end.

Definition validLongQueueID (queueID : string) : bool :=
  if (len queueID <? 12) || (maxPostfixQueueIDBytes <? len queueID) then false
  else match queue_id_scan 0 (len queueID) false queueID with
       | Some separator => separator
       | None => false
       end.

Section Policy.
Context `{HOST : !Host}.

Definition NormalizeDomain (raw0 : string) : result string :=
  let raw := TrimSpace raw0 in
  if raw =?s "" then Err "domain required" else
  match idna_to_ascii raw with
  | None => Err "invalid domain"
  | Some ascii0 =>
      let ascii1 := ToLower ascii0 in
      let ascii := TrimSuffixByte ascii1 "." in
      if (ascii =?s "") || HasPrefix ascii "." || HasSuffixByte ascii "."
         || Contains ascii ".."
      then Err "invalid domain"
      else Ok ascii
  end.

Definition recipientDomain (raw : string) : result string :=
  let trimmed := TrimSpace raw in
  if (len trimmed =? 0) || (maxEnvelopeRecipientBytes <? len trimmed)
  then Err "invalid envelope recipient" else
  match SplitLastByte "@" trimmed with
  | None => Err "invalid envelope recipient"
  | Some (local, rest) =>
      if (local =?s "") || (rest =?s "") then Err "invalid envelope recipient" else
      match NormalizeDomain rest with
      | Err _ => Err "invalid envelope recipient"
      | Ok domain =>
          let canonical := local +:+ "@" +:+ domain in
          if negb (ParseAddressExact canonical)
          then Err "invalid envelope recipient"
          else Ok domain
      end
  end.

(** The loop of [Evaluate] over the governing domains; [None] is its early
    return with an unavailable deferral. *)
Fixpoint evaluate_governing (l : list GoverningDomain)
    (authoritative : gmap string (string * N)) (restricted : gmap string N)
    : option (gmap string (string * N) * gmap string N) :=
  match l with
  | [] => Some (authoritative, restricted)
  | governing :: l =>
      match NormalizeDomain (gd_domain governing) with
      | Err _ => None
      | Ok domain =>
          if (gd_revision governing =? 0)%N || negb (validScope (gd_scope governing))
          then None else
          let state := (gd_scope governing, gd_revision governing) in
          match authoritative !! domain with
          | Some prior =>
              if bool_decide (prior = state)
              then evaluate_governing l authoritative restricted
              else None
          | None =>
              evaluate_governing l (<[domain := state]> authoritative)
                (if gd_scope governing =?s ScopeSameDomainOnly
                 then <[domain := gd_revision governing]> restricted
                 else restricted)
          end
      end
  end.

Definition Evaluate (req : Request) : Decision :=
  if (rq_stage req <>?s StageSubmission) && (rq_stage req <>?s StageTransport)
  then defer_unavailable else
  if (rq_stage req =?s StageTransport) && negb (validLongQueueID (rq_queue_id req))
  then defer_unavailable else
  if (length (rq_governing req) =? 0) || (maxGoverningDomains <? length (rq_governing req))
  then defer_unavailable else
  match recipientDomain (rq_recipient req) with
  | Err _ => defer_unavailable
  | Ok recipient =>
      match evaluate_governing (rq_governing req) ∅ ∅ with
      | None => defer_unavailable
      | Some (_, restricted) =>
          if size restricted =? 0 then decision_of ActionOK ReasonUnrestricted else
          if 1 <? size restricted then
            if rq_stage req =?s StageTransport
            then {| d_action := ActionDefer; d_reason := ReasonPolicyHold;
                    d_revisions := restricted |}
            else {| d_action := ActionReject; d_reason := ReasonCrossDomainConflict;
                    d_revisions := restricted |}
          else if existsb (fun domain => recipient =?s domain) (map_to_list restricted).*1
          then {| d_action := ActionOK; d_reason := ReasonSameDomain;
                  d_revisions := restricted |}
          else if rq_stage req =?s StageTransport
          then {| d_action := ActionDefer; d_reason := ReasonPolicyHold;
                  d_revisions := restricted |}
          else {| d_action := ActionReject; d_reason := ReasonRecipientForbidden;
                  d_revisions := restricted |}
      end
  end.
End Policy.

(** ** authority.go *)

Definition AuthenticatedIdentity (identity : string) : string * string :=
  if HasPrefix identity "system:" then ("", identity) else (identity, "").

(** ** automatic.go *)

Definition AutomaticNotification : string := "notification".
Definition AutomaticAutoresponder : string := "autoresponder".
Definition AutomaticDSN : string := "dsn".
Definition AutomaticBounce : string := "bounce".

Definition AutomaticAdmitted : string := "admitted".
Definition AutomaticPolicyBlocked : string := "policy_blocked".
Definition AutomaticRetry : string := "retry".

Record AutomaticOutcome := { ao_disposition : string; ao_generate_bounce : bool }.

Definition validAutomaticKind (kind : string) : bool :=
  (kind =?s AutomaticNotification) || (kind =?s AutomaticAutoresponder)
  || (kind =?s AutomaticDSN) || (kind =?s AutomaticBounce).

(** [policyErr] is the error returned beside the decision. *)
Definition ClassifyAutomaticDecision (kind : string) (decision : Decision)
    (policyErr : option string) : result AutomaticOutcome :=
  let outcome d := Ok {| ao_disposition := d; ao_generate_bounce := false |} in
  if negb (validAutomaticKind kind) then Err "invalid automatic mail kind" else
  if match policyErr with Some _ => true | None => false end
     || (d_action decision =?s ActionDefer) then outcome AutomaticRetry else
  if d_action decision =?s ActionReject then outcome AutomaticPolicyBlocked else
  if d_action decision <>?s ActionOK then outcome AutomaticRetry else
  outcome AutomaticAdmitted.

(** ** Specification *)

Section Spec.
Context `{HOST : !Host}.

(** A governing entry that is usable authority over domain [d]. *)
Definition governs (g : GoverningDomain) (d : string) : Prop :=
  NormalizeDomain (gd_domain g) = Ok d
  /\ gd_revision g <> 0%N /\ validScope (gd_scope g) = true.

Definition gd_state (g : GoverningDomain) : string * N := (gd_scope g, gd_revision g).

(** Every entry is usable, and two entries for one domain agree. *)
Definition coherent (l : list GoverningDomain) : Prop :=
  (forall g, g ∈ l -> exists d, governs g d)
  /\ (forall g1 g2 d, g1 ∈ l -> g2 ∈ l -> governs g1 d -> governs g2 d ->
        gd_state g1 = gd_state g2).

(** The policy question is answerable: the request names a known stage, a
    well-formed recipient whose domain is [rcpt], and between 1 and 64
    coherent governing entries. *)
Definition answerable (req : Request) (rcpt : string) : Prop :=
  (rq_stage req = StageSubmission
   \/ rq_stage req = StageTransport /\ validLongQueueID (rq_queue_id req) = true)
  /\ 1 <= length (rq_governing req) <= maxGoverningDomains
  /\ recipientDomain (rq_recipient req) = Ok rcpt
  /\ coherent (rq_governing req).

(** Domain [d] is restricted to itself by the entries [l], at revision [r]. *)
Definition restricted_by (l : list GoverningDomain) (d : string) (r : N) : Prop :=
  exists g, g ∈ l /\ governs g d /\ gd_scope g = ScopeSameDomainOnly /\ gd_revision g = r.

Definition permits (l : list GoverningDomain) (rcpt : string) : Prop :=
  forall d r, restricted_by l d r -> d = rcpt.
End Spec.

Section Facts.
Context `{HOST : !Host}.
Implicit Types (g : GoverningDomain) (l : list GoverningDomain)
  (A : gmap string (string * N)) (R : gmap string N).

Lemma governs_inj g d1 d2 : governs g d1 -> governs g d2 -> d1 = d2.
Proof. intros [H1 _] [H2 _]. congruence. Qed.

(** What the loop has collected when it returns. *)
Definition restriction_of A : gmap string N :=
  omap (fun st => if st.1 =?s ScopeSameDomainOnly then Some st.2 else None) A.

Lemma restriction_of_insert A d g :
  A !! d = None ->
  restriction_of (<[d := gd_state g]> A) =
    if gd_scope g =?s ScopeSameDomainOnly
    then <[d := gd_revision g]> (restriction_of A) else restriction_of A.
Proof.
  intros Hd. unfold restriction_of. apply map_eq. intros k.
  rewrite lookup_omap. simpl.
  destruct (gd_scope g =?s ScopeSameDomainOnly) eqn:E.
  - rewrite !lookup_insert. case_decide; [|by rewrite lookup_omap].
    subst. simpl. by rewrite E.
  - rewrite lookup_insert, lookup_omap. case_decide; [|done].
    subst. simpl. by rewrite E, Hd.
Qed.

Lemma evaluate_governing_step g l A R d :
  governs g d ->
  evaluate_governing (g :: l) A R =
    match A !! d with
    | Some prior => if bool_decide (prior = gd_state g)
                    then evaluate_governing l A R else None
    | None => evaluate_governing l (<[d := gd_state g]> A)
                (if gd_scope g =?s ScopeSameDomainOnly
                 then <[d := gd_revision g]> R else R)
    end.
Proof.
  intros (Hd & Hr & Hs). simpl. rewrite Hd, Hs.
  apply N.eqb_neq in Hr as ->. done.
Qed.

Lemma evaluate_governing_bad g l A R :
  ~ (exists d, governs g d) -> evaluate_governing (g :: l) A R = None.
Proof.
  intros Hn. simpl. destruct (NormalizeDomain (gd_domain g)) as [d|] eqn:Ed; [|done].
  destruct (_ || _) eqn:Eb; [done|]. exfalso. apply Hn. exists d.
  to_prop. by destruct Eb as [? ?]; split; [|split].
Qed.

Lemma governs_dec g : (exists d, governs g d) \/ ~ (exists d, governs g d).
Proof.
  destruct (NormalizeDomain (gd_domain g)) as [d|] eqn:Ed.
  - destruct (gd_revision g =? 0)%N eqn:Er, (validScope (gd_scope g)) eqn:Es; to_prop.
    3: { left. exists d. by split; [|split]. }
    all: right; intros (d' & _ & ? & ?); congruence.
  - right. intros (d' & ? & _). congruence.
Qed.

(** Soundness of the loop: from a map [A] whose restrictions are [R], it ends
    with a map that extends [A] by exactly the entries of [l]. *)
Lemma evaluate_governing_sound l A R A' R' :
  R = restriction_of A ->
  evaluate_governing l A R = Some (A', R') ->
  R' = restriction_of A' /\ A ⊆ A'
  /\ (forall g, g ∈ l -> exists d, governs g d /\ A' !! d = Some (gd_state g))
  /\ (forall d st, A' !! d = Some st ->
        A !! d = Some st \/ exists g, g ∈ l /\ governs g d /\ gd_state g = st).
Proof.
  revert A R. induction l as [|g l IH]; intros A R HR H.
  - simpl in H. simplify_eq. split_and!; [done|done| |by left].
    intros g Hg. by apply not_elem_of_nil in Hg.
  - destruct (governs_dec g) as [[d Hd]|Hn];
      [|by rewrite evaluate_governing_bad in H].
    rewrite (evaluate_governing_step _ _ _ _ _ Hd) in H.
    destruct (A !! d) as [prior|] eqn:EA.
    + case_bool_decide; [subst prior|done].
      destruct (IH _ _ HR H) as (-> & Hsub & Hin & Hinv). split_and!; [done|done| |].
      * intros g' [->|?]%elem_of_cons; [|by auto].
        exists d. split; [done|]. by eapply lookup_weaken.
      * intros d' st [?|(g' & ? & ?)]%Hinv; [by left|].
        right. exists g'. split; [by right|done].
    + rewrite HR, <- restriction_of_insert in H by done.
      destruct (IH _ _ eq_refl H) as (-> & Hsub & Hin & Hinv). split_and!; [done| | |].
      * etrans; [by apply insert_subseteq|done].
      * intros g' [->|?]%elem_of_cons; [|by auto].
        exists d. split; [done|]. eapply lookup_weaken; [|done]. apply lookup_insert_eq.
      * intros d' st Hst. destruct (Hinv _ _ Hst) as [Hst'|(g' & ? & ?)].
        -- rewrite lookup_insert in Hst'. case_decide; [|by left].
           simplify_eq. right. exists g. split; [left|done].
        -- right. exists g'. split; [by right|done].
Qed.

(** Completeness: usable entries that agree with each other and with [A] are
    never refused. *)
Lemma evaluate_governing_complete l A R :
  coherent l ->
  (forall g d st, g ∈ l -> governs g d -> A !! d = Some st -> st = gd_state g) ->
  is_Some (evaluate_governing l A R).
Proof.
  revert A R. induction l as [|g l IH]; intros A R [Hall Hco] HA; [by eexists|].
  destruct (Hall g) as [d Hd]; [left|].
  rewrite (evaluate_governing_step _ _ _ _ _ Hd).
  assert (coherent l) as Hcl.
  { split; [intros g' ?; apply Hall; by right|].
    intros g1 g2 d' ? ?. apply Hco; by right. }
  destruct (A !! d) as [prior|] eqn:EA.
  - rewrite bool_decide_eq_true_2 by (eapply HA; [left|done|done]).
    apply IH; [done|]. intros g' d' st ?. apply HA; by right.
  - apply IH; [done|]. intros g' d' st Hg' Hd' Hst.
    rewrite lookup_insert in Hst. case_decide; [|by eapply HA; [right| |]].
    simplify_eq. eapply Hco; [left|by right|done|done].
Qed.

Lemma evaluate_governing_spec l :
  (exists A R, evaluate_governing l ∅ ∅ = Some (A, R)
     /\ forall d r, R !! d = Some r <-> restricted_by l d r)
  /\ coherent l
  \/ evaluate_governing l ∅ ∅ = None /\ ~ coherent l.
Proof.
  destruct (evaluate_governing l ∅ ∅) as [[A R]|] eqn:E.
  - left. assert (∅ = restriction_of ∅) as H0 by (symmetry; apply omap_empty).
    destruct (evaluate_governing_sound _ _ _ _ _ H0 E) as (-> & _ & Hin & Hinv).
    split.
    + exists A, (restriction_of A). split; [done|]. intros d r.
      unfold restriction_of. rewrite lookup_omap. split.
      * destruct (A !! d) as [[sc rv]|] eqn:EA; [|done]. simpl.
        destruct (sc =?s _) eqn:Es; [|done]. intros [= ->]. to_prop. subst sc.
        apply Hinv in EA as [Hx|(g & ? & ? & [=])]; [by rewrite lookup_empty in Hx|].
        by exists g.
      * intros (g & Hg & Hd & Hs & <-).
        destruct (Hin g Hg) as (d' & Hd' & EA).
        rewrite (governs_inj _ _ _ Hd Hd'), EA. simpl. by rewrite Hs.
    + split.
      * intros g Hg. destruct (Hin g Hg) as (d & ? & _). by exists d.
      * intros g1 g2 d H1 H2 G1 G2.
        destruct (Hin g1 H1) as (d1 & G1' & L1), (Hin g2 H2) as (d2 & G2' & L2).
        rewrite <- (governs_inj _ _ _ G1 G1') in L1.
        rewrite <- (governs_inj _ _ _ G2 G2') in L2. congruence.
  - right. split; [done|]. intros Hc.
    destruct (evaluate_governing_complete l ∅ ∅ Hc) as [x Hx].
    + intros ??? ?? Hst. by rewrite lookup_empty in Hst.
    + congruence.
Qed.
End Facts.

(** ** What [Evaluate] decides *)

Section Theorems.
Context `{HOST : !Host}.
Implicit Types (req : Request) (l : list GoverningDomain) (R : gmap string N).

Lemma answerable_or_not req :
  (exists rcpt A R, answerable req rcpt
     /\ recipientDomain (rq_recipient req) = Ok rcpt
     /\ evaluate_governing (rq_governing req) ∅ ∅ = Some (A, R)
     /\ forall d r, R !! d = Some r <-> restricted_by (rq_governing req) d r)
  \/ (~ (exists rcpt, answerable req rcpt)) /\ Evaluate req = defer_unavailable.
Proof.
  unfold Evaluate.
  destruct ((_ <>?s _) && _) eqn:Estage.
  { right. split; [|done]. intros (? & [Hs|[Hs _]] & _); to_prop; naive_solver. }
  destruct ((rq_stage req =?s StageTransport) && _) eqn:Eid.
  { right. split; [|done]. to_prop. destruct Eid as [Et Eid].
    intros (? & [Hs|[_ Hs]] & _); [by rewrite Et in Hs | congruence]. }
  destruct ((_ =? 0) || _) eqn:Elen.
  { right. split; [|done]. intros (? & _ & ? & _). to_prop. destruct Elen; lia. }
  destruct (recipientDomain (rq_recipient req)) as [rcpt|] eqn:Er.
  2: { right. split; [|done]. intros (? & _ & _ & ? & _). congruence. }
  destruct (evaluate_governing_spec (rq_governing req))
    as [[(A & R & E & HR) Hc]|[E Hc]]; rewrite E.
  - left. exists rcpt, A, R. split; [|done]. to_prop.
    split; [|split; [lia|done]]. destruct Estage as [Es|Es]; [by left|].
    right. split; [done|]. destruct Eid as [Eid|Eid]; [congruence|done].
  - right. split; [|done]. by intros (? & _ & _ & _ & ?).
Qed.

(** The tail of [Evaluate], once the authority maps are collected. *)
Lemma Evaluate_answerable req rcpt A R :
  answerable req rcpt ->
  evaluate_governing (rq_governing req) ∅ ∅ = Some (A, R) ->
  Evaluate req =
    if size R =? 0 then decision_of ActionOK ReasonUnrestricted
    else if (size R =? 1) && bool_decide (rcpt ∈ dom R)
    then {| d_action := ActionOK; d_reason := ReasonSameDomain; d_revisions := R |}
    else if rq_stage req =?s StageTransport
    then {| d_action := ActionDefer; d_reason := ReasonPolicyHold; d_revisions := R |}
    else {| d_action := ActionReject;
            d_reason := if size R =? 1 then ReasonRecipientForbidden
                        else ReasonCrossDomainConflict;
            d_revisions := R |}.
Proof.
  intros (Hst & Hlen & Hr & Hc) E. unfold Evaluate. rewrite Hr, E.
  replace ((rq_stage req <>?s StageSubmission) && (rq_stage req <>?s StageTransport))
    with false by (destruct Hst as [->|[-> _]]; done).
  replace ((rq_stage req =?s StageTransport) && negb (validLongQueueID (rq_queue_id req)))
    with false by (destruct Hst as [->|[-> ->]]; done).
  replace ((_ =? 0) || _) with false
    by (symmetry; apply orb_false_iff; to_prop; lia).
  destruct (size R =? 0) eqn:E0; [done|].
  assert (existsb (λ domain, rcpt =?s domain) (map_to_list R).*1
            = bool_decide (rcpt ∈ dom R)) as ->.
  { apply eq_true_iff_eq. rewrite existsb_exists, bool_decide_eq_true, elem_of_dom.
    split.
    - intros (d & Hd & ->%eqs_true). apply list_elem_of_In, list_elem_of_fmap in Hd
        as ([? r] & -> & Hd%elem_of_map_to_list). by exists r.
    - intros [r Hd]. exists rcpt. split; [|apply eqs_refl].
      apply list_elem_of_In, list_elem_of_fmap. exists (rcpt, r).
      split; [done|]. by apply elem_of_map_to_list. }
  destruct (1 <? size R) eqn:E1, (size R =? 1) eqn:E2; to_prop; try lia; done.
Qed.

Lemma permits_size rcpt l R :
  (forall d r, R !! d = Some r <-> restricted_by l d r) ->
  permits l rcpt <-> size R = 0 \/ (size R = 1 /\ rcpt ∈ dom R).
Proof.
  intros HR. split.
  - intros Hp. destruct (decide (R = ∅)) as [->|Hne]; [by left; rewrite map_size_empty|].
    right. apply map_choose in Hne as (d & r & Hd).
    assert (d = rcpt) as -> by (eapply Hp, HR, Hd).
    assert (R = {[ rcpt := r ]}) as ->.
    { apply map_eq. intros k. destruct (decide (k = rcpt)) as [->|Hk].
      - by rewrite lookup_singleton_eq.
      - rewrite lookup_singleton_ne by done. destruct (R !! k) as [r'|] eqn:Ek; [|done].
        by apply HR, Hp in Ek. }
    rewrite map_size_singleton, dom_singleton_L. set_solver.
  - intros [H0|[H1 [r0 Hr0]%elem_of_dom]] d r Hd%HR.
    + apply map_size_empty_inv in H0 as ->. by rewrite lookup_empty in Hd.
    + destruct (decide (d = rcpt)) as [|Hne]; [done|]. exfalso.
      assert (size (delete rcpt R) = 0) as Hs
        by (rewrite map_size_delete_Some by done; lia).
      apply map_size_empty_inv in Hs.
      assert (delete rcpt R !! d = Some r) as Hx by (by rewrite lookup_delete_ne).
      by rewrite Hs, lookup_empty in Hx.
Qed.

Lemma Evaluate_ok_lemma req :
  d_action (Evaluate req) = ActionOK
  <-> exists rcpt, answerable req rcpt /\ permits (rq_governing req) rcpt.
Proof.
  destruct (answerable_or_not req) as [(rcpt & A & R & Ha & Hr & E & HR)|[Hn ->]].
  - rewrite (Evaluate_answerable _ _ _ _ Ha E).
    assert ((exists r, answerable req r /\ permits (rq_governing req) r)
            <-> permits (rq_governing req) rcpt) as ->.
    { split; [|by eauto]. intros (r & (_ & _ & Hr' & _) & ?).
      by assert (r = rcpt) as <- by congruence. }
    rewrite (permits_size _ _ _ HR).
    destruct (size R =? 0) eqn:E0; to_prop; [by simpl; tauto|].
    destruct (size R =? 1) eqn:E1; to_prop; simpl.
    + case_bool_decide; simpl; [tauto|].
      destruct (rq_stage req =?s StageTransport); simpl;
        (split; [discriminate|intros [?|[_ ?]]; [lia|done]]).
    + destruct (rq_stage req =?s StageTransport); simpl;
        (split; [discriminate|intros [?|[? _]]; lia]).
  - split; [discriminate|]. intros (rcpt & Ha & _). destruct Hn. by exists rcpt.
Qed.

(** C1: [Evaluate] answers OK exactly when the request is answerable (known
    stage, valid queue ID at transport, a recipient that parses, 1 to 64
    usable and mutually consistent governing entries) and every governing
    domain restricted to itself is the recipient's domain. *)
Theorem Evaluate_ok_iff req :
  d_action (Evaluate req) = ActionOK
  <-> exists rcpt, answerable req rcpt /\ permits (rq_governing req) rcpt.
Proof. apply Evaluate_ok_lemma. Qed.

Lemma Evaluate_refusal_lemma req :
  d_action (Evaluate req) <> ActionOK ->
  (Evaluate req = defer_unavailable /\ ~ exists rcpt, answerable req rcpt)
  \/ exists rcpt, answerable req rcpt /\ ~ permits (rq_governing req) rcpt
     /\ (forall d r, d_revisions (Evaluate req) !! d = Some r
                     <-> restricted_by (rq_governing req) d r)
     /\ (d_action (Evaluate req), d_reason (Evaluate req)) ∈
          (if rq_stage req =?s StageTransport
           then [(ActionDefer, ReasonPolicyHold)]
           else [(ActionReject, ReasonRecipientForbidden);
                 (ActionReject, ReasonCrossDomainConflict)]).
Proof.
  intros Hok.
  destruct (answerable_or_not req) as [(rcpt & A & R & Ha & Hr & E & HR)|[Hn He]].
  2: { left. done. }
  right. exists rcpt. split; [done|]. split.
  { intros Hp. apply Hok, Evaluate_ok_lemma. by exists rcpt. }
  revert Hok. rewrite (Evaluate_answerable _ _ _ _ Ha E).
  destruct (size R =? 0); [done|].
  destruct ((size R =? 1) && _); [done|]. intros _.
  destruct (rq_stage req =?s StageTransport), (size R =? 1);
    (split; [done|]); set_solver.
Qed.

(** When the answer is not OK it says why and never more than it should:
    an unanswerable request is deferred as unavailable with no revisions; an
    answerable but forbidden one is held at transport and rejected at
    submission, and the revisions reported are exactly the restricting
    domains with their revisions. *)
Theorem Evaluate_refusal req :
  d_action (Evaluate req) <> ActionOK ->
  (Evaluate req = defer_unavailable /\ ~ exists rcpt, answerable req rcpt)
  \/ exists rcpt, answerable req rcpt /\ ~ permits (rq_governing req) rcpt
     /\ (forall d r, d_revisions (Evaluate req) !! d = Some r
                     <-> restricted_by (rq_governing req) d r)
     /\ (d_action (Evaluate req), d_reason (Evaluate req)) ∈
          (if rq_stage req =?s StageTransport
           then [(ActionDefer, ReasonPolicyHold)]
           else [(ActionReject, ReasonRecipientForbidden);
                 (ActionReject, ReasonCrossDomainConflict)]).
Proof. apply Evaluate_refusal_lemma. Qed.

Lemma evaluate_governing_perm l1 l2 :
  l1 ≡ₚ l2 ->
  snd <$> evaluate_governing l1 ∅ ∅ = snd <$> evaluate_governing l2 ∅ ∅.
Proof.
  intros Hp.
  assert (coherent l1 <-> coherent l2) as Hc by (unfold coherent; by setoid_rewrite Hp).
  destruct (evaluate_governing_spec l1) as [[(A1 & R1 & E1 & H1) ?]|[E1 ?]],
    (evaluate_governing_spec l2) as [[(A2 & R2 & E2 & H2) ?]|[E2 ?]];
    try tauto; rewrite E1, E2; [|done].
  simpl. f_equal. apply map_eq. intros d. apply option_eq. intros r.
  rewrite H1, H2. unfold restricted_by. by setoid_rewrite Hp.
Qed.

(** The order in which the governing entries were resolved is
    irrelevant. *)
Theorem Evaluate_permutation stage queueID recipient l1 l2 :
  l1 ≡ₚ l2 ->
  Evaluate {| rq_stage := stage; rq_queue_id := queueID;
              rq_recipient := recipient; rq_governing := l1 |}
  = Evaluate {| rq_stage := stage; rq_queue_id := queueID;
                rq_recipient := recipient; rq_governing := l2 |}.
Proof.
  intros Hp. unfold Evaluate; simpl. rewrite <- Hp.
  pose proof (evaluate_governing_perm _ _ Hp) as HR.
  destruct (evaluate_governing l1 ∅ ∅) as [[A1 R1]|],
    (evaluate_governing l2 ∅ ∅) as [[A2 R2]|]; simplify_eq/=; done.
Qed.

(** More authority never relaxes a decision: a message admitted under a
    set of governing entries is admitted under every non-empty subset. *)
Theorem Evaluate_monotone stage queueID recipient l1 l2 :
  l1 <> [] -> l1 ⊆+ l2 ->
  d_action (Evaluate {| rq_stage := stage; rq_queue_id := queueID;
                        rq_recipient := recipient; rq_governing := l2 |}) = ActionOK ->
  d_action (Evaluate {| rq_stage := stage; rq_queue_id := queueID;
                        rq_recipient := recipient; rq_governing := l1 |}) = ActionOK.
Proof.
  rewrite !Evaluate_ok_lemma.
  intros Hne Hsub (rcpt & (Hst & Hlen & Hr & Hall & Hco) & Hp). exists rcpt.
  assert (forall g, g ∈ l1 -> g ∈ l2) as Hin
    by (intros g Hg; eapply elem_of_submseteq; done).
  split; [split; [done|split; [|split; [done|split]]]|]; simpl in *.
  - apply submseteq_length in Hsub. destruct l1; simpl in *; [done|lia].
  - intros g Hg. apply Hall; auto.
  - intros g1 g2 d ??. apply Hco; auto.
  - intros d r (g & Hg & ?). apply (Hp d r). exists g. split; [auto|done].
Qed.
End Theorems.

(** ** Canonical domains and addresses

    Two documented properties of the lookup profile of golang.org/x/net/idna
    are used: [StrictDomainName] limits its output to letters, digits, hyphens
    and dots, and a name it has produced (in lower case, without the root dot)
    maps to itself. *)

Definition ldh_byte (c : ascii) : bool :=
  in_range 48 57 c || in_range 65 90 c || in_range 97 122 c
  || Ascii.eqb c "-" || Ascii.eqb c ".".

Class IdnaLaws `{HOST : !Host} : Prop := {
  idna_ldh : forall s a, idna_to_ascii s = Some a -> forall_bytes ldh_byte a = true;
  idna_stable : forall s a, idna_to_ascii s = Some a ->
    let d := TrimSuffixByte (map_bytes lower_byte a) "." in
    d <> "" -> idna_to_ascii d = Some d;
}.

Definition ldh_lower (c : ascii) : bool := ldh_byte c && negb (in_range 65 90 c).

Lemma ldh_is_ascii c : ldh_byte c = true -> is_ascii_byte c = true.
Proof.
  unfold ldh_byte, in_range, is_ascii_byte. rewrite !orb_true_iff, !Ascii.eqb_eq.
  intros [[[[?|?]|?]|?]|?]; subst; to_prop; try lia; done.
Qed.

Lemma ldh_is_plain c : ldh_byte c = true -> plain_byte c = true.
Proof.
  unfold ldh_byte, in_range, plain_byte, in_range. rewrite !orb_true_iff, !Ascii.eqb_eq.
  intros [[[[?|?]|?]|?]|?]; subst; to_prop; try lia; done.
Qed.

Lemma lower_byte_upper c : in_range 65 90 c = true ->
  byte_val (lower_byte c) = (byte_val c + 32)%N.
Proof.
  unfold lower_byte. intros Hc. rewrite Hc. unfold in_range, byte_val in *.
  apply N_ascii_embedding. to_prop. lia.
Qed.

Lemma lower_byte_ldh c : ldh_byte c = true -> ldh_lower (lower_byte c) = true.
Proof.
  intros Hc. destruct (in_range 65 90 c) eqn:Eu.
  - pose proof (lower_byte_upper _ Eu) as Hv.
    assert (in_range 97 122 (lower_byte c) = true
            /\ in_range 65 90 (lower_byte c) = false) as [H1 H2].
    { unfold in_range in *. rewrite Hv. to_prop. lia. }
    unfold ldh_lower, ldh_byte. rewrite H1, H2. by rewrite !orb_true_r.
  - unfold lower_byte. rewrite Eu. unfold ldh_lower. by rewrite Hc, Eu.
Qed.

Lemma lower_byte_fix c : ldh_lower c = true -> lower_byte c = c.
Proof.
  unfold ldh_lower, lower_byte. intros [_ Hu]%andb_true_iff. apply negb_true_iff in Hu.
  by rewrite Hu.
Qed.

Lemma map_lower_ldh s :
  forall_bytes ldh_byte s = true -> forall_bytes ldh_lower (map_bytes lower_byte s) = true.
Proof.
  induction s as [|c s IH]; simpl; [done|].
  rewrite !andb_true_iff. intros [??]. auto using lower_byte_ldh.
Qed.

Lemma map_lower_fix s : forall_bytes ldh_lower s = true -> map_bytes lower_byte s = s.
Proof.
  induction s as [|c s IH]; simpl; [done|].
  rewrite andb_true_iff. intros [? ?]. by rewrite lower_byte_fix, IH.
Qed.

Lemma DropLast_forall p s : forall_bytes p s = true -> forall_bytes p (DropLast s) = true.
Proof.
  induction s as [|c s IH]; [done|]. destruct s as [|d s]; [done|].
  cbn [forall_bytes DropLast] in *. rewrite !andb_true_iff in *. naive_solver.
Qed.

Lemma TrimSuffixByte_forall p s b :
  forall_bytes p s = true -> forall_bytes p (TrimSuffixByte s b) = true.
Proof. unfold TrimSuffixByte. destruct (HasSuffixByte s b); auto using DropLast_forall. Qed.

Section Normalisation.
Context `{HOST : !Host} {IDNA : IdnaLaws}.

Lemma NormalizeDomain_ldh raw d :
  NormalizeDomain raw = Ok d -> forall_bytes ldh_lower d = true /\ d <> "".
Proof.
  unfold NormalizeDomain. intros H. go_inv H. to_prop.
  pose proof (idna_ldh _ _ E0) as Hl. split; [|tauto].
  apply TrimSuffixByte_forall. unfold ToLower, is_ascii.
  rewrite (forall_bytes_impl ldh_byte is_ascii_byte _ ldh_is_ascii Hl).
  by apply map_lower_ldh.
Qed.

Lemma NormalizeDomain_plain raw d :
  NormalizeDomain raw = Ok d -> forall_bytes plain_byte d = true.
Proof.
  intros [Hl _]%NormalizeDomain_ldh. eapply forall_bytes_impl; [|exact Hl].
  intros c [Hc _]%andb_true_iff. by apply ldh_is_plain.
Qed.

(** A normalised domain is its own normal form. *)
Lemma NormalizeDomain_idem raw d :
  NormalizeDomain raw = Ok d -> NormalizeDomain d = Ok d.
Proof.
  intros H. destruct (NormalizeDomain_ldh _ _ H) as [Hl Hne].
  pose proof (NormalizeDomain_plain _ _ H) as Hp.
  unfold NormalizeDomain in H. go_inv H. to_prop.
  match goal with E : idna_to_ascii _ = Some ?x |- _ =>
    rename x into a; rename E into Ea end.
  pose proof (idna_ldh _ _ Ea) as Ha.
  assert (ToLower a = map_bytes lower_byte a) as Hlow.
  { unfold ToLower, is_ascii.
    by rewrite (forall_bytes_impl ldh_byte is_ascii_byte _ ldh_is_ascii Ha). }
  rewrite Hlow in *. set (d := TrimSuffixByte _ _) in *.
  unfold NormalizeDomain. rewrite (TrimSpace_plain d Hp).
  apply eqs_false in Hne as Hne'. rewrite Hne'.
  pose proof (idna_stable _ _ Ea Hne) as Hst. fold d in Hst. rewrite Hst.
  assert (ToLower d = d) as ->.
  { unfold ToLower, is_ascii. rewrite (forall_bytes_impl ldh_lower is_ascii_byte d);
      [by apply map_lower_fix| |done].
    intros c [? _]%andb_true_iff. by apply ldh_is_ascii. }
  destruct_and!. unfold TrimSuffixByte.
  match goal with Hs : HasSuffixByte d "." = false |- _ => rewrite !Hs end.
  rewrite Hne'. repeat match goal with Hx : _ = false |- _ => rewrite Hx; clear Hx end.
  done.
Qed.

(** The canonical address built from a recipient: its local part unchanged,
    its domain normalised. *)
Definition canonical_address (raw d : string) : option string :=
  match SplitLastByte "@" (TrimSpace raw) with
  | Some (local, _) => Some (local +:+ "@" +:+ d)
  | None => None
  end.

Lemma recipientDomain_inv raw d :
  recipientDomain raw = Ok d ->
  exists local rest,
    SplitLastByte "@" (TrimSpace raw) = Some (local, rest)
    /\ local <> "" /\ rest <> "" /\ NormalizeDomain rest = Ok d
    /\ ParseAddressExact (local +:+ "@" +:+ d) = true
    /\ len (TrimSpace raw) <= maxEnvelopeRecipientBytes.
Proof.
  unfold recipientDomain. intros H. go_inv H. to_prop. destruct_and!.
  by eexists _, _; split_and!.
Qed.

Lemma ldh_no_at d : forall_bytes ldh_lower d = true -> SplitLastByte "@" d = None.
Proof.
  intros Hl. apply SplitLastByte_none. eapply forall_bytes_impl; [|exact Hl].
  intros c [Hc _]%andb_true_iff. apply negb_true_iff, Ascii.eqb_neq. by intros ->.
Qed.

Lemma app_at (l d : string) : l +:+ "@" +:+ d = l +:+ String "@" d.
Proof. done. Qed.

(** The canonical form of an accepted recipient is accepted, with the same
    domain, and is its own trimmed form, as long as IDNA did not push it
    over the address bound. *)
Lemma recipientDomain_trim raw d local rest :
  recipientDomain raw = Ok d ->
  SplitLastByte "@" (TrimSpace raw) = Some (local, rest) ->
  TrimSpace (local +:+ "@" +:+ d) = local +:+ "@" +:+ d.
Proof.
  intros (l' & r' & Hs' & Hl & Hr & Hd & _ & _)%recipientDomain_inv Hs.
  rewrite Hs in Hs'. simplify_eq. destruct (NormalizeDomain_ldh _ _ Hd) as [_ Hne]. rewrite app_at. apply TrimSpace_id.
  - rewrite (starts_space_at _ d r') by done.
    apply SplitLastByte_some in Hs as [<- _]. apply TrimSpace_starts.
  - rewrite <- app_at, app_assoc_s. apply plain_ends.
    + done.
    + by eapply NormalizeDomain_plain.
Qed.

Lemma recipientDomain_canonical raw d local rest :
  recipientDomain raw = Ok d ->
  SplitLastByte "@" (TrimSpace raw) = Some (local, rest) ->
  len (local +:+ "@" +:+ d) <= maxEnvelopeRecipientBytes ->
  recipientDomain (local +:+ "@" +:+ d) = Ok d
  /\ TrimSpace (local +:+ "@" +:+ d) = local +:+ "@" +:+ d.
Proof.
  intros H Hs Hlen. pose proof (recipientDomain_trim _ _ _ _ H Hs) as Htrim.
  destruct (recipientDomain_inv _ _ H) as (l' & r' & Hs' & Hl & Hr & Hd & Hp & _).
  rewrite Hs in Hs'. simplify_eq.
  destruct (NormalizeDomain_ldh _ _ Hd) as [Hldh Hne].
  split; [|done]. unfold recipientDomain. rewrite Htrim.
  rewrite app_at, SplitLastByte_app by (by apply ldh_no_at).
  apply eqs_false in Hl, Hne. rewrite Hl, Hne. simpl.
  rewrite (NormalizeDomain_idem _ _ Hd), Hp. simpl.
  destruct (_ || _) eqn:Eb; [|done]. exfalso.
  rewrite app_at in Hlen. apply orb_true_iff in Eb as [Eb|Eb]; to_prop; [|lia].
  rewrite len_app in Eb. simpl in Eb. lia.
Qed.
End Normalisation.

(** ** Queue identifiers and automatic mail *)

Definition queue_id_bytes (s : string) : bool :=
  forall_bytes (fun c => byte_in c queue_id_alphabet) s.

(** A separator: a "z" with at least [k] bytes before it and one after it. *)
Definition has_separator (k : nat) (s : string) : Prop :=
  exists a b, s = a +:+ String "z" b /\ k <= len a /\ b <> "".

Lemma has_separator_cons k c s :
  has_separator k (String c s)
  <-> (c = "z"%char /\ k = 0 /\ s <> "") \/ has_separator (k - 1) s.
Proof.
  split.
  - intros (a & b & Ha & Hk & Hb). destruct a as [|x a].
    + injection Ha as -> ->. left. simpl in Hk. split_and!; [done|lia|done].
    + rewrite app_cons in Ha. injection Ha as -> ->. right.
      exists a, b. simpl in Hk. split_and!; [done|lia|done].
  - intros [(-> & -> & Hs)|(a & b & -> & Hk & Hb)].
    + exists "", s. split_and!; [done|simpl; lia|done].
    + exists (String c a), b. rewrite app_cons. split_and!; [done|simpl; lia|done].
Qed.

Lemma queue_id_scan_spec s i total sep r :
  i + len s = total ->
  queue_id_scan i total sep s = Some r <->
  queue_id_bytes s = true /\ (r = true <-> sep = true \/ has_separator (10 - i) s).
Proof.
  revert i sep. induction s as [|c s IH]; intros i sep Ht; simpl.
  - split.
    + intros [= <-]. split; [done|]. split; [by left|].
      intros [?|(a & b & Ha & _)]; [done|]. by destruct a.
    + intros [_ Hr]. f_equal. apply eq_true_iff_eq. rewrite Hr. split; [by left|].
      intros [?|(a & b & Ha & _)]; [done|]. by destruct a.
  - unfold queue_id_bytes in *. simpl. destruct (byte_in c queue_id_alphabet); simpl;
      [|split; [discriminate|intros [? _]; discriminate]].
    rewrite IH by (simpl in Ht; lia).
    assert (has_separator (10 - i) (String c s) <->
              (Ascii.eqb c "z" && (10 <=? i) && (i <? total - 1)) = true
              \/ has_separator (10 - S i) s) as ->.
    { rewrite has_separator_cons. replace (10 - i - 1) with (10 - S i) by lia.
      assert (c = "z"%char /\ 10 - i = 0 /\ s <> ""
              <-> (Ascii.eqb c "z" && (10 <=? i) && (i <? total - 1)) = true) as ->; [|done].
      rewrite !andb_true_iff, Ascii.eqb_eq, Nat.leb_le, Nat.ltb_lt. simpl in Ht.
      split; [intros (-> & ? & ?)|intros [[-> ?] ?]]; (split_and!; [done|lia|]).
      - destruct s; simpl in *; [done|lia].
      - intros ->. simpl in *. lia. }
    rewrite orb_true_iff. tauto.
Qed.

(** [validLongQueueID] accepts exactly the identifiers the database schema
      admits (migrations/0009: length 12 to 100, ten or more alphabet bytes, a
      "z", one or more alphabet bytes). *)
Theorem validLongQueueID_spec (q : string) :
  validLongQueueID q = true
  <-> 12 <= len q <= maxPostfixQueueIDBytes /\ queue_id_bytes q = true
      /\ has_separator 10 q.
Proof.
  unfold validLongQueueID.
  destruct ((len q <? 12) || (maxPostfixQueueIDBytes <? len q)) eqn:El; to_prop.
  { split; [done|]. intros [? _]. lia. }
  pose proof (queue_id_scan_spec q 0 (len q) false) as Hspec. simpl in Hspec.
  destruct (queue_id_scan 0 (len q) false q) as [r|] eqn:Es.
  - destruct (proj1 (Hspec r eq_refl) eq_refl) as [Hb Hr]. split.
    + intros ->. split; [lia|]. split; [done|].
      by destruct (proj1 Hr eq_refl).
    + intros (_ & _ & ?). apply Hr. by right.
  - split; [done|]. intros (_ & Hb & Hsep). exfalso.
    assert (None = Some true) as Hx by (apply Hspec; [done|by split; [|split; [right|]]]). done.
Qed.

Section Automatic.
Context `{HOST : !Host}.

(** Automatic mail (notifications, autoresponders, DSNs, bounces) is
    admitted only by an OK decision that came without an error, a rejection
    blocks it for good, everything else is retried, and no outcome ever
    generates a bounce. *)
Theorem ClassifyAutomaticDecision_spec kind d err :
  ClassifyAutomaticDecision kind d err =
    if validAutomaticKind kind
    then Ok {| ao_disposition :=
                 match err with
                 | Some _ => AutomaticRetry
                 | None => if d_action d =?s ActionOK then AutomaticAdmitted
                           else if d_action d =?s ActionReject
                           then AutomaticPolicyBlocked else AutomaticRetry
                 end;
               ao_generate_bounce := false |}
    else Err "invalid automatic mail kind".
Proof.
  unfold ClassifyAutomaticDecision.
  destruct (validAutomaticKind kind); simpl; [|done].
  destruct err; simpl; [done|].
  destruct (d_action d =?s ActionDefer) eqn:E1; to_prop; [by rewrite E1|].
  destruct (d_action d =?s ActionReject) eqn:E2; to_prop; [by rewrite E2|].
  by destruct (d_action d =?s ActionOK).
Qed.
End Automatic.
