(* ===== verification/Sample.v ===== *)
(** * A concrete host

    An instance of [Host] on which every parameter of the model computes: ASCII
    case mapping, letter-digit-hyphen domain names, bytewise collation, and a
    JSON codec for lists of strings without escapes.  The concrete runs of the
    development use it; it also shows that the laws assumed of the host can
    hold together. *)

From stdpp Require Import base list strings.
From Stdlib Require Import ZArith Lia Ascii.
From S2P Require Import Prelude GoStd Policy.

(** JSON text of a list of strings, restricted to texts without quotes and
    backslashes. *)
Fixpoint plain_json_strings (l : list string) : string :=
  match l with
  | [] => ""
  | [s] => String "034" (s +:+ String "034" "")
  | s :: l => String "034" (s +:+ String "034" (String "," (plain_json_strings l)))
  end.

(** Reads quoted texts separated by commas up to the closing bracket; the fuel
    is the length of the text. *)
Fixpoint read_strings (fuel : nat) (s : string) : option (list string) :=
  match fuel with
  | O => None
  | S fuel =>
      match s with
      | String "034" s =>
          match SplitFirstByte "034" s with
          | Some (x, String "," rest) => cons x <$> read_strings fuel rest
          | Some (x, "]") => Some [x]
          | _ => None
          end
      | _ => None
      end
  end.

Definition sample_json_strings (s : string) : option (list string) :=
  match s with
  | "[]" => Some []
  | String "[" s => read_strings (len s) s
  | _ => None
  end.

#[export] Instance sample_host : Host := {
  idna_to_ascii s :=
    if negb (s =?s "") && forall_bytes ldh_byte s then Some (map_bytes lower_byte s) else None;
  unicode_to_lower := map_bytes lower_byte;
  unicode_equal_fold s t := map_bytes lower_byte s =?s map_bytes lower_byte t;
  mail_domain_literal _ := false;
  json_strings := sample_json_strings;
  json_of_strings l := "[" +:+ plain_json_strings l +:+ "]";
  sql_lower := map_bytes lower_byte;
  sql_leb := String.leb;
}.

#[export] Instance sample_idna : IdnaLaws.
Proof.
  assert (forall s, forall_bytes ldh_byte s = true ->
    forall_bytes ldh_lower (map_bytes lower_byte s) = true) as Hl by exact map_lower_ldh.
  assert (forall s, forall_bytes ldh_lower s = true -> forall_bytes ldh_byte s = true) as Hw.
  { intros s. apply forall_bytes_impl. by intros c [? _]%andb_true_iff. }
  split; simpl; intros s a; (destruct (negb (s =?s "") && _) eqn:E; [|done]); intros [= <-];
    apply andb_true_iff in E as [_ E].
  - by apply Hw, Hl.
  - intros Hd. rewrite (map_lower_fix (map_bytes _ _)) in * by (by apply Hl).
    set (e := TrimSuffixByte _ _) in *.
    assert (forall_bytes ldh_lower e = true) as He by (by apply TrimSuffixByte_forall, Hl).
    apply eqs_false in Hd. rewrite Hd, (Hw _ He). simpl. by rewrite map_lower_fix.
Qed.

Example sample_targets_read :
  json_strings (json_of_strings ["a@example.org"; "b@example.org"])
  = Some ["a@example.org"; "b@example.org"].
Proof. vm_compute. reflexivity. Qed.
