(* ===== verification/Queue.v ===== *)
(** * Queue provenance (internal/outboundpolicy/queue.go, with the pure
      helpers of reconcile.go)

    The identity of a queued message is what [normalizeQueueRegistration]
    computes: the Postfix queue ID, the arrival fingerprint, the canonical
    sender and the SHA-256 digests of the canonical recipient and source sets.
    The digests are computed here over the same length-framed transcript as in
    the source; [frames] is that transcript. *)

From stdpp Require Import base list gmap sets strings sorting.
From Stdlib Require Import ZArith Lia Ascii.
From S2P Require Import Prelude GoStd Sha256 Policy.

(** ** Data *)

Definition SourceAuthenticatedMailbox : string := "authenticated_mailbox".
Definition SourceEnvelopeSender : string := "envelope_sender".
Definition SourceSystemSender : string := "system_sender".
Definition SourceAlias : string := "alias".
Definition SourceForward : string := "forward".
Definition SourceList : string := "list".
Definition SourceCatchAll : string := "catch_all".

Definition HoldPending : string := "pending".
Definition HoldRequired : string := "hold_required".
Definition HoldReconciling : string := "reconciling".
Definition HoldApplied : string := "held".
Definition HoldReconciliationError : string := "reconciliation_error".
Definition HoldReleaseReconciling : string := "release_reconciling".
Definition HoldReleaseError : string := "release_error".
Definition HoldReleased : string := "released".

Definition maxQueueRecipients : N := 10000.
Definition maxQueueSources : nat := 64.
Definition maxQueueObjectID : nat := 320.

Record QueueSource := { qs_kind : string; qs_object_id : string }.

#[export] Instance QueueSource_eq_dec : EqDecision QueueSource.
Proof. solve_decision. Defined.

#[export] Instance QueueSource_countable : Countable QueueSource.
Proof.
  refine (inj_countable' (fun s => (qs_kind s, qs_object_id s))
            (fun p => {| qs_kind := p.1; qs_object_id := p.2 |}) _).
  by intros [].
Defined.

Record QueueRegistration := {
  rg_queue_id : string;
  rg_arrival_fingerprint : string;
  rg_envelope_sender : string;
  rg_recipients : list string;
  rg_sources : list QueueSource;
}.

(** Times are microseconds since Go's zero time, so [0] is [IsZero]. *)
Record QueueRecord := {
  qr_queue_id : string;
  qr_arrival_fingerprint : string;
  qr_envelope_sender : string;
  qr_recipient_set_digest : string;
  qr_source_set_digest : string;
  qr_hold_state : string;
  qr_policy_reason : string;
  qr_policy_revisions : gmap string N;
  qr_reconciliation_attempts : N;
  qr_last_error_code : string;
  qr_first_seen_at : Z;
  qr_updated_at : Z;
  qr_recipients : list string;
  qr_sources : list QueueSource;
}.

(** reconcile.go *)
Record QueueMetadata := {
  qm_queue_id : string;
  qm_arrival_fingerprint : string;
  qm_envelope_sender : string;
  qm_recipients : list string;
  qm_held : bool;
}.

(** ** Validators *)

Definition validLowerHexDigest (value : string) : bool :=
  (len value =? 64) && forall_bytes hex_byte value.

Definition validSourceKind (kind : string) : bool :=
  existsb (String.eqb kind)
    [SourceAuthenticatedMailbox; SourceEnvelopeSender; SourceSystemSender;
     SourceAlias; SourceForward; SourceList; SourceCatchAll].

Definition validQueueObjectID (id : string) : bool :=
  if (len id =? 0) || (maxQueueObjectID <? len id) || negb (ValidString id)
     || (TrimSpace id <>?s id) then false
  else negb (HasControl id).

Definition validHoldState (state : string) : bool :=
  existsb (String.eqb state)
    [HoldPending; HoldRequired; HoldReconciling; HoldApplied;
     HoldReconciliationError; HoldReleaseReconciling; HoldReleaseError; HoldReleased].

Definition validQueueReason (reason : string) : bool :=
  (reason =?s ReasonPolicyHold) || (reason =?s ReasonCrossDomainConflict)
  || (reason =?s ReasonUnavailable).

Definition validQueuePolicyState (state : string) (hasReason : bool) (reason : string)
    (revisions : gmap string N) : bool :=
  if state =?s HoldPending then negb hasReason && (size revisions =? 0)
  else hasReason && validQueueReason reason && (0 <? size revisions).

Definition error_code_byte (c : ascii) : bool :=
  in_range 97 122 c || in_range 48 57 c || Ascii.eqb c "_".

Definition validQueueErrorCode (code : string) : bool :=
  if (len code =? 0) || (128 <? len code) then false
  else forall_bytes error_code_byte code.

(** ** Digests *)

(** One length-framed value: eight big-endian length bytes, then the bytes. *)
Definition frame (value : string) : list N :=
  be64 (N.of_nat (len value)) ++ bytes_of value.

Definition frames (values : list string) : list N := concat (map frame values).

Definition digestStrings (values : list string) : string := sha256_hex (frames values).

Definition source_frames (source : QueueSource) : list N :=
  frame (qs_kind source) ++ frame (qs_object_id source).

Definition digestSources (sources : list QueueSource) : string :=
  sha256_hex (concat (map source_frames sources)).

(** ** Canonical source sets *)

(** The NUL byte the source joins map keys with. *)
Definition nul : string := String "000" "".

Definition source_key (source : QueueSource) : string :=
  qs_kind source +:+ nul +:+ qs_object_id source.

(** The comparison [sort.Slice] is given, as a non-strict order. *)
Definition source_le (x y : QueueSource) : Prop :=
  if qs_kind x =?s qs_kind y
  then String.le (qs_object_id x) (qs_object_id y)
  else String.le (qs_kind x) (qs_kind y).

#[export] Instance source_le_dec : RelDecision source_le.
Proof. intros x y. unfold source_le. destruct (_ =?s _); apply _. Defined.

Definition sort_sources (l : list QueueSource) : list QueueSource :=
  merge_sort source_le l.

(** [sourceSet[key] = source] for every source, then the values sorted. *)
Definition source_map (l : list QueueSource) : gmap string QueueSource :=
  foldl (fun m source => <[source_key source := source]> m) ∅ l.

Definition canonical_sources (l : list QueueSource) : list QueueSource :=
  sort_sources (map_to_list (source_map l)).*2.

Section Queue.
Context `{HOST : !Host}.

(** The canonical address and its domain. *)
Definition normalizeQueueRecipient (raw : string) : result (string * string) :=
  match recipientDomain raw with
  | Err _ => Err "invalid queue recipient"
  | Ok domain =>
      match SplitLastByte "@" (TrimSpace raw) with
      | Some (local, _) => Ok (local +:+ "@" +:+ domain, domain)
      | None => Ok (domain, domain) (* at = -1: trimmed[:0] + domain *)
      end
  end.

Definition normalizeQueueSender (raw : string) : result string :=
  if raw =?s "<>" then Ok raw else
  match normalizeQueueRecipient raw with
  | Err _ => Err "invalid queue envelope sender"
  | Ok (address, _) => Ok address
  end.

Definition normalize_recipients (l : list string) : result (list string) :=
  rmap (fun raw => let! p := normalizeQueueRecipient raw in Ok p.1) l.

(** postfix.go *)
Definition canonicalQueueRecipients (recipients : list string) : result (list string) :=
  if (length recipients =? 0) || (maxQueueRecipients <? N.of_nat (length recipients))%N
  then Err "Postfix queue recipient limit violated" else
  let! normalized := normalize_recipients recipients in
  Ok (canonical_set normalized).

Definition valid_source (source : QueueSource) : bool :=
  validSourceKind (qs_kind source) && validQueueObjectID (qs_object_id source).

Definition normalizeQueueRegistration (r : QueueRegistration) : result QueueRecord :=
  if negb (validLongQueueID (rg_queue_id r)) then Err "invalid Postfix long queue ID" else
  if negb (validLowerHexDigest (rg_arrival_fingerprint r))
  then Err "invalid queue arrival fingerprint" else
  let! sender := normalizeQueueSender (rg_envelope_sender r) in
  if (length (rg_recipients r) =? 0)
     || (maxQueueRecipients <? N.of_nat (length (rg_recipients r)))%N
  then Err "outbound queue recipient limit violated" else
  let! normalized := normalize_recipients (rg_recipients r) in
  let recipients := canonical_set normalized in
  if (length (rg_sources r) =? 0) || (maxQueueSources <? length (rg_sources r))
  then Err "outbound queue source limit violated" else
  if negb (forallb valid_source (rg_sources r))
  then Err "invalid outbound queue source" else
  let sources := canonical_sources (rg_sources r) in
  Ok {| qr_queue_id := rg_queue_id r;
        qr_arrival_fingerprint := rg_arrival_fingerprint r;
        qr_envelope_sender := sender;
        qr_recipient_set_digest := digestStrings recipients;
        qr_source_set_digest := digestSources sources;
        qr_hold_state := HoldPending;
        qr_policy_reason := "";
        qr_policy_revisions := ∅;
        qr_reconciliation_attempts := 0;
        qr_last_error_code := "";
        qr_first_seen_at := 0;
        qr_updated_at := 0;
        qr_recipients := recipients;
        qr_sources := sources |}.

Definition sameQueueIdentity (left right : QueueRecord) : bool :=
  (qr_queue_id left =?s qr_queue_id right)
  && (qr_arrival_fingerprint left =?s qr_arrival_fingerprint right)
  && (qr_envelope_sender left =?s qr_envelope_sender right)
  && (qr_recipient_set_digest left =?s qr_recipient_set_digest right)
  && (qr_source_set_digest left =?s qr_source_set_digest right).

(** reconcile.go *)
Definition matchesQueueMetadata (record : QueueRecord) (metadata : QueueMetadata) : bool :=
  match normalizeQueueRegistration
          {| rg_queue_id := qm_queue_id metadata;
             rg_arrival_fingerprint := qm_arrival_fingerprint metadata;
             rg_envelope_sender := qm_envelope_sender metadata;
             rg_recipients := qm_recipients metadata;
             rg_sources := qr_sources record |} with
  | Ok candidate => sameQueueIdentity record candidate
  | Err _ => false
  end.

(** reconcile.go: the loop over the revision map; Go's iteration order does
    not matter because a conflict is symmetric ([map_to_list] fixes one). *)
Fixpoint canonical_revisions_loop (l : list (string * N)) (canonical : gmap string N)
    : result (gmap string N) :=
  match l with
  | [] => Ok canonical
  | (rawDomain, revision) :: l =>
      match NormalizeDomain rawDomain with
      | Err _ => Err "invalid outbound queue policy revisions"
      | Ok domain =>
          if (revision =? 0)%N then Err "invalid outbound queue policy revisions" else
          match canonical !! domain with
          | Some prior =>
              if negb (prior =? revision)%N
              then Err "conflicting outbound queue policy revisions"
              else canonical_revisions_loop l (<[domain := revision]> canonical)
          | None => canonical_revisions_loop l (<[domain := revision]> canonical)
          end
      end
  end.

Definition canonicalPolicyRevisions (revisions : gmap string N) : result (gmap string N) :=
  if (size revisions =? 0) || (maxGoverningDomains <? size revisions)
  then Err "invalid outbound queue policy revisions"
  else canonical_revisions_loop (map_to_list revisions) ∅.
End Queue.

(** reconcile.go: [right[domain]] is 0 for a missing key. *)
Definition revisionMapsEqual (left right : gmap string N) : bool :=
  if negb (size left =? size right) then false
  else forallb (fun p => (default 0%N (right !! p.1) =? p.2)%N) (map_to_list left).

(** reconcile.go: the first eight bytes of the digest as a signed integer. *)
Definition queueAdvisoryLockKey (queueID : string) : Z :=
  let u := foldl (fun acc b => (acc * 256 + b)%N) 0%N
             (take 8 (Sha.sum256 (bytes_of queueID))) in
  let z := Z.of_N u in
  if (z <? 2 ^ 63)%Z then z else (z - 2 ^ 64)%Z.

(** ** Digests determine their sets

    The transcript of a list of strings determines the list, so two different
    canonical sets with one digest would be a SHA-256 collision between two
    exhibited inputs. *)

(** Go lengths fit in 64 bits. *)
Definition go_len (s : string) : Prop := (N.of_nat (len s) < 2 ^ 64)%N.

Lemma frame_app_inj s t (l k : list N) :
  go_len s -> go_len t -> frame s ++ l = frame t ++ k -> s = t /\ l = k.
Proof.
  intros Hs Ht H. unfold frame in H. rewrite <- !app_assoc in H.
  apply app_inj_1 in H as [Hl Hr]; [|by rewrite !length_be64].
  apply be64_inj in Hl; [|done..]. apply Nat2N.inj in Hl.
  apply app_inj_1 in Hr as [Hr ->]; [|by rewrite !length_bytes_of].
  by apply bytes_of_inj in Hr.
Qed.

Lemma frame_nonempty s (l : list N) : frame s ++ l = [] -> False.
Proof.
  unfold frame. intros E. apply (f_equal length) in E.
  rewrite !length_app, length_be64 in E. simpl in E. lia.
Qed.

Lemma frames_inj xs ys :
  Forall go_len xs -> Forall go_len ys -> frames xs = frames ys -> xs = ys.
Proof.
  intros Hx. revert ys. induction Hx as [|x xs Hx _ IH]; intros ys Hy; unfold frames; simpl.
  - destruct Hy as [|y ys _ _]; [done|]. simpl. intros H. symmetry in H.
    by apply frame_nonempty in H.
  - destruct Hy as [|y ys Hy Hys]; simpl; intros H; [by apply frame_nonempty in H|].
    apply frame_app_inj in H as [-> Hr]; [|done..]. f_equal. by apply IH.
Qed.

Lemma hex_digit_inj m n : (m < 16)%N -> (n < 16)%N -> hex_digit m = hex_digit n -> m = n.
Proof.
  intros Hm Hn H. apply (f_equal byte_val) in H. unfold hex_digit, byte_val in H.
  destruct (m <? 10)%N eqn:Em, (n <? 10)%N eqn:En; to_prop;
    rewrite !N_ascii_embedding in H by lia; lia.
Qed.

Lemma hex_encode_inj l k :
  Forall is_byte l -> Forall is_byte k -> hex_encode l = hex_encode k -> l = k.
Proof.
  intros Hl. revert k. induction Hl as [|a l Ha _ IH]; intros k Hk; simpl.
  - by destruct Hk.
  - destruct Hk as [|b k Hb Hk]; simpl; [done|]. intros [= H1 H2 H]. unfold is_byte in *.
    assert (forall x, (x < 256 -> x / 16 < 16 /\ x mod 16 < 16)%N) as Hx.
    { intros x Hx. split; [apply N.Div0.div_lt_upper_bound; lia|by apply N.mod_upper_bound]. }
    destruct (Hx a Ha), (Hx b Hb).
    apply hex_digit_inj in H1, H2; [|done..]. f_equal; [|by apply IH].
    rewrite (N.div_mod a 16), (N.div_mod b 16) by done. congruence.
Qed.

Lemma sha256_hex_eq l k : sha256_hex l = sha256_hex k <-> Sha.sum256 l = Sha.sum256 k.
Proof.
  unfold sha256_hex. split; [|by intros ->].
  apply hex_encode_inj; apply sum256_shape.
Qed.

(** The transcript of a source list is that of the kinds and IDs in turn. *)
Definition source_texts (l : list QueueSource) : list string :=
  concat (map (fun s => [qs_kind s; qs_object_id s]) l).

Lemma source_frames_texts l : concat (map source_frames l) = frames (source_texts l).
Proof.
  unfold frames, source_texts. induction l as [|s l IH]; simpl; [done|].
  rewrite IH. unfold source_frames. by rewrite <- app_assoc.
Qed.

Lemma source_texts_inj l k : source_texts l = source_texts k -> l = k.
Proof.
  revert k. induction l as [|[] l IH]; intros [|[] k]; unfold source_texts; simpl; try done.
  intros [= -> -> H]. f_equal. by apply IH.
Qed.

Definition go_source (s : QueueSource) : Prop := go_len (qs_kind s) /\ go_len (qs_object_id s).

Lemma go_source_texts l : Forall go_source l -> Forall go_len (source_texts l).
Proof.
  unfold source_texts. induction 1 as [|s l [??] _ IH]; simpl; [constructor|].
  by repeat constructor.
Qed.

(** ** Canonical source lists *)

#[export] Instance source_le_trans : Transitive source_le.
Proof.
  intros x y z. unfold source_le.
  destruct (qs_kind x =?s qs_kind y) eqn:Exy, (qs_kind y =?s qs_kind z) eqn:Eyz; to_prop.
  - rewrite Exy, Eyz, eqs_refl. by etrans.
  - rewrite Exy. apply eqs_false in Eyz. by rewrite Eyz.
  - rewrite <- Eyz. apply eqs_false in Exy. by rewrite Exy.
  - intros Hxy Hyz. destruct (qs_kind x =?s qs_kind z) eqn:Exz; to_prop.
    + rewrite <- Exz in Hyz. destruct Exy. by apply (anti_symm String.le).
    + by etrans.
Qed.

#[export] Instance source_le_total : Total source_le.
Proof.
  intros x y. unfold source_le. rewrite (String.eqb_sym (qs_kind y)).
  destruct (_ =?s _); apply (total String.le).
Qed.

#[export] Instance source_le_antisymm : AntiSymm (=) source_le.
Proof.
  intros [k1 i1] [k2 i2]. unfold source_le. simpl. rewrite (String.eqb_sym k2).
  destruct (k1 =?s k2) eqn:E; to_prop; intros H1 H2.
  - subst. f_equal. by apply (anti_symm String.le).
  - destruct E. by apply (anti_symm String.le).
Qed.

Definition no_nul (s : string) : Prop :=
  forall_bytes (fun c => negb (Ascii.eqb c "000")) s = true.

Lemma no_nul_app_inj k1 k2 i1 i2 :
  no_nul k1 -> no_nul k2 ->
  k1 +:+ nul +:+ i1 = k2 +:+ nul +:+ i2 -> k1 = k2 /\ i1 = i2.
Proof.
  unfold no_nul, nul. revert k2.
  induction k1 as [|c k1 IH]; intros [|d k2]; cbn [forall_bytes].
  - intros _ _ H. by injection H.
  - intros _ Hd H. exfalso. injection H as <- _. done.
  - intros Hc _ H. exfalso. injection H as -> _. done.
  - rewrite !andb_true_iff, !app_cons. intros [_ ?] [_ ?] [= -> Heq].
    destruct (IH k2) as [-> ->]; done.
Qed.

Lemma validSourceKind_no_nul k : validSourceKind k = true -> no_nul k.
Proof.
  unfold validSourceKind. rewrite existsb_exists. intros (x & Hx & ->%eqs_true).
  by repeat (destruct Hx as [<-|Hx]; [done|]).
Qed.

Lemma source_key_inj x y :
  valid_source x = true -> valid_source y = true -> source_key x = source_key y -> x = y.
Proof.
  unfold valid_source. rewrite !andb_true_iff. destruct x as [k1 i1], y as [k2 i2].
  intros [H1%validSourceKind_no_nul _] [H2%validSourceKind_no_nul _] H.
  apply no_nul_app_inj in H as [??]; [|done..]. by simplify_eq/=.
Qed.

Lemma source_map_lookup l k s :
  (forall x, x ∈ l -> valid_source x = true) ->
  source_map l !! k = Some s <-> s ∈ l /\ k = source_key s.
Proof.
  unfold source_map. intros Hv.
  induction l as [|x l IH] using rev_ind; simpl.
  { rewrite lookup_empty. split; [done|]. intros [H _]. by apply not_elem_of_nil in H. }
  rewrite foldl_snoc, lookup_insert, elem_of_app, list_elem_of_singleton.
  assert (forall x, x ∈ l -> valid_source x = true) as Hv'
    by (intros y Hy; apply Hv; set_solver).
  case_decide as Hk.
  - split; [intros [= ->]; by split; [right|]|].
    intros [[Hs| ->] Hk']; [|done]. f_equal. apply source_key_inj; [| |congruence].
    + apply Hv; set_solver.
    + by apply Hv'.
  - rewrite IH by done. split; [intros [? ?]; by split; [left|]|].
    intros [[?| ->] ?]; [done|congruence].
Qed.

Lemma canonical_sources_perm l :
  canonical_sources l ≡ₚ (map_to_list (source_map l)).*2.
Proof. apply merge_sort_Permutation. Qed.

Lemma elem_of_canonical_sources l s :
  (forall x, x ∈ l -> valid_source x = true) -> s ∈ canonical_sources l <-> s ∈ l.
Proof.
  intros Hv. rewrite canonical_sources_perm, list_elem_of_fmap. split.
  - intros ([k x] & -> & Hx%elem_of_map_to_list). by apply source_map_lookup in Hx as [? _].
  - intros Hs. exists (source_key s, s). split; [done|].
    apply elem_of_map_to_list. by apply source_map_lookup.
Qed.

Lemma canonical_sources_nodup l :
  (forall x, x ∈ l -> valid_source x = true) -> NoDup (canonical_sources l).
Proof.
  intros Hv. rewrite canonical_sources_perm.
  apply NoDup_fmap_2_strong; [|apply NoDup_map_to_list].
  intros [k1 x] [k2 y] H1%elem_of_map_to_list H2%elem_of_map_to_list. simpl. intros ->.
  apply source_map_lookup in H1 as [_ ->], H2 as [_ ->]; done.
Qed.

Lemma canonical_sources_sorted l : StronglySorted source_le (canonical_sources l).
Proof. apply StronglySorted_merge_sort; apply _. Qed.

Lemma sorted_sources_eq l k :
  StronglySorted source_le l -> StronglySorted source_le k -> l ≡ₚ k -> l = k.
Proof. intros. by apply (StronglySorted_unique source_le). Qed.

Lemma canonical_sources_ext l k :
  (forall x, x ∈ l -> valid_source x = true) ->
  (forall x, x ∈ k -> valid_source x = true) ->
  (forall x, x ∈ l <-> x ∈ k) -> canonical_sources l = canonical_sources k.
Proof.
  intros Hl Hk H. apply sorted_sources_eq; [apply canonical_sources_sorted..|].
  apply NoDup_Permutation; [by apply canonical_sources_nodup..|].
  intros x. by rewrite !elem_of_canonical_sources.
Qed.

Lemma canonical_sources_idem l :
  (forall x, x ∈ l -> valid_source x = true) ->
  canonical_sources (canonical_sources l) = canonical_sources l.
Proof.
  intros Hl. apply canonical_sources_ext; [|done|];
    intros x; rewrite elem_of_canonical_sources; auto.
Qed.

Lemma length_canonical_sources l :
  (forall x, x ∈ l -> valid_source x = true) ->
  length (canonical_sources l) <= length l.
Proof.
  intros Hl. apply submseteq_length, NoDup_submseteq; [by apply canonical_sources_nodup|].
  intros x. by rewrite elem_of_canonical_sources.
Qed.

Lemma canonical_sources_nil l :
  (forall x, x ∈ l -> valid_source x = true) -> canonical_sources l = [] -> l = [].
Proof.
  intros Hl H. destruct l as [|x l]; [done|].
  assert (x ∈ canonical_sources (x :: l)) as Hx
    by (apply elem_of_canonical_sources; [done|left]).
  rewrite H in Hx. by apply not_elem_of_nil in Hx.
Qed.

Lemma forallb_valid l : forallb valid_source l = true <-> forall x, x ∈ l -> valid_source x = true.
Proof.
  rewrite forallb_forall. by setoid_rewrite list_elem_of_In.
Qed.

(** ** Registrations *)

Section Registration.
Context `{HOST : !Host}.

Definition registration_of (q : QueueRecord) : QueueRegistration :=
  {| rg_queue_id := qr_queue_id q;
     rg_arrival_fingerprint := qr_arrival_fingerprint q;
     rg_envelope_sender := qr_envelope_sender q;
     rg_recipients := qr_recipients q;
     rg_sources := qr_sources q |}.

(** An address that survives the envelope bound after IDNA expansion. *)
Definition bounded_address (a : string) : Prop := len a <= maxEnvelopeRecipientBytes.

Lemma normalize_recipients_elem l k :
  normalize_recipients l = Ok k ->
  forall a, a ∈ k <-> exists raw d, raw ∈ l /\ normalizeQueueRecipient raw = Ok (a, d).
Proof.
  unfold normalize_recipients. rewrite rmap_ok. intros H.
  induction H as [|raw a l k Ha _ IH]; intros b.
  - split; [intros Hb; by apply not_elem_of_nil in Hb|].
    intros (? & ? & Hx & _). by apply not_elem_of_nil in Hx.
  - apply rbind_ok in Ha as ([a' d] & Ha & [= <-]).
    rewrite elem_of_cons, IH. split.
    + intros [->|(raw' & d' & ? & ?)]; [exists raw, d|exists raw', d'];
        (split; [set_solver|done]).
    + intros (raw' & d' & [->|Hin]%elem_of_cons & Hd').
      * left. rewrite Ha in Hd'. congruence.
      * right. by exists raw', d'.
Qed.

Lemma normalize_recipients_length l k :
  normalize_recipients l = Ok k -> length k = length l.
Proof.
  unfold normalize_recipients. rewrite rmap_ok. intros H%Forall2_length. done.
Qed.

(** The conditions under which [normalizeQueueRegistration] succeeds, and
    its result. *)
Lemma normalizeQueueRegistration_ok r q :
  normalizeQueueRegistration r = Ok q <->
  exists normalized,
    validLongQueueID (rg_queue_id r) = true
    /\ validLowerHexDigest (rg_arrival_fingerprint r) = true
    /\ normalizeQueueSender (rg_envelope_sender r) = Ok (qr_envelope_sender q)
    /\ (0 < N.of_nat (length (rg_recipients r)) <= maxQueueRecipients)%N
    /\ normalize_recipients (rg_recipients r) = Ok normalized
    /\ 0 < length (rg_sources r) <= maxQueueSources
    /\ (forall x, x ∈ rg_sources r -> valid_source x = true)
    /\ q = {| qr_queue_id := rg_queue_id r;
              qr_arrival_fingerprint := rg_arrival_fingerprint r;
              qr_envelope_sender := qr_envelope_sender q;
              qr_recipient_set_digest := digestStrings (canonical_set normalized);
              qr_source_set_digest := digestSources (canonical_sources (rg_sources r));
              qr_hold_state := HoldPending; qr_policy_reason := "";
              qr_policy_revisions := ∅; qr_reconciliation_attempts := 0;
              qr_last_error_code := ""; qr_first_seen_at := 0; qr_updated_at := 0;
              qr_recipients := canonical_set normalized;
              qr_sources := canonical_sources (rg_sources r) |}.
Proof.
  unfold normalizeQueueRegistration. split.
  - intros H. go_inv H.
    match goal with E : normalize_recipients _ = Ok ?k |- _ => exists k end.
    rewrite <- forallb_valid. simpl.
    to_prop. split_and!; try done; lia.
  - intros (l & H1 & H2 & H3 & H4 & H5 & H6 & H7%forallb_valid & ->).
    rewrite H1, H2, H3, H5, H7. simpl.
    destruct (_ || _) eqn:E1; to_prop; [lia|].
    destruct (_ || _) eqn:E2; to_prop; [lia|]. done.
Qed.

Lemma validLowerHexDigest_sha l : validLowerHexDigest (sha256_hex l) = true.
Proof. unfold validLowerHexDigest. by destruct (sha256_hex_ok l) as [-> ->]. Qed.

Context {IDNA : IdnaLaws}.

Lemma normalizeQueueRecipient_inv raw a d :
  normalizeQueueRecipient raw = Ok (a, d) ->
  recipientDomain raw = Ok d
  /\ exists local rest, SplitLastByte "@" (TrimSpace raw) = Some (local, rest)
       /\ a = local +:+ "@" +:+ d.
Proof.
  unfold normalizeQueueRecipient. intros H.
  destruct (recipientDomain raw) as [d'|] eqn:Ed; [|done].
  destruct (recipientDomain_inv _ _ Ed) as (l & r & Hs & _).
  rewrite Hs in H. simplify_eq. split; [done|]. by exists l, r.
Qed.

Lemma normalizeQueueRecipient_idem raw a d :
  normalizeQueueRecipient raw = Ok (a, d) -> bounded_address a ->
  normalizeQueueRecipient a = Ok (a, d).
Proof.
  intros (Hd & local & rest & Hs & ->)%normalizeQueueRecipient_inv Hb.
  destruct (recipientDomain_canonical _ _ _ _ Hd Hs Hb) as [Hc Ht].
  unfold normalizeQueueRecipient. rewrite Hc, Ht.
  destruct (recipientDomain_inv _ _ Hd) as (? & ? & _ & _ & _ & Hn & _).
  destruct (NormalizeDomain_ldh _ _ Hn) as [Hl _].
  by rewrite app_at, SplitLastByte_app by (by apply ldh_no_at).
Qed.

(** Normalising a canonical address again either keeps it or fails. *)
Lemma normalizeQueueRecipient_again raw a d a' d' :
  normalizeQueueRecipient raw = Ok (a, d) -> normalizeQueueRecipient a = Ok (a', d') -> a' = a.
Proof.
  intros H H'. rewrite (normalizeQueueRecipient_idem _ _ _ H) in H'; [by injection H'|].
  apply normalizeQueueRecipient_inv in H as (Hd & local & rest & Hs & ->).
  apply normalizeQueueRecipient_inv in H' as [(? & ? & _ & _ & _ & _ & _ & Hn)%recipientDomain_inv _].
  unfold bounded_address. by rewrite (recipientDomain_trim _ _ _ _ Hd Hs) in Hn.
Qed.

Lemma normalizeQueueSender_again raw a a' :
  normalizeQueueSender raw = Ok a -> normalizeQueueSender a = Ok a' -> a' = a.
Proof.
  unfold normalizeQueueSender. intros H H'. destruct (a =?s "<>") eqn:Ea.
  { apply eqs_true in Ea. congruence. }
  destruct (raw =?s "<>") eqn:Er; [apply eqs_true in Er; apply eqs_false in Ea; congruence|].
  destruct (normalizeQueueRecipient raw) as [[x d]|] eqn:E; [|done]. injection H as ->.
  destruct (normalizeQueueRecipient a) as [[x' d']|] eqn:E'; [|done]. injection H' as ->.
  by eapply normalizeQueueRecipient_again.
Qed.

Lemma canonicalQueueRecipients_again l k k' :
  canonicalQueueRecipients l = Ok k -> canonicalQueueRecipients k = Ok k' -> k' = k.
Proof.
  unfold canonicalQueueRecipients. intros H H'. destruct (_ || _); [done|].
  apply rbind_ok in H as (n & Hn & [= <-]). destruct (_ || _); [done|].
  apply rbind_ok in H' as (n' & Hn' & [= <-]).
  assert (n' = canonical_set n) as ->; [|apply canonical_set_id; auto with gotth].
  assert (Forall (fun a => exists raw d, normalizeQueueRecipient raw = Ok (a, d)) (canonical_set n))
    as Hall.
  { apply Forall_forall. intros a Ha. apply (elem_of_canonical_set a n) in Ha.
    apply (normalize_recipients_elem _ _ Hn) in Ha as (raw & d & _ & ?). by exists raw, d. }
  clear -Hall Hn' IDNA. revert Hall n' Hn'. generalize (canonical_set n) as cs. intros cs Hall.
  induction Hall as [|a l' (raw & d & Ha) _ IH]; intros n' Hn'.
  - by injection Hn' as <-.
  - unfold normalize_recipients in Hn'. simpl in Hn'.
    apply rbind_ok in Hn' as (x & Hx & Hn'). apply rbind_ok in Hx as ([a' d'] & Hx & [= <-]).
    apply rbind_ok in Hn' as (xs & Hxs & [= <-]). f_equal; [|by apply IH].
    by eapply normalizeQueueRecipient_again.
Qed.

Lemma normalizeQueueSender_idem raw a :
  normalizeQueueSender raw = Ok a -> bounded_address a -> normalizeQueueSender a = Ok a.
Proof.
  unfold normalizeQueueSender. intros H Hb. go_inv H; to_prop.
  - subst. by rewrite eqs_refl.
  - destruct (a =?s "<>"); [done|].
    by erewrite normalizeQueueRecipient_idem.
Qed.

(** The record computed for a registration is a fixed point: registering
    its own canonical fields computes the same record, whatever the order,
    spelling or repetition of recipients and sources it came from.  The
    bound on the addresses is needed because the source checks it before
    IDNA expansion. *)
Theorem normalizeQueueRegistration_idem r q :
  normalizeQueueRegistration r = Ok q ->
  Forall bounded_address (qr_envelope_sender q :: qr_recipients q) ->
  normalizeQueueRegistration (registration_of q) = Ok q.
Proof.
  rewrite normalizeQueueRegistration_ok.
  intros (l & Hid & Hfp & Hsnd & Hn & Hl & Hs & Hv & Hq) Hb.
  apply Forall_cons in Hb as [Hbs Hbr].
  assert (normalize_recipients (canonical_set l) = Ok (canonical_set l)) as Hc.
  { unfold normalize_recipients. apply rmap_ok, Forall_Forall2_diag, Forall_forall.
    intros a Ha. rewrite Hq in Hbr. simpl in Hbr. rewrite Forall_forall in Hbr.
    specialize (Hbr a Ha). rewrite elem_of_canonical_set in Ha.
    apply (normalize_recipients_elem _ _ Hl) in Ha as (raw & d & _ & Hraw).
    by rewrite (normalizeQueueRecipient_idem _ _ _ Hraw Hbr). }
  apply normalizeQueueRegistration_ok. exists (canonical_set l).
  apply normalize_recipients_length in Hl as Hlen.
  pose proof (length_canonical_set l) as Hle.
  pose proof (length_canonical_sources _ Hv) as Hse.
  assert (canonical_set l <> []) as Hne.
  { intros H0. apply (proj1 (canonical_set_nil_iff l)) in H0. subst l. simpl in Hlen. lia. }
  assert (canonical_sources (rg_sources r) <> []) as Hse0.
  { intros H0%canonical_sources_nil; [|done]. rewrite H0 in Hs. simpl in Hs. lia. }
  rewrite Hq. simpl. rewrite Hq in Hbs. simpl in Hbs.
  rewrite (canonical_set_id (canonical_set l)) by auto with gotth. rewrite canonical_sources_idem by done.
  split_and!; try done.
  - by apply normalizeQueueSender_idem with (rg_envelope_sender r).
  - destruct (canonical_set l); simpl in *; [done|lia].
  - lia.
  - destruct (canonical_sources (rg_sources r)); simpl in *; [done|lia].
  - lia.
  - intros x. rewrite elem_of_canonical_sources by done. apply Hv.
Qed.

(** The identity of a message depends on its recipients and sources only
    as sets of canonical addresses and of objects. *)
Theorem normalizeQueueRegistration_sets r1 r2 q1 q2 :
  normalizeQueueRegistration r1 = Ok q1 -> normalizeQueueRegistration r2 = Ok q2 ->
  rg_queue_id r1 = rg_queue_id r2 ->
  rg_arrival_fingerprint r1 = rg_arrival_fingerprint r2 ->
  qr_envelope_sender q1 = qr_envelope_sender q2 ->
  (forall a, (exists raw d, raw ∈ rg_recipients r1 /\ normalizeQueueRecipient raw = Ok (a, d))
         <-> (exists raw d, raw ∈ rg_recipients r2 /\ normalizeQueueRecipient raw = Ok (a, d))) ->
  (forall s, s ∈ rg_sources r1 <-> s ∈ rg_sources r2) ->
  q1 = q2.
Proof.
  rewrite !normalizeQueueRegistration_ok.
  intros (l1 & _ & _ & _ & _ & Hl1 & _ & Hv1 & ->) (l2 & _ & _ & _ & _ & Hl2 & _ & Hv2 & ->).
  simpl. intros -> -> -> Hr Hs.
  assert (canonical_set l1 = canonical_set l2) as ->.
  { apply canonical_set_ext. intros a.
    by rewrite (normalize_recipients_elem _ _ Hl1), (normalize_recipients_elem _ _ Hl2). }
  by rewrite (canonical_sources_ext _ _ Hv1 Hv2 Hs).
Qed.

(** [sameQueueIdentity] identifies the recipient and source sets through
    their digests alone; if it accepts two records whose digests were
    computed from different sets, the two transcripts are a SHA-256
    collision. *)
Theorem sameQueueIdentity_sets q1 q2 :
  sameQueueIdentity q1 q2 = true ->
  qr_recipient_set_digest q1 = digestStrings (qr_recipients q1) ->
  qr_recipient_set_digest q2 = digestStrings (qr_recipients q2) ->
  qr_source_set_digest q1 = digestSources (qr_sources q1) ->
  qr_source_set_digest q2 = digestSources (qr_sources q2) ->
  Forall go_len (qr_recipients q1 ++ qr_recipients q2) ->
  Forall go_source (qr_sources q1 ++ qr_sources q2) ->
  (qr_recipients q1 = qr_recipients q2 /\ qr_sources q1 = qr_sources q2)
  \/ exists t1 t2 : list N,
       (t1, t2) ∈ [(frames (qr_recipients q1), frames (qr_recipients q2));
                   (frames (source_texts (qr_sources q1)),
                    frames (source_texts (qr_sources q2)))]
       /\ t1 <> t2 /\ Sha.sum256 t1 = Sha.sum256 t2.
Proof.
  unfold sameQueueIdentity. intros H Hr1 Hr2 Hs1 Hs2 [Hg1 Hg2]%Forall_app
    [Hg3 Hg4]%Forall_app. to_prop. destruct H as [[[[_ _] _] Hr] Hs].
  rewrite Hr1, Hr2 in Hr. rewrite Hs1, Hs2 in Hs.
  unfold digestStrings in Hr. unfold digestSources in Hs.
  rewrite sha256_hex_eq in Hr. rewrite !source_frames_texts, sha256_hex_eq in Hs.
  destruct (decide (frames (qr_recipients q1) = frames (qr_recipients q2))) as [Hr'|Hr'].
  2: { right. eexists _, _. split; [left|done]. }
  destruct (decide (frames (source_texts (qr_sources q1))
                    = frames (source_texts (qr_sources q2)))) as [Hs'|Hs'].
  2: { right. eexists _, _. split; [right; left|done]. }
  left. split; [by apply frames_inj|].
  apply source_texts_inj, frames_inj; auto using go_source_texts.
Qed.
End Registration.

(** ** Revision maps *)

Definition nonzero_revisions (m : gmap string N) : Prop :=
  forall d r, m !! d = Some r -> r <> 0%N.

Lemma revisionMapsEqual_eq (m1 m2 : gmap string N) :
  nonzero_revisions m1 -> revisionMapsEqual m1 m2 = true <-> m1 = m2.
Proof.
  intros Hnz. unfold revisionMapsEqual.
  destruct (size m1 =? size m2) eqn:Es; to_prop; simpl.
  - rewrite forallb_forall. setoid_rewrite <- list_elem_of_In. split.
    + intros H. apply map_subseteq_size_eq; [|lia].
      apply map_subseteq_spec. intros d r Hd.
      specialize (H (d, r)). rewrite elem_of_map_to_list in H. specialize (H Hd).
      simpl in H. to_prop. destruct (m2 !! d) as [r'|]; simpl in H; [by subst|].
      by destruct (Hnz _ _ Hd).
    + intros -> [d r] Hd%elem_of_map_to_list. simpl. rewrite Hd. by to_prop.
  - split; [done|]. by intros ->.
Qed.

(** On maps without zero revisions, as every stored map is,
    [revisionMapsEqual] is equality. *)
Theorem revisionMapsEqual_spec (m1 m2 : gmap string N) :
  nonzero_revisions m1 -> revisionMapsEqual m1 m2 = true <-> m1 = m2.
Proof. apply revisionMapsEqual_eq. Qed.

Section Revisions.
Context `{HOST : !Host}.
Implicit Types (m c : gmap string N).

(** A map as the source stores it: normal domains, positive revisions. *)
Definition normal_revisions m : Prop :=
  forall d r, m !! d = Some r -> NormalizeDomain d = Ok d /\ r <> 0%N.

Lemma canonical_revisions_loop_fix l m c :
  NoDup l.*1 ->
  (forall d r, (d, r) ∈ l -> NormalizeDomain d = Ok d /\ r <> 0%N /\ c !! d = None) ->
  canonical_revisions_loop l c = Ok (list_to_map l ∪ c).
Proof.
  revert c. induction l as [|[d r] l IH]; intros c Hn H; cbn [canonical_revisions_loop].
  { f_equal. by rewrite list_to_map_nil, (left_id_L ∅ (∪)). }
  apply NoDup_cons in Hn as [Hd Hn].
  destruct (H d r) as (Hnd & Hr & Hc); [left|]. rewrite Hnd, Hc.
  apply N.eqb_neq in Hr. rewrite Hr.
  rewrite IH; [|done|].
  - f_equal. rewrite list_to_map_cons, <- insert_union_r, insert_union_l; [done|].
    by apply not_elem_of_list_to_map_1.
  - intros d' r' Hin. destruct (H d' r') as (? & ? & Hc'); [by right|].
    split_and!; [done..|]. rewrite lookup_insert_ne; [done|].
    intros <-. apply Hd. apply list_elem_of_fmap. by exists (d, r').
Qed.

Lemma canonicalPolicyRevisions_fix m :
  normal_revisions m -> 0 < size m <= maxGoverningDomains ->
  canonicalPolicyRevisions m = Ok m.
Proof.
  intros Hm Hs. unfold canonicalPolicyRevisions.
  destruct (_ || _) eqn:E; to_prop; [lia|].
  rewrite (canonical_revisions_loop_fix _ m).
  - by rewrite list_to_map_to_list, (right_id_L ∅ (∪)).
  - apply NoDup_fst_map_to_list.
  - intros d r Hd%elem_of_map_to_list. destruct (Hm _ _ Hd).
    split_and!; [done..|]. apply lookup_empty.
Qed.

Lemma canonical_revisions_loop_sound l c c' :
  canonical_revisions_loop l c = Ok c' ->
  (forall d r, c !! d = Some r -> c' !! d = Some r)
  /\ (forall raw r, (raw, r) ∈ l ->
        r <> 0%N /\ exists d, NormalizeDomain raw = Ok d /\ c' !! d = Some r)
  /\ forall d r, c' !! d = Some r ->
       c !! d = Some r \/ exists raw, (raw, r) ∈ l /\ NormalizeDomain raw = Ok d /\ r <> 0%N.
Proof.
  revert c. induction l as [|[raw r] l IH]; intros c; cbn [canonical_revisions_loop].
  { intros [= <-]. split_and!; [done| |by left]. intros raw r Hx.
    by apply not_elem_of_nil in Hx. }
  intros H. destruct (NormalizeDomain raw) as [d|] eqn:Ed; [|done].
  destruct (r =? 0)%N eqn:Er; to_prop; [done|].
  assert (canonical_revisions_loop l (<[d := r]> c) = Ok c'
          /\ (forall r', c !! d = Some r' -> r' = r)) as [H' Hd].
  { destruct (c !! d) as [prior|] eqn:Ec; [|by split].
    destruct (prior =? r)%N eqn:Ep; simpl in H; [|done]. to_prop. split; [done|].
    intros r' [= <-]. done. }
  apply IH in H' as (H1 & H2 & H3). split_and!.
  - intros d' r' Hd'. apply H1. rewrite lookup_insert. case_decide; [|done].
    subst. f_equal. symmetry. by apply Hd.
  - intros raw' r' [Hx|Hx]%elem_of_cons; [|by apply H2]. simplify_eq.
    split; [done|]. exists d. split; [done|]. apply H1, lookup_insert_eq.
  - intros d' r' [Hd'|(raw' & ? & ?)]%H3.
    + rewrite lookup_insert in Hd'. case_decide; [|by left].
      simplify_eq. right. exists raw. split; [left|done].
    + right. exists raw'. split; [by right|done].
Qed.

Lemma canonicalPolicyRevisions_sound m c :
  canonicalPolicyRevisions m = Ok c ->
  0 < size m <= maxGoverningDomains
  /\ (forall raw r, m !! raw = Some r ->
        r <> 0%N /\ exists d, NormalizeDomain raw = Ok d /\ c !! d = Some r)
  /\ forall d r, c !! d = Some r ->
       exists raw, m !! raw = Some r /\ NormalizeDomain raw = Ok d /\ r <> 0%N.
Proof.
  unfold canonicalPolicyRevisions. destruct (_ || _) eqn:E; [done|]. to_prop.
  intros (_ & H2 & H)%canonical_revisions_loop_sound. split_and!; [lia..| |].
  - intros raw r Hr. by apply H2, elem_of_map_to_list.
  - intros d r [Hx|(raw & Hraw%elem_of_map_to_list & ?)]%H; [by rewrite lookup_empty in Hx|].
    by exists raw.
Qed.

Context {IDNA : IdnaLaws}.

Lemma canonicalPolicyRevisions_normal m c :
  canonicalPolicyRevisions m = Ok c -> normal_revisions c.
Proof.
  intros (_ & _ & H)%canonicalPolicyRevisions_sound d r (raw & _ & Hn & Hr)%H.
  split; [by eapply NormalizeDomain_idem|done].
Qed.

(** The check [loadQueueRecord] and [RequireHold] make of a stored map
    holds exactly of the normal maps of at most 64 domains. *)
Lemma canonical_check m :
  m <> ∅ ->
  match canonicalPolicyRevisions m with
  | Ok c => revisionMapsEqual m c
  | Err _ => false
  end = true <-> normal_revisions m /\ size m <= maxGoverningDomains.
Proof.
  intros Hne. split.
  - destruct (canonicalPolicyRevisions m) as [c|] eqn:Ec; [|done].
    destruct (canonicalPolicyRevisions_sound _ _ Ec) as (Hs & Hm & _).
    rewrite revisionMapsEqual_eq; [|by intros d r [? _]%Hm].
    intros ->. split; [|lia]. by eapply canonicalPolicyRevisions_normal.
  - intros [Hm Hs]. rewrite canonicalPolicyRevisions_fix; [|done|].
    + apply revisionMapsEqual_eq; [|done]. by intros d r [_ ?]%Hm.
    + split; [|done]. destruct (decide (size m = 0)) as [H0|]; [|lia].
      by apply map_size_empty_inv in H0.
Qed.
End Revisions.
