(* ===== verification/AuditLog.v ===== *)
(** * Audit events (internal/audit/audit.go)

    Event payloads are JSON values.  [Redact] passes its argument through
    [json.Marshal] and [json.Unmarshal] before it filters it; on the JSON
    values of this model that round trip is the identity (the model does not
    represent the loss of precision of integers beyond 2^53). *)

From stdpp Require Import base list strings.
From Stdlib Require Import ZArith Lia Ascii.
From S2P Require Import Prelude GoStd.

#[local] Set Warnings "-register-all".

Inductive json :=
| JNull
| JBool (b : bool)
| JNum (n : Z)
| JStr (s : string)
| JArr (l : list json)
| JObj (fields : list (string * json)).

Record ActorRef := { actor_type : string; actor_id : string }.
Record ResourceRef := { resource_type : string; resource_id : string }.
Record RequestSource := { source_ip : string; source_user_agent : string }.

Record Event := {
  ev_id : string;
  ev_time : Z;
  ev_actor : ActorRef;
  ev_source : option RequestSource;
  ev_action : string;
  ev_resource : ResourceRef;
  ev_before : json;
  ev_after : json;
  ev_correlation_id : string;
  ev_result : string;
  ev_error_code : string;
}.

Definition secretKeys : list string :=
  ["password"; "token"; "secret"; "private_key"; "client_secret"; "app_password";
   "verifier"; "key"].

Definition redacted_text : string := "[REDACTED]".

(** [newUUID] on the sixteen bytes [rand.Read] delivered; [None] when it
    failed. *)
Definition set_byte (i : nat) (f : N -> N) (l : list N) : list N := alter f i l.

Definition newUUID (entropy : option (list N)) : string :=
  match entropy with
  | None => "00000000-0000-4000-8000-000000000000"
  | Some b0 =>
      let b1 := set_byte 6 (fun x => N.lor (N.land x 0x0f) 0x40) b0 in
      let b := set_byte 8 (fun x => N.lor (N.land x 0x3f) 0x80) b1 in
      let s := hex_encode b in
      String.substring 0 8 s +:+ "-" +:+ String.substring 8 4 s +:+ "-"
      +:+ String.substring 12 4 s +:+ "-" +:+ String.substring 16 4 s +:+ "-"
      +:+ String.substring 20 12 s
  end.

Section Audit.
Context `{HOST : !Host}.

Definition isSecret (k : string) : bool :=
  let k := ToLower k in existsb (fun s => Contains k s) secretKeys.

Fixpoint redactValue (v : json) : json :=
  match v with
  | JObj fields =>
      JObj ((fix go (l : list (string * json)) : list (string * json) :=
               match l with
               | [] => []
               | (k, val) :: l =>
                   (k, if isSecret k then JStr redacted_text else redactValue val) :: go l
               end) fields)
  | JArr l => JArr (map redactValue l)
  | _ => v
  end.

Definition Redact (v : json) : json := redactValue v.

(** [time.Now()] and the random bytes are arguments. *)
Definition Normalize (now : Z) (entropy : option (list N)) (e : Event) : Event :=
  {| ev_id := if ev_id e =?s "" then newUUID entropy else ev_id e;
     ev_time := if (ev_time e =? 0)%Z then now else ev_time e;
     ev_actor := ev_actor e;
     ev_source := ev_source e;
     ev_action := ev_action e;
     ev_resource := ev_resource e;
     ev_before := Redact (ev_before e);
     ev_after := Redact (ev_after e);
     ev_correlation_id := ev_correlation_id e;
     ev_result := ev_result e;
     ev_error_code := ev_error_code e |}.

Fixpoint containsSecretValue (needles : list string) (v : json) : bool :=
  match v with
  | JObj fields =>
      (fix go (l : list (string * json)) : bool :=
         match l with
         | [] => false
         | (_, val) :: l => containsSecretValue needles val || go l
         end) fields
  | JArr l => existsb (containsSecretValue needles) l
  | JStr s => existsb (fun n => Contains (ToLower s) (ToLower n)) needles
  | _ => false
  end.

Definition ContainsSecretJSON (v : json) (needles : list string) : bool :=
  containsSecretValue needles v.
End Audit.

(** ** Redaction *)

(** A predicate for every value nested in a value. *)
Section JsonInd.
Variable P : json -> Prop.
Hypothesis Hnull : P JNull.
Hypothesis Hbool : forall b, P (JBool b).
Hypothesis Hnum : forall n, P (JNum n).
Hypothesis Hstr : forall s, P (JStr s).
Hypothesis Harr : forall l, Forall P l -> P (JArr l).
Hypothesis Hobj : forall l, Forall (fun p => P p.2) l -> P (JObj l).

Fixpoint json_nested_ind (v : json) : P v :=
  match v with
  | JNull => Hnull
  | JBool b => Hbool b
  | JNum n => Hnum n
  | JStr s => Hstr s
  | JArr l => Harr l ((fix go l : Forall P l :=
      match l with [] => Forall_nil_2 _ | v :: l => Forall_cons_2 _ _ _ (json_nested_ind v) (go l) end) l)
  | JObj l => Hobj l ((fix go l : Forall (fun p => P p.2) l :=
      match l with [] => Forall_nil_2 _
      | (k, v) :: l => Forall_cons_2 (fun p => P p.2) (k, v) l (json_nested_ind v) (go l) end) l)
  end.
End JsonInd.

Section Facts.
Context `{HOST : !Host}.

(** The texts a value discloses: the strings reached through no secret
    field. *)
Inductive discloses : json -> string -> Prop :=
| discloses_str s : discloses (JStr s) s
| discloses_arr l v s : v ∈ l -> discloses v s -> discloses (JArr l) s
| discloses_obj l k v s :
    (k, v) ∈ l -> isSecret k = false -> discloses v s -> discloses (JObj l) s.

(** Every string of a value, secret fields included. *)
Inductive mentions : json -> string -> Prop :=
| mentions_str s : mentions (JStr s) s
| mentions_arr l v s : v ∈ l -> mentions v s -> mentions (JArr l) s
| mentions_obj l k v s : (k, v) ∈ l -> mentions v s -> mentions (JObj l) s.

Definition redact_field (p : string * json) : string * json :=
  (p.1, if isSecret p.1 then JStr redacted_text else redactValue p.2).

Lemma redactValue_obj l : redactValue (JObj l) = JObj (map redact_field l).
Proof.
  simpl. f_equal. induction l as [|[k v] l IH]; [done|]. cbn [map]. by rewrite <- IH.
Qed.

Lemma redact_mentions v s :
  mentions (redactValue v) s -> s = redacted_text \/ discloses v s.
Proof.
  induction v as [| | | |l IH|l IH] using json_nested_ind; intros H;
    try (simpl in H; inversion H; subst; right; constructor).
  - simpl in H. inversion H as [|? v ? Hv Hm|]; subst.
    apply list_elem_of_fmap in Hv as (v' & -> & Hv).
    rewrite Forall_forall in IH. destruct (IH v' Hv Hm) as [|Hd]; [by left|].
    right. by econstructor.
  - rewrite redactValue_obj in H. inversion H as [| |? k v ? Hv Hm]; subst.
    apply list_elem_of_fmap in Hv as ([k' v'] & Hkv & Hv).
    unfold redact_field in Hkv. simpl in Hkv. injection Hkv as -> ->.
    destruct (isSecret k') eqn:Es; [inversion Hm; by left|].
    rewrite Forall_forall in IH. destruct (IH _ Hv Hm) as [|Hd]; [by left|].
    right. by eapply discloses_obj.
Qed.

Lemma redact_keeps v s : discloses v s -> mentions (redactValue v) s.
Proof.
  induction 1 as [s|l v s Hv _ IH|l k v s Hv Hk _ IH].
  - constructor.
  - simpl. eapply mentions_arr; [|exact IH]. by apply list_elem_of_fmap_2.
  - rewrite redactValue_obj. eapply mentions_obj; [|exact IH].
    apply list_elem_of_fmap. exists (k, v). unfold redact_field. simpl. by rewrite Hk.
Qed.

(** A redacted payload holds, at any depth, exactly the strings the
    original discloses outside secret fields, besides the redaction mark:
    nothing under a secret key survives and nothing else is lost. *)
Theorem redactValue_discloses v s :
  s <> redacted_text -> mentions (redactValue v) s <-> discloses v s.
Proof.
  intros Hs. split; [|apply redact_keeps].
  intros H. by destruct (redact_mentions _ _ H).
Qed.

Lemma redactValue_idem v : redactValue (redactValue v) = redactValue v.
Proof.
  induction v as [| | | |l IH|l IH] using json_nested_ind; try done.
  - simpl. f_equal. rewrite map_map. apply map_ext_in.
    intros v Hv. rewrite Forall_forall in IH. by apply IH, list_elem_of_In.
  - rewrite !redactValue_obj. f_equal. rewrite map_map. apply map_ext_in.
    intros [k v] Hv. unfold redact_field. simpl. destruct (isSecret k); [done|].
    rewrite Forall_forall in IH. f_equal. apply (IH (k, v)). by apply list_elem_of_In.
Qed.
End Facts.
