(* ===== verification/Database.v ===== *)
(** * The PostgreSQL store and the effects of the services

    The services run against one database, the clock, the system's random
    source and the Postfix helper.  [World] holds all of them, and a service
    is a function [World -> result A * World] ([M]): the state monad with Go
    errors.  Every round trip to the database may fail, as scheduled by the
    outcomes list of the world: [Fail] means that the statement had no effect,
    [FailLate] that it took effect and the error was reported all the same
    (a lost reply).  A theorem that quantifies over the world quantifies over
    every schedule of failures.

    A transaction is atomic: [transaction] restores the database unless the
    body asked for a commit and the commit happened.

    The tables are those of migrations/0001, 0008, 0009 and 0010, keyed by
    their primary keys.  The CHECK constraints on the mutable columns of
    outbound_queue_messages and on the domain revision are part of the
    statements; those on text lengths are not modelled. *)

From stdpp Require Import base list gmap sets strings sorting.
From Stdlib Require Import ZArith Lia Ascii.
From S2P Require Import Prelude GoStd Json JsonStruct Policy Queue AuditLog.

(** ** Tables *)

Record DomainRow := {
  dm_name : string; dm_enabled : bool; dm_scope : string; dm_revision : Z;
}.

Record MailboxRow := {
  mb_domain_id : string; mb_local_part : string; mb_enabled : bool;
  mb_verifier : option string; mb_quota_bytes : option Z; mb_display_name : option string;
  mb_scim_resource_id : option string; mb_created_at : Z; mb_updated_at : Z;
}.

Record AliasRow := {
  al_domain_id : string; al_local_part : string; al_enabled : bool;
  al_targets_json : string;
}.

Record SenderRow := {
  sy_domain_id : string; sy_address : string; sy_enabled : bool; sy_revision : Z;
}.

(** A row of outbound_queue_messages; [qw_revisions] is the jsonb column. *)
Record QueueRow := {
  qw_arrival_fingerprint : string;
  qw_envelope_sender : string;
  qw_recipient_set_digest : string;
  qw_source_set_digest : string;
  qw_hold_state : string;
  qw_policy_reason : option string;
  qw_revisions : json;
  qw_attempts : Z;
  qw_last_error_code : option string;
  qw_first_seen_at : Z;
  qw_updated_at : Z;
}.

(** *** Access control: tokens, identities, roles and approvals *)

Record TokenRow := {
  tk_subject_type : string; tk_subject_id : string; tk_kind : string; tk_verifier : string;
  tk_label : string; tk_scope_json : string; tk_created_at : Z; tk_revoked_at : option Z;
  tk_public_id : option string;
}.

Record IdentityRow := {
  ir_provider : string; ir_issuer : string; ir_subject : string; ir_mailbox_id : option string;
}.

Record BindingRow := {
  rb_identity_ref_id : string; rb_role : string; rb_domain_id : option string;
  rb_updated_at : Z;
}.

(** A row of notification_actor_mappings, keyed by transport and external
    actor. *)
Record MappingRow := {
  mp_actor_type : string; mp_actor_id : string; mp_scopes_json : string;
}.

Record ApprovalRow := {
  ap_transport : string; ap_external_actor_id : string; ap_actor_type : string;
  ap_actor_id : string; ap_action : string; ap_resource_type : string; ap_resource_id : string;
  ap_request_hash : string; ap_binding_hash : string; ap_correlation_id : string;
  ap_expires_at : Z; ap_used_at : option Z; ap_started_at : option Z; ap_attempts : Z;
  ap_error_code : option string; ap_result : string; ap_created_at : Z; ap_updated_at : Z;
}.

Record UpdateRow := { up_reply_json : string; up_denied : bool; up_processed_at : Z }.

Record EventStateRow := {
  es_state_hash : string; es_sequence : Z; es_pending_alert_id : option string; es_updated_at : Z;
}.

(** A row of sessions, keyed by its identifier. *)
Record SessionRow := {
  se_identity_ref_id : string; se_csrf_secret_hash : string; se_auth_method : string;
  se_created_at : Z; se_expires_at : Z; se_last_seen_at : Z; se_revoked_at : option Z;
}.

(** A row of oidc_login_states, keyed by its state hash. *)
Record LoginStateRow := {
  ls_nonce_ciphertext : string; ls_pkce_ciphertext : string; ls_context_ciphertext : string;
  ls_browser_hash : string; ls_redirect : string; ls_created_at : Z; ls_expires_at : Z;
  ls_used_at : option Z;
}.

(** The SCIM tables (0004, 0007): resources and tombstones, whose identifiers
    are unique over all scopes; the contracts of the indexed attributes; the
    index rows, by resource and folded name; the members of the groups, as
    scope, group and user. *)
Record ScimResourceRow := {
  sm_scope : string; sm_type : string; sm_external_id : string; sm_manager : string;
  sm_version : string; sm_credential_version : string; sm_created : Z; sm_modified : Z;
  sm_data : string;
}.
Record TombstoneRow := {
  tb_scope : string; tb_type : string; tb_external_id : string; tb_manager : string;
  tb_version : string; tb_deleted : Z;
}.
Record ScimIndexRow := {
  ix_scope : string; ix_type : string; ix_name : string; ix_value : string; ix_ordinal : nat;
  ix_case_exact : bool; ix_unique : bool;
}.

Record AccessTables := {
  ac_tokens : gmap string TokenRow;
  ac_identities : gmap string IdentityRow;
  ac_bindings : gmap string BindingRow;
  ac_mappings : gmap (string * string) MappingRow;
  ac_approvals : gmap string ApprovalRow;
  ac_updates : gmap Z UpdateRow;
  ac_events : gmap string EventStateRow;
  ac_sessions : gmap string SessionRow;
  ac_login_states : gmap string LoginStateRow;
  ac_scim : gmap string ScimResourceRow;
  ac_tombstones : gmap string TombstoneRow;
  ac_contracts : gmap (string * string * string) (bool * bool);
  ac_indexes : gmap (string * string) ScimIndexRow;
  ac_members : gset (string * string * string);
}.

Definition empty_access : AccessTables :=
  {| ac_tokens := ∅; ac_identities := ∅; ac_bindings := ∅; ac_mappings := ∅; ac_approvals := ∅;
     ac_updates := ∅; ac_events := ∅; ac_sessions := ∅; ac_login_states := ∅; ac_scim := ∅;
     ac_tombstones := ∅; ac_contracts := ∅; ac_indexes := ∅; ac_members := ∅ |}.

#[export] Instance mailbox_row_eta : Eta MailboxRow := fun m =>
  {| mb_domain_id := mb_domain_id m; mb_local_part := mb_local_part m; mb_enabled := mb_enabled m;
     mb_verifier := mb_verifier m; mb_quota_bytes := mb_quota_bytes m;
     mb_display_name := mb_display_name m; mb_scim_resource_id := mb_scim_resource_id m;
     mb_created_at := mb_created_at m; mb_updated_at := mb_updated_at m |}.
#[export] Instance session_eta : Eta SessionRow := fun r =>
  {| se_identity_ref_id := se_identity_ref_id r; se_csrf_secret_hash := se_csrf_secret_hash r;
     se_auth_method := se_auth_method r; se_created_at := se_created_at r;
     se_expires_at := se_expires_at r; se_last_seen_at := se_last_seen_at r;
     se_revoked_at := se_revoked_at r |}.
#[export] Instance login_state_eta : Eta LoginStateRow := fun r =>
  {| ls_nonce_ciphertext := ls_nonce_ciphertext r; ls_pkce_ciphertext := ls_pkce_ciphertext r;
     ls_context_ciphertext := ls_context_ciphertext r; ls_browser_hash := ls_browser_hash r;
     ls_redirect := ls_redirect r; ls_created_at := ls_created_at r; ls_expires_at := ls_expires_at r;
     ls_used_at := ls_used_at r |}.
#[export] Instance token_eta : Eta TokenRow := fun t =>
  {| tk_subject_type := tk_subject_type t; tk_subject_id := tk_subject_id t; tk_kind := tk_kind t;
     tk_verifier := tk_verifier t; tk_label := tk_label t; tk_scope_json := tk_scope_json t;
     tk_created_at := tk_created_at t; tk_revoked_at := tk_revoked_at t;
     tk_public_id := tk_public_id t |}.
#[export] Instance approval_eta : Eta ApprovalRow := fun r =>
  {| ap_transport := ap_transport r; ap_external_actor_id := ap_external_actor_id r;
     ap_actor_type := ap_actor_type r; ap_actor_id := ap_actor_id r; ap_action := ap_action r;
     ap_resource_type := ap_resource_type r; ap_resource_id := ap_resource_id r;
     ap_request_hash := ap_request_hash r; ap_binding_hash := ap_binding_hash r;
     ap_correlation_id := ap_correlation_id r; ap_expires_at := ap_expires_at r;
     ap_used_at := ap_used_at r; ap_started_at := ap_started_at r; ap_attempts := ap_attempts r;
     ap_error_code := ap_error_code r; ap_result := ap_result r; ap_created_at := ap_created_at r;
     ap_updated_at := ap_updated_at r |}.
#[export] Instance access_eta : Eta AccessTables := fun t =>
  {| ac_tokens := ac_tokens t; ac_identities := ac_identities t; ac_bindings := ac_bindings t;
     ac_mappings := ac_mappings t; ac_approvals := ac_approvals t; ac_updates := ac_updates t;
     ac_events := ac_events t; ac_sessions := ac_sessions t; ac_login_states := ac_login_states t;
     ac_scim := ac_scim t; ac_tombstones := ac_tombstones t; ac_contracts := ac_contracts t;
     ac_indexes := ac_indexes t; ac_members := ac_members t |}.

(** The child tables outbound_queue_recipients (recipient to
    recipient_domain) and outbound_queue_sources are grouped by queue ID. *)
Record DB := {
  db_domains : gmap string DomainRow;
  db_mailboxes : gmap string MailboxRow;
  db_aliases : gmap string AliasRow;
  db_senders : gmap string SenderRow;
  db_queues : gmap string QueueRow;
  db_recipients : gmap string (gmap string string);
  db_sources : gmap string (gset QueueSource);
  db_audit : list Event;
  db_access : AccessTables;
}.

Definition empty_db : DB :=
  {| db_domains := ∅; db_mailboxes := ∅; db_aliases := ∅; db_senders := ∅;
     db_queues := ∅; db_recipients := ∅; db_sources := ∅; db_audit := [];
     db_access := empty_access |}.

Definition with_domains (f : gmap string DomainRow -> gmap string DomainRow) (d : DB) : DB :=
  {| db_domains := f (db_domains d); db_mailboxes := db_mailboxes d;
     db_aliases := db_aliases d; db_senders := db_senders d; db_queues := db_queues d;
     db_recipients := db_recipients d; db_sources := db_sources d; db_audit := db_audit d;
     db_access := db_access d |}.
Definition with_mailboxes (f : gmap string MailboxRow -> gmap string MailboxRow) (d : DB) : DB :=
  {| db_domains := db_domains d; db_mailboxes := f (db_mailboxes d);
     db_aliases := db_aliases d; db_senders := db_senders d; db_queues := db_queues d;
     db_recipients := db_recipients d; db_sources := db_sources d; db_audit := db_audit d;
     db_access := db_access d |}.
Definition with_aliases (f : gmap string AliasRow -> gmap string AliasRow) (d : DB) : DB :=
  {| db_domains := db_domains d; db_mailboxes := db_mailboxes d;
     db_aliases := f (db_aliases d); db_senders := db_senders d; db_queues := db_queues d;
     db_recipients := db_recipients d; db_sources := db_sources d; db_audit := db_audit d;
     db_access := db_access d |}.
Definition with_senders (f : gmap string SenderRow -> gmap string SenderRow) (d : DB) : DB :=
  {| db_domains := db_domains d; db_mailboxes := db_mailboxes d;
     db_aliases := db_aliases d; db_senders := f (db_senders d); db_queues := db_queues d;
     db_recipients := db_recipients d; db_sources := db_sources d; db_audit := db_audit d;
     db_access := db_access d |}.
Definition with_queues (f : gmap string QueueRow -> gmap string QueueRow) (d : DB) : DB :=
  {| db_domains := db_domains d; db_mailboxes := db_mailboxes d;
     db_aliases := db_aliases d; db_senders := db_senders d; db_queues := f (db_queues d);
     db_recipients := db_recipients d; db_sources := db_sources d; db_audit := db_audit d;
     db_access := db_access d |}.
Definition with_recipients (f : gmap string (gmap string string) -> gmap string (gmap string string))
    (d : DB) : DB :=
  {| db_domains := db_domains d; db_mailboxes := db_mailboxes d;
     db_aliases := db_aliases d; db_senders := db_senders d; db_queues := db_queues d;
     db_recipients := f (db_recipients d); db_sources := db_sources d; db_audit := db_audit d;
     db_access := db_access d |}.
Definition with_sources (f : gmap string (gset QueueSource) -> gmap string (gset QueueSource))
    (d : DB) : DB :=
  {| db_domains := db_domains d; db_mailboxes := db_mailboxes d;
     db_aliases := db_aliases d; db_senders := db_senders d; db_queues := db_queues d;
     db_recipients := db_recipients d; db_sources := f (db_sources d); db_audit := db_audit d;
     db_access := db_access d |}.
Definition with_audit (f : list Event -> list Event) (d : DB) : DB :=
  {| db_domains := db_domains d; db_mailboxes := db_mailboxes d;
     db_aliases := db_aliases d; db_senders := db_senders d; db_queues := db_queues d;
     db_recipients := db_recipients d; db_sources := db_sources d; db_audit := f (db_audit d);
     db_access := db_access d |}.
Definition with_access (f : AccessTables -> AccessTables) (d : DB) : DB :=
  {| db_domains := db_domains d; db_mailboxes := db_mailboxes d;
     db_aliases := db_aliases d; db_senders := db_senders d; db_queues := db_queues d;
     db_recipients := db_recipients d; db_sources := db_sources d; db_audit := db_audit d;
     db_access := f (db_access d) |}.

(** ** The jsonb encoding of a revision map *)

(** [json.Marshal] of a [map[string]uint64]; a nil map is [null], which
    decodes to the same empty map. *)
Definition encode_revisions (m : gmap string N) : json :=
  JObj (map (fun p => (p.1, JNum (Z.of_N p.2))) (map_to_list m)).

(** [json.Unmarshal] of a jsonb value into a [map[string]uint64]. *)
Definition decode_revision (v : json) : option N :=
  match v with
  | JNum n => if (0 <=? n)%Z && (n <? 2 ^ 64)%Z then Some (Z.to_N n) else None
  | JNull => Some 0%N
  | _ => None
  end.

Fixpoint decode_fields (l : list (string * json)) : option (gmap string N) :=
  match l with
  | [] => Some ∅
  | (k, v) :: l =>
      match decode_revision v, decode_fields l with
      | Some r, Some m => Some (<[k := r]> m)
      | _, _ => None
      end
  end.

Definition decode_revisions (v : json) : option (gmap string N) :=
  match v with
  | JNull => Some ∅
  | JObj l => decode_fields l
  | _ => None
  end.

Lemma decode_fields_encode (l : list (string * N)) :
  Forall (fun p => (p.2 < 2 ^ 64)%N) l ->
  decode_fields (map (fun p => (p.1, JNum (Z.of_N p.2))) l) = Some (list_to_map l).
Proof.
  induction 1 as [|[k r] l Hr _ IH]; [done|]. simpl in *.
  destruct (0 <=? Z.of_N r)%Z eqn:E1; to_prop; [|lia].
  destruct (Z.of_N r <? 2 ^ 64)%Z eqn:E2; to_prop; [|lia]. simpl.
  by rewrite IH, N2Z.id.
Qed.

Lemma decode_encode_revisions (m : gmap string N) :
  (forall d r, m !! d = Some r -> (r < 2 ^ 64)%N) ->
  decode_revisions (encode_revisions m) = Some m.
Proof.
  intros H. unfold encode_revisions, decode_revisions. rewrite decode_fields_encode.
  - by rewrite list_to_map_to_list.
  - apply Forall_forall. intros [d r] Hd%elem_of_map_to_list. by apply (H d).
Qed.

(** ** The CHECK constraints on the mutable queue columns *)

Definition queue_row_check (r : QueueRow) : bool :=
  validHoldState (qw_hold_state r)
  && match qw_policy_reason r with Some x => validQueueReason x | None => true end
  && (0 <=? qw_attempts r)%Z && (qw_attempts r <? 2 ^ 63)%Z
  && match qw_last_error_code r with Some x => validQueueErrorCode x | None => true end
  && (qw_first_seen_at r <=? qw_updated_at r)%Z.

Definition domain_row_check (r : DomainRow) : bool :=
  validScope (dm_scope r) && (0 <? dm_revision r)%Z && (dm_revision r <? 2 ^ 63)%Z.

(** ** The world *)

Inductive outcome := Good | Fail | FailLate.

(** [PS] is the state of the Postfix helper behind the queue boundary. *)
Record World (PS : Type) := {
  w_db : DB;
  w_outcomes : list outcome;
  w_clock : list Z;
  w_entropy : list (list N);
  w_ext : PS;
}.
Arguments w_db {PS} _.
Arguments w_outcomes {PS} _.
Arguments w_clock {PS} _.
Arguments w_entropy {PS} _.
Arguments w_ext {PS} _.

Section World.
Context {PS : Type}.

Definition set_db (d : DB) (w : World PS) : World PS :=
  {| w_db := d; w_outcomes := w_outcomes w; w_clock := w_clock w;
     w_entropy := w_entropy w; w_ext := w_ext w |}.

Definition set_ext (x : PS) (w : World PS) : World PS :=
  {| w_db := w_db w; w_outcomes := w_outcomes w; w_clock := w_clock w;
     w_entropy := w_entropy w; w_ext := x |}.

(** The outcome of the next round trip; past the schedule nothing fails. *)
Definition next_outcome (w : World PS) : outcome * World PS :=
  match w_outcomes w with
  | [] => (Good, w)
  | o :: l => (o, {| w_db := w_db w; w_outcomes := l; w_clock := w_clock w;
                     w_entropy := w_entropy w; w_ext := w_ext w |})
  end.

Definition M (A : Type) : Type := World PS -> result A * World PS.

#[global] Instance M_ret : MRet M := fun A a w => (Ok a, w).
#[global] Instance M_bind : MBind M := fun A B k m w =>
  match m w with
  | (Ok a, w') => k a w'
  | (Err e, w') => (Err e, w')
  end.

Definition failM {A} (e : string) : M A := fun w => (Err e, w).
Definition liftM {A} (r : result A) : M A := fun w => (r, w).
Definition guardM (bad : bool) (e : string) : M unit :=
  if bad then failM e else mret tt.

Definition driver_error : string := "sql: driver error".

(** A statement: it reads and writes the database, or fails by itself. *)
Definition execM {A} (stmt : DB -> result (A * DB)) : M A := fun w0 =>
  let (o, w) := next_outcome w0 in
  match o, stmt (w_db w) with
  | Fail, _ => (Err driver_error, w)
  | _, Err e => (Err e, w)
  | Good, Ok (a, d) => (Ok a, set_db d w)
  | FailLate, Ok (_, d) => (Err driver_error, set_db d w)
  end.

(** A query: the rows it returns, as a function of the database. *)
Definition queryM {A} (q : DB -> result A) : M A := fun w0 =>
  let (o, w) := next_outcome w0 in
  match o with
  | Good => (q (w_db w), w)
  | _ => (Err driver_error, w)
  end.

(** [tx, err := BeginTx(...); defer tx.Rollback(); ...]: the body returns
    whether it reached [tx.Commit()]. *)
Definition transaction {A} (body : M (bool * A)) : M A := fun w0 =>
  let (o, w1) := next_outcome w0 in
  match o with
  | Good =>
      match body w1 with
      | (Err e, w2) => (Err e, set_db (w_db w1) w2)
      | (Ok (false, a), w2) => (Ok a, set_db (w_db w1) w2)
      | (Ok (true, a), w2) =>
          let (c, w3) := next_outcome w2 in
          match c with
          | Good => (Ok a, w3)
          | Fail => (Err driver_error, set_db (w_db w1) w3)
          | FailLate => (Err driver_error, w3)
          end
      end
  | _ => (Err driver_error, w1)
  end.

(** A statement whose rows are not used (SELECT pg_advisory_lock, LOCK TABLE,
    opening a connection). *)
Definition roundtripM : M unit := queryM (fun _ => Ok tt).

(** An operation of the Postfix helper. *)
Definition extM {A} (op : PS -> result A * PS) : M A := fun w =>
  let (r, x) := op (w_ext w) in (r, set_ext x w).

(** [r, err := m], with the error examined by the caller. *)
Definition tryM {A} (m : M A) : M (result A) := fun w =>
  let (r, w') := m w in (Ok r, w').

(** [store.now()]: the clock's readings in order, the last one repeated. *)
Definition nowM : M Z := fun w =>
  match w_clock w with
  | [] => (Ok 0%Z, w)
  | [t] => (Ok t, w)
  | t :: l => (Ok t, {| w_db := w_db w; w_outcomes := w_outcomes w; w_clock := l;
                        w_entropy := w_entropy w; w_ext := w_ext w |})
  end.

(** [rand.Read] of sixteen bytes, which fails when the source is exhausted. *)
Definition entropyM : M (option (list N)) := fun w =>
  match w_entropy w with
  | [] => (Ok None, w)
  | b :: l => (Ok (Some b), {| w_db := w_db w; w_outcomes := w_outcomes w;
                               w_clock := w_clock w; w_entropy := l; w_ext := w_ext w |})
  end.
End World.
Arguments M : clear implicits.

(** ** Audit insertion (audit.go: WriteSQL) *)

Section WriteSQL.
Context `{HOST : !Host} {PS : Type}.

Definition insert_audit (e : Event) (d : DB) : result (unit * DB) :=
  if existsb (fun x => ev_id x =?s ev_id e) (db_audit d)
  then Err "duplicate key value violates unique constraint"
  else Ok (tt, with_audit (fun l => l ++ [e]) d).

Definition WriteSQL (e0 : Event) : M PS unit :=
  entropy ← (if ev_id e0 =?s "" then entropyM else mret None);
  now ← (if (ev_time e0 =? 0)%Z then nowM else mret 0%Z);
  execM (insert_audit (Normalize now entropy e0)).
End WriteSQL.

(** ** Updates of one queue row *)

(** UPDATE outbound_queue_messages SET ... WHERE queue_id=$n AND ...: the
    number of rows affected.  A row that violates a CHECK constraint (or an
    attempt counter beyond bigint) fails the statement. *)
Definition update_queue (queueID : string) (cond : QueueRow -> bool)
    (set : QueueRow -> QueueRow) (d : DB) : result (nat * DB) :=
  match db_queues d !! queueID with
  | None => Ok (0, d)
  | Some row =>
      if cond row
      then if queue_row_check (set row)
           then Ok (1, with_queues (<[queueID := set row]>) d)
           else Err "check constraint violated"
      else Ok (0, d)
  end.

(** ** Running programs *)

Section Runs.
Context {PS : Type}.
Implicit Types w : World PS.

Lemma bind_run {A B} (m : M PS A) (k : A -> M PS B) w :
  (m ≫= k) w = match m w with
               | (Ok a, w') => k a w'
               | (Err e, w') => (Err e, w')
               end.
Proof. done. Qed.

Lemma bind_step {A B} (m : M PS A) (k : A -> M PS B) w a w1 :
  m w = (Ok a, w1) -> (m ≫= k) w = k a w1.
Proof. intros H. by rewrite bind_run, H. Qed.

Lemma bind_ok {A B} (m : M PS A) (k : A -> M PS B) w b w' :
  (m ≫= k) w = (Ok b, w') <-> exists a w1, m w = (Ok a, w1) /\ k a w1 = (Ok b, w').
Proof.
  rewrite bind_run. destruct (m w) as [[a|e] w1]; split.
  - intros H. by exists a, w1.
  - intros (a' & w1' & [= <- <-] & H). done.
  - done.
  - by intros (a' & w1' & [=] & _).
Qed.

Lemma liftM_ok {A} (r : result A) w a w' :
  liftM r w = (Ok a, w') <-> r = Ok a /\ w' = w.
Proof. unfold liftM. split; [by intros [= -> ->]|by intros [-> ->]]. Qed.

Lemma guardM_ok bad e w u w' :
  guardM bad e w = (Ok u, w') <-> bad = false /\ w' = w.
Proof.
  unfold guardM. destruct bad; simpl; [by split; [|intros []]|].
  destruct u. split; [by intros [= ->]|by intros [_ ->]].
Qed.

Lemma next_outcome_db w o w' :
  next_outcome w = (o, w') -> w_db w' = w_db w /\ w_ext w' = w_ext w.
Proof. unfold next_outcome. destruct (w_outcomes w); by intros [= <- <-]. Qed.

(** A run against a database that never fails. *)
Definition reliable w : Prop := Forall (fun o => o = Good) (w_outcomes w).

Lemma next_outcome_reliable w :
  reliable w -> exists w', next_outcome w = (Good, w') /\ reliable w'
    /\ w_db w' = w_db w /\ w_clock w' = w_clock w /\ w_entropy w' = w_entropy w
    /\ w_ext w' = w_ext w.
Proof.
  unfold reliable, next_outcome. destruct (w_outcomes w) as [|o l] eqn:E.
  - intros _. exists w. by rewrite E.
  - intros [-> Hl]%Forall_cons. eexists. by split.
Qed.

Lemma queryM_ok {A} (q : DB -> result A) w a w' :
  queryM q w = (Ok a, w') -> q (w_db w) = Ok a /\ w_db w' = w_db w /\ w_ext w' = w_ext w.
Proof.
  unfold queryM. destruct (next_outcome w) as [o w1] eqn:E.
  apply next_outcome_db in E as [Hd He]. destruct o; [|done..].
  intros [= Hq <-]. by rewrite <- Hd.
Qed.

Lemma execM_ok {A} (s : DB -> result (A * DB)) w a w' :
  execM s w = (Ok a, w') -> s (w_db w) = Ok (a, w_db w') /\ w_ext w' = w_ext w.
Proof.
  unfold execM. destruct (next_outcome w) as [o w1] eqn:E.
  apply next_outcome_db in E as [Hd He]. rewrite Hd.
  destruct o, (s (w_db w)) as [[x d]|e]; try done. by intros [= -> <-].
Qed.

Lemma update_queue_ok queueID cond set d n d' :
  update_queue queueID cond set d = Ok (n, d') -> n <> 0 ->
  exists row, db_queues d !! queueID = Some row /\ cond row = true
    /\ queue_row_check (set row) = true /\ n = 1
    /\ d' = with_queues (<[queueID := set row]>) d.
Proof.
  unfold update_queue. intros H Hn. destruct (db_queues d !! queueID) as [row|]; [|congruence].
  destruct (cond row) eqn:Ec; [|congruence].
  destruct (queue_row_check (set row)) eqn:Es; [|done].
  injection H as <- <-. by exists row.
Qed.

(** A transaction that returned without an error left either the database
    its body built and committed, or, if the body chose not to commit, the
    database it found. *)
Lemma transaction_ok {A} (body : M PS (bool * A)) w a w' :
  transaction body w = (Ok a, w') ->
  exists w1 c w2, body w1 = (Ok (c, a), w2)
    /\ w_db w1 = w_db w /\ w_ext w1 = w_ext w /\ w_ext w' = w_ext w2
    /\ w_db w' = if c then w_db w2 else w_db w.
Proof.
  unfold transaction. destruct (next_outcome w) as [o w1] eqn:E.
  apply next_outcome_db in E as [Hd He]. destruct o; [|done..].
  destruct (body w1) as [[[c x]|e] w2] eqn:Eb; [|done].
  destruct c.
  - destruct (next_outcome w2) as [c2 w3] eqn:E2.
    apply next_outcome_db in E2 as [Hd2 He2]. destruct c2; [|done..].
    intros [= -> <-]. by exists w1, true, w2.
  - intros [= -> <-]. exists w1, false, w2. simpl. by rewrite Hd.
Qed.

Lemma execM_reliable {A} (s : DB -> result (A * DB)) w a d :
  reliable w -> s (w_db w) = Ok (a, d) ->
  exists w', execM s w = (Ok a, w') /\ reliable w' /\ w_db w' = d
    /\ w_clock w' = w_clock w /\ w_entropy w' = w_entropy w /\ w_ext w' = w_ext w.
Proof.
  intros (w1 & E & Hr & Hd & Hc & He & Hx)%next_outcome_reliable Hs.
  unfold execM. rewrite E, Hd, Hs. by exists (set_db d w1).
Qed.

(** A transaction over a reliable database returns what its body returns. *)
Lemma transaction_reliable {A} (body : M PS (bool * A)) w a (d : DB) :
  reliable w ->
  (forall w1, reliable w1 -> w_db w1 = w_db w -> w_clock w1 = w_clock w ->
     w_entropy w1 = w_entropy w -> w_ext w1 = w_ext w ->
     exists w2, body w1 = (Ok (true, a), w2) /\ reliable w2 /\ w_db w2 = d) ->
  exists w', transaction body w = (Ok a, w') /\ reliable w' /\ w_db w' = d.
Proof.
  intros (w1 & E & Hr & Hd & Hc & He & Hx)%next_outcome_reliable Hb.
  destruct (Hb w1) as (w2 & E2 & Hr2 & <-); [done..|].
  destruct (next_outcome_reliable w2 Hr2) as (w3 & E3 & Hr3 & Hd3 & _).
  exists w3. unfold transaction. by rewrite E, E2, E3.
Qed.

Lemma nowM_run w : exists t w', nowM w = (Ok t, w') /\ w_db w' = w_db w
  /\ w_ext w' = w_ext w /\ w_outcomes w' = w_outcomes w.
Proof. unfold nowM. destruct (w_clock w) as [|t [|? ?]]; by eexists _, _. Qed.

Lemma entropyM_run w : exists b w', entropyM w = (Ok b, w') /\ w_db w' = w_db w
  /\ w_ext w' = w_ext w /\ w_outcomes w' = w_outcomes w.
Proof. unfold entropyM. destruct (w_entropy w); by eexists _, _. Qed.
End Runs.

(** [run_inv H] takes apart a successful run [H : program w = (Ok a, w')]
    along its binds. *)
Ltac run_inv H :=
  lazymatch type of H with
  | (_ ≫= _) _ = (Ok _, _) =>
      let a := fresh "a" in let w1 := fresh "w" in
      let H1 := fresh "H" in let H2 := fresh "H" in
      apply bind_ok in H as (a & w1 & H1 & H2); run_inv H1; run_inv H2
  | guardM _ _ _ = (Ok _, _) =>
      let Hg := fresh "Hg" in apply guardM_ok in H as [Hg ->]
  | liftM _ _ = (Ok _, _) =>
      let Hl := fresh "Hl" in apply liftM_ok in H as [Hl ->]
  | mret _ _ = (Ok _, _) => injection H as ??
  | _ => idtac
  end.

(** ** Effects

    [effect R m]: whatever happens, running [m] relates the database before
    and after by [R].  With [R] a preorder the property follows the structure
    of the program. *)

Section Effects.
Context {PS : Type} (R : relation DB) `{!PreOrder R}.

Definition effect {A} (m : M PS A) : Prop :=
  forall w, R (w_db w) (w_db (m w).2).

Lemma effect_ret {A} (a : A) : effect (mret a).
Proof. intros w. done. Qed.

Lemma effect_fail {A} e : effect (failM e : M PS A).
Proof. intros w. done. Qed.

Lemma effect_lift {A} (r : result A) : effect (liftM r).
Proof. intros w. done. Qed.

Lemma effect_guard bad e : effect (guardM bad e).
Proof. intros w. by destruct bad. Qed.

Lemma effect_bind {A B} (m : M PS A) (k : A -> M PS B) :
  effect m -> (forall a, effect (k a)) -> effect (m ≫= k).
Proof.
  intros Hm Hk w. specialize (Hm w). rewrite bind_run.
  destruct (m w) as [[a|e] w1]; [|done]. simpl in Hm. etrans; [exact Hm|]. apply Hk.
Qed.

(** A validated value is used as such by the rest of the program. *)
Lemma effect_bind_lift {A B} (r : result A) (k : A -> M PS B) :
  (forall a, r = Ok a -> effect (k a)) -> effect (liftM r ≫= k).
Proof.
  intros Hk w. rewrite bind_run. unfold liftM. destruct r as [a|e]; [|done].
  by apply Hk.
Qed.

(** What follows a guard runs only when the guard passed. *)
Lemma effect_bind_guard {B} bad e (k : unit -> M PS B) :
  (bad = false -> effect (k tt)) -> effect (guardM bad e ≫= k).
Proof.
  intros Hk w. rewrite bind_run. unfold guardM. destruct bad; [done|]. by apply Hk.
Qed.

Lemma effect_query {A} (q : DB -> result A) : effect (queryM q).
Proof.
  intros w. unfold queryM. destruct (next_outcome w) as [o w1] eqn:E.
  apply next_outcome_db in E as [Hd _]. destruct o; simpl; by rewrite Hd.
Qed.

Lemma effect_exec {A} (s : DB -> result (A * DB)) :
  (forall d a d', s d = Ok (a, d') -> R d d') -> effect (execM s).
Proof.
  intros Hs w. unfold execM. destruct (next_outcome w) as [o w1] eqn:E.
  apply next_outcome_db in E as [Hd _].
  destruct o, (s (w_db w1)) as [[a d]|e] eqn:Es; simpl; rewrite <- ?Hd;
    first [by eapply Hs | reflexivity].
Qed.

Lemma effect_now : effect nowM.
Proof. intros w. destruct (nowM_run w) as (t & w' & -> & Hd & _). simpl. by rewrite Hd. Qed.

Lemma effect_entropy : effect entropyM.
Proof. intros w. destruct (entropyM_run w) as (t & w' & -> & Hd & _). simpl. by rewrite Hd. Qed.

Lemma effect_ext {A} (op : PS -> result A * PS) : effect (extM op).
Proof. intros w. unfold extM. by destruct (op (w_ext w)). Qed.

Lemma effect_try {A} (m : M PS A) : effect m -> effect (tryM m).
Proof. intros Hm w. specialize (Hm w). unfold tryM. by destruct (m w). Qed.

(** Atomicity: only the database a body commits has to be related to the one
    it started from, not the intermediate ones. *)
Lemma effect_commit {A} (body : M PS (bool * A)) :
  (forall w1 a w2, body w1 = (Ok (true, a), w2) -> R (w_db w1) (w_db w2)) ->
  effect (transaction body).
Proof.
  intros Hb w. unfold transaction. destruct (next_outcome w) as [o w1] eqn:E.
  apply next_outcome_db in E as [Hd _]. rewrite <- Hd.
  destruct o; [|done..].
  destruct (body w1) as [[[[] a]|e] w2] eqn:Eb; simpl; [|done..].
  apply Hb in Eb. destruct (next_outcome w2) as [c w3] eqn:E2.
  apply next_outcome_db in E2 as [Hd2 _]. destruct c; simpl; by rewrite ?Hd2.
Qed.

Lemma effect_transaction {A} (body : M PS (bool * A)) :
  effect body -> effect (transaction body).
Proof.
  intros Hb w. unfold transaction. destruct (next_outcome w) as [o w1] eqn:E.
  apply next_outcome_db in E as [Hd _]. rewrite <- Hd.
  destruct o; [|done..]. specialize (Hb w1).
  destruct (body w1) as [[[[] a]|e] w2]; simpl in *; [|done..].
  destruct (next_outcome w2) as [c w3] eqn:E2.
  apply next_outcome_db in E2 as [Hd2 _]. destruct c; simpl; by rewrite ?Hd2.
Qed.
End Effects.

Create HintDb effects.

(** [solve_effect] follows the structure of a program, splitting its tests;
    calls and statements are closed by the lemmas of [effects]; what remains
    is left to the caller. *)
Ltac effect_step :=
  lazymatch goal with
  | |- effect ?R (mbind ?k ?m) => apply (effect_bind R m k); [|intros ?]
  | |- effect ?R (transaction ?b) => apply (effect_transaction R b)
  | |- effect ?R (queryM ?q) => apply (effect_query R q)
  | |- effect ?R roundtripM => apply (effect_query R)
  | |- effect ?R (extM ?op) => apply (effect_ext R op)
  | |- effect ?R (tryM ?m) => apply (effect_try R m)
  | |- effect ?R (mret ?a) => apply (effect_ret R a)
  | |- effect ?R (failM ?e) => apply (effect_fail R e)
  | |- effect ?R (liftM ?r) => apply (effect_lift R r)
  | |- effect ?R (guardM ?b ?e) => apply (effect_guard R b e)
  | |- effect ?R nowM => apply (effect_now R)
  | |- effect ?R entropyM => apply (effect_entropy R)
  | |- effect _ (match ?x with _ => _ end) => destruct x
  | |- effect _ (let _ := _ in _) => cbv zeta
  | |- effect ?R (execM ?s) => apply (effect_exec R s); solve [eauto with effects]
  | |- _ => solve [eauto with effects typeclass_instances]
  end.
Ltac solve_effect := repeat effect_step.

(** ** Programs that leave Postfix alone *)

Section KeepsExt.
Context {PS : Type}.

Definition keeps_ext {A} (m : M PS A) : Prop := forall w, w_ext (m w).2 = w_ext w.

Lemma keeps_bind {A B} (m : M PS A) (k : A -> M PS B) :
  keeps_ext m -> (forall a, keeps_ext (k a)) -> keeps_ext (m ≫= k).
Proof.
  intros Hm Hk w. specialize (Hm w). rewrite bind_run.
  destruct (m w) as [[a|e] w1]; [|done]. simpl in Hm. by rewrite Hk.
Qed.

Lemma keeps_ret {A} (a : A) : keeps_ext (mret a).
Proof. done. Qed.
Lemma keeps_fail {A} e : keeps_ext (failM e : M PS A).
Proof. done. Qed.
Lemma keeps_lift {A} (r : result A) : keeps_ext (liftM r).
Proof. done. Qed.
Lemma keeps_guard bad e : keeps_ext (guardM bad e).
Proof. intros w. by destruct bad. Qed.

Lemma keeps_query {A} (q : DB -> result A) : keeps_ext (queryM q).
Proof.
  intros w. unfold queryM. destruct (next_outcome w) as [o w1] eqn:E.
  apply next_outcome_db in E as [_ Hx]. by destruct o.
Qed.

Lemma keeps_exec {A} (s : DB -> result (A * DB)) : keeps_ext (execM s).
Proof.
  intros w. unfold execM. destruct (next_outcome w) as [o w1] eqn:E.
  apply next_outcome_db in E as [_ Hx].
  destruct o, (s (w_db w1)) as [[a d]|e]; simpl; done.
Qed.

Lemma keeps_now : keeps_ext nowM.
Proof. intros w. by destruct (nowM_run w) as (t & w' & -> & _ & ? & _). Qed.
Lemma keeps_entropy : keeps_ext entropyM.
Proof. intros w. by destruct (entropyM_run w) as (t & w' & -> & _ & ? & _). Qed.

Lemma keeps_try {A} (m : M PS A) : keeps_ext m -> keeps_ext (tryM m).
Proof. intros Hm w. specialize (Hm w). unfold tryM. by destruct (m w). Qed.

Lemma keeps_transaction {A} (body : M PS (bool * A)) :
  keeps_ext body -> keeps_ext (transaction body).
Proof.
  intros Hb w. unfold transaction. destruct (next_outcome w) as [o w1] eqn:E.
  apply next_outcome_db in E as [_ Hx]. destruct o; [|done..]. specialize (Hb w1).
  destruct (body w1) as [[[[] a]|e] w2]; simpl in *; [|congruence..].
  destruct (next_outcome w2) as [c w3] eqn:E2.
  apply next_outcome_db in E2 as [_ Hx2]. destruct c; simpl; congruence.
Qed.

(** If a run changed Postfix and its first part could not have, the first
    part returned and the rest did. *)
Lemma bind_changed {A B} (m : M PS A) (k : A -> M PS B) w :
  keeps_ext m -> w_ext ((m ≫= k) w).2 <> w_ext w ->
  exists a w1, m w = (Ok a, w1) /\ w_ext (k a w1).2 <> w_ext w1
    /\ (m ≫= k) w = k a w1.
Proof.
  intros Hm H. specialize (Hm w). rewrite bind_run in H.
  destruct (m w) as [[a|e] w1] eqn:E; simpl in Hm.
  - exists a, w1. split_and!; [done|congruence|]. by rewrite bind_run, E.
  - done.
Qed.

(** A run that writes nothing, part by part. *)
Lemma bind_same {A B} (m : M PS A) (k : A -> M PS B) w :
  effect eq m -> (forall a w1, m w = (Ok a, w1) -> w_db (k a w1).2 = w_db w1) ->
  w_db ((m ≫= k) w).2 = w_db w.
Proof.
  intros Hm Hk. specialize (Hm w). rewrite bind_run.
  destruct (m w) as [[a|e] w1] eqn:E; simpl in Hm; [|done]. by rewrite Hk.
Qed.
End KeepsExt.

Ltac keeps_step :=
  lazymatch goal with
  | |- keeps_ext (mbind ?k ?m) => apply (keeps_bind m k); [|intros ?]
  | |- keeps_ext (transaction ?b) => apply (keeps_transaction b)
  | |- keeps_ext (queryM ?q) => apply (keeps_query q)
  | |- keeps_ext (execM ?q) => apply (keeps_exec q)
  | |- keeps_ext roundtripM => apply keeps_query
  | |- keeps_ext (mret ?a) => apply (keeps_ret a)
  | |- keeps_ext (failM ?e) => apply (keeps_fail e)
  | |- keeps_ext (liftM ?r) => apply (keeps_lift r)
  | |- keeps_ext (guardM ?b ?e) => apply (keeps_guard b e)
  | |- keeps_ext (tryM ?m) => apply (keeps_try m)
  | |- keeps_ext nowM => apply keeps_now
  | |- keeps_ext entropyM => apply keeps_entropy
  | |- keeps_ext (match ?x with _ => _ end) => destruct x
  | |- keeps_ext (let _ := _ in _) => cbv zeta
  | |- _ => solve [eauto with effects]
  end.
Ltac solve_keeps := repeat keeps_step.

Section AuditEffect.
Context `{HOST : !Host} {PS : Type}.

(** What an insertion appends: the event as given, but for its identifier,
    its time and the redaction of its payload. *)
Lemma WriteSQL_ok e w u w' :
  WriteSQL (PS := PS) e w = (Ok u, w') ->
  exists ev, w_db w' = with_audit (fun l => l ++ [ev]) (w_db w) /\ w_ext w' = w_ext w
    /\ ev_action ev = ev_action e /\ ev_resource ev = ev_resource e
    /\ ev_actor ev = ev_actor e /\ ev_correlation_id ev = ev_correlation_id e
    /\ ev_result ev = ev_result e
    /\ ev_before ev = Redact (ev_before e) /\ ev_after ev = Redact (ev_after e).
Proof.
  unfold WriteSQL. intros H. apply bind_ok in H as (b & w1 & H1 & H).
  apply bind_ok in H as (t & w2 & H2 & [H Hx]%execM_ok).
  assert (w_db w1 = w_db w /\ w_ext w1 = w_ext w) as [D1 X1].
  { destruct (ev_id e =?s ""); [|by injection H1 as <- <-].
    destruct (entropyM_run w) as (b' & w1' & E & ? & ? & _). rewrite E in H1. by simplify_eq. }
  assert (w_db w2 = w_db w1 /\ w_ext w2 = w_ext w1) as [D2 X2].
  { destruct (ev_time e =? 0)%Z; [|by injection H2 as <- <-].
    destruct (nowM_run w1) as (t' & w2' & E & ? & ? & _). rewrite E in H2. by simplify_eq. }
  unfold insert_audit in H. destruct (existsb _ _); [done|]. injection H as _ H.
  exists (Normalize t b e). rewrite <- H, D2, D1. split_and!; congruence || done.
Qed.

Context (R : relation DB) `{!PreOrder R}.

Lemma effect_WriteSQL e :
  (forall d e', R d (with_audit (fun l => l ++ [e']) d)) ->
  effect (PS := PS) R (WriteSQL e).
Proof.
  intros HR. unfold WriteSQL. solve_effect.
  apply (effect_exec R). unfold insert_audit. intros d x d' H.
  destruct (existsb _ _); [done|]. injection H as <- <-. apply HR.
Qed.
End AuditEffect.

Lemma keeps_WriteSQL `{HOST : !Host} {PS : Type} e : keeps_ext (PS := PS) (WriteSQL e).
Proof. unfold WriteSQL. solve_keeps. Qed.
#[export] Hint Resolve keeps_WriteSQL : effects.

(** ** A database that answers *)

Section Reliable.
Context `{HOST : !Host} {PS : Type}.
Implicit Types w : World PS.

(** The reading [store.now()] is about to return. *)
Definition clock_now w : Z := match w_clock w with [] => 0%Z | t :: _ => t end.

Lemma nowM_reliable w :
  reliable w -> exists w', nowM w = (Ok (clock_now w), w') /\ reliable w'
    /\ w_db w' = w_db w /\ w_ext w' = w_ext w.
Proof.
  unfold nowM, clock_now. destruct (w_clock w) as [|t [|? ?]]; intros ?; by eexists.
Qed.

(** The audit log has room for the next event: its identifier is not taken. *)
Definition fresh_audit w : Prop :=
  existsb (fun x => ev_id x =?s newUUID (head (w_entropy w))) (db_audit (w_db w)) = false.

Lemma WriteSQL_reliable e w :
  reliable w -> fresh_audit w -> ev_id e = "" ->
  exists w', WriteSQL e w = (Ok tt, w') /\ reliable w'.
Proof.
  intros Hw Hf He. unfold WriteSQL. rewrite He, eqs_refl.
  assert (exists w1, entropyM w = (Ok (head (w_entropy w)), w1) /\ reliable w1
    /\ w_db w1 = w_db w) as (w1 & E1 & W1 & D1).
  { unfold entropyM. destruct (w_entropy w); by eexists. }
  rewrite (bind_step _ _ _ _ _ E1).
  assert (exists t w2, (if (ev_time e =? 0)%Z then nowM else mret 0%Z) w1 = (Ok t, w2)
    /\ reliable w2 /\ w_db w2 = w_db w1) as (t & w2 & E2 & W2 & D2).
  { destruct (_ =? _)%Z; [|by eexists _, _].
    destruct (nowM_reliable w1 W1) as (w2 & ? & ? & ? & _). by eexists _, w2. }
  rewrite (bind_step _ _ _ _ _ E2).
  destruct (execM_reliable (insert_audit (Normalize t (head (w_entropy w)) e)) w2 tt
    (with_audit (fun l => l ++ [Normalize t (head (w_entropy w)) e]) (w_db w2)))
    as (w3 & E3 & W3 & _); [done| |by exists w3].
  unfold insert_audit, Normalize at 1. simpl. rewrite He, eqs_refl, D2, D1.
  unfold fresh_audit in Hf. by rewrite Hf.
Qed.
(** Whatever it returned, a transaction left the database as it found it or
    as its body committed it. *)
Lemma transaction_atomic {A} (body : M PS (bool * A)) w r w' :
  transaction body w = (r, w') ->
  w_db w' = w_db w
  \/ exists w1 a w2, body w1 = (Ok (true, a), w2) /\ w_db w1 = w_db w /\ w_db w' = w_db w2.
Proof.
  unfold transaction. destruct (next_outcome w) as [o w1] eqn:E.
  apply next_outcome_db in E as [Hd _]. destruct o; [|intros [= _ <-]; by left..].
  destruct (body w1) as [[[[] a]|e] w2] eqn:Eb; [|intros [= _ <-]; left; done..].
  destruct (next_outcome w2) as [c w3] eqn:E2. apply next_outcome_db in E2 as [Hd2 _].
  destruct c; intros [= _ <-]; [|by left|]; right; by exists w1, a, w2.
Qed.
End Reliable.
