(* ===== verification/QueueStore.v ===== *)
(** * The durable queue store (internal/outboundpolicy/queue.go:
      Register, Load, loadQueueRecord and the COPY helpers) *)

From stdpp Require Import base list gmap sets strings sorting.
From Stdlib Require Import ZArith Lia Ascii.
From S2P Require Import Prelude GoStd Sha256 Policy Queue AuditLog Database.

(** ** Statements *)

Section Statements.
Context `{HOST : !Host}.

(** INSERT INTO outbound_queue_messages(...) ... ON CONFLICT (queue_id) DO
    NOTHING: the number of rows inserted. *)
Definition insert_queue (record : QueueRecord) (now : Z) (d : DB) : result (nat * DB) :=
  match db_queues d !! qr_queue_id record with
  | Some _ => Ok (0, d)
  | None =>
      let row := {| qw_arrival_fingerprint := qr_arrival_fingerprint record;
                    qw_envelope_sender := qr_envelope_sender record;
                    qw_recipient_set_digest := qr_recipient_set_digest record;
                    qw_source_set_digest := qr_source_set_digest record;
                    qw_hold_state := HoldPending; qw_policy_reason := None;
                    qw_revisions := JObj []; qw_attempts := 0; qw_last_error_code := None;
                    qw_first_seen_at := now; qw_updated_at := now |} in
      if queue_row_check row
      then Ok (1, with_queues (<[qr_queue_id record := row]>) d)
      else Err "check constraint violated"
  end.

(** COPY of the recipient rows of one message; the primary key is
    (queue_id, recipient). *)
Fixpoint copy_recipients (queueID : string) (rows : list (string * string)) (d : DB)
    : result (unit * DB) :=
  match rows with
  | [] => Ok (tt, d)
  | (recipient, domain) :: rows =>
      let present := default ∅ (db_recipients d !! queueID) in
      match present !! recipient with
      | Some _ => Err "duplicate key value violates unique constraint"
      | None => copy_recipients queueID rows
                  (with_recipients (<[queueID := <[recipient := domain]> present]>) d)
      end
  end.

Fixpoint copy_sources (queueID : string) (rows : list QueueSource) (d : DB)
    : result (unit * DB) :=
  match rows with
  | [] => Ok (tt, d)
  | source :: rows =>
      let present := default ∅ (db_sources d !! queueID) in
      if bool_decide (source ∈ present)
      then Err "duplicate key value violates unique constraint"
      else copy_sources queueID rows
             (with_sources (<[queueID := {[source]} ∪ present]>) d)
  end.

(** SELECT recipient,recipient_domain ... ORDER BY recipient, in the
    collation of the server. *)
Definition sql_row_le (x y : string * string) : Prop := Is_true (sql_leb x.1 y.1).
#[global] Instance sql_row_le_dec : RelDecision sql_row_le.
Proof. intros x y. unfold sql_row_le. apply _. Defined.

Definition select_recipients (queueID : string) (d : DB) : list (string * string) :=
  merge_sort sql_row_le (map_to_list (default ∅ (db_recipients d !! queueID))).

(** SELECT source_kind,object_id ... ORDER BY source_kind,object_id. *)
Definition sql_source_le (x y : QueueSource) : Prop :=
  if qs_kind x =?s qs_kind y
  then Is_true (sql_leb (qs_object_id x) (qs_object_id y))
  else Is_true (sql_leb (qs_kind x) (qs_kind y)).
#[global] Instance sql_source_le_dec : RelDecision sql_source_le.
Proof. intros x y. unfold sql_source_le. destruct (_ =?s _); apply _. Defined.

Definition select_sources (queueID : string) (d : DB) : list QueueSource :=
  merge_sort sql_source_le (elements (default ∅ (db_sources d !! queueID))).
End Statements.

(** ** loadQueueRecord *)

Section Load.
Context `{HOST : !Host}.

(** The checks of the parent row, in the order of the source. *)
Definition load_parent (queueID : string) (row : QueueRow) : result QueueRecord :=
  let senderErr_or_changed :=
    match normalizeQueueSender (qw_envelope_sender row) with
    | Ok canonicalSender => canonicalSender <>?s qw_envelope_sender row
    | Err _ => true
    end in
  if negb (validLongQueueID queueID) || senderErr_or_changed
     || (qw_attempts row <? 0)%Z || negb (validHoldState (qw_hold_state row))
     || negb (validLowerHexDigest (qw_arrival_fingerprint row))
     || negb (validLowerHexDigest (qw_recipient_set_digest row))
     || negb (validLowerHexDigest (qw_source_set_digest row))
     || (qw_first_seen_at row =? 0)%Z
     || (qw_updated_at row <? qw_first_seen_at row)%Z
  then Err "stored outbound queue state is invalid" else
  let reason := default "" (qw_policy_reason row) in
  if match qw_policy_reason row with
     | Some r => negb (validQueueReason r)
     | None => false
     end
  then Err "stored outbound queue reason is invalid" else
  match decode_revisions (qw_revisions row) with
  | None => Err "stored outbound queue policy revisions are invalid"
  | Some revisions =>
      if (0 <? size revisions)
         && negb match canonicalPolicyRevisions revisions with
                 | Ok canonical => revisionMapsEqual revisions canonical
                 | Err _ => false
                 end
      then Err "stored outbound queue policy revisions are invalid" else
      if negb (validQueuePolicyState (qw_hold_state row)
                 (match qw_policy_reason row with Some _ => true | None => false end)
                 reason revisions)
      then Err "stored outbound queue policy state is invalid" else
      let lastError := default "" (qw_last_error_code row) in
      if match qw_last_error_code row with
         | Some c => negb (validQueueErrorCode c)
         | None => false
         end
      then Err "stored outbound queue error code is invalid" else
      Ok {| qr_queue_id := queueID;
            qr_arrival_fingerprint := qw_arrival_fingerprint row;
            qr_envelope_sender := qw_envelope_sender row;
            qr_recipient_set_digest := qw_recipient_set_digest row;
            qr_source_set_digest := qw_source_set_digest row;
            qr_hold_state := qw_hold_state row;
            qr_policy_reason := reason;
            qr_policy_revisions := revisions;
            qr_reconciliation_attempts := Z.to_N (qw_attempts row);
            qr_last_error_code := lastError;
            qr_first_seen_at := qw_first_seen_at row;
            qr_updated_at := qw_updated_at row;
            qr_recipients := []; qr_sources := [] |}
  end.

(** The row loop; [n] is [len(record.Recipients)]. *)
Fixpoint load_recipients (n : N) (rows : list (string * string)) : result (list string) :=
  match rows with
  | [] => Ok []
  | (recipient, storedDomain) :: rows =>
      if (maxQueueRecipients <=? n)%N
      then Err "stored outbound queue recipient limit exceeded" else
      match normalizeQueueRecipient recipient with
      | Err _ => Err "stored outbound queue recipient is invalid"
      | Ok (canonical, domain) =>
          if (canonical <>?s recipient) || (domain <>?s storedDomain)
          then Err "stored outbound queue recipient is invalid"
          else let! rest := load_recipients (n + 1)%N rows in Ok (recipient :: rest)
      end
  end.

Fixpoint load_sources (n : nat) (rows : list QueueSource) : result (list QueueSource) :=
  match rows with
  | [] => Ok []
  | source :: rows =>
      if maxQueueSources <=? n
      then Err "stored outbound queue source limit exceeded" else
      if negb (valid_source source)
      then Err "stored outbound queue source is invalid"
      else let! rest := load_sources (S n) rows in Ok (source :: rest)
  end.

Definition load_children (parent : QueueRecord) (recipients : list string)
    (sources : list QueueSource) : result QueueRecord :=
  if (length recipients =? 0) || (length sources =? 0)
     || (digestStrings recipients <>?s qr_recipient_set_digest parent)
     || (digestSources sources <>?s qr_source_set_digest parent)
  then Err "stored outbound queue provenance digest mismatch"
  else Ok {| qr_queue_id := qr_queue_id parent;
             qr_arrival_fingerprint := qr_arrival_fingerprint parent;
             qr_envelope_sender := qr_envelope_sender parent;
             qr_recipient_set_digest := qr_recipient_set_digest parent;
             qr_source_set_digest := qr_source_set_digest parent;
             qr_hold_state := qr_hold_state parent;
             qr_policy_reason := qr_policy_reason parent;
             qr_policy_revisions := qr_policy_revisions parent;
             qr_reconciliation_attempts := qr_reconciliation_attempts parent;
             qr_last_error_code := qr_last_error_code parent;
             qr_first_seen_at := qr_first_seen_at parent;
             qr_updated_at := qr_updated_at parent;
             qr_recipients := recipients; qr_sources := sources |}.

Definition select_queue (queueID : string) (d : DB) : result QueueRow :=
  match db_queues d !! queueID with
  | Some row => Ok row
  | None => Err "outbound queue record not found"
  end.

Context {PS : Type}.

Definition loadQueueRecord (queueID : string) : M PS QueueRecord :=
  row ← queryM (select_queue queueID);
  parent ← liftM (load_parent queueID row);
  recipientRows ← queryM (fun d => Ok (select_recipients queueID d));
  recipients ← liftM (load_recipients 0 recipientRows);
  sourceRows ← queryM (fun d => Ok (select_sources queueID d));
  sources ← liftM (load_sources 0 sourceRows);
  liftM (load_children parent recipients sources).

(** The [s.DB == nil] guards of the services are outside the model: a
    service here always has its database. *)
Definition Load (queueID : string) : M PS QueueRecord :=
  guardM (negb (validLongQueueID queueID)) "invalid Postfix long queue ID";;
  loadQueueRecord queueID.

(** ** Register *)

Definition copyQueueRecipients (record : QueueRecord) : M PS unit :=
  rows ← liftM (rmap (fun recipient =>
                        let! p := normalizeQueueRecipient recipient in
                        Ok (recipient, p.2)) (qr_recipients record));
  execM (copy_recipients (qr_queue_id record) rows).

Definition copyQueueSources (record : QueueRecord) : M PS unit :=
  execM (copy_sources (qr_queue_id record) (qr_sources record)).

Definition register_body (record : QueueRecord) (now : Z) : M PS (bool * (QueueRecord * bool)) :=
  affected ← execM (insert_queue record now);
  guardM (1 <? affected) "outbound queue insert affected multiple records";;
  (if affected =? 1
   then copyQueueRecipients record;; copyQueueSources record
   else mret tt);;
  stored ← loadQueueRecord (qr_queue_id record);
  guardM (negb (sameQueueIdentity stored record))
    "Postfix queue ID is already bound to different arrival metadata";;
  mret (true, (stored, affected =? 1)).

Definition Register (r : QueueRegistration) : M PS (QueueRecord * bool) :=
  record ← liftM (normalizeQueueRegistration r);
  now ← nowM;
  transaction (register_body record now).
End Load.

(** ** What a loaded record is *)

Section LoadFacts.
Context `{HOST : !Host} {PS : Type}.
Implicit Types (w : World PS) (d : DB) (q : QueueRecord).

(** The record [loadQueueRecord] returns, as a function of the database. *)
Definition load_pure (queueID : string) d : result QueueRecord :=
  let! row := select_queue queueID d in
  let! parent := load_parent queueID row in
  let! recipients := load_recipients 0 (select_recipients queueID d) in
  let! sources := load_sources 0 (select_sources queueID d) in
  load_children parent recipients sources.

Lemma loadQueueRecord_ok queueID w q w' :
  loadQueueRecord queueID w = (Ok q, w') ->
  load_pure queueID (w_db w) = Ok q /\ w_db w' = w_db w /\ w_ext w' = w_ext w.
Proof.
  unfold loadQueueRecord, load_pure. intros H. run_inv H.
  repeat match goal with
    | H : queryM _ _ = (Ok _, _) |- _ => apply queryM_ok in H as (? & ? & ?)
    end.
  simplify_eq/=.
  repeat match goal with H : w_db _ = w_db _ |- _ => rewrite H in *; clear H end.
  repeat match goal with H : w_ext _ = w_ext _ |- _ => rewrite H in *; clear H end.
  repeat match goal with H : _ = Ok _ |- _ => rewrite H; clear H; cbn [rbind] end.
  done.
Qed.

Lemma loadQueueRecord_reliable queueID w :
  reliable w -> exists w', loadQueueRecord queueID w = (load_pure queueID (w_db w), w')
    /\ reliable w' /\ w_db w' = w_db w /\ w_clock w' = w_clock w
    /\ w_entropy w' = w_entropy w /\ w_ext w' = w_ext w.
Proof.
  intros Hw. unfold loadQueueRecord, load_pure.
  destruct (next_outcome_reliable w Hw) as (w1 & E1 & Hw1 & Hd1 & Hc1 & He1 & Hx1).
  rewrite bind_run. unfold queryM at 1. rewrite E1, Hd1.
  destruct (select_queue queueID (w_db w)) as [row|]; cbn [rbind]; [|by exists w1].
  rewrite bind_run. unfold liftM at 1.
  destruct (load_parent queueID row) as [parent|]; cbn [rbind]; [|by exists w1].
  destruct (next_outcome_reliable w1 Hw1) as (w2 & E2 & Hw2 & Hd2 & Hc2 & He2 & Hx2).
  rewrite bind_run. unfold queryM at 1. rewrite E2, Hd2, Hd1.
  rewrite bind_run. unfold liftM at 1.
  destruct (load_recipients 0 _) as [recipients|]; cbn [rbind];
    [|exists w2; split_and!; first [done|congruence]].
  destruct (next_outcome_reliable w2 Hw2) as (w3 & E3 & Hw3 & Hd3 & Hc3 & He3 & Hx3).
  rewrite bind_run. unfold queryM at 1. rewrite E3, Hd3, Hd2, Hd1.
  rewrite bind_run. unfold liftM at 1.
  destruct (load_sources 0 _) as [sources|]; cbn [rbind];
    exists w3; split_and!; first [done|congruence].
Qed.

(** The checks of the two row loops. *)
Definition stored_recipient (row : string * string) : Prop :=
  normalizeQueueRecipient row.1 = Ok (row.1, row.2).

Lemma load_recipients_ok n rows l :
  load_recipients n rows = Ok l <->
  l = rows.*1 /\ Forall stored_recipient rows
  /\ (rows = [] \/ n + N.of_nat (length rows) <= maxQueueRecipients)%N.
Proof.
  revert n l. induction rows as [|[a dom] rows IH]; intros n l; cbn [load_recipients].
  - split; [intros [= <-]; split_and!; [done|constructor|by left]|by intros (-> & _)].
  - destruct (maxQueueRecipients <=? n)%N eqn:En; to_prop.
    { split; [done|]. intros (_ & _ & [?|Hl]); [done|]. simpl in Hl. lia. }
    destruct (normalizeQueueRecipient a) as [[a' dom']|] eqn:Ea.
    2: { split; [done|]. intros (_ & Hf & _). apply Forall_cons in Hf as [Hf _].
         unfold stored_recipient in Hf. simpl in Hf. congruence. }
    destruct ((a' <>?s a) || (dom' <>?s dom)) eqn:Eb.
    { split; [done|]. intros (_ & Hf & _). apply Forall_cons in Hf as [Hf _].
      unfold stored_recipient in Hf. simpl in Hf. rewrite Ea in Hf. simplify_eq.
      rewrite !eqs_refl in Eb. done. }
    to_prop. destruct Eb as [-> ->]. rewrite rbind_ok. setoid_rewrite IH. split.
    + intros (rest & (-> & Hf & Hn) & [= <-]). split_and!; [done|by constructor|].
      right. destruct Hn as [->|Hn]; simpl in *; lia.
    + intros (-> & Hf & Hn). exists rows.*1. apply Forall_cons in Hf as [_ Hf].
      split_and!; [done|done| |done]. right. destruct Hn as [|Hn]; [done|].
      simpl in Hn. lia.
Qed.

Lemma load_sources_ok n rows l :
  load_sources n rows = Ok l <->
  l = rows /\ (forall s, s ∈ rows -> valid_source s = true)
  /\ (rows = [] \/ n + length rows <= maxQueueSources).
Proof.
  revert n l. induction rows as [|s rows IH]; intros n l; cbn [load_sources].
  - split; [intros [= <-]; split_and!; [done| |by left]|by intros (-> & _)].
    intros s Hs. by apply not_elem_of_nil in Hs.
  - destruct (maxQueueSources <=? n) eqn:En; to_prop.
    { split; [done|]. intros (_ & _ & [?|Hl]); [done|]. simpl in Hl. lia. }
    destruct (valid_source s) eqn:Es; simpl.
    2: { split; [done|]. intros (_ & Hf & _). rewrite Hf in Es; [done|left]. }
    rewrite rbind_ok. setoid_rewrite IH. split.
    + intros (rest & (-> & Hf & Hn) & [= <-]). split_and!; [done| |].
      * intros s' [->|?]%elem_of_cons; auto.
      * right. destruct Hn as [->|Hn]; simpl in *; lia.
    + intros (-> & Hf & Hn). exists rows. split_and!; [done| | |done].
      * intros s' ?. apply Hf. by right.
      * right. destruct Hn as [|Hn]; [done|]. simpl in Hn. lia.
Qed.

(** A record that policy code may rely on. *)
Definition well_formed q : Prop :=
  validLongQueueID (qr_queue_id q) = true
  /\ normalizeQueueSender (qr_envelope_sender q) = Ok (qr_envelope_sender q)
  /\ validHoldState (qr_hold_state q) = true
  /\ qr_recipients q <> [] /\ qr_sources q <> []
  /\ (N.of_nat (length (qr_recipients q)) <= maxQueueRecipients)%N
  /\ length (qr_sources q) <= maxQueueSources
  /\ (forall a, a ∈ qr_recipients q -> exists dom, normalizeQueueRecipient a = Ok (a, dom))
  /\ (forall s, s ∈ qr_sources q -> valid_source s = true)
  /\ qr_recipient_set_digest q = digestStrings (qr_recipients q)
  /\ qr_source_set_digest q = digestSources (qr_sources q)
  /\ (qr_hold_state q = HoldPending ->
        qr_policy_reason q = "" /\ qr_policy_revisions q = ∅)
  /\ (qr_hold_state q <> HoldPending ->
        validQueueReason (qr_policy_reason q) = true /\ qr_policy_revisions q <> ∅)
  /\ nonzero_revisions (qr_policy_revisions q)
  /\ qr_first_seen_at q <> 0%Z /\ (qr_first_seen_at q <= qr_updated_at q)%Z.

Lemma load_parent_fields queueID row q :
  load_parent queueID row = Ok q ->
  qr_queue_id q = queueID /\ qr_hold_state q = qw_hold_state row
  /\ qr_envelope_sender q = qw_envelope_sender row
  /\ qr_arrival_fingerprint q = qw_arrival_fingerprint row
  /\ qr_recipient_set_digest q = qw_recipient_set_digest row
  /\ qr_source_set_digest q = qw_source_set_digest row
  /\ qr_policy_reason q = default "" (qw_policy_reason row)
  /\ decode_revisions (qw_revisions row) = Some (qr_policy_revisions q)
  /\ qr_reconciliation_attempts q = Z.to_N (qw_attempts row)
  /\ qr_last_error_code q = default "" (qw_last_error_code row)
  /\ qr_first_seen_at q = qw_first_seen_at row
  /\ qr_updated_at q = qw_updated_at row.
Proof.
  unfold load_parent. intros H. go_inv H; simpl; repeat split; done.
Qed.

Lemma validQueuePolicyState_pending hasReason reason m :
  validQueuePolicyState HoldPending hasReason reason m = true ->
  hasReason = false /\ m = ∅.
Proof.
  unfold validQueuePolicyState. rewrite eqs_refl. intros H. to_prop.
  destruct H as [-> H]. split; [done|]. by apply map_size_empty_inv.
Qed.

Lemma validQueuePolicyState_held state hasReason reason m :
  state <> HoldPending -> validQueuePolicyState state hasReason reason m = true ->
  hasReason = true /\ validQueueReason reason = true /\ m <> ∅.
Proof.
  unfold validQueuePolicyState. intros Hs%eqs_false. rewrite Hs. intros H. to_prop.
  destruct H as [[-> ->] H]. split_and!; [done..|]. intros ->.
  rewrite map_size_empty in H. lia.
Qed.

Lemma load_parent_wf queueID row q :
  load_parent queueID row = Ok q ->
  validLongQueueID (qr_queue_id q) = true
  /\ normalizeQueueSender (qr_envelope_sender q) = Ok (qr_envelope_sender q)
  /\ validHoldState (qr_hold_state q) = true
  /\ (qr_hold_state q = HoldPending ->
        qr_policy_reason q = "" /\ qr_policy_revisions q = ∅)
  /\ (qr_hold_state q <> HoldPending ->
        validQueueReason (qr_policy_reason q) = true /\ qr_policy_revisions q <> ∅)
  /\ nonzero_revisions (qr_policy_revisions q)
  /\ qr_first_seen_at q <> 0%Z /\ (qr_first_seen_at q <= qr_updated_at q)%Z.
Proof.
  unfold load_parent. intros H.
  destruct (normalizeQueueSender (qw_envelope_sender row)) as [snd|] eqn:Es;
    [|rewrite orb_true_r in H; done].
  destruct (_ || _) eqn:E1 in H; [done|].
  destruct (match qw_policy_reason row with Some r => _ | None => false end) eqn:E2 in H;
    [done|].
  destruct (decode_revisions _) as [m|] eqn:Em; [|done].
  destruct (_ && _) eqn:E3 in H; [done|].
  destruct (negb (validQueuePolicyState _ _ _ _)) eqn:E4; [done|].
  destruct (match qw_last_error_code row with Some c => _ | None => false end) eqn:E5 in H;
    [done|].
  injection H as <-. simpl. to_prop. destruct_and!.
  split_and!; try congruence; try lia.
  - intros Hp. rewrite Hp in E4.
    apply validQueuePolicyState_pending in E4 as [Hr ->].
    by destruct (qw_policy_reason row).
  - intros Hp. by apply validQueuePolicyState_held in E4 as (_ & ? & ?).
  - destruct E3 as [E3|E3].
    + assert (size m = 0) as ->%map_size_empty_inv by lia.
      intros d r Hd. by rewrite lookup_empty in Hd.
    + destruct (canonicalPolicyRevisions m) as [c|] eqn:Ec; [|done].
      destruct (canonicalPolicyRevisions_sound _ _ Ec) as (_ & Hm & _).
      by intros d r [? _]%Hm.
Qed.

Lemma load_children_ok parent recipients sources q :
  load_children parent recipients sources = Ok q ->
  qr_recipients q = recipients /\ qr_sources q = sources
  /\ recipients <> [] /\ sources <> []
  /\ qr_recipient_set_digest q = digestStrings recipients
  /\ qr_source_set_digest q = digestSources sources
  /\ (qr_queue_id q, qr_envelope_sender q, qr_hold_state q, qr_policy_reason q,
       qr_policy_revisions q, qr_first_seen_at q, qr_updated_at q)
     = (qr_queue_id parent, qr_envelope_sender parent, qr_hold_state parent,
        qr_policy_reason parent, qr_policy_revisions parent,
        qr_first_seen_at parent, qr_updated_at parent).
Proof.
  unfold load_children. intros H. go_inv H. simpl. to_prop. destruct_and!.
  split_and!; try done; by intros ->.
Qed.

(** Every field of a loaded record is the stored one. *)
Lemma load_pure_fields queueID d q :
  load_pure queueID d = Ok q ->
  exists row, db_queues d !! queueID = Some row
    /\ qr_queue_id q = queueID /\ qr_hold_state q = qw_hold_state row
    /\ qr_envelope_sender q = qw_envelope_sender row
    /\ qr_arrival_fingerprint q = qw_arrival_fingerprint row
    /\ qr_recipient_set_digest q = qw_recipient_set_digest row
    /\ qr_source_set_digest q = qw_source_set_digest row
    /\ qr_policy_reason q = default "" (qw_policy_reason row)
    /\ decode_revisions (qw_revisions row) = Some (qr_policy_revisions q)
    /\ qr_reconciliation_attempts q = Z.to_N (qw_attempts row)
    /\ qr_recipients q = (select_recipients queueID d).*1
    /\ qr_sources q = select_sources queueID d.
Proof.
  unfold load_pure. intros H.
  apply rbind_ok in H as (row & Hrow & H). apply rbind_ok in H as (parent & Hp & H).
  apply rbind_ok in H as (rs & (-> & _)%load_recipients_ok & H).
  apply rbind_ok in H as (ss & (-> & _)%load_sources_ok & H).
  unfold select_queue in Hrow. destruct (db_queues d !! queueID); [|done].
  injection Hrow as ->. exists row. apply load_parent_fields in Hp.
  unfold load_children in H. destruct (_ || _); [done|]. injection H as <-. simpl. tauto.
Qed.

Lemma load_pure_well_formed queueID d q :
  load_pure queueID d = Ok q -> well_formed q.
Proof.
  unfold load_pure. intros H.
  apply rbind_ok in H as (row & _ & H). apply rbind_ok in H as (parent & Hp & H).
  apply rbind_ok in H as (rs & Hr & H). apply rbind_ok in H as (ss & Hs & H).
  apply load_parent_wf in Hp. apply load_recipients_ok in Hr as (-> & Hr & Hrn).
  apply load_sources_ok in Hs as (-> & Hs & Hsn).
  apply load_children_ok in H as (H1 & H2 & H3 & H4 & H5 & H6 & Heq).
  injection Heq as Eid Esnd Est Erea Erev Efs Eup. unfold well_formed.
  rewrite Eid, Esnd, Est, Erea, Erev, Efs, Eup, H1, H2.
  destruct Hp as (P1 & P2 & P3 & P4 & P5 & P6 & P7 & P8).
  assert (select_recipients queueID d <> []) by (by intros Hx; rewrite Hx in H3).
  split_and!; try done.
  - rewrite length_fmap. destruct Hrn; [done|lia].
  - destruct Hsn; [done|lia].
  - intros a ([a' dom] & -> & Hin)%list_elem_of_fmap. rewrite Forall_forall in Hr.
    exists dom. by apply (Hr (a', dom)).
Qed.

(** C11: whatever the database holds and however its replies fail, a record
    returned by [Load] is well formed: canonical addresses, known sources,
    digests that match both child sets, and a hold state consistent with its
    reason and revisions. *)
Theorem Load_well_formed queueID w q w' :
  Load queueID w = (Ok q, w') ->
  qr_queue_id q = queueID /\ well_formed q /\ w_db w' = w_db w.
Proof.
  unfold Load. intros H. run_inv H. apply loadQueueRecord_ok in H1 as (Hl & Hd & _).
  split_and!; [|by eapply load_pure_well_formed|done].
  unfold load_pure in Hl. apply rbind_ok in Hl as (row & _ & Hl).
  apply rbind_ok in Hl as (parent & Hp & Hl). apply rbind_ok in Hl as (rs & _ & Hl).
  apply rbind_ok in Hl as (ss & _ & Hl).
  apply load_parent_fields in Hp as [<- _]. apply load_children_ok in Hl.
  destruct Hl as (_ & _ & _ & _ & _ & _ & Heq). congruence.
Qed.
End LoadFacts.

(** ** Registration *)

(** The schema's foreign keys: no child rows without their parent. *)
Definition no_orphans (d : DB) : Prop :=
  forall queueID, db_queues d !! queueID = None ->
    db_recipients d !! queueID = None /\ db_sources d !! queueID = None.

(** [d'] differs from [d] at most in the queue tables of one message. *)
Record only_queue (queueID : string) (d d' : DB) : Prop := {
  oq_domains : db_domains d' = db_domains d;
  oq_mailboxes : db_mailboxes d' = db_mailboxes d;
  oq_aliases : db_aliases d' = db_aliases d;
  oq_senders : db_senders d' = db_senders d;
  oq_queues : forall q, q <> queueID -> db_queues d' !! q = db_queues d !! q;
  oq_recipients : forall q, q <> queueID -> db_recipients d' !! q = db_recipients d !! q;
  oq_sources : forall q, q <> queueID -> db_sources d' !! q = db_sources d !! q;
  oq_audit : db_audit d' = db_audit d;
}.

#[export] Instance only_queue_preorder queueID : PreOrder (only_queue queueID).
Proof.
  split.
  - intros d. by split.
  - intros d1 d2 d3 [] []. split; try congruence; intros q Hq;
      repeat match goal with H : forall q, q <> _ -> _ |- _ => specialize (H q Hq) end;
      congruence.
Qed.

Section RegisterFacts.
Context `{HOST : !Host} {PS : Type}.
Implicit Types (w : World PS) (d : DB) (record : QueueRecord).

Lemma insert_queue_only record now d n d' :
  insert_queue record now d = Ok (n, d') -> only_queue (qr_queue_id record) d d'.
Proof.
  unfold insert_queue. intros H. go_inv H; [done|].
  split; try done. intros q Hq. simpl. by rewrite lookup_insert_ne.
Qed.

Lemma copy_recipients_only queueID rows d u d' :
  copy_recipients queueID rows d = Ok (u, d') -> only_queue queueID d d'.
Proof.
  revert d. induction rows as [|[a dom] rows IH]; intros d; cbn [copy_recipients].
  { by intros [= _ <-]. }
  destruct (_ !! a); [done|]. intros H%IH. etrans; [|exact H].
  split; try done. intros q Hq. simpl. by rewrite lookup_insert_ne.
Qed.

Lemma copy_sources_only queueID rows d u d' :
  copy_sources queueID rows d = Ok (u, d') -> only_queue queueID d d'.
Proof.
  revert d. induction rows as [|s rows IH]; intros d; cbn [copy_sources].
  { by intros [= _ <-]. }
  case_bool_decide; [done|]. intros H'%IH. etrans; [|exact H'].
  split; try done. intros q Hq. simpl. by rewrite lookup_insert_ne.
Qed.

Lemma loadQueueRecord_readonly queueID (R : relation DB) `{!PreOrder R} :
  effect (PS := PS) R (loadQueueRecord queueID).
Proof. unfold loadQueueRecord. solve_effect. Qed.

Lemma normalize_queue_id r record :
  normalizeQueueRegistration r = Ok record -> qr_queue_id record = rg_queue_id r.
Proof. intros (? & _ & _ & _ & _ & _ & _ & _ & ->)%normalizeQueueRegistration_ok. done. Qed.

#[local] Hint Resolve insert_queue_only copy_recipients_only copy_sources_only
  loadQueueRecord_readonly : effects.

Lemma Register_only r : effect (PS := PS) (only_queue (rg_queue_id r)) (Register r).
Proof.
  unfold Register. apply (effect_bind_lift _).
  intros record <-%normalize_queue_id.
  unfold register_body, copyQueueRecipients, copyQueueSources. solve_effect.
Qed.

(** Under every schedule of database failures, registration touches the
    rows of the registered queue ID only: no policy table, no audit row and
    no other message changes. *)
Theorem Register_only_queue r :
  effect (PS := PS) (only_queue (rg_queue_id r)) (Register r).
Proof. apply Register_only. Qed.
End RegisterFacts.

(** The server compares text bytewise, as with LC_COLLATE=C. *)
Class ByteCollation `{HOST : !Host} : Prop :=
  sql_leb_bytes : forall x y, sql_leb x y = String.leb x y.

Section RoundTrip.
Context `{HOST : !Host} {PS : Type} {IDNA : IdnaLaws} {COLL : ByteCollation}.
Implicit Types (w : World PS) (d : DB) (record : QueueRecord).

Lemma sql_row_le_bytes x y : sql_row_le x y <-> String.le x.1 y.1.
Proof. unfold sql_row_le, String.le. by rewrite sql_leb_bytes. Qed.

Lemma sql_source_le_bytes x y : sql_source_le x y <-> source_le x y.
Proof.
  unfold sql_source_le, source_le, String.le. by rewrite !sql_leb_bytes.
Qed.

#[global] Instance sql_row_le_trans : Transitive sql_row_le.
Proof. intros x y z. rewrite !sql_row_le_bytes. by etrans. Qed.
#[global] Instance sql_row_le_total : Total sql_row_le.
Proof. intros x y. rewrite !sql_row_le_bytes. apply (total String.le). Qed.
#[local] Instance sql_source_le_trans : Transitive sql_source_le.
Proof. intros x y z. rewrite !sql_source_le_bytes. by etrans. Qed.
#[local] Instance sql_source_le_total : Total sql_source_le.
Proof. intros x y. rewrite !sql_source_le_bytes. apply (total source_le). Qed.

(** Reading back sorted distinct rows returns them in the same order. *)
Lemma order_rows (rows : list (string * string)) :
  NoDup rows.*1 -> StronglySorted String.le rows.*1 ->
  merge_sort sql_row_le (map_to_list (list_to_map rows : gmap string string)) = rows.
Proof.
  intros Hn Hs.
  assert (merge_sort sql_row_le (map_to_list (list_to_map rows : gmap string string)) ≡ₚ rows)
    as Hp by (rewrite merge_sort_Permutation; by apply map_to_list_to_map).
  apply (StronglySorted_unique_strong sql_row_le); [| | |done].
  - intros x1 x2 Hx1 Hx2. rewrite !sql_row_le_bytes. intros H1 H2.
    assert (x1.1 = x2.1) as He by (by apply (anti_symm String.le)).
    rewrite Hp in Hx1. destruct x1 as [a1 b1], x2 as [a2 b2]. simpl in He. subst a2.
    f_equal. apply (elem_of_list_to_map_1 (M := gmap string)) in Hx1; [|done].
    apply (elem_of_list_to_map_1 (M := gmap string)) in Hx2; [|done]. congruence.
  - apply StronglySorted_merge_sort; apply _.
  - clear Hn Hp. induction rows as [|x rows IH]; [constructor|].
    rewrite fmap_cons in Hs. apply StronglySorted_cons in Hs as [Hx Hs'].
    apply StronglySorted_cons. split; [|by apply IH].
    rewrite Forall_fmap in Hx. eapply Forall_impl; [exact Hx|].
    intros y. apply sql_row_le_bytes.
Qed.

Lemma order_sources (l : list QueueSource) :
  NoDup l -> StronglySorted source_le l ->
  merge_sort sql_source_le (elements (list_to_set l : gset QueueSource)) = l.
Proof.
  intros Hn Hs. apply sorted_sources_eq; [|done|].
  - assert (StronglySorted sql_source_le
      (merge_sort sql_source_le (elements (list_to_set l : gset QueueSource)))) as H
      by (apply StronglySorted_merge_sort; apply _).
    revert H. generalize (merge_sort sql_source_le (elements (list_to_set l : gset QueueSource))).
    intros k. induction k as [|x k IH]; [constructor|].
    rewrite !StronglySorted_cons. intros [Hx Hk]. split; [|by apply IH].
    eapply Forall_impl; [exact Hx|]. intros y. apply sql_source_le_bytes.
  - rewrite merge_sort_Permutation. by apply elements_list_to_set.
Qed.

Lemma copy_recipients_run queueID rows d :
  db_recipients d !! queueID = None -> rows <> [] -> NoDup rows.*1 ->
  copy_recipients queueID rows d =
    Ok (tt, with_recipients (<[queueID := list_to_map rows]>) d).
Proof.
  intros Hq Hne Hn.
  assert (forall rows' d',
    default ∅ (db_recipients d' !! queueID) = (list_to_map rows' : gmap string string) ->
    NoDup (rows' ++ rows).*1 ->
    copy_recipients queueID rows d' =
      Ok (tt, if decide (rows = []) then d'
              else with_recipients (<[queueID := list_to_map (rev rows ++ rows')]>) d'))
    as Hgen.
  { clear Hq Hne Hn. induction rows as [|[a dom] rows IH]; intros rows' d' Hd Hn;
      [by rewrite decide_True|].
    cbn [copy_recipients]. rewrite Hd.
    rewrite fmap_app, NoDup_app in Hn. simpl in Hn. destruct Hn as (Hn1 & Hn2 & Hn3).
    apply NoDup_cons in Hn3 as [Ha Hn3].
    rewrite not_elem_of_list_to_map_1 by (intros Hin; apply (Hn2 a Hin); left).
    rewrite (IH ((a, dom) :: rows')); [| |].
    - rewrite (decide_False (P := (a, dom) :: rows = [])) by done.
      f_equal. f_equal. case_decide as Hr; [by subst|].
      simpl. rewrite <- app_assoc. simpl. unfold with_recipients. simpl.
      f_equal. by rewrite insert_insert_eq.
    - simpl. by rewrite lookup_insert_eq.
    - simpl. apply NoDup_cons. rewrite fmap_app, elem_of_app. split.
      + intros [Hin|Hin]; [|done]. apply (Hn2 a Hin). left.
      + apply NoDup_app. split_and!; [done| |done]. intros x Hx Hx'.
        apply (Hn2 x Hx). by right. }
  rewrite (Hgen []); [|by rewrite Hq|done].
  rewrite decide_False, app_nil_r by done. f_equal. f_equal. unfold with_recipients.
  f_equal. f_equal. apply list_to_map_proper; by rewrite <- Permutation_rev.
Qed.

Lemma copy_sources_run queueID rows d :
  db_sources d !! queueID = None -> rows <> [] -> NoDup rows ->
  copy_sources queueID rows d =
    Ok (tt, with_sources (<[queueID := list_to_set rows]>) d).
Proof.
  intros Hq Hne Hn.
  assert (forall (X : gset QueueSource) d',
    default ∅ (db_sources d' !! queueID) = X -> (forall s, s ∈ rows -> s ∉ X) ->
    copy_sources queueID rows d' =
      Ok (tt, if decide (rows = []) then d'
              else with_sources (<[queueID := list_to_set rows ∪ X]>) d')) as Hgen.
  { clear Hq Hne. induction rows as [|s rows IH]; intros X d' Hd Hx;
      [by rewrite decide_True|].
    apply NoDup_cons in Hn as [Hs Hn]. cbn [copy_sources]. rewrite Hd.
    rewrite bool_decide_false by (apply Hx; left).
    rewrite (IH Hn ({[s]} ∪ X)); [| |].
    - rewrite (decide_False (P := s :: rows = [])) by done.
      f_equal. f_equal. case_decide as Hr.
      + subst. unfold with_sources. simpl. f_equal. f_equal. set_solver.
      + unfold with_sources. simpl. f_equal. rewrite insert_insert_eq. f_equal. set_solver.
    - simpl. by rewrite lookup_insert_eq.
    - intros s' Hs'. set_solver. }
  rewrite (Hgen ∅); [|by rewrite Hq|set_solver].
  rewrite decide_False by done. f_equal. f_equal. unfold with_sources.
  f_equal. f_equal. set_solver.
Qed.

(** ** Round trip *)

(** The record a registration inserted at time [t] reads back as. *)
Definition stamp (t : Z) (q : QueueRecord) : QueueRecord :=
  {| qr_queue_id := qr_queue_id q; qr_arrival_fingerprint := qr_arrival_fingerprint q;
     qr_envelope_sender := qr_envelope_sender q;
     qr_recipient_set_digest := qr_recipient_set_digest q;
     qr_source_set_digest := qr_source_set_digest q;
     qr_hold_state := qr_hold_state q; qr_policy_reason := qr_policy_reason q;
     qr_policy_revisions := qr_policy_revisions q;
     qr_reconciliation_attempts := qr_reconciliation_attempts q;
     qr_last_error_code := qr_last_error_code q;
     qr_first_seen_at := t; qr_updated_at := t;
     qr_recipients := qr_recipients q; qr_sources := qr_sources q |}.

(** The rows one message adds to the three queue tables. *)
Definition pending_row (t : Z) (q : QueueRecord) : QueueRow :=
  {| qw_arrival_fingerprint := qr_arrival_fingerprint q;
     qw_envelope_sender := qr_envelope_sender q;
     qw_recipient_set_digest := qr_recipient_set_digest q;
     qw_source_set_digest := qr_source_set_digest q;
     qw_hold_state := HoldPending; qw_policy_reason := None;
     qw_revisions := JObj []; qw_attempts := 0; qw_last_error_code := None;
     qw_first_seen_at := t; qw_updated_at := t |}.

Definition add_message (t : Z) (q : QueueRecord) (rows : list (string * string)) (d : DB) : DB :=
  with_sources (<[qr_queue_id q := list_to_set (qr_sources q)]>)
    (with_recipients (<[qr_queue_id q := list_to_map rows]>)
      (with_queues (<[qr_queue_id q := pending_row t q]>) d)).

Lemma recipient_rows l :
  (forall a, a ∈ l -> exists dom, normalizeQueueRecipient a = Ok (a, dom)) ->
  exists rows, rmap (fun recipient => let! p := normalizeQueueRecipient recipient in
                                      Ok (recipient, p.2)) l = Ok rows
    /\ rows.*1 = l /\ Forall stored_recipient rows.
Proof.
  induction l as [|a l IH]; intros H; [by exists []|].
  destruct (H a) as [dom Ha]; [left|]. destruct IH as (rows & Hr & <- & Hf).
  { intros b Hb. apply H. by right. }
  exists ((a, dom) :: rows). cbn [rmap]. rewrite Ha. cbn [rbind]. rewrite Hr.
  split_and!; [done..|by constructor].
Qed.

(** A normalised record whose addresses stay within the bound. *)
Lemma normalized_recipients r q a :
  normalizeQueueRegistration r = Ok q ->
  Forall bounded_address (qr_envelope_sender q :: qr_recipients q) ->
  a ∈ qr_recipients q -> exists dom, normalizeQueueRecipient a = Ok (a, dom).
Proof.
  intros (l & _ & _ & _ & _ & Hl & _ & _ & Hq)%normalizeQueueRegistration_ok
    [_ Hb]%Forall_cons Ha.
  rewrite Forall_forall in Hb. specialize (Hb a Ha). rewrite Hq in Ha. simpl in Ha.
  rewrite elem_of_canonical_set in Ha.
  apply (normalize_recipients_elem _ _ Hl) in Ha as (raw & dom & _ & Hraw).
  exists dom. by eapply normalizeQueueRecipient_idem.
Qed.

Lemma normalized_nodup r q :
  normalizeQueueRegistration r = Ok q -> NoDup (qr_recipients q).
Proof.
  intros (l & _ & _ & _ & _ & _ & _ & _ & ->)%normalizeQueueRegistration_ok. simpl.
  auto with gotth.
Qed.

Lemma normalized_sources_nodup r q :
  normalizeQueueRegistration r = Ok q -> NoDup (qr_sources q).
Proof.
  intros (l & _ & _ & _ & _ & _ & _ & Hv & ->)%normalizeQueueRegistration_ok. simpl.
  by apply canonical_sources_nodup.
Qed.

Lemma load_parent_pending t q :
  validLongQueueID (qr_queue_id q) = true ->
  normalizeQueueSender (qr_envelope_sender q) = Ok (qr_envelope_sender q) ->
  validLowerHexDigest (qr_arrival_fingerprint q) = true ->
  validLowerHexDigest (qr_recipient_set_digest q) = true ->
  validLowerHexDigest (qr_source_set_digest q) = true ->
  t <> 0%Z ->
  exists parent, load_parent (qr_queue_id q) (pending_row t q) = Ok parent
    /\ forall recipients sources,
         recipients <> [] -> sources <> [] ->
         digestStrings recipients = qr_recipient_set_digest q ->
         digestSources sources = qr_source_set_digest q ->
         load_children parent recipients sources =
         Ok {| qr_queue_id := qr_queue_id q;
               qr_arrival_fingerprint := qr_arrival_fingerprint q;
               qr_envelope_sender := qr_envelope_sender q;
               qr_recipient_set_digest := qr_recipient_set_digest q;
               qr_source_set_digest := qr_source_set_digest q;
               qr_hold_state := HoldPending; qr_policy_reason := "";
               qr_policy_revisions := ∅; qr_reconciliation_attempts := 0;
               qr_last_error_code := ""; qr_first_seen_at := t; qr_updated_at := t;
               qr_recipients := recipients; qr_sources := sources |}.
Proof.
  intros H1 H2 H3 H4 H5 Ht. unfold load_parent, pending_row. simpl.
  rewrite H1, H2, H3, H4, H5, eqs_refl. apply Z.eqb_neq in Ht. rewrite Ht.
  simpl. rewrite map_size_empty, (Z.ltb_irrefl t). simpl.
  assert (validQueuePolicyState HoldPending false "" ∅ = true) as -> by done. simpl. eexists. split; [done|].
  intros recipients sources Hr Hs Hd1 Hd2. unfold load_children. simpl.
  rewrite Hd1, Hd2, !eqs_refl. by destruct recipients, sources.
Qed.

Lemma load_message r q rows t d :
  normalizeQueueRegistration r = Ok q ->
  Forall bounded_address (qr_envelope_sender q :: qr_recipients q) ->
  rows.*1 = qr_recipients q -> Forall stored_recipient rows -> t <> 0%Z ->
  load_pure (qr_queue_id q) (add_message t q rows d) = Ok (stamp t q).
Proof.
  intros Hn Hb Hrows Hst Ht. apply Forall_cons in Hb as [Hbs _].
  apply normalizeQueueRegistration_ok in Hn
    as (l & Hid & Hfp & Hsnd & Hnr & Hl & Hns & Hv & Hq).
  apply normalizeQueueSender_idem in Hsnd; [|done].
  apply normalize_recipients_length in Hl as Hlen.
  pose proof (length_canonical_set l) as Hle.
  pose proof (length_canonical_sources _ Hv) as Hse.
  assert (qr_recipients q = canonical_set l) as Er by (by rewrite Hq).
  assert (qr_sources q = canonical_sources (rg_sources r)) as Es by (by rewrite Hq).
  assert (select_recipients (qr_queue_id q) (add_message t q rows d) = rows) as Hsr.
  { unfold select_recipients, add_message. simpl. rewrite lookup_insert_eq. simpl.
    apply order_rows; rewrite Hrows, Er; auto with gotth. }
  assert (select_sources (qr_queue_id q) (add_message t q rows d) = qr_sources q) as Hss.
  { unfold select_sources, add_message. simpl. rewrite lookup_insert_eq. simpl.
    apply order_sources; rewrite Es;
      [by apply canonical_sources_nodup|apply canonical_sources_sorted]. }
  unfold load_pure, select_queue. rewrite Hsr, Hss. simpl. rewrite lookup_insert_eq.
  cbn [rbind].
  destruct (load_parent_pending t q) as (parent & -> & Hch);
    [by rewrite Hq|done|by rewrite Hq|rewrite Hq; apply validLowerHexDigest_sha..|done|].
  cbn [rbind].
  assert (load_recipients 0 rows = Ok rows.*1) as ->.
  { apply load_recipients_ok. split_and!; [done..|]. right.
    rewrite <- (length_fmap fst), Hrows, Er. lia. }
  assert (load_sources 0 (qr_sources q) = Ok (qr_sources q)) as ->.
  { apply load_sources_ok. split_and!; [done| |right; rewrite Es; simpl; lia].
    intros s. rewrite Es, elem_of_canonical_sources; auto. }
  cbn [rbind]. rewrite Hch; rewrite ?Hrows.
  - unfold stamp. by rewrite Hq.
  - rewrite Er. intros H0. apply (proj1 (canonical_set_nil_iff l)) in H0. subst l.
    simpl in Hlen. lia.
  - rewrite Es. intros H0%canonical_sources_nil; [|done]. rewrite H0 in Hns. simpl in Hns. lia.
  - by rewrite Hq.
  - by rewrite Hq.
Qed.

Lemma sameQueueIdentity_stamp t q : sameQueueIdentity (stamp t q) q = true.
Proof. unfold sameQueueIdentity. simpl. by rewrite !eqs_refl. Qed.

Lemma Register_creates_lemma r q w :
  reliable w -> no_orphans (w_db w) ->
  normalizeQueueRegistration r = Ok q ->
  Forall bounded_address (qr_envelope_sender q :: qr_recipients q) ->
  clock_now w <> 0%Z -> db_queues (w_db w) !! qr_queue_id q = None ->
  exists w' rows, Register r w = (Ok (stamp (clock_now w) q, true), w') /\ reliable w'
    /\ w_db w' = add_message (clock_now w) q rows (w_db w)
    /\ load_pure (qr_queue_id q) (w_db w') = Ok (stamp (clock_now w) q).
Proof.
  intros Hw Hor Hn Hb Ht Hnone. destruct (Hor _ Hnone) as [Hnr Hns].
  destruct (recipient_rows (qr_recipients q)) as (rows & Hrows & Hfst & Hst).
  { intros a. by eapply normalized_recipients. }
  pose proof (load_message r q rows (clock_now w) (w_db w) Hn Hb Hfst Hst Ht) as Hload.
  pose proof (load_pure_well_formed _ _ _ Hload) as Hwf.
  destruct Hwf as (_ & _ & _ & Hne & Hse & _). simpl in Hne, Hse.
  unfold Register. rewrite (bind_step _ _ w q w) by (by rewrite Hn).
  destruct (nowM_reliable w Hw) as (w1 & E1 & Hw1 & Hd1 & _). rewrite (bind_step _ _ _ _ _ E1).
  destruct (transaction_reliable (register_body q (clock_now w)) w1
    (stamp (clock_now w) q, true) (add_message (clock_now w) q rows (w_db w)) Hw1)
    as (w2 & E2 & Hw2 & Hd2); [|by exists w2, rows; rewrite Hd2].
  intros u Hu Hdu _ _ _. rewrite Hd1 in Hdu. unfold register_body.
  destruct (execM_reliable (insert_queue q (clock_now w)) u 1
    (with_queues (<[qr_queue_id q := pending_row (clock_now w) q]>) (w_db w)))
    as (u1 & F1 & Hu1 & Hdu1 & _); [done| |].
  { unfold insert_queue, queue_row_check. rewrite Hdu, Hnone. simpl.
    by rewrite Z.leb_refl. }
  rewrite (bind_step _ _ _ _ _ F1). cbn [Nat.ltb Nat.leb Nat.eqb guardM].
  rewrite (bind_step _ _ _ tt u1) by done.
  destruct (execM_reliable (copy_recipients (qr_queue_id q) rows) u1 tt
    (with_recipients (<[qr_queue_id q := list_to_map rows]>) (w_db u1)))
    as (u2 & F2 & Hu2 & Hdu2 & _); [done| |].
  { apply copy_recipients_run; rewrite ?Hdu1; [done| |].
    - intros ->. by rewrite <- Hfst in Hne.
    - rewrite Hfst. by eapply normalized_nodup. }
  destruct (execM_reliable (copy_sources (qr_queue_id q) (qr_sources q)) u2 tt
    (add_message (clock_now w) q rows (w_db w)))
    as (u3 & F3 & Hu3 & Hdu3 & _); [done| |].
  { rewrite copy_sources_run; rewrite ?Hdu2, ?Hdu1; [done..|].
    by eapply normalized_sources_nodup. }
  rewrite (bind_step _ _ u1 tt u3).
  2: { unfold copyQueueRecipients. rewrite (bind_step _ _ _ tt u2); [exact F3|].
       by rewrite (bind_step _ _ _ rows u1) by (by rewrite Hrows). }
  destruct (loadQueueRecord_reliable (qr_queue_id q) u3 Hu3) as (u4 & F4 & Hu4 & Hdu4 & _).
  rewrite Hdu3, Hload in F4. rewrite (bind_step _ _ _ _ _ F4), sameQueueIdentity_stamp.
  exists u4. by rewrite Hdu4, Hdu3.
Qed.

Lemma Register_again_lemma r q w stored :
  reliable w -> normalizeQueueRegistration r = Ok q ->
  load_pure (qr_queue_id q) (w_db w) = Ok stored -> sameQueueIdentity stored q = true ->
  exists w', Register r w = (Ok (stored, false), w') /\ reliable w' /\ w_db w' = w_db w.
Proof.
  intros Hw Hn Hload Hsame.
  unfold Register. rewrite (bind_step _ _ w q w) by (by rewrite Hn).
  destruct (nowM_reliable w Hw) as (w1 & E1 & Hw1 & Hd1 & _). rewrite (bind_step _ _ _ _ _ E1).
  apply transaction_reliable; [done|]. intros u Hu Hdu _ _ _. rewrite Hd1 in Hdu.
  unfold register_body.
  destruct (execM_reliable (insert_queue q (clock_now w)) u 0 (w_db u))
    as (u1 & F1 & Hu1 & Hdu1 & _); [done| |].
  { unfold insert_queue. unfold load_pure, select_queue in Hload. rewrite Hdu.
    by destruct (db_queues (w_db w) !! qr_queue_id q). }
  rewrite (bind_step _ _ _ _ _ F1). cbn [Nat.ltb Nat.leb Nat.eqb guardM].
  rewrite (bind_step _ _ _ tt u1), (bind_step _ _ _ tt u1) by done.
  destruct (loadQueueRecord_reliable (qr_queue_id q) u1 Hu1) as (u2 & F2 & Hu2 & Hdu2 & _).
  rewrite Hdu1, Hdu, Hload in F2. rewrite (bind_step _ _ _ _ _ F2), Hsame.
  exists u2. by rewrite Hdu2, Hdu1.
Qed.

(** Over a database that answers, a valid registration of a new queue ID
    returns the new pending record, loading it gives the same record back,
    and registering the same message again returns that record without
    writing anything. *)
Theorem Register_roundtrip r q w :
  reliable w -> no_orphans (w_db w) ->
  normalizeQueueRegistration r = Ok q ->
  Forall bounded_address (qr_envelope_sender q :: qr_recipients q) ->
  clock_now w <> 0%Z -> db_queues (w_db w) !! qr_queue_id q = None ->
  exists w1 w2 w3,
    Register r w = (Ok (stamp (clock_now w) q, true), w1)
    /\ Load (qr_queue_id q) w1 = (Ok (stamp (clock_now w) q), w2)
    /\ Register r w2 = (Ok (stamp (clock_now w) q, false), w3)
    /\ w_db w3 = w_db w1.
Proof.
  intros Hw Hor Hn Hb Ht Hnone.
  destruct (Register_creates_lemma r q w) as (w1 & rows & E1 & Hw1 & Hd1 & Hload); [done..|].
  destruct (loadQueueRecord_reliable (qr_queue_id q) w1 Hw1) as (w2 & E2 & Hw2 & Hd2 & _).
  rewrite Hload in E2. rewrite <- Hd2 in Hload.
  destruct (Register_again_lemma r q w2 _ Hw2 Hn Hload (sameQueueIdentity_stamp _ _))
    as (w3 & E3 & _ & Hd3).
  exists w1, w2, w3. split_and!; [done| |done|congruence].
  unfold Load. apply normalizeQueueRegistration_ok in Hn as (l & Hid & _ & _ & _ & _ & _ & _ & Hq).
  rewrite Hq at 1. simpl. rewrite Hid. by rewrite (bind_step _ _ _ tt w1).
Qed.
End RoundTrip.

Section RegisterSound.
Context `{HOST : !Host} {PS : Type}.
Implicit Types (w : World PS) (d : DB) (record : QueueRecord).

Lemma copy_recipients_queues queueID rows d u d' :
  copy_recipients queueID rows d = Ok (u, d') -> db_queues d' = db_queues d.
Proof.
  revert d. induction rows as [|[a dom] rows IH]; intros d; cbn [copy_recipients].
  { by intros [= _ <-]. }
  destruct (_ !! a); [done|]. intros H%IH. by rewrite H.
Qed.

Lemma copy_sources_queues queueID rows d u d' :
  copy_sources queueID rows d = Ok (u, d') -> db_queues d' = db_queues d.
Proof.
  revert d. induction rows as [|s rows IH]; intros d; cbn [copy_sources].
  { by intros [= _ <-]. }
  case_bool_decide; [done|]. intros H'%IH. by rewrite H'.
Qed.

Lemma load_pure_state queueID d q row :
  load_pure queueID d = Ok q -> db_queues d !! queueID = Some row ->
  qr_hold_state q = qw_hold_state row.
Proof.
  unfold load_pure, select_queue. intros H Hrow. rewrite Hrow in H. simpl in H.
  apply rbind_ok in H as (parent & Hp & H). apply rbind_ok in H as (rs & _ & H).
  apply rbind_ok in H as (ss & _ & H). apply load_parent_fields in Hp as (_ & <- & _).
  apply load_children_ok in H as (_ & _ & _ & _ & _ & _ & Heq). congruence.
Qed.

Lemma Register_ok r w stored created w' :
  Register r w = (Ok (stored, created), w') ->
  exists q, normalizeQueueRegistration r = Ok q
    /\ sameQueueIdentity stored q = true
    /\ load_pure (rg_queue_id r) (w_db w') = Ok stored
    /\ if created
       then db_queues (w_db w) !! rg_queue_id r = None /\ qr_hold_state stored = HoldPending
       else w_db w' = w_db w.
Proof.
  unfold Register. intros H.
  apply bind_ok in H as (q & ? & [Hn ->]%liftM_ok & H).
  apply bind_ok in H as (now & w1 & Ht & H).
  destruct (nowM_run w) as (t & w1' & Et & Hd1 & _). rewrite Et in Ht. simplify_eq.
  apply transaction_ok in H as (u & c & u' & H & Hu & _ & _ & Hw'). rewrite Hd1 in Hu, Hw'.
  unfold register_body in H.
  apply bind_ok in H as (n & u1 & [Hins _]%execM_ok & H).
  apply bind_ok in H as ([] & ? & [_ ->]%guardM_ok & H).
  apply bind_ok in H as ([] & u2 & Hcopy & H).
  apply bind_ok in H as (q' & u3 & (Hload & Hdl & _)%loadQueueRecord_ok & H).
  apply bind_ok in H as ([] & ? & [Hsame ->]%guardM_ok & H).
  injection H as <- <- <- <-. to_prop.
  rewrite <- (normalize_queue_id _ _ Hn). exists q. rewrite Hw', Hdl.
  split_and!; [done..|]. rewrite Hu in Hins. unfold insert_queue in Hins.
  destruct (db_queues (w_db w) !! qr_queue_id q) eqn:Eq.
  - injection Hins as <- Hins. injection Hcopy as <-. done.
  - destruct (queue_row_check _); [|done]. injection Hins as <- Hins.
    cbn [Nat.eqb] in *. split; [done|]. unfold copyQueueRecipients, copyQueueSources in Hcopy.
    apply bind_ok in Hcopy as ([] & u4 & Hr & [Hs _]%execM_ok).
    apply bind_ok in Hr as (rows & ? & [_ ->]%liftM_ok & [Hr _]%execM_ok).
    apply copy_recipients_queues in Hr. apply copy_sources_queues in Hs.
    erewrite (load_pure_state _ _ _ _ Hload); [|rewrite Hs, Hr, <- Hins; simpl;
      apply lookup_insert_eq]. done.
Qed.

(** Whatever fails on the way, a registration that reports success has
    committed: the returned record is the stored one and carries the
    requested identity; a record reported as created was absent before and
    is pending; otherwise the database is the one it found. *)
Theorem Register_sound r w stored created w' :
  Register r w = (Ok (stored, created), w') ->
  exists q, normalizeQueueRegistration r = Ok q
    /\ sameQueueIdentity stored q = true
    /\ load_pure (rg_queue_id r) (w_db w') = Ok stored
    /\ if created
       then db_queues (w_db w) !! rg_queue_id r = None /\ qr_hold_state stored = HoldPending
       else w_db w' = w_db w.
Proof. apply Register_ok. Qed.
End RegisterSound.

Lemma keeps_loadQueueRecord `{HOST : !Host} {PS : Type} queueID :
  keeps_ext (PS := PS) (loadQueueRecord queueID).
Proof. unfold loadQueueRecord. solve_keeps. Qed.
#[export] Hint Resolve keeps_loadQueueRecord : effects.
