(* ===== verification/Sources.v ===== *)
(** * Authority resolution (internal/outboundpolicy/decision.go:
      submissionSources, resolvePolicySources, mailboxObjectByAddress,
      systemSenderAddress)

    A caller supplies identities and object references; these functions turn
    them into the domains that govern a message, from the current tables.
    [policy_allows] states the promise of the whole policy directly on the
    tables, without [Evaluate]: every source of the message is an enabled
    object of an enabled domain, and a domain restricted to itself is the
    recipient's domain. *)

From stdpp Require Import base list gmap sets strings.
From Stdlib Require Import ZArith Lia Ascii.
From S2P Require Import Prelude GoStd Policy Queue Database QueueStore.

(** decision.go *)
Record EnforcementRequest := {
  er_stage : string;
  er_queue_id : string;
  er_authenticated_mailbox : string;
  er_system_sender_id : string;
  er_envelope_sender : string;
  er_recipient : string;
  er_expansion_sources : list QueueSource;
}.

Definition is_mailbox_kind (kind : string) : bool :=
  (kind =?s SourceAuthenticatedMailbox) || (kind =?s SourceEnvelopeSender).
Definition is_alias_kind (kind : string) : bool :=
  (kind =?s SourceAlias) || (kind =?s SourceForward) || (kind =?s SourceList)
  || (kind =?s SourceCatchAll).

(** ** The batch query *)

(** The LEFT JOINs of resolvePolicySources for one input row: the enablement
    and the domain identifier of the referenced object. *)
Definition source_object (d : DB) (source : QueueSource) : option (bool * string) :=
  if is_mailbox_kind (qs_kind source) then
    (fun m => (mb_enabled m, mb_domain_id m)) <$> db_mailboxes d !! qs_object_id source
  else if is_alias_kind (qs_kind source) then
    (fun a => (al_enabled a, al_domain_id a)) <$> db_aliases d !! qs_object_id source
  else if qs_kind source =?s SourceSystemSender then
    (fun y => (sy_enabled y, sy_domain_id y)) <$> db_senders d !! qs_object_id source
  else None.

(** (source_enabled, the columns of domains or NULL) *)
Definition policy_row (d : DB) (source : QueueSource) : bool * option DomainRow :=
  match source_object d source with
  | Some (enabled, domain_id) => (enabled, db_domains d !! domain_id)
  | None => (false, None)
  end.

Section Sources.
Context `{HOST : !Host}.

(** The body of the row loop. *)
Definition governing_of (row : bool * option DomainRow) : result GoverningDomain :=
  match row with
  | (sourceEnabled, Some dom) =>
      if negb sourceEnabled || negb (dm_enabled dom) || (dm_revision dom <=? 0)%Z
      then Err "outbound policy source is missing or disabled" else
      match NormalizeDomain (dm_name dom) with
      | Err _ => Err "outbound policy source state is invalid"
      | Ok canonical =>
          if (canonical <>?s dm_name dom) || negb (validScope (dm_scope dom))
          then Err "outbound policy source state is invalid"
          else Ok {| gd_domain := canonical; gd_scope := dm_scope dom;
                     gd_revision := Z.to_N (dm_revision dom) |}
      end
  | (_, None) => Err "outbound policy source is missing or disabled"
  end.

Context {PS : Type}.

Definition resolvePolicySources (sources : list QueueSource) : M PS (list GoverningDomain) :=
  guardM ((length sources =? 0) || (maxQueueSources <? length sources))
    "invalid outbound policy sources";;
  guardM (negb (forallb valid_source sources)) "invalid outbound policy source";;
  rows ← queryM (fun d => Ok (map (policy_row d) sources));
  governing ← liftM (rmap governing_of rows);
  guardM (negb (length governing =? length sources))
    "outbound policy source resolution was incomplete";;
  mret governing.

(** ** Authenticated authority *)

(** SELECT m.id::text,m.local_part,d.name FROM mailboxes m JOIN domains d ...
    WHERE lower(m.local_part)=lower($1) AND d.name=$2 AND m.enabled AND
    d.enabled ORDER BY m.id LIMIT 2.  The order decides nothing: two rows
    are refused. *)
Definition mailbox_row (d : DB) (local domain : string) (entry : string * MailboxRow)
    : option (string * string * string) :=
  let (id, m) := entry in
  dom ← db_domains d !! mb_domain_id m;
  if (sql_lower (mb_local_part m) =?s sql_lower local) && (dm_name dom =?s domain)
     && mb_enabled m && dm_enabled dom
  then Some (id, mb_local_part m, dm_name dom) else None.

Definition mailbox_rows (local domain : string) (d : DB) : list (string * string * string) :=
  take 2 (omap (mailbox_row d local domain) (map_to_list (db_mailboxes d))).

(** The canonical address and the object ID. *)
Definition mailboxObjectByAddress (rawAddress : string) : M PS (string * string) :=
  address ← liftM (relabel "invalid authenticated mailbox" (normalizeQueueRecipient rawAddress));
  let local := match SplitLastByte "@" address.1 with Some (l, _) => l | None => "" end in
  rows ← queryM (fun d => Ok (mailbox_rows local address.2 d));
  match rows with
  | [(id, storedLocal, storedDomain)] =>
      mret (ToLower storedLocal +:+ "@" +:+ storedDomain, id)
  | _ => failM "authenticated mailbox is missing or ambiguous"
  end.

(** SELECT y.address FROM outbound_system_senders y JOIN domains d ...
    WHERE y.id=$1 AND y.enabled AND d.enabled. *)
Definition sender_address (id : string) (d : DB) : result string :=
  match db_senders d !! id with
  | Some y =>
      match db_domains d !! sy_domain_id y with
      | Some dom => if sy_enabled y && dm_enabled dom then Ok (sy_address y)
                    else Err "system sender identity not found"
      | None => Err "system sender identity not found"
      end
  | None => Err "system sender identity not found"
  end.

Definition systemSenderAddress (id : string) : M PS string :=
  guardM (negb (validQueueObjectID id)) "invalid system sender identity";;
  address ← queryM (sender_address id);
  match normalizeQueueRecipient address with
  | Ok (canonical, _) => if canonical =?s address then mret address
                         else failM "stored system sender identity is invalid"
  | Err _ => failM "stored system sender identity is invalid"
  end.

Definition submissionSources (req : EnforcementRequest) : M PS (list QueueSource) :=
  guardM ((er_queue_id req <>?s "")
          || Bool.eqb (er_authenticated_mailbox req =?s "") (er_system_sender_id req =?s "")
          || (maxQueueSources - 2 <? length (er_expansion_sources req)))
    "invalid submission authority";;
  envelope ← (if er_envelope_sender req <>?s "<>"
              then address ← liftM (relabel "invalid admitted envelope sender"
                                      (normalizeQueueRecipient (er_envelope_sender req)));
                   mret address.1
              else mret (er_envelope_sender req));
  sources ← (if er_authenticated_mailbox req <>?s ""
             then mailbox ← mailboxObjectByAddress (er_authenticated_mailbox req);
                  guardM (negb (EqualFold mailbox.1 envelope))
                    "envelope sender is not bound to authenticated mailbox";;
                  mret [{| qs_kind := SourceAuthenticatedMailbox; qs_object_id := mailbox.2 |};
                        {| qs_kind := SourceEnvelopeSender; qs_object_id := mailbox.2 |}]
             else boundAddress ← systemSenderAddress (er_system_sender_id req);
                  guardM ((envelope <>?s "<>") && negb (EqualFold boundAddress envelope))
                    "envelope sender is not bound to system sender";;
                  mret [{| qs_kind := SourceSystemSender;
                           qs_object_id := er_system_sender_id req |}]);
  guardM (negb (forallb (fun source => is_alias_kind (qs_kind source)
                                       && validQueueObjectID (qs_object_id source))
                  (er_expansion_sources req)))
    "invalid expansion source";;
  mret (sources ++ er_expansion_sources req).
End Sources.

(** ** The promise of the policy *)

Section Promise.
Context `{HOST : !Host}.
Implicit Types (d : DB) (s : QueueSource).

(** The domain that governs a source: its object is enabled, and so is the
    domain, whose stored state is well formed. *)
Definition governed_by d s (dom : DomainRow) : Prop :=
  exists domain_id, source_object d s = Some (true, domain_id)
    /\ db_domains d !! domain_id = Some dom /\ dm_enabled dom = true
    /\ NormalizeDomain (dm_name dom) = Ok (dm_name dom)
    /\ validScope (dm_scope dom) = true /\ (0 < dm_revision dom)%Z.

(** Mail from these sources may reach this recipient. *)
Definition policy_allows d (sources : list QueueSource) (recipient : string) : Prop :=
  exists rcpt, recipientDomain recipient = Ok rcpt
    /\ forall s, s ∈ sources -> exists dom, governed_by d s dom
         /\ (dm_scope dom = ScopeSameDomainOnly -> dm_name dom = rcpt).

Definition governing_entry (dom : DomainRow) : GoverningDomain :=
  {| gd_domain := dm_name dom; gd_scope := dm_scope dom;
     gd_revision := Z.to_N (dm_revision dom) |}.

Lemma governing_of_ok d s g :
  governing_of (policy_row d s) = Ok g <->
  exists dom, governed_by d s dom /\ g = governing_entry dom.
Proof.
  unfold policy_row, governed_by. destruct (source_object d s) as [[en did]|].
  2: { simpl. split; [done|]. by intros (dom & (? & ? & _) & _). }
  simpl. destruct (db_domains d !! did) as [dom|] eqn:Ed.
  2: { split; [done|]. intros (dom & (did' & [= _ <-] & ? & _) & _). congruence. }
  split.
  - intros H. go_inv H. to_prop. destruct_and!.
    match goal with E : NormalizeDomain _ = Ok ?c, E2 : ?c = dm_name dom |- _ =>
      rewrite E2 in * end.
    exists dom. split; [|done]. exists did. by split_and!; first [done|congruence].
  - intros (dom' & (did' & [= -> <-] & Hd & He & Hn & Hs & Hr) & ->).
    rewrite Ed in Hd. injection Hd as <-. rewrite He, Hn, Hs, eqs_refl.
    destruct (dm_revision dom <=? 0)%Z eqn:E; to_prop; [lia|]. done.
Qed.

Lemma governs_entry d s dom :
  governed_by d s dom -> governs (governing_entry dom) (dm_name dom).
Proof.
  intros (did & _ & _ & _ & Hn & Hs & Hr). split_and!; [done| |done]. simpl. lia.
Qed.

Definition resolves d (sources : list QueueSource) (l : list GoverningDomain) : Prop :=
  Forall2 (fun s g => exists dom, governed_by d s dom /\ g = governing_entry dom) sources l.

Context {PS : Type}.
Implicit Types (w : World PS).

Lemma resolve_pure d sources l :
  rmap governing_of (map (policy_row d) sources) = Ok l <-> resolves d sources l.
Proof.
  rewrite rmap_ok. unfold resolves. rewrite Forall2_fmap_l.
  split; intros H; (eapply Forall2_impl; [exact H|]); intros s g; apply governing_of_ok.
Qed.

Lemma resolvePolicySources_ok sources w l w' :
  resolvePolicySources sources w = (Ok l, w') ->
  resolves (w_db w) sources l /\ w_db w' = w_db w /\ w_ext w' = w_ext w
  /\ 0 < length sources <= maxQueueSources.
Proof.
  unfold resolvePolicySources. intros H.
  apply bind_ok in H as ([] & ? & [Hn ->]%guardM_ok & H).
  apply bind_ok in H as ([] & ? & [_ ->]%guardM_ok & H).
  apply bind_ok in H as (rows & w1 & (Hr & D1 & X1)%queryM_ok & H). injection Hr as <-.
  apply bind_ok in H as (g & ? & [Hg%resolve_pure ->]%liftM_ok & H).
  apply bind_ok in H as ([] & ? & [_ ->]%guardM_ok & H). injection H as <- <-.
  to_prop. split_and!; [done..|lia|lia].
Qed.

(** [Evaluate] over resolved sources decides [policy_allows]. *)
Lemma resolved_permits d sources l rcpt :
  resolves d sources l -> permits l rcpt <->
  forall s, s ∈ sources -> exists dom, governed_by d s dom
    /\ (dm_scope dom = ScopeSameDomainOnly -> dm_name dom = rcpt).
Proof.
  intros Hres. unfold resolves in Hres. split.
  - intros Hp s Hs. apply list_elem_of_lookup in Hs as [i Hi].
    destruct (Forall2_lookup_l _ _ _ _ _ Hres Hi) as (g & Hg & dom & Hdom & ->).
    exists dom. split; [done|]. intros Hsc. apply (Hp _ (Z.to_N (dm_revision dom))).
    exists (governing_entry dom). split_and!; [|by eapply governs_entry|done|done].
    by apply list_elem_of_lookup_2 in Hg.
  - intros Hall dm r (g & Hg & Hgov & Hsc & _).
    apply list_elem_of_lookup in Hg as [i Hi].
    destruct (Forall2_lookup_r _ _ _ _ _ Hres Hi) as (s & Hs & dom & Hdom & ->).
    destruct (Hall s) as (dom' & Hdom' & Hsc'); [by apply list_elem_of_lookup_2 in Hs|].
    assert (dom' = dom) as ->.
    { destruct Hdom as (did & H1 & H2 & _), Hdom' as (did' & H1' & H2' & _). congruence. }
    rewrite <- (Hsc' Hsc). eapply governs_inj; [exact Hgov|]. by eapply governs_entry.
Qed.

Lemma Evaluate_allows d sources l stage queueID recipient :
  resolves d sources l ->
  d_action (Evaluate {| rq_stage := stage; rq_queue_id := queueID;
                        rq_recipient := recipient; rq_governing := l |}) = ActionOK ->
  policy_allows d sources recipient.
Proof.
  intros Hres (rcpt & (_ & _ & Hr & _) & Hp)%Evaluate_ok_lemma. simpl in *.
  exists rcpt. split; [done|]. by apply (resolved_permits d sources l).
Qed.

(** The schema's UNIQUE constraint on domain names. *)
Definition unique_names d : Prop :=
  forall i j a b, db_domains d !! i = Some a -> db_domains d !! j = Some b ->
    dm_name a = dm_name b -> i = j.

Lemma resolves_elem d sources l g :
  resolves d sources l -> g ∈ l ->
  exists s dom, s ∈ sources /\ governed_by d s dom /\ g = governing_entry dom.
Proof.
  intros Hres [i Hi]%list_elem_of_lookup.
  destruct (Forall2_lookup_r _ _ _ _ _ Hres Hi) as (s & Hs & dom & Hdom & ->).
  exists s, dom. split_and!; [|done..]. by apply list_elem_of_lookup_2 in Hs.
Qed.

Lemma resolves_coherent d sources l :
  unique_names d -> resolves d sources l -> coherent l.
Proof.
  intros Hu Hres. split.
  - intros g (s & dom & _ & Hdom & ->)%(resolves_elem _ _ _ _ Hres).
    exists (dm_name dom). by eapply governs_entry.
  - intros g1 g2 dm (s1 & d1 & _ & H1 & ->)%(resolves_elem _ _ _ _ Hres)
      (s2 & d2 & _ & H2 & ->)%(resolves_elem _ _ _ _ Hres) G1 G2.
    assert (dm_name d1 = dm_name d2) as Hn.
    { rewrite <- (governs_inj _ _ _ G1 (governs_entry _ _ _ H1)).
      apply (governs_inj _ _ _ G2 (governs_entry _ _ _ H2)). }
    destruct H1 as (i1 & _ & L1 & _), H2 as (i2 & _ & L2 & _).
    assert (i1 = i2) as -> by (by eapply Hu). by assert (d1 = d2) as -> by congruence.
Qed.

(** The converse of [Evaluate_allows]: what the policy allows is not
    refused. *)
Lemma Evaluate_allowed d sources l stage queueID recipient :
  unique_names d -> resolves d sources l -> 0 < length sources <= maxQueueSources ->
  (stage = StageSubmission \/ stage = StageTransport /\ validLongQueueID queueID = true) ->
  policy_allows d sources recipient ->
  d_action (Evaluate {| rq_stage := stage; rq_queue_id := queueID;
                        rq_recipient := recipient; rq_governing := l |}) = ActionOK.
Proof.
  intros Hu Hres Hlen Hst (rcpt & Hr & Hall). apply Evaluate_ok_lemma. exists rcpt.
  split; [|by apply (resolved_permits d sources l)]. split_and!; simpl; [done| | |done|].
  - rewrite <- (Forall2_length _ _ _ Hres). lia.
  - rewrite <- (Forall2_length _ _ _ Hres). unfold maxQueueSources, maxGoverningDomains in *. lia.
  - by eapply resolves_coherent.
Qed.

Lemma resolves_total d sources :
  (forall s, s ∈ sources -> exists dom, governed_by d s dom) -> exists l, resolves d sources l.
Proof.
  induction sources as [|s sources IH]; intros H; [by exists []; constructor|].
  destruct (H s) as [dom Hdom]; [left|].
  destruct IH as [l Hl]; [intros s' ?; apply H; by right|].
  exists (governing_entry dom :: l). constructor; [by exists dom|done].
Qed.

Lemma queryM_reliable {A} (q : DB -> result A) w :
  reliable w -> exists w', queryM q w = (q (w_db w), w') /\ reliable w'
    /\ w_db w' = w_db w /\ w_clock w' = w_clock w /\ w_entropy w' = w_entropy w
    /\ w_ext w' = w_ext w.
Proof.
  intros (w1 & E & Hr & Hd & Hc & He & Hx)%next_outcome_reliable.
  exists w1. unfold queryM. by rewrite E, Hd.
Qed.

Lemma resolvePolicySources_reliable sources w l :
  reliable w -> 0 < length sources <= maxQueueSources ->
  forallb valid_source sources = true -> resolves (w_db w) sources l ->
  exists w', resolvePolicySources sources w = (Ok l, w') /\ reliable w'
    /\ w_db w' = w_db w /\ w_clock w' = w_clock w /\ w_entropy w' = w_entropy w
    /\ w_ext w' = w_ext w.
Proof.
  intros Hw Hn Hv Hres. unfold resolvePolicySources.
  rewrite (bind_step _ _ _ tt w).
  2: { apply guardM_ok. split; [|done]. apply orb_false_iff. to_prop. lia. }
  rewrite (bind_step _ _ _ tt w) by (by rewrite Hv).
  destruct (queryM_reliable (fun d => Ok (map (policy_row d) sources)) w Hw)
    as (w1 & E1 & Hw1 & D1 & Hrest).
  rewrite (bind_step _ _ _ _ _ E1), (bind_step _ _ _ l w1).
  2: { apply liftM_ok. split; [by apply resolve_pure|done]. }
  rewrite <- (Forall2_length _ _ _ Hres), Nat.eqb_refl. by exists w1.
Qed.
End Promise.

(** ** Submission authority *)

Section Authority.
Context `{HOST : !Host} {PS : Type}.
Implicit Types (d : DB) (w : World PS) (req : EnforcementRequest).

(** The envelope sender of a request in canonical form. *)
Definition envelope_is req (envelope : string) : Prop :=
  if er_envelope_sender req =?s "<>" then envelope = "<>"
  else exists dom, normalizeQueueRecipient (er_envelope_sender req) = Ok (envelope, dom).

(** Object [id] is the enabled mailbox of the authenticated address, and the
    envelope sender is that mailbox. *)
Definition bound_mailbox d req (envelope id : string) : Prop :=
  exists m dom address,
    db_mailboxes d !! id = Some m /\ mb_enabled m = true
    /\ db_domains d !! mb_domain_id m = Some dom /\ dm_enabled dom = true
    /\ normalizeQueueRecipient (er_authenticated_mailbox req) = Ok (address, dm_name dom)
    /\ sql_lower (mb_local_part m)
       = sql_lower match SplitLastByte "@" address with Some (l, _) => l | None => "" end
    /\ EqualFold (ToLower (mb_local_part m) +:+ "@" +:+ dm_name dom) envelope = true.

(** The system sender is enabled, in an enabled domain, and the envelope
    sender is null or its stored address. *)
Definition bound_sender d req (envelope : string) : Prop :=
  exists y dom,
    db_senders d !! er_system_sender_id req = Some y /\ sy_enabled y = true
    /\ db_domains d !! sy_domain_id y = Some dom /\ dm_enabled dom = true
    /\ (envelope = "<>" \/ EqualFold (sy_address y) envelope = true).

Definition mailbox_sources (id : string) : list QueueSource :=
  [{| qs_kind := SourceAuthenticatedMailbox; qs_object_id := id |};
   {| qs_kind := SourceEnvelopeSender; qs_object_id := id |}].

(** What the request authenticates as. *)
Definition authority d req (envelope : string) (sources : list QueueSource) : Prop :=
  (er_authenticated_mailbox req <> "" /\ er_system_sender_id req = ""
   /\ exists id, bound_mailbox d req envelope id /\ sources = mailbox_sources id)
  \/ (er_authenticated_mailbox req = "" /\ er_system_sender_id req <> ""
      /\ bound_sender d req envelope
      /\ sources = [{| qs_kind := SourceSystemSender;
                       qs_object_id := er_system_sender_id req |}]).

Lemma mailboxObjectByAddress_ok raw w address id w' :
  mailboxObjectByAddress raw w = (Ok (address, id), w') ->
  w_db w' = w_db w /\ w_ext w' = w_ext w
  /\ exists m dom canonical,
       db_mailboxes (w_db w) !! id = Some m /\ mb_enabled m = true
       /\ db_domains (w_db w) !! mb_domain_id m = Some dom /\ dm_enabled dom = true
       /\ normalizeQueueRecipient raw = Ok (canonical, dm_name dom)
       /\ sql_lower (mb_local_part m)
          = sql_lower match SplitLastByte "@" canonical with Some (l, _) => l | None => "" end
       /\ address = ToLower (mb_local_part m) +:+ "@" +:+ dm_name dom.
Proof.
  unfold mailboxObjectByAddress. intros H.
  apply bind_ok in H as ([canonical domain] & ? & [Hn%relabel_ok ->]%liftM_ok & H).
  cbn [fst snd] in H. cbv zeta in H.
  apply bind_ok in H as (rows & w1 & (Hr & D1 & X1)%queryM_ok & H). injection Hr as Hr.
  destruct rows as [|[[id' local'] dom'] [|? ?]]; [done| |done].
  injection H as <- <- <-. split_and!; [done..|].
  assert ((id', local', dom') ∈ mailbox_rows match SplitLastByte "@" canonical with
    | Some (l, _) => l | None => "" end domain (w_db w)) as Hin by (rewrite Hr; left).
  unfold mailbox_rows in Hin. apply elem_of_take in Hin as (i & Hi & _).
  apply list_elem_of_lookup_2, list_elem_of_omap in Hi as ([id2 m] & Hm & Hrow).
  apply elem_of_map_to_list in Hm. unfold mailbox_row in Hrow.
  apply bind_Some in Hrow as (dom & Hdom & Hrow).
  destruct (_ && _) eqn:E; [|done]. injection Hrow as <- <- <-. to_prop.
  destruct_and!. exists m, dom, canonical. split_and!; congruence || done.
Qed.

Lemma systemSenderAddress_ok id w address w' :
  systemSenderAddress id w = (Ok address, w') ->
  w_db w' = w_db w /\ w_ext w' = w_ext w
  /\ exists y dom, db_senders (w_db w) !! id = Some y /\ sy_enabled y = true
       /\ db_domains (w_db w) !! sy_domain_id y = Some dom /\ dm_enabled dom = true
       /\ address = sy_address y.
Proof.
  unfold systemSenderAddress. intros H.
  apply bind_ok in H as ([] & ? & [_ ->]%guardM_ok & H).
  apply bind_ok in H as (a & w1 & (Hq & D1 & X1)%queryM_ok & H).
  assert (address = a /\ w' = w1) as [-> ->].
  { destruct (normalizeQueueRecipient a) as [[c d']|]; [|done].
    destruct (c =?s a); [|done]. by injection H. }
  unfold sender_address in Hq.
  destruct (db_senders (w_db w) !! id) as [y|] eqn:Ey; [|done].
  destruct (db_domains (w_db w) !! sy_domain_id y) as [dom|] eqn:Ed; [|done].
  destruct (_ && _) eqn:E; [|done]. injection Hq as <-. to_prop. destruct E.
  split_and!; [done..|]. by exists y, dom.
Qed.

Lemma submissionSources_ok req w sources w' :
  submissionSources req w = (Ok sources, w') ->
  w_db w' = w_db w /\ w_ext w' = w_ext w
  /\ exists envelope bound, envelope_is req envelope
       /\ authority (w_db w) req envelope bound
       /\ sources = bound ++ er_expansion_sources req
       /\ forall s, s ∈ er_expansion_sources req -> is_alias_kind (qs_kind s) = true.
Proof.
  unfold submissionSources. intros H.
  apply bind_ok in H as ([] & ? & [Hg ->]%guardM_ok & H).
  apply bind_ok in H as (envelope & w1 & Henv & H).
  apply bind_ok in H as (bound & w2 & Hb & H).
  apply bind_ok in H as ([] & ? & [Hx ->]%guardM_ok & H). injection H as <- <-.
  assert (w1 = w /\ envelope_is req envelope) as [-> He].
  { unfold envelope_is. destruct (er_envelope_sender req =?s "<>") eqn:E; cbn [negb] in Henv.
    - injection Henv as <- <-. by apply eqs_true in E.
    - apply bind_ok in Henv as ([a dom] & ? & [Hn%relabel_ok ->]%liftM_ok & Henv).
      injection Henv as <- <-. split; [done|by exists dom]. }
  apply orb_false_iff in Hg as [Hg _]. apply orb_false_iff in Hg as [_ Hg].
  assert (w_db w2 = w_db w /\ w_ext w2 = w_ext w /\ authority (w_db w) req envelope bound)
    as (D & X & Hauth).
  { unfold authority. destruct (er_authenticated_mailbox req =?s "") eqn:Em; cbn [negb] in Hb;
      destruct (er_system_sender_id req =?s "") eqn:Ey; try done; to_prop.
    - apply bind_ok in Hb as (a & w3 & (D & X & y & dom & ? & ? & ? & ? & ->)%systemSenderAddress_ok & Hb).
      apply bind_ok in Hb as ([] & ? & [Hf ->]%guardM_ok & Hb). injection Hb as <- <-.
      split_and!; [done..|]. right. split_and!; [done..| |done]. exists y, dom.
      split_and!; [done..|]. to_prop. destruct Hf; [by left|by right].
    - apply bind_ok in Hb as ([a id] & w3 & (D & X & m & dom & c & ? & ? & ? & ? & ? & ? & ->)%mailboxObjectByAddress_ok & Hb).
      apply bind_ok in Hb as ([] & ? & [Hf ->]%guardM_ok & Hb). injection Hb as <- <-.
      split_and!; [done..|]. left. split_and!; [done..|]. exists id. split; [|done].
      exists m, dom, c. apply negb_false_iff in Hf. done. }
  split_and!; [done..|]. exists envelope, bound. split_and!; [done..|].
  intros s Hs. apply negb_false_iff in Hx. rewrite forallb_forall in Hx.
  specialize (Hx s (proj1 (list_elem_of_In _ _) Hs)). by apply andb_true_iff in Hx as [? _].
Qed.
End Authority.

#[export] Hint Extern 1 (effect _ (resolvePolicySources _)) =>
  unfold resolvePolicySources; solve_effect : effects.

Lemma keeps_resolvePolicySources `{HOST : !Host} {PS : Type} sources :
  keeps_ext (PS := PS) (resolvePolicySources sources).
Proof. unfold resolvePolicySources. solve_keeps. Qed.
#[export] Hint Resolve keeps_resolvePolicySources : effects.
