(* ===== verification/Admission.v ===== *)
(** * Alias expansion and queue admission
      (internal/outboundpolicy/admission.go)

    A recipient is expanded through the alias tables: [loadExpansionAliases]
    fetches the reachable part of the alias graph layer by layer, and
    [walkExpansionGraph] collects its leaves and the aliases on the way,
    refusing cycles.  Both loops carry the bounds of the source (64 layers,
    depth 64), which make them structurally recursive here. *)

From stdpp Require Import base list gmap sets strings sorting relations.
From Stdlib Require Import ZArith Lia Ascii.
From S2P Require Import Prelude GoStd Policy Queue Database QueueStore Sources.

Record QueueDelivery := { qd_original : string; qd_recipient : string }.

Record QueueAdmissionRequest := {
  qa_metadata : QueueMetadata;
  qa_authenticated_mailbox : string;
  qa_system_sender_id : string;
  qa_deliveries : list QueueDelivery;
}.

Record expansionAlias := {
  ea_id : string; ea_address : string; ea_targets : list string; ea_kind : string;
}.

Definition maxExpansionAliases : nat := maxQueueSources.

(** PostgreSQL's split_part(s,'@',1) and split_part(s,'@',2). *)
Definition split_part1 (s : string) : string :=
  match SplitFirstByte "@" s with Some (l, _) => l | None => s end.
Definition split_part2 (s : string) : string :=
  match SplitFirstByte "@" s with
  | Some (_, r) => match SplitFirstByte "@" r with Some (m, _) => m | None => r end
  | None => ""
  end.

(** A row of the expansion query: id, input address, local part, domain name,
    targets. *)
Record ExpansionRow := {
  xr_id : string; xr_address : string; xr_local : string; xr_domain : string;
  xr_targets : string;
}.

Definition too_many (n : nat) : bool := (maxQueueRecipients <? N.of_nat n)%N.

Section Expansion.
Context `{HOST : !Host}.

(** ** The query *)

(** An enabled alias of the domain with this local part. *)
Definition exact_alias (d : DB) (domain_id local : string) : bool :=
  existsb (fun p => (al_domain_id p.2 =?s domain_id) && al_enabled p.2
                    && (sql_lower (al_local_part p.2) =?s sql_lower local))
    (map_to_list (db_aliases d)).
Definition exact_mailbox (d : DB) (domain_id local : string) : bool :=
  existsb (fun p => (mb_domain_id p.2 =?s domain_id) && mb_enabled p.2
                    && (sql_lower (mb_local_part p.2) =?s sql_lower local))
    (map_to_list (db_mailboxes d)).

(** The join of one input address with one alias. *)
Definition expansion_row (d : DB) (address : string) (entry : string * AliasRow)
    : option ExpansionRow :=
  let (id, a) := entry in
  dom ← db_domains d !! al_domain_id a;
  let local := split_part1 address in
  if (dm_name dom =?s split_part2 address)
     && ((sql_lower (al_local_part a) =?s sql_lower local)
         || (al_local_part a =?s "*") && negb (exact_alias d (al_domain_id a) local)
            && negb (exact_mailbox d (al_domain_id a) local))
     && al_enabled a && dm_enabled dom
  then Some {| xr_id := id; xr_address := address; xr_local := al_local_part a;
               xr_domain := dm_name dom; xr_targets := al_targets_json a |}
  else None.

Definition rows_for (d : DB) (address : string) : list ExpansionRow :=
  omap (expansion_row d address) (map_to_list (db_aliases d)).

(** ORDER BY i.address,a.id *)
Definition row_le (x y : ExpansionRow) : Prop :=
  if xr_address x =?s xr_address y then String.le (xr_id x) (xr_id y)
  else Is_true (sql_leb (xr_address x) (xr_address y)).
#[global] Instance row_le_dec : RelDecision row_le.
Proof. intros x y. unfold row_le. destruct (_ =?s _); apply _. Defined.

Definition expansion_rows (batch : list string) (d : DB) : list ExpansionRow :=
  merge_sort row_le (concat (map (rows_for d) batch)).

(** ** Rows to aliases *)

Definition classifyExpansionSource (local domain : string) (targets : list string) : string :=
  if local =?s "*" then SourceCatchAll else
  if 1 <? length targets then SourceList else
  match targets with
  | [target] =>
      match normalizeQueueRecipient target with
      | Ok (_, targetDomain) => if targetDomain <>?s domain then SourceForward else SourceAlias
      | Err _ => SourceAlias
      end
  | _ => SourceAlias
  end.

Definition scanExpansionAlias (row : ExpansionRow) : result expansionAlias :=
  match normalizeQueueRecipient (xr_address row) with
  | Err _ => Err "stored outbound alias is invalid"
  | Ok (address, _) =>
      if (address <>?s xr_address row) || negb (validQueueObjectID (xr_id row))
         || ((xr_local row <>?s "*")
             && (address <>?s ToLower (xr_local row) +:+ "@" +:+ xr_domain row))
      then Err "stored outbound alias is invalid" else
      match json_strings (xr_targets row) with
      | None => Err "stored outbound alias targets are invalid"
      | Some targets =>
          if (length targets =? 0) || too_many (length targets)
          then Err "stored outbound alias targets are invalid" else
          let! canonical := relabel "stored outbound alias target is invalid"
                              (normalize_recipients targets) in
          Ok {| ea_id := xr_id row; ea_address := address; ea_targets := canonical;
                ea_kind := classifyExpansionSource (xr_local row) (xr_domain row) canonical |}
      end
  end.

(** ** loadExpansionAliases *)

(** The row loop: the aliases so far and the next frontier. *)
Fixpoint scan_rows (rows : list ExpansionRow) (aliases : gmap string expansionAlias)
    (next : list string) : result (gmap string expansionAlias * list string) :=
  match rows with
  | [] => Ok (aliases, next)
  | row :: rows =>
      if maxExpansionAliases <=? size aliases then Err "outbound alias graph limit exceeded" else
      let! alias := scanExpansionAlias row in
      match aliases !! ea_address alias with
      | Some _ => Err "ambiguous outbound alias state"
      | None => scan_rows rows (<[ea_address alias := alias]> aliases) (next ++ ea_targets alias)
      end
  end.

Context {PS : Type}.

(** The layer loop; [remaining] is [maxQueueSources - depth].  The batch
    is a Go map, whose order the query removes. *)
Fixpoint load_layers (remaining : nat) (aliases : gmap string expansionAlias)
    (seen : gset string) (frontier : list string) : M PS (gmap string expansionAlias) :=
  match frontier with
  | [] => mret aliases
  | _ =>
      match remaining with
      | O => failM "outbound alias expansion depth exceeded"
      | S remaining =>
          let batch := list_to_set frontier ∖ seen in
          let seen := batch ∪ seen in
          if size batch =? 0 then mret aliases else
          if too_many (size seen) then failM "outbound alias expansion fan-out exceeded" else
          rows ← queryM (fun d => Ok (expansion_rows (elements batch) d));
          scanned ← liftM (scan_rows rows aliases []);
          load_layers remaining scanned.1 seen scanned.2
      end
  end.

Definition loadExpansionAliases (originals : list string)
    : M PS (gmap string expansionAlias) :=
  load_layers maxQueueSources ∅ ∅ originals.

(** ** walkExpansionGraph *)

Definition alias_source (alias : expansionAlias) : QueueSource :=
  {| qs_kind := ea_kind alias; qs_object_id := ea_id alias |}.

(** [remaining] is [maxQueueSources - depth].  The maps the source shares by
    reference are threaded; [active] is restored on return, so it is passed
    down only. *)
Fixpoint walkExpansionGraph (remaining : nat) (aliases : gmap string expansionAlias)
    (current : string) (active : gset string) (leaves : gset string)
    (sources : gmap string QueueSource) : result (gset string * gmap string QueueSource) :=
  match aliases !! current with
  | None =>
      let leaves := {[current]} ∪ leaves in
      if too_many (size leaves) then Err "outbound alias expansion fan-out exceeded"
      else Ok (leaves, sources)
  | Some alias =>
      match remaining with
      | O => Err "outbound alias expansion depth exceeded"
      | S remaining =>
          if bool_decide (current ∈ active) then Err "outbound alias expansion cycle" else
          let sources := <[source_key (alias_source alias) := alias_source alias]> sources in
          if maxQueueSources <? size sources then Err "outbound alias source limit exceeded" else
          (fix targets (l : list string) (leaves : gset string)
               (sources : gmap string QueueSource) : result (gset string * gmap string QueueSource) :=
             match l with
             | [] => Ok (leaves, sources)
             | target :: l =>
                 let! p := walkExpansionGraph remaining aliases target ({[current]} ∪ active)
                             leaves sources in
                 targets l p.1 p.2
             end) (ea_targets alias) leaves sources
      end
  end.

(** ** expandOriginal *)

Definition object_le (x y : QueueSource) : Prop :=
  String.le (qs_object_id x) (qs_object_id y).
#[global] Instance object_le_dec : RelDecision object_le.
Proof. intros x y. unfold object_le. apply _. Defined.

(** The values of the source set, sorted by object ID. *)
Definition sorted_sources (sources : gmap string QueueSource) : list QueueSource :=
  merge_sort object_le (map_to_list sources).*2.

Definition expandOriginal (rawOriginal : string) : M PS (list string * list QueueSource) :=
  original ← liftM (relabel "invalid original recipient" (normalizeQueueRecipient rawOriginal));
  aliases ← loadExpansionAliases [original.1];
  walked ← liftM (walkExpansionGraph maxQueueSources aliases original.1 ∅ ∅ ∅);
  mret (sorted_set walked.1, sorted_sources walked.2).

(** ** resolveExpansionDeliveries *)

Definition canonical_delivery (delivery : QueueDelivery) : result QueueDelivery :=
  let! original := relabel "invalid original recipient"
                     (normalizeQueueRecipient (qd_original delivery)) in
  let! final := relabel "invalid expanded recipient"
                  (normalizeQueueRecipient (qd_recipient delivery)) in
  Ok {| qd_original := original.1; qd_recipient := final.1 |}.

Fixpoint delivery_sources (aliases : gmap string expansionAlias) (l : list QueueDelivery)
    (sourceSet : gmap string QueueSource) : result (gmap string QueueSource) :=
  match l with
  | [] => Ok sourceSet
  | delivery :: l =>
      if qd_original delivery =?s qd_recipient delivery
      then delivery_sources aliases l sourceSet else
      let! walked := walkExpansionGraph maxQueueSources aliases (qd_original delivery) ∅ ∅ ∅ in
      if negb (bool_decide (qd_recipient delivery ∈ walked.1))
      then Err "expanded recipient is not derived from authoritative aliases" else
      let merged := walked.2 ∪ sourceSet in
      if maxQueueSources <? size merged then Err "outbound alias source limit exceeded"
      else delivery_sources aliases l merged
  end.

Definition resolveExpansionDeliveries (deliveries : list QueueDelivery)
    : M PS (list QueueSource) :=
  canonical ← liftM (rmap canonical_delivery deliveries);
  aliases ← loadExpansionAliases (map qd_original canonical);
  sourceSet ← liftM (delivery_sources aliases canonical ∅);
  mret (sorted_sources sourceSet).

(** ** Admit *)

Definition validateQueueDeliveries (recipients : list string) (deliveries : list QueueDelivery)
    : result unit :=
  let! want := relabel "invalid inspected queue recipients"
                 (canonicalQueueRecipients recipients) in
  let! got := relabel "Postfix delivery recipients do not match inspected queue"
                (canonicalQueueRecipients (map qd_recipient deliveries)) in
  if bool_decide (got = want) then Ok tt
  else Err "Postfix delivery recipients do not match inspected queue".

(** The EnforcementRequest literal of [Admit]. *)
Definition authority_request (req : QueueAdmissionRequest) : EnforcementRequest :=
  {| er_stage := StageSubmission; er_queue_id := "";
     er_authenticated_mailbox := qa_authenticated_mailbox req;
     er_system_sender_id := qa_system_sender_id req;
     er_envelope_sender := qm_envelope_sender (qa_metadata req);
     er_recipient := match qa_deliveries req with
                     | delivery :: _ => qd_recipient delivery
                     | [] => ""
                     end;
     er_expansion_sources := [] |}.

(** The QueueRegistration literal. *)
Definition registration_request (req : QueueAdmissionRequest) (sources : list QueueSource)
    : QueueRegistration :=
  {| rg_queue_id := qm_queue_id (qa_metadata req);
     rg_arrival_fingerprint := qm_arrival_fingerprint (qa_metadata req);
     rg_envelope_sender := qm_envelope_sender (qa_metadata req);
     rg_recipients := qm_recipients (qa_metadata req);
     rg_sources := sources |}.

Definition Admit (req : QueueAdmissionRequest) : M PS (QueueRecord * bool) :=
  guardM (qm_held (qa_metadata req) || (length (qa_deliveries req) =? 0)
          || too_many (length (qa_deliveries req)))
    "invalid outbound queue admission request";;
  liftM (validateQueueDeliveries (qm_recipients (qa_metadata req)) (qa_deliveries req));;
  authority ←
    (if (qa_authenticated_mailbox req <>?s "") || (qa_system_sender_id req <>?s "")
     then submissionSources (authority_request req)
     else mret []);
  expansion ← resolveExpansionDeliveries (qa_deliveries req);
  guardM (length (authority ++ expansion) =? 0)
    "outbound queue has no authoritative local source";;
  Register (registration_request req (authority ++ expansion)).
End Expansion.

(** ** The alias graph *)

Section Walk.
Context `{HOST : !Host}.
Implicit Types (aliases : gmap string expansionAlias) (leaves active : gset string)
  (sources : gmap string QueueSource).

Definition edge aliases : relation string := fun x y =>
  exists a, aliases !! x = Some a /\ y ∈ ea_targets a.

Definition reach aliases : relation string := rtc (edge aliases).

(** The loop over the targets of one alias. *)
Definition walk_targets (remaining : nat) aliases active : list string -> gset string ->
    gmap string QueueSource -> result (gset string * gmap string QueueSource) :=
  fix targets l leaves sources :=
    match l with
    | [] => Ok (leaves, sources)
    | target :: l =>
        let! p := walkExpansionGraph remaining aliases target active leaves sources in
        targets l p.1 p.2
    end.

Lemma walk_alias remaining aliases current active leaves sources alias r :
  aliases !! current = Some alias ->
  walkExpansionGraph remaining aliases current active leaves sources = Ok r ->
  exists n, remaining = S n /\ (current ∉ active)
    /\ size (<[source_key (alias_source alias) := alias_source alias]> sources) <= maxQueueSources
    /\ walk_targets n aliases ({[current]} ∪ active) (ea_targets alias) leaves
         (<[source_key (alias_source alias) := alias_source alias]> sources) = Ok r.
Proof.
  intros Ha H. destruct remaining as [|n]; simpl in H; rewrite Ha in H; [done|].
  exists n. case_bool_decide; [done|]. destruct (_ <? _) eqn:E; [done|]. to_prop. done.
Qed.

Lemma walk_leaf remaining aliases current active leaves sources r :
  aliases !! current = None ->
  walkExpansionGraph remaining aliases current active leaves sources = Ok r ->
  r = ({[current]} ∪ leaves, sources).
Proof.
  intros Ha H. destruct remaining; simpl in H; rewrite Ha in H;
    (destruct (too_many _); [done|]); by injection H as <-.
Qed.

(** Sources are stored under their own key, and their kinds have no NUL. *)
Definition keyed sources : Prop :=
  forall k s, sources !! k = Some s -> k = source_key s /\ no_nul (qs_kind s).
Definition clean_aliases aliases : Prop :=
  forall x a, aliases !! x = Some a -> no_nul (ea_kind a).

(** The sources of a set. *)
Definition in_sources (s : QueueSource) sources : Prop := sources !! source_key s = Some s.

Lemma keyed_insert sources s :
  keyed sources -> no_nul (qs_kind s) -> keyed (<[source_key s := s]> sources).
Proof.
  intros Hk Hs k s'. rewrite lookup_insert. case_decide; [|apply Hk].
  intros [= <-]. by subst.
Qed.

Lemma in_sources_insert sources s s' :
  keyed sources -> no_nul (qs_kind s) -> no_nul (qs_kind s') ->
  in_sources s' (<[source_key s := s]> sources) <-> s' = s \/ in_sources s' sources.
Proof.
  intros Hk Hs Hs'. unfold in_sources. rewrite lookup_insert. case_decide as He.
  - unfold source_key in He. apply no_nul_app_inj in He as [E1 E2]; [|done..].
    destruct s, s'. simplify_eq/=. split; [by left|done].
  - split; [by right|]. intros [->|]; [done|done].
Qed.

(** What a successful walk from [current] has added, and that no alias on the
    way is active or on a cycle. *)
Record walked aliases current active leaves sources leaves' sources' : Prop := {
  wk_keyed : keyed sources';
  wk_leaves : forall y, y ∈ leaves' <->
    y ∈ leaves \/ (reach aliases current y /\ aliases !! y = None);
  wk_sources : forall s, no_nul (qs_kind s) -> in_sources s sources' <->
    in_sources s sources
    \/ exists x a, reach aliases current x /\ aliases !! x = Some a /\ s = alias_source a;
  wk_acyclic : forall x, reach aliases current x -> is_Some (aliases !! x) ->
    (x ∉ active) /\ ~ tc (edge aliases) x x;
}.

(** The same for a list of starting points. *)
Record walked_all aliases (l : list string) active leaves sources leaves' sources' : Prop := {
  wa_keyed : keyed sources';
  wa_leaves : forall y, y ∈ leaves' <->
    y ∈ leaves \/ exists t, t ∈ l /\ reach aliases t y /\ aliases !! y = None;
  wa_sources : forall s, no_nul (qs_kind s) -> in_sources s sources' <->
    in_sources s sources
    \/ exists t x a, t ∈ l /\ reach aliases t x /\ aliases !! x = Some a /\ s = alias_source a;
  wa_acyclic : forall t x, t ∈ l -> reach aliases t x -> is_Some (aliases !! x) ->
    (x ∉ active) /\ ~ tc (edge aliases) x x;
}.

Lemma walk_targets_walked n aliases active :
  (forall current leaves sources leaves' sources', keyed sources ->
     walkExpansionGraph n aliases current active leaves sources = Ok (leaves', sources') ->
     walked aliases current active leaves sources leaves' sources') ->
  forall l leaves sources leaves' sources', keyed sources ->
    walk_targets n aliases active l leaves sources = Ok (leaves', sources') ->
    walked_all aliases l active leaves sources leaves' sources'.
Proof.
  intros IH l. induction l as [|t l IHl]; intros leaves sources leaves' sources' Hk; simpl.
  - intros [= <- <-]. split; [done| | |]; set_solver.
  - intros H. apply rbind_ok in H as ([lv1 src1] & H1 & H). simpl in H.
    apply (IH _ _ _ _ _ Hk) in H1 as [K1 L1 S1 A1].
    apply (IHl _ _ _ _ K1) in H as [K2 L2 S2 A2]. split; [done| | |].
    + intros y. rewrite L2, L1. setoid_rewrite elem_of_cons. naive_solver.
    + intros s Hs. rewrite S2, S1 by done. setoid_rewrite elem_of_cons. split.
      * intros [[?|(x & a & ?)]|(t' & x & a & ? & ?)]; [by left|right..].
        -- exists t, x, a. split; [by left|done].
        -- exists t', x, a. split; [by right|done].
      * intros [?|(t' & x & a & [->|?] & ?)]; [by left; left|left; right; by exists x, a|].
        right. by exists t', x, a.
    + intros t' x [->|Ht]%elem_of_cons; [by apply A1|]. by apply (A2 t').
Qed.

Lemma reach_alias aliases current alias y :
  aliases !! current = Some alias ->
  reach aliases current y <->
  y = current \/ exists t, t ∈ ea_targets alias /\ reach aliases t y.
Proof.
  intros Ha. split.
  - inversion 1 as [|? t ? (a & Ha' & Ht) Hr]; subst; [by left|]. right.
    rewrite Ha in Ha'. injection Ha' as <-. by exists t.
  - intros [->|(t & Ht & Hr)]; [apply rtc_refl|]. eapply rtc_l; [|exact Hr]. by exists alias.
Qed.

Lemma reach_leaf aliases current y :
  aliases !! current = None -> reach aliases current y <-> y = current.
Proof.
  intros Ha. split; [|intros ->; apply rtc_refl].
  inversion 1 as [|? t ? (a & Ha' & _)]; [done|congruence].
Qed.

Lemma tc_step {A} (R : relation A) x y : tc R x y -> exists t, R x t /\ rtc R t y.
Proof.
  inversion 1 as [|? t ? Hxt Ht]; subst.
  - eexists. split; [done|apply rtc_refl].
  - exists t. split; [done|]. by apply tc_rtc.
Qed.

Lemma walked_leaf aliases current active leaves sources :
  keyed sources -> aliases !! current = None ->
  walked aliases current active leaves sources ({[current]} ∪ leaves) sources.
Proof.
  intros Hk Ha. split; [done| | |].
  - intros y. rewrite reach_leaf, elem_of_union, elem_of_singleton by done. naive_solver.
  - intros s _. split; [by left|]. intros [?|(x & a & Hr & Hx & _)]; [done|].
    apply reach_leaf in Hr as ->; congruence.
  - intros x ->%reach_leaf [a Hx]; [congruence|done].
Qed.

(** A walk through an alias, from the walks of its targets. *)
Lemma walked_alias aliases current alias active leaves sources leaves' sources' :
  keyed sources -> aliases !! current = Some alias -> no_nul (ea_kind alias) ->
  (current ∉ active) ->
  walked_all aliases (ea_targets alias) ({[current]} ∪ active) leaves
    (<[source_key (alias_source alias) := alias_source alias]> sources) leaves' sources' ->
  walked aliases current active leaves sources leaves' sources'.
Proof.
  intros Hk Ha Hn Hact [K L S A]. split; [done| | |].
  - intros y. rewrite L. setoid_rewrite (reach_alias _ _ _ _ Ha). split.
    + intros [?|(t & ? & ? & ?)]; [by left|]. right. split; [|done]. right. by exists t.
    + intros [?|[[->|(t & ? & ?)] ?]]; [by left|congruence|]. right. by exists t.
  - intros s Hs. rewrite S, in_sources_insert by done.
    setoid_rewrite (reach_alias _ _ _ _ Ha). split.
    + intros [[->|?]|(t & x & a & ? & ? & ? & ?)]; [|by left|].
      * right. exists current, alias. split; [by left|done].
      * right. exists x, a. split; [|done]. right. by exists t.
    + intros [?|(x & a & [->|(t & ? & ?)] & Hx & ->)]; [by left; right| |].
      * left. left. congruence.
      * right. by exists t, x, a.
  - intros x [->|(t & Ht & Hr)]%(reach_alias _ _ _ _ Ha) Hx.
    + split; [done|]. intros (t & (a & Ha' & Ht) & Hr)%tc_step.
      rewrite Ha in Ha'. injection Ha' as <-.
      destruct (A t current Ht Hr Hx) as [Hc _]. set_solver.
    + destruct (A t x Ht Hr Hx) as [Hc ?]. split; [set_solver|done].
Qed.

Lemma walkExpansionGraph_walked aliases :
  clean_aliases aliases ->
  forall n current active leaves sources leaves' sources', keyed sources ->
    walkExpansionGraph n aliases current active leaves sources = Ok (leaves', sources') ->
    walked aliases current active leaves sources leaves' sources'.
Proof.
  intros Hc. induction n as [|n IH]; intros current active leaves sources leaves' sources' Hk H;
    destruct (aliases !! current) as [alias|] eqn:Ea.
  - by destruct (walk_alias _ _ _ _ _ _ _ _ Ea H) as (? & ? & _).
  - apply (walk_leaf _ _ _ _ _ _ _ Ea) in H. injection H as -> ->. by apply walked_leaf.
  - destruct (walk_alias _ _ _ _ _ _ _ _ Ea H) as (n' & Hn & Hact & _ & H').
    injection Hn as <-.
    apply (walked_alias _ _ alias); [done|done|by eapply Hc|done|].
    eapply walk_targets_walked; [|apply keyed_insert; [done|by eapply Hc]|exact H'].
    intros. by eapply IH.
  - apply (walk_leaf _ _ _ _ _ _ _ Ea) in H. injection H as -> ->. by apply walked_leaf.
Qed.

Lemma keyed_empty : keyed ∅.
Proof. intros k s Hk. by rewrite lookup_empty in Hk. Qed.

(** A successful walk of the alias graph is exhaustive and exact: the
    leaves are precisely the addresses reachable from the start that are not
    aliases, the sources precisely those of the aliases reached, and no alias
    reached lies on a cycle. *)
Theorem walkExpansionGraph_exact aliases original leaves sources :
  clean_aliases aliases ->
  walkExpansionGraph maxQueueSources aliases original ∅ ∅ ∅ = Ok (leaves, sources) ->
  (forall y, y ∈ leaves <-> reach aliases original y /\ aliases !! y = None)
  /\ (forall s, s ∈ sorted_sources sources <->
        exists x a, reach aliases original x /\ aliases !! x = Some a /\ s = alias_source a)
  /\ forall x, reach aliases original x -> is_Some (aliases !! x) -> ~ tc (edge aliases) x x.
Proof.
  intros Hc H. apply (walkExpansionGraph_walked _ Hc) in H as [K L S A]; [|apply keyed_empty].
  split_and!.
  - intros y. rewrite L. set_solver.
  - intros s. unfold sorted_sources. rewrite merge_sort_Permutation, list_elem_of_fmap. split.
    + intros ([k s'] & -> & Hs%elem_of_map_to_list). destruct (K _ _ Hs) as [-> Hn].
      apply (S s') in Hs as [Hx|?]; [|done|done].
      unfold in_sources in Hx. by rewrite lookup_empty in Hx.
    + intros (x & a & Hr & Ha & ->). exists (source_key (alias_source a), alias_source a).
      split; [done|]. apply elem_of_map_to_list. apply (S (alias_source a)); [by eapply Hc|].
      right. by exists x, a.
  - intros x Hr Hx. by apply A.
Qed.
End Walk.

(** ** The loaded graph is the stored one *)

Section Load.
Context `{HOST : !Host} {PS : Type}.
Implicit Types (d : DB) (w : World PS) (aliases : gmap string expansionAlias)
  (seen : gset string) (rows : list ExpansionRow).

Lemma scanExpansionAlias_ok row a :
  scanExpansionAlias row = Ok a ->
  ea_address a = xr_address row /\ no_nul (ea_kind a) /\ valid_source (alias_source a) = true
  /\ ea_targets a <> [].
Proof.
  unfold scanExpansionAlias. intros H. go_inv H. to_prop. simpl.
  assert (forall k, k ∈ [SourceCatchAll; SourceList; SourceForward; SourceAlias] ->
    no_nul k /\ validSourceKind k = true) as Hk.
  { intros k Hk. repeat (apply elem_of_cons in Hk as [->|Hk]; [done|]).
    by apply not_elem_of_nil in Hk. }
  match goal with |- context [classifyExpansionSource ?x ?y ?z] =>
    assert (classifyExpansionSource x y z
            ∈ [SourceCatchAll; SourceList; SourceForward; SourceAlias]) as [H1 H2]%Hk end.
  { unfold classifyExpansionSource. repeat case_match; set_solver. }
  destruct_and!. unfold valid_source. simpl. rewrite H2. split_and!; [done..|].
  intros ->. match goal with H : normalize_recipients _ = Ok [] |- _ =>
    apply normalize_recipients_length in H end. simpl in *. congruence.
Qed.

Lemma rows_for_address d y r : r ∈ rows_for d y -> xr_address r = y.
Proof.
  unfold rows_for. rewrite list_elem_of_omap. intros ([id a] & _ & H).
  unfold expansion_row in H. apply bind_Some in H as (dom & _ & H).
  destruct (_ && _); [|done]. by injection H as <-.
Qed.

Record scanned rows aliases (next : list string) aliases' (next' : list string) : Prop := {
  sc_rows : forall r, r ∈ rows -> exists a, scanExpansionAlias r = Ok a
    /\ aliases' !! xr_address r = Some a;
  sc_new : forall y a, aliases' !! y = Some a ->
    aliases !! y = Some a \/ exists r, r ∈ rows /\ scanExpansionAlias r = Ok a /\ y = xr_address r;
  sc_old : aliases ⊆ aliases';
  sc_nodup : NoDup (map xr_address rows);
  sc_fresh : forall r, r ∈ rows -> aliases !! xr_address r = None;
  sc_next : forall t, t ∈ next' <-> t ∈ next
    \/ exists r a, r ∈ rows /\ scanExpansionAlias r = Ok a /\ t ∈ ea_targets a;
}.

Lemma scan_rows_scanned rows : forall aliases next aliases' next',
  scan_rows rows aliases next = Ok (aliases', next') ->
  scanned rows aliases next aliases' next'.
Proof.
  induction rows as [|r rows IH]; intros aliases next aliases' next'; cbn [scan_rows].
  { intros [= <- <-]. split; try set_solver. constructor. }
  destruct (_ <=? _); [done|]. intros H. apply rbind_ok in H as (a & Ha & H).
  apply scanExpansionAlias_ok in Ha as Ha'. destruct Ha' as (Haddr & _).
  destruct (aliases !! ea_address a) eqn:Ed; [done|]. rewrite Haddr in *.
  apply IH in H as [R N O D F X]. split.
  - intros r' [->|Hr]%elem_of_cons; [|by apply R]. exists a. split; [done|].
    eapply lookup_weaken; [|exact O]. by rewrite lookup_insert_eq.
  - intros y b Hy. destruct (N y b Hy) as [Hold|(r' & ? & ? & ?)].
    + rewrite lookup_insert in Hold. case_decide; [|by left]. simplify_eq. right.
      exists r. split; [left|done].
    + right. exists r'. split; [by right|done].
  - etrans; [|exact O]. by apply insert_subseteq.
  - simpl. apply NoDup_cons. split; [|done]. intros (r' & Heq & Hr)%list_elem_of_fmap.
    specialize (F r' Hr). rewrite <- Heq, lookup_insert_eq in F. done.
  - intros r' [->|Hr]%elem_of_cons; [done|]. specialize (F r' Hr).
    rewrite lookup_insert in F. case_decide; [done|done].
  - intros t. rewrite X, elem_of_app. split.
    + intros [[?|?]|(r' & b & ? & ?)]; [by left|right..].
      * exists r, a. split_and!; [left|done|done].
      * exists r', b. split; [by right|done].
    + intros [?|(r' & b & [->|Hr]%elem_of_cons & Hb & Ht)]; [by left; left| |].
      * rewrite Ha in Hb. injection Hb as <-. left. by right.
      * right. by exists r', b.
Qed.

(** The aliases loaded for the addresses [seen] so far. *)
Record loaded d aliases seen : Prop := {
  ld_rows : forall y, y ∈ seen ->
    match aliases !! y with
    | Some a => exists r, rows_for d y = [r] /\ scanExpansionAlias r = Ok a
    | None => rows_for d y = []
    end;
  ld_dom : forall y, is_Some (aliases !! y) -> y ∈ seen;
}.

(** No two rows of a list have one address. *)
Lemma nodup_single rows y :
  NoDup (map xr_address rows) -> (forall r, r ∈ rows -> xr_address r = y) ->
  rows = [] \/ exists r, rows = [r].
Proof.
  intros Hn Ha. destruct rows as [|r1 [|r2 rows]]; [by left|right; by exists r1|].
  simpl in Hn. apply NoDup_cons in Hn as [Hn _]. destruct Hn.
  rewrite (Ha r1), (Ha r2) by set_solver. left.
Qed.

Lemma nodup_concat (ls : list (list ExpansionRow)) l :
  NoDup (map xr_address (concat ls)) -> l ∈ ls -> NoDup (map xr_address l).
Proof.
  induction ls as [|l' ls IH]; simpl; intros Hn Hl; [by apply not_elem_of_nil in Hl|].
  rewrite map_app in Hn. apply NoDup_app in Hn as (H1 & _ & H2).
  apply elem_of_cons in Hl as [->|Hl]; [done|by apply IH].
Qed.

Lemma loaded_layer d aliases seen (batch : gset string) next aliases' next' :
  loaded d aliases seen ->
  (forall y, y ∈ batch -> y ∉ seen) ->
  scanned (expansion_rows (elements batch) d) aliases next aliases' next' ->
  loaded d aliases' (batch ∪ seen).
Proof.
  intros [HR HD] Hb [R N O D F X].
  assert (expansion_rows (elements batch) d ≡ₚ concat (map (rows_for d) (elements batch))) as Hp
    by apply merge_sort_Permutation.
  assert (forall r, r ∈ expansion_rows (elements batch) d <->
    exists y, y ∈ batch /\ r ∈ rows_for d y) as Hin.
  { intros r. rewrite Hp, list_elem_of_In, in_concat. split.
    - intros (l & (y & <- & Hy)%in_map_iff & Hr). exists y.
      apply list_elem_of_In in Hy, Hr. by rewrite elem_of_elements in Hy.
    - intros (y & Hy & Hr). exists (rows_for d y). split; [|by apply list_elem_of_In].
      apply in_map. by apply list_elem_of_In, elem_of_elements. }
  split.
  - intros y [Hy|Hy]%elem_of_union.
    + assert (NoDup (map xr_address (rows_for d y))) as Hn.
      { eapply nodup_concat; [by rewrite <- Hp|]. apply list_elem_of_In, in_map, list_elem_of_In.
        by apply elem_of_elements. }
      destruct (nodup_single _ y Hn) as [He|[r He]]; [intros r; apply rows_for_address| |].
      * destruct (aliases' !! y) as [a|] eqn:Ey; [|done].
        destruct (N _ _ Ey) as [Hold|(r & (y' & Hy' & Hr)%Hin & _ & ->)].
        -- destruct (Hb y Hy). apply HD. by eexists.
        -- apply rows_for_address in Hr as Hy2. subst y'. rewrite He in Hr. set_solver.
      * destruct (R r) as (a & Ha & Hl); [apply Hin; exists y; rewrite He; set_solver|].
        rewrite (rows_for_address d y r) in Hl by (rewrite He; left). rewrite Hl.
        by exists r.
    + specialize (HR y Hy). destruct (aliases !! y) as [a|] eqn:Ey.
      * by rewrite (lookup_weaken _ _ _ _ Ey O).
      * destruct (aliases' !! y) as [a|] eqn:Ey'; [|done].
        destruct (N _ _ Ey') as [?|(r & (y' & Hy' & Hr)%Hin & _ & ->)]; [congruence|].
        apply rows_for_address in Hr. subst y'. by destruct (Hb _ Hy').
  - intros y [a Ey]. destruct (N _ _ Ey) as [?|(r & (y' & Hy' & Hr)%Hin & _ & ->)].
    + apply elem_of_union_r, HD. by eexists.
    + apply rows_for_address in Hr. subst y'. by apply elem_of_union_l.
Qed.

(** Every target of a loaded alias has been seen or is about to be. *)
Definition targets_in aliases seen (frontier : list string) : Prop :=
  forall x a t, aliases !! x = Some a -> t ∈ ea_targets a -> t ∈ seen \/ t ∈ frontier.

Lemma load_layers_loaded n : forall aliases seen frontier w res w',
  load_layers n aliases seen frontier w = (Ok res, w') ->
  loaded (w_db w) aliases seen -> targets_in aliases seen frontier ->
  w_db w' = w_db w /\ w_ext w' = w_ext w
  /\ exists seen', loaded (w_db w) res seen' /\ (seen ⊆ seen')
       /\ (forall t, t ∈ frontier -> t ∈ seen') /\ targets_in res seen' [].
Proof.
  induction n as [|n IH]; intros aliases seen frontier w res w' H Hl Ht.
  { destruct frontier; [|done]. injection H as <- <-. split_and!; [done..|].
    exists seen. split_and!; [done|done| |done]. intros t Hx. by apply not_elem_of_nil in Hx. }
  destruct frontier as [|t0 frontier0].
  { injection H as <- <-. split_and!; [done..|].
    exists seen. split_and!; [done|done| |done]. intros t Hx. by apply not_elem_of_nil in Hx. }
  cbn [load_layers] in H. set (frontier := t0 :: frontier0) in *.
  set (batch := list_to_set frontier ∖ seen : gset string) in *.
  destruct (size batch =? 0) eqn:Es; to_prop.
  - injection H as <- <-. apply size_empty_inv in Es.
    assert (forall t, t ∈ frontier -> t ∈ seen) as Hsub.
    { intros t Hf. destruct (decide (t ∈ seen)); [done|]. set_solver. }
    split_and!; [done..|]. exists seen. split_and!; [done|done|done|].
    intros x a t Hx Hta. left. destruct (Ht x a t Hx Hta); auto.
  - destruct (too_many _); [done|].
    apply bind_ok in H as (rows & w1 & (Hr & D1 & X1)%queryM_ok & H). injection Hr as <-.
    apply bind_ok in H as ([aliases1 next1] & ? & [Hs%scan_rows_scanned ->]%liftM_ok & H).
    assert (loaded (w_db w) aliases1 (batch ∪ seen)) as Hl1
      by (eapply loaded_layer; [done|set_solver|exact Hs]).
    assert (targets_in aliases1 (batch ∪ seen) next1) as Ht1.
    { intros x a t Hx Hta. destruct Hs as [_ N _ _ _ X].
      destruct (N x a Hx) as [Hold|(r & Hin & Hscan & ->)].
      - left. destruct (Ht x a t Hold Hta) as [?|Hf]; [set_solver|].
        destruct (decide (t ∈ seen)); set_solver.
      - right. apply X. right. by exists r, a. }
    apply IH in H as (D2 & X2 & seen' & Hl' & Hsub & Hf' & Ht'); [|by rewrite D1|done].
    rewrite D1 in *. split_and!; [done|congruence|]. exists seen'.
    split_and!; [done|set_solver| |done]. intros t Hf. apply Hsub.
    destruct (decide (t ∈ seen)); set_solver.
Qed.

(** ** The graph stored in the tables *)

(** The alias an address resolves to: the only row for it, if it is usable. *)
Definition alias_at d (x : string) : option expansionAlias :=
  match rows_for d x with
  | [row] => match scanExpansionAlias row with Ok a => Some a | Err _ => None end
  | _ => None
  end.

Definition db_edge d : relation string := fun x y =>
  exists a, alias_at d x = Some a /\ y ∈ ea_targets a.

Lemma loaded_alias_at d aliases seen y :
  loaded d aliases seen -> y ∈ seen ->
  aliases !! y = alias_at d y /\ (aliases !! y = None <-> rows_for d y = []).
Proof.
  intros [HR _] Hy. specialize (HR y Hy). unfold alias_at.
  destruct (aliases !! y) as [a|].
  - destruct HR as (r & -> & ->). done.
  - by rewrite HR.
Qed.

Lemma loaded_reach d aliases seen x y :
  loaded d aliases seen -> targets_in aliases seen [] -> x ∈ seen ->
  (reach aliases x y <-> rtc (db_edge d) x y) /\ (reach aliases x y -> y ∈ seen).
Proof.
  intros Hl Ht Hx.
  assert (forall u v, u ∈ seen -> edge aliases u v -> v ∈ seen) as Hstep.
  { intros u v _ (a & Ha & Hv). destruct (Ht u a v Ha Hv) as [|Hv']; [done|].
    by apply not_elem_of_nil in Hv'. }
  assert (forall u v, u ∈ seen -> edge aliases u v <-> db_edge d u v) as Hedge.
  { intros u v Hu. unfold edge, db_edge.
    by rewrite (proj1 (loaded_alias_at _ _ _ _ Hl Hu)). }
  split; [split|].
  - intros Hr. revert Hx. induction Hr as [|u v z Huv _ IH]; intros Hu; [apply rtc_refl|].
    eapply rtc_l; [by apply Hedge|]. apply IH. by eapply Hstep.
  - intros Hr. revert Hx. induction Hr as [|u v z Huv _ IH]; intros Hu; [apply rtc_refl|].
    apply Hedge in Huv; [|done]. eapply rtc_l; [exact Huv|]. apply IH. by eapply Hstep.
  - intros Hr. revert Hx. induction Hr as [|u v z Huv _ IH]; intros Hu; [done|].
    apply IH. by eapply Hstep.
Qed.

Lemma loaded_clean d aliases seen : loaded d aliases seen -> clean_aliases aliases.
Proof.
  intros [HR HD] x a Hx. specialize (HR x). rewrite Hx in HR.
  destruct HR as (r & _ & Hs); [apply HD; by eexists|].
  by apply scanExpansionAlias_ok in Hs as (_ & ? & _).
Qed.

Lemma loadExpansionAliases_ok originals w aliases w' :
  loadExpansionAliases originals w = (Ok aliases, w') ->
  w_db w' = w_db w /\ w_ext w' = w_ext w
  /\ exists seen, loaded (w_db w) aliases seen /\ targets_in aliases seen []
       /\ forall t, t ∈ originals -> t ∈ seen.
Proof.
  unfold loadExpansionAliases. generalize maxQueueSources. intros n H.
  apply load_layers_loaded in H as (D & X & seen & Hl & _ & Hf & Ht).
  - split_and!; [done..|]. by exists seen.
  - split; [set_solver|]. intros y [a Hy]. by rewrite lookup_empty in Hy.
  - intros x a t Hx. by rewrite lookup_empty in Hx.
Qed.

(** The expansion of one address, as the tables define it. *)
Record expands d (original : string) (recipients : list string) (sources : list QueueSource)
    : Prop := {
  xp_recipients : forall y, y ∈ recipients <->
    rtc (db_edge d) original y /\ rows_for d y = [];
  xp_sources : forall s, s ∈ sources <->
    exists x a, rtc (db_edge d) original x /\ alias_at d x = Some a /\ s = alias_source a;
  xp_acyclic : forall x, rtc (db_edge d) original x -> ~ tc (db_edge d) x x;
}.

Lemma loaded_tc d aliases seen x :
  loaded d aliases seen -> targets_in aliases seen [] -> x ∈ seen ->
  tc (db_edge d) x x -> tc (edge aliases) x x /\ is_Some (aliases !! x).
Proof.
  intros Hl Ht Hx (t & (a & Ha & Hta) & Hr)%tc_step.
  rewrite <- (proj1 (loaded_alias_at _ _ _ _ Hl Hx)) in Ha. split; [|by eexists].
  assert (t ∈ seen) as Hts.
  { destruct (Ht x a t Ha Hta) as [|Hn]; [done|by apply not_elem_of_nil in Hn]. }
  eapply tc_rtc_r; [apply tc_once; by exists a|].
  by apply (loaded_reach _ _ _ _ _ Hl Ht Hts).
Qed.

(** The walk of a loaded graph, read on the tables. *)
Lemma walk_expands d aliases seen original leaves sources :
  loaded d aliases seen -> targets_in aliases seen [] -> original ∈ seen ->
  walkExpansionGraph maxQueueSources aliases original ∅ ∅ ∅ = Ok (leaves, sources) ->
  keyed sources
  /\ (forall y, y ∈ leaves <-> rtc (db_edge d) original y /\ rows_for d y = [])
  /\ (forall s, no_nul (qs_kind s) -> in_sources s sources <->
        exists x a, rtc (db_edge d) original x /\ alias_at d x = Some a /\ s = alias_source a)
  /\ forall x, rtc (db_edge d) original x -> ~ tc (db_edge d) x x.
Proof.
  intros Hl Ht Ho H.
  apply (walkExpansionGraph_walked _ (loaded_clean _ _ _ Hl)) in H as [K L S A];
    [|apply keyed_empty].
  assert (forall y, reach aliases original y <-> rtc (db_edge d) original y) as Hreach
    by (intros y; apply (loaded_reach _ _ _ _ _ Hl Ht Ho)).
  assert (forall y, reach aliases original y -> aliases !! y = alias_at d y
          /\ (aliases !! y = None <-> rows_for d y = [])) as Hat.
  { intros y Hy. eapply loaded_alias_at; [exact Hl|].
    by apply (loaded_reach _ _ _ _ _ Hl Ht Ho). }
  split_and!; [done| | |].
  - intros y. rewrite L, <- Hreach. split.
    + intros [Hx|[Hr Hn]]; [set_solver|]. split; [done|]. by apply Hat.
    + intros [Hr Hn]. right. split; [done|]. by apply Hat.
  - intros s Hs. rewrite S by done. unfold in_sources at 1. rewrite lookup_empty. split.
    + intros [?|(x & a & Hr & Ha & ->)]; [done|]. exists x, a. rewrite <- Hreach.
      split_and!; [done| |done]. by rewrite <- (proj1 (Hat x Hr)).
    + intros (x & a & Hr & Ha & ->). right. exists x, a. rewrite <- Hreach in Hr.
      split_and!; [done| |done]. by rewrite (proj1 (Hat x Hr)).
  - intros x Hr Htc. rewrite <- Hreach in Hr.
    assert (x ∈ seen) as Hx by (by apply (loaded_reach _ _ _ _ _ Hl Ht Ho)).
    destruct (loaded_tc _ _ _ _ Hl Ht Hx Htc) as [Htc' Ha]. by apply (A x Hr Ha).
Qed.

Lemma elem_of_sorted_sources sources s :
  keyed sources -> s ∈ sorted_sources sources <-> no_nul (qs_kind s) /\ in_sources s sources.
Proof.
  intros K. unfold sorted_sources. rewrite merge_sort_Permutation, list_elem_of_fmap. split.
  - intros ([k s'] & -> & Hs%elem_of_map_to_list). simpl. by destruct (K _ _ Hs) as [-> ?].
  - intros [_ Hs]. exists (source_key s, s). by rewrite elem_of_map_to_list.
Qed.

Lemma alias_at_ok d x a :
  alias_at d x = Some a -> no_nul (ea_kind a) /\ valid_source (alias_source a) = true.
Proof.
  unfold alias_at. destruct (rows_for d x) as [|r [|? ?]]; [done| |done].
  destruct (scanExpansionAlias r) eqn:E; [|done]. intros [= <-].
  by apply scanExpansionAlias_ok in E as (_ & ? & ? & _).
Qed.

Lemma expandOriginal_ok raw w recipients sources w' :
  expandOriginal raw w = (Ok (recipients, sources), w') ->
  w_db w' = w_db w /\ w_ext w' = w_ext w
  /\ exists original dom, normalizeQueueRecipient raw = Ok (original, dom)
       /\ expands (w_db w) original recipients sources.
Proof.
  unfold expandOriginal. intros H.
  apply bind_ok in H as ([original dom] & ? & [Hn%relabel_ok ->]%liftM_ok & H).
  apply bind_ok in H as (aliases & w1 & (D1 & X1 & seen & Hl & Ht & Ho)%loadExpansionAliases_ok & H).
  apply bind_ok in H as ([lv src] & ? & [Hw ->]%liftM_ok & H).
  injection H as <- <- <-.
  destruct (walk_expands _ _ _ _ _ _ Hl Ht (Ho _ (list_elem_of_here _ _)) Hw) as (K & L & S & A).
  split_and!; [done..|]. exists original, dom. split; [done|]. split; [| |done].
  - intros y. by rewrite elem_of_sorted_set, L.
  - intros s. simpl. rewrite elem_of_sorted_sources by done. split.
    + intros [Hs Hin]. by apply S.
    + intros (x & a & Hr & Ha & ->). destruct (alias_at_ok _ _ _ Ha) as [Hk _].
      split; [done|]. apply S; [done|]. by exists x, a.
Qed.

(** C12: expanding a recipient follows the stored aliases exactly: the
    recipients returned are all the addresses reachable through enabled
    aliases that no alias row matches, the sources are those of all the
    aliases on the way, and a successful expansion met no cycle.  Nothing is
    written. *)
Theorem expandOriginal_exact raw w recipients sources w' :
  expandOriginal raw w = (Ok (recipients, sources), w') ->
  w_db w' = w_db w
  /\ exists original dom, normalizeQueueRecipient raw = Ok (original, dom)
       /\ expands (w_db w) original recipients sources.
Proof. intros (? & _ & ?)%expandOriginal_ok. done. Qed.

(** ** Deliveries *)

Lemma in_sources_union s src1 src2 :
  keyed src1 -> keyed src2 -> no_nul (qs_kind s) ->
  in_sources s (src1 ∪ src2) <-> in_sources s src1 \/ in_sources s src2.
Proof.
  intros K1 K2 Hs. unfold in_sources. rewrite lookup_union_Some_raw. split.
  - intros [?|[_ ?]]; auto.
  - intros [?|H2]; [by left|]. destruct (src1 !! source_key s) as [s'|] eqn:E; [|by right].
    left. destruct (K1 _ _ E) as [Hk Hn]. unfold source_key in Hk.
    apply no_nul_app_inj in Hk as [E1 E2]; [|done..]. destruct s, s'. by simplify_eq/=.
Qed.

Lemma keyed_union src1 src2 : keyed src1 -> keyed src2 -> keyed (src1 ∪ src2).
Proof. intros K1 K2 k s [?|[_ ?]]%lookup_union_Some_raw; auto. Qed.

(** A final address is legitimate for its original: it is the original, or a
    leaf of its expansion. *)
Definition derived d (delivery : QueueDelivery) : Prop :=
  qd_original delivery = qd_recipient delivery
  \/ (rtc (db_edge d) (qd_original delivery) (qd_recipient delivery)
      /\ rows_for d (qd_recipient delivery) = []).

(** A source some delivery owes to the aliases it went through. *)
Definition owed d (l : list QueueDelivery) (s : QueueSource) : Prop :=
  exists delivery x a, delivery ∈ l /\ qd_original delivery <> qd_recipient delivery
    /\ rtc (db_edge d) (qd_original delivery) x /\ alias_at d x = Some a
    /\ s = alias_source a.

Lemma owed_cons d delivery l s :
  owed d (delivery :: l) s <->
  (qd_original delivery <> qd_recipient delivery
   /\ exists x a, rtc (db_edge d) (qd_original delivery) x /\ alias_at d x = Some a
        /\ s = alias_source a)
  \/ owed d l s.
Proof.
  unfold owed. setoid_rewrite elem_of_cons. split.
  - intros (dl & x & a & [->|Hin] & Hne & H); [left; split; [done|by exists x, a]|].
    right. by exists dl, x, a.
  - intros [(Hne & x & a & H)|(dl & x & a & Hin & H)].
    + exists delivery, x, a. split; [by left|done].
    + exists dl, x, a. split; [by right|done].
Qed.

Lemma delivery_sources_ok d aliases seen l : forall src src',
  loaded d aliases seen -> targets_in aliases seen [] ->
  (forall delivery, delivery ∈ l -> qd_original delivery ∈ seen) ->
  keyed src -> delivery_sources aliases l src = Ok src' ->
  keyed src' /\ Forall (derived d) l
  /\ forall s, no_nul (qs_kind s) -> in_sources s src' <-> in_sources s src \/ owed d l s.
Proof.
  induction l as [|delivery l IH]; intros src src' Hl Ht Ho K H; cbn [delivery_sources] in H.
  { injection H as <-. split_and!; [done|constructor|]. intros s _. split; [by left|].
    intros [?|(? & ? & ? & Hx & _)]; [done|by apply not_elem_of_nil in Hx]. }
  destruct (_ =?s _) eqn:Eq; to_prop.
  - apply IH in H as (K' & F & S); [|done..| |done]; [|intros; apply Ho; by right].
    split_and!; [done|constructor; [by left|done]|]. intros s Hs.
    rewrite (S s Hs), owed_cons. naive_solver.
  - apply rbind_ok in H as ([lv wsrc] & Hw & H). cbn [fst snd] in H.
    destruct (negb _) eqn:Eleaf; [done|]. destruct (_ <? _); [done|]. to_prop.
    destruct (walk_expands _ _ _ _ _ _ Hl Ht (Ho _ (list_elem_of_here _ _)) Hw)
      as (Kw & L & Sw & _).
    apply IH in H as (K' & F & S); [|done..| |by apply keyed_union];
      [|intros; apply Ho; by right].
    split_and!; [done|constructor; [right; by apply L|done]|]. intros s Hs.
    rewrite (S s Hs), owed_cons, in_sources_union, (Sw s Hs) by done. tauto.
Qed.

Lemma resolveExpansionDeliveries_ok deliveries w sources w' :
  resolveExpansionDeliveries deliveries w = (Ok sources, w') ->
  w_db w' = w_db w /\ w_ext w' = w_ext w
  /\ exists canonical, rmap canonical_delivery deliveries = Ok canonical
       /\ Forall (derived (w_db w)) canonical
       /\ forall s, s ∈ sources <-> owed (w_db w) canonical s.
Proof.
  unfold resolveExpansionDeliveries. intros H.
  apply bind_ok in H as (canonical & ? & [Hc ->]%liftM_ok & H).
  apply bind_ok in H as (aliases & w1 & (D1 & X1 & seen & Hl & Ht & Ho)%loadExpansionAliases_ok & H).
  apply bind_ok in H as (src & ? & [Hs ->]%liftM_ok & H). injection H as <- <-.
  apply (delivery_sources_ok _ _ _ _ _ _ Hl Ht) in Hs as (K & F & S); [| |apply keyed_empty].
  2: { intros dl Hdl. apply Ho, list_elem_of_fmap. by exists dl. }
  split_and!; [done..|]. exists canonical. split_and!; [done..|]. intros s.
  rewrite elem_of_sorted_sources by done. split.
  - intros [Hs Hin]. apply (S s Hs) in Hin as [Hx|]; [|done].
    unfold in_sources in Hx. by rewrite lookup_empty in Hx.
  - intros Hx. pose proof Hx as (dl & x & a & _ & _ & _ & Ha & ->).
    destruct (alias_at_ok _ _ _ Ha) as [Hk _]. split; [done|]. apply S; [done|by right].
Qed.

(** The authority [Admit] starts from: none, or what [submissionSources]
    proves. *)
Definition admission_authority d (req : QueueAdmissionRequest) (l : list QueueSource) : Prop :=
  if (qa_authenticated_mailbox req =?s "") && (qa_system_sender_id req =?s "")
  then l = []
  else exists envelope, envelope_is (authority_request req) envelope
         /\ authority d (authority_request req) envelope l.

Lemma validateQueueDeliveries_ok recipients deliveries u :
  validateQueueDeliveries recipients deliveries = Ok u ->
  exists l, canonicalQueueRecipients recipients = Ok l
    /\ canonicalQueueRecipients (map qd_recipient deliveries) = Ok l.
Proof.
  unfold validateQueueDeliveries. intros H.
  apply rbind_ok in H as (want & Hw%relabel_ok & H).
  apply rbind_ok in H as (got & Hg%relabel_ok & H).
  case_bool_decide; [|done]. subst. by exists want.
Qed.

Lemma Admit_ok req w record created w' :
  Admit req w = (Ok (record, created), w') ->
  exists canonical recipients bound expansion q,
    rmap canonical_delivery (qa_deliveries req) = Ok canonical
    /\ Forall (derived (w_db w)) canonical
    /\ canonicalQueueRecipients (qm_recipients (qa_metadata req)) = Ok recipients
    /\ canonicalQueueRecipients (map qd_recipient (qa_deliveries req)) = Ok recipients
    /\ admission_authority (w_db w) req bound
    /\ (forall s, s ∈ expansion <-> owed (w_db w) canonical s)
    /\ bound ++ expansion <> []
    /\ normalizeQueueRegistration (registration_request req (bound ++ expansion)) = Ok q
    /\ sameQueueIdentity record q = true
    /\ load_pure (qm_queue_id (qa_metadata req)) (w_db w') = Ok record
    /\ only_queue (qm_queue_id (qa_metadata req)) (w_db w) (w_db w').
Proof.
  unfold Admit. intros H.
  apply bind_ok in H as ([] & ? & [_ ->]%guardM_ok & H).
  apply bind_ok in H as ([] & ? & [Hv%validateQueueDeliveries_ok ->]%liftM_ok & H).
  apply bind_ok in H as (bound & w1 & Hb & H).
  apply bind_ok in H as (expansion & w2 &
    (D2 & _ & canonical & Hc & Hd & Ho)%resolveExpansionDeliveries_ok & H).
  apply bind_ok in H as ([] & ? & [Hn ->]%guardM_ok & H).
  pose proof (Register_only (PS := PS) (registration_request req (bound ++ expansion)) w2) as Hw.
  rewrite H in Hw. cbn [snd rg_queue_id registration_request] in Hw.
  apply Register_ok in H as (q & Hq & Hsame & Hload & _).
  assert (w_db w1 = w_db w /\ admission_authority (w_db w) req bound) as [D1 Ha].
  { unfold admission_authority.
    destruct (qa_authenticated_mailbox req =?s ""), (qa_system_sender_id req =?s "");
      cbn [negb orb andb] in *; [by injection Hb as <- <-|..];
      apply submissionSources_ok in Hb as (D & _ & envelope & l & He & Hauth & -> & _);
      (split; [done|]); exists envelope; simpl; by rewrite app_nil_r. }
  rewrite D2, D1 in *. destruct Hv as (l & Hl1 & Hl2).
  exists canonical, l, bound, expansion, q. split_and!; try done.
  intros Hnil. by rewrite Hnil in Hn.
Qed.

(** C16: what admission registers is what the tables prove.  Every delivery
    is its original recipient or a leaf of its expansion; the final
    recipients are exactly the inspected ones; and the stored record has the
    identity of the registration whose sources are exactly the authenticated
    authority followed by every alias some delivery went through; no row of
    another message or of a policy table is written. *)
Theorem Admit_sound req w record created w' :
  Admit req w = (Ok (record, created), w') ->
  exists canonical recipients bound expansion q,
    rmap canonical_delivery (qa_deliveries req) = Ok canonical
    /\ Forall (derived (w_db w)) canonical
    /\ canonicalQueueRecipients (qm_recipients (qa_metadata req)) = Ok recipients
    /\ canonicalQueueRecipients (map qd_recipient (qa_deliveries req)) = Ok recipients
    /\ admission_authority (w_db w) req bound
    /\ (forall s, s ∈ expansion <-> owed (w_db w) canonical s)
    /\ bound ++ expansion <> []
    /\ normalizeQueueRegistration (registration_request req (bound ++ expansion)) = Ok q
    /\ sameQueueIdentity record q = true
    /\ load_pure (qm_queue_id (qa_metadata req)) (w_db w') = Ok record
    /\ only_queue (qm_queue_id (qa_metadata req)) (w_db w) (w_db w').
Proof. apply Admit_ok. Qed.
End Load.
