(* ===== verification/ExpansionTotal.v ===== *)
(** * Expansion always answers (internal/outboundpolicy/admission.go)

    The loops of the alias expansion return a result on every stored alias
    graph that is acyclic and within the source's bounds: the layer loop finds
    a new alias at every turn but the last, and the walk is never deeper than
    the number of aliases. *)

From stdpp Require Import base list gmap sets strings sorting relations.
From Stdlib Require Import ZArith Lia Ascii.
From S2P Require Import Prelude GoStd Policy Queue Database QueueStore Sources Admission.

Section Total.
Context `{HOST : !Host} {PS : Type}.
Implicit Types (d : DB) (w : World PS) (aliases : gmap string expansionAlias)
  (seen leaves N : gset string) (sources : gmap string QueueSource) (rows : list ExpansionRow).

(** An alias graph the source accepts: [N] holds the addresses it reaches and
    [A] its aliases. *)
Record bounded_graph d (N A : gset string) : Prop := {
  bg_closed : forall x y, x ∈ N -> db_edge d x y -> y ∈ N;
  bg_rows : forall x, x ∈ N -> if bool_decide (x ∈ A) then is_Some (alias_at d x) else rows_for d x = [];
  bg_acyclic : forall x, x ∈ N -> ~ tc (db_edge d) x x;
  bg_size : too_many (size N) = false;
  bg_subset : A ⊆ N;
  bg_aliases : size A < maxQueueSources;
}.

Lemma too_many_le m n : m <= n -> too_many n = false -> too_many m = false.
Proof. unfold too_many. rewrite !N.ltb_ge. lia. Qed.

(** ** Loading *)

Lemma scan_rows_total A rows : forall aliases next,
  NoDup (map xr_address rows) ->
  (forall r, r ∈ rows -> is_ok (scanExpansionAlias r) = true /\ xr_address r ∈ A
     /\ aliases !! xr_address r = None) ->
  dom aliases ⊆ A -> size A < maxQueueSources ->
  exists res, scan_rows rows aliases next = Ok res.
Proof.
  induction rows as [|r rows IH]; intros aliases next Hn Hr Hd Hs; [by eexists|].
  cbn [map] in Hn. apply NoDup_cons in Hn as [Hfresh Hn].
  destruct (Hr r) as (Hok & HA & Hnone); [left|]. cbn [scan_rows].
  pose proof (subseteq_size _ _ Hd) as Hsz. rewrite size_dom in Hsz.
  destruct (_ <=? _) eqn:E; [unfold maxExpansionAliases in E; to_prop; lia|].
  destruct (scanExpansionAlias r) as [a|] eqn:Ea; [|done]. cbn [rbind].
  destruct (scanExpansionAlias_ok _ _ Ea) as (Haddr & _). rewrite Haddr, Hnone.
  apply IH; [done| |rewrite dom_insert_L; set_solver|done].
  intros r' Hr'. destruct (Hr r') as (? & ? & ?); [by right|]. split_and!; [done..|].
  rewrite lookup_insert_ne; [done|]. intros Heq. apply Hfresh. rewrite Heq. by apply list_elem_of_fmap_2.
Qed.

Lemma rows_for_in d N A x r :
  bounded_graph d N A -> x ∈ N -> r ∈ rows_for d x ->
  x ∈ A /\ rows_for d x = [r] /\ is_ok (scanExpansionAlias r) = true.
Proof.
  intros [_ HR _ _ _ _] Hx Hr. specialize (HR x Hx). case_bool_decide as Ha;
    [|rewrite HR in Hr; by apply not_elem_of_nil in Hr].
  unfold alias_at in HR. destruct (rows_for d x) as [|r' [|? ?]]; [by destruct HR..| |by destruct HR].
  apply list_elem_of_singleton in Hr as ->. split_and!; [done..|].
  destruct (scanExpansionAlias r'); [done|by destruct HR].
Qed.

Lemma batch_rows d N A (batch : gset string) :
  bounded_graph d N A -> batch ⊆ N ->
  NoDup (map xr_address (expansion_rows (elements batch) d))
  /\ forall r, r ∈ expansion_rows (elements batch) d ->
       is_ok (scanExpansionAlias r) = true /\ xr_address r ∈ A /\ xr_address r ∈ batch
       /\ alias_at d (xr_address r) = match scanExpansionAlias r with Ok a => Some a | Err _ => None end.
Proof.
  intros Hb Hsub. unfold expansion_rows. setoid_rewrite merge_sort_Permutation.
  assert (forall y, y ∈ elements batch -> y ∈ N) as Hel by (intros y; rewrite elem_of_elements; set_solver).
  pose proof (NoDup_elements batch) as Hnd.
  assert (forall y, y ∈ elements batch -> y ∈ batch) as Hin by (intros y; by rewrite elem_of_elements).
  revert Hel Hin. induction Hnd as [|y l Hy Hnd IH]; intros Hel Hin.
  { split; [constructor|]. by intros r ?%not_elem_of_nil. }
  destruct IH as [IH1 IH2]; [intros; apply Hel; by right|intros; apply Hin; by right|].
  cbn [map concat]. rewrite map_app. split.
  - apply NoDup_app. split_and!; [| |done].
    + destruct (rows_for d y) as [|r rs] eqn:E; [constructor|].
      destruct (rows_for_in d N A y r Hb) as (_ & E1 & _); [apply Hel; left|rewrite E; left|].
      rewrite E in E1. injection E1 as ->. apply NoDup_singleton.
    + intros x (r & -> & Hr)%list_elem_of_fmap (r' & Heq & Hr')%list_elem_of_fmap.
      apply rows_for_address in Hr. apply list_elem_of_In, in_concat in Hr' as (rs & Hrs & Hr').
      apply in_map_iff in Hrs as (z & <- & Hz). apply list_elem_of_In in Hr', Hz.
      apply rows_for_address in Hr'. by rewrite <- Hr, Heq, Hr' in Hy.
  - intros r [Hr|Hr]%elem_of_app; [|by apply IH2].
    destruct (rows_for_in d N A y r Hb) as (HA & E1 & Hok); [apply Hel; left|done|].
    apply rows_for_address in Hr as Haddr. rewrite Haddr. split_and!; [done..|apply Hin; left|].
    unfold alias_at. by rewrite E1.
Qed.

Lemma load_layers_total d N A : bounded_graph d N A ->
  forall n aliases seen frontier w,
  reliable w -> w_db w = d ->
  (forall x a, aliases !! x = Some a -> x ∈ A /\ x ∈ seen /\ alias_at d x = Some a) ->
  seen ⊆ N -> (forall t, t ∈ frontier -> t ∈ N) ->
  (frontier <> [] -> maxQueueSources <= n + size aliases) ->
  exists res w', load_layers n aliases seen frontier w = (Ok res, w') /\ reliable w'
    /\ forall x a, res !! x = Some a -> x ∈ A /\ alias_at d x = Some a.
Proof.
  intros Hb. pose proof Hb as [Hclosed _ _ Hsize HAN HA].
  induction n as [|n IH]; intros aliases seen frontier w Hw Hd Hal Hseen Hfr Hn.
  { destruct frontier; [exists aliases, w; split_and!; [done..|]; naive_solver|]. exfalso.
    specialize (Hn ltac:(done)). assert (dom aliases ⊆ A) as Hsub.
    { intros x [a Hx]%elem_of_dom. by apply Hal in Hx as []. }
    pose proof (subseteq_size _ _ Hsub) as Hsz. rewrite size_dom in Hsz. lia. }
  destruct frontier as [|t0 frontier0]; [exists aliases, w; split_and!; [done..|]; naive_solver|].
  cbn [load_layers]. set (frontier := t0 :: frontier0) in *.
  set (batch := list_to_set frontier ∖ seen : gset string).
  assert (batch ⊆ N) as Hbatch by set_solver.
  destruct (size batch =? 0) eqn:Es; [exists aliases, w; split_and!; [done..|]; naive_solver|].
  assert (batch ∪ seen ⊆ N) as Hbs by set_solver.
  rewrite (too_many_le _ _ (subseteq_size _ _ Hbs) Hsize).
  destruct (queryM_reliable (fun d => Ok (expansion_rows (elements batch) d)) w Hw)
    as (w1 & E1 & W1 & D1 & _).
  unfold mbind, M_bind. rewrite E1, Hd. rewrite Hd in D1.
  destruct (batch_rows d N A batch Hb Hbatch) as [Hnd Hrows].
  set (rows := expansion_rows (elements batch) d) in *.
  destruct (scan_rows_total A rows aliases []) as [[aliases' next'] Hs]; [done| | |done|].
  { intros r Hr. destruct (Hrows r Hr) as (? & ? & ? & _). split_and!; [done..|].
    destruct (aliases !! xr_address r) eqn:Ex; [|done]. apply Hal in Ex as (_ & ? & _). set_solver. }
  { intros x [a Hx]%elem_of_dom. by apply Hal in Hx as []. }
  rewrite Hs. cbn [liftM fst snd]. apply scan_rows_scanned in Hs as [R Nw O D F X].
  assert (forall x a, aliases' !! x = Some a -> x ∈ A /\ x ∈ batch ∪ seen /\ alias_at d x = Some a) as Hal'.
  { intros x a Hx. destruct (Nw x a Hx) as [Hold|(r & Hr & Ha & ->)].
    - apply Hal in Hold as (? & ? & ?). set_solver.
    - destruct (Hrows r Hr) as (_ & ? & ? & Hat). rewrite Ha in Hat. set_solver. }
  apply IH; [done..| |].
  - intros t [Ht%not_elem_of_nil|(r & a & Hr & Ha & Ht)]%X; [done|].
    destruct (Hrows r Hr) as (_ & ? & Hin & Hat). rewrite Ha in Hat.
    apply (Hclosed (xr_address r)); [set_solver|]. by exists a.
  - intros Hne. assert (exists r, r ∈ rows) as [r Hr].
    { destruct next' as [|t next']; [done|]. destruct (proj1 (X t)) as [?%not_elem_of_nil|(r & _ & ? & _)];
        [left|done|by exists r]. }
    assert (size aliases < size aliases'); [|specialize (Hn ltac:(done)); lia].
    rewrite <- !size_dom. apply subset_size. destruct (R r Hr) as (a & _ & Hx). split.
    + by apply subseteq_dom.
    + intros Hsub. specialize (Hsub (xr_address r)). rewrite !elem_of_dom, (F r Hr) in Hsub.
      destruct Hsub; [by eexists|done].
Qed.

(** ** Walking *)

Section Walk.
Variables (aliases : gmap string expansionAlias) (N A K : gset string).
Hypothesis Hclosed : forall x y, x ∈ N -> edge aliases x y -> y ∈ N.
Hypothesis Hacyclic : forall x, x ∈ N -> ~ tc (edge aliases) x x.
Hypothesis Hsize : too_many (size N) = false.
Hypothesis Haliases : dom aliases ⊆ A.
Hypothesis HA : size A < maxQueueSources.
Hypothesis Hkeys : forall x a, aliases !! x = Some a -> source_key (alias_source a) ∈ K.
Hypothesis HK : size K <= maxQueueSources.

(** What a walk keeps within the bounds. *)
Definition in_bounds (leaves : gset string) (sources : gmap string QueueSource) : Prop :=
  leaves ⊆ N /\ dom sources ⊆ K.

Definition answers (run : result (gset string * gmap string QueueSource)) : Prop :=
  exists leaves sources, run = Ok (leaves, sources) /\ in_bounds leaves sources.

Lemma walk_targets_total n active : forall l leaves sources,
  (forall t leaves sources, t ∈ l -> in_bounds leaves sources ->
     answers (walkExpansionGraph n aliases t active leaves sources)) ->
  in_bounds leaves sources ->
  answers (walk_targets n aliases active l leaves sources).
Proof.
  induction l as [|t l IH]; intros leaves sources Hl Hb; [by exists leaves, sources|].
  destruct (Hl t leaves sources) as (leaves' & sources' & Hw & Hb'); [left|done|].
  cbn [walk_targets]. rewrite Hw. apply IH; [|done]. intros t' ? ? ? ?. apply Hl; [by right|done].
Qed.

Lemma walk_total : forall n current active leaves sources,
  current ∈ N -> active ⊆ A -> (forall x, x ∈ active -> tc (edge aliases) x current) ->
  in_bounds leaves sources -> maxQueueSources <= n + size active ->
  answers (walkExpansionGraph n aliases current active leaves sources).
Proof.
  induction n as [|n IH]; intros current active leaves sources Hc Ha Hact [Hl Hs] Hn;
    pose proof (subseteq_size _ _ Ha) as Hsz; [lia|].
  cbn [walkExpansionGraph]. destruct (aliases !! current) as [alias|] eqn:Ec.
  - assert (current ∉ active) as Hnot by (intros Hin; by apply (Hacyclic current Hc), Hact).
    rewrite bool_decide_eq_false_2 by done.
    assert (dom (<[source_key (alias_source alias):=alias_source alias]> sources) ⊆ K) as Hd.
    { rewrite dom_insert_L. pose proof (Hkeys _ _ Ec). set_solver. }
    pose proof (subseteq_size _ _ Hd) as Hdk. rewrite size_dom in Hdk.
    destruct (_ <? _) eqn:E; [to_prop; lia|].
    apply (walk_targets_total n); [|by split].
    intros t lv src Ht Hb. assert (edge aliases current t) as He by (by exists alias).
    apply IH; [by eapply Hclosed| | |done|].
    + assert (current ∈ A) by (apply Haliases, elem_of_dom; by eexists). set_solver.
    + intros x [->%elem_of_singleton|Hx]%elem_of_union; [by apply tc_once|].
      eapply tc_r; [by apply Hact|done].
    + rewrite size_union by set_solver. rewrite size_singleton. lia.
  - assert ({[current]} ∪ leaves ⊆ N) as Hlv by set_solver.
    rewrite (too_many_le _ _ (subseteq_size _ _ Hlv) Hsize). by eexists _, _.
Qed.
End Walk.

(** The keys of the sources of a set of aliases. *)
Definition source_keys aliases : gset string :=
  list_to_set (map (fun p => source_key (alias_source p.2)) (map_to_list aliases)).

Lemma size_list_le (l : list string) : size (list_to_set l : gset string) <= length l.
Proof.
  induction l as [|x l IH]; [by rewrite list_to_set_nil, size_empty|].
  rewrite list_to_set_cons. cbn [length].
  destruct (decide (x ∈ (list_to_set l : gset string))).
  - assert ({[x]} ∪ list_to_set l = (list_to_set l : gset string)) as -> by set_solver. lia.
  - rewrite size_union by set_solver. rewrite size_singleton. lia.
Qed.

(** C15: expanding a recipient terminates with an answer.  Over a database that
    answers, an address whose stored alias graph is acyclic, has usable rows,
    at most 10,000 addresses and fewer than 64 aliases expands successfully:
    neither loop runs into its depth bound or any other limit. *)
Theorem expandOriginal_terminates raw original domain w N A :
  reliable w -> normalizeQueueRecipient raw = Ok (original, domain) ->
  bounded_graph (w_db w) N A -> original ∈ N ->
  exists recipients objects w', expandOriginal raw w = (Ok (recipients, objects), w').
Proof.
  intros Hw Hraw Hb Ho. pose proof Hb as [Hclosed _ Hacyclic Hsize HAN HA].
  destruct (load_layers_total (w_db w) N A Hb maxQueueSources ∅ ∅ [original] w)
    as (aliases & w1 & Hload & _ & Hal); [done..| | | |].
  { set_solver. }
  { intros t ->%list_elem_of_singleton. done. }
  { lia. }
  assert (forall x y, edge aliases x y -> db_edge (w_db w) x y) as Hedge.
  { intros x y (a & Ha & Hy). exists a. by apply Hal in Ha as []. }
  assert (dom aliases ⊆ A) as HdA by (intros x [a Hx]%elem_of_dom; by apply Hal in Hx as []).
  destruct (walk_total aliases N A (source_keys aliases)) with (n := maxQueueSources)
    (current := original) (active := (∅ : gset string)) (leaves := (∅ : gset string))
    (sources := (∅ : gmap string QueueSource)) as (lv & src & Hwalk & _); try done.
  - intros x y Hx He. by eapply Hclosed, Hedge.
  - intros x Hx Hc. apply (Hacyclic x Hx). by eapply tc_congruence with (f := id), Hc.
  - intros x a Hx. apply elem_of_list_to_set, list_elem_of_fmap. exists (x, a).
    by rewrite elem_of_map_to_list.
  - etrans; [apply size_list_le|]. rewrite length_map. rewrite length_map_to_list.
    apply subseteq_size in HdA. rewrite size_dom in HdA. lia.
  - exists (sorted_set lv), (sorted_sources src), w1. unfold expandOriginal, loadExpansionAliases.
    rewrite Hraw. cbn [relabel]. unfold mbind, M_bind, liftM. cbn [fst]. rewrite Hload. by rewrite Hwalk.
Qed.
End Total.
