(* ===== verification/HoldMachine.v ===== *)
(** * The hold-state machine

    The abstract specification of what the queue services may do to a queued
    message: the audited transitions of its hold state.  [step_row] is one
    transition of a row of outbound_queue_messages, [transition] one committed
    transition of the database together with its audit event, and [history]
    (their reflexive transitive closure) what a run of any service may add up
    to.  Reconcile.v, Release.v and Activation.v show that the services of the
    source refine [history] under every schedule of database failures, and
    HoldTrail.v what that means for the audit log they write. *)

From stdpp Require Import base list gmap sets strings relations.
From Stdlib Require Import ZArith Lia.
From S2P Require Import Prelude GoStd Policy Queue AuditLog Database.

(** ** Transitions *)

Inductive hold_action :=
| ARequire | AStart | AApplied | AFailed | AReleaseStart | AReleased | AReleaseFailed.

#[export] Instance hold_action_eq_dec : EqDecision hold_action.
Proof. solve_decision. Defined.

(** The audit action each transition is recorded under. *)
Definition action_name (a : hold_action) : string :=
  match a with
  | ARequire => "queue.policy_hold.required"
  | AStart => "queue.policy_hold.reconcile_start"
  | AApplied => "queue.policy_hold.applied"
  | AFailed => "queue.policy_hold.failed"
  | AReleaseStart => "queue.policy_hold.release_start"
  | AReleased => "queue.policy_hold.released"
  | AReleaseFailed => "queue.policy_hold.release_failed"
  end.

Definition action_from (a : hold_action) : list string :=
  match a with
  | ARequire => [HoldPending; HoldRequired; HoldReconciling; HoldApplied;
                 HoldReconciliationError; HoldReleaseReconciling; HoldReleaseError;
                 HoldReleased]
  | AStart => [HoldRequired; HoldReconciliationError; HoldReconciling; HoldApplied]
  | AApplied | AFailed => [HoldReconciling]
  | AReleaseStart => [HoldApplied; HoldReleaseError; HoldReleaseReconciling]
  | AReleased | AReleaseFailed => [HoldReleaseReconciling]
  end.

Definition action_target (a : hold_action) : string :=
  match a with
  | ARequire => HoldRequired
  | AStart => HoldReconciling
  | AApplied => HoldApplied
  | AFailed => HoldReconciliationError
  | AReleaseStart => HoldReleaseReconciling
  | AReleased => HoldReleased
  | AReleaseFailed => HoldReleaseError
  end.

Definition counts_attempt (a : hold_action) : bool :=
  match a with AStart | AReleaseStart => true | _ => false end.
Definition is_failure (a : hold_action) : bool :=
  match a with AFailed | AReleaseFailed => true | _ => false end.

(** The columns no transition may touch. *)
Definition identity_columns (r : QueueRow) : string * string * string * string * Z :=
  (qw_arrival_fingerprint r, qw_envelope_sender r, qw_recipient_set_digest r,
   qw_source_set_digest r, qw_first_seen_at r).

Record step_row (a : hold_action) (r r' : QueueRow) : Prop := {
  st_from : qw_hold_state r ∈ action_from a;
  st_target : qw_hold_state r' = action_target a;
  st_identity : identity_columns r' = identity_columns r;
  st_attempts : qw_attempts r' = (qw_attempts r + if counts_attempt a then 1 else 0)%Z;
  st_policy : if bool_decide (a = ARequire)
              then qw_policy_reason r' = Some ReasonPolicyHold
              else qw_policy_reason r' = qw_policy_reason r
                   /\ qw_revisions r' = qw_revisions r;
  st_error : if is_failure a then exists code, qw_last_error_code r' = Some code
             else qw_last_error_code r' = None;
  st_check : queue_row_check r' = true;
}.

(** One committed transition: one row, one audit event that names it. *)
Inductive transition (d d' : DB) : Prop :=
| transition_intro queueID a row row' ev
    (HT_row : db_queues d !! queueID = Some row)
    (HT_step : step_row a row row')
    (HT_action : ev_action ev = action_name a)
    (HT_resource : ev_resource ev =
       {| resource_type := "postfix_queue"; resource_id := queueID |})
    (HT_db : d' = with_audit (fun l => l ++ [ev]) (with_queues (<[queueID := row']>) d)).

Definition history : relation DB := rtc transition.

#[export] Instance history_preorder : PreOrder history.
Proof. unfold history. split; apply _. Qed.

(** ** Reading the audit trail *)

Definition all_actions : list hold_action :=
  [ARequire; AStart; AApplied; AFailed; AReleaseStart; AReleased; AReleaseFailed].

Definition audit_action (action : string) : option hold_action :=
  find (fun a => action =?s action_name a) all_actions.

Definition about_queue (queueID : string) (ev : Event) : bool :=
  (resource_type (ev_resource ev) =?s "postfix_queue")
  && (resource_id (ev_resource ev) =?s queueID).

(** The actions the trail records for one message. *)
Definition trail (queueID : string) (evs : list Event) : list hold_action :=
  omap (fun ev => if about_queue queueID ev then audit_action (ev_action ev) else None) evs.

(** The hold state and the attempt counter an auditor computes. *)
Definition replay (state : string) (l : list hold_action) : string :=
  foldl (fun _ a => action_target a) state l.
Definition attempts_of (l : list hold_action) : Z :=
  Z.of_nat (length (filter (fun a => counts_attempt a = true) l)).

Lemma audit_action_name a : audit_action (action_name a) = Some a.
Proof. by destruct a. Qed.

Lemma trail_app queueID l k : trail queueID (l ++ k) = trail queueID l ++ trail queueID k.
Proof. apply omap_app. Qed.

(** One event of a transition, as the trail of a message sees it. *)
Lemma trail_event queueID q a ev :
  ev_action ev = action_name a ->
  ev_resource ev = {| resource_type := "postfix_queue"; resource_id := q |} ->
  trail queueID [ev] = if decide (queueID = q) then [a] else [].
Proof.
  intros Ha Hr. unfold trail, about_queue. cbn [omap list_omap]. rewrite Ha, Hr. simpl.
  case_decide as Hq.
  - subst. by rewrite eqs_refl, audit_action_name.
  - assert ((q =?s queueID) = false) as -> by (by apply eqs_false). done.
Qed.

(** ** What every history preserves *)

(** The tables the hold machine never writes. *)
Definition other_tables (d : DB) :=
  (db_domains d, db_mailboxes d, db_aliases d, db_senders d, db_recipients d, db_sources d).

Record explains (d d' : DB) (evs : list Event) : Prop := {
  ex_audit : db_audit d' = db_audit d ++ evs;
  ex_tables : other_tables d' = other_tables d;
  ex_rows : forall q row, db_queues d !! q = Some row ->
    exists row', db_queues d' !! q = Some row'
      /\ qw_hold_state row' = replay (qw_hold_state row) (trail q evs)
      /\ identity_columns row' = identity_columns row
      /\ qw_attempts row' = (qw_attempts row + attempts_of (trail q evs))%Z;
  ex_absent : forall q, db_queues d !! q = None -> db_queues d' !! q = None;
}.

Lemma explains_nil d : explains d d [].
Proof.
  split; [by rewrite app_nil_r|done| |done]. intros q row Hq. exists row.
  split_and!; [done..|]. unfold attempts_of. simpl. lia.
Qed.

Lemma transition_explains d d' : transition d d' -> exists ev, explains d d' [ev].
Proof.
  intros [q a row row' ev Hrow Hs Ha Hr ->]. exists ev. split; [done|done| |].
  - intros k r Hk. rewrite (trail_event k q a ev Ha Hr). simpl. case_decide as Hkq.
    + subst k. rewrite Hrow in Hk. injection Hk as <-. exists row'.
      rewrite lookup_insert_eq. destruct Hs as [_ Ht Hi Hn _ _ _].
      split_and!; [done|done|done|]. rewrite Hn. unfold attempts_of. by destruct a.
    + exists r. rewrite lookup_insert_ne by done. split_and!; [done..|].
      unfold attempts_of. simpl. lia.
  - intros k Hk. simpl. rewrite lookup_insert_ne; [done|]. intros ->. congruence.
Qed.

Lemma explains_app d1 d2 d3 evs1 evs2 :
  explains d1 d2 evs1 -> explains d2 d3 evs2 -> explains d1 d3 (evs1 ++ evs2).
Proof.
  intros [A1 T1 R1 N1] [A2 T2 R2 N2]. split; [|congruence| |by auto].
  - by rewrite A2, A1, app_assoc.
  - intros q row (row1 & H1 & S1 & I1 & C1)%R1. apply R2 in H1 as (row2 & H2 & S2 & I2 & C2).
    exists row2. rewrite trail_app. split_and!; [done| |congruence|].
    + rewrite S2, S1. unfold replay. by rewrite foldl_app.
    + rewrite C2, C1. unfold attempts_of. rewrite filter_app, length_app. lia.
Qed.

Lemma history_explained d d' : history d d' -> exists evs, explains d d' evs.
Proof.
  induction 1 as [d|d1 d2 d3 [ev H12]%transition_explains _ [evs IH]].
  - exists []. apply explains_nil.
  - exists ([ev] ++ evs). by eapply explains_app.
Qed.

(** The hold state of one message. *)
Definition state_of (d : DB) (queueID : string) : option string :=
  qw_hold_state <$> db_queues d !! queueID.

(** The states a message has once it has been held. *)
Definition past_hold : list string :=
  [HoldApplied; HoldReleaseReconciling; HoldReleaseError; HoldReleased].

Lemma transition_state d d' q st' :
  transition d d' -> state_of d' q = Some st' ->
  state_of d q = Some st'
  \/ exists a st, state_of d q = Some st /\ st ∈ action_from a /\ st' = action_target a.
Proof.
  intros [k a row row' ev Hrow [Hf Ht _ _ _ _ _] _ _ ->]. unfold state_of. simpl.
  rewrite lookup_insert. case_decide as Hk; [|by left].
  subst k. simpl. intros [= <-]. right. exists a, (qw_hold_state row). by rewrite Hrow.
Qed.

Lemma into_past_hold a st :
  st ∈ action_from a -> action_target a ∈ past_hold ->
  action_target a = HoldApplied \/ st ∈ past_hold.
Proof.
  intros Hf Ht. destruct a; simpl in *; try (by left); try set_solver.
  all: right; set_solver.
Qed.

(** A message is released only after it was verified as held: in every
    history that takes a message from a state before any hold to "released",
    an intermediate database has it as "held". *)
Theorem released_was_held d d' q st :
  history d d' -> state_of d q = Some st -> st ∉ past_hold ->
  state_of d' q = Some HoldReleased ->
  exists dm, history d dm /\ history dm d' /\ state_of dm q = Some HoldApplied.
Proof.
  intros H Hst Hn.
  assert (forall st', state_of d' q = Some st' -> st' ∈ past_hold ->
    exists dm, history d dm /\ history dm d' /\ state_of dm q = Some HoldApplied) as Hgen.
  { revert d' H. apply (rtc_ind_r (fun z => forall st', state_of z q = Some st' ->
      st' ∈ past_hold -> exists dm, history d dm /\ history dm z /\ _) d).
    - intros st' ?. congruence.
    - intros y z Hy Hyz IH st' Hst' Hin.
      assert (forall s, state_of y q = Some s -> s ∈ past_hold ->
        exists dm, history d dm /\ history dm z /\ state_of dm q = Some HoldApplied) as Hy'.
      { intros s Hs Hs'. destruct (IH s Hs Hs') as (dm & ? & ? & ?).
        exists dm. split_and!; [done| |done]. by eapply rtc_r. }
      destruct (transition_state _ _ _ _ Hyz Hst') as [Hs|(a & s1 & Hs & Hf & ->)];
        [by eapply Hy'|].
      destruct (into_past_hold a s1 Hf Hin) as [Ht|Hs1]; [|by eapply Hy'].
      exists z. split_and!; [by eapply rtc_r|apply rtc_refl|]. by rewrite Hst', Ht. }
  intros Hr. apply (Hgen _ Hr). set_solver.
Qed.
