(* ===== verification/Reconcile.v ===== *)
(** * Hold reconciliation (internal/outboundpolicy/reconcile.go)

    [RequireHold] records that a message must be held; [Reconcile] brings
    Postfix into that state through the queue boundary and verifies the result.
    The boundary is the interfaces QueueInspector, QueueHolder and
    QueueReleaseBoundary of the source: the class [QueueBoundary] over the
    state [PS] of the Postfix helper. *)

From stdpp Require Import base list gmap sets strings relations.
From Stdlib Require Import ZArith Lia.
From S2P Require Import Prelude GoStd Policy Queue AuditLog Database QueueStore HoldMachine.

(** ** The Postfix boundary *)

Class QueueBoundary (PS : Type) := {
  Inspect : string -> PS -> result QueueMetadata * PS;
  Hold : string -> PS -> result unit * PS;
  ReleaseHold : string -> PS -> result unit * PS;
}.

Record ReconcileResult := { rr_record : QueueRecord; rr_changed : bool }.

(** ** Row updates *)

Definition set_required (reason : string) (revisions : gmap string N) (now : Z)
    (r : QueueRow) : QueueRow :=
  {| qw_arrival_fingerprint := qw_arrival_fingerprint r;
     qw_envelope_sender := qw_envelope_sender r;
     qw_recipient_set_digest := qw_recipient_set_digest r;
     qw_source_set_digest := qw_source_set_digest r;
     qw_hold_state := HoldRequired; qw_policy_reason := Some reason;
     qw_revisions := encode_revisions revisions; qw_attempts := qw_attempts r;
     qw_last_error_code := None;
     qw_first_seen_at := qw_first_seen_at r; qw_updated_at := now |}.

(** SET hold_state=..., reconciliation_attempts=reconciliation_attempts+1,
    last_error_code=NULL, updated_at=... *)
Definition set_started (state : string) (now : Z) (r : QueueRow) : QueueRow :=
  {| qw_arrival_fingerprint := qw_arrival_fingerprint r;
     qw_envelope_sender := qw_envelope_sender r;
     qw_recipient_set_digest := qw_recipient_set_digest r;
     qw_source_set_digest := qw_source_set_digest r;
     qw_hold_state := state; qw_policy_reason := qw_policy_reason r;
     qw_revisions := qw_revisions r; qw_attempts := qw_attempts r + 1;
     qw_last_error_code := None;
     qw_first_seen_at := qw_first_seen_at r; qw_updated_at := now |}.

(** SET hold_state=$1, last_error_code=$2, updated_at=$3 *)
Definition set_finished (state : string) (code : option string) (now : Z) (r : QueueRow)
    : QueueRow :=
  {| qw_arrival_fingerprint := qw_arrival_fingerprint r;
     qw_envelope_sender := qw_envelope_sender r;
     qw_recipient_set_digest := qw_recipient_set_digest r;
     qw_source_set_digest := qw_source_set_digest r;
     qw_hold_state := state; qw_policy_reason := qw_policy_reason r;
     qw_revisions := qw_revisions r; qw_attempts := qw_attempts r;
     qw_last_error_code := code;
     qw_first_seen_at := qw_first_seen_at r; qw_updated_at := now |}.

Definition state_in (l : list string) (r : QueueRow) : bool :=
  existsb (String.eqb (qw_hold_state r)) l.

(** A Go map in an audit payload: a nil map is null. *)
Definition json_revisions (m : gmap string N) : json :=
  if size m =? 0 then JNull else encode_revisions m.

(** [var errorCode any; if code != "" { errorCode = code }] *)
Definition error_code (code : string) : option string :=
  if code <>?s "" then Some code else None.
Definition json_error_code (code : string) : json :=
  match error_code code with Some c => JStr c | None => JNull end.

(** An audit event about one queued message. *)
Definition queue_event (now : Z) (actor : ActorRef) (correlationID queueID action : string)
    (before after : json) (resultName : string) : Event :=
  {| ev_id := ""; ev_time := now; ev_actor := actor; ev_source := None; ev_action := action;
     ev_resource := {| resource_type := "postfix_queue"; resource_id := queueID |};
     ev_before := before; ev_after := after; ev_correlation_id := correlationID;
     ev_result := resultName; ev_error_code := "" |}.

(** [record.ReconciliationAttempts + 1] on uint64. *)
Definition next_attempt (n : N) : N := ((n + 1) mod 2 ^ 64)%N.

Section Reconcile.
Context `{HOST : !Host} {PS : Type}.

Definition valid_actor (actor : ActorRef) : bool :=
  (actor_type actor <>?s "") && (actor_id actor <>?s "").

(** ** RequireHold *)

Definition stored_revisions (row : QueueRow) : result (gmap string N) :=
  match decode_revisions (qw_revisions row) with
  | None => Err "stored outbound queue policy revisions are invalid"
  | Some prior =>
      if (0 <? size prior)
         && negb match canonicalPolicyRevisions prior with
                 | Ok canonicalPrior => revisionMapsEqual prior canonicalPrior
                 | Err _ => false
                 end
      then Err "stored outbound queue policy revisions are invalid"
      else Ok prior
  end.

(** Nothing to do: the same requirement is already recorded. *)
Definition already_required (row : QueueRow) (prior revisions : gmap string N)
    (decision : Decision) : bool :=
  match qw_policy_reason row with
  | Some r => r =?s d_reason decision
  | None => false
  end
  && revisionMapsEqual prior revisions
  && state_in [HoldRequired; HoldReconciling; HoldApplied; HoldReconciliationError] row.

Definition require_hold_body (actor : ActorRef) (correlationID queueID : string)
    (decision : Decision) (revisions : gmap string N) : M PS (bool * unit) :=
  row ← queryM (select_queue queueID);
  guardM (negb (validHoldState (qw_hold_state row))) "stored outbound queue state is invalid";;
  prior ← liftM (stored_revisions row);
  guardM (negb (validQueuePolicyState (qw_hold_state row)
                  (match qw_policy_reason row with Some _ => true | None => false end)
                  (default "" (qw_policy_reason row)) prior))
    "stored outbound queue policy state is invalid";;
  if already_required row prior revisions decision then mret (false, tt) else
  now ← nowM;
  execM (update_queue queueID (fun _ => true)
           (set_required (d_reason decision) revisions now));;
  WriteSQL (queue_event now actor correlationID queueID "queue.policy_hold.required"
    (JObj [("state", JStr (qw_hold_state row))])
    (JObj [("state", JStr HoldRequired); ("reason", JStr (d_reason decision));
           ("revisions", json_revisions revisions)])
    "success");;
  mret (true, tt).

Definition RequireHold (actor : ActorRef) (correlationID queueID : string)
    (decision : Decision) : M PS unit :=
  guardM (negb (valid_actor actor) || (correlationID =?s ""))
    "actor and correlation ID are required";;
  guardM (negb (validLongQueueID queueID) || (d_action decision <>?s ActionDefer)
          || (d_reason decision <>?s ReasonPolicyHold))
    "invalid outbound queue hold decision";;
  revisions ← liftM (canonicalPolicyRevisions (d_revisions decision));
  transaction (require_hold_body actor correlationID queueID decision revisions).

(** ** Attempt bookkeeping *)

Definition start_body (actor : ActorRef) (correlationID : string) (record : QueueRecord)
    (from : list string) (target action changed : string) : M PS (bool * unit) :=
  now ← nowM;
  affected ← execM (update_queue (qr_queue_id record) (state_in from)
                      (set_started target now));
  guardM (negb (affected =? 1)) changed;;
  WriteSQL (queue_event now actor correlationID (qr_queue_id record) action
    (JObj [("state", JStr (qr_hold_state record));
           ("attempts", JNum (Z.of_N (qr_reconciliation_attempts record)))])
    (JObj [("state", JStr target);
           ("attempts", JNum (Z.of_N (next_attempt (qr_reconciliation_attempts record))))])
    "success");;
  mret (true, tt).

Definition finish_body (actor : ActorRef) (correlationID : string) (record : QueueRecord)
    (from state code action resultName changed : string) : M PS (bool * unit) :=
  now ← nowM;
  affected ← execM (update_queue (qr_queue_id record) (state_in [from])
                      (set_finished state (error_code code) now));
  guardM (negb (affected =? 1)) changed;;
  WriteSQL (queue_event now actor correlationID (qr_queue_id record) action
    (JObj [("state", JStr from)])
    (JObj [("state", JStr state); ("error_code", json_error_code code)])
    resultName);;
  mret (true, tt).

Definition startQueueReconciliation (actor : ActorRef) (correlationID : string)
    (record : QueueRecord) : M PS unit :=
  transaction (start_body actor correlationID record
    [HoldRequired; HoldReconciliationError; HoldReconciling; HoldApplied]
    HoldReconciling "queue.policy_hold.reconcile_start"
    "outbound queue reconciliation state changed").

Definition finishQueueReconciliation (actor : ActorRef) (correlationID : string)
    (record : QueueRecord) (state code : string) : M PS unit :=
  guardM ((state <>?s HoldApplied) && (state <>?s HoldReconciliationError))
    "invalid outbound queue reconciliation result";;
  guardM ((state =?s HoldReconciliationError) && negb (validQueueErrorCode code))
    "invalid outbound queue reconciliation error code";;
  let failed := state =?s HoldReconciliationError in
  transaction (finish_body actor correlationID record HoldReconciling state code
    (if failed then "queue.policy_hold.failed" else "queue.policy_hold.applied")
    (if failed then "failure" else "success")
    "outbound queue reconciliation state changed").

(** A connection that holds the advisory lock of the queue ID around [body],
    whose second component is the error returned beside the value.  One
    outcome stands for the unlock and the closing of the connection. *)
Definition with_queue_lock {A} (body : M PS (A * option string))
    : M PS (A * option string) :=
  roundtripM;;
  roundtripM;;
  returned ← tryM body;
  unlock ← tryM roundtripM;
  liftM match returned, unlock with
        | Ok (a, None), Err unlockErr => Ok (a, Some unlockErr)
        | _, _ => returned
        end.

Definition reconcile_fail (actor : ActorRef) (correlationID : string) (record : QueueRecord)
    (code : string) : M PS (ReconcileResult * option string) :=
  finishQueueReconciliation actor correlationID record HoldReconciliationError code;;
  stored ← loadQueueRecord (qr_queue_id record);
  mret ({| rr_record := stored; rr_changed := true |}, Some code).

Context `{BOUND : !QueueBoundary PS}.

(** The hold itself and the second inspection, when the message is not yet
    held: the metadata to judge, or the failure code. *)
Definition hold_and_inspect (queueID : string) (record : QueueRecord)
    : M PS (string + QueueMetadata) :=
  held ← tryM (extM (Hold queueID));
  match held with
  | Err _ => mret (inl "queue_hold_failed")
  | Ok _ =>
      inspected ← tryM (extM (Inspect queueID));
      match inspected with
      | Err _ => mret (inl "queue_post_hold_inspection_failed")
      | Ok metadata =>
          if negb (matchesQueueMetadata record metadata)
          then mret (inl "queue_post_hold_metadata_mismatch")
          else mret (inr metadata)
      end
  end.

(** Everything after the attempt was recorded. *)
Definition reconcile_attempt (actor : ActorRef) (correlationID queueID : string)
    (record : QueueRecord) : M PS (ReconcileResult * option string) :=
  inspected ← tryM (extM (Inspect queueID));
  match inspected with
  | Err _ => reconcile_fail actor correlationID record "queue_inspection_failed"
  | Ok metadata0 =>
      if negb (matchesQueueMetadata record metadata0)
      then reconcile_fail actor correlationID record "queue_metadata_mismatch" else
      observed ← (if qm_held metadata0 then mret (inr metadata0)
                  else hold_and_inspect queueID record);
      match observed with
      | inl code => reconcile_fail actor correlationID record code
      | inr metadata =>
          if negb (qm_held metadata)
          then reconcile_fail actor correlationID record "queue_hold_not_observed" else
          finishQueueReconciliation actor correlationID record HoldApplied "";;
          stored ← loadQueueRecord queueID;
          mret ({| rr_record := stored; rr_changed := true |}, None)
      end
  end.

Definition reconcile_locked (actor : ActorRef) (correlationID queueID : string)
    : M PS (ReconcileResult * option string) :=
  record ← loadQueueRecord queueID;
  still_held ← (if qr_hold_state record =?s HoldApplied
                then inspected ← tryM (extM (Inspect queueID));
                     mret match inspected with
                          | Ok metadata => qm_held metadata
                                           && matchesQueueMetadata record metadata
                          | Err _ => false
                          end
                else mret false);
  if (still_held : bool)
  then mret ({| rr_record := record; rr_changed := false |}, None) else
  guardM ((qr_hold_state record <>?s HoldRequired)
          && (qr_hold_state record <>?s HoldReconciliationError)
          && (qr_hold_state record <>?s HoldReconciling)
          && (qr_hold_state record <>?s HoldApplied))
    "outbound queue message does not require a hold";;
  startQueueReconciliation actor correlationID record;;
  reconcile_attempt actor correlationID queueID record.

Definition Reconcile (actor : ActorRef) (correlationID queueID : string)
    : M PS (ReconcileResult * option string) :=
  guardM (negb (valid_actor actor) || (correlationID =?s "")
          || negb (validLongQueueID queueID))
    "invalid outbound queue reconciliation request";;
  with_queue_lock (reconcile_locked actor correlationID queueID).
End Reconcile.

(** ** Refinement of the hold machine *)

Lemma state_in_spec l r : state_in l r = true <-> qw_hold_state r ∈ l.
Proof.
  unfold state_in. rewrite existsb_exists. setoid_rewrite <- list_elem_of_In. split.
  - by intros (x & Hx & ->%eqs_true).
  - intros H. exists (qw_hold_state r). split; [done|apply eqs_refl].
Qed.

Section Refinement.
Context `{HOST : !Host} {PS : Type}.
Implicit Types (w : World PS).

(** The pattern of every audited update: the row, then the event. *)
Lemma audited_transition a queueID row set e w w1 w2 u :
  db_queues (w_db w) !! queueID = Some row -> step_row a row (set row) ->
  w_db w1 = with_queues (<[queueID := set row]>) (w_db w) ->
  WriteSQL e w1 = (Ok u, w2) -> ev_action e = action_name a ->
  ev_resource e = {| resource_type := "postfix_queue"; resource_id := queueID |} ->
  transition (w_db w) (w_db w2).
Proof.
  intros Hrow Hs Hd (ev & -> & _ & Ha & Hr & _)%WriteSQL_ok Ha' Hr'.
  econstructor; [exact Hrow|exact Hs|by rewrite Ha|by rewrite Hr|by rewrite Hd].
Qed.

Lemma nowM_db w t w' : nowM w = (Ok t, w') -> w_db w' = w_db w /\ w_ext w' = w_ext w.
Proof. destruct (nowM_run w) as (t' & w1 & E & ? & ? & _). rewrite E. by intros [= _ <-]. Qed.

Lemma step_started a now r :
  counts_attempt a = true -> state_in (action_from a) r = true ->
  queue_row_check (set_started (action_target a) now r) = true ->
  step_row a r (set_started (action_target a) now r).
Proof. intros Ha Hf%state_in_spec Hc. split; try done; by destruct a. Qed.

Lemma step_finished a code now r :
  counts_attempt a = false -> a <> ARequire -> state_in (action_from a) r = true ->
  (if is_failure a then code <> None else code = None) ->
  queue_row_check (set_finished (action_target a) code now r) = true ->
  step_row a r (set_finished (action_target a) code now r).
Proof.
  intros Ha Hr Hf%state_in_spec Hcode Hc. split; try done; destruct a; try done; simpl in *.
  all: first [lia | destruct code; [by eexists|done]].
Qed.

Lemma start_body_ok a actor cid record changed w b u w' :
  counts_attempt a = true ->
  start_body actor cid record (action_from a) (action_target a) (action_name a) changed w
    = (Ok (b, u), w') ->
  b = true /\ transition (w_db w) (w_db w') /\ w_ext w' = w_ext w
  /\ state_of (w_db w') (qr_queue_id record) = Some (action_target a).
Proof.
  intros Ha H. unfold start_body in H.
  apply bind_ok in H as (now & w1 & [D1 X1]%nowM_db & H).
  apply bind_ok in H as (n & w2 & [Hu X2]%execM_ok & H).
  apply bind_ok in H as ([] & ? & [Hn ->]%guardM_ok & H). to_prop. subst n.
  apply bind_ok in H as ([] & w3 & Hw & H). injection H as <- <- <-.
  apply update_queue_ok in Hu as (row & Hrow & Hc & Hck & _ & Hd); [|done].
  rewrite D1 in Hrow, Hd. split_and!; [done|..].
  - eapply audited_transition; [exact Hrow|by apply (step_started _ now)|exact Hd|exact Hw|done..].
  - apply WriteSQL_ok in Hw as (ev & _ & -> & _). congruence.
  - apply WriteSQL_ok in Hw as (ev & -> & _). unfold state_of. simpl.
    rewrite Hd. simpl. by rewrite lookup_insert_eq.
Qed.

Lemma finish_body_ok a actor cid record code resultName changed w b u w' :
  counts_attempt a = false -> a <> ARequire ->
  (if is_failure a then code <> "" else code = "") ->
  finish_body actor cid record
    (match action_from a with from :: _ => from | [] => "" end)
    (action_target a) code (action_name a) resultName changed w = (Ok (b, u), w') ->
  b = true /\ transition (w_db w) (w_db w') /\ w_ext w' = w_ext w
  /\ state_of (w_db w') (qr_queue_id record) = Some (action_target a).
Proof.
  intros Ha Hr Hcode H. unfold finish_body in H.
  apply bind_ok in H as (now & w1 & [D1 X1]%nowM_db & H).
  apply bind_ok in H as (n & w2 & [Hu X2]%execM_ok & H).
  apply bind_ok in H as ([] & ? & [Hn ->]%guardM_ok & H). to_prop. subst n.
  apply bind_ok in H as ([] & w3 & Hw & H). injection H as <- <- <-.
  apply update_queue_ok in Hu as (row & Hrow & Hc & Hck & _ & Hd); [|done].
  rewrite D1 in Hrow, Hd. split_and!; [done|..].
  - eapply audited_transition; [exact Hrow| |exact Hd|exact Hw|done..].
    apply (step_finished a (error_code code)); try done.
    + by destruct a.
    + unfold error_code. destruct (is_failure a); [|by subst].
      apply eqs_false in Hcode. by rewrite Hcode.
  - apply WriteSQL_ok in Hw as (ev & _ & -> & _). congruence.
  - apply WriteSQL_ok in Hw as (ev & -> & _). unfold state_of. simpl.
    rewrite Hd. simpl. by rewrite lookup_insert_eq.
Qed.

Lemma startQueueReconciliation_history actor cid record :
  effect (PS := PS) history (startQueueReconciliation actor cid record).
Proof.
  apply (effect_commit history). intros w1 u w2 H.
  apply (start_body_ok AStart) in H as (_ & Ht & _); [|done]. by apply rtc_once.
Qed.

Lemma validHoldState_from state : validHoldState state = true -> state ∈ action_from ARequire.
Proof.
  unfold validHoldState. rewrite existsb_exists. intros (x & Hx & ->%eqs_true).
  by apply list_elem_of_In.
Qed.

Lemma require_hold_body_ok actor cid queueID decision revisions w b u w' :
  d_reason decision = ReasonPolicyHold ->
  require_hold_body actor cid queueID decision revisions w = (Ok (b, u), w') ->
  w_ext w' = w_ext w /\
  if b then transition (w_db w) (w_db w')
            /\ exists row now, db_queues (w_db w) !! queueID = Some row
                 /\ db_queues (w_db w') !! queueID
                    = Some (set_required ReasonPolicyHold revisions now row)
  else w_db w' = w_db w
       /\ exists row prior, db_queues (w_db w) !! queueID = Some row
            /\ stored_revisions row = Ok prior
            /\ already_required row prior revisions decision = true.
Proof.
  intros Hreason H. unfold require_hold_body in H.
  apply bind_ok in H as (row & w1 & (Hq & D1 & X1)%queryM_ok & H).
  unfold select_queue in Hq.
  destruct (db_queues (w_db w) !! queueID) as [row'|] eqn:Erow; [|done]. injection Hq as ->.
  apply bind_ok in H as ([] & ? & [Hv ->]%guardM_ok & H).
  apply bind_ok in H as (prior & ? & [Hprior ->]%liftM_ok & H).
  apply bind_ok in H as ([] & ? & [_ ->]%guardM_ok & H). to_prop.
  destruct (already_required row prior revisions decision) eqn:Ealready.
  { injection H as <- <- <-. split; [done|]. split; [done|]. by exists row, prior. }
  apply bind_ok in H as (now & w2 & [D2 X2]%nowM_db & H).
  apply bind_ok in H as (n & w3 & [Hu X3]%execM_ok & H).
  apply bind_ok in H as ([] & w4 & Hw & H). injection H as <- <- <-.
  rewrite D2, D1 in Hu. unfold update_queue in Hu. rewrite Erow in Hu.
  destruct (queue_row_check _) eqn:Ec in Hu; [|done]. injection Hu as _ Hd. symmetry in Hd.
  split; [apply WriteSQL_ok in Hw as (ev & _ & -> & _); congruence|]. split.
  - eapply (audited_transition ARequire _ _ (set_required (d_reason decision) revisions now));
      [exact Erow| |exact Hd|exact Hw|done..].
    rewrite Hreason in *. apply validHoldState_from in Hv. split; try done. simpl. lia.
  - exists row, now. split; [done|]. apply WriteSQL_ok in Hw as (ev & -> & _). simpl.
    rewrite Hd, Hreason. simpl. by rewrite lookup_insert_eq.
Qed.

Lemma RequireHold_history actor cid queueID decision :
  effect (PS := PS) history (RequireHold actor cid queueID decision).
Proof.
  unfold RequireHold. do 2 (apply (effect_bind_guard history); intros ?Hg). to_prop.
  apply (effect_bind_lift history). intros revisions _.
  apply (effect_commit history). intros w1 u w2 H.
  apply require_hold_body_ok in H as (_ & Ht & _); [|tauto]. by apply rtc_once.
Qed.

(** A finished reconciliation left the database of one transition. *)
Lemma finishQueueReconciliation_ok actor cid record state code w u w' :
  (state = HoldApplied -> code = "") ->
  finishQueueReconciliation (PS := PS) actor cid record state code w = (Ok u, w') ->
  transition (w_db w) (w_db w') /\ w_ext w' = w_ext w
  /\ state_of (w_db w') (qr_queue_id record) = Some state.
Proof.
  intros Hcode H. unfold finishQueueReconciliation in H.
  apply bind_ok in H as ([] & ? & [Hs ->]%guardM_ok & H).
  apply bind_ok in H as ([] & ? & [Hv ->]%guardM_ok & H). cbv zeta in H.
  apply transaction_ok in H as (w1 & c & w2 & H & D1 & X1 & X2 & Hd).
  assert (c = true /\ transition (w_db w1) (w_db w2) /\ w_ext w2 = w_ext w1
          /\ state_of (w_db w2) (qr_queue_id record) = Some state) as (-> & Ht & Hx & Hst).
  { destruct (state =?s HoldReconciliationError) eqn:E.
    - apply eqs_true in E as ->. eapply (finish_body_ok AFailed); [done..| |exact H].
      simpl. intros ->. simpl in Hv. done.
    - to_prop. destruct Hs as [->|]; [|done].
      eapply (finish_body_ok AApplied); [done..| |exact H]. by apply Hcode. }
  rewrite D1 in Ht. rewrite Hd. split_and!; [done|congruence|done].
Qed.

Lemma finishQueueReconciliation_history actor cid record state code :
  (state = HoldApplied -> code = "") ->
  effect (PS := PS) history (finishQueueReconciliation actor cid record state code).
Proof.
  intros Hcode. unfold finishQueueReconciliation.
  apply (effect_bind_guard history). intros E1.
  apply (effect_bind_guard history). intros E2.
  apply (effect_commit history). intros w1 u w2 H. apply rtc_once.
  destruct (state =?s HoldReconciliationError) eqn:E.
  - apply eqs_true in E as ->. apply (finish_body_ok AFailed) in H as (_ & Ht & _); [done..|].
    simpl. intros ->. done.
  - to_prop. destruct E1 as [->|]; [|done].
    apply (finish_body_ok AApplied) in H as (_ & Ht & _); [done..|]. by apply Hcode.
Qed.

Lemma effect_with_queue_lock (R : relation DB) `{!PreOrder R} {A}
    (body : M PS (A * option string)) :
  effect R body -> effect R (with_queue_lock body).
Proof. intros Hb. unfold with_queue_lock. solve_effect. Qed.

Lemma reconcile_fail_history actor cid record code :
  effect (PS := PS) history (reconcile_fail actor cid record code).
Proof.
  unfold reconcile_fail. apply (effect_bind history).
  - by apply finishQueueReconciliation_history.
  - intros _. apply (effect_bind history); [by apply loadQueueRecord_readonly; apply _|].
    intros. apply (effect_ret history).
Qed.

#[local] Hint Resolve reconcile_fail_history startQueueReconciliation_history
  finishQueueReconciliation_history : effects.

Lemma load_history queueID : effect (PS := PS) history (loadQueueRecord queueID).
Proof. apply loadQueueRecord_readonly, _. Qed.
#[local] Hint Resolve load_history : effects.

Context `{BOUND : !QueueBoundary PS}.

Lemma Reconcile_effect actor cid queueID :
  effect (PS := PS) history (Reconcile actor cid queueID).
Proof.
  unfold Reconcile, with_queue_lock, reconcile_locked, reconcile_attempt, hold_and_inspect.
  solve_effect.
Qed.

(** C9: whatever the database and Postfix answer, and wherever a run stops,
    a reconciliation changes the database only by a sequence of audited
    transitions of the hold machine. *)
Theorem Reconcile_history actor cid queueID :
  effect (PS := PS) history (Reconcile actor cid queueID).
Proof. apply Reconcile_effect. Qed.

(** Two loads of one message, whatever transitions lie between, agree on its
    identity. *)
Lemma load_same_message queueID d d' r r' :
  history d d' -> load_pure queueID d = Ok r -> load_pure queueID d' = Ok r' ->
  (qr_queue_id r', qr_arrival_fingerprint r', qr_envelope_sender r',
   qr_recipient_set_digest r', qr_source_set_digest r', qr_recipients r', qr_sources r')
  = (qr_queue_id r, qr_arrival_fingerprint r, qr_envelope_sender r,
     qr_recipient_set_digest r, qr_source_set_digest r, qr_recipients r, qr_sources r).
Proof.
  intros [evs [_ Ht Hrows _]]%history_explained (row & Hrow & Hf)%load_pure_fields
    (row' & Hrow' & Hf')%load_pure_fields.
  apply Hrows in Hrow as (row1 & Hrow1 & _ & Hi & _). rewrite Hrow' in Hrow1.
  injection Hrow1 as <-. unfold identity_columns in Hi. injection Hi as ? ? ? ? ?.
  unfold other_tables in Ht. injection Ht as ? ? ? ? Hrec Hsrc.
  assert (select_recipients queueID d' = select_recipients queueID d) as Er
    by (unfold select_recipients; congruence).
  assert (select_sources queueID d' = select_sources queueID d) as Es
    by (unfold select_sources; congruence).
  destruct_and!. congruence.
Qed.

Lemma matches_same_message r r' m :
  (qr_queue_id r', qr_arrival_fingerprint r', qr_envelope_sender r',
   qr_recipient_set_digest r', qr_source_set_digest r', qr_recipients r', qr_sources r')
  = (qr_queue_id r, qr_arrival_fingerprint r, qr_envelope_sender r,
     qr_recipient_set_digest r, qr_source_set_digest r, qr_recipients r, qr_sources r) ->
  matchesQueueMetadata r' m = matchesQueueMetadata r m.
Proof.
  intros [= E1 E2 E3 E4 E5 _ E6]. unfold matchesQueueMetadata, sameQueueIdentity.
  by rewrite E1, E2, E3, E4, E5, E6.
Qed.

Lemma roundtripM_db w r w' : roundtripM w = (r, w') -> w_db w' = w_db w /\ w_ext w' = w_ext w.
Proof.
  unfold roundtripM, queryM. destruct (next_outcome w) as [o w1] eqn:E.
  apply next_outcome_db in E. by destruct o; intros [= _ <-].
Qed.

(** A value returned without an error is the one the body returned. *)
Lemma with_queue_lock_ok {A} (body : M PS (A * option string)) w a w' :
  with_queue_lock body w = (Ok (a, None), w') ->
  exists w1 w2, body w1 = (Ok (a, None), w2) /\ w_db w1 = w_db w /\ w_ext w1 = w_ext w
    /\ w_db w' = w_db w2 /\ w_ext w' = w_ext w2.
Proof.
  unfold with_queue_lock. intros H.
  apply bind_ok in H as ([] & w1 & [D1 X1]%roundtripM_db & H).
  apply bind_ok in H as ([] & w2 & [D2 X2]%roundtripM_db & H).
  apply bind_ok in H as (ret & w3 & Hb & H). unfold tryM in Hb.
  destruct (body w2) as [r w3'] eqn:Eb. injection Hb as <- <-.
  apply bind_ok in H as (ul & w4 & Hu & [H ->]%liftM_ok). unfold tryM in Hu.
  destruct (roundtripM w3') as [u w4'] eqn:Eu. injection Hu as <- <-.
  apply roundtripM_db in Eu as [D4 X4].
  exists w2, w3'. rewrite Eb. split_and!; try congruence.
  destruct r as [[? []]|], u; congruence.
Qed.

Lemma extM_try {A} (op : PS -> result A * PS) w r w' :
  tryM (extM op) w = (Ok r, w') -> op (w_ext w) = (r, w_ext w') /\ w_db w' = w_db w.
Proof.
  unfold tryM, extM. destruct (op (w_ext w)) as [r' x]. by intros [= <- <-].
Qed.

Lemma reconcile_fail_error actor cid record code w r w' :
  reconcile_fail (PS := PS) actor cid record code w = (Ok (r, None), w') -> False.
Proof.
  unfold reconcile_fail. intros H. apply bind_ok in H as ([] & w1 & _ & H).
  by apply bind_ok in H as (st & w2 & _ & [=]).
Qed.

(** The message as Postfix last reported it: held, and the one recorded. *)
Definition observed_held (queueID : string) (record : QueueRecord) (x : PS) : Prop :=
  exists s meta, Inspect queueID s = (Ok meta, x) /\ qm_held meta = true
    /\ matchesQueueMetadata record meta = true.

Lemma hold_and_inspect_ok queueID record w m w' :
  hold_and_inspect queueID record w = (Ok (inr m), w') ->
  w_db w' = w_db w /\ matchesQueueMetadata record m = true
  /\ exists s, Inspect queueID s = (Ok m, w_ext w').
Proof.
  unfold hold_and_inspect. intros H.
  apply bind_ok in H as (h & w1 & [_ D1]%extM_try & H). destruct h as [[]|]; [|done].
  apply bind_ok in H as (i & w2 & [Hi D2]%extM_try & H). destruct i as [meta|]; [|done].
  destruct (matchesQueueMetadata record meta) eqn:Em; [|done]. injection H as -> ->.
  split_and!; [congruence|done|]. by eexists.
Qed.

Lemma reconcile_attempt_ok actor cid queueID record w res w' :
  qr_queue_id record = queueID ->
  reconcile_attempt actor cid queueID record w = (Ok (res, None), w') ->
  observed_held queueID record (w_ext w') /\ transition (w_db w) (w_db w')
  /\ state_of (w_db w') queueID = Some HoldApplied
  /\ load_pure queueID (w_db w') = Ok (rr_record res) /\ rr_changed res = true.
Proof.
  intros Hid H. unfold reconcile_attempt in H.
  apply bind_ok in H as (i & w1 & [Hi D1]%extM_try & H).
  destruct i as [m0|]; [|by apply reconcile_fail_error in H].
  destruct (matchesQueueMetadata record m0) eqn:Em0; [|by apply reconcile_fail_error in H].
  cbn [negb] in H. apply bind_ok in H as (obs & w2 & Ho & H).
  destruct obs as [code|m]; [by apply reconcile_fail_error in H|].
  destruct (qm_held m) eqn:Eh; [|by apply reconcile_fail_error in H]. cbn [negb] in H.
  apply bind_ok in H as ([] & w3 & (Ht & X3 & Hs)%finishQueueReconciliation_ok & H); [|done].
  apply bind_ok in H as (st & w4 & (Hl & D4 & X4)%loadQueueRecord_ok & H).
  injection H as <- <-. simpl. rewrite D4, X4, X3, <- Hid, Hs, Hid, Hl.
  assert (w_db w2 = w_db w1 /\ observed_held queueID record (w_ext w2)) as [D2 Hobs].
  { destruct (qm_held m0) eqn:Eh0.
    - injection Ho as <- <-. split; [done|]. by exists (w_ext w), m0.
    - apply hold_and_inspect_ok in Ho as (? & ? & s & ?). split; [done|]. by exists s, m. }
  split_and!; [done| |done..]. by rewrite <- D1, <- D2.
Qed.

Lemma Reconcile_ok actor cid queueID w res w' :
  Reconcile actor cid queueID w = (Ok (res, None), w') ->
  observed_held queueID (rr_record res) (w_ext w')
  /\ qr_hold_state (rr_record res) = HoldApplied
  /\ load_pure queueID (w_db w') = Ok (rr_record res)
  /\ (rr_changed res = false -> w_db w' = w_db w).
Proof.
  unfold Reconcile. intros H. apply bind_ok in H as ([] & ? & [_ ->]%guardM_ok & H).
  apply with_queue_lock_ok in H as (w1 & w2 & H & D1 & X1 & -> & ->).
  unfold reconcile_locked in H.
  apply bind_ok in H as (record & w3 & (Hl & D3 & X3)%loadQueueRecord_ok & H).
  apply bind_ok in H as (still & w4 & Hstill & H). destruct still.
  - injection H as <- <-. simpl.
    destruct (qr_hold_state record =?s HoldApplied) eqn:Es; [|done]. to_prop.
    apply bind_ok in Hstill as (i & w5 & [Hi D5]%extM_try & H).
    injection H as H <-. destruct i as [m|]; [|done]. to_prop.
    rewrite D5, D3. split_and!; [|done|done|done]. by exists (w_ext w3), m.
  - assert (w_db w4 = w_db w3) as D4.
    { destruct (_ =?s _); [|by injection Hstill as <-].
      apply bind_ok in Hstill as (i & w5 & [_ D5]%extM_try & H5). by injection H5 as _ <-. }
    apply bind_ok in H as ([] & ? & [_ ->]%guardM_ok & H).
    apply bind_ok in H as ([] & w5 & Hstart & H).
    apply load_pure_fields in Hl as Hf. destruct Hf as (row & _ & Hid & _).
    apply reconcile_attempt_ok in H as (Hobs & Ht & Hst & Hload & Hc); [|done].
    pose proof (startQueueReconciliation_history actor cid record w4) as Hh.
    rewrite Hstart in Hh. simpl in Hh. rewrite D4, D3 in Hh.
    assert (history (w_db w1) (w_db w2)) as Hall by (by eapply rtc_r).
    pose proof (load_same_message _ _ _ _ _ Hall Hl Hload) as Hsame.
    split_and!; [| |done|].
    + destruct Hobs as (s & m & ? & ? & Hm). exists s, m.
      by rewrite (matches_same_message _ _ m Hsame).
    + apply load_pure_fields in Hload as (row' & Hrow' & _ & -> & _).
      unfold state_of in Hst. rewrite Hrow' in Hst. by injection Hst.
    + congruence.
Qed.

(** C6: a reconciliation that reports success is telling the truth: Postfix
    last reported exactly this message, and as held; the database records it
    as held; and the returned record is the stored one.  An unchanged result
    left the database alone. *)
Theorem Reconcile_sound actor cid queueID w res w' :
  Reconcile actor cid queueID w = (Ok (res, None), w') ->
  observed_held queueID (rr_record res) (w_ext w')
  /\ qr_hold_state (rr_record res) = HoldApplied
  /\ load_pure queueID (w_db w') = Ok (rr_record res)
  /\ (rr_changed res = false -> w_db w' = w_db w).
Proof. apply Reconcile_ok. Qed.
End Refinement.
