(* ===== verification/Postfix.v ===== *)
(** * The local Postfix boundary (internal/outboundpolicy/postfix.go)

    postqueue(1) and postsuper(1) behind a bounded command runner.  The
    processes themselves are the class [Processes]; a command runner is the class [CommandRunner], implemented by
    ExecCommandRunner; and a configured [PostfixBoundary] implements the
    interface [QueueBoundary] that reconciliation and release are verified
    against. *)

From stdpp Require Import base list gmap sets strings sorting pretty.
From Stdlib Require Import ZArith Lia Ascii.
From S2P Require Import Prelude GoStd Json Sha256 Policy Queue AuditLog Database QueueStore HoldMachine Reconcile.

Definition defaultPostfixOutputBytes : Z := 64 * 2 ^ 20.
Definition maxPostfixOutputBytes : Z := 64 * 2 ^ 20.
Definition maxPostqueueJSONLineBytes : Z := 4 * 2 ^ 20.
Definition postfixNullSenderDisplay : string := "MAILER-DAEMON".
Definition ErrQueueIDNotFound : string := "Postfix queue ID not found".
Definition errCommandOutputLimit : string := "command output limit exceeded".

(** ** package path/filepath on Unix *)

Fixpoint split_slash (s : string) : list string :=
  match s with
  | "" => [""]
  | String "/" s => "" :: split_slash s
  | String c s =>
      match split_slash s with
      | e :: l => String c e :: l
      | [] => [String c ""]
      end
  end.

Fixpoint join_slash (l : list string) : string :=
  match l with
  | [] => ""
  | [e] => e
  | e :: l => e +:+ "/" +:+ join_slash l
  end.

Definition IsAbs (path : string) : bool := HasPrefix path "/".

(** One element of a path against the elements kept so far, innermost
    first. *)
Definition clean_step (rooted : bool) (kept : list string) (e : string) : list string :=
  if (e =?s "") || (e =?s ".") then kept
  else if e =?s ".." then
    match kept with
    | k :: rest => if k =?s ".." then e :: kept else rest
    | [] => if rooted then [] else [e]
    end
  else e :: kept.

Definition Clean (path : string) : string :=
  let rooted := IsAbs path in
  let body := join_slash (reverse (foldl (clean_step rooted) [] (split_slash path))) in
  if rooted then "/" +:+ body else if body =?s "" then "." else body.

Definition Base (path : string) : string :=
  if path =?s "" then "."
  else match last (List.filter (fun e => e <>?s "") (split_slash path)) with
       | Some e => e
       | None => "/"
       end.

Definition validPostfixPath (path base : string) : bool :=
  IsAbs path && (Clean path =?s path) && (Base path =?s base).

(** ** package bufio: Scanner with ScanLines *)

Definition newline : ascii := "010".
Definition drop_cr (s : string) : string := TrimSuffixByte s "013".

(** The lines of [s] and whether the scanner stopped at a line that does not
    fit its buffer of [max] bytes; [cur] is the current line, last byte
    first, of [n] bytes. *)
Fixpoint scan_lines (max : Z) (cur : string) (n : Z) (s : string) : list string * bool :=
  match s with
  | "" => (if cur =?s "" then [] else [drop_cr (String.rev cur)], false)
  | String c s =>
      if Ascii.eqb c newline then
        let rest := scan_lines max "" 0 s in (drop_cr (String.rev cur) :: rest.1, rest.2)
      else if (max <=? n + 1)%Z then ([], true)
      else scan_lines max (String c cur) (n + 1) s
  end.

(** ** Bounded command output *)

Record boundedCommandOutput := { bo_buffer : string; bo_limit : Z; bo_exceeded : bool }.

(** [w.Write(p)]: the bytes accepted and whether it reported an error. *)
Definition output_write (p : string) (w : boundedCommandOutput)
    : Z * bool * boundedCommandOutput :=
  if bo_exceeded w then (0%Z, true, w) else
  let remaining := (bo_limit w - Z.of_nat (len (bo_buffer w)))%Z in
  if (Z.of_nat (len p) <=? remaining)%Z then
    (Z.of_nat (len p), false,
     {| bo_buffer := bo_buffer w +:+ p; bo_limit := bo_limit w; bo_exceeded := false |})
  else
    let kept := if (0 <? remaining)%Z
                then bo_buffer w +:+ String.substring 0 (Z.to_nat remaining) p
                else bo_buffer w in
    (remaining, true,
     {| bo_buffer := kept; bo_limit := bo_limit w; bo_exceeded := true |}).

(** ** Queue entries *)

Record postqueueEntry := {
  pe_queue_name : string; pe_queue_id : string; pe_arrival_time : Z; pe_message_size : Z;
  pe_sender : string; pe_recipients : GoSlice string;
}.

(** The JSON names of the fields. *)
Definition postqueueRecipient : struct_type string := [("address", store_string)].

Definition postqueue_fields : struct_type postqueueEntry :=
  [("queue_name", fun v e => (fun x =>
      {| pe_queue_name := x; pe_queue_id := pe_queue_id e;
         pe_arrival_time := pe_arrival_time e; pe_message_size := pe_message_size e;
         pe_sender := pe_sender e; pe_recipients := pe_recipients e |})
      <$> store_string v (pe_queue_name e));
   ("queue_id", fun v e => (fun x =>
      {| pe_queue_name := pe_queue_name e; pe_queue_id := x;
         pe_arrival_time := pe_arrival_time e; pe_message_size := pe_message_size e;
         pe_sender := pe_sender e; pe_recipients := pe_recipients e |})
      <$> store_string v (pe_queue_id e));
   ("arrival_time", fun v e => (fun x =>
      {| pe_queue_name := pe_queue_name e; pe_queue_id := pe_queue_id e;
         pe_arrival_time := x; pe_message_size := pe_message_size e;
         pe_sender := pe_sender e; pe_recipients := pe_recipients e |})
      <$> store_int v (pe_arrival_time e));
   ("message_size", fun v e => (fun x =>
      {| pe_queue_name := pe_queue_name e; pe_queue_id := pe_queue_id e;
         pe_arrival_time := pe_arrival_time e; pe_message_size := x;
         pe_sender := pe_sender e; pe_recipients := pe_recipients e |})
      <$> store_int v (pe_message_size e));
   ("sender", fun v e => (fun x =>
      {| pe_queue_name := pe_queue_name e; pe_queue_id := pe_queue_id e;
         pe_arrival_time := pe_arrival_time e; pe_message_size := pe_message_size e;
         pe_sender := x; pe_recipients := pe_recipients e |})
      <$> store_string v (pe_sender e));
   ("recipients", fun v e => (fun x =>
      {| pe_queue_name := pe_queue_name e; pe_queue_id := pe_queue_id e;
         pe_arrival_time := pe_arrival_time e; pe_message_size := pe_message_size e;
         pe_sender := pe_sender e; pe_recipients := x |})
      <$> store_slice (store_struct false postqueueRecipient) "" v (pe_recipients e))].

Definition zero_entry : postqueueEntry :=
  {| pe_queue_name := ""; pe_queue_id := ""; pe_arrival_time := 0; pe_message_size := 0;
     pe_sender := ""; pe_recipients := nil_slice |}.

(** [var entry postqueueEntry; json.Unmarshal(line, &entry)] *)
Definition decode_entry (line : string) : option postqueueEntry :=
  decode_json (store_struct false postqueue_fields) zero_entry line.

Record QueueSnapshot := {
  sn_active : nat; sn_deferred : nat; sn_held : nat; sn_total : nat; sn_digest : string;
}.

Record PostfixBoundary := {
  pb_postqueue_path : string; pb_postsuper_path : string; pb_instance_id : string;
  pb_max_output_bytes : Z;
}.

(** Commands and the state [PS] of the system they run on. *)
Definition Command (PS A : Type) : Type := PS -> result A * PS.
#[export] Instance Command_ret {PS} : MRet (Command PS) := fun A a s => (Ok a, s).
#[export] Instance Command_bind {PS} : MBind (Command PS) := fun A B k m s =>
  match m s with
  | (Ok a, s') => k a s'
  | (Err e, s') => (Err e, s')
  end.
Definition fail_cmd {PS A} (e : string) : Command PS A := fun s => (Err e, s).
Definition lift_cmd {PS A} (r : result A) : Command PS A := fun s => (r, s).
Definition guard_cmd {PS} (bad : bool) (e : string) : Command PS unit :=
  if bad then fail_cmd e else mret tt.
(** [_, err := m; if err != nil { return errors.New(e) }] *)
Definition relabel_cmd {PS A} (e : string) (m : Command PS A) : Command PS A := fun s =>
  match m s with
  | (Ok a, s') => (Ok a, s')
  | (Err _, s') => (Err e, s')
  end.

(** [Run(ctx, path, args, maxOutput)] *)
Class CommandRunner (PS : Type) := {
  run_command : string -> list string -> Z -> Command PS string;
}.

(** What the source leaves to the operating system: executing a binary (the
    chunks it writes, and whether it exits with success). *)
Class Processes (PS : Type) := {
  spawn : string -> list string -> PS -> list string * bool * PS;
}.

(** ExecCommandRunner.Run *)
Definition exec_output (maxOutput : Z) (chunks : list string) : boundedCommandOutput :=
  foldl (fun sink p => (output_write p sink).2)
    {| bo_buffer := ""; bo_limit := maxOutput; bo_exceeded := false |} chunks.

Definition exec_run `{Processes PS} (path : string) (args : list string) (maxOutput : Z)
    : Command PS string := fun s =>
  if negb (IsAbs path) || (Clean path <>?s path) || (maxOutput <=? 0)%Z
     || (maxPostfixOutputBytes <? maxOutput)%Z
  then (Err "invalid bounded command request", s) else
  let '(chunks, success, s') := spawn path args s in
  let sink := exec_output maxOutput chunks in
  if bo_exceeded sink then (Err errCommandOutputLimit, s')
  else if negb success then (Err "bounded command failed", s')
  else (Ok (bo_buffer sink), s').
Definition ExecCommandRunner `{Processes PS} : CommandRunner PS := {| run_command := exec_run |}.

(** ** Canonical entries *)

Section Entries.
Context `{HOST : !Host}.

Definition normalizePostqueueSender (sender : string) : result string :=
  if (sender =?s "") || (sender =?s postfixNullSenderDisplay) then Ok "<>"
  else normalizeQueueSender sender.

Definition arrival_texts (instance queueID : string) (arrivalTime messageSize : Z)
    (sender : string) (recipients : list string) : list string :=
  ["gotth-mail/postfix-arrival/v1"; instance; queueID; FormatInt arrivalTime;
   FormatInt messageSize; sender] ++ recipients.

Definition QueueArrivalFingerprint (instanceID queueID : string) (arrivalTime messageSize : Z)
    (sender : string) (recipients : list string) : result string :=
  match NormalizeDomain instanceID with
  | Err _ => Err "invalid Postfix arrival identity"
  | Ok instance =>
      if negb (validLongQueueID queueID) || (arrivalTime <? 0)%Z || (messageSize <? 0)%Z
      then Err "invalid Postfix arrival identity" else
      let! canonicalSender := normalizePostqueueSender sender in
      let! canonicalRecipients := canonicalQueueRecipients recipients in
      Ok (digestStrings (arrival_texts instance queueID arrivalTime messageSize
                           canonicalSender canonicalRecipients))
  end.

(** Whether a queue name is a known one, and the hold queue. *)
Definition queue_held (name : string) : result bool :=
  if (name =?s "incoming") || (name =?s "active") || (name =?s "deferred") then Ok false
  else if name =?s "hold" then Ok true
  else Err "unsupported Postfix queue state".

Definition queueMetadataFromEntry (instance : string) (entry : postqueueEntry)
    : result QueueMetadata :=
  if negb (validLongQueueID (pe_queue_id entry)) || (pe_arrival_time entry <? 0)%Z
     || (pe_message_size entry <? 0)%Z
  then Err "invalid Postfix queue identity" else
  let! held := queue_held (pe_queue_name entry) in
  let! sender := normalizePostqueueSender (pe_sender entry) in
  let! recipients := canonicalQueueRecipients (slice_list (pe_recipients entry)) in
  let! fingerprint := QueueArrivalFingerprint instance (pe_queue_id entry)
                        (pe_arrival_time entry) (pe_message_size entry) sender recipients in
  Ok {| qm_queue_id := pe_queue_id entry; qm_arrival_fingerprint := fingerprint;
        qm_envelope_sender := sender; qm_recipients := recipients; qm_held := held |}.

Definition equalQueueMetadata (left right : QueueMetadata) : bool :=
  (qm_queue_id left =?s qm_queue_id right)
  && (qm_arrival_fingerprint left =?s qm_arrival_fingerprint right)
  && (qm_envelope_sender left =?s qm_envelope_sender right)
  && Bool.eqb (qm_held left) (qm_held right)
  && (length (qm_recipients left) =? length (qm_recipients right))
  && forallb (fun p => p.1 =?s p.2) (zip (qm_recipients left) (qm_recipients right)).


Definition blank (line : string) : bool := TrimSpace line =?s "".

(** The loop of Inspect: [found] is the observation so far. *)
Fixpoint inspect_lines (instance queueID : string) (found : option QueueMetadata)
    (lines : list string) : result (option QueueMetadata) :=
  match lines with
  | [] => Ok found
  | line :: lines =>
      if blank line then inspect_lines instance queueID found lines else
      match decode_entry line with
      | None => Err "invalid Postfix JSON queue output"
      | Some entry =>
          if pe_queue_id entry <>?s queueID then inspect_lines instance queueID found lines else
          let! metadata := queueMetadataFromEntry instance entry in
          match found with
          | Some prior =>
              if negb (equalQueueMetadata prior metadata)
              then Err "Postfix queue metadata changed during inspection"
              else inspect_lines instance queueID (Some metadata) lines
          | None => inspect_lines instance queueID (Some metadata) lines
          end
      end
  end.

(** The loop of Snapshot: the entry texts in order, and the counters. *)
Record snapshot_state := {
  ss_active : nat; ss_deferred : nat; ss_held : nat; ss_entries : list string;
}.

Definition count_queue (name : string) (s : snapshot_state) : result snapshot_state :=
  if (name =?s "active") || (name =?s "incoming")
  then Ok {| ss_active := ss_active s + 1; ss_deferred := ss_deferred s;
             ss_held := ss_held s; ss_entries := ss_entries s |}
  else if name =?s "deferred"
  then Ok {| ss_active := ss_active s; ss_deferred := ss_deferred s + 1;
             ss_held := ss_held s; ss_entries := ss_entries s |}
  else if name =?s "hold"
  then Ok {| ss_active := ss_active s; ss_deferred := ss_deferred s;
             ss_held := ss_held s + 1; ss_entries := ss_entries s |}
  else Err "unsupported Postfix queue state".

Definition snapshot_entry (name : string) (metadata : QueueMetadata) : string :=
  name +:+ nul +:+ qm_queue_id metadata +:+ nul +:+ qm_arrival_fingerprint metadata.

Definition add_entry (text : string) (s : snapshot_state) : snapshot_state :=
  {| ss_active := ss_active s; ss_deferred := ss_deferred s; ss_held := ss_held s;
     ss_entries := ss_entries s ++ [text] |}.

Definition no_entries : snapshot_state :=
  {| ss_active := 0; ss_deferred := 0; ss_held := 0; ss_entries := [] |}.

Definition snapshot_result (s : snapshot_state) : QueueSnapshot :=
  {| sn_active := ss_active s; sn_deferred := ss_deferred s; sn_held := ss_held s;
     sn_total := length (ss_entries s);
     sn_digest := digestStrings
       ("gotth-mail/postfix-snapshot/v1" :: sort_strings (ss_entries s)) |}.

Fixpoint snapshot_lines_loop (instance queueID : string) (s : snapshot_state)
    (lines : list string) : result snapshot_state :=
  match lines with
  | [] => Ok s
  | line :: lines =>
      if blank line then snapshot_lines_loop instance queueID s lines else
      match decode_entry line with
      | None => Err "invalid Postfix JSON queue output"
      | Some entry =>
          if negb (validLongQueueID (pe_queue_id entry))
          then Err "invalid Postfix JSON queue output" else
          if (queueID <>?s "") && (pe_queue_id entry <>?s queueID)
          then snapshot_lines_loop instance queueID s lines else
          let! counted := count_queue (pe_queue_name entry) s in
          let! metadata := queueMetadataFromEntry instance entry in
          snapshot_lines_loop instance queueID
            (add_entry (snapshot_entry (pe_queue_name entry) metadata) counted) lines
      end
  end.
End Entries.

(** ** The boundary *)

Section Boundary.
Context `{HOST : !Host} {PS : Type} `{RUNNER : !CommandRunner PS}.
Variable b : PostfixBoundary.

Definition outputLimit : result Z :=
  if (pb_max_output_bytes b =? 0)%Z then Ok defaultPostfixOutputBytes
  else if (pb_max_output_bytes b <? 1)%Z || (maxPostfixOutputBytes <? pb_max_output_bytes b)%Z
  then Err "invalid Postfix output limit"
  else Ok (pb_max_output_bytes b).

Definition output_lines (output : string) : list string * bool :=
  scan_lines maxPostqueueJSONLineBytes "" 0 output.

Definition postfix_inspect (queueID : string) : Command PS QueueMetadata :=
  guard_cmd (negb (validLongQueueID queueID)
             || negb (validPostfixPath (pb_postqueue_path b) "postqueue"))
    "invalid Postfix queue inspection request";;
  instance ← lift_cmd (relabel "invalid Postfix instance identity"
                         (NormalizeDomain (pb_instance_id b)));
  limit ← lift_cmd outputLimit;
  output ← relabel_cmd "Postfix queue inspection failed"
             (run_command (pb_postqueue_path b) ["-j"] limit);
  guard_cmd (limit <? Z.of_nat (len output))%Z
    "Postfix queue inspection output exceeded limit";;
  let scanned := output_lines output in
  found ← lift_cmd (inspect_lines instance queueID None scanned.1);
  guard_cmd scanned.2 "Postfix queue inspection output exceeded line limit";;
  lift_cmd match found with
           | Some metadata => Ok metadata
           | None => Err "Postfix queue ID not found"
           end.

(** Hold and Release differ in the flag and the messages. *)
Definition postsuper (flag queueID invalid failed : string) : Command PS unit :=
  guard_cmd (negb (validLongQueueID queueID)
             || negb (validPostfixPath (pb_postsuper_path b) "postsuper")) invalid;;
  limit ← lift_cmd outputLimit;
  relabel_cmd failed (run_command (pb_postsuper_path b) [flag; queueID] limit);;
  mret tt.

Definition postfix_hold (queueID : string) : Command PS unit :=
  postsuper "-h" queueID "invalid Postfix hold request" "Postfix hold helper failed".
Definition postfix_release (queueID : string) : Command PS unit :=
  postsuper "-H" queueID "invalid Postfix release request" "Postfix release helper failed".

Definition Snapshot (queueID : string) : Command PS QueueSnapshot :=
  guard_cmd ((queueID <>?s "") && negb (validLongQueueID queueID))
    "invalid Postfix queue selector";;
  guard_cmd (negb (validPostfixPath (pb_postqueue_path b) "postqueue"))
    "invalid Postfix queue snapshot request";;
  instance ← lift_cmd (relabel "invalid Postfix instance identity"
                         (NormalizeDomain (pb_instance_id b)));
  limit ← lift_cmd outputLimit;
  output ← relabel_cmd "Postfix queue snapshot failed"
             (run_command (pb_postqueue_path b) ["-j"] limit);
  guard_cmd (limit <? Z.of_nat (len output))%Z "Postfix queue snapshot failed";;
  let scanned := output_lines output in
  s ← lift_cmd (snapshot_lines_loop instance queueID no_entries scanned.1);
  guard_cmd scanned.2 "Postfix queue snapshot output exceeded line limit";;
  guard_cmd ((queueID <>?s "") && (length (ss_entries s) =? 0)) ErrQueueIDNotFound;;
  mret (snapshot_result s).

Definition runPostqueueMutation (args : list string) : Command PS unit :=
  guard_cmd (negb (validPostfixPath (pb_postqueue_path b) "postqueue"))
    "invalid Postfix queue mutation request";;
  limit ← lift_cmd outputLimit;
  relabel_cmd "Postfix queue mutation failed"
    (run_command (pb_postqueue_path b) args limit);;
  mret tt.

Definition Flush : Command PS unit := runPostqueueMutation ["-f"].

(** A failed retry of a message that left the queue is a success. *)
Definition Retry (queueID : string) : Command PS unit := fun s =>
  if negb (validLongQueueID queueID) then (Err "invalid Postfix retry request", s) else
  match runPostqueueMutation ["-i"; queueID] s with
  | (Ok u, s1) => (Ok u, s1)
  | (Err e, s1) =>
      match Snapshot queueID s1 with
      | (Err e2, s2) => (if e2 =?s ErrQueueIDNotFound then Ok tt else Err e, s2)
      | (Ok _, s2) => (Err e, s2)
      end
  end.

(** The interface of the reconciler and the release service. *)
Definition PostfixQueueBoundary : QueueBoundary PS :=
  {| Inspect := postfix_inspect; Hold := postfix_hold; ReleaseHold := postfix_release |}.
End Boundary.

(** ** Bounded output is the whole output *)

Definition total_output (chunks : list string) : string := foldr String.append "" chunks.

Lemma substring_all s : forall n, len s <= n -> String.substring 0 n s = s.
Proof.
  induction s as [|c s IH]; intros [|n] Hn; simpl in *; try done; [lia|].
  f_equal. apply IH. lia.
Qed.

Lemma substring_app s : forall t n, len s <= n ->
  String.substring 0 n (s +:+ t) = s +:+ String.substring 0 (n - len s) t.
Proof.
  induction s as [|c s IH]; intros t n Hn.
  - simpl. by rewrite Nat.sub_0_r.
  - destruct n as [|n]; [simpl in Hn; lia|]. rewrite !app_cons. simpl. f_equal.
    apply IH. simpl in Hn. lia.
Qed.

Lemma substring_short s : forall t n, n <= len s ->
  String.substring 0 n (s +:+ t) = String.substring 0 n s.
Proof.
  induction s as [|c s IH]; intros t [|n] Hn; simpl in *; try lia; try done.
  - by destruct t.
  - f_equal. apply IH. lia.
Qed.

(** The sink after a sequence of writes. *)
Definition sink_holds (limit : Z) (total : string) (w : boundedCommandOutput) : Prop :=
  bo_limit w = limit
  /\ bo_buffer w = String.substring 0 (Z.to_nat limit) total
  /\ bo_exceeded w = (limit <? Z.of_nat (len total))%Z.

Lemma output_write_holds limit total w p :
  (0 <= limit)%Z -> sink_holds limit total w ->
  sink_holds limit (total +:+ p) (output_write p w).2.
Proof.
  intros Hl (El & Eb & Ee). unfold sink_holds, output_write. rewrite Ee, len_app.
  destruct (limit <? Z.of_nat (len total))%Z eqn:E; to_prop; simpl.
  - split_and!; [done| |].
    + rewrite Eb, substring_short by lia. done.
    + rewrite Ee. symmetry. apply Z.ltb_lt. lia.
  - rewrite substring_all in Eb by lia. rewrite El, Eb.
    destruct (Z.of_nat (len p) <=? limit - Z.of_nat (len total))%Z eqn:E2; to_prop; simpl.
    + split_and!; [done| |].
      * rewrite substring_all; [done|]. rewrite len_app. lia.
      * symmetry. apply Z.ltb_ge. lia.
    + split_and!; [done| |].
      * rewrite substring_app by lia.
        replace (Z.to_nat limit - len total) with (Z.to_nat (limit - Z.of_nat (len total))) by lia.
        destruct (0 <? limit - Z.of_nat (len total))%Z eqn:E3; to_prop; [done|].
        replace (limit - Z.of_nat (len total))%Z with 0%Z by lia. simpl.
        destruct p; by rewrite app_empty_r.
      * symmetry. apply Z.ltb_lt. lia.
Qed.

Lemma exec_output_holds limit chunks :
  (0 <= limit)%Z -> sink_holds limit (total_output chunks) (exec_output limit chunks).
Proof.
  intros Hl. unfold exec_output.
  assert (forall total w, sink_holds limit total w -> sink_holds limit
    (total +:+ total_output chunks) (foldl (fun sink p => (output_write p sink).2) w chunks)) as H.
  { induction chunks as [|p chunks IH]; intros total w Hw; simpl.
    - by rewrite app_empty_r.
    - rewrite app_assoc_s. apply IH. by apply output_write_holds. }
  apply (H ""). split_and!; [done| |]; simpl.
  - by destruct (Z.to_nat limit).
  - symmetry. by apply Z.ltb_ge.
Qed.

(** C20: output that is returned is complete and bounded: a command that
    succeeds was an absolute, clean path, exited with success, and the bytes
    returned are everything it wrote, at most the requested limit and at most
    64 MiB; one byte more and the run fails. *)
Theorem exec_run_bounds {PS} `{PROC : !Processes PS} path args limit (s : PS) out s' :
  exec_run path args limit s = (Ok out, s') <->
  exists chunks, spawn path args s = (chunks, true, s') /\ out = total_output chunks
    /\ IsAbs path = true /\ Clean path = path
    /\ (0 < limit <= maxPostfixOutputBytes)%Z /\ (Z.of_nat (len out) <= limit)%Z.
Proof.
  unfold exec_run. split.
  - destruct (_ || _) eqn:Eg; [done|]. to_prop. destruct_and!.
    destruct (spawn path args s) as [[chunks success] s1].
    destruct (exec_output_holds limit chunks) as (_ & Eb & ->); [lia|].
    destruct (limit <? _)%Z eqn:Ex; [done|]. destruct success; [|done]. intros [= <- <-].
    to_prop. rewrite Eb, substring_all by lia. exists chunks. split_and!; first [done|lia].
  - intros (chunks & Hs & -> & Ha & Hc & [Hl1 Hl2] & Hn). rewrite Ha, Hc, eqs_refl, Hs.
    destruct (limit <=? 0)%Z eqn:E1; to_prop; [lia|].
    destruct (maxPostfixOutputBytes <? limit)%Z eqn:E2; to_prop; [lia|]. simpl.
    destruct (exec_output_holds limit chunks) as (_ & Eb & ->); [lia|].
    destruct (limit <? _)%Z eqn:Ex; to_prop; [lia|]. by rewrite Eb, substring_all by lia.
Qed.

(** ** Inspection *)

Lemma cmd_bind_ok {PS A B} (m : Command PS A) (k : A -> Command PS B) s y s' :
  (m ≫= k) s = (Ok y, s') <-> exists a s1, m s = (Ok a, s1) /\ k a s1 = (Ok y, s').
Proof.
  unfold mbind, Command_bind. destruct (m s) as [[a|e] s1]; split.
  - intros H. by exists a, s1.
  - by intros (? & ? & [= <- <-] & H).
  - done.
  - by intros (? & ? & [=] & _).
Qed.

Lemma guard_cmd_ok {PS} bad e (s : PS) u s' :
  guard_cmd bad e s = (Ok u, s') <-> bad = false /\ s' = s.
Proof.
  unfold guard_cmd, fail_cmd. destruct bad, u; [split; [done|by intros []]|].
  split; [by intros [= ->]|by intros [_ ->]].
Qed.

Lemma lift_cmd_ok {PS A} (r : result A) (s : PS) a s' :
  lift_cmd r s = (Ok a, s') <-> r = Ok a /\ s' = s.
Proof. unfold lift_cmd. split; [by intros [= -> ->]|by intros [-> ->]]. Qed.

Lemma relabel_cmd_ok {PS A} e (m : Command PS A) s a s' :
  relabel_cmd e m s = (Ok a, s') <-> m s = (Ok a, s').
Proof. unfold relabel_cmd. by destruct (m s) as [[]]. Qed.

Section Inspection.
Context `{HOST : !Host}.

Lemma equalQueueMetadata_eq l r : equalQueueMetadata l r = true <-> l = r.
Proof.
  destruct l as [i1 f1 s1 r1 h1], r as [i2 f2 s2 r2 h2]. unfold equalQueueMetadata. simpl.
  rewrite !andb_true_iff, !String.eqb_eq, Bool.eqb_true_iff, Nat.eqb_eq. split.
  - intros [[[[[-> ->] ->] ->] Hn] Hz]. f_equal.
    revert r2 Hn Hz. induction r1 as [|a r1 IH]; intros [|b r2]; simpl; try done.
    intros [= Hn] [->%eqs_true Hz]%andb_true_iff. f_equal. by apply IH.
  - intros [= -> -> -> -> ->]. split_and!; try done.
    induction r2 as [|a r2 IH]; simpl; [done|]. by rewrite eqs_refl.
Qed.

(** The listing, line by line: the entries of the lines that are not blank. *)
Definition listed (lines : list string) (entries : list postqueueEntry) : Prop :=
  Forall2 (fun line entry => decode_entry line = Some entry)
    (List.filter (fun line => negb (blank line)) lines) entries.

Definition observations (instance queueID : string) (entries : list postqueueEntry)
    (m : QueueMetadata) : Prop :=
  Forall (fun entry => queueMetadataFromEntry instance entry = Ok m)
    (List.filter (fun entry => pe_queue_id entry =?s queueID) entries).

Lemma inspect_lines_ok instance queueID lines : forall found m,
  inspect_lines instance queueID found lines = Ok (Some m) <->
  exists entries, listed lines entries /\ observations instance queueID entries m
    /\ match found with
       | Some m0 => m0 = m
       | None => exists entry, In entry entries /\ pe_queue_id entry = queueID
       end.
Proof.
  unfold listed, observations.
  induction lines as [|line lines IH]; intros found m; cbn [inspect_lines List.filter].
  { split.
    - intros [= ->]. by exists [].
    - intros (entries & ->%Forall2_nil_inv_l & _ & H). destruct found; [by subst|].
      by destruct H as (? & [] & _). }
  destruct (blank line); cbn [negb]; [apply IH|].
  destruct (decode_entry line) as [entry|] eqn:Ed.
  2: { split; [done|]. intros (entries & H & _). inversion H as [|? ? ? ? Hd]; subst. congruence. }
  destruct (pe_queue_id entry =?s queueID) eqn:Eq; cbn [negb].
  2: { rewrite IH. split.
       - intros (entries & H1 & H2 & H3). exists (entry :: entries). split_and!.
         + by constructor.
         + simpl. by rewrite Eq.
         + destruct found; [done|]. destruct H3 as (x & ? & ?). exists x. split; [by right|done].
       - intros (entries0 & H1 & H2 & H3). inversion H1 as [|? e0 ? entries Hd H1']; subst.
         assert (e0 = entry) as -> by congruence. exists entries. simpl in H2. rewrite Eq in H2.
         split_and!; [done..|]. destruct found; [done|].
         destruct H3 as (x & [->|?] & Hx); [by apply eqs_false in Eq|by exists x]. }
  split.
  - intros H. apply rbind_ok in H as (m1 & Hm & H).
    assert (exists entries, Forall2 (fun line entry => decode_entry line = Some entry)
        (List.filter (fun line => negb (blank line)) lines) entries
      /\ Forall (fun entry => queueMetadataFromEntry instance entry = Ok m)
        (List.filter (fun entry => pe_queue_id entry =?s queueID) entries)
      /\ m1 = m /\ match found with Some m0 => m0 = m1 | None => True end)
      as (entries & H1 & H2 & -> & H3).
    { destruct found as [m0|].
      - destruct (equalQueueMetadata m0 m1) eqn:E; [|done]. apply equalQueueMetadata_eq in E.
        apply IH in H as (entries & ? & ? & ?). by exists entries.
      - apply IH in H as (entries & ? & ? & ?). by exists entries. }
    exists (entry :: entries). split_and!; [by constructor|simpl; rewrite Eq; by constructor|].
    destruct found; [done|]. exists entry. split; [by left|]. by apply eqs_true.
  - intros (entries0 & H1 & H2 & H3). inversion H1 as [|? e0 ? entries Hd H1']; subst.
    assert (e0 = entry) as -> by congruence. simpl in H2. rewrite Eq in H2.
    apply Forall_cons in H2 as [Hm H2]. rewrite Hm. cbn [rbind].
    destruct found as [m0|].
    + subst m0. assert (equalQueueMetadata m m = true) as -> by (by apply equalQueueMetadata_eq).
      apply IH. by exists entries.
    + apply IH. by exists entries.
Qed.

Context {PS : Type} `{RUNNER : !CommandRunner PS}.

Lemma postfix_inspect_inv b queueID (s : PS) m s' :
  postfix_inspect b queueID s = (Ok m, s') ->
  exists instance limit output entries,
    validLongQueueID queueID = true
    /\ validPostfixPath (pb_postqueue_path b) "postqueue" = true
    /\ NormalizeDomain (pb_instance_id b) = Ok instance /\ outputLimit b = Ok limit
    /\ run_command (pb_postqueue_path b) ["-j"] limit s = (Ok output, s')
    /\ (Z.of_nat (len output) <= limit)%Z /\ (output_lines output).2 = false
    /\ listed (output_lines output).1 entries
    /\ (exists entry, In entry entries /\ pe_queue_id entry = queueID)
    /\ observations instance queueID entries m.
Proof.
  unfold postfix_inspect.
  intros H. apply cmd_bind_ok in H as ([] & ? & [Hg ->]%guard_cmd_ok & H).
  apply cmd_bind_ok in H as (instance & ? & [Hi%relabel_ok ->]%lift_cmd_ok & H).
  apply cmd_bind_ok in H as (limit & ? & [Hl ->]%lift_cmd_ok & H).
  apply cmd_bind_ok in H as (output & s1 & Ho%relabel_cmd_ok & H).
  apply cmd_bind_ok in H as ([] & ? & [Hn ->]%guard_cmd_ok & H).
  apply cmd_bind_ok in H as (found & ? & [Hf ->]%lift_cmd_ok & H).
  apply cmd_bind_ok in H as ([] & ? & [Hx ->]%guard_cmd_ok & [Hm ->]%lift_cmd_ok).
  destruct found as [m'|]; [|done]. injection Hm as ->.
  apply inspect_lines_ok in Hf as (entries & ? & ? & ?). to_prop. destruct Hg.
  exists instance, limit, output, entries. by split_and!.
Qed.

(** An inspection is one complete, stable observation: it succeeds with
    [m] exactly when one bounded listing was obtained from postqueue -j,
    every line of it fits and decodes, the message is in it, and every entry
    of the message, in whichever queue and however often it is listed, has
    the metadata [m]. *)
Theorem postfix_inspect_exact b queueID (s : PS) m s' :
  postfix_inspect b queueID s = (Ok m, s') <->
  exists instance limit output entries,
    validLongQueueID queueID = true
    /\ validPostfixPath (pb_postqueue_path b) "postqueue" = true
    /\ NormalizeDomain (pb_instance_id b) = Ok instance /\ outputLimit b = Ok limit
    /\ run_command (pb_postqueue_path b) ["-j"] limit s = (Ok output, s')
    /\ (Z.of_nat (len output) <= limit)%Z /\ (output_lines output).2 = false
    /\ listed (output_lines output).1 entries
    /\ (exists entry, In entry entries /\ pe_queue_id entry = queueID)
    /\ observations instance queueID entries m.
Proof.
  split.
  - apply postfix_inspect_inv.
  - intros (instance & limit & output & entries & Hv & Hp & Hi & Hl & Ho & Hn & Hx & Hls & He & Hob).
    unfold postfix_inspect.
    apply cmd_bind_ok. exists tt, s. split; [apply guard_cmd_ok; by rewrite Hv, Hp|].
    apply cmd_bind_ok. exists instance, s. split; [by rewrite Hi|].
    apply cmd_bind_ok. exists limit, s. split; [by rewrite Hl|].
    apply cmd_bind_ok. exists output, s'. split; [by apply relabel_cmd_ok|].
    apply cmd_bind_ok. exists tt, s'. split; [apply guard_cmd_ok; split; [by apply Z.ltb_ge|done]|].
    apply cmd_bind_ok. exists (Some m), s'. split.
    { apply lift_cmd_ok. split; [|done]. apply inspect_lines_ok. by exists entries. }
    apply cmd_bind_ok. exists tt, s'. split; [by apply guard_cmd_ok|done].
Qed.
End Inspection.

(** ** The arrival fingerprint *)

Section Fingerprint.
Context `{HOST : !Host} `{IDNA : !IdnaLaws}.

Lemma normalizePostqueueSender_again raw a a' :
  normalizePostqueueSender raw = Ok a -> normalizePostqueueSender a = Ok a' -> a' = a.
Proof.
  unfold normalizePostqueueSender. intros H H'.
  destruct ((raw =?s "") || (raw =?s postfixNullSenderDisplay)).
  { injection H as <-. by injection H' as <-. }
  destruct ((a =?s "") || (a =?s postfixNullSenderDisplay)) eqn:E.
  2: { by eapply normalizeQueueSender_again. }
  exfalso. unfold normalizeQueueSender in H. destruct (raw =?s "<>") eqn:Er.
  { injection H as ->. apply eqs_true in Er. by subst. }
  destruct (normalizeQueueRecipient raw) as [[x d]|] eqn:En; [|done]. injection H as ->.
  apply normalizeQueueRecipient_inv in En as (_ & local & rest & _ & ->).
  apply orb_true_iff in E as [E%eqs_true|E%eqs_true].
  - by destruct local.
  - assert (SplitLastByte "@" postfixNullSenderDisplay = None) as Hno by done.
    rewrite <- E in Hno. apply SplitLastByte_none in Hno.
    rewrite forall_bytes_app in Hno. simpl in Hno. by rewrite andb_false_r in Hno.
Qed.

(** The texts a fingerprint is computed from. *)
Definition entry_texts (instance : string) (entry : postqueueEntry) (m : QueueMetadata)
    : list string :=
  arrival_texts instance (pe_queue_id entry) (pe_arrival_time entry) (pe_message_size entry)
    (qm_envelope_sender m) (qm_recipients m).

Lemma QueueArrivalFingerprint_ok instance queueID t z s r fp :
  QueueArrivalFingerprint instance queueID t z s r = Ok fp ->
  exists c s' r', NormalizeDomain instance = Ok c /\ normalizePostqueueSender s = Ok s'
    /\ canonicalQueueRecipients r = Ok r'
    /\ fp = digestStrings (arrival_texts c queueID t z s' r').
Proof.
  unfold QueueArrivalFingerprint. intros H.
  destruct (NormalizeDomain instance) as [c|]; [|done]. destruct (_ || _); [done|].
  apply rbind_ok in H as (s' & Hs & H). apply rbind_ok in H as (r' & Hr & [= <-]).
  by exists c, s', r'.
Qed.

Lemma queueMetadataFromEntry_ok instance entry m :
  queueMetadataFromEntry instance entry = Ok m ->
  exists canonical, NormalizeDomain instance = Ok canonical
    /\ validLongQueueID (pe_queue_id entry) = true
    /\ qm_queue_id m = pe_queue_id entry
    /\ queue_held (pe_queue_name entry) = Ok (qm_held m)
    /\ normalizePostqueueSender (pe_sender entry) = Ok (qm_envelope_sender m)
    /\ canonicalQueueRecipients (slice_list (pe_recipients entry)) = Ok (qm_recipients m)
    /\ qm_arrival_fingerprint m = digestStrings (entry_texts canonical entry m).
Proof.
  unfold queueMetadataFromEntry, entry_texts. intros H.
  destruct (_ || _) eqn:Eg; [done|]. apply orb_false_iff in Eg as [[Eg _]%orb_false_iff _].
  apply negb_false_iff in Eg.
  apply rbind_ok in H as (held & Hh & H). apply rbind_ok in H as (sender & Hs & H).
  apply rbind_ok in H as (rs & Hr & H). apply rbind_ok in H as (fp & Hf & [= <-]).
  apply QueueArrivalFingerprint_ok in Hf as (canonical & s' & r' & Hc & Hs' & Hr' & ->).
  apply (normalizePostqueueSender_again _ _ _ Hs) in Hs' as ->.
  apply (canonicalQueueRecipients_again _ _ _ Hr) in Hr' as ->.
  by exists canonical.
Qed.

(** An observation is canonical: normalising it again changes nothing. *)
Lemma queueMetadataFromEntry_canonical instance entry m :
  queueMetadataFromEntry instance entry = Ok m ->
  validLongQueueID (qm_queue_id m) = true
  /\ validLowerHexDigest (qm_arrival_fingerprint m) = true
  /\ normalizeQueueSender (qm_envelope_sender m) = Ok (qm_envelope_sender m)
  /\ canonicalQueueRecipients (qm_recipients m) = Ok (qm_recipients m).
Proof.
  intros H. pose proof H as (c & _ & Hv & Hi & _ & _ & _ & Hf)%queueMetadataFromEntry_ok.
  rewrite Hi, Hf. split; [exact Hv|]. split; [apply validLowerHexDigest_sha|].
  unfold queueMetadataFromEntry in H. destruct (_ || _); [done|].
  apply rbind_ok in H as (held & Hh & H). apply rbind_ok in H as (sender & Hs & H).
  apply rbind_ok in H as (rs & Hr & H). apply rbind_ok in H as (fp & Hfp & [= <-]).
  apply QueueArrivalFingerprint_ok in Hfp as (_ & s' & r' & _ & Hs' & Hr' & _). simpl.
  pose proof (normalizePostqueueSender_again _ _ _ Hs Hs') as ->.
  pose proof (canonicalQueueRecipients_again _ _ _ Hr Hr') as ->. split; [|exact Hr'].
  unfold normalizePostqueueSender in Hs'. destruct (_ || _); [|done]. by injection Hs' as <-.
Qed.

Lemma arrival_texts_inj i1 q1 t1 z1 s1 r1 i2 q2 t2 z2 s2 r2 :
  arrival_texts i1 q1 t1 z1 s1 r1 = arrival_texts i2 q2 t2 z2 s2 r2 ->
  i1 = i2 /\ q1 = q2 /\ t1 = t2 /\ z1 = z2 /\ s1 = s2 /\ r1 = r2.
Proof.
  unfold arrival_texts. intros [= -> -> Ht Hz -> ->].
  apply (inj pretty) in Ht as ->. by apply (inj pretty) in Hz as ->.
Qed.

(** The fingerprint is the identity of an arrival: it does not depend on
    the queue a message sits in, and two entries with one fingerprint have
    the same instance, queue ID, arrival time, size, canonical sender and
    recipient set, or the two hashed transcripts are a SHA-256 collision. *)
Theorem arrival_fingerprint_identity i1 e1 m1 i2 e2 m2 c1 c2 :
  queueMetadataFromEntry i1 e1 = Ok m1 -> queueMetadataFromEntry i2 e2 = Ok m2 ->
  NormalizeDomain i1 = Ok c1 -> NormalizeDomain i2 = Ok c2 ->
  Forall go_len (entry_texts c1 e1 m1 ++ entry_texts c2 e2 m2) ->
  let same := c1 = c2 /\ pe_queue_id e1 = pe_queue_id e2
    /\ pe_arrival_time e1 = pe_arrival_time e2 /\ pe_message_size e1 = pe_message_size e2
    /\ qm_envelope_sender m1 = qm_envelope_sender m2 /\ qm_recipients m1 = qm_recipients m2 in
  (same -> qm_arrival_fingerprint m1 = qm_arrival_fingerprint m2)
  /\ (qm_arrival_fingerprint m1 = qm_arrival_fingerprint m2 ->
      same \/ (frames (entry_texts c1 e1 m1) <> frames (entry_texts c2 e2 m2)
               /\ Sha.sum256 (frames (entry_texts c1 e1 m1))
                  = Sha.sum256 (frames (entry_texts c2 e2 m2)))).
Proof.
  intros (c1' & N1 & _ & _ & _ & _ & _ & F1)%queueMetadataFromEntry_ok
    (c2' & N2 & _ & _ & _ & _ & _ & F2)%queueMetadataFromEntry_ok E1 E2 [L1 L2]%Forall_app same.
  assert (c1' = c1) as -> by congruence. assert (c2' = c2) as -> by congruence.
  rewrite F1, F2. split.
  - intros (-> & Hq & Ht & Hz & Hs & Hr). unfold entry_texts. rewrite Hq, Ht, Hz, Hs, Hr. reflexivity.
  - unfold digestStrings. rewrite sha256_hex_eq. intros H.
    destruct (decide (frames (entry_texts c1 e1 m1) = frames (entry_texts c2 e2 m2))) as [E|];
      [left|by right].
    apply frames_inj in E; [|done..]. apply arrival_texts_inj in E. exact E.
Qed.
End Fingerprint.

(** ** Snapshots *)

Section Snapshots.
Context `{HOST : !Host}.
Variables instance queueID : string.

(** What one line contributes: nothing, or the name of a queue and a text. *)
Definition line_entry (line : string) : result (option (string * string)) :=
  if blank line then Ok None else
  match decode_entry line with
  | None => Err "invalid Postfix JSON queue output"
  | Some entry =>
      if negb (validLongQueueID (pe_queue_id entry))
      then Err "invalid Postfix JSON queue output" else
      if (queueID <>?s "") && (pe_queue_id entry <>?s queueID) then Ok None else
      let! held := queue_held (pe_queue_name entry) in
      let! metadata := queueMetadataFromEntry instance entry in
      Ok (Some (pe_queue_name entry, snapshot_entry (pe_queue_name entry) metadata))
  end.

Definition in_queue (names : list string) (p : string * string) : bool :=
  existsb (String.eqb p.1) names.

(** The state after the entries [l], starting from [s]. *)
Definition counts_from (s : snapshot_state) (l : list (string * string)) : snapshot_state :=
  {| ss_active := ss_active s + length (List.filter (in_queue ["active"; "incoming"]) l);
     ss_deferred := ss_deferred s + length (List.filter (in_queue ["deferred"]) l);
     ss_held := ss_held s + length (List.filter (in_queue ["hold"]) l);
     ss_entries := ss_entries s ++ map snd l |}.

Lemma count_queue_spec name s :
  match queue_held name with
  | Ok _ => forall text, exists s1, count_queue name s = Ok s1
              /\ add_entry text s1 = counts_from s [(name, text)]
  | Err _ => exists e, count_queue name s = Err e
  end.
Proof.
  unfold queue_held, count_queue, counts_from, in_queue, add_entry. simpl.
  destruct (name =?s "incoming") eqn:E1.
  { apply eqs_true in E1 as ->. simpl. eexists. split; [done|]. simpl. by rewrite !Nat.add_0_r. }
  destruct (name =?s "active") eqn:E2.
  { apply eqs_true in E2 as ->. simpl. eexists. split; [done|]. simpl. by rewrite !Nat.add_0_r. }
  destruct (name =?s "deferred") eqn:E3.
  { apply eqs_true in E3 as ->. simpl. eexists. split; [done|]. simpl. by rewrite !Nat.add_0_r. }
  destruct (name =?s "hold") eqn:E4.
  { apply eqs_true in E4 as ->. simpl. eexists. split; [done|]. simpl. by rewrite !Nat.add_0_r. }
  simpl. by eexists.
Qed.

Lemma counts_from_app s l k : counts_from (counts_from s l) k = counts_from s (l ++ k).
Proof.
  unfold counts_from. simpl. rewrite !List.filter_app, !length_app, map_app, app_assoc.
  f_equal; lia.
Qed.

(** The loop is a fold of the contributions of the lines. *)
Lemma snapshot_loop_spec lines : forall s s',
  snapshot_lines_loop instance queueID s lines = Ok s' <->
  exists l, rmap line_entry lines = Ok l /\ s' = counts_from s (omap id l).
Proof.
  induction lines as [|line lines IH]; intros s s'; cbn [snapshot_lines_loop rmap].
  { split.
    - intros [= <-]. exists []. split; [done|]. unfold counts_from. simpl.
      rewrite !Nat.add_0_r, app_nil_r. by destruct s.
    - intros (l & [= <-] & ->). unfold counts_from. simpl.
      rewrite !Nat.add_0_r, app_nil_r. by destruct s. }
  assert (forall o,
    (exists l, rbind (rmap line_entry lines) (fun ys => Ok (o :: ys)) = Ok l
       /\ s' = counts_from s (omap id l)) <->
    exists l, rmap line_entry lines = Ok l
       /\ s' = counts_from s (omap id (o :: l))) as Hcons.
  { intros o. split.
    - intros (l0 & H & ->). apply rbind_ok in H as (l & Hl & [= <-]). by exists l.
    - intros (l & Hl & ->). exists (o :: l). by rewrite Hl. }
  unfold line_entry at 1.
  destruct (blank line). { cbn [rbind]. rewrite Hcons. apply IH. }
  destruct (decode_entry line) as [entry|]; [|split; [done|by intros (? & [=] & _)]].
  destruct (negb (validLongQueueID _)); [split; [done|by intros (? & [=] & _)]|].
  destruct (_ && _). { cbn [rbind]. rewrite Hcons. apply IH. }
  pose proof (count_queue_spec (pe_queue_name entry) s) as Hq.
  destruct (queue_held (pe_queue_name entry)) as [held|].
  2: { destruct Hq as [e0 ->]. split; [done|by intros (? & [=] & _)]. }
  destruct (queueMetadataFromEntry instance entry) as [m|].
  2: { destruct (Hq "") as (s1 & -> & _). split; [done|by intros (? & [=] & _)]. }
  destruct (Hq (snapshot_entry (pe_queue_name entry) m)) as (s1 & -> & Hadd).
  cbn [rbind] in *. rewrite Hcons, IH, Hadd. simpl.
  split; intros (l & Hl & ->); exists l; split; try done; by rewrite counts_from_app.
Qed.

Lemma line_entry_known line name text :
  line_entry line = Ok (Some (name, text)) -> exists held, queue_held name = Ok held.
Proof.
  unfold line_entry. intros Ho. destruct (blank line); [done|].
  destruct (decode_entry line); [|done]. destruct (negb _); [done|]. destruct (_ && _); [done|].
  apply rbind_ok in Ho as (held & Hh & Ho). apply rbind_ok in Ho as (m & _ & [= <- _]).
  by exists held.
Qed.

(** Every known queue is counted once. *)
Lemma entries_partition (l : list (string * string)) :
  Forall (fun p => exists held, queue_held p.1 = Ok held) l ->
  length l = length (List.filter (in_queue ["active"; "incoming"]) l)
    + length (List.filter (in_queue ["deferred"]) l)
    + length (List.filter (in_queue ["hold"]) l).
Proof.
  induction 1 as [|[name text] l [held Hh] _ IH]; [done|].
  unfold queue_held, in_queue in *. cbn [List.filter length existsb fst] in *. revert Hh.
  destruct (name =?s "incoming") eqn:E1; [apply eqs_true in E1 as ->; simpl; lia|].
  destruct (name =?s "active") eqn:E2; [apply eqs_true in E2 as ->; simpl; lia|].
  destruct (name =?s "deferred") eqn:E3; [apply eqs_true in E3 as ->; simpl; lia|].
  destruct (name =?s "hold") eqn:E4; [apply eqs_true in E4 as ->; simpl; lia|]. done.
Qed.

(** What a snapshot of [lines] accounts for. *)
Lemma snapshot_account lines s :
  snapshot_lines_loop instance queueID no_entries lines = Ok s ->
  sn_total (snapshot_result s)
    = sn_active (snapshot_result s) + sn_deferred (snapshot_result s) + sn_held (snapshot_result s)
  /\ sn_total (snapshot_result s) <= length lines.
Proof.
  intros (l & H & ->)%snapshot_loop_spec. unfold snapshot_result, counts_from.
  cbn [sn_total sn_active sn_deferred sn_held ss_active ss_deferred ss_held ss_entries
    no_entries app Nat.add].
  rewrite length_map. apply rmap_ok in H. split.
  - apply entries_partition. induction H as [|line o lines l Ho _ IH]; [done|].
    destruct o as [[name text]|]; [|done].
    constructor; [by apply line_entry_known in Ho|done].
  - rewrite (Forall2_length _ _ _ H). clear H.
    induction l as [|o l IH]; [done|].
    change (length (omap id (o :: l)) <= S (length l)).
    etrans; [|apply le_n_S, IH]. destruct o as [p|]; [done|]. apply Nat.le_succ_diag_r.
Qed.

(** A snapshot is an account of the queue as a set of entries: reordering
    the listing changes nothing, not even the digest; every selected entry is
    counted in exactly one of active, deferred and held; and the total is
    their sum. *)
Theorem snapshot_order_independent lines1 lines2 s1 :
  lines1 ≡ₚ lines2 -> snapshot_lines_loop instance queueID no_entries lines1 = Ok s1 ->
  exists s2, snapshot_lines_loop instance queueID no_entries lines2 = Ok s2
    /\ snapshot_result s2 = snapshot_result s1
    /\ sn_total (snapshot_result s1)
       = sn_active (snapshot_result s1) + sn_deferred (snapshot_result s1)
         + sn_held (snapshot_result s1).
Proof.
  intros Hp H. pose proof (snapshot_account _ _ H) as [Hsum _].
  apply snapshot_loop_spec in H as (l1 & H1 & ->).
  destruct (rmap_perm _ _ _ _ Hp H1) as (l2 & H2 & Hl).
  exists (counts_from no_entries (omap id l2)). split; [apply snapshot_loop_spec; by exists l2|].
  assert (omap id l1 ≡ₚ omap id l2) as Ho by (by rewrite Hl). split.
  - unfold snapshot_result, counts_from. simpl.
    rewrite (sort_strings_of_perm (map snd (omap id l1)) (map snd (omap id l2)))
      by (by apply Permutation_map).
    f_equal; [by rewrite Ho..|by rewrite !length_map, Ho].
  - exact Hsum.
Qed.
End Snapshots.

Lemma scan_lines_length max s : forall cur n,
  length (scan_lines max cur n s).1 <= len s + (if cur =?s "" then 0 else 1).
Proof.
  induction s as [|c s IH]; intros cur n; cbn [scan_lines].
  - destruct (cur =?s ""); simpl; lia.
  - destruct (Ascii.eqb c newline).
    + specialize (IH "" 0%Z). simpl in *. lia.
    + destruct (max <=? n + 1)%Z; simpl; [lia|]. specialize (IH (String c cur) (n + 1)%Z).
      simpl in IH. lia.
Qed.

(** A snapshot that succeeds is bounded by the output it was read from. *)
Lemma Snapshot_ok `{HOST : !Host} {PS} `{RUNNER : !CommandRunner PS} b q (s : PS) sn s' :
  Snapshot b q s = (Ok sn, s') ->
  sn_total sn = sn_active sn + sn_deferred sn + sn_held sn
  /\ (Z.of_nat (sn_total sn) <= maxPostfixOutputBytes)%Z
  /\ exists l, sn_digest sn = digestStrings l.
Proof.
  unfold Snapshot. intros H.
  apply cmd_bind_ok in H as ([] & ? & [_ ->]%guard_cmd_ok & H).
  apply cmd_bind_ok in H as ([] & ? & [_ ->]%guard_cmd_ok & H).
  apply cmd_bind_ok in H as (instance & ? & [_ ->]%lift_cmd_ok & H).
  apply cmd_bind_ok in H as (limit & ? & [Hl ->]%lift_cmd_ok & H).
  apply cmd_bind_ok in H as (output & s1 & _ & H).
  apply cmd_bind_ok in H as ([] & ? & [Hn ->]%guard_cmd_ok & H).
  apply cmd_bind_ok in H as (z & ? & [Hz ->]%lift_cmd_ok & H).
  apply cmd_bind_ok in H as ([] & ? & [_ ->]%guard_cmd_ok & H).
  apply cmd_bind_ok in H as ([] & ? & [_ ->]%guard_cmd_ok & [= <- _]).
  apply snapshot_account in Hz as [Hsum Hle]. to_prop.
  split; [exact Hsum|]. split; [|by eexists].
  pose proof (scan_lines_length maxPostqueueJSONLineBytes output "" 0) as Hsc.
  change (if "" =?s "" then 0 else 1) with 0 in Hsc.
  assert (limit <= maxPostfixOutputBytes)%Z.
  { unfold outputLimit in Hl. destruct (_ =? 0)%Z; [injection Hl as <-; done|].
    destruct (_ || _) eqn:E; [done|]. injection Hl as <-. to_prop. lia. }
  unfold output_lines in Hle. lia.
Qed.
