(* ===== verification/Http.v ===== *)
(** * HTTP as the Postfix services use it (net/http)

    Requests carry one JSON object and a bearer token; responses are read
    whole up to a limit and decoded strictly.  The network and the HTTP
    implementation are the class [HttpClient] over the state [PS] of the
    system behind it; [direct_client] is the network that hands every request
    for a fixed origin to one server. *)

From stdpp Require Import base list strings.
From Stdlib Require Import ZArith Lia Ascii.
From S2P Require Import Prelude GoStd Json Postfix.

Definition MethodPost : string := "POST".
Definition StatusOK : Z := 200.
Definition StatusNoContent : Z := 204.
Definition StatusBadRequest : Z := 400.
Definition StatusUnauthorized : Z := 401.
Definition StatusNotFound : Z := 404.
Definition StatusMethodNotAllowed : Z := 405.
Definition StatusConflict : Z := 409.

(** The headers Authorization and X-Correlation-ID, empty when absent. *)
Record HttpRequest := {
  rq_method : string; rq_url : string; rq_authorization : string; rq_correlation : string;
  rq_body : string;
}.

(** [rs_broken]: the connection fails after the bytes of [rs_body]. *)
Record HttpResponse := { rs_status : Z; rs_body : string; rs_broken : bool }.

Definition reply (status : Z) (body : string) : HttpResponse :=
  {| rs_status := status; rs_body := body; rs_broken := false |}.

(** [http.Error(w, text, status)] *)
Definition http_error (text : string) (status : Z) : HttpResponse :=
  reply status (text +:+ String newline "").

(** [request_url]: [http.NewRequestWithContext] accepts the URL.
    [http_do]: [client.Do], without a response when the server is not
    reached. *)
Class HttpClient (PS : Type) := {
  request_url : string -> bool;
  http_do : HttpRequest -> PS -> option HttpResponse * PS;
}.

(** [io.ReadAll(io.LimitReader(response.Body, limit+1))], checked against the
    limit. *)
Definition read_body (limit : Z) (rs : HttpResponse) : option string :=
  if (limit <? Z.of_nat (len (rs_body rs)))%Z then None
  else if rs_broken rs then None
  else Some (rs_body rs).

(** [response.StatusCode < 200 || response.StatusCode >= 300] *)
Definition failed_status (status : Z) : bool := (status <? 200)%Z || (300 <=? status)%Z.

(** One value of a struct type, with unknown fields and anything after the
    value refused. *)
Definition strict_json {A} (fields : struct_type A) (zero : A) (body : string) : option A :=
  decode_json (store_struct true fields) zero body.

Definition bearer_prefix : string := "Bearer ".

(** ** A network with one server *)

Definition direct_client {PS} (base : string)
    (serve : string -> HttpRequest -> PS -> HttpResponse * PS) : HttpClient PS :=
  {| request_url := fun _ => true;
     http_do := fun rq s =>
       match strip base (rq_url rq) with
       | Some path => let (rs, s') := serve path rq s in (Some rs, s')
       | None => (None, s)
       end |}.

Lemma strip_app p s : strip p (p +:+ s) = Some s.
Proof.
  induction p as [|c p IH]; [done|]. rewrite app_cons. cbn [strip]. by rewrite Ascii.eqb_refl.
Qed.
