(* ===== verification/Helper.v ===== *)
(** * The Postfix-side helper (internal/postfixgate/helper.go)

    The helper runs beside Postfix and exposes six queue operations over
    HTTP: inspection, hold and summary under the delivery credential, release,
    flush and retry under the release credential.  It stores only the SHA-256
    digests of the two tokens. *)

From stdpp Require Import base list gmap sets strings.
From Stdlib Require Import ZArith Lia Ascii.
From S2P Require Import Prelude GoStd Json JsonText Sha256 Policy Queue AuditLog Database QueueStore HoldMachine Reconcile Postfix Http.

(** ** Wire formats *)

(** [outboundpolicy.QueueMetadata] as encoding/json prints it; the recipients
    of an observation are never empty, so the slice is never nil. *)
Definition metadata_json (m : QueueMetadata) : jval :=
  VObj [("queue_id", VStr (qm_queue_id m));
        ("arrival_fingerprint", VStr (qm_arrival_fingerprint m));
        ("envelope_sender", VStr (qm_envelope_sender m));
        ("recipients", VArr (map VStr (qm_recipients m)));
        ("held", VBool (qm_held m))].

Definition json_int (n : nat) : jval := VNum (FormatInt (Z.of_nat n)).

Definition snapshot_json (s : QueueSnapshot) : jval :=
  VObj [("active", json_int (sn_active s)); ("deferred", json_int (sn_deferred s));
        ("held", json_int (sn_held s)); ("total", json_int (sn_total s));
        ("digest", VStr (sn_digest s))].

(** [json.NewEncoder(w).Encode(v)] *)
Definition encode_line (v : jval) : string := print_json v +:+ String newline "".

(** [struct { QueueID string `json:"queue_id"` }] *)
Definition selector_fields : struct_type string := [("queue_id", store_string)].

(** ** The interfaces the helper serves *)

Class QueueOperator (PS : Type) := {
  op_snapshot : string -> Command PS QueueSnapshot;
  op_flush : Command PS unit;
  op_retry : string -> Command PS unit;
}.

Definition PostfixQueueOperator `{HOST : !Host} {PS} `{RUNNER : !CommandRunner PS}
    (b : PostfixBoundary) : QueueOperator PS :=
  {| op_snapshot := Snapshot b; op_flush := Flush b; op_retry := Retry b |}.

Record Helper := { hp_token_hash : list N; hp_release_token_hash : list N }.

Definition token_bytes (token : string) : list N := Sha.sum256 (bytes_of token).

Definition valid_token (token : string) : bool :=
  (32 <=? len token) && (len token <=? 4096) && (TrimSpace token =?s token).

Definition NewHelper (token releaseToken : string) : result Helper :=
  if negb (valid_token token) || negb (valid_token releaseToken) || (token =?s releaseToken)
  then Err "invalid Postfix helper configuration"
  else Ok {| hp_token_hash := token_bytes token;
             hp_release_token_hash := token_bytes releaseToken |}.

(** [http.MaxBytesReader(w, r.Body, 8<<10)] *)
Definition maxSelectorBytes : Z := 8 * 2 ^ 10.

(** ** Requests *)

(** The queue selector of an authenticated request, or the reply that ends
    it. *)
Definition decodeRequest (rq : HttpRequest) (tokenHash : list N) (optional : bool)
    : string + HttpResponse :=
  if rq_method rq <>?s MethodPost then inr (reply StatusMethodNotAllowed "") else
  let header := rq_authorization rq in
  if negb (HasPrefix header bearer_prefix) || (len bearer_prefix + 4096 <? len header)
  then inr (reply StatusUnauthorized "") else
  if bool_decide (token_bytes (default "" (strip bearer_prefix header)) <> tokenHash)
  then inr (reply StatusUnauthorized "") else
  if (maxSelectorBytes <? Z.of_nat (len (rq_body rq)))%Z
  then inr (reply StatusBadRequest "") else
  match strict_json selector_fields "" (rq_body rq) with
  | None => inr (reply StatusBadRequest "")
  | Some queueID =>
      if (queueID =?s "") && negb optional then inr (reply StatusBadRequest "")
      else inl queueID
  end.

Section Handler.
Context {PS : Type} `{BOUNDARY : !QueueBoundary PS} `{OPERATOR : !QueueOperator PS}.
Variable h : Helper.

Definition request (rq : HttpRequest) := decodeRequest rq (hp_token_hash h) false.
Definition requestWithHash (rq : HttpRequest) (tokenHash : list N) :=
  decodeRequest rq tokenHash false.
Definition optionalRequestWithHash (rq : HttpRequest) (tokenHash : list N) :=
  decodeRequest rq tokenHash true.

(** An operation without a result: 204, or 409 with a text. *)
Definition acknowledge {A} (r : result A) (failed : string) : HttpResponse :=
  match r with
  | Ok _ => reply StatusNoContent ""
  | Err _ => http_error failed StatusConflict
  end.

(** [queueID, ok := h.request(w, r); if !ok { return }] *)
Definition with_selector (selector : string + HttpResponse)
    (run : string -> PS -> HttpResponse * PS) (s : PS) : HttpResponse * PS :=
  match selector with
  | inr rs => (rs, s)
  | inl queueID => run queueID s
  end.

Definition handle_inspect (rq : HttpRequest) : PS -> HttpResponse * PS :=
  with_selector (request rq) (fun queueID s =>
    match Inspect queueID s with
    | (Ok metadata, s') => (reply StatusOK (encode_line (metadata_json metadata)), s')
    | (Err _, s') => (http_error "queue inspection failed" StatusConflict, s')
    end).

Definition handle_hold (rq : HttpRequest) : PS -> HttpResponse * PS :=
  with_selector (request rq) (fun queueID s =>
    let (r, s') := Hold queueID s in (acknowledge r "queue hold failed", s')).

Definition handle_release (rq : HttpRequest) : PS -> HttpResponse * PS :=
  with_selector (requestWithHash rq (hp_release_token_hash h)) (fun queueID s =>
    let (r, s') := ReleaseHold queueID s in (acknowledge r "queue release failed", s')).

Definition handle_summary (rq : HttpRequest) : PS -> HttpResponse * PS :=
  with_selector (optionalRequestWithHash rq (hp_token_hash h)) (fun queueID s =>
    match op_snapshot queueID s with
    | (Ok summary, s') => (reply StatusOK (encode_line (snapshot_json summary)), s')
    | (Err e, s') =>
        (if e =?s ErrQueueIDNotFound then http_error "queue ID not found" StatusNotFound
         else http_error "queue snapshot failed" StatusConflict, s')
    end).

Definition handle_flush (rq : HttpRequest) : PS -> HttpResponse * PS :=
  with_selector (optionalRequestWithHash rq (hp_release_token_hash h)) (fun queueID s =>
    if queueID <>?s "" then (reply StatusBadRequest "", s) else
    let (r, s') := op_flush s in (acknowledge r "queue flush failed", s')).

Definition handle_retry (rq : HttpRequest) : PS -> HttpResponse * PS :=
  with_selector (requestWithHash rq (hp_release_token_hash h)) (fun queueID s =>
    let (r, s') := op_retry queueID s in (acknowledge r "queue retry failed", s')).

(** Helper.Handler: the routes of the mux. *)
Definition Handler (path : string) (rq : HttpRequest) (s : PS) : HttpResponse * PS :=
  if path =?s "/v1/queue/inspect" then handle_inspect rq s
  else if path =?s "/v1/queue/hold" then handle_hold rq s
  else if path =?s "/v1/queue/release" then handle_release rq s
  else if path =?s "/v1/queue/summary" then handle_summary rq s
  else if path =?s "/v1/queue/flush" then handle_flush rq s
  else if path =?s "/v1/queue/retry" then handle_retry rq s
  else (http_error "404 page not found" StatusNotFound, s).

(** ** Who may do what *)

(** The operation a path stands for, as an action on the system; the second
    component tells whether it needs the release credential. *)
Definition operation (path : string) : option ((string -> PS -> PS) * bool) :=
  if path =?s "/v1/queue/inspect" then Some (fun q s => (Inspect q s).2, false)
  else if path =?s "/v1/queue/hold" then Some (fun q s => (Hold q s).2, false)
  else if path =?s "/v1/queue/release" then Some (fun q s => (ReleaseHold q s).2, true)
  else if path =?s "/v1/queue/summary" then Some (fun q s => (op_snapshot q s).2, false)
  else if path =?s "/v1/queue/flush" then Some (fun _ s => (op_flush s).2, true)
  else if path =?s "/v1/queue/retry" then Some (fun q s => (op_retry q s).2, true)
  else None.

Definition operation_hash (release : bool) : list N :=
  if release then hp_release_token_hash h else hp_token_hash h.

(** The credential and the selector of a request. *)
Definition presents (rq : HttpRequest) (hash : list N) (token queueID : string) : Prop :=
  rq_method rq = MethodPost /\ rq_authorization rq = bearer_prefix +:+ token
  /\ len token <= 4096 /\ token_bytes token = hash
  /\ (Z.of_nat (len (rq_body rq)) <= maxSelectorBytes)%Z
  /\ strict_json selector_fields "" (rq_body rq) = Some queueID.
End Handler.

Lemma strip_some p s r : strip p s = Some r <-> s = p +:+ r.
Proof.
  revert s. induction p as [|c p IH]; intros s; cbn [strip].
  { split; [by intros [= ->]|by intros ->]. }
  rewrite app_cons. destruct s as [|b s]; [done|].
  destruct (Ascii.eqb_spec c b) as [->|Hne].
  - rewrite IH. split; [by intros ->|by intros [= ->]].
  - split; [done|]. by intros [= -> ?].
Qed.

Lemma HasPrefix_strip p s : HasPrefix s p = true <-> exists r, strip p s = Some r.
Proof.
  unfold HasPrefix. revert s. induction p as [|c p IH]; intros s; cbn [strip].
  { split; intros _; [by exists s|by destruct s]. }
  destruct s as [|b s]; [by split; [|intros []]|].
  change (String.prefix (String c p) (String b s))
    with (if Ascii.ascii_dec c b then String.prefix p s else false).
  destruct (Ascii.ascii_dec c b) as [->|Hne].
  - rewrite Ascii.eqb_refl. apply IH.
  - apply Ascii.eqb_neq in Hne as ->. by split; [|intros []].
Qed.

Lemma decodeRequest_ok rq hash optional queueID :
  decodeRequest rq hash optional = inl queueID <->
  (exists token, presents rq hash token queueID) /\ (queueID = "" -> optional = true).
Proof.
  unfold decodeRequest, presents. split.
  - destruct (_ <>?s _) eqn:Em; [done|]. destruct (_ || _) eqn:Eh; [done|].
    case_bool_decide as Ht; [done|]. destruct (_ <? _)%Z eqn:Eb; [done|].
    destruct (strict_json _ _ _) as [q|]; [|done].
    destruct (_ && _) eqn:Eq; [done|]. intros [= ->].
    apply orb_false_iff in Eh as [Ep El]. apply negb_false_iff, HasPrefix_strip in Ep as [t Et].
    rewrite Et in Ht. apply strip_some in Et. to_prop. split.
    + exists t. rewrite Et, len_app in El. simpl in El.
      split_and!; first [done|lia|by apply dec_stable].
    + intros ->. destruct Eq; [done|]. by destruct optional.
  - intros [(token & -> & -> & Hl & Ht & Hb & ->) Hopt].
    rewrite eqs_refl, strip_app. cbn [negb default].
    assert (HasPrefix (bearer_prefix +:+ token) bearer_prefix = true) as ->
      by (apply HasPrefix_strip; exists token; apply strip_app).
    destruct (_ <? len _) eqn:El; [rewrite len_app in El; simpl in El; to_prop; lia|].
    cbn [negb orb]. rewrite bool_decide_false by (by intros []).
    destruct (_ <? _)%Z eqn:Eb; [to_prop; lia|].
    destruct (queueID =?s "") eqn:Eq; [|done]. apply eqs_true in Eq. by rewrite Hopt.
Qed.

Lemma decodeRequest_refused rq hash optional rs :
  decodeRequest rq hash optional = inr rs ->
  rs_status rs ∈ [StatusBadRequest; StatusUnauthorized; StatusMethodNotAllowed]
  /\ forall token queueID, presents rq hash token queueID -> queueID = "" /\ optional = false.
Proof.
  intros H. split.
  - unfold decodeRequest in H. rewrite !elem_of_cons.
    destruct (_ <>?s _); [injection H as <-; by right; right; left|].
    destruct (_ || _); [injection H as <-; by right; left|].
    case_bool_decide; [injection H as <-; by right; left|].
    destruct (_ <? _)%Z; [injection H as <-; by left|].
    destruct (strict_json _ _ _) as [q|]; [|injection H as <-; by left].
    destruct (_ && _); [injection H as <-; by left|done].
  - intros token queueID Hp. destruct (decide (queueID = "" -> optional = true)) as [Ho|Ho].
    + exfalso. assert (decodeRequest rq hash optional = inl queueID) as E
        by (apply decodeRequest_ok; eauto). congruence.
    + destruct (decide (queueID = "")); [|by destruct Ho]. destruct optional; [by destruct Ho|done].
Qed.

Section Authentication.
Context {PS : Type} `{BOUNDARY : !QueueBoundary PS} `{OPERATOR : !QueueOperator PS}.
Variable h : Helper.

(** A summary may select the whole queue, a flush must. *)
Definition selects (path queueID : string) : Prop :=
  (queueID = "" -> path ∈ ["/v1/queue/summary"; "/v1/queue/flush"])
  /\ (path = "/v1/queue/flush" -> queueID = "").

(** What one exchange did: nothing, with an error status, or the operation
    of its path on behalf of the credential that operation needs. *)
Definition exchange_effect (path : string) (rq : HttpRequest) (s : PS) (rs : HttpResponse)
    (s' : PS) : Prop :=
  (s' = s /\ failed_status (rs_status rs) = true
   /\ forall op release token queueID, operation path = Some (op, release) ->
        presents rq (operation_hash h release) token queueID -> selects path queueID -> False)
  \/ exists op release token queueID,
       operation path = Some (op, release)
       /\ presents rq (operation_hash h release) token queueID
       /\ selects path queueID /\ s' = op queueID s.

(** A route that is [decodeRequest] followed by its operation. *)
Lemma route_effect path rq s op release hash optional (run : string -> PS -> HttpResponse * PS) :
  operation path = Some (op, release) -> hash = operation_hash h release ->
  (forall q, optional = true -> q = "" -> path ∈ ["/v1/queue/summary"; "/v1/queue/flush"]) ->
  (optional = false -> path ∉ ["/v1/queue/summary"; "/v1/queue/flush"]) ->
  (forall q, let (rs, s') := run q s in
     s' = op q s /\ (path = "/v1/queue/flush" -> q = "")
     \/ s' = s /\ failed_status (rs_status rs) = true /\ path = "/v1/queue/flush" /\ q <> "") ->
  let (rs, s') := with_selector (decodeRequest rq hash optional) run s in
  exchange_effect path rq s rs s'.
Proof.
  intros Hop -> Hyes Hno Hrun. unfold with_selector. destruct (decodeRequest _ _ _) as [q|rs] eqn:E.
  - apply decodeRequest_ok in E as [[token Hp] Ho]. specialize (Hrun q).
    destruct (run q s) as [rs s']. destruct Hrun as [[Hs' Hf]|(-> & Hst & Hf & Hq)].
    + right. exists op, release, token, q. split_and!; [done..|split; [|done]|done].
      intros ->. apply (Hyes ""); [by apply Ho|done].
    + left. split_and!; [done..|]. intros op' release' token' q' Hop' Hp' [_ Hq'].
      rewrite Hop in Hop'. injection Hop' as <- <-. specialize (Hq' Hf).
      destruct Hp as (_ & _ & _ & _ & _ & Hb), Hp' as (_ & _ & _ & _ & _ & Hb'). congruence.
  - apply decodeRequest_refused in E as [Hst Hr]. left. split_and!; [done| |].
    + rewrite !elem_of_cons, elem_of_nil in Hst. by destruct Hst as [->|[->|[->|[]]]].
    + intros op' release' token' q' Hop' Hp' [Hq' _]. rewrite Hop in Hop'. injection Hop' as <- <-.
      apply Hr in Hp' as [-> Hf]. by apply (Hno Hf), Hq'.
Qed.

(** [route op release s]: the route of one operation. *)
Ltac route op release s :=
  unfold handle_inspect, handle_hold, handle_release, handle_summary, handle_flush, handle_retry,
    request, requestWithHash, optionalRequestWithHash;
  eapply (route_effect _ _ s op release);
  [reflexivity
  |reflexivity
  |intros q0 ? ?; first [discriminate|by apply (bool_decide_unpack _)]
  |intros ?; first [discriminate|by apply (bool_decide_unpack _)]
  |intros q].

(** The helper does nothing to Postfix without the right credential: an
    exchange either leaves the system alone and answers with an error, and
    then no valid request for that operation was presented, or it performed
    exactly the one operation of its path, for a bounded POST request that
    carried the token of that operation class (release, flush and retry need
    the release token) and one strictly decoded selector. *)
Theorem Handler_authenticated path rq (s : PS) :
  let (rs, s') := Handler h path rq s in exchange_effect path rq s rs s'.
Proof.
  unfold Handler.
  destruct (path =?s "/v1/queue/inspect") eqn:E1.
  { apply eqs_true in E1 as ->. route (fun q s => (Inspect (PS := PS) q s).2) false s.
    destruct (Inspect q s) as [[]]; by left. }
  destruct (path =?s "/v1/queue/hold") eqn:E2.
  { apply eqs_true in E2 as ->. route (fun q s => (Hold (PS := PS) q s).2) false s.
    destruct (Hold q s) as [r s']; by left. }
  destruct (path =?s "/v1/queue/release") eqn:E3.
  { apply eqs_true in E3 as ->. route (fun q s => (ReleaseHold (PS := PS) q s).2) true s.
    destruct (ReleaseHold q s) as [r s']; by left. }
  destruct (path =?s "/v1/queue/summary") eqn:E4.
  { apply eqs_true in E4 as ->. route (fun q s => (op_snapshot (PS := PS) q s).2) false s.
    destruct (op_snapshot q s) as [[] ?]; by left. }
  destruct (path =?s "/v1/queue/flush") eqn:E5.
  { apply eqs_true in E5 as ->. route (fun (_ : string) s => (op_flush (PS := PS) s).2) true s.
    destruct (q =?s "") eqn:Eq; cbn [negb].
    - apply eqs_true in Eq as ->. by destruct (op_flush s) as [r s'] eqn:Ef; left.
    - right. by apply eqs_false in Eq. }
  destruct (path =?s "/v1/queue/retry") eqn:E6.
  { apply eqs_true in E6 as ->. route (fun q s => (op_retry (PS := PS) q s).2) true s.
    destruct (op_retry q s) as [r s']; by left. }
  left. split_and!; [done..|]. intros op release token q H. unfold operation in H.
  by rewrite E1, E2, E3, E4, E5, E6 in H.
Qed.
End Authentication.
