(* ===== verification/Remote.v ===== *)
(** * The core's side of the Postfix helper (internal/outboundpolicy/remote_postfix.go)

    [RemotePostfixBoundary] is the boundary the core is configured with: the
    queue operations as authenticated HTTP requests to the helper.  The last
    part composes it with Helper.v: over a network that delivers, the remote
    boundary is the local one, except that an observation must fit the
    response limit. *)

From stdpp Require Import base list gmap sets strings.
From Stdlib Require Import ZArith Lia Ascii.
From S2P Require Import Prelude GoStd Json JsonText Sha256 Policy Queue AuditLog Database QueueStore HoldMachine Reconcile Postfix Http Helper.

Definition maxPostfixHelperResponseBytes : Z := 64 * 2 ^ 10.

(** [rb_client]: whether a client is configured. *)
Record RemotePostfixBoundary := {
  rb_base_url : string; rb_token : string; rb_release_token : string; rb_client : bool;
}.

(** [url.Parse]: the parts the constructor looks at. *)
Record URL := {
  url_scheme : string; url_host : string; url_user : bool; url_path : string;
  url_raw_query : string; url_fragment : string; url_text : string;
}.
Class UrlParser := { url_parse : string -> option URL }.

Definition valid_origin (parsed : URL) : bool :=
  ((url_scheme parsed =?s "http") || (url_scheme parsed =?s "https"))
  && (url_host parsed <>?s "") && negb (url_user parsed) && (url_raw_query parsed =?s "")
  && (url_fragment parsed =?s "") && (url_path parsed =?s "").

(** [strings.TrimRight(s, "/")] *)
Fixpoint drop_slashes (r : string) : string :=
  match r with
  | String "/" r => drop_slashes r
  | _ => r
  end.
Definition TrimRightSlash (s : string) : string := String.rev (drop_slashes (String.rev s)).

Definition validPostfixHelperToken (token : string) : bool :=
  (32 <=? len token) && (len token <=? 4096) && (TrimSpace token =?s token).

Section Constructors.
Context `{PARSER : !UrlParser}.

Definition newRemotePostfixBoundary (rawURL token releaseToken : string)
    : result RemotePostfixBoundary :=
  match url_parse (TrimSpace rawURL) with
  | None => Err "invalid Postfix helper URL"
  | Some parsed =>
      if negb (valid_origin parsed) then Err "invalid Postfix helper URL" else
      if negb (validPostfixHelperToken token) then Err "invalid Postfix helper token" else
      Ok {| rb_base_url := TrimRightSlash (url_text parsed); rb_token := token;
            rb_release_token := releaseToken; rb_client := true |}
  end.

Definition NewRemotePostfixBoundary (rawURL token : string) : result RemotePostfixBoundary :=
  newRemotePostfixBoundary rawURL token "".

Definition NewRemotePostfixBoundaryWithRelease (rawURL token releaseToken : string)
    : result RemotePostfixBoundary :=
  if negb (validPostfixHelperToken releaseToken) || (releaseToken =?s token)
  then Err "invalid Postfix release token"
  else newRemotePostfixBoundary rawURL token releaseToken.
End Constructors.

(** ** Wire formats *)

(** [QueueMetadata] while it is being decoded. *)
Record metadata_wire := {
  mw_queue_id : string; mw_arrival_fingerprint : string; mw_envelope_sender : string;
  mw_recipients : GoSlice string; mw_held : bool;
}.

Definition metadata_fields : struct_type metadata_wire :=
  [("queue_id", fun v m => (fun x =>
      {| mw_queue_id := x; mw_arrival_fingerprint := mw_arrival_fingerprint m;
         mw_envelope_sender := mw_envelope_sender m; mw_recipients := mw_recipients m;
         mw_held := mw_held m |}) <$> store_string v (mw_queue_id m));
   ("arrival_fingerprint", fun v m => (fun x =>
      {| mw_queue_id := mw_queue_id m; mw_arrival_fingerprint := x;
         mw_envelope_sender := mw_envelope_sender m; mw_recipients := mw_recipients m;
         mw_held := mw_held m |}) <$> store_string v (mw_arrival_fingerprint m));
   ("envelope_sender", fun v m => (fun x =>
      {| mw_queue_id := mw_queue_id m; mw_arrival_fingerprint := mw_arrival_fingerprint m;
         mw_envelope_sender := x; mw_recipients := mw_recipients m;
         mw_held := mw_held m |}) <$> store_string v (mw_envelope_sender m));
   ("recipients", fun v m => (fun x =>
      {| mw_queue_id := mw_queue_id m; mw_arrival_fingerprint := mw_arrival_fingerprint m;
         mw_envelope_sender := mw_envelope_sender m; mw_recipients := x;
         mw_held := mw_held m |}) <$> store_slice store_string "" v (mw_recipients m));
   ("held", fun v m => (fun x =>
      {| mw_queue_id := mw_queue_id m; mw_arrival_fingerprint := mw_arrival_fingerprint m;
         mw_envelope_sender := mw_envelope_sender m; mw_recipients := mw_recipients m;
         mw_held := x |}) <$> store_bool v (mw_held m))].

Definition zero_metadata : metadata_wire :=
  {| mw_queue_id := ""; mw_arrival_fingerprint := ""; mw_envelope_sender := "";
     mw_recipients := nil_slice; mw_held := false |}.

Definition metadata_of (m : metadata_wire) : QueueMetadata :=
  {| qm_queue_id := mw_queue_id m; qm_arrival_fingerprint := mw_arrival_fingerprint m;
     qm_envelope_sender := mw_envelope_sender m; qm_recipients := slice_list (mw_recipients m);
     qm_held := mw_held m |}.

(** [QueueSnapshot] with its Go ints. *)
Record snapshot_wire := {
  zw_active : Z; zw_deferred : Z; zw_held : Z; zw_total : Z; zw_digest : string;
}.

Definition snapshot_fields : struct_type snapshot_wire :=
  [("active", fun v s => (fun x =>
      {| zw_active := x; zw_deferred := zw_deferred s; zw_held := zw_held s;
         zw_total := zw_total s; zw_digest := zw_digest s |}) <$> store_int v (zw_active s));
   ("deferred", fun v s => (fun x =>
      {| zw_active := zw_active s; zw_deferred := x; zw_held := zw_held s;
         zw_total := zw_total s; zw_digest := zw_digest s |}) <$> store_int v (zw_deferred s));
   ("held", fun v s => (fun x =>
      {| zw_active := zw_active s; zw_deferred := zw_deferred s; zw_held := x;
         zw_total := zw_total s; zw_digest := zw_digest s |}) <$> store_int v (zw_held s));
   ("total", fun v s => (fun x =>
      {| zw_active := zw_active s; zw_deferred := zw_deferred s; zw_held := zw_held s;
         zw_total := x; zw_digest := zw_digest s |}) <$> store_int v (zw_total s));
   ("digest", fun v s => (fun x =>
      {| zw_active := zw_active s; zw_deferred := zw_deferred s; zw_held := zw_held s;
         zw_total := zw_total s; zw_digest := x |}) <$> store_string v (zw_digest s))].

Definition zero_snapshot : snapshot_wire :=
  {| zw_active := 0; zw_deferred := 0; zw_held := 0; zw_total := 0; zw_digest := "" |}.

(** [int] addition wraps at 64 bits. *)
Definition wrap64 (n : Z) : Z := (n + 2 ^ 63) mod 2 ^ 64 - 2 ^ 63.

Definition valid_snapshot (s : snapshot_wire) : bool :=
  (0 <=? zw_total s)%Z && (0 <=? zw_active s)%Z && (0 <=? zw_deferred s)%Z
  && (0 <=? zw_held s)%Z
  && (zw_total s =? wrap64 (wrap64 (zw_active s + zw_deferred s) + zw_held s))%Z
  && (len (zw_digest s) =? 64).

Definition snapshot_of (s : snapshot_wire) : QueueSnapshot :=
  {| sn_active := Z.to_nat (zw_active s); sn_deferred := Z.to_nat (zw_deferred s);
     sn_held := Z.to_nat (zw_held s); sn_total := Z.to_nat (zw_total s);
     sn_digest := zw_digest s |}.

(** ** Calls *)

Definition selector_json (queueID : string) : jval := VObj [("queue_id", VStr queueID)].

(** What becomes of a response body: [out == nil] admits only white space. *)
Definition empty_body (body : string) : result unit :=
  if TrimSpace body =?s "" then Ok tt
  else Err "Postfix helper mutation response was not empty".
Definition json_body {A} (fields : struct_type A) (zero : A) (body : string) : result A :=
  match strict_json fields zero body with
  | Some a => Ok a
  | None => Err "Postfix helper response invalid"
  end.

Section Client.
Context `{HOST : !Host} {PS : Type} `{HTTP : !HttpClient PS}.
Variable b : RemotePostfixBoundary.

Definition delivery_paths : list string :=
  ["/v1/queue/inspect"; "/v1/queue/hold"; "/v1/queue/release"].
Definition operator_paths : list string :=
  ["/v1/queue/summary"; "/v1/queue/flush"; "/v1/queue/retry"].

Definition one_of (path : string) (l : list string) : bool := existsb (String.eqb path) l.

(** The token of a request: the release token for [release] operations. *)
Definition call_token (release : bool) : result string :=
  if release then
    if validPostfixHelperToken (rb_release_token b) then Ok (rb_release_token b)
    else Err "Postfix release credential unavailable"
  else Ok (rb_token b).

(** The request itself: the body and the status of the response. *)
Definition exchange (path queueID : string) (release : bool) : Command PS (string * Z) :=
  guard_cmd (negb (request_url (rb_base_url b +:+ path))) "invalid request URL";;
  token ← lift_cmd (call_token release);
  rs ← (fun s => match http_do {| rq_method := MethodPost; rq_url := rb_base_url b +:+ path;
                                  rq_authorization := bearer_prefix +:+ token;
                                  rq_correlation := ""; rq_body := print_json (selector_json queueID) |} s with
                 | (Some rs, s') => (Ok rs, s')
                 | (None, s') => (Err "Postfix helper unavailable", s')
                 end);
  match read_body maxPostfixHelperResponseBytes rs with
  | None => fail_cmd "Postfix helper response invalid"
  | Some body => mret (body, rs_status rs)
  end.

Definition call {A} (path queueID : string) (out : string -> result A) : Command PS A :=
  guard_cmd (negb (rb_client b) || negb (validLongQueueID queueID)
             || negb (one_of path delivery_paths)) "invalid Postfix helper request";;
  answer ← exchange path queueID (path =?s "/v1/queue/release");
  guard_cmd (failed_status answer.2) "Postfix helper rejected request";;
  lift_cmd (out answer.1).

Definition callOptional {A} (path queueID : string) (out : string -> result A) : Command PS A :=
  guard_cmd (negb (rb_client b) || ((queueID <>?s "") && negb (validLongQueueID queueID))
             || negb (one_of path operator_paths)) "invalid Postfix helper request";;
  answer ← exchange path queueID (path <>?s "/v1/queue/summary");
  guard_cmd (failed_status answer.2
             && ((path =?s "/v1/queue/summary") && (answer.2 =? StatusNotFound)%Z))
    ErrQueueIDNotFound;;
  guard_cmd (failed_status answer.2) "Postfix helper rejected request";;
  lift_cmd (out answer.1).

Definition validation_source : QueueSource :=
  {| qs_kind := SourceSystemSender; qs_object_id := "validation-only" |}.

Definition equalCanonicalStrings (left right : list string) : bool :=
  (length left =? length right) && forallb (fun p => p.1 =?s p.2) (zip left right).

Definition canonical_metadata (queueID : string) (metadata : QueueMetadata) : bool :=
  match normalizeQueueRegistration
          {| rg_queue_id := qm_queue_id metadata;
             rg_arrival_fingerprint := qm_arrival_fingerprint metadata;
             rg_envelope_sender := qm_envelope_sender metadata;
             rg_recipients := qm_recipients metadata;
             rg_sources := [validation_source] |} with
  | Err _ => false
  | Ok normalized =>
      (qr_queue_id normalized =?s queueID)
      && (qr_arrival_fingerprint normalized =?s qm_arrival_fingerprint metadata)
      && (qr_envelope_sender normalized =?s qm_envelope_sender metadata)
      && equalCanonicalStrings (qr_recipients normalized) (qm_recipients metadata)
  end.

Definition remote_inspect (queueID : string) : Command PS QueueMetadata :=
  wire ← call "/v1/queue/inspect" queueID (json_body metadata_fields zero_metadata);
  guard_cmd (negb (canonical_metadata queueID (metadata_of wire)))
    "Postfix helper returned invalid queue metadata";;
  mret (metadata_of wire).

Definition remote_hold (queueID : string) : Command PS unit :=
  call "/v1/queue/hold" queueID empty_body.
Definition remote_release (queueID : string) : Command PS unit :=
  call "/v1/queue/release" queueID empty_body.

Definition remote_snapshot (queueID : string) : Command PS QueueSnapshot :=
  guard_cmd ((queueID <>?s "") && negb (validLongQueueID queueID))
    "invalid Postfix queue selector";;
  wire ← callOptional "/v1/queue/summary" queueID (json_body snapshot_fields zero_snapshot);
  guard_cmd (negb (valid_snapshot wire)) "Postfix helper returned invalid queue snapshot";;
  mret (snapshot_of wire).

Definition remote_flush : Command PS unit := callOptional "/v1/queue/flush" "" empty_body.

Definition remote_retry (queueID : string) : Command PS unit := fun s =>
  if negb (validLongQueueID queueID) then (Err "invalid Postfix retry request", s) else
  match callOptional "/v1/queue/retry" queueID empty_body s with
  | (Ok u, s1) => (Ok u, s1)
  | (Err e, s1) =>
      match remote_snapshot queueID s1 with
      | (Err e2, s2) => (if e2 =?s ErrQueueIDNotFound then Ok tt else Err e, s2)
      | (Ok _, s2) => (Err e, s2)
      end
  end.

(** The boundary the core hands to the reconciler and the release service. *)
Definition RemoteQueueBoundary : QueueBoundary PS :=
  {| Inspect := remote_inspect; Hold := remote_hold; ReleaseHold := remote_release |}.
End Client.
