(* ===== verification/RemoteRefinement.v ===== *)
(** * The remote boundary is the local one

    Remote.v (the client in the core) composed with Helper.v (the server
    beside Postfix) over a network that delivers: every queue operation has
    the outcome and the effect of the operation of Postfix.v.  So whatever is
    proved of the reconciler and the release service over the local boundary
    holds of the deployed system. *)

From stdpp Require Import base list gmap sets strings.
From Stdlib Require Import ZArith Lia Ascii.
From S2P Require Import Prelude GoStd Json JsonText Sha256 Policy Queue AuditLog Database QueueStore HoldMachine Reconcile Postfix Http Helper Remote.

(** A client and a helper configured with one pair of tokens. *)
Definition paired `{PARSER : !UrlParser} (b : RemotePostfixBoundary) (h : Helper) : Prop :=
  exists url token releaseToken,
    NewRemotePostfixBoundaryWithRelease url token releaseToken = Ok b
    /\ NewHelper token releaseToken = Ok h.

Record credentials (b : RemotePostfixBoundary) (h : Helper) : Prop := {
  cr_client : rb_client b = true;
  cr_token : hp_token_hash h = token_bytes (rb_token b);
  cr_release : hp_release_token_hash h = token_bytes (rb_release_token b);
  cr_len : len (rb_token b) <= 4096;
  cr_valid : validPostfixHelperToken (rb_release_token b) = true;
}.

Lemma valid_token_len t : validPostfixHelperToken t = true -> len t <= 4096.
Proof. unfold validPostfixHelperToken. intros H. to_prop. lia. Qed.

Lemma paired_credentials `{PARSER : !UrlParser} b h : paired b h -> credentials b h.
Proof.
  intros (url & t & rt & Hb & Hh). unfold NewHelper in Hh. destruct (_ || _) eqn:E; [done|].
  injection Hh as <-. unfold NewRemotePostfixBoundaryWithRelease, newRemotePostfixBoundary in Hb.
  destruct (negb (validPostfixHelperToken rt) || _) eqn:Er; [done|].
  apply orb_false_iff in Er as [Er _]. apply negb_false_iff in Er.
  destruct (url_parse _); [|done]. destruct (negb (valid_origin _)); [done|].
  destruct (validPostfixHelperToken t) eqn:Et; [|done]. injection Hb as <-.
  split; [done..|by apply valid_token_len|done].
Qed.

(** ** Round trips of the wire formats *)

Lemma queue_id_plain q : validLongQueueID q = true -> forall_bytes json_plain q = true.
Proof.
  intros H. assert (queue_id_bytes q = true) as Hq.
  { unfold validLongQueueID in H. destruct (_ || _); [done|].
    destruct (queue_id_scan _ _ _ _) as [r|] eqn:E; [|done].
    by apply queue_id_scan_spec in E as [? _]. }
  revert Hq. unfold queue_id_bytes. apply byte_class_incl. vm_compute. reflexivity.
Qed.

Lemma json_plain_plain s : forall_bytes json_plain s = true -> forall_bytes plain_byte s = true.
Proof. apply forall_bytes_impl. intros c [Hc _]%andb_true_iff. done. Qed.

Definition valid_selector (q : string) : Prop := q = "" \/ validLongQueueID q = true.

Lemma selector_plain q : valid_selector q -> forall_bytes json_plain q = true /\ len q <= 100.
Proof.
  intros [->|H]; [split; [done|simpl; lia]|]. split; [by apply queue_id_plain|].
  unfold validLongQueueID in H. destruct (_ || _) eqn:E; [done|]. to_prop.
  unfold maxPostfixQueueIDBytes in *. lia.
Qed.

Lemma selector_round_trip q : valid_selector q ->
  strict_json selector_fields "" (print_json (selector_json q)) = Some q
  /\ (Z.of_nat (len (print_json (selector_json q))) <= maxSelectorBytes)%Z.
Proof.
  intros [Hq Hl]%selector_plain. split.
  - unfold strict_json, decode_json. rewrite parse_print; [done| |done].
    cbn [wf_json selector_json forallb fst snd]. rewrite andb_true_r.
    apply ValidString_plain, json_plain_plain, Hq.
  - unfold selector_json. cbn [print_json map commas fst snd]. unfold print_field, json_quote.
    cbn [fst snd]. rewrite (quote_plain q) by done. rewrite !len_app.
    unfold maxSelectorBytes. simpl. lia.
Qed.

Lemma encode_line_parse v :
  wf_json v = true -> (json_depth v <= maxNestingDepth)%N -> parse_json (encode_line v) = Some v.
Proof. intros Hw Hd. by apply parse_print_space. Qed.

Lemma metadata_stored m :
  exists w, store_struct true metadata_fields (metadata_json m) zero_metadata = Some w
    /\ metadata_of w = m.
Proof.
  unfold metadata_json. cbn [store_struct].
  pose proof (store_slice_fresh store_string "" VStr (qm_recipients m) (fun x _ => eq_refl)) as Hs.
  destruct (store_slice store_string "" (VArr (map VStr (qm_recipients m))) nil_slice)
    as [sl|] eqn:E; [|done]. injection Hs as Hs.
  eexists. split; [cbn -[store_slice]; rewrite E; reflexivity|].
  unfold metadata_of. simpl. rewrite Hs. by destruct m.
Qed.

Lemma metadata_round_trip m :
  ValidString (qm_queue_id m) = true -> ValidString (qm_arrival_fingerprint m) = true ->
  ValidString (qm_envelope_sender m) = true -> forallb ValidString (qm_recipients m) = true ->
  exists w, strict_json metadata_fields zero_metadata (encode_line (metadata_json m)) = Some w
    /\ metadata_of w = m.
Proof.
  intros H1 H2 H3 H4. unfold strict_json, decode_json. rewrite encode_line_parse.
  - apply metadata_stored.
  - cbn [wf_json metadata_json forallb fst snd]. rewrite H1, H2, H3. simpl.
    rewrite andb_true_r. rewrite forallb_forall in *. intros x Hx.
    apply in_map_iff in Hx as (y & <- & Hy). by apply H4.
  - assert (forall l, foldr (fun v n => N.max (json_depth v) n) 0%N (map VStr l) = 0%N) as Hd.
    { induction l as [|x l IH]; [done|]. simpl. by rewrite IH. }
    unfold maxNestingDepth. cbn [json_depth metadata_json foldr fst snd]. rewrite Hd. done.
Qed.

(** net/mail: a domain-literal ends with its bracket. *)
Class MailLaws `{HOST : !Host} : Prop := {
  mail_literal_bracket : forall s, mail_domain_literal s = true -> HasSuffixByte s "]" = true;
}.

Lemma json_int_round_trip n old :
  (Z.of_nat n < 2 ^ 63)%Z -> store_int (json_int n) old = Some (Z.of_nat n).
Proof. intros Hn. apply store_int_FormatInt. lia. Qed.

Definition plain_snapshot (s : QueueSnapshot) : Prop :=
  sn_total s = sn_active s + sn_deferred s + sn_held s
  /\ (Z.of_nat (sn_total s) <= maxPostfixOutputBytes)%Z
  /\ len (sn_digest s) = 64 /\ forall_bytes json_plain (sn_digest s) = true.

Lemma wrap64_small n : (- 2 ^ 63 <= n < 2 ^ 63)%Z -> wrap64 n = n.
Proof. intros Hn. unfold wrap64. rewrite Z.mod_small; lia. Qed.

Lemma snapshot_round_trip s : plain_snapshot s ->
  exists w, strict_json snapshot_fields zero_snapshot (encode_line (snapshot_json s)) = Some w
    /\ snapshot_of w = s /\ valid_snapshot w = true
    /\ (Z.of_nat (len (encode_line (snapshot_json s))) <= maxPostfixHelperResponseBytes)%Z.
Proof.
  intros (Hsum & Hmax & Hlen & Hd). change maxPostfixOutputBytes with 67108864%Z in Hmax.
  assert (forall n, n <= sn_total s -> (Z.of_nat n < 2 ^ 63)%Z) as H63 by (intros n Hn; lia).
  unfold strict_json, decode_json. rewrite encode_line_parse; [| |done].
  2: { cbn [wf_json snapshot_json forallb fst snd json_int].
       rewrite !FormatInt_literal, (ValidString_plain (sn_digest s)); [done|].
       by apply json_plain_plain. }
  eexists. split; [|split; [|split]].
  - cbn -[store_int json_int]. do 4 (rewrite json_int_round_trip by (apply H63; lia); cbn -[store_int json_int]).
    reflexivity.
  - unfold snapshot_of. simpl. rewrite !Nat2Z.id. by destruct s.
  - unfold valid_snapshot. cbn [zw_total zw_active zw_deferred zw_held zw_digest].
    rewrite Hlen, (wrap64_small (Z.of_nat (sn_active s) + Z.of_nat (sn_deferred s))) by lia. rewrite wrap64_small by lia.
    repeat (rewrite ?andb_true_iff, ?Z.leb_le, ?Z.eqb_eq). repeat split; lia.
  - assert (forall n, (Z.of_nat n <= 67108864)%Z -> len (FormatInt (Z.of_nat n)) <= 8) as Hint
      by (intros n Hn; apply len_FormatInt; lia).
    unfold encode_line, snapshot_json, json_int. cbn [print_json map commas fst snd].
    unfold print_field, json_quote. cbn [fst snd]. rewrite (quote_plain (sn_digest s)) by done.
    rewrite !len_app, Hlen. simpl len.
    pose proof (Hint (sn_total s)). pose proof (Hint (sn_active s)).
    pose proof (Hint (sn_deferred s)). pose proof (Hint (sn_held s)).
    unfold maxPostfixHelperResponseBytes. lia.
Qed.

(** Every canonical address is UTF-8. *)
Section Canonical.
Context `{HOST : !Host} `{IDNA : !IdnaLaws} `{MAIL : !MailLaws}.

Lemma ldh_no_bracket d : forall_bytes ldh_lower d = true -> forall t,
  HasSuffixByte (t +:+ String "@" d) "]" = false.
Proof.
  intros Hd t. assert (forall c s, s <> "" -> HasSuffixByte (String c s) "]" = HasSuffixByte s "]") as Hc
    by (intros c [|b s]; done).
  induction t as [|c t IH].
  - change ("" +:+ ?x) with x. assert (HasSuffixByte d "]" = false) as Hx.
    { clear Hc. induction d as [|c d IH]; [done|]. simpl in Hd.
      apply andb_true_iff in Hd as [Hcd Hd]. destruct d as [|c2 d]; [|by apply IH].
      simpl. destruct (Ascii.eqb_spec c "]") as [->|]; done. }
    destruct d; [done|]. by rewrite Hc.
  - rewrite app_cons, Hc; [done|]. by apply app_nonempty_r.
Qed.

Lemma recipient_valid raw a d : normalizeQueueRecipient raw = Ok (a, d) -> ValidString a = true.
Proof.
  intros (Hd & local & rest & Hs & ->)%normalizeQueueRecipient_inv.
  apply recipientDomain_inv in Hd as (l & r & Hs' & _ & _ & Hn & Hp & _).
  rewrite Hs in Hs'. injection Hs' as <- <-.
  pose proof (NormalizeDomain_plain _ _ Hn) as Hpl. pose proof (NormalizeDomain_ldh _ _ Hn) as [Hl _].
  unfold ParseAddressExact in Hp. rewrite app_at in *.
  destruct (SplitFirstByte "@" (local +:+ String "@" d)) as [[l' d']|] eqn:E; [|done].
  apply ValidString_app; [|by apply (ValidString_app "@"); [|apply ValidString_plain]].
  assert (l' = local \/ exists t, local = l' +:+ String "@" t) as [->|[t ->]].
  { clear -E. revert l' d' E. induction local as [|c local IH]; intros l' d' E.
    - change ("" +:+ String "@" d) with (String "@" d) in E. simpl in E. injection E as <- _. by left.
    - rewrite app_cons in E. cbn [SplitFirstByte] in E. destruct (Ascii.eqb c "@") eqn:Ec.
      + injection E as <- _. apply Ascii.eqb_eq in Ec as ->. right. by exists local.
      + destruct (SplitFirstByte "@" _) as [[x y]|]; [|done]. injection E as <- _.
        destruct (IH x y eq_refl) as [->|[t ->]]; [by left|right; by exists t]. }
  - apply andb_true_iff in Hp as [Hp _]. unfold dot_atom in Hp. to_prop. tauto.
  - exfalso. assert (d' = t +:+ String "@" d) as ->.
    { clear -E. rewrite <- app_assoc_s, app_cons in E. revert E. generalize (t +:+ String "@" d).
      intros u E. induction l' as [|c l' IH].
      - change ("" +:+ String "@" u) with (String "@" u) in E. simpl in E. by injection E.
      - rewrite app_cons in E. cbn [SplitFirstByte] in E.
        destruct (Ascii.eqb c "@"); [done|]. destruct (SplitFirstByte "@" _) as [[x y]|] eqn:E2; [|done].
        injection E as -> ->. by apply IH. }
    apply andb_true_iff in Hp as [_ [Hp|Hp]%orb_true_iff].
    + unfold dot_atom in Hp. to_prop. destruct Hp as [[[[_ Hp] _] _] _].
      rewrite forall_bytes_app in Hp. simpl in Hp. by rewrite andb_false_r in Hp.
    + apply mail_literal_bracket in Hp. by rewrite (ldh_no_bracket d Hl t) in Hp.
Qed.

Lemma sender_valid s : normalizeQueueSender s = Ok s -> ValidString s = true.
Proof.
  unfold normalizeQueueSender. destruct (s =?s "<>") eqn:E; [by apply eqs_true in E as ->|].
  destruct (normalizeQueueRecipient s) as [[a d]|] eqn:En; [|done]. intros [= ->].
  by eapply recipient_valid.
Qed.

Lemma recipients_valid l k : canonicalQueueRecipients l = Ok k -> forallb ValidString k = true.
Proof.
  unfold canonicalQueueRecipients. destruct (_ || _); [done|]. intros H.
  apply rbind_ok in H as (n & Hn & [= <-]). apply forallb_forall. intros a Ha.
  apply list_elem_of_In, (elem_of_canonical_set a n) in Ha.
  apply (normalize_recipients_elem _ _ Hn) in Ha as (raw & d & _ & Hr).
  by eapply recipient_valid.
Qed.

Lemma hex_digest_valid s : validLowerHexDigest s = true -> ValidString s = true.
Proof.
  unfold validLowerHexDigest. intros [_ H]%andb_true_iff. apply ValidString_ascii.
  revert H. apply forall_bytes_impl. intros c. unfold hex_byte, in_range, is_ascii_byte.
  to_prop. lia.
Qed.

Lemma equalCanonicalStrings_refl l : equalCanonicalStrings l l = true.
Proof.
  unfold equalCanonicalStrings. rewrite Nat.eqb_refl. simpl.
  induction l as [|x l IH]; [done|]. simpl. by rewrite eqs_refl.
Qed.

(** The client accepts every observation the boundary makes. *)
Lemma canonical_metadata_complete instance entry m q :
  queueMetadataFromEntry instance entry = Ok m -> qm_queue_id m = q ->
  canonical_metadata q m = true.
Proof.
  intros (Hq & Hf & Hs & Hr)%queueMetadataFromEntry_canonical <-.
  pose proof Hr as Hr'. unfold canonicalQueueRecipients in Hr'.
  destruct (_ || _) eqn:Eb; [done|]. apply rbind_ok in Hr' as (n & Hn & [= Hc]). to_prop.
  unfold canonical_metadata, normalizeQueueRegistration.
  cbn [rg_queue_id rg_arrival_fingerprint rg_envelope_sender rg_recipients rg_sources].
  rewrite Hq, Hf, Hs, Hn. cbn [negb rbind].
  destruct (_ || _) eqn:E2; [to_prop; lia|]. cbn. change (validQueueObjectID "validation-only") with true.
  cbn. rewrite Hc, !eqs_refl. apply equalCanonicalStrings_refl.
Qed.
End Canonical.

(** ** One exchange over a network that delivers *)

Section Composition.
Context `{HOST : !Host} `{IDNA : !IdnaLaws} `{MAIL : !MailLaws}.
Context {PS : Type} `{RUNNER : !CommandRunner PS}.
Variables (pb : PostfixBoundary) (h : Helper) (b : RemotePostfixBoundary).
Hypothesis CRED : credentials b h.

(** The helper over the local boundary, and the client's connection to it. *)
Definition served : string -> HttpRequest -> PS -> HttpResponse * PS :=
  Handler (BOUNDARY := PostfixQueueBoundary pb) (OPERATOR := PostfixQueueOperator pb) h.
Definition network : HttpClient PS := direct_client (rb_base_url b) served.
#[local] Existing Instance network.

Definition request_for (path q : string) (release : bool) : HttpRequest :=
  {| rq_method := MethodPost; rq_url := rb_base_url b +:+ path;
     rq_authorization := bearer_prefix +:+ (if release then rb_release_token b else rb_token b);
     rq_correlation := ""; rq_body := print_json (selector_json q) |}.

Lemma exchange_direct path q release s :
  exchange b path q release s =
    let (rs, s') := served path (request_for path q release) s in
    match read_body maxPostfixHelperResponseBytes rs with
    | None => (Err "Postfix helper response invalid", s')
    | Some body => (Ok (body, rs_status rs), s')
    end.
Proof.
  unfold exchange, call_token, request_for. destruct CRED as [_ _ _ _ Hv].
  unfold mbind, Command_bind, lift_cmd, guard_cmd. simpl.
  rewrite Hv. rewrite strip_app. destruct release; destruct (served _ _ _) as [rs s'];
    by destruct (read_body _ rs).
Qed.

Lemma request_accepted path q (release optional : bool) :
  valid_selector q -> (q = "" -> optional = true) ->
  decodeRequest (request_for path q release) (operation_hash h release) optional = inl q.
Proof.
  intros Hq Ho. apply decodeRequest_ok. split; [|done].
  destruct CRED as [_ Ht Hr Hl Hv]. destruct (selector_round_trip q Hq) as [Hb Hn].
  exists (if release then rb_release_token b else rb_token b). unfold presents, request_for, operation_hash.
  cbn [rq_method rq_authorization rq_body].
  split_and!; [done..| | |exact Hn|exact Hb]; destruct release; [by apply valid_token_len|done..].
Qed.

(** Outcomes that agree: one state, and success with the same value. *)
Definition same_outcome {A} (x y : result A * PS) : Prop :=
  x.2 = y.2 /\ forall a, x.1 = Ok a <-> y.1 = Ok a.

(** The client's view of an acknowledgement. *)
Lemma acknowledged {A} (r : result A) (failed : string) :
  (Z.of_nat (len failed) < maxPostfixHelperResponseBytes)%Z ->
  exists body, read_body maxPostfixHelperResponseBytes (acknowledge r failed) = Some body
    /\ match r with
       | Ok _ => body = "" /\ rs_status (acknowledge r failed) = StatusNoContent
       | Err _ => rs_status (acknowledge r failed) = StatusConflict
       end.
Proof.
  intros Hl. unfold read_body. destruct r as [a|e]; simpl; [by exists ""|].
  rewrite len_app. simpl. destruct (_ <? _)%Z eqn:E; [to_prop; lia|]. by eexists.
Qed.

(** What the client makes of a response. *)
Definition answer_of {A} (out : string -> result A) (rs : HttpResponse) : result A :=
  match read_body maxPostfixHelperResponseBytes rs with
  | None => Err "Postfix helper response invalid"
  | Some body =>
      if failed_status (rs_status rs) then Err "Postfix helper rejected request" else out body
  end.

Lemma call_direct {A} path q (out : string -> result A) s :
  one_of path delivery_paths = true -> validLongQueueID q = true ->
  call b path q out s =
    let (rs, s') := served path (request_for path q (path =?s "/v1/queue/release")) s in
    (answer_of out rs, s').
Proof.
  intros Hp Hq. unfold call, answer_of. destruct CRED as [Hc _ _ _ _]. rewrite Hc, Hp, Hq.
  unfold mbind, Command_bind, guard_cmd. cbn [negb orb mret Command_ret]. cbv beta iota.
  rewrite exchange_direct. destruct (served _ _ _) as [rs s'].
  destruct (read_body _ rs) as [body|]; [|done]. cbn [fst snd].
  destruct (failed_status (rs_status rs)); done.
Qed.

Lemma callOptional_direct {A} path q (out : string -> result A) s :
  one_of path operator_paths = true -> valid_selector q ->
  callOptional b path q out s =
    let (rs, s') := served path (request_for path q (path <>?s "/v1/queue/summary")) s in
    (match read_body maxPostfixHelperResponseBytes rs with
     | Some _ =>
         if failed_status (rs_status rs)
            && ((path =?s "/v1/queue/summary") && (rs_status rs =? StatusNotFound)%Z)
         then Err ErrQueueIDNotFound else answer_of out rs
     | None => answer_of out rs
     end, s').
Proof.
  intros Hp Hq. unfold callOptional, answer_of. destruct CRED as [Hc _ _ _ _]. rewrite Hc, Hp.
  assert ((q <>?s "") && negb (validLongQueueID q) = false) as ->
    by (destruct Hq as [->|Hq]; [done|rewrite Hq; by rewrite andb_false_r]).
  unfold mbind, Command_bind, guard_cmd. cbn [negb orb mret Command_ret]. cbv beta iota.
  rewrite exchange_direct. destruct (served _ _ _) as [rs s'].
  destruct (read_body _ rs) as [body|]; [|done]. cbn [fst snd].
  destruct (failed_status (rs_status rs)); cbn [andb]; [|done].
  destruct ((path =?s "/v1/queue/summary") && _); done.
Qed.

Lemma acknowledged_answer (op : result unit * PS) failed :
  (Z.of_nat (len failed) < maxPostfixHelperResponseBytes)%Z ->
  same_outcome (answer_of empty_body (acknowledge op.1 failed), op.2) op.
Proof.
  intros Hl. unfold answer_of. destruct op as [r s']. cbn [fst snd].
  destruct (acknowledged r failed Hl) as (body & -> & Hr).
  destruct r as [[]|e]; [destruct Hr as [-> ->]|rewrite Hr]; by split.
Qed.

Lemma invalid_same {A} (e e' : string) (s : PS) : same_outcome (Err (A := A) e, s) (Err e', s).
Proof. by split. Qed.

Lemma call_invalid {A} path q (out : string -> result A) s :
  validLongQueueID q = false -> call b path q out s = (Err "invalid Postfix helper request", s).
Proof.
  intros Hq. unfold call. destruct CRED as [Hc _ _ _ _]. by rewrite Hc, Hq.
Qed.

Lemma postsuper_invalid flag q i f s :
  validLongQueueID q = false -> postsuper pb flag q i f s = (Err i, s).
Proof. intros H. unfold postsuper. by rewrite H. Qed.

(** The served route of a request the helper accepts. *)
Ltac served_step Hq :=
  unfold served, Handler, handle_hold, handle_release, handle_inspect, handle_summary, handle_flush,
    handle_retry, request, requestWithHash, optionalRequestWithHash;
  change (hp_token_hash h) with (operation_hash h false);
  change (hp_release_token_hash h) with (operation_hash h true);
  simpl String.eqb; cbn [negb];
  rewrite request_accepted by
    (first [by right|by left|intros ->; discriminate Hq|done]);
  unfold with_selector.

(** ** Hold, release, flush and retry *)

Lemma remote_hold_same q s : same_outcome (remote_hold b q s) (postfix_hold pb q s).
Proof.
  unfold remote_hold. destruct (validLongQueueID q) eqn:Hq.
  - rewrite call_direct by done. served_step Hq. simpl.
    rewrite (surjective_pairing (postfix_hold pb q s)) at 1. by apply acknowledged_answer.
  - rewrite call_invalid by done. unfold postfix_hold. rewrite postsuper_invalid by done.
    apply invalid_same.
Qed.

Lemma remote_release_same q s : same_outcome (remote_release b q s) (postfix_release pb q s).
Proof.
  unfold remote_release. destruct (validLongQueueID q) eqn:Hq.
  - rewrite call_direct by done. served_step Hq. simpl.
    rewrite (surjective_pairing (postfix_release pb q s)) at 1. by apply acknowledged_answer.
  - rewrite call_invalid by done. unfold postfix_release. rewrite postsuper_invalid by done.
    apply invalid_same.
Qed.

Lemma not_summary (x : bool) (rs : HttpResponse) (r : result unit) :
  match read_body maxPostfixHelperResponseBytes rs with
  | Some _ => if x && (false && (rs_status rs =? StatusNotFound)%Z) then Err ErrQueueIDNotFound else r
  | None => r
  end = r.
Proof. rewrite andb_false_r. by destruct (read_body _ _). Qed.

Lemma remote_flush_same s : same_outcome (remote_flush b s) (Flush pb s).
Proof.
  unfold remote_flush. rewrite callOptional_direct by (done || by left).
  served_step I. simpl. rewrite (surjective_pairing (Flush pb s)) at 1.
  rewrite not_summary. by apply acknowledged_answer.
Qed.

Lemma optional_retry_same q s : validLongQueueID q = true ->
  same_outcome (callOptional b "/v1/queue/retry" q empty_body s) (Retry pb q s).
Proof.
  intros Hq. rewrite callOptional_direct by (done || by right).
  served_step Hq. simpl. rewrite (surjective_pairing (Retry pb q s)) at 1.
  rewrite not_summary. by apply acknowledged_answer.
Qed.

(** ** Inspection *)

Lemma postfix_inspect_canonical q s m s' :
  postfix_inspect pb q s = (Ok m, s') ->
  canonical_metadata q m = true /\ ValidString (qm_queue_id m) = true
  /\ ValidString (qm_arrival_fingerprint m) = true /\ ValidString (qm_envelope_sender m) = true
  /\ forallb ValidString (qm_recipients m) = true.
Proof.
  intros (instance & limit & output & entries & _ & _ & _ & _ & _ & _ & _ & _
    & (entry & Hin & Hq) & Hob)%postfix_inspect_inv.
  assert (queueMetadataFromEntry instance entry = Ok m) as Hm.
  { unfold observations in Hob. rewrite List.Forall_forall in Hob. apply Hob, filter_In.
    split; [done|]. by apply eqs_true. }
  assert (qm_queue_id m = q) as Hid by (apply queueMetadataFromEntry_ok in Hm as (? & _ & _ & -> & _); done).
  split; [by eapply canonical_metadata_complete|].
  apply queueMetadataFromEntry_canonical in Hm as (Hi & Hf & Hs & Hr).
  split_and!.
  - by apply ValidString_plain, json_plain_plain, queue_id_plain.
  - by apply hex_digest_valid.
  - by apply sender_valid.
  - by eapply recipients_valid.
Qed.

(** An observation that fits one response. *)
Definition fits (m : QueueMetadata) : Prop :=
  (Z.of_nat (len (encode_line (metadata_json m))) <= maxPostfixHelperResponseBytes)%Z.

Lemma postfix_inspect_invalid q s : validLongQueueID q = false ->
  exists e, postfix_inspect pb q s = (Err e, s).
Proof. intros H. unfold postfix_inspect. rewrite H. by eexists. Qed.

Lemma remote_inspect_same q s :
  (remote_inspect b q s).2 = (postfix_inspect pb q s).2
  /\ forall m, (remote_inspect b q s).1 = Ok m <-> (postfix_inspect pb q s).1 = Ok m /\ fits m.
Proof.
  unfold remote_inspect, mbind, Command_bind. destruct (validLongQueueID q) eqn:Hq.
  2: { destruct (postfix_inspect_invalid q s Hq) as [e ->]. rewrite call_invalid by done.
       split; [done|]. by split; [|intros []]. }
  rewrite call_direct by done. served_step Hq. simpl Inspect.
  destruct (postfix_inspect pb q s) as [[m|e] s'] eqn:E; cbn [fst snd].
  2: { simpl. split; [done|]. by split; [|intros []]. }
  unfold answer_of, read_body, reply. cbn [rs_body rs_broken rs_status].
  pose proof (postfix_inspect_canonical q s m s' E) as (Hcan & H1 & H2 & H3 & H4).
  destruct (metadata_round_trip m H1 H2 H3 H4) as (w & Hw & Hm). unfold fits.
  destruct (maxPostfixHelperResponseBytes <? _)%Z eqn:El; to_prop.
  { split; [done|]. intros m'. split; [done|]. intros [[= <-] Hf]. lia. }
  change (failed_status StatusOK) with false. unfold json_body. rewrite Hw, Hm, Hcan.
  split; [done|]. intros m'. split; [intros [= <-]; by split|by intros [[= <-] _]].
Qed.

(** ** Snapshots and retries *)

Lemma sha_digest_plain l : len (digestStrings l) = 64 /\ forall_bytes json_plain (digestStrings l) = true.
Proof.
  destruct (sha256_hex_ok (frames l)) as [Hl Hh]. split; [exact Hl|].
  revert Hh. apply byte_class_incl. vm_compute. reflexivity.
Qed.

Lemma Snapshot_plain q s sn s' : Snapshot pb q s = (Ok sn, s') -> plain_snapshot sn.
Proof.
  intros (Hsum & Hmax & l & Hd)%Snapshot_ok. destruct (sha_digest_plain l).
  unfold plain_snapshot. rewrite Hd. done.
Qed.

(** Agreement that also covers the error the callers look for. *)
Definition same_lookup {A} (x y : result A * PS) : Prop :=
  same_outcome x y /\ (x.1 = Err ErrQueueIDNotFound <-> y.1 = Err ErrQueueIDNotFound).

Lemma remote_snapshot_same q s : same_lookup (remote_snapshot b q s) (Snapshot pb q s).
Proof.
  unfold remote_snapshot. destruct ((q <>?s "") && negb (validLongQueueID q)) eqn:Hq.
  { unfold Snapshot. rewrite Hq. by split. }
  assert (valid_selector q) as Hv.
  { unfold valid_selector. destruct (decide (q = "")) as [->|Hne]; [by left|right].
    apply eqs_false in Hne. rewrite Hne in Hq. by apply negb_false_iff. }
  unfold mbind, Command_bind, guard_cmd. cbn [mret Command_ret]. cbv beta iota.
  rewrite callOptional_direct by done. served_step Hv. simpl op_snapshot.
  destruct (Snapshot pb q s) as [[sn|e] s'] eqn:E.
  - pose proof (Snapshot_plain q s sn s' E) as Hp.
    destruct (snapshot_round_trip sn Hp) as (w & Hw & Hs & Hval & Hfit).
    unfold answer_of, read_body, reply. cbn [rs_body rs_broken rs_status].
    destruct (maxPostfixHelperResponseBytes <? _)%Z eqn:El; [to_prop; lia|].
    change (failed_status StatusOK) with false. unfold json_body. cbn [andb].
    rewrite Hw, Hval, Hs. simpl. by split.
  - destruct (e =?s ErrQueueIDNotFound) eqn:Ee.
    + apply eqs_true in Ee as ->. by split.
    + apply eqs_false in Ee. split; [by split|]. simpl. split; [done|congruence].
Qed.

(** A retry answered with an error is looked up once more by the client. *)
Definition retried (q : string) (x : result unit * PS) : result unit * PS :=
  match x with
  | (Ok u, s1) => (Ok u, s1)
  | (Err e, s1) =>
      match Snapshot pb q s1 with
      | (Err e2, s2) => (if e2 =?s ErrQueueIDNotFound then Ok tt else Err e, s2)
      | (Ok _, s2) => (Err e, s2)
      end
  end.

Lemma remote_retry_same q s : same_outcome (remote_retry b q s)
  (if validLongQueueID q then retried q (Retry pb q s) else Retry pb q s).
Proof.
  unfold remote_retry. destruct (validLongQueueID q) eqn:Hq; cbn [negb].
  2: { unfold Retry. rewrite Hq. apply invalid_same. }
  destruct (optional_retry_same q s Hq) as [Hs Ha].
  destruct (callOptional b _ q empty_body s) as [[u|e] s1], (Retry pb q s) as [[u2|e2] s2];
    cbn [fst snd] in *; subst.
  - by split.
  - by specialize (proj1 (Ha u) eq_refl).
  - by specialize (proj2 (Ha u2) eq_refl).
  - destruct (remote_snapshot_same q s2) as [[Hs Hok] Hn]. unfold retried.
    destruct (remote_snapshot b q s2) as [[z|x] s3], (Snapshot pb q s2) as [[z'|x'] s4];
      cbn [fst snd] in *; subst.
    + by split.
    + by specialize (proj1 (Hok z) eq_refl).
    + by specialize (proj2 (Hok z') eq_refl).
    + destruct (x =?s ErrQueueIDNotFound) eqn:E1, (x' =?s ErrQueueIDNotFound) eqn:E2;
        [by split| | |by split]; apply eqs_true in E1 || apply eqs_true in E2;
        apply eqs_false in E1 || apply eqs_false in E2; naive_solver.
Qed.
End Composition.

(** C19: the deployed boundary refines the local one: a client and a helper
    configured with one pair of tokens, over a network that delivers,
    perform exactly the operations of the Postfix beside the helper.  Hold
    and release agree in outcome and effect; so does inspection, except that
    an observation whose encoding exceeds the 64 KiB response limit is
    refused. *)
Theorem remote_boundary_refines `{HOST : !Host} `{IDNA : !IdnaLaws} `{MAIL : !MailLaws}
    `{PARSER : !UrlParser} {PS} `{RUNNER : !CommandRunner PS} pb b h (q : string) (s : PS) :
  paired b h ->
  let remote := RemoteQueueBoundary (HTTP := network pb h b) b in
  let local := PostfixQueueBoundary pb in
  same_outcome (Hold (QueueBoundary := remote) q s) (Hold (QueueBoundary := local) q s)
  /\ same_outcome (ReleaseHold (QueueBoundary := remote) q s)
       (ReleaseHold (QueueBoundary := local) q s)
  /\ (Inspect (QueueBoundary := remote) q s).2 = (Inspect (QueueBoundary := local) q s).2
  /\ forall m, (Inspect (QueueBoundary := remote) q s).1 = Ok m
       <-> (Inspect (QueueBoundary := local) q s).1 = Ok m /\ fits m.
Proof.
  intros Hp%paired_credentials. simpl.
  split; [by apply remote_hold_same|]. split; [by apply remote_release_same|].
  by apply remote_inspect_same.
Qed.

(** The operator surface refines the local one as well: summary and flush
    have the outcome and effect of the local operations, including the error
    that reports an absent message, and a retry is the local retry followed,
    when it fails, by one more look whether the message has left the
    queue. *)
Theorem remote_operator_refines `{HOST : !Host} `{IDNA : !IdnaLaws} `{MAIL : !MailLaws}
    `{PARSER : !UrlParser} {PS} `{RUNNER : !CommandRunner PS} pb b h (q : string) (s : PS) :
  paired b h ->
  same_lookup (remote_snapshot (HTTP := network pb h b) b q s) (Snapshot pb q s)
  /\ same_outcome (remote_flush (HTTP := network pb h b) b s) (Flush pb s)
  /\ same_outcome (remote_retry (HTTP := network pb h b) b q s)
       (if validLongQueueID q then retried pb q (Retry pb q s) else Retry pb q s).
Proof.
  intros Hp%paired_credentials. split; [by apply remote_snapshot_same|].
  split; [by apply remote_flush_same|by apply remote_retry_same].
Qed.
