(* ===== verification/Release.v ===== *)
(** * Release of held messages (internal/outboundpolicy/release.go)

    The service previews a release (every recipient permitted by the current
    policy, a confirmation hash over the message identity and the policy
    state), and performs it: policy and confirmation are checked again, Postfix
    is inspected on both sides of the release, and every externally visible
    step is committed first.  The policy transaction of [Release] only reads,
    so it appears as its round trips: BEGIN, LOCK TABLE and the query. *)

From stdpp Require Import base list gmap sets strings relations sorting pretty.
From Stdlib Require Import ZArith Lia Ascii.
From S2P Require Import Prelude GoStd Sha256 Policy Queue AuditLog Database QueueStore Sources HoldMachine Reconcile.

Record QueueReleasePlan := {
  rp_queue_id : string;
  rp_hold_state : string;
  rp_policy_revisions : gmap string N;
  rp_confirmation_hash : string;
}.

Record QueueReleaseResult := { rl_record : QueueRecord; rl_changed : bool }.

Record QueueDiagnostic := {
  dg_queue_id : string;
  dg_hold_state : string;
  dg_policy_reason : string;
  dg_policy_revisions : gmap string N;
  dg_attempts : N;
  dg_last_error_code : string;
  dg_recipient_count : nat;
  dg_source_count : nat;
  dg_postfix_held : bool;
  dg_consistent : bool;
}.

Section Release.
Context `{HOST : !Host}.

(** The loop of [releasePolicySnapshot]. *)
Fixpoint snapshot_states (l : list GoverningDomain) (states : gmap string (string * N))
    : result (gmap string (string * N)) :=
  match l with
  | [] => Ok states
  | item :: l =>
      match NormalizeDomain (gd_domain item) with
      | Err _ => Err "invalid outbound release policy snapshot"
      | Ok domain =>
          if (domain <>?s gd_domain item) || negb (validScope (gd_scope item))
             || (gd_revision item =? 0)%N
          then Err "invalid outbound release policy snapshot" else
          let candidate := (gd_scope item, gd_revision item) in
          match states !! domain with
          | Some prior =>
              if bool_decide (prior = candidate)
              then snapshot_states l (<[domain := candidate]> states)
              else Err "conflicting outbound release policy snapshot"
          | None => snapshot_states l (<[domain := candidate]> states)
          end
      end
  end.

Definition snapshot_line (domain : string) (st : string * N) : string :=
  domain +:+ nul +:+ st.1 +:+ nul +:+ FormatInt (Z.of_N st.2).

Definition releasePolicySnapshot (governing : list GoverningDomain)
    : result (gmap string N * list string) :=
  let! states := snapshot_states governing ∅ in
  if size states =? 0 then Err "empty outbound release policy snapshot" else
  Ok (snd <$> states,
      map (fun domain => snapshot_line domain (default ("", 0%N) (states !! domain)))
        (sort_strings (map_to_list states).*1)).

Definition release_values (record : QueueRecord) (snapshot : list string) : list string :=
  ["gotth-mail/queue-release/v1"; qr_queue_id record; qr_arrival_fingerprint record;
   qr_recipient_set_digest record; qr_source_set_digest record] ++ snapshot.

Definition permitted (record : QueueRecord) (governing : list GoverningDomain)
    (recipient : string) : bool :=
  d_action (Evaluate {| rq_stage := StageTransport; rq_queue_id := qr_queue_id record;
                        rq_recipient := recipient; rq_governing := governing |}) =?s ActionOK.

Context {PS : Type}.

Definition previewRecord (record : QueueRecord) : M PS QueueReleasePlan :=
  guardM ((qr_hold_state record <>?s HoldApplied)
          && (qr_hold_state record <>?s HoldReleaseError)
          && (qr_hold_state record <>?s HoldReleaseReconciling)
          && (qr_hold_state record <>?s HoldReleased))
    "outbound queue message is not releasable";;
  governing ← resolvePolicySources (qr_sources record);
  guardM (negb (forallb (permitted record governing) (qr_recipients record)))
    "outbound queue remains forbidden by current policy";;
  snapshot ← liftM (releasePolicySnapshot governing);
  mret {| rp_queue_id := qr_queue_id record; rp_hold_state := qr_hold_state record;
          rp_policy_revisions := snapshot.1;
          rp_confirmation_hash := digestStrings (release_values record snapshot.2) |}.

Definition Preview (queueID : string) : M PS QueueReleasePlan :=
  guardM (negb (validLongQueueID queueID)) "invalid outbound queue release preview";;
  record ← Load queueID;
  previewRecord record.

Definition startQueueRelease (actor : ActorRef) (correlationID : string)
    (record : QueueRecord) : M PS unit :=
  transaction (start_body actor correlationID record
    [HoldApplied; HoldReleaseError; HoldReleaseReconciling]
    HoldReleaseReconciling "queue.policy_hold.release_start"
    "outbound queue release state changed").

Definition finishQueueRelease (actor : ActorRef) (correlationID : string)
    (record : QueueRecord) (state code : string) : M PS unit :=
  guardM ((state <>?s HoldReleased) && (state <>?s HoldReleaseError))
    "invalid outbound queue release result";;
  guardM ((state =?s HoldReleaseError) && negb (validQueueErrorCode code))
    "invalid outbound queue release error code";;
  let failed := state =?s HoldReleaseError in
  transaction (finish_body actor correlationID record HoldReleaseReconciling state code
    (if failed then "queue.policy_hold.release_failed" else "queue.policy_hold.released")
    (if failed then "failure" else "success")
    "outbound queue release state changed").

Definition release_fail (actor : ActorRef) (correlationID : string) (record : QueueRecord)
    (code : string) : M PS (QueueReleaseResult * option string) :=
  finishQueueRelease actor correlationID record HoldReleaseError code;;
  stored ← loadQueueRecord (qr_queue_id record);
  mret ({| rl_record := stored; rl_changed := true |}, Some code).

Context `{BOUND : !QueueBoundary PS}.

(** Everything after the release intent was recorded. *)
Definition release_attempt (actor : ActorRef) (correlationID queueID : string)
    (record : QueueRecord) : M PS (QueueReleaseResult * option string) :=
  released ← tryM (extM (ReleaseHold queueID));
  match released with
  | Err _ => release_fail actor correlationID record "queue_release_failed"
  | Ok _ =>
      inspected ← tryM (extM (Inspect queueID));
      match inspected with
      | Err _ => release_fail actor correlationID record "queue_post_release_inspection_failed"
      | Ok metadata =>
          if qm_held metadata || negb (matchesQueueMetadata record metadata)
          then release_fail actor correlationID record "queue_release_not_verified" else
          finishQueueRelease actor correlationID record HoldReleased "";;
          stored ← loadQueueRecord queueID;
          mret ({| rl_record := stored; rl_changed := true |}, None)
      end
  end.

Definition release_locked (actor : ActorRef) (correlationID queueID confirmation : string)
    : M PS (QueueReleaseResult * option string) :=
  record ← loadQueueRecord queueID;
  roundtripM;;
  roundtripM;;
  plan ← previewRecord record;
  guardM (rp_confirmation_hash plan <>?s confirmation)
    "outbound queue release confirmation is stale";;
  inspected ← tryM (extM (Inspect queueID));
  if qr_hold_state record =?s HoldReleased then
    match inspected with
    | Ok metadata =>
        if negb (qm_held metadata) && matchesQueueMetadata record metadata
        then mret ({| rl_record := record; rl_changed := false |}, None)
        else failM "released outbound queue metadata is inconsistent"
    | Err _ => failM "released outbound queue metadata is inconsistent"
    end
  else
  guardM ((qr_hold_state record <>?s HoldApplied)
          && (qr_hold_state record <>?s HoldReleaseError)
          && (qr_hold_state record <>?s HoldReleaseReconciling))
    "outbound queue message is not releasable";;
  guardM (negb match inspected with
               | Ok metadata => qm_held metadata && matchesQueueMetadata record metadata
               | Err _ => false
               end)
    "held outbound queue metadata is unavailable";;
  startQueueRelease actor correlationID record;;
  release_attempt actor correlationID queueID record.

Definition Release (actor : ActorRef) (correlationID queueID confirmation : string)
    : M PS (QueueReleaseResult * option string) :=
  guardM (negb (valid_actor actor) || (correlationID =?s "")
          || negb (validLongQueueID queueID) || negb (validLowerHexDigest confirmation))
    "invalid outbound queue release request";;
  with_queue_lock (release_locked actor correlationID queueID confirmation).

(** The diagnostic is returned beside its error. *)
Definition Diagnose (queueID : string) : M PS (QueueDiagnostic * option string) :=
  guardM (negb (validLongQueueID queueID)) "invalid outbound queue diagnostic request";;
  record ← Load queueID;
  let diagnostic held consistent :=
    {| dg_queue_id := qr_queue_id record; dg_hold_state := qr_hold_state record;
       dg_policy_reason := qr_policy_reason record;
       dg_policy_revisions := qr_policy_revisions record;
       dg_attempts := qr_reconciliation_attempts record;
       dg_last_error_code := qr_last_error_code record;
       dg_recipient_count := length (qr_recipients record);
       dg_source_count := length (qr_sources record);
       dg_postfix_held := held; dg_consistent := consistent |} in
  inspected ← tryM (extM (Inspect queueID));
  match inspected with
  | Err _ => mret (diagnostic false false, Some "Postfix queue diagnostic unavailable")
  | Ok metadata =>
      let consistent :=
        matchesQueueMetadata record metadata
        && (if qr_hold_state record =?s HoldApplied then qm_held metadata else true)
        && (if qr_hold_state record =?s HoldReleased then negb (qm_held metadata) else true) in
      mret (diagnostic (qm_held metadata) consistent,
            if consistent then None else Some "Postfix queue diagnostic mismatch")
  end.
End Release.

(** ** Refinement of the hold machine *)

Section Refinement.
Context `{HOST : !Host} {PS : Type}.
Implicit Types (w : World PS).

Lemma startQueueRelease_ok actor cid record w u w' :
  startQueueRelease actor cid record w = (Ok u, w') ->
  transition (w_db w) (w_db w') /\ w_ext w' = w_ext w
  /\ state_of (w_db w') (qr_queue_id record) = Some HoldReleaseReconciling.
Proof.
  unfold startQueueRelease. intros H.
  apply transaction_ok in H as (w1 & c & w2 & H & D1 & X1 & X2 & Hd).
  apply (start_body_ok AReleaseStart) in H as (-> & Ht & Hx & Hs); [|done].
  rewrite D1 in Ht. rewrite Hd. split_and!; [done|congruence|done].
Qed.

Lemma finish_release_body_ok actor cid record state code w b u w' :
  (state <>?s HoldReleased) && (state <>?s HoldReleaseError) = false ->
  (state =?s HoldReleaseError) && negb (validQueueErrorCode code) = false ->
  (state = HoldReleased -> code = "") ->
  finish_body actor cid record HoldReleaseReconciling state code
    (if state =?s HoldReleaseError then "queue.policy_hold.release_failed"
     else "queue.policy_hold.released")
    (if state =?s HoldReleaseError then "failure" else "success")
    "outbound queue release state changed" w = (Ok (b, u), w') ->
  b = true /\ transition (w_db w) (w_db w') /\ w_ext w' = w_ext w
  /\ state_of (w_db w') (qr_queue_id record) = Some state.
Proof.
  intros Hs Hv Hcode H. destruct (state =?s HoldReleaseError) eqn:E.
  - apply eqs_true in E as ->. eapply (finish_body_ok AReleaseFailed); [done..| |exact H].
    simpl. intros ->. done.
  - to_prop. destruct Hs as [->|]; [|done].
    eapply (finish_body_ok AReleased); [done..| |exact H]. by apply Hcode.
Qed.

Lemma finishQueueRelease_ok actor cid record state code w u w' :
  (state = HoldReleased -> code = "") ->
  finishQueueRelease (PS := PS) actor cid record state code w = (Ok u, w') ->
  transition (w_db w) (w_db w') /\ w_ext w' = w_ext w
  /\ state_of (w_db w') (qr_queue_id record) = Some state.
Proof.
  intros Hcode H. unfold finishQueueRelease in H.
  apply bind_ok in H as ([] & ? & [Hs ->]%guardM_ok & H).
  apply bind_ok in H as ([] & ? & [Hv ->]%guardM_ok & H). cbv zeta in H.
  apply transaction_ok in H as (w1 & c & w2 & H & D1 & X1 & X2 & Hd).
  apply finish_release_body_ok in H as (-> & Ht & Hx & Hst); [|done..].
  rewrite D1 in Ht. rewrite Hd. split_and!; [done|congruence|done].
Qed.

Lemma startQueueRelease_history actor cid record :
  effect (PS := PS) history (startQueueRelease actor cid record).
Proof.
  apply (effect_commit history). intros w1 u w2 H.
  apply (start_body_ok AReleaseStart) in H as (_ & Ht & _); [|done]. by apply rtc_once.
Qed.

Lemma finishQueueRelease_history actor cid record state code :
  (state = HoldReleased -> code = "") ->
  effect (PS := PS) history (finishQueueRelease actor cid record state code).
Proof.
  intros Hcode. unfold finishQueueRelease.
  apply (effect_bind_guard history). intros E1.
  apply (effect_bind_guard history). intros E2.
  apply (effect_commit history). intros w1 u w2 H. apply rtc_once.
  by apply finish_release_body_ok in H as (_ & Ht & _).
Qed.

Lemma previewRecord_readonly (R : relation DB) `{!PreOrder R} record :
  effect (PS := PS) R (previewRecord record).
Proof. unfold previewRecord, resolvePolicySources. solve_effect. Qed.

Lemma previewRecord_history record : effect (PS := PS) history (previewRecord record).
Proof. apply previewRecord_readonly, _. Qed.

#[local] Hint Resolve load_history : effects.

Lemma release_fail_history actor cid record code :
  effect (PS := PS) history (release_fail actor cid record code).
Proof.
  unfold release_fail. apply (effect_bind history); [|intros _; solve_effect].
  by apply finishQueueRelease_history.
Qed.

#[local] Hint Resolve startQueueRelease_history finishQueueRelease_history
  release_fail_history previewRecord_history : effects.

Context `{BOUND : !QueueBoundary PS}.

Lemma release_attempt_history actor cid queueID record :
  effect (PS := PS) history (release_attempt actor cid queueID record).
Proof. unfold release_attempt. solve_effect. Qed.
#[local] Hint Resolve release_attempt_history : effects.

Lemma Release_effect actor cid queueID confirmation :
  effect (PS := PS) history (Release actor cid queueID confirmation).
Proof. unfold Release, with_queue_lock, release_locked. solve_effect. Qed.

(** A release changes the database only by audited transitions of the
    hold machine, whatever fails. *)
Theorem Release_history actor cid queueID confirmation :
  effect (PS := PS) history (Release actor cid queueID confirmation).
Proof. apply Release_effect. Qed.

(** ** What a successful release means *)

Lemma release_fail_error actor cid record code w r w' :
  release_fail (PS := PS) actor cid record code w = (Ok (r, None), w') -> False.
Proof.
  unfold release_fail. intros H. apply bind_ok in H as ([] & w1 & _ & H).
  by apply bind_ok in H as (st & w2 & _ & [=]).
Qed.

Definition observed_released (queueID : string) (record : QueueRecord) (x : PS) : Prop :=
  exists s meta, Inspect queueID s = (Ok meta, x) /\ qm_held meta = false
    /\ matchesQueueMetadata record meta = true.

Lemma release_attempt_ok actor cid queueID record w res w' :
  qr_queue_id record = queueID ->
  release_attempt actor cid queueID record w = (Ok (res, None), w') ->
  observed_released queueID record (w_ext w') /\ transition (w_db w) (w_db w')
  /\ state_of (w_db w') queueID = Some HoldReleased
  /\ load_pure queueID (w_db w') = Ok (rl_record res) /\ rl_changed res = true.
Proof.
  intros Hid H. unfold release_attempt in H.
  apply bind_ok in H as (i & w1 & [Hi D1]%extM_try & H).
  destruct i as [[]|]; [|by apply release_fail_error in H].
  apply bind_ok in H as (o & w2 & [Ho D2]%extM_try & H).
  destruct o as [m|]; [|by apply release_fail_error in H].
  destruct (_ || _) eqn:Em; [by apply release_fail_error in H|]. to_prop.
  apply bind_ok in H as ([] & w3 & (Ht & X3 & Hs)%finishQueueRelease_ok & H); [|done].
  apply bind_ok in H as (st & w4 & (Hl & D4 & X4)%loadQueueRecord_ok & H).
  injection H as <- <-. simpl. rewrite D4, X4, X3, <- Hid, Hs, Hid, Hl.
  split_and!; [|by rewrite <- D1, <- D2|done..].
  exists (w_ext w1), m. destruct Em. by rewrite Ho.
Qed.

Lemma previewRecord_ok record w plan w' :
  previewRecord record w = (Ok plan, w') ->
  w_db w' = w_db w /\ w_ext w' = w_ext w
  /\ exists governing snapshot, resolves (w_db w) (qr_sources record) governing
       /\ 0 < length (qr_sources record) <= maxQueueSources
       /\ forallb (permitted record governing) (qr_recipients record) = true
       /\ releasePolicySnapshot governing = Ok snapshot
       /\ plan = {| rp_queue_id := qr_queue_id record;
                    rp_hold_state := qr_hold_state record;
                    rp_policy_revisions := snapshot.1;
                    rp_confirmation_hash :=
                      digestStrings (release_values record snapshot.2) |}.
Proof.
  unfold previewRecord. intros H.
  apply bind_ok in H as ([] & ? & [_ ->]%guardM_ok & H).
  apply bind_ok in H as (g & w1 & (Hg & D1 & X1 & Hn)%resolvePolicySources_ok & H).
  apply bind_ok in H as ([] & ? & [Hp ->]%guardM_ok & H).
  apply bind_ok in H as (sn & ? & [Hs ->]%liftM_ok & H). injection H as <- <-.
  to_prop. split_and!; [done..|]. by exists g, sn.
Qed.

Lemma permitted_allows d record governing :
  resolves d (qr_sources record) governing ->
  forallb (permitted record governing) (qr_recipients record) = true ->
  forall a, a ∈ qr_recipients record -> policy_allows d (qr_sources record) a.
Proof.
  intros Hres Hp a Ha. rewrite forallb_forall in Hp.
  specialize (Hp a (proj1 (list_elem_of_In _ _) Ha)). unfold permitted in Hp.
  apply eqs_true in Hp. by eapply Evaluate_allows.
Qed.

(** C7: a release that reports success is true of Postfix and of the
    database: the last inspection saw this message and not held, the row is
    "released", the returned record is the stored one, and every recipient
    was allowed by the policy tables at the start of the run. *)
Theorem Release_sound actor cid queueID confirmation w res w' :
  Release actor cid queueID confirmation w = (Ok (res, None), w') ->
  observed_released queueID (rl_record res) (w_ext w')
  /\ qr_hold_state (rl_record res) = HoldReleased
  /\ load_pure queueID (w_db w') = Ok (rl_record res)
  /\ (forall a, a ∈ qr_recipients (rl_record res) ->
        policy_allows (w_db w) (qr_sources (rl_record res)) a).
Proof.
  unfold Release. intros H. apply bind_ok in H as ([] & ? & [_ ->]%guardM_ok & H).
  apply with_queue_lock_ok in H as (w1 & w2 & H & D1 & X1 & -> & ->).
  unfold release_locked in H.
  apply bind_ok in H as (record & w3 & (Hl & D3 & X3)%loadQueueRecord_ok & H).
  apply bind_ok in H as ([] & w4 & [D4 X4]%roundtripM_db & H).
  apply bind_ok in H as ([] & w5 & [D5 X5]%roundtripM_db & H).
  apply bind_ok in H as (plan & w6 & (D6 & X6 & g & sn & Hg & _ & Hp & _ & _)%previewRecord_ok & H).
  rewrite D5, D4, D3, D1 in Hg.
  pose proof (permitted_allows _ _ _ Hg Hp) as Hallow.
  apply bind_ok in H as ([] & ? & [_ ->]%guardM_ok & H).
  apply bind_ok in H as (i & w7 & [Hi D7]%extM_try & H).
  destruct (qr_hold_state record =?s HoldReleased) eqn:Est; to_prop.
  - destruct i as [m|]; [|done]. destruct (_ && _) eqn:Em; [|done]. injection H as <- <-.
    to_prop. simpl. rewrite D7, D6, D5, D4, D3. split_and!; [|done..].
    exists (w_ext w6), m. by destruct Em.
  - apply bind_ok in H as ([] & ? & [_ ->]%guardM_ok & H).
    apply bind_ok in H as ([] & ? & [_ ->]%guardM_ok & H).
    apply bind_ok in H as ([] & w8 & (Ht & _)%startQueueRelease_ok & H).
    apply load_pure_fields in Hl as Hf. destruct Hf as (row & _ & Hid & _).
    apply release_attempt_ok in H as (Hobs & Ht2 & Hst & Hload & _); [|done].
    rewrite D7, D6, D5, D4, D3 in Ht.
    assert (history (w_db w1) (w_db w2)) as Hall by (eapply rtc_l; [exact Ht|by apply rtc_once]).
    pose proof (load_same_message _ _ _ _ _ Hall Hl Hload) as Hsame.
    split_and!; [| |done|].
    + destruct Hobs as (s & m & ? & ? & Hm). exists s, m.
      by rewrite (matches_same_message _ _ m Hsame).
    + apply load_pure_fields in Hload as (row' & Hrow' & _ & -> & _).
      unfold state_of in Hst. rewrite Hrow' in Hst. by injection Hst.
    + injection Hsame as _ _ _ _ _ -> ->. done.
Qed.

(** ** When Postfix is told to release *)

(** Inspection is a read-only operation of the helper. *)
Class InspectPure : Prop :=
  inspect_pure : forall queueID x, (Inspect queueID x).2 = x.

Lemma keeps_inspect {PURE : InspectPure} queueID : keeps_ext (PS := PS) (tryM (extM (Inspect queueID))).
Proof.
  intros w. unfold tryM, extM. pose proof (inspect_pure queueID (w_ext w)) as Hp.
  by destruct (Inspect queueID (w_ext w)).
Qed.

Lemma keeps_previewRecord record : keeps_ext (PS := PS) (previewRecord record).
Proof. unfold previewRecord. solve_keeps. Qed.

Lemma keeps_startQueueRelease actor cid record :
  keeps_ext (PS := PS) (startQueueRelease actor cid record).
Proof. unfold startQueueRelease, start_body. solve_keeps. Qed.

Lemma with_queue_lock_changed {A} (body : M PS (A * option string)) w :
  w_ext (with_queue_lock body w).2 <> w_ext w ->
  exists w1, w_db w1 = w_db w /\ w_ext w1 = w_ext w
    /\ w_ext (body w1).2 <> w_ext w1
    /\ w_db (with_queue_lock body w).2 = w_db (body w1).2.
Proof.
  unfold with_queue_lock. intros H.
  apply bind_changed in H as ([] & w1 & [D1 X1]%roundtripM_db & H & ->); [|solve_keeps].
  apply bind_changed in H as ([] & w2 & [D2 X2]%roundtripM_db & H & ->); [|solve_keeps].
  exists w2. rewrite D2, D1, X2, X1. split_and!; [done..| |].
  - intros Heq. apply H. rewrite bind_run. unfold tryM at 1.
    destruct (body w2) as [r w3]. simpl in Heq. rewrite bind_run. unfold tryM.
    destruct (roundtripM w3) as [u w4] eqn:E. apply roundtripM_db in E as [_ X4].
    simpl. congruence.
  - rewrite bind_run. unfold tryM at 1. destruct (body w2) as [r w3]. rewrite bind_run.
    unfold tryM. destruct (roundtripM w3) as [u w4] eqn:E.
    apply roundtripM_db in E as [D4 _]. done.
Qed.

(** C5: Postfix is told to release a message only if, at the start of that
    run, every recipient was allowed by the policy tables, the confirmation
    was the hash of the message identity and the current policy state,
    Postfix reported the message as held and as the recorded one, and the
    intent to release had been committed.  This holds of failed runs too. *)
Theorem Release_guarded {PURE : InspectPure} actor cid queueID confirmation w :
  w_ext (Release actor cid queueID confirmation w).2 <> w_ext w ->
  exists record governing snapshot meta,
    load_pure queueID (w_db w) = Ok record
    /\ (forall a, a ∈ qr_recipients record -> policy_allows (w_db w) (qr_sources record) a)
    /\ resolves (w_db w) (qr_sources record) governing
    /\ releasePolicySnapshot governing = Ok snapshot
    /\ confirmation = digestStrings (release_values record snapshot.2)
    /\ Inspect queueID (w_ext w) = (Ok meta, w_ext w)
    /\ qm_held meta = true /\ matchesQueueMetadata record meta = true
    /\ exists d1, transition (w_db w) d1
         /\ state_of d1 queueID = Some HoldReleaseReconciling
         /\ history d1 (w_db (Release actor cid queueID confirmation w).2).
Proof.
  unfold Release. intros H.
  apply bind_changed in H as ([] & ? & [_ ->]%guardM_ok & H & ->); [|solve_keeps].
  apply with_queue_lock_changed in H as (w1 & D1 & X1 & H & ->). unfold release_locked in *.
  apply bind_changed in H as (record & w3 & (Hl & D3 & X3)%loadQueueRecord_ok & H & ->);
    [|solve_keeps].
  apply bind_changed in H as ([] & w4 & [D4 X4]%roundtripM_db & H & ->); [|solve_keeps].
  apply bind_changed in H as ([] & w5 & [D5 X5]%roundtripM_db & H & ->); [|solve_keeps].
  apply bind_changed in H as (plan & w6 &
    (D6 & X6 & g & sn & Hg & _ & Hp & Hsn & Hplan)%previewRecord_ok & H & ->);
    [|apply keeps_previewRecord].
  apply bind_changed in H as ([] & ? & [Hc ->]%guardM_ok & H & ->); [|solve_keeps].
  apply bind_changed in H as (i & w7 & [Hi D7]%extM_try & H & ->); [|apply keeps_inspect].
  destruct (qr_hold_state record =?s HoldReleased).
  { destruct H. destruct i as [m|]; [|done]. by destruct (_ && _). }
  apply bind_changed in H as ([] & ? & [_ ->]%guardM_ok & H & ->); [|solve_keeps].
  apply bind_changed in H as ([] & ? & [Hm ->]%guardM_ok & H & ->); [|solve_keeps].
  apply bind_changed in H as ([] & w8 & (Ht & _ & Hst)%startQueueRelease_ok & H & ->);
    [|apply keeps_startQueueRelease].
  destruct i as [meta|]; [|done]. to_prop. destruct Hm as [Hheld Hmatch].
  pose proof (inspect_pure queueID (w_ext w6)) as Hpure. rewrite Hi in Hpure. simpl in Hpure.
  rewrite X6, X5, X4, X3, X1 in *. rewrite D7, D6, D5, D4, D3, D1 in *.
  rewrite Hpure in Hi. exists record, g, sn, meta.
  apply load_pure_fields in Hl as Hf. destruct Hf as (_ & _ & Hid & _). rewrite Hid in Hst.
  split_and!; [done| |done|done|by rewrite <- Hc, Hplan|done|done|done|].
  - by apply (permitted_allows _ _ g).
  - exists (w_db w8). split_and!; [done..|]. apply release_attempt_history.
Qed.
End Refinement.

Section Stuck.
Context `{HOST : !Host} {PS : Type} `{BOUND : !QueueBoundary PS}.
Implicit Types (w : World PS).

#[local] Hint Resolve loadQueueRecord_readonly previewRecord_readonly : effects.

Lemma release_locked_unheld actor cid queueID confirmation w meta x' :
  Inspect queueID (w_ext w) = (Ok meta, x') -> qm_held meta = false ->
  w_db (release_locked actor cid queueID confirmation w).2 = w_db w
  /\ forall res w', release_locked actor cid queueID confirmation w = (Ok (res, None), w') ->
       rl_changed res = false.
Proof.
  intros Hi Hh. unfold release_locked. split.
  - apply bind_same; [solve_effect|]. intros record w3 (_ & _ & X3)%loadQueueRecord_ok.
    apply bind_same; [solve_effect|]. intros [] w4 [_ X4]%roundtripM_db.
    apply bind_same; [solve_effect|]. intros [] w5 [_ X5]%roundtripM_db.
    apply bind_same; [solve_effect|]. intros plan w6 (_ & X6 & _)%previewRecord_ok.
    apply bind_same; [solve_effect|]. intros [] ? [_ ->]%guardM_ok.
    apply bind_same; [solve_effect|]. intros i w7 [Hi' _]%extM_try.
    rewrite X6, X5, X4, X3, Hi in Hi'. injection Hi' as <- _. rewrite Hh. simpl.
    destruct (qr_hold_state record =?s HoldReleased);
      [by destruct (matchesQueueMetadata record meta)|].
    apply bind_same; [solve_effect|]. by intros [] ? [_ ->]%guardM_ok.
  - intros res w' H.
    apply bind_ok in H as (record & w3 & (_ & _ & X3)%loadQueueRecord_ok & H).
    apply bind_ok in H as ([] & w4 & [_ X4]%roundtripM_db & H).
    apply bind_ok in H as ([] & w5 & [_ X5]%roundtripM_db & H).
    apply bind_ok in H as (plan & w6 & (_ & X6 & _)%previewRecord_ok & H).
    apply bind_ok in H as ([] & ? & [_ ->]%guardM_ok & H).
    apply bind_ok in H as (i & w7 & [Hi' _]%extM_try & H).
    rewrite X6, X5, X4, X3, Hi in Hi'. injection Hi' as <- _. rewrite Hh in H. simpl in H.
    destruct (qr_hold_state record =?s HoldReleased);
      [by destruct (matchesQueueMetadata record meta); [injection H as <- _|]|].
    apply bind_ok in H as ([] & ? & [_ ->]%guardM_ok & H).
    by apply bind_ok in H as ([] & ? & ? & _).
Qed.

Lemma with_queue_lock_db {A} (body : M PS (A * option string)) w :
  (forall w1, w_db w1 = w_db w -> w_ext w1 = w_ext w -> w_db (body w1).2 = w_db w) ->
  w_db (with_queue_lock body w).2 = w_db w.
Proof.
  intros Hb. unfold with_queue_lock.
  apply bind_same; [solve_effect|]. intros [] w1 [D1 X1]%roundtripM_db.
  apply bind_same; [solve_effect|]. intros [] w2 [D2 X2]%roundtripM_db.
  specialize (Hb w2). rewrite bind_run. unfold tryM at 1.
  destruct (body w2) as [r w3]. simpl in Hb. rewrite bind_run. unfold tryM.
  destruct (roundtripM w3) as [u w4] eqn:E. apply roundtripM_db in E as [D4 _]. simpl.
  rewrite D4, Hb; congruence.
Qed.

(** A message Postfix does not report as held is not released again: the
    run writes nothing, whatever the recorded state, and never reports a
    change.  In particular a release that took effect but whose verification
    failed cannot be completed by a retry: the row stays in "release_error"
    (or "release_reconciling") as long as the message is not held. *)
Theorem Release_requires_hold actor cid queueID confirmation w meta x' :
  Inspect queueID (w_ext w) = (Ok meta, x') -> qm_held meta = false ->
  w_db (Release actor cid queueID confirmation w).2 = w_db w
  /\ forall res w', Release actor cid queueID confirmation w = (Ok (res, None), w') ->
       rl_changed res = false.
Proof.
  intros Hi Hh. unfold Release. split.
  - apply bind_same; [solve_effect|]. intros [] ? [_ ->]%guardM_ok.
    apply with_queue_lock_db. intros w1 D1 X1. rewrite <- D1.
    eapply release_locked_unheld; [by rewrite X1|done].
  - intros res w' H. apply bind_ok in H as ([] & ? & [_ ->]%guardM_ok & H).
    apply with_queue_lock_ok in H as (w1 & w2 & H & _ & X1 & _).
    eapply release_locked_unheld; [by rewrite X1|done|exact H].
Qed.
End Stuck.

(** ** What a confirmation is bound to *)

Section Confirmation.
Context `{HOST : !Host} {IDNA : IdnaLaws}.
Implicit Types (g : list GoverningDomain) (st : gmap string (string * N)).

Lemma snapshot_states_sound g st st' :
  snapshot_states g st = Ok st' ->
  forall d x, st' !! d = Some x ->
    st !! d = Some x \/ (NormalizeDomain d = Ok d /\ validScope x.1 = true /\ x.2 <> 0%N).
Proof.
  revert st. induction g as [|item g IH]; intros st; cbn [snapshot_states].
  { intros [= <-] d x. by left. }
  intros H d x Hd. destruct (NormalizeDomain (gd_domain item)) as [dom|] eqn:En; [|done].
  destruct (_ || _) eqn:Eb; [done|]. to_prop. destruct Eb as [[-> Hs] Hr].
  assert (snapshot_states g (<[gd_domain item := (gd_scope item, gd_revision item)]> st)
          = Ok st') as H'.
  { destruct (st !! gd_domain item); [|done]. by case_bool_decide. }
  destruct (IH _ H' d x Hd) as [Hx|]; [|by right].
  rewrite lookup_insert in Hx. case_decide; [|by left]. simplify_eq. by right.
Qed.

Lemma no_nul_ldh s : forall_bytes ldh_lower s = true -> no_nul s.
Proof.
  apply forall_bytes_impl. intros c [Hc _]%andb_true_iff.
  apply negb_true_iff, Ascii.eqb_neq. by intros ->.
Qed.

Lemma no_nul_scope s : validScope s = true -> no_nul s.
Proof. unfold validScope. intros [->%eqs_true| ->%eqs_true]%orb_true_iff; done. Qed.

Lemma snapshot_line_inj d1 d2 (x1 x2 : string * N) :
  no_nul d1 -> no_nul d2 -> no_nul x1.1 -> no_nul x2.1 ->
  snapshot_line d1 x1 = snapshot_line d2 x2 -> d1 = d2 /\ x1 = x2.
Proof.
  unfold snapshot_line. intros N1 N2 N3 N4 H.
  apply no_nul_app_inj in H as [-> H]; [|done..].
  apply no_nul_app_inj in H as [H1 H]; [|done..]. split; [done|].
  unfold FormatInt in H. apply (inj pretty), (inj Z.of_N) in H.
  destruct x1, x2. by simplify_eq/=.
Qed.

Definition snapshot_lines st : list string :=
  map (fun domain => snapshot_line domain (default ("", 0%N) (st !! domain)))
    (sort_strings (map_to_list st).*1).

Definition clean_states st : Prop :=
  forall d x, st !! d = Some x -> no_nul d /\ no_nul x.1.

Lemma snapshot_states_clean g st : snapshot_states g ∅ = Ok st -> clean_states st.
Proof.
  intros H d x Hd. destruct (snapshot_states_sound _ _ _ H d x Hd) as [Hx|(Hn & Hs & _)];
    [by rewrite lookup_empty in Hx|].
  split; [|by apply no_nul_scope]. apply no_nul_ldh. by eapply NormalizeDomain_ldh.
Qed.

Lemma elem_of_snapshot_lines st line :
  line ∈ snapshot_lines st <-> exists d x, st !! d = Some x /\ line = snapshot_line d x.
Proof.
  unfold snapshot_lines. rewrite list_elem_of_fmap.
  setoid_rewrite sort_strings_perm. setoid_rewrite list_elem_of_fmap. split.
  - intros (d & -> & [d' x] & -> & Hx%elem_of_map_to_list). exists d', x. simpl. by rewrite Hx.
  - intros (d & x & Hx & ->). exists d. rewrite Hx. split; [done|].
    exists (d, x). by rewrite elem_of_map_to_list.
Qed.

Lemma snapshot_lines_inj st1 st2 :
  clean_states st1 -> clean_states st2 -> snapshot_lines st1 = snapshot_lines st2 -> st1 = st2.
Proof.
  assert (forall s1 s2, clean_states s1 -> clean_states s2 ->
    snapshot_lines s1 = snapshot_lines s2 ->
    forall d x, s1 !! d = Some x -> s2 !! d = Some x) as Hle.
  { intros s1 s2 C1 C2 Heq d x Hd.
    assert (snapshot_line d x ∈ snapshot_lines s2) as Hin
      by (rewrite <- Heq; apply elem_of_snapshot_lines; by exists d, x).
    apply elem_of_snapshot_lines in Hin as (d' & x' & Hd' & Hline).
    destruct (C1 _ _ Hd), (C2 _ _ Hd').
    by apply snapshot_line_inj in Hline as [-> ->]. }
  intros C1 C2 Heq. apply map_eq. intros d. apply option_eq. intros x.
  split; by apply Hle.
Qed.

(** The identity a confirmation covers. *)
Definition release_identity (r : QueueRecord) : string * string * string * string :=
  (qr_queue_id r, qr_arrival_fingerprint r, qr_recipient_set_digest r, qr_source_set_digest r).

(** A confirmation is good for one message under one policy state: if
    the hash computed for a message and its governing domains equals the one
    computed for another pair, then the message identities are the same and
    every governing domain has the same scope and revision, or two exhibited
    transcripts are a SHA-256 collision. *)
Theorem confirmation_binds r1 r2 g1 g2 st1 st2 s1 s2 :
  releasePolicySnapshot g1 = Ok s1 -> releasePolicySnapshot g2 = Ok s2 ->
  snapshot_states g1 ∅ = Ok st1 -> snapshot_states g2 ∅ = Ok st2 ->
  Forall go_len (release_values r1 s1.2 ++ release_values r2 s2.2) ->
  digestStrings (release_values r1 s1.2) = digestStrings (release_values r2 s2.2) ->
  (release_identity r1 = release_identity r2 /\ st1 = st2)
  \/ (frames (release_values r1 s1.2) <> frames (release_values r2 s2.2)
      /\ Sha.sum256 (frames (release_values r1 s1.2))
         = Sha.sum256 (frames (release_values r2 s2.2))).
Proof.
  intros H1 H2 E1 E2 [L1 L2]%Forall_app Hd.
  unfold releasePolicySnapshot in H1, H2. rewrite E1 in H1. rewrite E2 in H2.
  cbn [rbind] in H1, H2. destruct (size st1 =? 0); [done|]. destruct (size st2 =? 0); [done|].
  injection H1 as <-. injection H2 as <-. fold (snapshot_lines st1) (snapshot_lines st2) in *.
  cbn [snd] in *. unfold digestStrings in Hd. rewrite sha256_hex_eq in Hd.
  destruct (decide (frames (release_values r1 (snapshot_lines st1))
                    = frames (release_values r2 (snapshot_lines st2)))) as [Hf|]; [|by right].
  left. apply frames_inj in Hf; [|done..]. unfold release_values in Hf.
  cbn [app] in Hf. injection Hf as Ha Hb Hc He Hl. split; [unfold release_identity; congruence|].
  apply snapshot_lines_inj; [by eapply snapshot_states_clean..|done].
Qed.
End Confirmation.
