(* ===== verification/Decision.v ===== *)
(** * Enforcement decisions (internal/outboundpolicy/decision.go)

    The entry points of the policy: [Decide] for a submission or a transport
    request, [DecideSMTPRecipient] for an RCPT command, and [Bind], which
    creates system senders.  Where the source returns a decision beside an
    error, every error return goes through [unavailableDecision]: the body of
    such a function runs in the error monad and [fail_closed] turns its errors
    into the deferral. *)

From stdpp Require Import base list gmap sets strings sorting relations.
From Stdlib Require Import ZArith Lia Ascii.
From S2P Require Import Prelude GoStd Policy Queue AuditLog Database QueueStore Sources Admission HoldMachine Reconcile.

(** ** sort.SearchStrings *)

(** The loop of sort.Search for [f h := values[h] >= target]; its interval
    shrinks at every turn, so the length is enough fuel. *)
Fixpoint search_loop (fuel : nat) (values : list string) (target : string) (i j : nat) : nat :=
  match fuel with
  | O => i
  | S fuel =>
      if i <? j then
        let h := (i + j) / 2 in
        if String.leb target (default "" (values !! h))
        then search_loop fuel values target i h
        else search_loop fuel values target (S h) j
      else i
  end.

Definition SearchStrings (values : list string) (target : string) : nat :=
  search_loop (S (length values)) values target 0 (length values).

Definition sortedStringContains (values : list string) (target : string) : bool :=
  let index := SearchStrings values target in
  (index <? length values)
  && match values !! index with Some v => v =?s target | None => false end.

(** No rune of the text is below U+0020 or U+007F; on its bytes. *)
Definition plain_correlation (s : string) : bool :=
  forall_bytes (fun c => (32 <=? byte_val c)%N && negb (byte_val c =? 127)%N) s.

Definition validPolicyCorrelationID (value : string) : bool :=
  if (value =?s "") || (256 <? len value) || (TrimSpace value <>?s value) then false
  else plain_correlation value.

(** [return unavailableDecision(err)] *)
Definition unavailableDecision (e : string) : Decision * option string :=
  (defer_unavailable, Some e).

Definition fail_closed {PS} (body : M PS Decision) : M PS (Decision * option string) := fun w =>
  match body w with
  | (Ok decision, w') => (Ok (decision, None), w')
  | (Err e, w') => (Ok (unavailableDecision e), w')
  end.

Record SystemSenderBinding := {
  sb_id : string; sb_domain_id : string; sb_address : string; sb_enabled : bool;
  sb_revision : N;
}.

Section Decision.
Context `{HOST : !Host} {PS : Type}.

Definition submission_event (correlationID domain : string) (decision : Decision) : Event :=
  {| ev_id := ""; ev_time := 0;
     ev_actor := {| actor_type := "service"; actor_id := "outbound-policy" |};
     ev_source := None;
     ev_action := "outbound.policy." +:+ d_action decision;
     ev_resource := {| resource_type := "outbound_submission"; resource_id := "submission" |};
     ev_before := JNull;
     ev_after := JObj [("recipient_domain", JStr domain); ("reason", JStr (d_reason decision));
                       ("revisions", json_revisions (d_revisions decision))];
     ev_correlation_id := correlationID;
     ev_result := if d_action decision =?s ActionReject then "denied" else "failure";
     ev_error_code := "" |}.

Definition recordSubmissionDecision (correlationID recipient : string) (decision : Decision)
    : M PS Decision :=
  if d_action decision =?s ActionOK then mret decision else
  domain ← liftM (recipientDomain recipient);
  WriteSQL (submission_event correlationID domain decision);;
  mret decision.

Definition decide_submission (correlationID : string) (req : EnforcementRequest)
    : M PS Decision :=
  sources ← submissionSources req;
  governing ← resolvePolicySources sources;
  recordSubmissionDecision correlationID (er_recipient req)
    (Evaluate {| rq_stage := StageSubmission; rq_queue_id := "";
                 rq_recipient := er_recipient req; rq_governing := governing |}).

(** [s.HoldActor], or the default service actor. *)
Definition hold_actor (holdActor : ActorRef) : ActorRef :=
  if (actor_type holdActor =?s "") || (actor_id holdActor =?s "")
  then {| actor_type := "service"; actor_id := "outbound-policy" |} else holdActor.

Definition decide_transport (holdActor : ActorRef) (correlationID : string)
    (req : EnforcementRequest) : M PS Decision :=
  guardM ((er_stage req <>?s StageTransport) || (er_authenticated_mailbox req <>?s "")
          || (er_system_sender_id req <>?s "") || (er_envelope_sender req <>?s "")
          || negb (length (er_expansion_sources req) =? 0))
    "invalid outbound enforcement stage request";;
  record ← Load (er_queue_id req);
  recipient ← liftM match normalizeQueueRecipient (er_recipient req) with
                    | Ok (recipient, _) =>
                        if sortedStringContains (qr_recipients record) recipient
                        then Ok recipient
                        else Err "transport recipient is absent from immutable queue provenance"
                    | Err _ =>
                        Err "transport recipient is absent from immutable queue provenance"
                    end;
  governing ← resolvePolicySources (qr_sources record);
  let decision := Evaluate {| rq_stage := StageTransport; rq_queue_id := qr_queue_id record;
                              rq_recipient := recipient; rq_governing := governing |} in
  (if (d_action decision =?s ActionDefer) && (d_reason decision =?s ReasonPolicyHold)
   then RequireHold (hold_actor holdActor) correlationID (qr_queue_id record) decision
   else mret tt);;
  mret decision.

Definition Decide (holdActor : ActorRef) (correlationID : string) (req : EnforcementRequest)
    : M PS (Decision * option string) :=
  fail_closed (
    guardM (negb (validPolicyCorrelationID correlationID))
      "outbound enforcement service is unavailable";;
    if er_stage req =?s StageSubmission
    then decide_submission correlationID req
    else decide_transport holdActor correlationID req).

(** ** DecideSMTPRecipient *)

(** The loop over the leaves; [result] is the decision so far. *)
Fixpoint decide_leaves (correlationID : string) (governing : list GoverningDomain)
    (leaves : list string) (result : Decision) : M PS Decision :=
  match leaves with
  | [] => mret result
  | finalRecipient :: leaves =>
      let decision := Evaluate {| rq_stage := StageSubmission; rq_queue_id := "";
                                  rq_recipient := finalRecipient; rq_governing := governing |} in
      let revisions := d_revisions decision ∪ d_revisions result in
      if d_action decision =?s ActionReject
      then recordSubmissionDecision correlationID finalRecipient
             {| d_action := d_action decision; d_reason := d_reason decision;
                d_revisions := revisions |}
      else if d_action decision <>?s ActionOK
      then failM "invalid submission expansion policy result"
      else decide_leaves correlationID governing leaves
             {| d_action := d_action result;
                d_reason := if d_reason decision =?s ReasonSameDomain then ReasonSameDomain
                            else d_reason result;
                d_revisions := revisions |}
  end.

Definition smtp_request (authenticatedMailbox envelopeSender recipient : string)
    : EnforcementRequest :=
  {| er_stage := StageSubmission; er_queue_id := "";
     er_authenticated_mailbox := authenticatedMailbox; er_system_sender_id := "";
     er_envelope_sender := envelopeSender; er_recipient := recipient;
     er_expansion_sources := [] |}.

Definition DecideSMTPRecipient (correlationID authenticatedMailbox envelopeSender
    recipient : string) : M PS (Decision * option string) :=
  fail_closed (
    guardM (negb (validPolicyCorrelationID correlationID))
      "outbound enforcement service is unavailable";;
    authority ← submissionSources (smtp_request authenticatedMailbox envelopeSender recipient);
    expanded ← expandOriginal recipient;
    governing ← resolvePolicySources (authority ++ expanded.2);
    decide_leaves correlationID governing expanded.1
      {| d_action := ActionOK; d_reason := ReasonUnrestricted; d_revisions := ∅ |}).

(** ** Bind *)

(** SELECT id::text FROM domains WHERE name=$1 AND enabled=true; names are
    unique. *)
Definition enabled_domain_id (name : string) (d : DB) : result string :=
  match find (fun p => (dm_name p.2 =?s name) && dm_enabled p.2) (map_to_list (db_domains d)) with
  | Some (id, _) => Ok id
  | None => Err "enabled system sender domain not found"
  end.

(** INSERT ... ON CONFLICT (id) DO NOTHING; the address is UNIQUE. *)
Definition insert_sender (id domainID address : string) (d : DB) : result (nat * DB) :=
  match db_senders d !! id with
  | Some _ => Ok (0, d)
  | None =>
      if existsb (fun p => sy_address p.2 =?s address) (map_to_list (db_senders d))
      then Err "duplicate key value violates unique constraint"
      else Ok (1, with_senders (<[id := {| sy_domain_id := domainID; sy_address := address;
                                           sy_enabled := true; sy_revision := 1 |}]>) d)
  end.

Definition select_sender (id : string) (d : DB) : result SenderRow :=
  match db_senders d !! id with
  | Some row => Ok row
  | None => Err "sql: no rows in result set"
  end.

Definition bind_event (now : Z) (actor : ActorRef) (correlationID id domainID : string) : Event :=
  {| ev_id := ""; ev_time := now; ev_actor := actor; ev_source := None;
     ev_action := "system_sender.bind";
     ev_resource := {| resource_type := "system_sender"; resource_id := id |};
     ev_before := JNull;
     ev_after := JObj [("domain_id", JStr domainID); ("revision", JNum 1)];
     ev_correlation_id := correlationID; ev_result := "success"; ev_error_code := "" |}.

Definition bind_body (actor : ActorRef) (correlationID id address domain : string)
    : M PS (bool * SystemSenderBinding) :=
  domainID ← queryM (enabled_domain_id domain);
  now ← nowM;
  affected ← execM (insert_sender id domainID address);
  row ← queryM (select_sender id);
  guardM ((sy_domain_id row <>?s domainID) || (sy_address row <>?s address)
          || negb (sy_enabled row) || (sy_revision row <=? 0)%Z)
    "system sender ID is already bound to different state";;
  (if affected =? 1
   then WriteSQL (bind_event now actor correlationID id domainID)
   else mret tt);;
  mret (true, {| sb_id := id; sb_domain_id := sy_domain_id row; sb_address := sy_address row;
                 sb_enabled := sy_enabled row; sb_revision := Z.to_N (sy_revision row) |}).

Definition Bind (actor : ActorRef) (correlationID id rawAddress : string)
    : M PS SystemSenderBinding :=
  guardM (negb (valid_actor actor) || (correlationID =?s "") || negb (validQueueObjectID id))
    "invalid system sender binding request";;
  address ← liftM (relabel "invalid system sender address" (normalizeQueueRecipient rawAddress));
  transaction (bind_body actor correlationID id address.1 address.2).
End Decision.

(** ** Binary search *)

Section Search.
Implicit Types (values : list string).

(** Everything before [i] is below the target, everything from [j] on is at
    least the target. *)
Definition search_inv values target (i j : nat) : Prop :=
  i <= j <= length values
  /\ (forall k v, values !! k = Some v -> k < i -> String.leb target v = false)
  /\ (forall k v, values !! k = Some v -> j <= k -> String.leb target v = true).

Lemma search_loop_spec fuel values target i j :
  StronglySorted String.le values -> search_inv values target i j -> j - i < fuel ->
  search_inv values target (search_loop fuel values target i j)
    (search_loop fuel values target i j).
Proof.
  intros Hs. revert i j. induction fuel as [|fuel IH]; intros i j (Hij & Hlo & Hhi) Hf; [lia|].
  cbn [search_loop]. destruct (i <? j) eqn:E; to_prop.
  2: { assert (i = j) as <- by lia. unfold search_inv. split_and!; [lia|lia|done|done]. }
  set (h := (i + j) / 2).
  assert (i <= h < j) as Hh.
  { unfold h. pose proof (Nat.div_mod_eq (i + j) 2). pose proof (Nat.mod_upper_bound (i + j) 2).
    lia. }
  destruct (lookup_lt_is_Some_2 values h) as [x Hx]; [lia|]. rewrite Hx. simpl.
  destruct (String.leb target x) eqn:Et; (apply IH; [|lia]); (split_and!; [lia..| |done]) ||
    (split_and!; [lia..|done|]).
  - intros k v Hk Hle. destruct (decide (k = h)) as [->|]; [congruence|].
    assert (String.le x v) as Hxv by (eapply (sorted_lookup _ values h k); [done..|lia]).
    assert (String.le target x) as Htx by (unfold String.le; by rewrite Et).
    assert (String.le target v) as Htv by (by etrans). unfold String.le in Htv.
    by destruct (String.leb target v).
  - intros k v Hk Hlt. destruct (decide (k = h)) as [->|]; [congruence|].
    assert (String.le v x) as Hvx by (eapply (sorted_lookup _ values k h); [done..|lia]).
    destruct (String.leb target v) eqn:Ev; [|done]. exfalso.
    assert (String.le target v) as Htv by (unfold String.le; by rewrite Ev).
    assert (String.le target x) as Htx by (by etrans). unfold String.le in Htx.
    by rewrite Et in Htx.
Qed.

Lemma sortedStringContains_lemma values target :
  StronglySorted String.le values ->
  sortedStringContains values target = true <-> target ∈ values.
Proof.
  intros Hs. unfold sortedStringContains, SearchStrings.
  destruct (search_loop_spec (S (length values)) values target 0 (length values) Hs)
    as (Hij & Hlo & Hhi); [|lia|].
  { split_and!; [lia|lia|intros; lia|]. intros k v Hk Hle. apply lookup_lt_Some in Hk. lia. }
  set (n := search_loop _ _ _ _ _) in *. split.
  - intros [Hn Hv]%andb_true_iff. destruct (values !! n) as [v|] eqn:E; [|done].
    to_prop. subst. by apply list_elem_of_lookup_2 in E.
  - intros [k Hk]%list_elem_of_lookup.
    assert (String.leb target target = true) as Hrefl.
    { assert (String.le target target) as Hx by done. unfold String.le in Hx.
      by destruct (String.leb target target). }
    assert (n <= k) as Hnk.
    { destruct (decide (k < n)); [|lia]. rewrite (Hlo k target) in Hrefl; done. }
    apply lookup_lt_Some in Hk as Hlen.
    destruct (lookup_lt_is_Some_2 values n) as [v Hv]; [lia|]. rewrite Hv.
    apply andb_true_iff. split; [apply Nat.ltb_lt; lia|]. apply eqs_true.
    pose proof (Hhi n v Hv (le_n n)) as Htv.
    destruct (decide (n = k)) as [->|Hne]; [congruence|].
    assert (String.le v target) as Hvt by (eapply (sorted_lookup _ values n k); [done..|lia]).
    apply (anti_symm String.le); [done|]. unfold String.le. by rewrite Htv.
Qed.

(** On the sorted recipient list of a record, the binary search is
    membership. *)
Theorem sortedStringContains_spec values target :
  StronglySorted String.le values ->
  sortedStringContains values target = true <-> target ∈ values.
Proof. apply sortedStringContains_lemma. Qed.
End Search.

(** ** What a decision means *)

Section Facts.
Context `{HOST : !Host} {PS : Type}.
Implicit Types (w : World PS) (d : DB) (req : EnforcementRequest).

Lemma fail_closed_run (body : M PS Decision) w :
  exists dec err, fail_closed body w = (Ok (dec, err), (body w).2)
    /\ match err with
       | None => body w = (Ok dec, (body w).2)
       | Some e => dec = defer_unavailable /\ body w = (Err e, (body w).2)
       end.
Proof.
  unfold fail_closed. destruct (body w) as [[dec|e] w1]; simpl;
    eexists _, _; (split; [done|]); by simpl.
Qed.

Lemma contains_elem values target :
  sortedStringContains values target = true -> target ∈ values.
Proof.
  unfold sortedStringContains. intros [_ H]%andb_true_iff.
  destruct (values !! _) as [v|] eqn:E; [|done]. to_prop. subst.
  by eapply list_elem_of_lookup_2.
Qed.

Lemma recordSubmissionDecision_ok cid recipient dec w dec' w' :
  recordSubmissionDecision cid recipient dec w = (Ok dec', w') ->
  dec' = dec /\ w_ext w' = w_ext w
  /\ if d_action dec =?s ActionOK then w_db w' = w_db w
     else exists ev dom, recipientDomain recipient = Ok dom
            /\ w_db w' = with_audit (fun l => l ++ [ev]) (w_db w)
            /\ ev_action ev = ("outbound.policy." +:+ d_action dec)%string
            /\ ev_correlation_id ev = cid
            /\ ev_after ev = Redact (ev_after (submission_event cid dom dec)).
Proof.
  unfold recordSubmissionDecision. intros H. destruct (d_action dec =?s ActionOK).
  { by injection H as <- <-. }
  apply bind_ok in H as (dom & ? & [Hd ->]%liftM_ok & H).
  apply bind_ok in H as ([] & w1 & (ev & D & X & Ha & _ & _ & Hc & _ & _ & Haf)%WriteSQL_ok & H).
  injection H as <- <-. split_and!; [done..|]. by exists ev, dom.
Qed.

(** The sources a request is answered for, and the recipient asked about. *)
Definition request_sources d req (sources : list QueueSource) (recipient : string) : Prop :=
  if er_stage req =?s StageSubmission
  then recipient = er_recipient req
       /\ exists envelope bound, envelope_is req envelope /\ authority d req envelope bound
            /\ sources = bound ++ er_expansion_sources req
  else exists record dom, load_pure (er_queue_id req) d = Ok record
         /\ normalizeQueueRecipient (er_recipient req) = Ok (recipient, dom)
         /\ recipient ∈ qr_recipients record /\ sources = qr_sources record.

Lemma decide_submission_ok cid req w dec w' :
  er_stage req = StageSubmission ->
  decide_submission cid req w = (Ok dec, w') ->
  exists sources governing, request_sources (w_db w) req sources (er_recipient req)
    /\ resolves (w_db w) sources governing
    /\ dec = Evaluate {| rq_stage := StageSubmission; rq_queue_id := "";
                         rq_recipient := er_recipient req; rq_governing := governing |}
    /\ if d_action dec =?s ActionOK then w_db w' = w_db w
       else exists ev, w_db w' = with_audit (fun l => l ++ [ev]) (w_db w)
              /\ ev_action ev = ("outbound.policy." +:+ d_action dec)%string
              /\ ev_correlation_id ev = cid.
Proof.
  intros Hst H. unfold decide_submission in H.
  apply bind_ok in H as (sources & w1 & (D1 & X1 & env & bound & He & Ha & -> & _)%submissionSources_ok & H).
  apply bind_ok in H as (g & w2 & (Hg & D2 & X2 & _)%resolvePolicySources_ok & H).
  apply recordSubmissionDecision_ok in H as (-> & _ & H). rewrite D1 in Hg.
  exists (bound ++ er_expansion_sources req), g. unfold request_sources. rewrite Hst. simpl.
  split_and!; [done|by exists env, bound|done|done|].
  rewrite D2, D1 in H. destruct (_ =?s ActionOK); [done|].
  destruct H as (ev & dom & _ & ? & ? & ? & _). by exists ev.
Qed.

Lemma decide_transport_ok actor cid req w dec w' :
  decide_transport actor cid req w = (Ok dec, w') ->
  exists record recipient dom governing,
    load_pure (er_queue_id req) (w_db w) = Ok record
    /\ normalizeQueueRecipient (er_recipient req) = Ok (recipient, dom)
    /\ recipient ∈ qr_recipients record
    /\ er_stage req = StageTransport
    /\ resolves (w_db w) (qr_sources record) governing
    /\ dec = Evaluate {| rq_stage := StageTransport; rq_queue_id := qr_queue_id record;
                         rq_recipient := recipient; rq_governing := governing |}
    /\ exists w1, w_db w1 = w_db w /\ w_ext w1 = w_ext w
         /\ if (d_action dec =?s ActionDefer) && (d_reason dec =?s ReasonPolicyHold)
            then RequireHold (hold_actor actor) cid (qr_queue_id record) dec w1 = (Ok tt, w')
            else w' = w1.
Proof.
  unfold decide_transport. intros H.
  apply bind_ok in H as ([] & ? & [Hg ->]%guardM_ok & H).
  apply bind_ok in H as (record & w1 & Hload & H). unfold Load in Hload.
  apply bind_ok in Hload as ([] & ? & [_ ->]%guardM_ok & (Hl & D1 & X1)%loadQueueRecord_ok).
  apply bind_ok in H as (rcpt & ? & [Hr ->]%liftM_ok & H).
  apply bind_ok in H as (g & w2 & (Hres & D2 & X2 & _)%resolvePolicySources_ok & H).
  cbv zeta in H. apply bind_ok in H as ([] & w3 & Hhold & H). injection H as <- <-.
  destruct (normalizeQueueRecipient (er_recipient req)) as [[a dom]|] eqn:En; [|done].
  destruct (sortedStringContains _ _) eqn:Ec; [|done]. injection Hr as <-.
  apply contains_elem in Ec. to_prop. rewrite D1 in Hres.
  destruct Hg as [[[[Hst _] _] _] _].
  exists record, a, dom, g. split_and!; [done..|].
  exists w2. split_and!; [congruence..|].
  destruct (_ && _); [done|]. by injection Hhold as <-.
Qed.

Lemma request_allows d req sources governing recipient stage queueID :
  resolves d sources governing ->
  d_action (Evaluate {| rq_stage := stage; rq_queue_id := queueID;
                        rq_recipient := recipient; rq_governing := governing |}) = ActionOK ->
  policy_allows d sources recipient.
Proof. apply Evaluate_allows. Qed.

(** C3: [Decide] always answers, and it fails closed: an answer beside an
    error is the unavailable deferral, and an OK is never beside an error and
    only given when the policy tables allow mail from the sources of the
    request (the authenticated authority at submission, the recorded
    provenance at transport) to its recipient.  This holds under every
    schedule of database failures. *)
Theorem Decide_fail_closed actor cid req w :
  exists dec err w', Decide actor cid req w = (Ok (dec, err), w')
    /\ (err <> None -> dec = defer_unavailable)
    /\ (d_action dec = ActionOK ->
          err = None /\ w_db w' = w_db w
          /\ exists sources recipient, request_sources (w_db w) req sources recipient
               /\ policy_allows (w_db w) sources recipient).
Proof.
  unfold Decide.
  destruct (fail_closed_run (guardM (negb (validPolicyCorrelationID cid))
    "outbound enforcement service is unavailable";;
    if er_stage req =?s StageSubmission
    then decide_submission cid req else decide_transport actor cid req) w)
    as (dec & err & E & Herr).
  set (w' := (_ w).2) in *. exists dec, err, w'. split; [exact E|].
  destruct err as [e|].
  { destruct Herr as [-> _]. by split. }
  split; [done|]. intros Hok. split; [done|].
  apply bind_ok in Herr as ([] & ? & [_ ->]%guardM_ok & H).
  destruct (er_stage req =?s StageSubmission) eqn:Est.
  - apply eqs_true in Est.
    apply decide_submission_ok in H as (src & g & Hs & Hg & -> & Hd); [|done].
    rewrite Hok in Hd. split; [done|]. exists src, (er_recipient req).
    split; [done|]. by eapply Evaluate_allows.
  - apply decide_transport_ok in H
      as (record & rcpt & dom & g & Hl & Hn & Hin & _ & Hg & -> & w1 & D1 & _ & Hh).
    rewrite Hok in Hh. cbn [String.eqb] in Hh. rewrite Hh. split; [done|].
    exists (qr_sources record), rcpt. split; [|by eapply Evaluate_allows].
    unfold request_sources. rewrite Est. by exists record, dom.
Qed.

(** ** Durable holds *)

(** A message that must not leave: its row is in a hold state, for the policy
    reason, with these revisions. *)
Definition must_hold d (queueID : string) (revisions : gmap string N) : Prop :=
  exists row, db_queues d !! queueID = Some row
    /\ qw_hold_state row ∈ [HoldRequired; HoldReconciling; HoldApplied; HoldReconciliationError]
    /\ qw_policy_reason row = Some ReasonPolicyHold
    /\ decode_revisions (qw_revisions row) = Some revisions.

Lemma stored_revisions_nonzero row m :
  stored_revisions row = Ok m -> decode_revisions (qw_revisions row) = Some m
  /\ nonzero_revisions m.
Proof.
  unfold stored_revisions. destruct (decode_revisions _) as [p|]; [|done].
  destruct (_ && _) eqn:E; [done|]. intros [= <-]. split; [done|].
  apply andb_false_iff in E as [E|E]; to_prop.
  - assert (size p = 0) as ->%map_size_empty_inv by lia. intros k r Hk.
    by rewrite lookup_empty in Hk.
  - destruct (canonicalPolicyRevisions p) as [c|] eqn:Ec; [|done].
    destruct (canonicalPolicyRevisions_sound _ _ Ec) as (_ & Hm & _).
    by intros k r [? _]%Hm.
Qed.

Lemma RequireHold_must_hold actor cid queueID dec w u w' revisions :
  RequireHold (PS := PS) actor cid queueID dec w = (Ok u, w') ->
  canonicalPolicyRevisions (d_revisions dec) = Ok revisions ->
  (forall k r, revisions !! k = Some r -> (r < 2 ^ 64)%N) ->
  must_hold (w_db w') queueID revisions.
Proof.
  unfold RequireHold. intros H Hc Hb.
  apply bind_ok in H as ([] & ? & [_ ->]%guardM_ok & H).
  apply bind_ok in H as ([] & ? & [Hg ->]%guardM_ok & H).
  apply bind_ok in H as (rv & ? & [Hrv ->]%liftM_ok & H). rewrite Hc in Hrv.
  injection Hrv as <-. apply orb_false_iff in Hg as [_ Hr].
  apply negb_false_iff, eqs_true in Hr.
  apply transaction_ok in H as (w1 & c & w2 & H & D1 & _ & _ & Hd).
  apply require_hold_body_ok in H as (_ & H); [|done]. destruct c.
  - destruct H as (_ & row & now & _ & Hrow). exists (set_required ReasonPolicyHold revisions now row).
    rewrite Hd. split_and!; [done|simpl; set_solver|done|]. simpl.
    by apply decode_encode_revisions.
  - destruct H as (_ & row & prior & Hrow & Hp & Hal). rewrite Hd, <- D1. exists row.
    unfold already_required in Hal. to_prop. destruct Hal as [[Hre Heq] Hst].
    apply state_in_spec in Hst. apply stored_revisions_nonzero in Hp as [Hp Hnz].
    apply revisionMapsEqual_eq in Heq as ->; [|done].
    split_and!; [done|done| |done].
    destruct (qw_policy_reason row); [|done]. to_prop. congruence.
Qed.

Lemma resolved_revisions d sources governing dec stage queueID recipient :
  resolves d sources governing ->
  dec = Evaluate {| rq_stage := stage; rq_queue_id := queueID;
                    rq_recipient := recipient; rq_governing := governing |} ->
  d_action dec <> ActionOK ->
  normal_revisions (d_revisions dec)
  /\ forall k r, d_revisions dec !! k = Some r ->
       exists s dom, s ∈ sources /\ governed_by d s dom /\ dm_scope dom = ScopeSameDomainOnly
         /\ k = dm_name dom /\ r = Z.to_N (dm_revision dom).
Proof.
  intros Hres -> Hne.
  assert (forall k r, d_revisions (Evaluate {| rq_stage := stage; rq_queue_id := queueID;
      rq_recipient := recipient; rq_governing := governing |}) !! k = Some r ->
    exists s dom, s ∈ sources /\ governed_by d s dom /\ dm_scope dom = ScopeSameDomainOnly
         /\ k = dm_name dom /\ r = Z.to_N (dm_revision dom)) as Hall.
  { intros k r Hk. apply Evaluate_refusal_lemma in Hne as [[He _]|(rcpt & _ & _ & Hr & _)].
    - rewrite He in Hk. cbn in Hk. by rewrite lookup_empty in Hk.
    - apply Hr in Hk as (g & Hg & Hgov & Hsc & <-).
      destruct (resolves_elem _ _ _ _ Hres Hg) as (s & dom & Hs & Hdom & ->).
      exists s, dom. split_and!; [done..| |done].
      eapply governs_inj; [exact Hgov|]. by eapply governs_entry. }
  split; [|done]. intros k r Hk. destruct (Hall k r Hk) as (s & dom & _ & Hdom & _ & -> & ->).
  destruct Hdom as (did & _ & _ & _ & Hn & _ & Hr). split; [done|lia].
Qed.

(** C10: a transport decision that holds a message is durable before it is
    given: when [Decide] answers "policy hold" without an error, the row of
    the message is in a hold state for that reason and carries exactly the
    revisions of the decision (revisions are bigints). *)
Theorem Decide_hold_durable actor cid req w dec w' :
  (forall i dom, db_domains (w_db w) !! i = Some dom -> (dm_revision dom < 2 ^ 63)%Z) ->
  Decide actor cid req w = (Ok (dec, None), w') ->
  d_action dec = ActionDefer -> d_reason dec = ReasonPolicyHold ->
  must_hold (w_db w') (er_queue_id req) (d_revisions dec).
Proof.
  intros Hb H Ha Hr. unfold Decide, fail_closed in H.
  destruct ((guardM _ _;; _) w) as [[x|e] w1] eqn:E; [|done]. injection H as -> ->.
  apply bind_ok in E as ([] & ? & [_ ->]%guardM_ok & H).
  destruct (er_stage req =?s StageSubmission) eqn:Est.
  - exfalso. apply eqs_true in Est.
    apply decide_submission_ok in H as (src & g & _ & _ & -> & _); [|done].
    assert (d_action (Evaluate {| rq_stage := StageSubmission; rq_queue_id := "";
      rq_recipient := er_recipient req; rq_governing := g |}) <> ActionOK) as Hne
      by (by rewrite Ha).
    destruct (Evaluate_refusal_lemma _ Hne) as [[He _]|(rcpt & _ & _ & _ & Hx)].
    + by rewrite He in Hr.
    + simpl in Hx. rewrite Ha in Hx. set_solver.
  - apply decide_transport_ok in H
      as (record & rcpt & dom & g & Hl & Hn & Hin & Hst & Hg & Hdec & w2 & D2 & _ & Hh).
    rewrite Ha, Hr in Hh. simpl in Hh.
    destruct (load_pure_fields _ _ _ Hl) as (row & _ & Hid & _).
    destruct (resolved_revisions _ _ _ _ _ _ _ Hg Hdec) as [Hnorm Hrev]; [by rewrite Ha|].
    rewrite Hid in Hh.
    assert (exists c, canonicalPolicyRevisions (d_revisions dec) = Ok c) as [c Hc].
    { unfold RequireHold in Hh. apply bind_ok in Hh as ([] & ? & [_ ->]%guardM_ok & Hh).
      apply bind_ok in Hh as ([] & ? & [_ ->]%guardM_ok & Hh).
      apply bind_ok in Hh as (rv & ? & [Hrv ->]%liftM_ok & _). by exists rv. }
    destruct (canonicalPolicyRevisions_sound _ _ Hc) as (Hsz & _).
    rewrite (canonicalPolicyRevisions_fix _ Hnorm Hsz) in Hc. injection Hc as <-.
    eapply RequireHold_must_hold; [exact Hh|by apply canonicalPolicyRevisions_fix|].
    intros k r Hk. destruct (Hrev k r Hk) as (s & dm & _ & Hdm & _ & _ & ->).
    destruct Hdm as (i & _ & Hi & _). specialize (Hb i dm Hi). lia.
Qed.

(** ** RCPT decisions *)

Lemma decide_leaves_ok cid governing leaves : forall result w dec w',
  decide_leaves cid governing leaves result w = (Ok dec, w') ->
  d_action dec = ActionOK ->
  w' = w /\ forall y, y ∈ leaves ->
    d_action (Evaluate {| rq_stage := StageSubmission; rq_queue_id := "";
                          rq_recipient := y; rq_governing := governing |}) = ActionOK.
Proof.
  induction leaves as [|leaf leaves IH]; intros result w dec w' H Hok; cbn [decide_leaves] in H.
  { injection H as <- <-. split; [done|]. intros y Hy. by apply not_elem_of_nil in Hy. }
  destruct (d_action _ =?s ActionReject) eqn:Er.
  - exfalso. apply recordSubmissionDecision_ok in H as (-> & _). simpl in Hok. to_prop.
    by rewrite Hok in Er.
  - destruct (d_action _ <>?s ActionOK) eqn:Eo in H; [done|]. to_prop.
    apply IH in H as (-> & H); [|done]. split; [done|].
    intros y [->|Hy]%elem_of_cons; auto.
Qed.

(** C4: an RCPT command is accepted only when the whole expansion is
    allowed: [DecideSMTPRecipient] always answers, every answer beside an
    error is the unavailable deferral, and on OK every final recipient the
    stored aliases lead to is allowed for the authenticated authority together
    with every alias on the way; nothing was written. *)
Theorem DecideSMTPRecipient_fail_closed cid mailbox sender recipient w :
  exists dec err w', DecideSMTPRecipient cid mailbox sender recipient w = (Ok (dec, err), w')
    /\ (err <> None -> dec = defer_unavailable)
    /\ (d_action dec = ActionOK ->
          err = None /\ w_db w' = w_db w
          /\ exists original dom envelope bound recipients expansion,
               normalizeQueueRecipient recipient = Ok (original, dom)
               /\ envelope_is (smtp_request mailbox sender recipient) envelope
               /\ authority (w_db w) (smtp_request mailbox sender recipient) envelope bound
               /\ expands (w_db w) original recipients expansion
               /\ forall y, y ∈ recipients ->
                    policy_allows (w_db w) (bound ++ expansion) y).
Proof.
  unfold DecideSMTPRecipient.
  destruct (fail_closed_run (guardM (negb (validPolicyCorrelationID cid))
    "outbound enforcement service is unavailable";;
    authority ← submissionSources (smtp_request mailbox sender recipient);
    expanded ← expandOriginal recipient;
    governing ← resolvePolicySources (authority ++ expanded.2);
    decide_leaves cid governing expanded.1
      {| d_action := ActionOK; d_reason := ReasonUnrestricted; d_revisions := ∅ |}) w)
    as (dec & err & E & Herr).
  set (w' := (_ w).2) in *. exists dec, err, w'. split; [exact E|].
  destruct err as [e|].
  { destruct Herr as [-> _]. by split. }
  split; [done|]. intros Hok. split; [done|].
  apply bind_ok in Herr as ([] & ? & [_ ->]%guardM_ok & H).
  apply bind_ok in H as (src & w1 & (D1 & _ & env & bound & He & Ha & -> & _)%submissionSources_ok & H).
  apply bind_ok in H as ([rs ss] & w2 & (D2 & _ & orig & dom & Hn & Hx)%expandOriginal_ok & H).
  apply bind_ok in H as (g & w3 & (Hg & D3 & _)%resolvePolicySources_ok & H).
  apply decide_leaves_ok in H as [-> Hall]; [|done]. simpl in *. rewrite app_nil_r in Hg.
  rewrite D2, D1 in Hg. rewrite D1 in Hx. split; [congruence|].
  exists orig, dom, env, bound, rs, ss. split_and!; [done..|].
  intros y Hy. eapply Evaluate_allows; [exact Hg|by apply Hall].
Qed.

(** ** System senders *)

Lemma select_sender_ok id d row :
  select_sender id d = Ok row -> db_senders d !! id = Some row.
Proof. unfold select_sender. destruct (_ !! id); [by intros [= ->]|done]. Qed.

Lemma enabled_domain_id_ok name d id :
  enabled_domain_id name d = Ok id ->
  exists dom, db_domains d !! id = Some dom /\ dm_name dom = name /\ dm_enabled dom = true.
Proof.
  unfold enabled_domain_id. destruct (find _ _) as [[i dom]|] eqn:E; [|done].
  intros [= <-]. apply find_some in E as [Hin Hp].
  apply list_elem_of_In, elem_of_map_to_list in Hin. simpl in Hp. to_prop. destruct Hp.
  by exists dom.
Qed.

(** A system sender identifier is bound once and for all: a successful
    [Bind] leaves the identifier bound, enabled, to the canonical address in
    an enabled domain of that name; if it was bound before, nothing at all was
    written and the binding is the one asked for. *)
Theorem Bind_immutable actor cid id rawAddress w binding w' :
  Bind actor cid id rawAddress w = (Ok binding, w') ->
  exists address domain dom row,
    normalizeQueueRecipient rawAddress = Ok (address, domain)
    /\ db_domains (w_db w) !! sb_domain_id binding = Some dom
    /\ dm_name dom = domain /\ dm_enabled dom = true
    /\ db_senders (w_db w') !! id = Some row
    /\ binding = {| sb_id := id; sb_domain_id := sy_domain_id row;
                    sb_address := sy_address row; sb_enabled := sy_enabled row;
                    sb_revision := Z.to_N (sy_revision row) |}
    /\ sy_address row = address /\ sy_enabled row = true
    /\ (forall k, k <> id -> db_senders (w_db w') !! k = db_senders (w_db w) !! k)
    /\ match db_senders (w_db w) !! id with
       | Some prior => w_db w' = w_db w /\ row = prior
       | None => exists ev, db_audit (w_db w') = db_audit (w_db w) ++ [ev]
                  /\ ev_action ev = "system_sender.bind" /\ ev_actor ev = actor
       end.
Proof.
  unfold Bind. intros H. apply bind_ok in H as ([] & ? & [_ ->]%guardM_ok & H).
  apply bind_ok in H as ([address domain] & ? & [Hn%relabel_ok ->]%liftM_ok & H).
  apply transaction_ok in H as (w1 & c & w2 & H & D1 & _ & _ & Hd). cbn [fst snd] in H.
  unfold bind_body in H.
  apply bind_ok in H as (did & u1 & (Hdom%enabled_domain_id_ok & E1 & _)%queryM_ok & H).
  apply bind_ok in H as (now & u2 & [E2 _]%nowM_db & H).
  apply bind_ok in H as (n & u3 & [Hins _]%execM_ok & H).
  apply bind_ok in H as (row & u4 & (Hrow%select_sender_ok & E4 & _)%queryM_ok & H).
  apply bind_ok in H as ([] & ? & [Hg ->]%guardM_ok & H).
  apply bind_ok in H as ([] & u5 & Hw & H). injection H as <- <- <-.
  to_prop. destruct Hg as [[[Hg1 Hg2] Hg3] Hg4]. destruct Hdom as (dom & Hdom & Hname & Hen).
  rewrite E2, E1, D1 in Hins. rewrite D1 in Hdom. rewrite Hd. simpl. rewrite Hg1.
  exists address, domain, dom, row. unfold insert_sender in Hins.
  destruct (db_senders (w_db w) !! id) as [prior|] eqn:Eid.
  - injection Hins as <- Hins. injection Hw as <-. rewrite E4, <- Hins.
    rewrite <- Hins, Eid in Hrow. injection Hrow as <-. by rewrite Hg1.
  - destruct (existsb _ _); [done|]. injection Hins as <- Hins. simpl in Hw.
    apply WriteSQL_ok in Hw as (ev & -> & _ & Hact & _ & Hactor & _). simpl.
    rewrite E4, <- Hins in *. simpl in *. rewrite Hg1. split_and!; try done.
    + intros k Hk. by rewrite lookup_insert_ne.
    + by exists ev.
Qed.
End Facts.

(** ** Nothing allowed is refused *)

Section Complete.
Context `{HOST : !Host} {PS : Type} {COLL : ByteCollation}.
Implicit Types (w : World PS) (d : DB) (req : EnforcementRequest).

Lemma loaded_recipients_sorted queueID d record :
  load_pure queueID d = Ok record -> StronglySorted String.le (qr_recipients record).
Proof.
  intros (row & _ & _ & _ & _ & _ & _ & _ & _ & _ & _ & -> & _)%load_pure_fields.
  unfold select_recipients.
  assert (forall l : list (string * string), StronglySorted sql_row_le l ->
    StronglySorted String.le l.*1) as Hmap.
  { induction l as [|x l IH]; [constructor|]. rewrite fmap_cons, !StronglySorted_cons.
    intros [Hx Hl]. split; [|by apply IH]. rewrite Forall_fmap.
    eapply Forall_impl; [exact Hx|]. intros y. apply sql_row_le_bytes. }
  apply Hmap. apply (StronglySorted_merge_sort sql_row_le).
Qed.

(** With a database that answers and a bytewise collation, a transport
    request for a recorded recipient that the policy tables allow is answered
    OK, and nothing is written: the deferrals of [Decide] are never gratuitous. *)
Theorem Decide_transport_complete actor cid req w record recipient dom :
  reliable w -> unique_names (w_db w) -> validPolicyCorrelationID cid = true ->
  er_stage req = StageTransport -> er_authenticated_mailbox req = "" ->
  er_system_sender_id req = "" -> er_envelope_sender req = "" ->
  er_expansion_sources req = [] ->
  load_pure (er_queue_id req) (w_db w) = Ok record ->
  normalizeQueueRecipient (er_recipient req) = Ok (recipient, dom) ->
  recipient ∈ qr_recipients record ->
  policy_allows (w_db w) (qr_sources record) recipient ->
  exists dec w', Decide actor cid req w = (Ok (dec, None), w')
    /\ d_action dec = ActionOK /\ w_db w' = w_db w.
Proof.
  intros Hw Hu Hcid H1 H2 H3 H4 H5 Hl Hn Hin Hallow.
  pose proof (load_pure_well_formed _ _ _ Hl) as Hwf.
  destruct (load_pure_fields _ _ _ Hl) as (row & _ & Hid & _).
  destruct Hwf as (Hq & _ & _ & _ & Hne & _ & Hmax & _ & Hvs & _). rewrite Hid in Hq.
  assert (0 < length (qr_sources record) <= maxQueueSources) as Hlen
    by (destruct (qr_sources record); simpl in *; [done|lia]).
  destruct Hallow as (rcpt & Hr & Hall).
  destruct (resolves_total (w_db w) (qr_sources record)) as [g Hg].
  { intros s Hs. destruct (Hall s Hs) as (dm & ? & _). by exists dm. }
  set (dec := Evaluate {| rq_stage := StageTransport; rq_queue_id := qr_queue_id record;
                          rq_recipient := recipient; rq_governing := g |}).
  assert (d_action dec = ActionOK) as Hok.
  { eapply (Evaluate_allowed (w_db w)); [done|done|done|right; split; [done|by rewrite Hid]|].
    by exists rcpt. }
  destruct (loadQueueRecord_reliable (er_queue_id req) w Hw) as (w1 & E1 & Hw1 & D1 & _).
  rewrite Hl in E1.
  destruct (resolvePolicySources_reliable (qr_sources record) w1 g Hw1 Hlen)
    as (w2 & E2 & Hw2 & D2 & _); [by apply forallb_valid|by rewrite D1|].
  exists dec, w2. split_and!; [|done|congruence].
  unfold Decide, fail_closed. rewrite (bind_step _ _ w tt w) by (by rewrite Hcid).
  rewrite H1. assert ((StageTransport =?s StageSubmission) = false) as -> by done.
  unfold decide_transport.
  rewrite (bind_step _ _ w tt w) by (by rewrite H1, H2, H3, H4, H5).
  rewrite (bind_step _ _ w record w1).
  2: { unfold Load. by rewrite (bind_step _ _ w tt w) by (by rewrite Hq). }
  rewrite (bind_step _ _ w1 recipient w1).
  2: { apply liftM_ok. split; [|done]. rewrite Hn.
       by rewrite (proj2 (sortedStringContains_lemma _ recipient
         (loaded_recipients_sorted _ _ _ Hl)) Hin). }
  rewrite (bind_step _ _ _ _ _ E2). cbv zeta. fold dec. rewrite Hok. done.
Qed.
End Complete.
