(* ===== verification/Backup.v ===== *)
(** * Backup of the outbound policy (internal/outboundpolicy/backup.go)

    [CaptureBackupState] reads the policy tables and the queue provenance in
    one read-only transaction; [RestoreBackupState] writes them into an empty
    database inside the caller's transaction; [VerifyBackupState] compares a
    database with a backup.  A SELECT is the list of the columns it asks for,
    in its order; columns of type uuid are compared bytewise. *)

From stdpp Require Import base list gmap sets strings sorting.
From Stdlib Require Import ZArith Lia Ascii.
From S2P Require Import Prelude GoStd Json Sha256 Policy Queue AuditLog Database QueueStore Sources Admission HoldMachine Reconcile Decision.

Definition maxOutboundBackupObjects : N := 100000.

Record BackupDomain := {
  bd_id : string; bd_name : string; bd_enabled : bool; bd_scope : string; bd_revision : N;
}.
Record BackupMailbox := {
  bm_id : string; bm_domain_id : string; bm_local_part : string; bm_enabled : bool;
  bm_verifier : string; bm_quota_bytes : Z;
}.
Record BackupAlias := {
  ba_id : string; ba_domain_id : string; ba_local_part : string; ba_enabled : bool;
  ba_targets : list string;
}.
Record BackupState := {
  bk_domains : list BackupDomain; bk_mailboxes : list BackupMailbox; bk_aliases : list BackupAlias;
  bk_system_senders : list SystemSenderBinding; bk_queues : list QueueRecord;
}.

(** [COALESCE(verifier,'')], [COALESCE(quota_bytes,0)] and back. *)
Definition nullBackupString (value : string) : option string := if value =?s "" then None else Some value.
Definition nullBackupInt64 (value : Z) : option Z := if (value =? 0)%Z then None else Some value.

Definition nul : ascii := "000".
Definition validBackupLocalPart (value : string) : bool :=
  negb ((value =?s "") || (64 <? len value) || (TrimSpace value <>?s value)
        || Contains value "@" || Contains value (String "013" "") || Contains value (String "010" "")
        || Contains value (String nul "")).

Section Backup.
Context `{HOST : !Host}.

(** ** What is read of a row *)

Definition mailbox_columns (m : MailboxRow) : string * string * bool * string * Z :=
  (mb_domain_id m, mb_local_part m, mb_enabled m, default "" (mb_verifier m), default 0%Z (mb_quota_bytes m)).
(** The targets are decoded from their text by the row loop. *)
Definition alias_columns (a : AliasRow) : string * string * bool * option (list string) :=
  (al_domain_id a, al_local_part a, al_enabled a, json_strings (al_targets_json a)).

(** ORDER BY two or three columns. *)
Definition then_by (le1 : bool) (same : bool) (le2 : bool) : bool := le1 && (negb same || le2).
Definition domain_le (p q : string * DomainRow) : Prop :=
  Is_true (then_by (sql_leb (dm_name p.2) (dm_name q.2)) (dm_name p.2 =?s dm_name q.2) (String.leb p.1 q.1)).
Definition owned_le {A} (p q : string * (string * string * A)) : Prop :=
  let '(id1, (dom1, local1, _)) := p in
  let '(id2, (dom2, local2, _)) := q in
  Is_true (then_by (String.leb dom1 dom2) (dom1 =?s dom2)
    (then_by (sql_leb local1 local2) (local1 =?s local2) (String.leb id1 id2))).
Definition text_key_le {A} (p q : string * A) : Prop := Is_true (sql_leb p.1 q.1).

#[local] Instance domain_le_dec : RelDecision domain_le.
Proof. intros p q. unfold domain_le. apply _. Defined.
#[local] Instance owned_le_dec {A} : RelDecision (owned_le (A := A)).
Proof. intros [? [[? ?] ?]] [? [[? ?] ?]]. unfold owned_le. apply _. Defined.
#[local] Instance text_key_le_dec {A} : RelDecision (text_key_le (A := A)).
Proof. intros p q. unfold text_key_le. apply _. Defined.

Definition flat_mailbox (m : MailboxRow) : string * string * (bool * string * Z) :=
  let '(dom, local, enabled, verifier, quota) := mailbox_columns m in (dom, local, (enabled, verifier, quota)).
Definition flat_alias (a : AliasRow) : string * string * (bool * option (list string)) :=
  let '(dom, local, enabled, targets) := alias_columns a in (dom, local, (enabled, targets)).

Definition select_domains (d : DB) : list (string * DomainRow) :=
  merge_sort domain_le (map_to_list (db_domains d)).
Definition select_mailboxes (d : DB) : list (string * (string * string * (bool * string * Z))) :=
  merge_sort owned_le (map_to_list (flat_mailbox <$> db_mailboxes d)).
Definition select_aliases (d : DB) : list (string * (string * string * (bool * option (list string)))) :=
  merge_sort owned_le (map_to_list (flat_alias <$> db_aliases d)).
Definition select_senders (d : DB) : list (string * SenderRow) :=
  merge_sort text_key_le (map_to_list (db_senders d)).
Definition select_queue_ids (d : DB) : list string :=
  map fst (merge_sort text_key_le (map_to_list ((fun _ => tt) <$> db_queues d))).

(** ** Capture *)

(** A row loop; [n] rows are already read. *)
Fixpoint capture_rows {R A} (limit_error : string) (scan : R -> result A) (n : N) (rows : list R)
    : result (list A) :=
  match rows with
  | [] => Ok []
  | row :: rows =>
      if (maxOutboundBackupObjects <=? n)%N then Err limit_error else
      let! a := scan row in
      let! rest := capture_rows limit_error scan (n + 1)%N rows in
      Ok (a :: rest)
  end.

Definition scan_domain (p : string * DomainRow) : result BackupDomain :=
  if (dm_revision p.2 <=? 0)%Z then Err "invalid outbound backup domain revision" else
  Ok {| bd_id := p.1; bd_name := dm_name p.2; bd_enabled := dm_enabled p.2; bd_scope := dm_scope p.2;
        bd_revision := Z.to_N (dm_revision p.2) |}.
Definition scan_mailbox (p : string * (string * string * (bool * string * Z))) : result BackupMailbox :=
  let '(id, (dom, local, (enabled, verifier, quota))) := p in
  Ok {| bm_id := id; bm_domain_id := dom; bm_local_part := local; bm_enabled := enabled;
        bm_verifier := verifier; bm_quota_bytes := quota |}.
Definition scan_alias (p : string * (string * string * (bool * option (list string)))) : result BackupAlias :=
  let '(id, (dom, local, (enabled, targets))) := p in
  match targets with
  | Some targets => Ok {| ba_id := id; ba_domain_id := dom; ba_local_part := local; ba_enabled := enabled;
                          ba_targets := targets |}
  | None => Err "invalid outbound backup alias targets"
  end.
Definition scan_sender (p : string * SenderRow) : result SystemSenderBinding :=
  if (sy_revision p.2 <=? 0)%Z then Err "invalid outbound backup system-sender revision" else
  Ok {| sb_id := p.1; sb_domain_id := sy_domain_id p.2; sb_address := sy_address p.2;
        sb_enabled := sy_enabled p.2; sb_revision := Z.to_N (sy_revision p.2) |}.

Definition capture_domains := capture_rows "outbound backup domain limit exceeded" scan_domain 0.
Definition capture_mailboxes := capture_rows "outbound backup mailbox limit exceeded" scan_mailbox 0.
Definition capture_aliases := capture_rows "outbound backup alias limit exceeded" scan_alias 0.
Definition capture_senders := capture_rows "outbound backup system-sender limit exceeded" scan_sender 0.
Definition capture_queue_ids := capture_rows "outbound backup queue limit exceeded" (fun id : string => Ok id) 0.

Context {PS : Type}.

Fixpoint load_each (ids : list string) : M PS (list QueueRecord) :=
  match ids with
  | [] => mret []
  | id :: ids => record ← loadQueueRecord id; rest ← load_each ids; mret (record :: rest)
  end.

Definition CaptureBackupState : M PS BackupState := transaction (
  rows ← queryM (fun d => Ok (select_domains d)); domains ← liftM (capture_domains rows);
  rows ← queryM (fun d => Ok (select_mailboxes d)); mailboxes ← liftM (capture_mailboxes rows);
  rows ← queryM (fun d => Ok (select_aliases d)); aliases ← liftM (capture_aliases rows);
  rows ← queryM (fun d => Ok (select_senders d)); senders ← liftM (capture_senders rows);
  rows ← queryM (fun d => Ok (select_queue_ids d)); ids ← liftM (capture_queue_ids rows);
  queues ← load_each ids;
  mret (true, {| bk_domains := domains; bk_mailboxes := mailboxes; bk_aliases := aliases;
                 bk_system_senders := senders; bk_queues := queues |})).

(** ** Statements of a restore *)

Definition duplicate_key : string := "duplicate key value violates unique constraint".
Definition foreign_key : string := "insert or update violates foreign key constraint".

Definition insert_domain (id : string) (r : DomainRow) (d : DB) : result (unit * DB) :=
  if negb (domain_row_check r) then Err "check constraint violated" else
  if bool_decide (is_Some (db_domains d !! id))
     || existsb (fun p => dm_name p.2 =?s dm_name r) (map_to_list (db_domains d))
  then Err duplicate_key else Ok (tt, with_domains (<[id := r]>) d).

Definition insert_mailbox (id : string) (r : MailboxRow) (d : DB) : result (unit * DB) :=
  if bool_decide (is_Some (db_mailboxes d !! id))
     || existsb (fun p => (mb_domain_id p.2 =?s mb_domain_id r) && (mb_local_part p.2 =?s mb_local_part r))
          (map_to_list (db_mailboxes d))
  then Err duplicate_key else
  if bool_decide (db_domains d !! mb_domain_id r = None) then Err foreign_key
  else Ok (tt, with_mailboxes (<[id := r]>) d).

Definition insert_alias (id : string) (r : AliasRow) (d : DB) : result (unit * DB) :=
  if bool_decide (is_Some (db_aliases d !! id))
     || existsb (fun p => (al_domain_id p.2 =?s al_domain_id r) && (al_local_part p.2 =?s al_local_part r))
          (map_to_list (db_aliases d))
  then Err duplicate_key else
  if bool_decide (db_domains d !! al_domain_id r = None) then Err foreign_key
  else Ok (tt, with_aliases (<[id := r]>) d).

Definition insert_sender_row (id : string) (r : SenderRow) (d : DB) : result (unit * DB) :=
  if negb ((0 <? sy_revision r)%Z && (sy_revision r <? 2 ^ 63)%Z) then Err "check constraint violated" else
  if bool_decide (is_Some (db_senders d !! id))
     || existsb (fun p => sy_address p.2 =?s sy_address r) (map_to_list (db_senders d))
  then Err duplicate_key else
  if bool_decide (db_domains d !! sy_domain_id r = None) then Err foreign_key
  else Ok (tt, with_senders (<[id := r]>) d).

Definition insert_queue_row (id : string) (r : QueueRow) (d : DB) : result (unit * DB) :=
  if negb (queue_row_check r) then Err "check constraint violated" else
  match db_queues d !! id with
  | Some _ => Err duplicate_key
  | None => Ok (tt, with_queues (<[id := r]>) d)
  end.

(** ** Restore *)

Definition domain_row (row : BackupDomain) : DomainRow :=
  {| dm_name := bd_name row; dm_enabled := bd_enabled row; dm_scope := bd_scope row;
     dm_revision := Z.of_N (bd_revision row) |}.
Definition backup_mailbox_row (now : Z) (row : BackupMailbox) : MailboxRow :=
  {| mb_domain_id := bm_domain_id row; mb_local_part := bm_local_part row; mb_enabled := bm_enabled row;
     mb_verifier := nullBackupString (bm_verifier row); mb_quota_bytes := nullBackupInt64 (bm_quota_bytes row);
     mb_display_name := None; mb_scim_resource_id := None; mb_created_at := now; mb_updated_at := now |}.
Definition alias_row (row : BackupAlias) : AliasRow :=
  {| al_domain_id := ba_domain_id row; al_local_part := ba_local_part row; al_enabled := ba_enabled row;
     al_targets_json := json_of_strings (ba_targets row) |}.
Definition sender_row (row : SystemSenderBinding) : SenderRow :=
  {| sy_domain_id := sb_domain_id row; sy_address := sb_address row; sy_enabled := sb_enabled row;
     sy_revision := Z.of_N (sb_revision row) |}.
Definition backup_queue_row (record : QueueRecord) : QueueRow :=
  {| qw_arrival_fingerprint := qr_arrival_fingerprint record; qw_envelope_sender := qr_envelope_sender record;
     qw_recipient_set_digest := qr_recipient_set_digest record;
     qw_source_set_digest := qr_source_set_digest record; qw_hold_state := qr_hold_state record;
     qw_policy_reason := nullBackupString (qr_policy_reason record);
     qw_revisions := encode_revisions (qr_policy_revisions record);
     qw_attempts := Z.of_N (qr_reconciliation_attempts record);
     qw_last_error_code := nullBackupString (qr_last_error_code record);
     qw_first_seen_at := qr_first_seen_at record; qw_updated_at := qr_updated_at record |}.

Definition object_key (kind id : string) : string := kind +:+ String nul id.

(** [address, _, err := normalizeQueueRecipient(a)] with [address == a]. *)
Definition is_canonical (address : string) : bool :=
  match normalizeQueueRecipient address with Ok (canonical, _) => canonical =?s address | Err _ => false end.

Definition valid_backup_domain (row : BackupDomain) : bool :=
  match NormalizeDomain (bd_name row) with Ok canonical => canonical =?s bd_name row | Err _ => false end
  && validScope (bd_scope row) && negb (bd_revision row =? 0)%N && validQueueObjectID (bd_id row).

Fixpoint restore_domains (rows : list BackupDomain) (domains : gmap string BackupDomain)
    : M PS (gmap string BackupDomain) :=
  match rows with
  | [] => mret domains
  | row :: rows =>
      guardM (negb (valid_backup_domain row)) "invalid outbound backup domain";;
      guardM (bool_decide (is_Some (domains !! bd_id row))) "duplicate outbound backup domain";;
      execM (insert_domain (bd_id row) (domain_row row));;
      restore_domains rows (<[bd_id row := row]> domains)
  end.

(** The object belongs to a restored domain and has a canonical address. *)
Definition owned (domains : gmap string BackupDomain) (domainID local : string) : bool :=
  match domains !! domainID with
  | Some domain => is_canonical (local +:+ "@" +:+ bd_name domain)
  | None => false
  end.

Fixpoint restore_mailboxes (now : Z) (domains : gmap string BackupDomain) (rows : list BackupMailbox)
    (objects : gset string) : M PS (gset string) :=
  match rows with
  | [] => mret objects
  | row :: rows =>
      guardM (negb (owned domains (bm_domain_id row) (bm_local_part row)) || negb (validQueueObjectID (bm_id row))
              || negb (validBackupLocalPart (bm_local_part row)) || (bm_quota_bytes row <? 0)%Z)
        "invalid outbound backup mailbox";;
      execM (insert_mailbox (bm_id row) (backup_mailbox_row now row));;
      restore_mailboxes now domains rows
        ({[ object_key SourceAuthenticatedMailbox (bm_id row); object_key SourceEnvelopeSender (bm_id row) ]} ∪ objects)
  end.

Fixpoint restore_aliases (domains : gmap string BackupDomain) (rows : list BackupAlias) (objects : gset string)
    : M PS (gset string) :=
  match rows with
  | [] => mret objects
  | row :: rows =>
      guardM (negb (owned domains (ba_domain_id row) (ba_local_part row)) || negb (validQueueObjectID (ba_id row))
              || negb (validBackupLocalPart (ba_local_part row)) || (length (ba_targets row) =? 0)
              || (maxQueueRecipients <? N.of_nat (length (ba_targets row)))%N)
        "invalid outbound backup alias";;
      guardM (negb (forallb (fun target => is_ok (normalizeQueueRecipient target)) (ba_targets row)))
        "invalid outbound backup alias target";;
      execM (insert_alias (ba_id row) (alias_row row));;
      restore_aliases domains rows
        ({[ object_key SourceAlias (ba_id row); object_key SourceForward (ba_id row);
            object_key SourceList (ba_id row); object_key SourceCatchAll (ba_id row) ]} ∪ objects)
  end.

Fixpoint restore_senders (domains : gmap string BackupDomain) (rows : list SystemSenderBinding)
    (objects : gset string) : M PS (gset string) :=
  match rows with
  | [] => mret objects
  | row :: rows =>
      guardM (bool_decide (domains !! sb_domain_id row = None) || negb (is_canonical (sb_address row))
              || negb (validQueueObjectID (sb_id row)) || (sb_revision row =? 0)%N)
        "invalid outbound backup system sender";;
      execM (insert_sender_row (sb_id row) (sender_row row));;
      restore_senders domains rows ({[ object_key SourceSystemSender (sb_id row) ]} ∪ objects)
  end.

Definition backup_registration (record : QueueRecord) : QueueRegistration :=
  {| rg_queue_id := qr_queue_id record; rg_arrival_fingerprint := qr_arrival_fingerprint record;
     rg_envelope_sender := qr_envelope_sender record; rg_recipients := qr_recipients record;
     rg_sources := qr_sources record |}.

Definition valid_backup_queue (record : QueueRecord) : bool :=
  match normalizeQueueRegistration (backup_registration record) with
  | Err _ => false
  | Ok normalized =>
      sameQueueIdentity record normalized && validHoldState (qr_hold_state record)
      && (qr_reconciliation_attempts record <? 2 ^ 63)%N
      && validQueuePolicyState (qr_hold_state record) (qr_policy_reason record <>?s "") (qr_policy_reason record)
           (qr_policy_revisions record)
      && negb (qr_first_seen_at record =? 0)%Z && negb (qr_updated_at record <? qr_first_seen_at record)%Z
      && ((qr_last_error_code record =?s "") || validQueueErrorCode (qr_last_error_code record))
  end.

Definition recipient_domain_of (recipient : string) : string :=
  match normalizeQueueRecipient recipient with Ok p => p.2 | Err _ => "" end.

Fixpoint restore_recipients (queueID : string) (recipients : list string) : M PS unit :=
  match recipients with
  | [] => mret tt
  | recipient :: recipients =>
      execM (copy_recipients queueID [(recipient, recipient_domain_of recipient)]);;
      restore_recipients queueID recipients
  end.
Fixpoint restore_sources (queueID : string) (sources : list QueueSource) : M PS unit :=
  match sources with
  | [] => mret tt
  | source :: sources => execM (copy_sources queueID [source]);; restore_sources queueID sources
  end.

Definition restoreBackupQueue (record : QueueRecord) (objects : gset string) : M PS unit :=
  guardM (negb (valid_backup_queue record)) "invalid outbound backup queue";;
  guardM (negb (forallb (fun source => bool_decide (object_key (qs_kind source) (qs_object_id source) ∈ objects))
                  (qr_sources record))) "outbound backup queue source is missing";;
  execM (insert_queue_row (qr_queue_id record) (backup_queue_row record));;
  restore_recipients (qr_queue_id record) (qr_recipients record);;
  restore_sources (qr_queue_id record) (qr_sources record).

Fixpoint restore_queues (records : list QueueRecord) (objects : gset string) : M PS unit :=
  match records with
  | [] => mret tt
  | record :: records => restoreBackupQueue record objects;; restore_queues records objects
  end.

Definition over_limit {A} (l : list A) : bool := (maxOutboundBackupObjects <? N.of_nat (length l))%N.

Definition RestoreBackupState (state : BackupState) (now : Z) : M PS unit :=
  guardM ((length (bk_domains state) =? 0) || over_limit (bk_domains state) || over_limit (bk_mailboxes state)
          || over_limit (bk_aliases state) || over_limit (bk_system_senders state) || over_limit (bk_queues state))
    "invalid outbound backup state";;
  domains ← restore_domains (bk_domains state) ∅;
  objects ← restore_mailboxes now domains (bk_mailboxes state) ∅;
  objects ← restore_aliases domains (bk_aliases state) objects;
  objects ← restore_senders domains (bk_system_senders state) objects;
  restore_queues (bk_queues state) objects.

(** ** Verification *)

Definition no_rows : string := "sql: no rows in result set".

(** [if err := ...; err != nil || mismatch { return errors.New(text) }] *)
Definition matching {A} (text : string) (read : M PS A) (same : A -> bool) : M PS unit :=
  r ← tryM read;
  guardM (match r with Ok a => negb (same a) | Err _ => true end) text.

Definition select_domain_named (id name : string) (d : DB) : result DomainRow :=
  match db_domains d !! id with
  | Some r => if dm_name r =?s name then Ok r else Err no_rows
  | None => Err no_rows
  end.
Definition select_mailbox_exact (row : BackupMailbox) (d : DB) : result (string * Z) :=
  match flat_mailbox <$> db_mailboxes d !! bm_id row with
  | Some (dom, local, (enabled, verifier, quota)) =>
      if (dom =?s bm_domain_id row) && (local =?s bm_local_part row) && Bool.eqb enabled (bm_enabled row)
      then Ok (verifier, quota) else Err no_rows
  | None => Err no_rows
  end.
(** The targets are decoded after the row is found. *)
Definition select_alias_exact (row : BackupAlias) (d : DB) : result (option (list string)) :=
  match flat_alias <$> db_aliases d !! ba_id row with
  | Some (dom, local, (enabled, targets)) =>
      if (dom =?s ba_domain_id row) && (local =?s ba_local_part row) && Bool.eqb enabled (ba_enabled row)
      then Ok targets else Err no_rows
  | None => Err no_rows
  end.

Definition same_domain (expected : BackupDomain) (r : DomainRow) : bool :=
  Bool.eqb (dm_enabled r) (bd_enabled expected) && (dm_scope r =?s bd_scope expected)
  && (dm_revision r =? Z.of_N (bd_revision expected))%Z.
Definition same_sender (expected : SystemSenderBinding) (r : SenderRow) : bool :=
  (sy_domain_id r =?s sb_domain_id expected) && (sy_address r =?s sb_address expected)
  && Bool.eqb (sy_enabled r) (sb_enabled expected) && (sy_revision r =? Z.of_N (sb_revision expected))%Z.
Definition same_targets (expected : BackupAlias) (targets : option (list string)) : bool :=
  match targets with
  | Some targets => digestStrings targets =?s digestStrings (ba_targets expected)
  | None => false
  end.
Definition same_queue (expected restored : QueueRecord) : bool :=
  sameQueueIdentity restored expected && (qr_hold_state restored =?s qr_hold_state expected)
  && (qr_reconciliation_attempts restored =? qr_reconciliation_attempts expected)%N
  && (qr_last_error_code restored =?s qr_last_error_code expected)
  && (qr_policy_reason restored =?s qr_policy_reason expected)
  && revisionMapsEqual (qr_policy_revisions restored) (qr_policy_revisions expected).

Definition verify_domain (expected : BackupDomain) : M PS unit :=
  matching "restored outbound domain policy mismatch"
    (queryM (select_domain_named (bd_id expected) (bd_name expected))) (same_domain expected).
Definition verify_mailbox (expected : BackupMailbox) : M PS unit :=
  matching "restored outbound mailbox authority mismatch" (queryM (select_mailbox_exact expected))
    (fun r => (r.1 =?s bm_verifier expected) && (r.2 =? bm_quota_bytes expected)%Z).
Definition verify_alias (expected : BackupAlias) : M PS unit :=
  r ← tryM (queryM (select_alias_exact expected));
  match r with
  | Err _ => failM "restored outbound alias authority mismatch"
  | Ok targets => guardM (negb (same_targets expected targets)) "restored outbound alias target mismatch"
  end.
Definition verify_sender (expected : SystemSenderBinding) : M PS unit :=
  matching "restored outbound system-sender mismatch" (queryM (select_sender (sb_id expected)))
    (same_sender expected).
Definition verify_queue (expected : QueueRecord) : M PS unit :=
  r ← tryM (Load (qr_queue_id expected));
  match r with
  | Err _ => failM "restored outbound queue state mismatch"
  | Ok restored =>
      guardM (negb (same_queue expected restored)) "restored outbound queue state mismatch";;
      matching "restored outbound queue authority is invalid" (resolvePolicySources (qr_sources restored))
        (fun _ => true)
  end.

Fixpoint verify_each {A} (verify : A -> M PS unit) (l : list A) : M PS unit :=
  match l with
  | [] => mret tt
  | a :: l => verify a;; verify_each verify l
  end.

Definition VerifyBackupState (state : BackupState) : M PS unit :=
  verify_each verify_domain (bk_domains state);;
  verify_each verify_mailbox (bk_mailboxes state);;
  verify_each verify_alias (bk_aliases state);;
  verify_each verify_sender (bk_system_senders state);;
  verify_each verify_queue (bk_queues state).
End Backup.

(** * What a backup keeps *)

Section BackupFacts.
Context `{HOST : !Host} {PS : Type}.
Implicit Types (w : World PS) (d : DB).

(** ** Capture reads the policy of a database *)

Definition queue_columns (r : QueueRow) :=
  (qw_arrival_fingerprint r, qw_envelope_sender r, qw_recipient_set_digest r, qw_source_set_digest r,
   qw_hold_state r, qw_policy_reason r, decode_revisions (qw_revisions r), qw_attempts r, qw_last_error_code r,
   qw_first_seen_at r, qw_updated_at r).

(** Two databases with the same policy: the same identifiers and columns,
    whatever the times and display names, and the same provenance of every
    message. *)
Record same_policy d d' : Prop := {
  sp_domains : db_domains d = db_domains d';
  sp_mailboxes : flat_mailbox <$> db_mailboxes d = flat_mailbox <$> db_mailboxes d';
  sp_aliases : flat_alias <$> db_aliases d = flat_alias <$> db_aliases d';
  sp_senders : db_senders d = db_senders d';
  sp_queues : queue_columns <$> db_queues d = queue_columns <$> db_queues d';
  sp_recipients : forall id, is_Some (db_queues d !! id) ->
    default ∅ (db_recipients d !! id) = default ∅ (db_recipients d' !! id);
  sp_sources : forall id, is_Some (db_queues d !! id) ->
    default ∅ (db_sources d !! id) = default ∅ (db_sources d' !! id);
}.

Lemma same_queues d d' id : queue_columns <$> db_queues d = queue_columns <$> db_queues d' ->
  is_Some (db_queues d !! id) <-> is_Some (db_queues d' !! id).
Proof.
  intros H. apply (f_equal (fun m => m !! id)) in H. rewrite !lookup_fmap in H.
  destruct (db_queues d !! id), (db_queues d' !! id); try done; by split; intros [? ?].
Qed.

#[export] Instance same_policy_equiv : Equivalence same_policy.
Proof.
  split.
  - intros d. by split.
  - intros d d' []. split; try (by symmetry); intros id Hid; symmetry;
      [apply sp_recipients0|apply sp_sources0]; by apply (same_queues d d').
  - intros d1 d2 d3 [] []. split; try (by etrans); intros id Hid.
    + etrans; [by apply sp_recipients0|]. apply sp_recipients1. by apply (same_queues d1 d2).
    + etrans; [by apply sp_sources0|]. apply sp_sources1. by apply (same_queues d1 d2).
Qed.

Lemma load_parent_columns id r r' : queue_columns r = queue_columns r' -> load_parent id r = load_parent id r'.
Proof.
  unfold queue_columns. intros [= E1 E2 E3 E4 E5 E6 E7 E8 E9 E10 E11]. unfold load_parent.
  by rewrite E1, E2, E3, E4, E5, E6, E7, E8, E9, E10, E11.
Qed.

#[export] Instance load_pure_proper id : Proper (same_policy ==> eq) (load_pure id).
Proof.
  intros d d' [_ _ _ _ Hq Hr Hs]. unfold load_pure, select_queue, select_recipients, select_sources.
  pose proof (f_equal (fun m => m !! id) Hq) as H. cbv beta in H. rewrite !lookup_fmap in H.
  destruct (db_queues d !! id) as [r|] eqn:E, (db_queues d' !! id) as [r'|]; try done.
  injection H as H. cbn [rbind]. rewrite Hr, Hs by (rewrite E; by eexists).
  rewrite (load_parent_columns id r r'); [done|]. unfold queue_columns. congruence.
Qed.

(** The backup of a database. *)
Definition capture_pure d : result BackupState :=
  let! domains := capture_domains (select_domains d) in
  let! mailboxes := capture_mailboxes (select_mailboxes d) in
  let! aliases := capture_aliases (select_aliases d) in
  let! senders := capture_senders (select_senders d) in
  let! ids := capture_queue_ids (select_queue_ids d) in
  let! queues := rmap (fun id => load_pure id d) ids in
  Ok {| bk_domains := domains; bk_mailboxes := mailboxes; bk_aliases := aliases;
        bk_system_senders := senders; bk_queues := queues |}.

#[export] Instance select_queue_ids_proper : Proper (same_policy ==> eq) select_queue_ids.
Proof.
  intros d d' [_ _ _ _ Hq _ _]. unfold select_queue_ids.
  assert ((fun _ => tt) <$> db_queues d = (fun _ => tt) <$> db_queues d') as ->; [|done].
  apply (f_equal (fmap (fun _ => tt))) in Hq. by rewrite <- !map_fmap_compose in Hq.
Qed.

Lemma rmap_ext {A B} (f g : A -> result B) l : (forall a, f a = g a) -> rmap f l = rmap g l.
Proof. intros H. induction l as [|a l IH]; cbn [rmap]; [done|]. by rewrite H, IH. Qed.

(** A backup depends on the policy only. *)
#[export] Instance capture_proper : Proper (same_policy ==> eq) capture_pure.
Proof.
  intros d d' H. pose proof H as [Hd Hm Ha Hs _ _ _]. unfold capture_pure, select_domains, select_mailboxes, select_aliases, select_senders.
  rewrite Hd, Hm, Ha, Hs, (select_queue_ids_proper _ _ H). destruct (capture_domains _); [|done]. cbn [rbind].
  destruct (capture_mailboxes _); [|done]. cbn [rbind]. destruct (capture_aliases _); [|done]. cbn [rbind].
  destruct (capture_senders _); [|done]. cbn [rbind]. destruct (capture_queue_ids _) as [ids|]; [|done]. cbn [rbind].
  rewrite (rmap_ext _ (fun id => load_pure id d')); [done|]. intros id. exact (load_pure_proper id _ _ H).
Qed.

Lemma load_each_ok ids w l w' : load_each ids w = (Ok l, w') ->
  rmap (fun id => load_pure id (w_db w)) ids = Ok l /\ w_db w' = w_db w.
Proof.
  revert w l w'. induction ids as [|id ids IH]; intros w l w'; cbn [load_each rmap]; [by intros [= <- <-]|].
  intros H. apply bind_ok in H as (q & w1 & (Hq & D1 & _)%loadQueueRecord_ok & H).
  apply bind_ok in H as (rest & w2 & (Hr & D2)%IH & [= <- <-]). rewrite D1 in Hr. rewrite Hq. cbn [rbind].
  rewrite Hr. split; [done|congruence].
Qed.

Lemma load_each_reliable ids w l : reliable w -> rmap (fun id => load_pure id (w_db w)) ids = Ok l ->
  exists w', load_each ids w = (Ok l, w') /\ reliable w' /\ w_db w' = w_db w.
Proof.
  revert w l. induction ids as [|id ids IH]; intros w l Hw; cbn [load_each rmap]; [by intros [= <-]; exists w|].
  intros (q & Hq & H)%rbind_ok. apply rbind_ok in H as (rest & Hr & [= <-]).
  destruct (loadQueueRecord_reliable id w Hw) as (w1 & E1 & Hw1 & D1 & _). rewrite Hq in E1.
  rewrite (bind_step _ _ _ _ _ E1). destruct (IH w1 rest Hw1) as (w2 & E2 & Hw2 & D2); [by rewrite D1|].
  rewrite (bind_step _ _ _ _ _ E2). exists w2. split_and!; [done..|congruence].
Qed.

Lemma capture_ok w s w' : CaptureBackupState w = (Ok s, w') -> capture_pure (w_db w) = Ok s /\ w_db w' = w_db w.
Proof.
  intros (w0 & c & w1 & H & D0 & _ & _ & D1)%transaction_ok.
  apply bind_ok in H as (r1 & u1 & (Q1 & E1 & _)%queryM_ok & H). apply bind_ok in H as (a1 & v1 & [S1 ->]%liftM_ok & H).
  apply bind_ok in H as (r2 & u2 & (Q2 & E2 & _)%queryM_ok & H). apply bind_ok in H as (a2 & v2 & [S2 ->]%liftM_ok & H).
  apply bind_ok in H as (r3 & u3 & (Q3 & E3 & _)%queryM_ok & H). apply bind_ok in H as (a3 & v3 & [S3 ->]%liftM_ok & H).
  apply bind_ok in H as (r4 & u4 & (Q4 & E4 & _)%queryM_ok & H). apply bind_ok in H as (a4 & v4 & [S4 ->]%liftM_ok & H).
  apply bind_ok in H as (r5 & u5 & (Q5 & E5 & _)%queryM_ok & H). apply bind_ok in H as (a5 & v5 & [S5 ->]%liftM_ok & H).
  apply bind_ok in H as (qs & u6 & (L & E6)%load_each_ok & [= <- <- <-]).
  rewrite E5, E4, E3, E2, E1, D0 in *. injection Q1 as <-. injection Q2 as <-. injection Q3 as <-.
  injection Q4 as <-. injection Q5 as <-. unfold capture_pure.
  rewrite S1. cbn [rbind]. rewrite S2. cbn [rbind]. rewrite S3. cbn [rbind]. rewrite S4. cbn [rbind].
  rewrite S5. cbn [rbind]. rewrite L. split; [done|congruence].
Qed.

Lemma query_reliable {A} (q : DB -> A) w : reliable w ->
  exists w', queryM (fun d => Ok (q d)) w = (Ok (q (w_db w)), w') /\ reliable w' /\ w_db w' = w_db w.
Proof.
  intros (w1 & E & Hw & D & _)%(queryM_reliable (fun d => Ok (q d))). by exists w1.
Qed.

Lemma capture_reliable w s : reliable w -> capture_pure (w_db w) = Ok s ->
  exists w', CaptureBackupState w = (Ok s, w') /\ reliable w' /\ w_db w' = w_db w.
Proof.
  intros Hw H. apply (transaction_reliable _ _ _ (w_db w)); [done|]. intros u Hu Du _ _ _.
  unfold capture_pure in H. rewrite <- Du in *.
  apply rbind_ok in H as (a1 & S1 & H). apply rbind_ok in H as (a2 & S2 & H). apply rbind_ok in H as (a3 & S3 & H).
  apply rbind_ok in H as (a4 & S4 & H). apply rbind_ok in H as (a5 & S5 & H). apply rbind_ok in H as (qs & L & [= <-]).
  destruct (query_reliable select_domains u Hu) as (u1 & E1 & H1 & D1). rewrite (bind_step _ _ _ _ _ E1).
  rewrite (bind_step _ _ u1 a1 u1) by (by rewrite S1).
  destruct (query_reliable select_mailboxes u1 H1) as (u2 & E2 & H2 & D2). rewrite (bind_step _ _ _ _ _ E2), D1.
  rewrite (bind_step _ _ u2 a2 u2) by (by rewrite S2).
  destruct (query_reliable select_aliases u2 H2) as (u3 & E3 & H3 & D3). rewrite (bind_step _ _ _ _ _ E3), D2, D1.
  rewrite (bind_step _ _ u3 a3 u3) by (by rewrite S3).
  destruct (query_reliable select_senders u3 H3) as (u4 & E4 & H4 & D4). rewrite (bind_step _ _ _ _ _ E4), D3, D2, D1.
  rewrite (bind_step _ _ u4 a4 u4) by (by rewrite S4).
  destruct (query_reliable select_queue_ids u4 H4) as (u5 & E5 & H5 & D5). rewrite (bind_step _ _ _ _ _ E5), D4, D3, D2, D1.
  rewrite (bind_step _ _ u5 a5 u5) by (by rewrite S5).
  assert (w_db u5 = w_db u) as D by congruence.
  destruct (load_each_reliable a5 u5 qs H5) as (u6 & E6 & H6 & D6); [by rewrite D|].
  rewrite (bind_step _ _ _ _ _ E6). exists u6. split_and!; [done..|congruence].
Qed.

(** ** What a backup lists *)

(** [back] undoes the scan of a row. *)
Lemma capture_rows_back {R A} e (scan : R -> result A) (back : A -> R) n rows l :
  (forall r a, scan r = Ok a -> back a = r) -> capture_rows e scan n rows = Ok l -> map back l = rows.
Proof.
  intros Hb. revert n l. induction rows as [|r rows IH]; intros n l; cbn [capture_rows]; [by intros [= <-]|].
  destruct (_ <=? _)%N; [done|]. intros (a & Ha & H)%rbind_ok. apply rbind_ok in H as (rest & Hr & [= <-]).
  simpl. f_equal; [by apply Hb|by apply (IH _ _ Hr)].
Qed.

Lemma nullBackupString_back v : default "" (nullBackupString v) = v.
Proof. unfold nullBackupString. destruct (v =?s "") eqn:E; to_prop; by subst. Qed.
Lemma nullBackupInt64_back v : default 0%Z (nullBackupInt64 v) = v.
Proof. unfold nullBackupInt64. destruct (v =? 0)%Z eqn:E; to_prop; by subst. Qed.
Lemma nullBackupString_default o : o <> Some "" -> nullBackupString (default "" o) = o.
Proof.
  intros H. unfold nullBackupString. destruct o as [v|]; [|done]. simpl.
  destruct (v =?s "") eqn:E; to_prop; by subst.
Qed.

Definition back_domain (b : BackupDomain) : string * DomainRow := (bd_id b, domain_row b).
Definition back_mailbox (now : Z) (b : BackupMailbox) : string * MailboxRow := (bm_id b, backup_mailbox_row now b).
Definition back_alias (b : BackupAlias) : string * AliasRow := (ba_id b, alias_row b).
Definition back_sender (b : SystemSenderBinding) : string * SenderRow := (sb_id b, sender_row b).
Definition back_queue (q : QueueRecord) : string * QueueRow := (qr_queue_id q, backup_queue_row q).

Lemma scan_domain_back p b : scan_domain p = Ok b -> back_domain b = p.
Proof.
  destruct p as [id [nm en sc rev]]. unfold scan_domain. simpl. destruct (rev <=? 0)%Z eqn:E; [done|].
  to_prop. intros [= <-]. unfold back_domain, domain_row. simpl. by rewrite Z2N.id by lia.
Qed.
Lemma scan_sender_back p b : scan_sender p = Ok b -> back_sender b = p.
Proof.
  destruct p as [id [dom ad en rev]]. unfold scan_sender. simpl. destruct (rev <=? 0)%Z eqn:E; [done|].
  to_prop. intros [= <-]. unfold back_sender, sender_row. simpl. by rewrite Z2N.id by lia.
Qed.
Lemma scan_mailbox_back now p b : scan_mailbox p = Ok b -> prod_map id flat_mailbox (back_mailbox now b) = p.
Proof.
  destruct p as [i [[dom lp] [[en vf] qt]]]. unfold scan_mailbox. intros [= <-].
  unfold back_mailbox, flat_mailbox, mailbox_columns, prod_map. simpl.
  by rewrite nullBackupString_back, nullBackupInt64_back.
Qed.
Definition alias_entry (b : BackupAlias) : string * (string * string * (bool * option (list string))) :=
  (ba_id b, (ba_domain_id b, ba_local_part b, (ba_enabled b, Some (ba_targets b)))).
Lemma scan_alias_back p b : scan_alias p = Ok b -> alias_entry b = p.
Proof. destruct p as [i [[dom lp] [en [tg|]]]]; unfold scan_alias; [|done]. by intros [= <-]. Qed.

Lemma captured_domains d l : capture_domains (select_domains d) = Ok l -> map back_domain l ≡ₚ map_to_list (db_domains d).
Proof.
  intros H. rewrite (capture_rows_back _ _ back_domain _ _ _ scan_domain_back H). apply merge_sort_Permutation.
Qed.
Lemma captured_senders d l : capture_senders (select_senders d) = Ok l -> map back_sender l ≡ₚ map_to_list (db_senders d).
Proof.
  intros H. rewrite (capture_rows_back _ _ back_sender _ _ _ scan_sender_back H). apply merge_sort_Permutation.
Qed.
Lemma captured_mailboxes now d l : capture_mailboxes (select_mailboxes d) = Ok l ->
  map (prod_map id flat_mailbox) (map (back_mailbox now) l) ≡ₚ map_to_list (flat_mailbox <$> db_mailboxes d).
Proof.
  intros H. rewrite map_map.
  rewrite (capture_rows_back _ _ (fun b => prod_map id flat_mailbox (back_mailbox now b)) _ _ _ (scan_mailbox_back now) H).
  apply merge_sort_Permutation.
Qed.

(** The targets of the captured aliases survive their encoding. *)
Definition encodable (l : list BackupAlias) : Prop :=
  forall a, a ∈ l -> json_strings (json_of_strings (ba_targets a)) = Some (ba_targets a).

Lemma captured_entries d l : capture_aliases (select_aliases d) = Ok l ->
  map alias_entry l ≡ₚ map_to_list (flat_alias <$> db_aliases d).
Proof.
  intros H. rewrite (capture_rows_back _ _ alias_entry _ _ _ scan_alias_back H). apply merge_sort_Permutation.
Qed.

Lemma captured_aliases d l : capture_aliases (select_aliases d) = Ok l -> encodable l ->
  map (prod_map id flat_alias) (map back_alias l) ≡ₚ map_to_list (flat_alias <$> db_aliases d).
Proof.
  intros H He. rewrite map_map.
  rewrite <- (captured_entries _ _ H).
  apply Permutation_refl'. apply map_ext_in. intros b Hb%list_elem_of_In.
  unfold back_alias, alias_row, alias_entry, flat_alias, alias_columns, prod_map. simpl. by rewrite (He b Hb).
Qed.

(** A queue record and the rows it was loaded from. *)
Lemma decode_fields_bounded l m : decode_fields l = Some m -> forall k r, m !! k = Some r -> (r < 2 ^ 64)%N.
Proof.
  revert m. induction l as [|[k v] l IH]; intros m; simpl; [by intros [= <-] ? ?|].
  destruct (decode_revision v) as [r|] eqn:Er; [|done]. destruct (decode_fields l) as [m'|]; [|done].
  intros [= <-] k' r' [[<- <-]|[_ H]]%lookup_insert_Some; [|by eapply IH].
  destruct v; simpl in Er; try done; [by injection Er as <-|].
  destruct (_ && _) eqn:E; [|done]. injection Er as <-. to_prop. lia.
Qed.

Lemma decode_revisions_again v m : decode_revisions v = Some m -> decode_revisions (encode_revisions m) = Some m.
Proof.
  intros H. apply decode_encode_revisions. destruct v; simpl in H; try done; [by injection H as <-|].
  by apply (decode_fields_bounded _ _ H).
Qed.

#[local] Arguments encode_revisions : simpl never.
#[local] Arguments decode_revisions : simpl never.

Lemma load_parent_columns_back id row q : load_parent id row = Ok q ->
  queue_columns (backup_queue_row q) = queue_columns row.
Proof.
  intros H. pose proof (load_parent_fields _ _ _ H) as (_ & E1 & E2 & E3 & E4 & E5 & E6 & E7 & E8 & E9 & E10 & E11).
  unfold queue_columns, backup_queue_row. simpl. rewrite E1, E2, E3, E4, E5, E6, E8, E9, E10, E11, E7, (decode_revisions_again _ _ E7).
  clear E1 E2 E3 E4 E5 E6 E7 E8 E9 E10 E11. unfold load_parent in H. cbv zeta in H.
  destruct (_ || _) eqn:E1 in H; [done|].
  destruct (match qw_policy_reason row with Some r => _ | None => false end) eqn:E2 in H; [done|].
  destruct (decode_revisions _) as [m|]; [|done]. destruct (_ && _) in H; [done|].
  destruct (negb (validQueuePolicyState _ _ _ _)); [done|].
  destruct (match qw_last_error_code row with Some c => _ | None => false end) eqn:E5 in H; [done|].
  rewrite !nullBackupString_default, Z2N.id; [done|..].
  - to_prop. destruct_and!. lia.
  - intros E. by rewrite E in E5.
  - intros E. by rewrite E in E2.
Qed.

Definition recipient_row (a : string) : string * string := (a, recipient_domain_of a).

Lemma kept_rows rows : Forall stored_recipient rows -> map recipient_row rows.*1 = rows.
Proof.
  induction 1 as [|[a dom] rows Hr _ IH]; [done|]. simpl. f_equal; [|done].
  unfold recipient_row, recipient_domain_of. unfold stored_recipient in Hr. simpl in Hr. by rewrite Hr.
Qed.

Lemma load_pure_rows i d q : load_pure i d = Ok q ->
  qr_queue_id q = i
  /\ (exists row, db_queues d !! i = Some row /\ queue_columns (backup_queue_row q) = queue_columns row)
  /\ map recipient_row (qr_recipients q) ≡ₚ map_to_list (default ∅ (db_recipients d !! i))
  /\ list_to_set (qr_sources q) = default ∅ (db_sources d !! i).
Proof.
  unfold load_pure. intros H.
  apply rbind_ok in H as (row & Hrow & H). apply rbind_ok in H as (parent & Hp & H).
  apply rbind_ok in H as (rs & (-> & Hst & _)%load_recipients_ok & H).
  apply rbind_ok in H as (ss & (-> & _)%load_sources_ok & H).
  unfold select_queue in Hrow. destruct (db_queues d !! i); [|done]. injection Hrow as ->.
  pose proof (load_parent_fields _ _ _ Hp) as (E1 & _). pose proof (load_parent_columns_back _ _ _ Hp) as Hc.
  unfold load_children in H. destruct (_ || _); [done|]. injection H as <-. simpl.
  split_and!; [done|by exists row| |].
  - rewrite kept_rows by done. apply merge_sort_Permutation.
  - unfold select_sources. apply leibniz_equiv. rewrite merge_sort_Permutation. apply list_to_set_elements.
Qed.

(** ** What a restore writes *)

Definition insert_all {V} (l : list (string * V)) (m : gmap string V) : gmap string V :=
  foldl (fun m p => <[p.1 := p.2]> m) m l.

Lemma insert_all_app {V} (l k : list (string * V)) :
  NoDup (k ++ l).*1 -> insert_all l (list_to_map k) = list_to_map (k ++ l).
Proof.
  revert k. induction l as [|[i x] l IH]; intros k Hn; [by rewrite app_nil_r|]. simpl.
  assert ((k ++ (i, x) :: l) ≡ₚ ((i, x) :: k) ++ l) as Hp by (simpl; by rewrite Permutation_middle).
  change (<[i := x]> (list_to_map k)) with (list_to_map ((i, x) :: k) : gmap string V).
  rewrite IH by (by rewrite <- Hp).
  symmetry. by apply list_to_map_proper.
Qed.

(** Inserting the entries of a table, in any order, rebuilds it. *)
Lemma insert_all_table {V} (l : list (string * V)) (m : gmap string V) : l ≡ₚ map_to_list m -> insert_all l ∅ = m.
Proof.
  intros Hp. assert (NoDup l.*1) as Hn by (rewrite Hp; apply NoDup_fst_map_to_list).
  rewrite <- (list_to_map_nil (M := gmap string) (A := V)), insert_all_app by done. simpl.
  rewrite (list_to_map_proper _ _ Hn Hp). apply list_to_map_to_list.
Qed.

Lemma insert_all_fmap {V W} (f : V -> W) (l : list (string * V)) m :
  f <$> insert_all l m = insert_all (map (prod_map id f) l) (f <$> m).
Proof. revert m. induction l as [|[i x] l IH]; intros m; [done|]. simpl. by rewrite IH, fmap_insert. Qed.

Lemma insert_domain_ok i r d x d' : insert_domain i r d = Ok (x, d') -> d' = with_domains <[i := r]> d.
Proof. unfold insert_domain. intros H. by go_inv H. Qed.
Lemma insert_mailbox_ok i r d x d' : insert_mailbox i r d = Ok (x, d') -> d' = with_mailboxes <[i := r]> d.
Proof. unfold insert_mailbox. intros H. by go_inv H. Qed.
Lemma insert_alias_ok i r d x d' : insert_alias i r d = Ok (x, d') -> d' = with_aliases <[i := r]> d.
Proof. unfold insert_alias. intros H. by go_inv H. Qed.
Lemma insert_sender_row_ok i r d x d' : insert_sender_row i r d = Ok (x, d') -> d' = with_senders <[i := r]> d.
Proof. unfold insert_sender_row. intros H. by go_inv H. Qed.
Lemma insert_queue_row_ok i r d x d' : insert_queue_row i r d = Ok (x, d') -> d' = with_queues <[i := r]> d.
Proof. unfold insert_queue_row. intros H. by go_inv H. Qed.

Lemma restore_domains_ok rows m w m' w' : restore_domains rows m w = (Ok m', w') ->
  w_db w' = with_domains (insert_all (map back_domain rows)) (w_db w).
Proof.
  revert m w. induction rows as [|row rows IH]; intros m w; cbn [restore_domains].
  { intros [= _ <-]. by destruct (w_db w). }
  intros H. apply bind_ok in H as ([] & ? & [_ ->]%guardM_ok & H).
  apply bind_ok in H as ([] & ? & [_ ->]%guardM_ok & H).
  apply bind_ok in H as ([] & w1 & [Hi%insert_domain_ok _]%execM_ok & H%IH). by rewrite H, Hi.
Qed.

Lemma restore_mailboxes_ok now domains rows objects w objects' w' :
  restore_mailboxes now domains rows objects w = (Ok objects', w') ->
  w_db w' = with_mailboxes (insert_all (map (back_mailbox now) rows)) (w_db w).
Proof.
  revert objects w. induction rows as [|row rows IH]; intros objects w; cbn [restore_mailboxes].
  { intros [= _ <-]. by destruct (w_db w). }
  intros H. apply bind_ok in H as ([] & ? & [_ ->]%guardM_ok & H).
  apply bind_ok in H as ([] & w1 & [Hi%insert_mailbox_ok _]%execM_ok & H%IH). by rewrite H, Hi.
Qed.

Lemma restore_aliases_ok domains rows objects w objects' w' :
  restore_aliases domains rows objects w = (Ok objects', w') ->
  w_db w' = with_aliases (insert_all (map back_alias rows)) (w_db w).
Proof.
  revert objects w. induction rows as [|row rows IH]; intros objects w; cbn [restore_aliases].
  { intros [= _ <-]. by destruct (w_db w). }
  intros H. apply bind_ok in H as ([] & ? & [_ ->]%guardM_ok & H).
  apply bind_ok in H as ([] & ? & [_ ->]%guardM_ok & H).
  apply bind_ok in H as ([] & w1 & [Hi%insert_alias_ok _]%execM_ok & H%IH). by rewrite H, Hi.
Qed.

Lemma restore_senders_ok domains rows objects w objects' w' :
  restore_senders domains rows objects w = (Ok objects', w') ->
  w_db w' = with_senders (insert_all (map back_sender rows)) (w_db w).
Proof.
  revert objects w. induction rows as [|row rows IH]; intros objects w; cbn [restore_senders].
  { intros [= _ <-]. by destruct (w_db w). }
  intros H. apply bind_ok in H as ([] & ? & [_ ->]%guardM_ok & H).
  apply bind_ok in H as ([] & w1 & [Hi%insert_sender_row_ok _]%execM_ok & H%IH). by rewrite H, Hi.
Qed.

(** The child rows of one message. *)
Definition add_recipients (q : QueueRecord) (m : gmap string (gmap string string)) :=
  foldl (fun m p => <[qr_queue_id q := <[p.1 := p.2]> (default ∅ (m !! qr_queue_id q))]> m) m
    (map recipient_row (qr_recipients q)).
Definition add_sources (q : QueueRecord) (m : gmap string (gset QueueSource)) :=
  foldl (fun m s => <[qr_queue_id q := {[s]} ∪ default ∅ (m !! qr_queue_id q)]> m) m (qr_sources q).

Lemma restore_recipients_ok i l w u w' : restore_recipients i l w = (Ok u, w') ->
  w_db w' = with_recipients
    (fun m => foldl (fun m p => <[i := <[p.1 := p.2]> (default ∅ (m !! i))]> m) m (map recipient_row l)) (w_db w).
Proof.
  revert w. induction l as [|a l IH]; intros w; cbn [restore_recipients].
  { intros [= _ <-]. by destruct (w_db w). }
  intros H. apply bind_ok in H as ([] & w1 & [Hi _]%execM_ok & H%IH). cbn [copy_recipients] in Hi.
  destruct (_ !! a); [done|]. injection Hi as Hi. by rewrite H, <- Hi.
Qed.

Lemma restore_sources_ok i l w u w' : restore_sources i l w = (Ok u, w') ->
  w_db w' = with_sources (fun m => foldl (fun m s => <[i := {[s]} ∪ default ∅ (m !! i)]> m) m l) (w_db w).
Proof.
  revert w. induction l as [|s l IH]; intros w; cbn [restore_sources].
  { intros [= _ <-]. by destruct (w_db w). }
  intros H. apply bind_ok in H as ([] & w1 & [Hi _]%execM_ok & H%IH). cbn [copy_sources] in Hi.
  case_bool_decide; [done|]. injection Hi as Hi. by rewrite H, <- Hi.
Qed.

Lemma restore_queues_ok records objects w u w' : restore_queues records objects w = (Ok u, w') ->
  w_db w' = with_sources (fun m => foldl (fun m q => add_sources q m) m records)
    (with_recipients (fun m => foldl (fun m q => add_recipients q m) m records)
      (with_queues (insert_all (map back_queue records)) (w_db w))).
Proof.
  revert w. induction records as [|q records IH]; intros w; cbn [restore_queues].
  { intros [= _ <-]. by destruct (w_db w). }
  intros H. apply bind_ok in H as ([] & w4 & H4 & H%IH). unfold restoreBackupQueue in H4.
  apply bind_ok in H4 as ([] & ? & [_ ->]%guardM_ok & H4). apply bind_ok in H4 as ([] & ? & [_ ->]%guardM_ok & H4).
  apply bind_ok in H4 as ([] & w1 & [D1%insert_queue_row_ok _]%execM_ok & H4).
  apply bind_ok in H4 as ([] & w2 & D2%restore_recipients_ok & D3%restore_sources_ok).
  by rewrite H, D3, D2, D1.
Qed.

(** The database a restore into [d] leaves. *)
Definition restored (now : Z) (s : BackupState) d : DB :=
  with_sources (fun m => foldl (fun m q => add_sources q m) m (bk_queues s))
    (with_recipients (fun m => foldl (fun m q => add_recipients q m) m (bk_queues s))
      (with_queues (insert_all (map back_queue (bk_queues s)))
        (with_senders (insert_all (map back_sender (bk_system_senders s)))
          (with_aliases (insert_all (map back_alias (bk_aliases s)))
            (with_mailboxes (insert_all (map (back_mailbox now) (bk_mailboxes s)))
              (with_domains (insert_all (map back_domain (bk_domains s))) d)))))).

Lemma RestoreBackupState_ok s now w u w' : RestoreBackupState s now w = (Ok u, w') ->
  w_db w' = restored now s (w_db w).
Proof.
  unfold RestoreBackupState. intros H. apply bind_ok in H as ([] & ? & [_ ->]%guardM_ok & H).
  apply bind_ok in H as (domains & w1 & D1%restore_domains_ok & H).
  apply bind_ok in H as (o2 & w2 & D2%restore_mailboxes_ok & H).
  apply bind_ok in H as (o3 & w3 & D3%restore_aliases_ok & H).
  apply bind_ok in H as (o4 & w4 & D4%restore_senders_ok & D5%restore_queues_ok).
  by rewrite D5, D4, D3, D2, D1.
Qed.

(** Folding steps that each touch the entry of their own message. *)
Lemma fold_queues {V} (E : V) (f : QueueRecord -> V -> V) (step : QueueRecord -> gmap string V -> gmap string V) qs q m :
  (forall q m, default E (step q m !! qr_queue_id q) = f q (default E (m !! qr_queue_id q))) ->
  (forall q m i, i <> qr_queue_id q -> step q m !! i = m !! i) ->
  NoDup (map qr_queue_id qs) -> q ∈ qs ->
  default E (foldl (fun m q => step q m) m qs !! qr_queue_id q) = f q (default E (m !! qr_queue_id q)).
Proof.
  intros Hown Hother.
  assert (forall qs m i, i ∉ map qr_queue_id qs -> foldl (fun m q => step q m) m qs !! i = m !! i) as Hout.
  { intros l. induction l as [|q' l IH]; intros m' i Hi; [done|]. simpl in *. apply not_elem_of_cons in Hi as [H1 H2].
    rewrite IH by done. by apply Hother. }
  revert m. induction qs as [|q' qs IH]; intros m Hn Hq; [by apply not_elem_of_nil in Hq|]. simpl in *.
  apply NoDup_cons in Hn as [Hn' Hn]. apply elem_of_cons in Hq as [->|Hq].
  - rewrite Hout by done. apply Hown.
  - rewrite IH by done. rewrite Hother; [done|]. intros He. apply Hn'. rewrite <- He.
    by apply list_elem_of_fmap_2.
Qed.

Lemma add_recipients_own q m :
  default ∅ (add_recipients q m !! qr_queue_id q)
  = insert_all (map recipient_row (qr_recipients q)) (default ∅ (m !! qr_queue_id q)).
Proof.
  unfold add_recipients, insert_all. generalize (map recipient_row (qr_recipients q)) as l. intros l. revert m.
  induction l as [|p l IH]; intros m; simpl; [done|]. by rewrite IH, lookup_insert_eq.
Qed.
Lemma add_recipients_other q m i : i <> qr_queue_id q -> add_recipients q m !! i = m !! i.
Proof.
  intros Hi. unfold add_recipients. generalize (map recipient_row (qr_recipients q)) as l. intros l. revert m.
  induction l as [|p l IH]; intros m; simpl; [done|]. by rewrite IH, lookup_insert_ne.
Qed.
Lemma add_sources_own q m :
  default ∅ (add_sources q m !! qr_queue_id q) = list_to_set (qr_sources q) ∪ default ∅ (m !! qr_queue_id q).
Proof.
  unfold add_sources. generalize (qr_sources q) as l. intros l. revert m.
  induction l as [|p l IH]; intros m; simpl; [set_solver|]. rewrite IH, lookup_insert_eq. simpl. set_solver.
Qed.
Lemma add_sources_other q m i : i <> qr_queue_id q -> add_sources q m !! i = m !! i.
Proof.
  intros Hi. unfold add_sources. generalize (qr_sources q) as l. intros l. revert m.
  induction l as [|p l IH]; intros m; simpl; [done|]. by rewrite IH, lookup_insert_ne.
Qed.

Lemma table_entries {V} (l : list (string * V)) (m : gmap string V) :
  l.*1 ≡ₚ (map_to_list m).*1 -> (forall p, p ∈ l -> m !! p.1 = Some p.2) -> l ≡ₚ map_to_list m.
Proof.
  intros Hk Hl. assert (NoDup l.*1) as Hn by (rewrite Hk; apply NoDup_fst_map_to_list).
  apply NoDup_Permutation; [by apply NoDup_fmap_1 in Hn|apply NoDup_map_to_list|].
  intros [i x]. split.
  - intros H. apply elem_of_map_to_list. by apply (Hl (i, x)).
  - intros H. assert (i ∈ l.*1) as (p & -> & Hp)%list_elem_of_fmap.
    { rewrite Hk. apply list_elem_of_fmap. by exists (i, x). }
    specialize (Hl p Hp). apply elem_of_map_to_list in H. simplify_eq. by destruct p.
Qed.

(** The captured queues are the messages of the database. *)
Lemma captured_queues d ids qs : capture_queue_ids (select_queue_ids d) = Ok ids ->
  rmap (fun id => load_pure id d) ids = Ok qs ->
  map qr_queue_id qs ≡ₚ (map_to_list (db_queues d)).*1
  /\ forall q, q ∈ qs -> load_pure (qr_queue_id q) d = Ok q.
Proof.
  intros Hi Hq.
  assert (ids = select_queue_ids d) as ->.
  { rewrite <- (map_id ids). eapply (capture_rows_back _ _ id); [|exact Hi]. by intros r a [= ->]. }
  apply rmap_ok in Hq. assert (map qr_queue_id qs = select_queue_ids d) as Hids.
  { revert Hq. generalize (select_queue_ids d). intros l.
    induction 1 as [|i q l k Hl _ IH]; [done|]. simpl. f_equal; [|done].
    by destruct (load_pure_rows _ _ _ Hl) as (<- & _). }
  split.
  - rewrite Hids. unfold select_queue_ids. rewrite merge_sort_Permutation, map_to_list_fmap.
    rewrite <- list_fmap_compose. apply Permutation_refl'. by apply list_fmap_ext.
  - intros q Hin. apply list_elem_of_lookup in Hin as [n Hn].
    destruct (Forall2_lookup_r _ _ _ _ _ Hq Hn) as (i & _ & Hl). by destruct (load_pure_rows _ _ _ Hl) as (<- & _).
Qed.

(** A migrated database before its restore. *)
Definition empty_policy d : Prop :=
  db_domains d = ∅ /\ db_mailboxes d = ∅ /\ db_aliases d = ∅ /\ db_senders d = ∅
  /\ db_queues d = ∅ /\ db_recipients d = ∅ /\ db_sources d = ∅.

Lemma capture_pure_ok d s : capture_pure d = Ok s ->
  capture_domains (select_domains d) = Ok (bk_domains s)
  /\ capture_mailboxes (select_mailboxes d) = Ok (bk_mailboxes s)
  /\ capture_aliases (select_aliases d) = Ok (bk_aliases s)
  /\ capture_senders (select_senders d) = Ok (bk_system_senders s)
  /\ map qr_queue_id (bk_queues s) ≡ₚ (map_to_list (db_queues d)).*1
  /\ (forall q, q ∈ bk_queues s -> load_pure (qr_queue_id q) d = Ok q).
Proof.
  unfold capture_pure. intros H. apply rbind_ok in H as (a1 & S1 & H). apply rbind_ok in H as (a2 & S2 & H).
  apply rbind_ok in H as (a3 & S3 & H). apply rbind_ok in H as (a4 & S4 & H). apply rbind_ok in H as (a5 & S5 & H).
  apply rbind_ok in H as (qs & L & [= <-]). destruct (captured_queues _ _ _ S5 L). by split_and!.
Qed.

Lemma restored_queues d s : capture_pure d = Ok s ->
  map (prod_map id queue_columns) (map back_queue (bk_queues s)) ≡ₚ map_to_list (queue_columns <$> db_queues d).
Proof.
  intros (_ & _ & _ & _ & Hids & Hload)%capture_pure_ok. apply table_entries.
  - assert ((map (prod_map id queue_columns) (map back_queue (bk_queues s))).*1 = map qr_queue_id (bk_queues s)) as ->.
    { clear. induction (bk_queues s) as [|q qs IH]; [done|]. simpl. by f_equal. }
    rewrite Hids, map_to_list_fmap, <- list_fmap_compose. apply Permutation_refl'. by apply list_fmap_ext.
  - intros p (q' & -> & (q & -> & Hq)%list_elem_of_fmap)%list_elem_of_fmap. simpl.
    destruct (load_pure_rows _ _ _ (Hload q Hq)) as (_ & (row & Hrow & Hc) & _).
    by rewrite lookup_fmap, Hrow, Hc.
Qed.

Lemma restored_same now s d v : capture_pure d = Ok s -> encodable (bk_aliases s) -> empty_policy v ->
  same_policy d (restored now s v).
Proof.
  intros H He (V1 & V2 & V3 & V4 & V5 & V6 & V7).
  pose proof (restored_queues _ _ H) as Hq. apply capture_pure_ok in H as (S1 & S2 & S3 & S4 & Hids & Hload).
  assert (NoDup (map qr_queue_id (bk_queues s))) as Hn by (rewrite Hids; apply NoDup_fst_map_to_list).
  assert (forall id, is_Some (db_queues d !! id) -> exists q, q ∈ bk_queues s /\ id = qr_queue_id q) as Hall.
  { intros i [row Hrow]. assert (i ∈ map qr_queue_id (bk_queues s)) as (q & -> & ?)%list_elem_of_fmap; [|by exists q].
    rewrite Hids. apply list_elem_of_fmap. exists (i, row). by split; [|apply elem_of_map_to_list]. }
  split; unfold restored; simpl; rewrite ?V1, ?V2, ?V3, ?V4, ?V5, ?V6, ?V7.
  - symmetry. by apply insert_all_table, captured_domains.
  - symmetry. rewrite insert_all_fmap, fmap_empty. by apply insert_all_table, captured_mailboxes.
  - symmetry. rewrite insert_all_fmap, fmap_empty. by apply insert_all_table, captured_aliases.
  - symmetry. by apply insert_all_table, captured_senders.
  - symmetry. rewrite insert_all_fmap, fmap_empty. by apply insert_all_table.
  - intros i (q & Hin & ->)%Hall. destruct (load_pure_rows _ _ _ (Hload q Hin)) as (_ & _ & Hr & _).
    rewrite (fold_queues ∅ (fun q => insert_all (map recipient_row (qr_recipients q))));
      [|apply add_recipients_own|by intros; apply add_recipients_other|done..].
    rewrite lookup_empty. symmetry. by apply insert_all_table.
  - intros i (q & Hin & ->)%Hall. destruct (load_pure_rows _ _ _ (Hload q Hin)) as (_ & _ & _ & Hr).
    rewrite (fold_queues ∅ (fun q X => list_to_set (qr_sources q) ∪ X));
      [|apply add_sources_own|by intros; apply add_sources_other|done..].
    rewrite lookup_empty, <- Hr. simpl. set_solver.
Qed.

(** ** Verification against the database of the backup *)

(** An answer of [m] at every reliable world over [d]. *)
Definition answers {A} d (m : M PS A) (a : A) : Prop :=
  forall w, reliable w -> w_db w = d -> exists w', m w = (Ok a, w') /\ reliable w' /\ w_db w' = d.

Lemma answers_bind {A B} d (m : M PS A) (k : A -> M PS B) a b :
  answers d m a -> answers d (k a) b -> answers d (m ≫= k) b.
Proof.
  intros Hm Hk w Hw D. destruct (Hm w Hw D) as (w1 & E & Hw1 & D1). rewrite (bind_step _ _ _ _ _ E).
  by apply Hk.
Qed.

Lemma answers_query {A} d (q : DB -> result A) a : q d = Ok a -> answers d (queryM q) a.
Proof.
  intros H w Hw <-. destruct (queryM_reliable q w Hw) as (w1 & E & Hw1 & D1 & _). rewrite H in E. by exists w1.
Qed.

Lemma answers_try {A} d (m : M PS A) a : answers d m a -> answers d (tryM m) (Ok a).
Proof. intros H w Hw D. destruct (H w Hw D) as (w1 & E & ?). exists w1. unfold tryM. by rewrite E. Qed.

Lemma answers_matching {A} d text (read : M PS A) same a :
  answers d read a -> same a = true -> answers d (matching text read same) tt.
Proof.
  intros H Hs. apply (answers_bind _ _ _ (Ok a)); [by apply answers_try|]. intros w Hw D. exists w. by rewrite Hs.
Qed.

Lemma answers_each {A} d (verify : A -> M PS unit) l :
  (forall a, a ∈ l -> answers d (verify a) tt) -> answers d (verify_each verify l) tt.
Proof.
  induction l as [|a l IH]; intros H; cbn [verify_each]; [by intros w Hw D; exists w|].
  apply (answers_bind _ _ _ tt); [apply H; left|]. apply IH. intros b Hb. apply H. by right.
Qed.

(** What a listed row says of the table. *)
Lemma listed {A V} (back : A -> string * V) l (m : gmap string V) a :
  map back l ≡ₚ map_to_list m -> a ∈ l -> m !! (back a).1 = Some (back a).2.
Proof.
  intros H Ha. apply elem_of_map_to_list. rewrite <- H, <- surjective_pairing. by apply list_elem_of_fmap_2.
Qed.

Lemma verify_domains_answers d l : capture_domains (select_domains d) = Ok l -> answers d (verify_each verify_domain l) tt.
Proof.
  intros H%captured_domains. apply answers_each. intros b Hb. pose proof (listed _ _ _ _ H Hb) as Hr. simpl in Hr.
  apply (answers_matching _ _ _ _ (domain_row b)).
  - apply answers_query. unfold select_domain_named. rewrite Hr. simpl. by rewrite eqs_refl.
  - unfold same_domain. simpl. by rewrite eqb_reflx, eqs_refl, Z.eqb_refl.
Qed.

Lemma verify_senders_answers d l : capture_senders (select_senders d) = Ok l -> answers d (verify_each verify_sender l) tt.
Proof.
  intros H%captured_senders. apply answers_each. intros b Hb. pose proof (listed _ _ _ _ H Hb) as Hr. simpl in Hr.
  apply (answers_matching _ _ _ _ (sender_row b)).
  - apply answers_query. unfold select_sender. by rewrite Hr.
  - unfold same_sender. simpl. by rewrite eqb_reflx, !eqs_refl, Z.eqb_refl.
Qed.

Lemma verify_mailboxes_answers d l : capture_mailboxes (select_mailboxes d) = Ok l ->
  answers d (verify_each verify_mailbox l) tt.
Proof.
  intros H%(captured_mailboxes 0). rewrite map_map in H. apply answers_each. intros b Hb.
  pose proof (listed _ _ _ _ H Hb) as Hr. simpl in Hr. rewrite lookup_fmap in Hr.
  apply (answers_matching _ _ _ _ (bm_verifier b, bm_quota_bytes b)).
  - apply answers_query. unfold select_mailbox_exact. unfold fmap in Hr |- *. rewrite Hr.
    unfold flat_mailbox, mailbox_columns. simpl.
    by rewrite !eqs_refl, eqb_reflx, nullBackupString_back, nullBackupInt64_back.
  - simpl. by rewrite eqs_refl, Z.eqb_refl.
Qed.

Lemma verify_aliases_answers d l : capture_aliases (select_aliases d) = Ok l -> answers d (verify_each verify_alias l) tt.
Proof.
  intros H%captured_entries. apply answers_each. intros b Hb.
  pose proof (listed _ _ _ _ H Hb) as Hr. simpl in Hr. rewrite lookup_fmap in Hr.
  apply (answers_bind _ _ _ (Ok (Some (ba_targets b)))).
  - apply answers_try, answers_query. unfold select_alias_exact. unfold fmap in Hr |- *. rewrite Hr.
    simpl. by rewrite !eqs_refl, eqb_reflx.
  - intros w Hw D. exists w. simpl. by rewrite eqs_refl.
Qed.

Lemma same_queue_refl q : nonzero_revisions (qr_policy_revisions q) -> same_queue q q = true.
Proof.
  intros H. unfold same_queue, sameQueueIdentity. rewrite !eqs_refl, N.eqb_refl.
  by rewrite (proj2 (revisionMapsEqual_eq _ _ H) eq_refl).
Qed.

Lemma load_answers d q : load_pure (qr_queue_id q) d = Ok q -> answers d (Load (qr_queue_id q)) q.
Proof.
  intros H w Hw <-. pose proof (load_pure_well_formed _ _ _ H) as (Hid & _). unfold Load. rewrite Hid.
  destruct (loadQueueRecord_reliable (qr_queue_id q) w Hw) as (w1 & E & Hw1 & D1 & _). exists w1.
  rewrite H in E. rewrite (bind_step _ _ w tt w) by done. done.
Qed.

(** Every source of every message of a backup has its governing domain. *)
Definition sources_resolve d (s : BackupState) : Prop :=
  forall q, q ∈ bk_queues s -> exists l, resolves d (qr_sources q) l.

Lemma verify_queue_answers d q l : load_pure (qr_queue_id q) d = Ok q -> resolves d (qr_sources q) l ->
  answers d (verify_queue q) tt.
Proof.
  intros H Hl. pose proof (load_pure_well_formed _ _ _ H) as (_ & _ & _ & _ & Hne & _ & Hlen & _ & Hv & _ & _ & _ & _ & Hnz & _).
  apply (answers_bind _ _ _ (Ok q)); [by apply answers_try, load_answers|].
  apply (answers_bind _ _ _ tt).
  { intros w Hw D. exists w. by rewrite same_queue_refl. }
  apply (answers_matching _ _ _ _ l); [|done]. intros w Hw <-.
  destruct (resolvePolicySources_reliable (qr_sources q) w l) as (w1 & E & Hw1 & D1 & _); [done| | |done|by exists w1].
  - destruct (qr_sources q); [done|]. simpl in *. lia.
  - apply forallb_forall. intros x Hx%list_elem_of_In. by apply Hv.
Qed.

Lemma verify_queue_ok q w u w' : verify_queue q w = (Ok u, w') -> load_pure (qr_queue_id q) (w_db w) = Ok q ->
  exists l, resolves (w_db w) (qr_sources q) l.
Proof.
  intros H Hq. unfold verify_queue in H. apply bind_ok in H as (r & w1 & Hr & H). unfold tryM in Hr.
  destruct (Load (qr_queue_id q) w) as [r0 w0] eqn:E. injection Hr as <- <-. destruct r0 as [q'|]; [|done].
  unfold Load in E. apply bind_ok in E as ([] & ? & [_ ->]%guardM_ok & (Hl & D & _)%loadQueueRecord_ok).
  rewrite Hq in Hl. injection Hl as <-. apply bind_ok in H as ([] & ? & [_ ->]%guardM_ok & H).
  unfold matching in H. apply bind_ok in H as (r & w2 & Hr & H). unfold tryM in Hr.
  destruct (resolvePolicySources (qr_sources q) w0) as [r0 w3] eqn:E. injection Hr as <- <-.
  destruct r0 as [l|]; [|done]. apply resolvePolicySources_ok in E as (Hres & _). exists l. by rewrite <- D.
Qed.

Lemma verify_each_ok {A} (verify : A -> M PS unit) l w u w' :
  (forall a, effect eq (verify a)) -> verify_each verify l w = (Ok u, w') ->
  w_db w' = w_db w /\ forall a, a ∈ l -> exists w1 w2, w_db w1 = w_db w /\ verify a w1 = (Ok tt, w2).
Proof.
  intros He. revert w. induction l as [|a l IH]; intros w; cbn [verify_each].
  { intros [= _ <-]. split; [done|]. by intros a Ha%not_elem_of_nil. }
  intros H. apply bind_ok in H as ([] & w1 & Ha & [D H]%IH). pose proof (He a w) as D1. rewrite Ha in D1. simpl in D1.
  split; [congruence|]. intros b [->|Hb]%elem_of_cons; [by exists w, w1|].
  destruct (H b Hb) as (u1 & u2 & Hu & Hv). exists u1, u2. split; [congruence|done].
Qed.

Lemma verify_readonly :
  (forall b, effect (PS := PS) eq (verify_domain b)) /\ (forall b, effect (PS := PS) eq (verify_mailbox b))
  /\ (forall b, effect (PS := PS) eq (verify_alias b)) /\ (forall b, effect (PS := PS) eq (verify_sender b))
  /\ (forall q, effect (PS := PS) eq (verify_queue q)).
Proof.
  split_and!; intros b;
    unfold verify_domain, verify_mailbox, verify_alias, verify_sender, verify_queue, matching, Load;
    solve_effect; try (apply loadQueueRecord_readonly; apply _).
Qed.

(** Against the database it was taken from, a backup verifies exactly when
    the sources of its messages resolve. *)
Lemma VerifyBackupState_iff s w : reliable w -> capture_pure (w_db w) = Ok s ->
  (exists w', VerifyBackupState s w = (Ok tt, w')) <-> sources_resolve (w_db w) s.
Proof.
  intros Hw (S1 & S2 & S3 & S4 & _ & Hload)%capture_pure_ok. split.
  - intros [w' H]. destruct verify_readonly as (R1 & R2 & R3 & R4 & R5). unfold VerifyBackupState in H.
    apply bind_ok in H as ([] & w1 & [D1 _]%(verify_each_ok _ _ _ _ _ R1) & H).
    apply bind_ok in H as ([] & w2 & [D2 _]%(verify_each_ok _ _ _ _ _ R2) & H).
    apply bind_ok in H as ([] & w3 & [D3 _]%(verify_each_ok _ _ _ _ _ R3) & H).
    apply bind_ok in H as ([] & w4 & [D4 _]%(verify_each_ok _ _ _ _ _ R4) & [_ H]%(verify_each_ok _ _ _ _ _ R5)).
    intros q Hq. destruct (H q Hq) as (u1 & u2 & D & Hv). assert (w_db u1 = w_db w) as E by congruence.
    rewrite <- E. apply (verify_queue_ok _ _ _ _ Hv). rewrite E. by apply Hload.
  - intros H. destruct (verify_domains_answers _ _ S1 w Hw eq_refl) as (w1 & E1 & H1 & D1).
    destruct (verify_mailboxes_answers _ _ S2 w1 H1 D1) as (w2 & E2 & H2 & D2).
    destruct (verify_aliases_answers _ _ S3 w2 H2 D2) as (w3 & E3 & H3 & D3).
    destruct (verify_senders_answers _ _ S4 w3 H3 D3) as (w4 & E4 & H4 & D4).
    destruct (answers_each (w_db w) verify_queue (bk_queues s)) with (w := w4) as (w5 & E5 & _); [|done..|].
    { intros q Hq. destruct (H q Hq) as [l Hl]. by apply (verify_queue_answers _ _ l); [apply Hload|]. }
    exists w5. unfold VerifyBackupState.
    by rewrite (bind_step _ _ _ _ _ E1), (bind_step _ _ _ _ _ E2), (bind_step _ _ _ _ _ E3), (bind_step _ _ _ _ _ E4).
Qed.

(** C29: Restoring a backup into a database without policy gives a
    database with the policy of the captured one: the same objects under the
    same identifiers, with their states, verifiers, quotas, targets and
    revisions, and the same provenance, hold state, times and attempts of
    every queued message.  A backup of the restored database is the backup
    again, and its verification succeeds exactly when every source of every
    queued message still has an enabled object in an enabled domain. *)
Theorem backup_round_trip w s w1 now (v v' : World PS) :
  CaptureBackupState w = (Ok s, w1) -> encodable (bk_aliases s) ->
  empty_policy (w_db v) -> RestoreBackupState s now v = (Ok tt, v') ->
  same_policy (w_db w) (w_db v')
  /\ forall u : World PS, reliable u -> w_db u = w_db v' ->
       (exists u', CaptureBackupState u = (Ok s, u'))
       /\ ((exists u', VerifyBackupState s u = (Ok tt, u')) <-> sources_resolve (w_db u) s).
Proof.
  intros [Hc _]%capture_ok He Hv Hr%RestoreBackupState_ok.
  assert (same_policy (w_db w) (w_db v')) as Hs by (rewrite Hr; by apply restored_same).
  split; [done|]. intros u Hu Du. rewrite (capture_proper _ _ Hs), <- Du in Hc.
  split; [|by apply VerifyBackupState_iff]. destruct (capture_reliable u s Hu Hc) as (u' & ? & _). by exists u'.
Qed.
End BackupFacts.
