(* ===== verification/Admin.v ===== *)
(** * Policy administration (internal/outboundpolicy/admin.go)

    A scope change is previewed as a [ChangePlan], whose digest covers the
    domain, its revision and everything the change would affect, and applied
    only when the administrator returns the digest of the plan recomputed
    inside the transaction.  [ActivationApply] then drives every affected
    queued message through the transport decision and the hold boundary. *)

From stdpp Require Import base list gmap sets strings sorting pretty.
From Stdlib Require Import ZArith Lia Ascii.
From S2P Require Import Prelude GoStd Json Sha256 Policy Queue AuditLog Database QueueStore Sources HoldMachine Reconcile Decision.

(** ** encoding/hex: DecodeString, which admits both cases *)

Fixpoint hex_decode (s : string) : option (list N) :=
  match s with
  | EmptyString => Some []
  | String a (String b s) =>
      match hex_value a, hex_value b, hex_decode s with
      | Some x, Some y, Some l => Some ((16 * x + y)%N :: l)
      | _, _, _ => None
      end
  | String _ EmptyString => None
  end.

(** ** Plans *)

Record Impact := {
  im_aliases : Z; im_external_targets : Z; im_queued_recipients : Z;
}.

Record ChangePlan := {
  cp_digest : string;
  cp_domain_id : string;
  cp_domain : string;
  cp_current_scope : string;
  cp_requested_scope : string;
  cp_revision : N;
  cp_impact : Impact;
  cp_state_digest : string;
  cp_affected_queue_ids : list string;
}.

Record ActivationReconciliation := {
  ar_selected : nat; ar_held : nat; ar_already_held : nat;
  ar_no_longer_blocked : nat; ar_failed : nat;
}.

Record ChangeResult := {
  cr_plan : ChangePlan;
  cr_changed : bool;
  cr_reconciliation : option ActivationReconciliation;
}.

Definition maxPolicyAliases : N := 100000.
Definition maxAliasTargetJSONBytes : Z := 2 ^ 20.
Definition maxAliasTargets : N := 10000.
Definition maxPolicyTargetBytes : Z := 64 * 2 ^ 20.
Definition maxPolicyQueuedRecipients : Z := 1000000.

(** ** Streamed digests

    A [hash.Hash] is the transcript written to it. *)

Definition writePolicyStateDigest (digest : list N) (values : list string) : list N :=
  digest ++ frames values.
Definition newPolicyStateDigest (contract : string) : list N :=
  writePolicyStateDigest [] [contract].

Section Admin.
Context `{HOST : !Host}.

(** ** Impact on aliases *)

(** A row of the alias query: id, local_part, octet_length(targets_json) and
    the document unless it is too long. *)
Record AliasImpactRow := {
  ai_id : string; ai_local_part : string; ai_encoded_bytes : Z; ai_encoded : option string;
}.

Definition alias_impact_row (p : string * AliasRow) : AliasImpactRow :=
  let n := Z.of_nat (len (al_targets_json p.2)) in
  {| ai_id := p.1; ai_local_part := al_local_part p.2; ai_encoded_bytes := n;
     ai_encoded := if (n <=? maxAliasTargetJSONBytes)%Z
                   then Some (al_targets_json p.2) else None |}.

Definition id_le {A} (x y : string * A) : Prop := String.le x.1 y.1.
#[global] Instance id_le_dec {A} : RelDecision (@id_le A).
Proof. intros x y. unfold id_le. apply _. Defined.

(** ... FROM aliases WHERE domain_id=$1 AND enabled=true ORDER BY id LIMIT $2 *)
Definition alias_impact_rows (domainID : string) (d : DB) : list AliasImpactRow :=
  take (N.to_nat (maxPolicyAliases + 1))
    (map alias_impact_row
       (merge_sort id_le
          (List.filter (fun p => (al_domain_id p.2 =?s domainID) && al_enabled p.2)
             (map_to_list (db_aliases d))))).

(** The targets of one alias outside [domain]. *)
Fixpoint external_targets (domain : string) (targets : list string) : result Z :=
  match targets with
  | [] => Ok 0%Z
  | target :: targets =>
      match recipientDomain target with
      | Err _ => Err "stored alias target is invalid"
      | Ok targetDomain =>
          let! n := external_targets domain targets in
          Ok (if targetDomain <>?s domain then n + 1 else n)%Z
      end
  end.

Definition alias_targets (row : AliasImpactRow) : result (list string) :=
  match json_strings (default "" (ai_encoded row)) with
  | Some targets =>
      if (N.of_nat (length targets) =? 0)%N || (maxAliasTargets <? N.of_nat (length targets))%N
      then Err "stored alias targets are invalid" else Ok targets
  | None => Err "stored alias targets are invalid"
  end.

(** The loop over the alias rows: [aliases] rows were read with [totalBytes]
    of targets. *)
Fixpoint alias_impact_loop (domain : string) (aliases : N) (totalBytes : Z) (impact : Impact)
    (digest : list N) (rows : list AliasImpactRow) : result (Impact * list N) :=
  match rows with
  | [] => Ok (impact, digest)
  | row :: rows =>
      if (maxPolicyAliases <? aliases + 1)%N
      then Err "outbound policy alias limit exceeded" else
      if negb (validQueueObjectID (ai_id row)) || (ai_local_part row =?s "")
         || (ai_encoded_bytes row <? 0)%Z
         || (maxAliasTargetJSONBytes <? ai_encoded_bytes row)%Z
         || negb (match ai_encoded row with Some _ => true | None => false end)
         || (maxPolicyTargetBytes - ai_encoded_bytes row <? totalBytes)%Z
      then Err "outbound policy alias target data limit exceeded" else
      let! targets := alias_targets row in
      let! external := external_targets domain targets in
      let impact' :=
        if (0 <? external)%Z
        then {| im_aliases := im_aliases impact + 1;
                im_external_targets := im_external_targets impact + external;
                im_queued_recipients := im_queued_recipients impact |}
        else impact in
      alias_impact_loop domain (aliases + 1) (totalBytes + ai_encoded_bytes row) impact'
        (writePolicyStateDigest digest
           [ai_id row; ai_local_part row; default "" (ai_encoded row)]) rows
  end.

Definition no_impact : Impact :=
  {| im_aliases := 0; im_external_targets := 0; im_queued_recipients := 0 |}.

(** ** Impact on the queue *)

(** SELECT count( * ) FROM outbound_queue_sources s JOIN outbound_queue_messages q
    LEFT JOIN ... WHERE hold_state <> 'released' and no object was joined. *)
Definition unresolved_sources (d : DB) : nat :=
  length (List.filter
    (fun p => match db_queues d !! p.1 with
              | Some row => (qw_hold_state row <>?s HoldReleased)
                            && match source_object d p.2 with None => true | Some _ => false end
              | None => false
              end)
    (concat (map (fun p => map (pair p.1) (elements p.2)) (map_to_list (db_sources d))))).

Record QueuedRow := {
  qi_queue_id : string; qi_arrival : string; qi_recipients : string; qi_sources : string;
  qi_recipient : string;
}.

(** EXISTS (SELECT 1 FROM outbound_queue_sources s ... WHERE s.queue_id=q.queue_id
    AND the joined object's domain_id=$1) *)
Definition has_source_in (d : DB) (domainID queueID : string) : bool :=
  existsb (fun s => match source_object d s with
                    | Some (_, id) => id =?s domainID
                    | None => false
                    end) (elements (default ∅ (db_sources d !! queueID))).

Definition queued_rows_of (domainID domain : string) (d : DB)
    (p : string * gmap string string) : list QueuedRow :=
  match db_queues d !! p.1 with
  | Some row =>
      if (qw_hold_state row <>?s HoldReleased) && has_source_in d domainID p.1
      then map (fun r => {| qi_queue_id := p.1; qi_arrival := qw_arrival_fingerprint row;
                            qi_recipients := qw_recipient_set_digest row;
                            qi_sources := qw_source_set_digest row; qi_recipient := r.1 |})
             (List.filter (fun r => r.2 <>?s domain) (map_to_list p.2))
      else []
  | None => []
  end.

(** ORDER BY q.queue_id,r.recipient *)
Definition queued_le (x y : QueuedRow) : Prop :=
  if qi_queue_id x =?s qi_queue_id y
  then Is_true (sql_leb (qi_recipient x) (qi_recipient y))
  else Is_true (sql_leb (qi_queue_id x) (qi_queue_id y)).
#[global] Instance queued_le_dec : RelDecision queued_le.
Proof. intros x y. unfold queued_le. destruct (_ =?s _); apply _. Defined.

Definition queued_rows (domainID domain : string) (d : DB) : list QueuedRow :=
  merge_sort queued_le
    (concat (map (queued_rows_of domainID domain d) (map_to_list (db_recipients d)))).

Definition queued_row_valid (domain : string) (row : QueuedRow) : bool :=
  validLongQueueID (qi_queue_id row) && validLowerHexDigest (qi_arrival row)
  && validLowerHexDigest (qi_recipients row) && validLowerHexDigest (qi_sources row)
  && match normalizeQueueRecipient (qi_recipient row) with
     | Ok (canonical, recipientDomain) =>
         (canonical =?s qi_recipient row) && (recipientDomain <>?s domain)
     | Err _ => false
     end.

Fixpoint queued_impact_loop (domain : string) (count : Z) (lastQueueID : string)
    (queueIDs : list string) (digest : list N) (rows : list QueuedRow)
    : result (Z * list N * list string) :=
  match rows with
  | [] => Ok (count, digest, queueIDs)
  | row :: rows =>
      if (maxPolicyQueuedRecipients <=? count)%Z
      then Err "outbound queue recipient impact limit exceeded" else
      if negb (queued_row_valid domain row)
      then Err "active outbound queue state is invalid" else
      queued_impact_loop domain (count + 1) (qi_queue_id row)
        (if qi_queue_id row <>?s lastQueueID then queueIDs ++ [qi_queue_id row] else queueIDs)
        (writePolicyStateDigest digest
           [qi_queue_id row; qi_arrival row; qi_recipients row; qi_sources row;
            qi_recipient row]) rows
  end.

(** ** The plan digest *)

(** [json.Marshal] of the payload struct. *)
Definition json_field (name value : string) : string := json_quote name +:+ ":" +:+ value.

Fixpoint json_fields (l : list string) : string :=
  match l with
  | [] => ""
  | [f] => f
  | f :: l => f +:+ "," +:+ json_fields l
  end.
Definition json_object (l : list string) : string := "{" +:+ json_fields l +:+ "}".

Definition impact_json (impact : Impact) : string :=
  json_object
    [json_field "aliases" (FormatInt (im_aliases impact));
     json_field "external_targets" (FormatInt (im_external_targets impact));
     json_field "queued_recipients" (FormatInt (im_queued_recipients impact))].

Definition plan_payload (plan : ChangePlan) : string :=
  json_object
    [json_field "contract" (json_quote "gotth-mail/outbound-policy-plan/v2");
     json_field "domain_id" (json_quote (cp_domain_id plan));
     json_field "domain" (json_quote (cp_domain plan));
     json_field "current_scope" (json_quote (cp_current_scope plan));
     json_field "requested_scope" (json_quote (cp_requested_scope plan));
     json_field "revision" (FormatInt (Z.of_N (cp_revision plan)));
     json_field "impact" (impact_json (cp_impact plan));
     json_field "state_digest" (json_quote (cp_state_digest plan))].

Definition planDigest (plan : ChangePlan) : result string :=
  if negb (validLowerHexDigest (cp_state_digest plan))
  then Err "invalid outbound policy state digest"
  else Ok (sha256_hex (bytes_of (plan_payload plan))).

Definition equalPlanDigest (expected actual : string) : bool :=
  (len expected =? 64) && (len actual =? 64)
  && match hex_decode expected, hex_decode actual with
     | Some x, Some y => (length x =? 32) && (length y =? 32) && bool_decide (x = y)
     | _, _ => false
     end.
End Admin.

(** ** Services *)

Section Services.
Context `{HOST : !Host} {PS : Type}.

Definition loadAliasImpact (domainID domain : string) : M PS (Impact * string) :=
  rows ← queryM (fun d => Ok (alias_impact_rows domainID d));
  loaded ← liftM (alias_impact_loop domain 0 0 no_impact
             (newPolicyStateDigest "gotth-mail/outbound-policy-alias-state/v1") rows);
  mret (loaded.1, sha256_hex loaded.2).

Definition loadQueuedRecipientImpact (domainID domain : string)
    : M PS (Z * string * list string) :=
  unresolved ← queryM (fun d => Ok (unresolved_sources d));
  guardM (negb (unresolved =? 0)) "active outbound queue contains unresolved policy sources";;
  rows ← queryM (fun d => Ok (queued_rows domainID domain d));
  loaded ← liftM (queued_impact_loop domain 0 "" []
             (newPolicyStateDigest "gotth-mail/outbound-policy-queue-state/v1") rows);
  mret (loaded.1.1, sha256_hex loaded.1.2, loaded.2).

(** SELECT id,name,outbound_scope,outbound_policy_revision FROM domains WHERE
    name=$1 AND enabled=true, scanned into a uint64 revision. *)
Definition select_domain (name : string) (d : DB) : result (string * DomainRow) :=
  match find (fun p => (dm_name p.2 =?s name) && dm_enabled p.2) (map_to_list (db_domains d)) with
  | Some (id, row) =>
      if (dm_revision row <? 0)%Z then Err "sql: Scan error: value out of range"
      else Ok (id, row)
  | None => Err "enabled domain not found"
  end.

Definition with_queued (n : Z) (impact : Impact) : Impact :=
  {| im_aliases := im_aliases impact; im_external_targets := im_external_targets impact;
     im_queued_recipients := n |}.

Definition with_digest (digest : string) (plan : ChangePlan) : ChangePlan :=
  {| cp_digest := digest; cp_domain_id := cp_domain_id plan; cp_domain := cp_domain plan;
     cp_current_scope := cp_current_scope plan; cp_requested_scope := cp_requested_scope plan;
     cp_revision := cp_revision plan; cp_impact := cp_impact plan;
     cp_state_digest := cp_state_digest plan;
     cp_affected_queue_ids := cp_affected_queue_ids plan |}.

Definition loadChangePlan (rawDomain requested : string) : M PS ChangePlan :=
  guardM (negb (validScope requested)) "invalid outbound scope";;
  domain ← liftM (NormalizeDomain rawDomain);
  row ← queryM (select_domain domain);
  guardM (negb (validScope (dm_scope row.2)) || (dm_revision row.2 =? 0)%Z)
    "stored outbound policy state is invalid";;
  aliases ← loadAliasImpact row.1 (dm_name row.2);
  queued ← loadQueuedRecipientImpact row.1 (dm_name row.2);
  let plan := {| cp_digest := ""; cp_domain_id := row.1; cp_domain := dm_name row.2;
                 cp_current_scope := dm_scope row.2; cp_requested_scope := requested;
                 cp_revision := Z.to_N (dm_revision row.2);
                 cp_impact := with_queued queued.1.1 aliases.1;
                 cp_state_digest := digestStrings
                   ["gotth-mail/outbound-policy-state/v1"; aliases.2; queued.1.2];
                 cp_affected_queue_ids := queued.2 |} in
  digest ← liftM (planDigest plan);
  mret (with_digest digest plan).

Definition PreviewChange (rawDomain requested : string) : M PS ChangePlan :=
  loadChangePlan rawDomain requested.

(** UPDATE domains SET outbound_scope=$1,outbound_policy_revision=
    outbound_policy_revision+1 WHERE id=$3 AND outbound_policy_revision=$4 *)
Definition set_scope (scope : string) (row : DomainRow) : DomainRow :=
  {| dm_name := dm_name row; dm_enabled := dm_enabled row; dm_scope := scope;
     dm_revision := dm_revision row + 1 |}.

Definition update_scope (id scope : string) (revision : N) (d : DB) : result (nat * DB) :=
  match db_domains d !! id with
  | None => Ok (0, d)
  | Some row =>
      if (dm_revision row =? Z.of_N revision)%Z
      then if domain_row_check (set_scope scope row)
           then Ok (1, with_domains (<[id := set_scope scope row]>) d)
           else Err "check constraint violated"
      else Ok (0, d)
  end.

Definition impact_value (impact : Impact) : json :=
  JObj [("aliases", JNum (im_aliases impact));
        ("external_targets", JNum (im_external_targets impact));
        ("queued_recipients", JNum (im_queued_recipients impact))].

Definition scope_event (now : Z) (actor : ActorRef) (correlationID : string) (plan : ChangePlan)
    : Event :=
  {| ev_id := ""; ev_time := now; ev_actor := actor; ev_source := None;
     ev_action := "domain.outbound_scope.update";
     ev_resource := {| resource_type := "domain"; resource_id := cp_domain_id plan |};
     ev_before := JObj [("scope", JStr (cp_current_scope plan));
                        ("revision", JNum (Z.of_N (cp_revision plan)))];
     ev_after := JObj [("scope", JStr (cp_requested_scope plan));
                       ("revision", JNum (Z.of_N ((cp_revision plan + 1) mod 2 ^ 64)));
                       ("confirmation_digest", JStr (cp_digest plan));
                       ("impact", impact_value (cp_impact plan))];
     ev_correlation_id := correlationID; ev_result := "success"; ev_error_code := "" |}.

Definition apply_body (actor : ActorRef) (correlationID rawDomain requested confirmation : string)
    : M PS (bool * ChangeResult) :=
  plan ← loadChangePlan rawDomain requested;
  guardM (negb (equalPlanDigest (cp_digest plan) confirmation))
    "confirmation digest does not match current outbound policy state";;
  if cp_current_scope plan =?s cp_requested_scope plan
  then mret (false, {| cr_plan := plan; cr_changed := false; cr_reconciliation := None |}) else
  now ← nowM;
  affected ← execM (update_scope (cp_domain_id plan) (cp_requested_scope plan)
                      (cp_revision plan));
  guardM (negb (affected =? 1)) "outbound policy revision changed";;
  WriteSQL (scope_event now actor correlationID plan);;
  mret (true, {| cr_plan := plan; cr_changed := true; cr_reconciliation := None |}).

Definition ApplyChange (actor : ActorRef) (correlationID rawDomain requested confirmation : string)
    : M PS ChangeResult :=
  guardM (negb (valid_actor actor) || negb (validPolicyCorrelationID correlationID))
    "actor and correlation ID are required";;
  transaction (apply_body actor correlationID rawDomain requested confirmation).

(** ** Activation *)

Definition activationCorrelationID (base queueID : string) (index : nat) (phase : string)
    : string :=
  "outbound-activation:"
  +:+ hex_encode (take 16 (Sha.sum256 (bytes_of
        (base +:+ nul +:+ queueID +:+ nul +:+ phase +:+ nul
         +:+ FormatInt (Z.of_nat index))))).

Definition transport_of (queueID recipient : string) : EnforcementRequest :=
  {| er_stage := StageTransport; er_queue_id := queueID; er_authenticated_mailbox := "";
     er_system_sender_id := ""; er_envelope_sender := ""; er_recipient := recipient;
     er_expansion_sources := [] |}.

(** What the loop over the recipients of a message found. *)
Inductive activation_verdict := DecisionFailed | RequiresHold | AllPermitted.

Fixpoint decide_recipients (holdActor : ActorRef) (correlationID queueID : string)
    (index : nat) (recipients : list string) : M PS activation_verdict :=
  match recipients with
  | [] => mret AllPermitted
  | recipient :: recipients =>
      answer ← Decide holdActor (activationCorrelationID correlationID queueID index "decision")
                 (transport_of queueID recipient);
      match answer with
      | (_, Some _) => mret DecisionFailed
      | (decision, None) =>
          if (d_action decision =?s ActionDefer) && (d_reason decision =?s ReasonPolicyHold)
          then mret RequiresHold
          else if d_action decision <>?s ActionOK then mret DecisionFailed
          else decide_recipients holdActor correlationID queueID (S index) recipients
      end
  end.

Context `{BOUND : !QueueBoundary PS}.

(** How one selected message ended. *)
Inductive activation_end := EndHeld | EndAlreadyHeld | EndNotBlocked | EndFailed.

Definition activate_queue (holdActor actor : ActorRef) (correlationID queueID : string)
    : M PS activation_end :=
  loaded ← tryM (Load queueID);
  match loaded with
  | Err _ => mret EndFailed
  | Ok record =>
      verdict ← decide_recipients holdActor correlationID queueID 0 (qr_recipients record);
      match verdict with
      | DecisionFailed => mret EndFailed
      | AllPermitted => mret EndNotBlocked
      | RequiresHold =>
          reconciled ← tryM (Reconcile actor
                         (activationCorrelationID correlationID queueID 0 "reconcile") queueID);
          mret match reconciled with
               | Ok (result, None) => if rr_changed result then EndHeld else EndAlreadyHeld
               | _ => EndFailed
               end
      end
  end.

Definition count_end (e : activation_end) (s : ActivationReconciliation)
    : ActivationReconciliation :=
  {| ar_selected := ar_selected s;
     ar_held := ar_held s + (match e with EndHeld => 1 | _ => 0 end);
     ar_already_held := ar_already_held s + (match e with EndAlreadyHeld => 1 | _ => 0 end);
     ar_no_longer_blocked :=
       ar_no_longer_blocked s + (match e with EndNotBlocked => 1 | _ => 0 end);
     ar_failed := ar_failed s + (match e with EndFailed => 1 | _ => 0 end) |}.

Fixpoint activate_queues (holdActor actor : ActorRef) (correlationID : string)
    (queueIDs : list string) (summary : ActivationReconciliation)
    : M PS ActivationReconciliation :=
  match queueIDs with
  | [] => mret summary
  | queueID :: queueIDs =>
      e ← activate_queue holdActor actor correlationID queueID;
      activate_queues holdActor actor correlationID queueIDs (count_end e summary)
  end.

Definition with_summary (s : ActivationReconciliation) (r : ChangeResult) : ChangeResult :=
  {| cr_plan := cr_plan r; cr_changed := cr_changed r; cr_reconciliation := Some s |}.

(** ActivationService.Apply; [services] holds the hold actor of the policy
    service, or [None] when the policy service or the reconciler is nil. *)
Definition ActivationApply (services : option ActorRef) (actor : ActorRef)
    (correlationID rawDomain requested confirmation : string) : M PS ChangeResult :=
  result ← ApplyChange actor correlationID rawDomain requested confirmation;
  if requested <>?s ScopeSameDomainOnly then mret result else
  let queueIDs := cp_affected_queue_ids (cr_plan result) in
  let selected := length queueIDs in
  let summary := {| ar_selected := selected; ar_held := 0; ar_already_held := 0;
                    ar_no_longer_blocked := 0; ar_failed := 0 |} in
  if selected =? 0 then mret (with_summary summary result) else
  match services with
  | None =>
      mret (with_summary {| ar_selected := selected; ar_held := 0; ar_already_held := 0;
                            ar_no_longer_blocked := 0; ar_failed := selected |} result)
  | Some holdActor =>
      final ← activate_queues holdActor actor correlationID queueIDs summary;
      mret (with_summary final result)
  end.
End Services.

(** The limits and the sorted queries are not unfolded by the proofs below. *)
#[global] Opaque maxPolicyAliases alias_impact_rows queued_rows unresolved_sources.

(** ** What a plan is *)

Section Plans.
Context `{HOST : !Host} {PS : Type}.
Implicit Types (w : World PS) (d : DB).

(** The plan as a function of the database. *)
Definition alias_state (rows : list AliasImpactRow) (domain : string) : result (Impact * list N) :=
  alias_impact_loop domain 0 0 no_impact
    (newPolicyStateDigest "gotth-mail/outbound-policy-alias-state/v1") rows.
Definition queue_state (rows : list QueuedRow) (domain : string)
    : result (Z * list N * list string) :=
  queued_impact_loop domain 0 "" []
    (newPolicyStateDigest "gotth-mail/outbound-policy-queue-state/v1") rows.

Definition plan_pure (rawDomain requested : string) d : result ChangePlan :=
  let! _ := guard_err (negb (validScope requested)) "invalid outbound scope" in
  let! domain := NormalizeDomain rawDomain in
  let! row := select_domain domain d in
  let! _ := guard_err (negb (validScope (dm_scope row.2)) || (dm_revision row.2 =? 0)%Z)
              "stored outbound policy state is invalid" in
  let! aliases := alias_state (alias_impact_rows row.1 d) (dm_name row.2) in
  let! _ := guard_err (negb (unresolved_sources d =? 0))
              "active outbound queue contains unresolved policy sources" in
  let! queued := queue_state (queued_rows row.1 (dm_name row.2) d) (dm_name row.2) in
  let plan := {| cp_digest := ""; cp_domain_id := row.1; cp_domain := dm_name row.2;
                 cp_current_scope := dm_scope row.2; cp_requested_scope := requested;
                 cp_revision := Z.to_N (dm_revision row.2);
                 cp_impact := with_queued queued.1.1 aliases.1;
                 cp_state_digest := digestStrings
                   ["gotth-mail/outbound-policy-state/v1"; sha256_hex aliases.2;
                    sha256_hex queued.1.2];
                 cp_affected_queue_ids := queued.2 |} in
  let! digest := planDigest plan in
  Ok (with_digest digest plan).

Lemma loadChangePlan_ok raw requested w plan w' :
  loadChangePlan raw requested w = (Ok plan, w') ->
  plan_pure raw requested (w_db w) = Ok plan /\ w_db w' = w_db w /\ w_ext w' = w_ext w.
Proof.
  unfold loadChangePlan, loadAliasImpact, loadQueuedRecipientImpact, plan_pure. intros H.
  apply bind_ok in H as ([] & ? & [-> ->]%guardM_ok & H).
  apply bind_ok in H as (domain & ? & [-> ->]%liftM_ok & H).
  apply bind_ok in H as (row & w1 & (Hr & D1 & X1)%queryM_ok & H).
  apply bind_ok in H as ([] & ? & [Hg ->]%guardM_ok & H).
  apply bind_ok in H as (al & w2 & Hal & H).
  apply bind_ok in Hal as (rows & w3 & ([= <-] & D3 & X3)%queryM_ok & Hal).
  apply bind_ok in Hal as (st & ? & [Hst ->]%liftM_ok & [= <- <-]).
  apply bind_ok in H as (qu & w4 & Hqu & H).
  apply bind_ok in Hqu as (un & w5 & ([= <-] & D5 & X5)%queryM_ok & Hqu).
  apply bind_ok in Hqu as ([] & ? & [Hun ->]%guardM_ok & Hqu).
  apply bind_ok in Hqu as (qrows & w6 & ([= <-] & D6 & X6)%queryM_ok & Hqu).
  apply bind_ok in Hqu as (qst & ? & [Hqst ->]%liftM_ok & [= <- <-]).
  apply bind_ok in H as (dg & ? & [Hdg ->]%liftM_ok & [= <- <-]).
  rewrite D5, D3, D1 in Hqst. rewrite D3, D1 in Hun. rewrite D1 in Hst.
  unfold alias_state, queue_state. cbn [rbind guard_err]. rewrite Hr. cbn [rbind].
  rewrite Hg. cbn [rbind guard_err]. rewrite Hst. cbn [rbind]. rewrite Hun.
  cbn [rbind guard_err]. rewrite Hqst. cbn [rbind]. simpl in Hdg |- *. rewrite Hdg.
  cbn [rbind]. split_and!; [done|congruence..].
Qed.
End Plans.

(** ** Applying a change *)

Section Apply.
Context `{HOST : !Host} {PS : Type}.
Implicit Types (w : World PS) (d : DB).

Lemma update_scope_ok id scope revision d n d' :
  update_scope id scope revision d = Ok (n, d') -> n = 1 ->
  exists row, db_domains d !! id = Some row /\ dm_revision row = Z.of_N revision
    /\ domain_row_check (set_scope scope row) = true
    /\ d' = with_domains (<[id := set_scope scope row]>) d.
Proof.
  unfold update_scope. intros H ->. destruct (db_domains d !! id) as [row|]; [|done].
  destruct (dm_revision row =? Z.of_N revision)%Z eqn:Er; [|done]. to_prop.
  destruct (domain_row_check _) eqn:Ec; [|done]. injection H as <-. by exists row.
Qed.

Lemma select_domain_ok name d id row :
  select_domain name d = Ok (id, row) ->
  db_domains d !! id = Some row /\ dm_name row = name /\ dm_enabled row = true
  /\ (0 <= dm_revision row)%Z.
Proof.
  unfold select_domain. destruct (find _ _) as [[i r]|] eqn:E; [|done].
  apply find_some in E as [Hin%list_elem_of_In%elem_of_map_to_list He].
  destruct (dm_revision r <? 0)%Z eqn:Er; [done|]. intros [= <- <-]. simpl in He.
  to_prop. split_and!; tauto || lia.
Qed.

(** The fields of a plan, read off the database. *)
Lemma plan_pure_fields raw requested d plan :
  plan_pure raw requested d = Ok plan ->
  exists row, db_domains d !! cp_domain_id plan = Some row /\ dm_enabled row = true
    /\ NormalizeDomain raw = Ok (cp_domain plan) /\ dm_name row = cp_domain plan
    /\ dm_scope row = cp_current_scope plan
    /\ validScope requested && validScope (cp_current_scope plan) = true
    /\ cp_requested_scope plan = requested /\ dm_revision row = Z.of_N (cp_revision plan)
    /\ planDigest plan = Ok (cp_digest plan)
    /\ exists aliases qdigest qcount,
         alias_state (alias_impact_rows (cp_domain_id plan) d) (cp_domain plan) = Ok aliases
         /\ queue_state (queued_rows (cp_domain_id plan) (cp_domain plan) d) (cp_domain plan)
            = Ok (qcount, qdigest, cp_affected_queue_ids plan)
         /\ cp_impact plan = with_queued qcount aliases.1
         /\ cp_state_digest plan = digestStrings
              ["gotth-mail/outbound-policy-state/v1"; sha256_hex aliases.2; sha256_hex qdigest].
Proof.
  unfold plan_pure. intros H.
  destruct (validScope requested) eqn:Ev; [|done]. cbn [negb guard_err rbind] in H.
  apply rbind_ok in H as (domain & Hd & H).
  apply rbind_ok in H as ([id row] & (Hrow & Hn & He & Hpos)%select_domain_ok & H).
  apply rbind_ok in H as (u & Hg & H). apply rbind_ok in H as (al & Hal & H).
  apply rbind_ok in H as (u' & _ & H). apply rbind_ok in H as ([[qc qd] ids] & Hq & H).
  apply rbind_ok in H as (dg & Hdg & [= <-]). simpl in *. exists row.
  assert (validScope (dm_scope row) = true) as Hcur.
  { clear -Hg. destruct (validScope (dm_scope row)); [reflexivity|discriminate Hg]. }
  rewrite Z2N.id by done. subst domain. split_and!; try assumption; try reflexivity.
  exists al, qd, qc. by split_and!.
Qed.

(** What one confirmed change writes: the scope and the next revision of one
    domain, and the event that says so. *)
Definition scope_changed (actor : ActorRef) (cid : string) (plan : ChangePlan) d d' : Prop :=
  exists row ev, db_domains d !! cp_domain_id plan = Some row
    /\ dm_scope row = cp_current_scope plan /\ cp_current_scope plan <> cp_requested_scope plan
    /\ dm_revision row = Z.of_N (cp_revision plan)
    /\ d' = with_audit (fun l => l ++ [ev])
              (with_domains (<[cp_domain_id plan := set_scope (cp_requested_scope plan) row]>) d)
    /\ ev_actor ev = actor /\ ev_correlation_id ev = cid
    /\ ev_action ev = "domain.outbound_scope.update"
    /\ ev_resource ev = {| resource_type := "domain"; resource_id := cp_domain_id plan |}.

Lemma apply_body_ok actor cid raw requested confirmation w b res w' :
  apply_body actor cid raw requested confirmation w = (Ok (b, res), w') ->
  let plan := cr_plan res in
  plan_pure raw requested (w_db w) = Ok plan
  /\ equalPlanDigest (cp_digest plan) confirmation = true /\ cr_changed res = b
  /\ cr_reconciliation res = None
  /\ if b then scope_changed actor cid plan (w_db w) (w_db w')
     else cp_current_scope plan = cp_requested_scope plan.
Proof.
  unfold apply_body. intros H.
  apply bind_ok in H as (plan & w1 & (Hp & D1 & X1)%loadChangePlan_ok & H).
  apply bind_ok in H as ([] & ? & [Hg ->]%guardM_ok & H). to_prop.
  destruct (cp_current_scope plan =?s cp_requested_scope plan) eqn:Es; to_prop.
  { injection H as <- <- <-. by split_and!. }
  apply bind_ok in H as (now & w2 & [D2 X2]%nowM_db & H).
  apply bind_ok in H as (n & w3 & [Hu X3]%execM_ok & H).
  apply bind_ok in H as ([] & ? & [Hn ->]%guardM_ok & H). to_prop.
  apply update_scope_ok in Hu as (row & Hrow & Hrev & _ & D3); [|done].
  apply bind_ok in H as ([] & w4 & (ev & D4 & _ & Ha & Hr & Hc & Hcid & _)%WriteSQL_ok & H).
  injection H as <- <- <-. simpl. split_and!; [done..|].
  rewrite D2, D1 in Hrow, D3. exists row, ev. rewrite D4, D3. split_and!; try done.
  apply plan_pure_fields in Hp as (row' & Hrow' & _ & _ & _ & <- & _). congruence.
Qed.

(** A transaction changes the database only to what its body committed. *)
Lemma transaction_db {A} (body : M PS (bool * A)) w :
  w_db (transaction body w).2 = w_db w
  \/ exists w1 a w2, body w1 = (Ok (true, a), w2) /\ w_db w1 = w_db w
       /\ w_db (transaction body w).2 = w_db w2.
Proof.
  unfold transaction. destruct (next_outcome w) as [o w1] eqn:E.
  apply next_outcome_db in E as [Hd _]. destruct o; [|by left..].
  destruct (body w1) as [[[[] a]|e] w2] eqn:Eb; [|by left..].
  destruct (next_outcome w2) as [c w3] eqn:E2. apply next_outcome_db in E2 as [Hd2 _].
  destruct c; [right|by left|right]; by exists w1, a, w2.
Qed.

Lemma ApplyChange_ok actor cid raw requested confirmation w r w' :
  ApplyChange actor cid raw requested confirmation w = (r, w') ->
  (w_db w' = w_db w
   \/ exists plan, plan_pure raw requested (w_db w) = Ok plan
        /\ equalPlanDigest (cp_digest plan) confirmation = true
        /\ scope_changed actor cid plan (w_db w) (w_db w'))
  /\ forall res, r = Ok res ->
       let plan := cr_plan res in
       plan_pure raw requested (w_db w) = Ok plan
       /\ equalPlanDigest (cp_digest plan) confirmation = true
       /\ if cr_changed res then scope_changed actor cid plan (w_db w) (w_db w')
          else cp_current_scope plan = cp_requested_scope plan /\ w_db w' = w_db w.
Proof.
  unfold ApplyChange. rewrite bind_run. unfold guardM. destruct (_ || _).
  { intros [= <- <-]. split; [by left|done]. }
  cbn. intros H. split.
  - destruct (transaction_db (apply_body actor cid raw requested confirmation) w)
      as [E|(w1 & res & w2 & Hb & D1 & D2)]; rewrite H in *; [by left|right].
    apply apply_body_ok in Hb as (Hp & He & _ & _ & Hs). rewrite D1 in *. simpl in D2.
    rewrite D2. by exists (cr_plan res).
  - intros res ->. apply transaction_ok in H as (w1 & c & w2 & Hb & D1 & _ & _ & D2).
    apply apply_body_ok in Hb as (Hp & He & -> & _ & Hs). rewrite D1, D2 in *.
    split_and!; [done..|]. by destruct c.
Qed.

(** C17: a scope change is all or nothing and confirmed: whatever fails, the
    database is left as it was or holds exactly the confirmed change (one
    domain row moves to the requested scope and its next revision, and one
    audit event names the actor and the domain); and a reported success
    answers for the plan of the database it ran on, whose digest the
    administrator confirmed. *)
Theorem ApplyChange_atomic actor cid raw requested confirmation w r w' :
  ApplyChange actor cid raw requested confirmation w = (r, w') ->
  (w_db w' = w_db w
   \/ exists plan, plan_pure raw requested (w_db w) = Ok plan
        /\ equalPlanDigest (cp_digest plan) confirmation = true
        /\ scope_changed actor cid plan (w_db w) (w_db w'))
  /\ forall res, r = Ok res ->
       let plan := cr_plan res in
       plan_pure raw requested (w_db w) = Ok plan
       /\ equalPlanDigest (cp_digest plan) confirmation = true
       /\ if cr_changed res then scope_changed actor cid plan (w_db w) (w_db w')
          else cp_current_scope plan = cp_requested_scope plan /\ w_db w' = w_db w.
Proof. apply ApplyChange_ok. Qed.
End Apply.
