(* ===== verification/Activation.v ===== *)
(** * What activating a restriction achieves
      (internal/outboundpolicy/admin.go: ActivationService.Apply)

    The selection of affected messages is exact, one message is driven without
    touching the rows of the others, and an activation without failures leaves
    every affected message held. *)

From stdpp Require Import base list gmap sets strings sorting relations.
From Stdlib Require Import ZArith Lia.
From S2P Require Import Prelude GoStd Sha256 Policy Queue AuditLog Database QueueStore Sources HoldMachine Reconcile Decision Admin.

(** ** Selection *)

Section Selection.
Context `{HOST : !Host}.
Implicit Types (d : DB) (rows : list QueuedRow).

(** An active message with authority in the domain and a recipient outside. *)
Definition leaks d (domainID domain q : string) : Prop :=
  exists row rs r rdom s enabled,
    db_queues d !! q = Some row /\ qw_hold_state row <> HoldReleased
    /\ db_recipients d !! q = Some rs /\ rs !! r = Some rdom /\ rdom <> domain
    /\ s ∈ (default ∅ (db_sources d !! q) : gset QueueSource)
    /\ source_object d s = Some (enabled, domainID).

Lemma has_source_in_spec d domainID q :
  has_source_in d domainID q = true <->
  exists s enabled, s ∈ (default ∅ (db_sources d !! q) : gset QueueSource)
    /\ source_object d s = Some (enabled, domainID).
Proof.
  unfold has_source_in. rewrite existsb_exists. split.
  - intros (s & Hs%list_elem_of_In%elem_of_elements & He).
    destruct (source_object d s) as [[en id]|] eqn:E; [|done]. to_prop. subst. by exists s, en.
  - intros (s & en & Hs & E). exists s. rewrite E, eqs_refl. split; [|done].
    by apply list_elem_of_In, elem_of_elements.
Qed.

Transparent queued_rows.
Lemma elem_of_queued_rows d domainID domain x :
  x ∈ queued_rows domainID domain d <->
  exists row rs rdom, db_queues d !! qi_queue_id x = Some row
    /\ qw_hold_state row <> HoldReleased /\ has_source_in d domainID (qi_queue_id x) = true
    /\ db_recipients d !! qi_queue_id x = Some rs /\ rs !! qi_recipient x = Some rdom
    /\ rdom <> domain /\ qi_arrival x = qw_arrival_fingerprint row
    /\ qi_recipients x = qw_recipient_set_digest row /\ qi_sources x = qw_source_set_digest row.
Proof.
  unfold queued_rows. rewrite merge_sort_Permutation, list_elem_of_In, in_concat. split.
  - intros (l & (p & <- & Hp%list_elem_of_In)%in_map_iff & Hx). destruct p as [q rs].
    apply elem_of_map_to_list in Hp. unfold queued_rows_of in Hx. simpl in Hx.
    destruct (db_queues d !! q) as [row|] eqn:Er; [|done].
    destruct (_ && _) eqn:Ec; [|done]. to_prop.
    apply in_map_iff in Hx as ([r rdom] & <- & [Hr Hd]%filter_In). simpl in *.
    apply list_elem_of_In, elem_of_map_to_list in Hr. to_prop.
    exists row, rs, rdom. split_and!; tauto.
  - intros (row & rs & rdom & Hq & Hs & Hi & Hrs & Hr & Hd & Ha & Hrd & Hsd).
    exists (queued_rows_of domainID domain d (qi_queue_id x, rs)). split.
    + apply in_map_iff. eexists. split; [done|]. by apply list_elem_of_In, elem_of_map_to_list.
    + unfold queued_rows_of. simpl. rewrite Hq, Hi.
      apply eqs_false in Hs. rewrite Hs. simpl. apply in_map_iff.
      exists (qi_recipient x, rdom). split; [destruct x; simpl in *; congruence|].
      apply filter_In. simpl. apply eqs_false in Hd. rewrite Hd. split; [|done].
      by apply list_elem_of_In, elem_of_map_to_list.
Qed.
Opaque queued_rows.

Lemma queued_impact_loop_ids domain rows : forall count lastID ids digest n dg out,
  queued_impact_loop domain count lastID ids digest rows = Ok (n, dg, out) ->
  Forall (fun x => queued_row_valid domain x = true) rows
  /\ (lastID = "" \/ lastID ∈ ids ->
      forall q, q ∈ out <-> q ∈ ids \/ exists x, x ∈ rows /\ qi_queue_id x = q).
Proof.
  induction rows as [|x rows IH]; intros count lastID ids digest n dg out H; simpl in H.
  { injection H as <- <- <-. split; [done|]. intros _ q. split; [by left|].
    intros [?|(y & Hy & _)]; [done|]. by apply not_elem_of_nil in Hy. }
  destruct (_ <=? _)%Z; [done|]. destruct (queued_row_valid domain x) eqn:Ev; [|done].
  apply IH in H as [Hv Hids]. split; [by constructor|]. intros Hlast q.
  assert (qi_queue_id x <> "") as Hne.
  { unfold queued_row_valid in Ev. to_prop. intros E. rewrite E in Ev.
    destruct Ev as [[[[Ev _] _] _] _]. done. }
  rewrite Hids.
  - setoid_rewrite elem_of_cons. destruct (qi_queue_id x =?s lastID) eqn:E; to_prop; simpl.
    + subst lastID. split; [naive_solver|]. intros [?|(y & [->|?] & <-)]; [by left| |].
      * left. by destruct Hlast.
      * right. by exists y.
    + rewrite elem_of_app, list_elem_of_singleton. naive_solver.
  - right. destruct (qi_queue_id x =?s lastID) eqn:E; to_prop; simpl.
    + subst lastID. by destruct Hlast.
    + rewrite elem_of_app, list_elem_of_singleton. by right.
Qed.

(** The plan selects exactly the messages that leak. *)
Lemma affected_exact raw requested d plan q :
  plan_pure raw requested d = Ok plan ->
  q ∈ cp_affected_queue_ids plan <-> leaks d (cp_domain_id plan) (cp_domain plan) q.
Proof.
  intros (drow & _ & _ & _ & _ & _ & _ & _ & _ & _ & al & qd & qc & _ & Hq & _)%plan_pure_fields.
  unfold queue_state in Hq. apply queued_impact_loop_ids in Hq as [_ Hq].
  rewrite Hq by (by left). split.
  - intros [?%not_elem_of_nil|(x & (row & rs & rdom & H)%elem_of_queued_rows & <-)]; [done|].
    destruct H as (? & ? & (s & en & ? & ?)%has_source_in_spec & ? & ? & ? & _).
    by exists row, rs, (qi_recipient x), rdom, s, en.
  - intros (row & rs & r & rdom & s & en & ? & ? & ? & ? & ? & ? & ?). right.
    exists {| qi_queue_id := q; qi_arrival := qw_arrival_fingerprint row;
              qi_recipients := qw_recipient_set_digest row;
              qi_sources := qw_source_set_digest row; qi_recipient := r |}.
    split; [|done]. apply elem_of_queued_rows. exists row, rs, rdom. simpl.
    split_and!; try done. apply has_source_in_spec. by exists s, en.
Qed.
End Selection.

(** ** Driving one message leaves the others alone *)

Definition frame_rows (q : string) : relation DB := fun d d' =>
  forall k, k <> q -> db_queues d' !! k = db_queues d !! k.
#[global] Instance frame_rows_preorder q : PreOrder (frame_rows q).
Proof.
  split; [by intros d k|]. intros d1 d2 d3 H1 H2 k Hk. by rewrite H2, H1.
Qed.

Section Frame.
Context `{HOST : !Host} {PS : Type}.

Lemma frame_WriteSQL q e : effect (PS := PS) (frame_rows q) (WriteSQL e).
Proof. apply effect_WriteSQL; [apply _|]. by intros d e' k. Qed.

Lemma frame_update q cond set (d : DB) n d' :
  update_queue q cond set d = Ok (n, d') -> frame_rows q d d'.
Proof.
  unfold update_queue. intros H k Hk. destruct (db_queues d !! q); [|by injection H as <- <-].
  destruct (cond _); [|by injection H as <- <-]. destruct (queue_row_check _); [|done].
  injection H as <- <-. simpl. by rewrite lookup_insert_ne.
Qed.

Lemma frame_load q k : effect (PS := PS) (frame_rows q) (loadQueueRecord k).
Proof. apply loadQueueRecord_readonly, _. Qed.
#[local] Hint Resolve frame_WriteSQL frame_update frame_load : effects.

Lemma frame_RequireHold actor cid q decision :
  effect (PS := PS) (frame_rows q) (RequireHold actor cid q decision).
Proof. unfold RequireHold, require_hold_body. solve_effect. Qed.

Lemma frame_start actor cid record :
  effect (PS := PS) (frame_rows (qr_queue_id record)) (startQueueReconciliation actor cid record).
Proof. unfold startQueueReconciliation, start_body. solve_effect. Qed.

Lemma frame_finish actor cid record state code :
  effect (PS := PS) (frame_rows (qr_queue_id record))
    (finishQueueReconciliation actor cid record state code).
Proof. unfold finishQueueReconciliation, finish_body. solve_effect. Qed.

Lemma frame_fail actor cid record code :
  effect (PS := PS) (frame_rows (qr_queue_id record)) (reconcile_fail actor cid record code).
Proof.
  unfold reconcile_fail. apply (effect_bind (frame_rows _)); [apply frame_finish|].
  intros _. solve_effect.
Qed.
#[local] Hint Resolve frame_RequireHold frame_start frame_finish frame_fail : effects.

(** A loaded record has the queue ID it was loaded by. *)
Lemma effect_bind_load (R : relation DB) `{!PreOrder R} {B} q (k : QueueRecord -> M PS B) :
  (forall record, qr_queue_id record = q -> effect R (k record)) ->
  effect R (loadQueueRecord q ≫= k).
Proof.
  intros Hk w. pose proof (loadQueueRecord_readonly (PS := PS) q R w) as Hl. rewrite bind_run.
  destruct (loadQueueRecord q w) as [[record|e] w1] eqn:E; [|done]. simpl in Hl.
  apply loadQueueRecord_ok in E as ((row & _ & Hid & _)%load_pure_fields & _).
  etrans; [exact Hl|]. by apply Hk.
Qed.

Lemma effect_bind_Load (R : relation DB) `{!PreOrder R} {B} q (k : QueueRecord -> M PS B) :
  (forall record, qr_queue_id record = q -> effect R (k record)) -> effect R (Load q ≫= k).
Proof.
  intros Hk w. unfold Load. rewrite bind_run, bind_run. unfold guardM.
  destruct (negb (validLongQueueID q)); [done|]. by apply (effect_bind_load R q k Hk w).
Qed.

Context `{BOUND : !QueueBoundary PS}.

Lemma frame_Reconcile actor cid q :
  effect (PS := PS) (frame_rows q) (Reconcile actor cid q).
Proof.
  unfold Reconcile. apply (effect_bind (frame_rows q)); [solve_effect|intros _].
  apply effect_with_queue_lock; [apply _|]. unfold reconcile_locked.
  apply effect_bind_load; [apply _|]. intros record Hid.
  unfold reconcile_attempt, hold_and_inspect.
  pose proof (frame_finish actor cid record HoldApplied "") as Hf.
  pose proof (frame_start actor cid record) as Hs.
  pose proof (frame_fail actor cid record) as Hx. rewrite Hid in Hf, Hs, Hx. solve_effect.
Qed.

Lemma decide_transport_frame actor cid q r :
  effect (PS := PS) (frame_rows q) (decide_transport actor cid (transport_of q r)).
Proof.
  unfold decide_transport. apply (effect_bind (frame_rows q)); [solve_effect|intros _].
  apply effect_bind_Load; [apply _|]. intros record Hid. simpl in Hid. rewrite Hid. solve_effect.
Qed.

Lemma fail_closed_effect (R : relation DB) (body : M PS Decision) :
  effect R body -> effect R (fail_closed body).
Proof.
  intros H w. destruct (fail_closed_run body w) as (dec & err & -> & _). apply H.
Qed.

Lemma Decide_frame actor cid q r :
  effect (PS := PS) (frame_rows q) (Decide actor cid (transport_of q r)).
Proof.
  unfold Decide. apply fail_closed_effect. apply (effect_bind (frame_rows q)); [solve_effect|].
  intros _. apply decide_transport_frame.
Qed.

Lemma Decide_history actor cid q r :
  effect (PS := PS) history (Decide actor cid (transport_of q r)).
Proof.
  unfold Decide. apply fail_closed_effect. apply (effect_bind history); [solve_effect|].
  intros _. simpl. unfold decide_transport, Load.
  pose proof (RequireHold_history (PS := PS)) as Hh. pose proof (load_history (PS := PS)) as Hl.
  solve_effect.
Qed.
End Frame.

(** ** One message *)

Section Message.
Context `{HOST : !Host} {PS : Type} `{BOUND : !QueueBoundary PS}.
Implicit Types (w : World PS) (d : DB).

(** A transport decision without an error that lets the recipient pass. *)
Lemma Decide_transport_allows actor cid q r w dec w' :
  Decide actor cid (transport_of q r) w = (Ok (dec, None), w') -> d_action dec = ActionOK ->
  w_db w' = w_db w
  /\ exists record rcpt dom, load_pure q (w_db w) = Ok record
       /\ normalizeQueueRecipient r = Ok (rcpt, dom)
       /\ policy_allows (w_db w) (qr_sources record) rcpt.
Proof.
  unfold Decide. intros H Hok.
  edestruct (fail_closed_run (PS := PS)) as (dec' & err & E & Herr). rewrite E in H.
  injection H as -> -> Hw'. simpl in Herr.
  apply bind_ok in Herr as ([] & ? & [_ ->]%guardM_ok & H). rewrite Hw' in H.
  apply decide_transport_ok in H
    as (record & rcpt & dom & g & Hl & Hn & _ & _ & Hg & -> & w1 & D1 & _ & Hh).
  rewrite Hok in Hh. cbn [String.eqb] in Hh. rewrite Hh. split; [done|].
  exists record, rcpt, dom. split_and!; [done..|]. by eapply Evaluate_allows.
Qed.

Lemma decide_recipients_moves holdActor cid q rs : forall i,
  effect (PS := PS) history (decide_recipients holdActor cid q i rs)
  /\ effect (PS := PS) (frame_rows q) (decide_recipients holdActor cid q i rs).
Proof.
  induction rs as [|r rs IH]; intros i; simpl; [split; solve_effect|].
  destruct (IH (S i)) as [H1 H2].
  split; (eapply effect_bind; [apply _|first [apply Decide_history|apply Decide_frame]|]);
    intros [dec [e|]]; solve_effect.
Qed.

Lemma decide_recipients_permits holdActor cid q rs : forall i w w',
  decide_recipients holdActor cid q i rs w = (Ok AllPermitted, w') ->
  w_db w' = w_db w
  /\ forall r, r ∈ rs -> exists record rcpt dom, load_pure q (w_db w) = Ok record
       /\ normalizeQueueRecipient r = Ok (rcpt, dom)
       /\ policy_allows (w_db w) (qr_sources record) rcpt.
Proof.
  induction rs as [|r rs IH]; intros i w w' H; simpl in H.
  { injection H as <-. split; [done|]. by intros r ?%not_elem_of_nil. }
  apply bind_ok in H as ([dec [e|]] & w1 & Hd & H); [done|].
  destruct (_ && _); [done|]. destruct (d_action dec =?s ActionOK) eqn:Ea; [|done]. simpl in H.
  apply eqs_true in Ea. apply Decide_transport_allows in Hd as [D1 Hr]; [|done].
  apply IH in H as [D2 Hrs]. rewrite D1 in *. split; [done|].
  intros k [->|Hk]%elem_of_cons; [done|]. by apply Hrs.
Qed.

Lemma activate_queue_moves holdActor actor cid q :
  effect (PS := PS) history (activate_queue holdActor actor cid q)
  /\ effect (PS := PS) (frame_rows q) (activate_queue holdActor actor cid q).
Proof.
  unfold activate_queue. split; (eapply effect_bind; [apply _| |]).
  1, 3: unfold Load; solve_effect; apply loadQueueRecord_readonly, _.
  all: intros [record|e]; [|solve_effect].
  all: (eapply effect_bind; [apply _|apply decide_recipients_moves|]).
  all: intros []; try solve [solve_effect].
  all: (eapply effect_bind; [apply _|apply effect_try|intros ?; solve_effect]).
  - apply Reconcile_effect.
  - apply frame_Reconcile.
Qed.

Lemma activate_queue_ok holdActor actor cid q w e w' :
  activate_queue holdActor actor cid q w = (Ok e, w') ->
  match e with
  | EndHeld | EndAlreadyHeld => state_of (w_db w') q = Some HoldApplied
  | EndNotBlocked => exists record, load_pure q (w_db w) = Ok record
      /\ forall r, r ∈ qr_recipients record -> exists rcpt dom,
           normalizeQueueRecipient r = Ok (rcpt, dom)
           /\ policy_allows (w_db w) (qr_sources record) rcpt
  | EndFailed => True
  end.
Proof.
  unfold activate_queue. intros H. apply bind_ok in H as (loaded & w1 & Hl & H).
  unfold tryM in Hl. destruct (Load q w) as [r w1'] eqn:El. injection Hl as <- <-.
  destruct r as [record|err]; [|by injection H as <- <-].
  unfold Load in El. apply bind_ok in El as ([] & ? & [_ ->]%guardM_ok & El).
  apply loadQueueRecord_ok in El as (Hload & D1 & _).
  apply bind_ok in H as (v & w2 & Hv & H). destruct v.
  - by injection H as <- <-.
  - apply bind_ok in H as (rec & w3 & Hr & H). unfold tryM in Hr.
    destruct (Reconcile actor _ q w2) as [rr w3'] eqn:Er. injection Hr as <- <-.
    injection H as <- <-. destruct rr as [[res [c|]]|]; [done| |done].
    apply Reconcile_ok in Er as (_ & Hst & (row & Hrow & _ & Hs & _)%load_pure_fields & _).
    assert (state_of (w_db w3') q = Some HoldApplied) as Hheld.
    { unfold state_of. rewrite Hrow. simpl. congruence. }
    by destruct (rr_changed res).
  - injection H as <- <-. apply decide_recipients_permits in Hv as [_ Hp]. rewrite D1 in Hp.
    exists record. split; [done|]. intros r (record' & rcpt & dom & Hl' & ? & ?)%Hp.
    rewrite Hload in Hl'. injection Hl' as <-. by exists rcpt, dom.
Qed.
End Message.

(** ** The whole activation *)

Section Activation.
Context `{HOST : !Host} {PS : Type} `{BOUND : !QueueBoundary PS}.
Implicit Types (w : World PS) (d : DB).

(** The immutable part of [leaks]. *)
Definition outside d (domainID domain q : string) : Prop :=
  exists rs r rdom s enabled,
    db_recipients d !! q = Some rs /\ rs !! r = Some rdom /\ rdom <> domain
    /\ s ∈ (default ∅ (db_sources d !! q) : gset QueueSource)
    /\ source_object d s = Some (enabled, domainID).

Definition restricted d (domainID domain : string) : Prop :=
  exists row, db_domains d !! domainID = Some row /\ dm_name row = domain
    /\ dm_scope row = ScopeSameDomainOnly.

Lemma load_pure_recipient q d record r rdom rs :
  load_pure q d = Ok record -> db_recipients d !! q = Some rs -> rs !! r = Some rdom ->
  r ∈ qr_recipients record /\ normalizeQueueRecipient r = Ok (r, rdom).
Proof.
  intros Hl Hrs Hr.
  assert ((r, rdom) ∈ select_recipients q d) as Hin.
  { unfold select_recipients. rewrite merge_sort_Permutation, Hrs. simpl.
    by apply elem_of_map_to_list. }
  apply load_pure_fields in Hl as Hf.
  destruct Hf as (row & _ & _ & _ & _ & _ & _ & _ & _ & _ & _ & -> & _). split.
  - apply list_elem_of_fmap. by exists (r, rdom).
  - unfold load_pure in Hl. apply rbind_ok in Hl as (row' & _ & Hl).
    apply rbind_ok in Hl as (parent & _ & Hl).
    apply rbind_ok in Hl as (l & (_ & Hall & _)%load_recipients_ok & _).
    rewrite Forall_forall in Hall. by apply Hall in Hin.
Qed.

(** A restricted domain lets no message that leaks pass. *)
Lemma outside_refused d domainID domain q record :
  restricted d domainID domain -> outside d domainID domain q ->
  load_pure q d = Ok record ->
  (forall r, r ∈ qr_recipients record -> exists rcpt dom,
     normalizeQueueRecipient r = Ok (rcpt, dom)
     /\ policy_allows d (qr_sources record) rcpt) -> False.
Proof.
  intros (row & Hrow & Hname & Hscope) (rs & r & rdom & s & en & Hrs & Hr & Hne & Hs & Ho) Hl Hall.
  destruct (load_pure_recipient _ _ _ _ _ _ Hl Hrs Hr) as [Hin Hnorm].
  destruct (Hall r Hin) as (rcpt & dom & Hn & rc & Hrc & Hsrc). rewrite Hnorm in Hn.
  injection Hn as <- <-.
  destruct (Hsrc s) as (drow & (did & Ho' & Hd & _) & Hsame).
  { apply load_pure_fields in Hl as (? & _ & _ & _ & _ & _ & _ & _ & _ & _ & _ & _ & ->).
    unfold select_sources. rewrite merge_sort_Permutation. by apply elem_of_elements. }
  rewrite Ho in Ho'. injection Ho' as _ <-. rewrite Hrow in Hd. injection Hd as <-.
  specialize (Hsame Hscope). unfold normalizeQueueRecipient in Hnorm. rewrite Hrc in Hnorm.
  destruct (SplitLastByte _ _) as [[? ?]|]; simplify_eq; congruence.
Qed.

Lemma other_tables_same d d' domainID domain q :
  other_tables d' = other_tables d ->
  (restricted d domainID domain -> restricted d' domainID domain)
  /\ (outside d domainID domain q -> outside d' domainID domain q).
Proof.
  unfold other_tables. intros [= E1 E2 E3 E4 E5 E6]. unfold restricted, outside, source_object.
  by rewrite E1, E2, E3, E4, E5, E6.
Qed.

Lemma history_tables d d' : history d d' -> other_tables d' = other_tables d.
Proof. by intros [evs [_ Ht _ _]]%history_explained. Qed.

Definition balanced (s : ActivationReconciliation) : nat :=
  ar_held s + ar_already_held s + ar_no_longer_blocked s + ar_failed s.

Lemma activate_queues_ok holdActor actor cid domainID domain ids : forall s w s' w',
  activate_queues holdActor actor cid ids s w = (Ok s', w') ->
  restricted (w_db w) domainID domain ->
  (forall q, q ∈ ids -> outside (w_db w) domainID domain q) ->
  ar_selected s' = ar_selected s /\ balanced s' = balanced s + length ids
  /\ ar_no_longer_blocked s' = ar_no_longer_blocked s /\ ar_failed s <= ar_failed s'
  /\ history (w_db w) (w_db w')
  /\ (ar_failed s' = ar_failed s -> forall q,
        q ∈ ids \/ state_of (w_db w) q = Some HoldApplied ->
        state_of (w_db w') q = Some HoldApplied).
Proof.
  induction ids as [|q ids IH]; intros s w s' w' H Hr Ho; simpl in H.
  { injection H as <- <-. simpl. split_and!; [done|lia|done|done|done|].
    intros _ q [?%not_elem_of_nil|?]; done. }
  apply bind_ok in H as (e & w1 & He & H).
  destruct (activate_queue_moves holdActor actor cid q) as [Hh Hf].
  specialize (Hh w). specialize (Hf w). rewrite He in Hh, Hf. simpl in Hh, Hf.
  apply activate_queue_ok in He as Hend.
  pose proof (other_tables_same _ _ domainID domain q (history_tables _ _ Hh)) as [Hr1 _].
  assert (e <> EndNotBlocked) as Hnb.
  { intros ->. destruct Hend as (record & Hl & Hall).
    eapply outside_refused; [exact Hr| |exact Hl|exact Hall]. apply Ho. left. }
  apply IH in H as (Hsel & Hbal & Hnl & Hfa & Hh2 & Hheld); [|by apply Hr1|].
  2: { intros k Hk. eapply other_tables_same; [by apply history_tables|]. apply Ho. by right. }
  assert (ar_no_longer_blocked (count_end e s) = ar_no_longer_blocked s) as En.
  { destruct e; simpl; lia || done. }
  assert (balanced (count_end e s) = S (balanced s)) as Eb.
  { unfold balanced. destruct e; simpl; lia. }
  split_and!; [done|simpl; lia|congruence| |by etrans|].
  - destruct e; simpl in Hfa; lia.
  - intros Hff k Hk. assert (e <> EndFailed) as Hne.
    { intros ->. simpl in Hfa. lia. }
    apply Hheld; [destruct e; simpl in Hfa |- *; lia || done|].
    destruct (decide (k = q)) as [->|Hkq].
    + right. by destruct e.
    + destruct Hk as [[->|Hk]%elem_of_cons|Hk]; [done|by left|right].
      unfold state_of in *. by rewrite Hf.
Qed.

Lemma applied_restricted actor cid raw confirmation w res w' :
  ApplyChange actor cid raw ScopeSameDomainOnly confirmation w = (Ok res, w') ->
  let plan := cr_plan res in
  plan_pure raw ScopeSameDomainOnly (w_db w) = Ok plan
  /\ restricted (w_db w') (cp_domain_id plan) (cp_domain plan)
  /\ forall q, leaks (w_db w) (cp_domain_id plan) (cp_domain plan) q ->
       outside (w_db w') (cp_domain_id plan) (cp_domain plan) q.
Proof.
  intros H plan. apply ApplyChange_ok in H as [_ H]. destruct (H res) as (Hp & _ & Hc); [done|].
  fold plan in Hp, Hc. split; [done|].
  apply plan_pure_fields in Hp as (row & Hrow & _ & _ & Hn & Hs & _ & Hreq & _).
  destruct (cr_changed res).
  - destruct Hc as (row' & ev & Hrow' & _ & _ & _ & -> & _). rewrite Hrow in Hrow'.
    injection Hrow' as <-. split.
    + eexists. simpl. rewrite lookup_insert_eq. split; [done|]. simpl. by rewrite Hreq.
    + intros q (qrow & rs & r & rd & s & en & _ & _ & ? & ? & ? & ? & ?).
      by exists rs, r, rd, s, en.
  - destruct Hc as [Hsame ->]. split.
    + exists row. split_and!; [done..|]. congruence.
    + intros q (qrow & rs & r & rd & s & en & _ & _ & ? & ? & ? & ? & ?).
      by exists rs, r, rd, s, en.
Qed.

(** C18: activating a restriction reaches every message it concerns: the
    selection is all of them, each one ends held, already held or failed
    (none slips through as no longer blocked), and when nothing failed every
    active message that had authority in the domain and a recipient outside
    it is recorded as held and the domain is restricted.  This holds under
    every schedule of database failures and every behaviour of Postfix. *)
Theorem ActivationApply_holds holdActor actor cid raw confirmation w res w' :
  ActivationApply (Some holdActor) actor cid raw ScopeSameDomainOnly confirmation w
    = (Ok res, w') ->
  let plan := cr_plan res in
  exists s, cr_reconciliation res = Some s
    /\ ar_selected s = length (cp_affected_queue_ids plan)
    /\ ar_held s + ar_already_held s + ar_failed s = ar_selected s
    /\ ar_no_longer_blocked s = 0
    /\ restricted (w_db w') (cp_domain_id plan) (cp_domain plan)
    /\ (ar_failed s = 0 ->
        forall q, leaks (w_db w) (cp_domain_id plan) (cp_domain plan) q ->
          state_of (w_db w') q = Some HoldApplied).
Proof.
  unfold ActivationApply. intros H. apply bind_ok in H as (r & w1 & Ha & H).
  apply applied_restricted in Ha as (Hp & Hr & Ho). cbv zeta in H.
  rewrite eqs_refl in H. simpl negb in H. cbv iota in H.
  destruct (length (cp_affected_queue_ids (cr_plan r)) =? 0) eqn:E0.
  { injection H as <- <-. simpl in *. apply Nat.eqb_eq in E0. eexists. split; [done|].
    simpl. rewrite E0. split_and!; [done..|]. intros _ q Hq.
    apply (affected_exact _ _ _ _ _ Hp) in Hq. apply length_zero_iff_nil in E0.
    rewrite E0 in Hq. by apply not_elem_of_nil in Hq. }
  apply bind_ok in H as (s & w2 & Hs & H). injection H as <- <-. simpl.
  apply (activate_queues_ok _ _ _ (cp_domain_id (cr_plan r)) (cp_domain (cr_plan r))) in Hs
    as (Hsel & Hbal & Hnl & _ & Hh & Hheld); [|done|].
  2: { intros q Hq. apply Ho. by apply (affected_exact _ _ _ _ _ Hp). }
  simpl in *. exists s. unfold balanced in Hbal. simpl in Hbal.
  split_and!; [done|done|lia|done| |].
  - by eapply (other_tables_same _ _ _ _ ""); [apply history_tables|].
  - intros Hf q Hq. apply Hheld; [done|]. left. by apply (affected_exact _ _ _ _ _ Hp).
Qed.
End Activation.
