(* ===== verification/Daemon.v ===== *)
(** * The core's control service: responses and outbound operations
      (internal/daemon/daemon.go)

    [Service] is the state of the daemon, [Response] the answer every lookup
    and operation gives.  The outbound operations here call the policy,
    admission, reconciliation and release services and reduce their results
    to a closed set of decisions and reasons.  The Postfix, Dovecot and Rspamd
    lookups are in Lookup.v, the routes in Routes.v. *)

From stdpp Require Import base list gmap sets strings.
From Stdlib Require Import ZArith Lia Ascii.
From S2P Require Import Prelude GoStd Json JsonText JsonStruct Sha256 Policy Queue AuditLog Database QueueStore Sources Admission HoldMachine Reconcile Postfix Http Helper Release Decision.

Definition DecisionOK : string := "ok".
Definition NotFound : string := "not_found".
Definition DecisionReject : string := "reject".
Definition DecisionDefer : string := "defer".
Definition DecisionError : string := "error".

Record Response := {
  rp_correlation_id : string;
  rp_decision : string;
  rp_reason : string;
  rp_message : string;
  rp_targets : GoSlice string;
  rp_home : string;
  rp_uid : Z;
  rp_gid : Z;
  rp_quota_bytes : Z;
  rp_domains : GoSlice string;
  rp_selector : string;
  rp_key_path : string;
  rp_allowed : bool;
  rp_retry_after_sec : Z;
  rp_transport : string;
  rp_policy_revisions : gmap string N;
  rp_queue_id : string;
  rp_queue_state : string;
  rp_confirmation : string;
  rp_last_error_code : string;
  rp_recipient_count : Z;
  rp_source_count : Z;
  rp_attempts : N;
  rp_postfix_held : bool;
  rp_consistent : bool;
}.

#[export] Instance response_eta : Eta Response := fun r =>
  {| rp_correlation_id := rp_correlation_id r; rp_decision := rp_decision r;
     rp_reason := rp_reason r; rp_message := rp_message r; rp_targets := rp_targets r;
     rp_home := rp_home r; rp_uid := rp_uid r; rp_gid := rp_gid r;
     rp_quota_bytes := rp_quota_bytes r; rp_domains := rp_domains r;
     rp_selector := rp_selector r; rp_key_path := rp_key_path r; rp_allowed := rp_allowed r;
     rp_retry_after_sec := rp_retry_after_sec r; rp_transport := rp_transport r;
     rp_policy_revisions := rp_policy_revisions r; rp_queue_id := rp_queue_id r;
     rp_queue_state := rp_queue_state r; rp_confirmation := rp_confirmation r;
     rp_last_error_code := rp_last_error_code r; rp_recipient_count := rp_recipient_count r;
     rp_source_count := rp_source_count r; rp_attempts := rp_attempts r;
     rp_postfix_held := rp_postfix_held r; rp_consistent := rp_consistent r |}.

Definition zero_response : Response :=
  {| rp_correlation_id := ""; rp_decision := ""; rp_reason := ""; rp_message := "";
     rp_targets := nil_slice; rp_home := ""; rp_uid := 0; rp_gid := 0; rp_quota_bytes := 0;
     rp_domains := nil_slice; rp_selector := ""; rp_key_path := ""; rp_allowed := false;
     rp_retry_after_sec := 0; rp_transport := ""; rp_policy_revisions := ∅; rp_queue_id := "";
     rp_queue_state := ""; rp_confirmation := ""; rp_last_error_code := "";
     rp_recipient_count := 0; rp_source_count := 0; rp_attempts := 0%N;
     rp_postfix_held := false; rp_consistent := false |}.

(** ** The response on the wire *)

Definition omit_string (name s : string) := omitempty (s =?s "") name (VStr s).
Definition omit_int (name : string) (n : Z) := omitempty (n =? 0)%Z name (int_json n).
Definition omit_bool (name : string) (b : bool) := omitempty (negb b) name (VBool b).
Definition omit_strings (name : string) (s : GoSlice string) :=
  omitempty (sl_len s =? 0) name (VArr (map VStr (slice_list s))).

(** [json.Encoder.Encode] of a [Response]. *)
Definition response_json (r : Response) : jval :=
  VObj ([("correlation_id", VStr (rp_correlation_id r)); ("decision", VStr (rp_decision r));
         ("reason", VStr (rp_reason r))]
    ++ omit_string "message" (rp_message r)
    ++ omit_strings "targets" (rp_targets r)
    ++ omit_string "home" (rp_home r)
    ++ omit_int "uid" (rp_uid r)
    ++ omit_int "gid" (rp_gid r)
    ++ omit_int "quota_bytes" (rp_quota_bytes r)
    ++ omit_strings "domains" (rp_domains r)
    ++ omit_string "selector" (rp_selector r)
    ++ omit_string "key_path" (rp_key_path r)
    ++ omit_bool "allowed" (rp_allowed r)
    ++ omit_int "retry_after_sec" (rp_retry_after_sec r)
    ++ omit_string "transport" (rp_transport r)
    ++ omitempty (size (rp_policy_revisions r) =? 0) "policy_revisions"
         (map_json uint_json (rp_policy_revisions r))
    ++ omit_string "queue_id" (rp_queue_id r)
    ++ omit_string "queue_state" (rp_queue_state r)
    ++ omit_string "confirmation" (rp_confirmation r)
    ++ omit_string "last_error_code" (rp_last_error_code r)
    ++ omit_int "recipient_count" (rp_recipient_count r)
    ++ omit_int "source_count" (rp_source_count r)
    ++ omitempty (rp_attempts r =? 0)%N "attempts" (uint_json (rp_attempts r))
    ++ omit_bool "postfix_held" (rp_postfix_held r)
    ++ omit_bool "consistent" (rp_consistent r)).

(** The members a strict reader of [Response] knows. *)
Definition response_fields : struct_type Response :=
  [("correlation_id", member rp_correlation_id store_string);
   ("decision", member rp_decision store_string);
   ("reason", member rp_reason store_string);
   ("message", member rp_message store_string);
   ("targets", member rp_targets (store_slice store_string ""));
   ("home", member rp_home store_string);
   ("uid", member rp_uid store_int);
   ("gid", member rp_gid store_int);
   ("quota_bytes", member rp_quota_bytes store_int);
   ("domains", member rp_domains (store_slice store_string ""));
   ("selector", member rp_selector store_string);
   ("key_path", member rp_key_path store_string);
   ("allowed", member rp_allowed store_bool);
   ("retry_after_sec", member rp_retry_after_sec store_int);
   ("transport", member rp_transport store_string);
   ("policy_revisions", member rp_policy_revisions (store_map store_uint 0%N));
   ("queue_id", member rp_queue_id store_string);
   ("queue_state", member rp_queue_state store_string);
   ("confirmation", member rp_confirmation store_string);
   ("last_error_code", member rp_last_error_code store_string);
   ("recipient_count", member rp_recipient_count store_int);
   ("source_count", member rp_source_count store_int);
   ("attempts", member rp_attempts store_uint);
   ("postfix_held", member rp_postfix_held store_bool);
   ("consistent", member rp_consistent store_bool)].

(** ** The service *)

Record Domain := {
  do_name : string; do_enabled : bool; do_transport : string; do_dkim_selector : string;
  do_dkim_private_key_path : string;
}.
Record Mailbox := {
  ml_address : string; ml_enabled : bool; ml_home : string; ml_uid : Z; ml_gid : Z;
  ml_quota_bytes : Z; ml_verifier : string; ml_default_sieve : string;
}.
Record Alias := { as_address : string; as_enabled : bool; as_targets : list string }.
Record RateLimit := { rt_allowed : bool; rt_retry_after_sec : Z }.

(** A pointer that may be nil is an option; the services themselves work on
    the database of the world.  A nil slice of verifiers is [None]. *)
Record Service := {
  sv_unavailable : bool;
  sv_domains : gmap string Domain;
  sv_mailboxes : gmap string Mailbox;
  sv_aliases : gmap string Alias;
  sv_rate_limits : gmap string RateLimit;
  sv_verifiers : gmap string (option (list string));
  sv_audit : bool;
  sv_outbound_policy : option ActorRef;
  sv_outbound_admission : bool;
  sv_outbound_reconciler : bool;
  sv_outbound_release : bool;
  sv_helper_token : list N;
  sv_helper_enabled : bool;
  sv_release_token : list N;
  sv_release_enabled : bool;
}.

#[export] Instance service_eta : Eta Service := fun s =>
  {| sv_unavailable := sv_unavailable s; sv_domains := sv_domains s;
     sv_mailboxes := sv_mailboxes s; sv_aliases := sv_aliases s;
     sv_rate_limits := sv_rate_limits s; sv_verifiers := sv_verifiers s;
     sv_audit := sv_audit s; sv_outbound_policy := sv_outbound_policy s;
     sv_outbound_admission := sv_outbound_admission s;
     sv_outbound_reconciler := sv_outbound_reconciler s;
     sv_outbound_release := sv_outbound_release s; sv_helper_token := sv_helper_token s;
     sv_helper_enabled := sv_helper_enabled s; sv_release_token := sv_release_token s;
     sv_release_enabled := sv_release_enabled s |}.

Definition ConfigurePostfixHelperToken (token : string) (s : Service) : result Service :=
  if negb (valid_token token) then Err "invalid Postfix helper token" else
  let digest := token_bytes token in
  if sv_release_enabled s && bool_decide (digest = sv_release_token s)
  then Err "Postfix helper token must differ from release token" else
  Ok (put sv_helper_enabled true (put sv_helper_token digest s)).

Definition ConfigurePostfixReleaseToken (token : string) (s : Service) : result Service :=
  if negb (valid_token token) then Err "invalid Postfix release token" else
  let digest := token_bytes token in
  if sv_helper_enabled s && bool_decide (digest = sv_helper_token s)
  then Err "Postfix release token must differ from helper token" else
  Ok (put sv_release_enabled true (put sv_release_token digest s)).

(** [strings.ReplaceAll(s, "_", " ")] *)
Definition blank_underscore (c : ascii) : ascii :=
  if (byte_val c =? 95)%N then " "%char else c.

Definition safeMessage (d reason : string) : string :=
  map_bytes blank_underscore (d +:+ ": " +:+ reason).

Section Daemon.
Context `{HOST : !Host} {PS : Type} `{BOUND : !QueueBoundary PS}.

(** What a request does: the answer, and the world after it. *)
Definition Answer : Type := World PS -> Response * World PS.

(** The identifier of the request, or eight random bytes. *)
Definition correlation (v : string) (w : World PS) : string * World PS :=
  if TrimSpace v <>?s "" then (v, w) else
  match entropyM w with
  | (Ok (Some b), w') => ("corr-" +:+ hex_encode b, w')
  | (_, w') => ("corr-0000000000000000", w')
  end.

Definition resp (correlationID d reason : string) : Answer := fun w =>
  let (cid, w') := correlation correlationID w in
  (put rp_message (safeMessage d reason) (put rp_reason reason (put rp_decision d
     (put rp_correlation_id cid zero_response))), w').

(** [result := resp(...)] followed by assignments to fields of [result]. *)
Definition resp_with (correlationID d reason : string) (f : Response -> Response) : Answer :=
  fun w => let (r, w') := resp correlationID d reason w in (f r, w').

(** The decision of a response to a policy decision, and its reason. *)
Definition closed_action (d : Decision) : string * string :=
  if d_action d =?s ActionOK then (DecisionOK, d_reason d)
  else if d_action d =?s ActionReject then (DecisionReject, d_reason d)
  else if d_action d =?s ActionDefer then (DecisionDefer, d_reason d)
  else (DecisionDefer, ReasonUnavailable).

Definition outboundDecisionResponse (correlationID : string) (d : Decision) : Answer :=
  resp_with correlationID DecisionDefer (d_reason d) (fun r =>
    put rp_policy_revisions (d_revisions d)
      (put rp_reason (closed_action d).2 (put rp_decision (closed_action d).1 r))).

Variable sv : Service.

(** [decision, _ := s.OutboundPolicy.Decide(...)]; [Decide] always answers. *)
Definition decided (m : M PS (Decision * option string)) (w : World PS) : Decision * World PS :=
  match m w with
  | (Ok (decision, _), w') => (decision, w')
  | (Err _, w') => (defer_unavailable, w')
  end.

Definition PostfixOutboundPolicy (correlationID : string) (req : EnforcementRequest) : Answer :=
  fun w =>
  match sv_outbound_policy sv with
  | None => resp correlationID DecisionDefer ReasonUnavailable w
  | Some holdActor =>
      let (decision, w') := decided (Decide holdActor correlationID req) w in
      outboundDecisionResponse correlationID decision w'
  end.

Definition PostfixSubmissionRecipient
    (correlationID authenticatedIdentity envelopeSender recipient : string) : Answer :=
  PostfixOutboundPolicy correlationID
    (let (mailbox, systemSenderID) := AuthenticatedIdentity authenticatedIdentity in
     {| er_stage := StageSubmission; er_queue_id := ""; er_authenticated_mailbox := mailbox;
        er_system_sender_id := systemSenderID; er_envelope_sender := envelopeSender;
        er_recipient := recipient; er_expansion_sources := [] |}).

Definition PostfixQueueAdmission (correlationID : string) (req : QueueAdmissionRequest) : Answer :=
  fun w =>
  if negb (sv_outbound_admission sv) then resp correlationID DecisionDefer ReasonUnavailable w else
  match Admit req w with
  | (Err _, w') => resp correlationID DecisionDefer ReasonUnavailable w'
  | (Ok (_, created), w') =>
      resp correlationID DecisionOK
        (if created then "outbound_queue_registered" else "outbound_queue_already_registered") w'
  end.

Definition helper_actor : ActorRef := {| actor_type := "service"; actor_id := "postfix-helper" |}.

Definition PostfixQueueReconcile (correlationID queueID : string) : Answer := fun w =>
  if negb (sv_outbound_reconciler sv) then resp correlationID DecisionDefer ReasonUnavailable w else
  match Reconcile helper_actor correlationID queueID w with
  | (Ok (result, None), w') =>
      resp correlationID DecisionOK
        (if rr_changed result then "outbound_queue_hold_applied"
         else "outbound_queue_hold_already_applied") w'
  | (_, w') => resp correlationID DecisionDefer "outbound_queue_reconciliation_failed" w'
  end.

Definition PostfixQueueReleasePreview (correlationID queueID : string) : Answer := fun w =>
  if negb (sv_outbound_release sv) then resp correlationID DecisionDefer ReasonUnavailable w else
  match Preview queueID w with
  | (Err _, w') => resp correlationID DecisionReject "outbound_queue_release_not_permitted" w'
  | (Ok plan, w') =>
      resp_with correlationID DecisionOK "outbound_queue_release_previewed" (fun r =>
        put rp_policy_revisions (Release.rp_policy_revisions plan)
          (put rp_confirmation (rp_confirmation_hash plan)
            (put rp_queue_state (rp_hold_state plan)
              (put rp_queue_id (Release.rp_queue_id plan) r)))) w'
  end.

Definition PostfixQueueRelease (correlationID queueID confirmation : string) : Answer := fun w =>
  if negb (sv_outbound_release sv) then resp correlationID DecisionDefer ReasonUnavailable w else
  match Release helper_actor correlationID queueID confirmation w with
  | (Ok (result, None), w') =>
      resp_with correlationID DecisionOK
        (if rl_changed result then "outbound_queue_released" else "outbound_queue_already_released")
        (fun r => put rp_queue_state (qr_hold_state (rl_record result))
                    (put rp_queue_id (qr_queue_id (rl_record result)) r)) w'
  | (_, w') => resp correlationID DecisionDefer "outbound_queue_release_failed" w'
  end.

Definition PostfixQueueDiagnostic (correlationID queueID : string) : Answer := fun w =>
  if negb (sv_outbound_release sv) then resp correlationID DecisionDefer ReasonUnavailable w else
  match Diagnose queueID w with
  | (Ok (dg, None), w') =>
      resp_with correlationID DecisionOK "outbound_queue_diagnostic_consistent" (fun r =>
        put rp_consistent (dg_consistent dg) (put rp_postfix_held (dg_postfix_held dg)
          (put rp_attempts (dg_attempts dg)
            (put rp_source_count (Z.of_nat (dg_source_count dg))
              (put rp_recipient_count (Z.of_nat (dg_recipient_count dg))
                (put rp_last_error_code (dg_last_error_code dg)
                  (put rp_policy_revisions (dg_policy_revisions dg)
                    (put rp_queue_state (dg_hold_state dg)
                      (put rp_queue_id (dg_queue_id dg) r))))))))) w'
  | (_, w') => resp correlationID DecisionDefer "outbound_queue_diagnostic_mismatch" w'
  end.
End Daemon.
