(* ===== verification/ControlWire.v ===== *)
(** * The control API on the wire

    The requests of the delivery gate to the core (daemon/http.go decodes
    them, postfixgate/control.go prints them), the Go values they are decoded
    into, and the round trips: a printed request or response is read back as
    itself by a strict reader. *)

From stdpp Require Import base list gmap sets strings.
From Stdlib Require Import ZArith Lia Ascii.
From S2P Require Import Prelude GoStd Json JsonText JsonStruct Policy Queue Sources Admission Http Helper Remote RemoteRefinement Daemon.

(** ** Requests *)

Definition source_json (s : QueueSource) : jval :=
  VObj [("kind", VStr (qs_kind s)); ("object_id", VStr (qs_object_id s))].

(** [outboundpolicy.EnforcementRequest] *)
Definition enforcement_json (r : EnforcementRequest) : jval :=
  VObj ([("stage", VStr (er_stage r))]
    ++ omit_string "queue_id" (er_queue_id r)
    ++ omit_string "authenticated_mailbox" (er_authenticated_mailbox r)
    ++ omit_string "system_sender_id" (er_system_sender_id r)
    ++ omit_string "envelope_sender" (er_envelope_sender r)
    ++ [("recipient", VStr (er_recipient r))]
    ++ omitempty (length (er_expansion_sources r) =? 0) "expansion_sources"
         (VArr (map source_json (er_expansion_sources r)))).

Definition delivery_json (d : QueueDelivery) : jval :=
  VObj [("original_recipient", VStr (qd_original d)); ("recipient", VStr (qd_recipient d))].

(** [outboundpolicy.QueueAdmissionRequest] with a non-empty delivery slice. *)
Definition admission_json (r : QueueAdmissionRequest) : jval :=
  VObj ([("metadata", metadata_json (qa_metadata r))]
    ++ omit_string "authenticated_mailbox" (qa_authenticated_mailbox r)
    ++ omit_string "system_sender_id" (qa_system_sender_id r)
    ++ [("deliveries", VArr (map delivery_json (qa_deliveries r)))]).

(** ** The values they are decoded into *)

#[export] Instance source_eta : Eta QueueSource := fun s =>
  {| qs_kind := qs_kind s; qs_object_id := qs_object_id s |}.
Definition source_fields : struct_type QueueSource :=
  [("kind", member qs_kind store_string); ("object_id", member qs_object_id store_string)].
Definition zero_source : QueueSource := {| qs_kind := ""; qs_object_id := "" |}.

Record enforcement_wire := {
  ew_stage : string; ew_queue_id : string; ew_authenticated_mailbox : string;
  ew_system_sender_id : string; ew_envelope_sender : string; ew_recipient : string;
  ew_expansion_sources : GoSlice QueueSource;
}.
#[export] Instance enforcement_eta : Eta enforcement_wire := fun r =>
  {| ew_stage := ew_stage r; ew_queue_id := ew_queue_id r;
     ew_authenticated_mailbox := ew_authenticated_mailbox r;
     ew_system_sender_id := ew_system_sender_id r; ew_envelope_sender := ew_envelope_sender r;
     ew_recipient := ew_recipient r; ew_expansion_sources := ew_expansion_sources r |}.

(** [strict] is inherited by nested structs from the decoder. *)
Definition enforcement_fields : struct_type enforcement_wire :=
  [("stage", member ew_stage store_string);
   ("queue_id", member ew_queue_id store_string);
   ("authenticated_mailbox", member ew_authenticated_mailbox store_string);
   ("system_sender_id", member ew_system_sender_id store_string);
   ("envelope_sender", member ew_envelope_sender store_string);
   ("recipient", member ew_recipient store_string);
   ("expansion_sources", member ew_expansion_sources
      (store_slice (store_struct true source_fields) zero_source))].
Definition zero_enforcement : enforcement_wire :=
  {| ew_stage := ""; ew_queue_id := ""; ew_authenticated_mailbox := "";
     ew_system_sender_id := ""; ew_envelope_sender := ""; ew_recipient := "";
     ew_expansion_sources := nil_slice |}.
Definition enforcement_of (r : enforcement_wire) : EnforcementRequest :=
  {| er_stage := ew_stage r; er_queue_id := ew_queue_id r;
     er_authenticated_mailbox := ew_authenticated_mailbox r;
     er_system_sender_id := ew_system_sender_id r; er_envelope_sender := ew_envelope_sender r;
     er_recipient := ew_recipient r;
     er_expansion_sources := slice_list (ew_expansion_sources r) |}.

#[export] Instance delivery_eta : Eta QueueDelivery := fun d =>
  {| qd_original := qd_original d; qd_recipient := qd_recipient d |}.
Definition delivery_fields : struct_type QueueDelivery :=
  [("original_recipient", member qd_original store_string);
   ("recipient", member qd_recipient store_string)].
Definition zero_delivery : QueueDelivery := {| qd_original := ""; qd_recipient := "" |}.

Record admission_wire := {
  aw_metadata : metadata_wire; aw_authenticated_mailbox : string; aw_system_sender_id : string;
  aw_deliveries : GoSlice QueueDelivery;
}.
#[export] Instance admission_eta : Eta admission_wire := fun r =>
  {| aw_metadata := aw_metadata r; aw_authenticated_mailbox := aw_authenticated_mailbox r;
     aw_system_sender_id := aw_system_sender_id r; aw_deliveries := aw_deliveries r |}.
Definition admission_fields : struct_type admission_wire :=
  [("metadata", member aw_metadata (store_struct true metadata_fields));
   ("authenticated_mailbox", member aw_authenticated_mailbox store_string);
   ("system_sender_id", member aw_system_sender_id store_string);
   ("deliveries", member aw_deliveries
      (store_slice (store_struct true delivery_fields) zero_delivery))].
Definition zero_admission : admission_wire :=
  {| aw_metadata := zero_metadata; aw_authenticated_mailbox := ""; aw_system_sender_id := "";
     aw_deliveries := nil_slice |}.
Definition admission_of (r : admission_wire) : QueueAdmissionRequest :=
  {| qa_metadata := metadata_of (aw_metadata r);
     qa_authenticated_mailbox := aw_authenticated_mailbox r;
     qa_system_sender_id := aw_system_sender_id r;
     qa_deliveries := slice_list (aw_deliveries r) |}.

(** ** Reading one member *)

Section Member.
Context {R T : Type} (proj : R -> T) `{SET : !Setter proj}.
Variable store : jval -> T -> option T.

Lemma member_omitted strict (fields : struct_type R) (empty : bool) name v x l cur :
  find_field fields name = Some (member proj store) ->
  (forall r, put proj (proj r) r = r) ->
  (empty = true -> x = proj cur) -> (empty = false -> store v (proj cur) = Some x) ->
  store_members strict fields (omitempty empty name v ++ l) cur
  = store_members strict fields l (put proj x cur).
Proof.
  intros Hf Hp He Hs. eapply store_member; [exact Hf| |].
  - intros E. rewrite (He E). apply Hp.
  - intros E. unfold member. by rewrite Hs.
Qed.

Lemma member_printed strict (fields : struct_type R) name v x l cur :
  find_field fields name = Some (member proj store) -> store v (proj cur) = Some x ->
  store_members strict fields ((name, v) :: l) cur
  = store_members strict fields l (put proj x cur).
Proof. intros Hf Hs. simpl. rewrite Hf. unfold member. by rewrite Hs. Qed.
End Member.

(** A printed slice is read into a fresh one. *)
Lemma read_slice {A} (store : jval -> A -> option A) zero (print : A -> jval) l :
  (forall x, x ∈ l -> store (print x) zero = Some x) ->
  exists s, store_slice store zero (VArr (map print l)) nil_slice = Some s /\ slice_list s = l.
Proof.
  intros H%store_slice_fresh. destruct (store_slice _ _ _ _) as [s|]; [|done].
  injection H as H. by exists s.
Qed.

Lemma read_source s x : store_struct true source_fields (source_json s) x = Some s.
Proof. by destruct s, x. Qed.
Lemma read_delivery d x : store_struct true delivery_fields (delivery_json d) x = Some d.
Proof. by destruct d, x. Qed.

(** [read_member] reads the next member of a struct into a field;
    [valid_members] checks the text of the members. *)
Ltac read_member proj x :=
  cbn [app];
  first
    [ rewrite (member_printed proj _ true _ _ _ x) by
        (first [reflexivity|assumption|eauto])
    | rewrite (member_omitted proj _ true _ _ _ _ x) by
        (first [reflexivity|by intros []|solve [intros ?; to_prop; eauto]|eauto]) ].

(** The members of an object are printable and not nested deeper than [n]. *)
Definition printable (n : N) (l : list (string * jval)) : Prop :=
  forallb (fun p => ValidString p.1 && wf_json p.2) l = true /\ (members_depth l <= n)%N.

Definition printable_value (n : N) (v : jval) : Prop :=
  wf_json v = true /\ (json_depth v <= n)%N.

Lemma printable_nil n : printable n [].
Proof. split; [done|]. unfold members_depth. simpl. lia. Qed.

Lemma printable_cons n name v l :
  ValidString name = true -> printable_value n v -> printable n l -> printable n ((name, v) :: l).
Proof.
  intros Hn [Hw Hd] [Hl Hk]. split; [simpl; by rewrite Hn, Hw|].
  unfold members_depth in *. simpl. lia.
Qed.

Lemma printable_app n l k : printable n l -> printable n k -> printable n (l ++ k).
Proof.
  intros [H1 H2] [H3 H4]. split; [by rewrite forallb_app, H1, H3|]. by apply members_depth_app.
Qed.

Lemma printable_omit n empty name v :
  ValidString name = true -> printable_value n v -> printable n (omitempty empty name v).
Proof. intros Hn [Hw Hd]. split; [by apply omitempty_valid|by apply omitempty_depth]. Qed.

Lemma printable_string n s : ValidString s = true -> printable_value n (VStr s).
Proof. split; [done|simpl; lia]. Qed.

Lemma printable_int n z : printable_value n (int_json z).
Proof. split; [apply FormatInt_literal|simpl; lia]. Qed.

Lemma printable_uint n k : printable_value n (uint_json k).
Proof. split; [apply FormatInt_literal|simpl; lia]. Qed.

Lemma printable_bool n b : printable_value n (VBool b).
Proof. split; [done|simpl; lia]. Qed.

Lemma printable_obj n l : printable n l -> printable_value (1 + n) (VObj l).
Proof. intros [Hw Hd]. split; [exact Hw|]. unfold members_depth in Hd. simpl in *. lia. Qed.

Lemma printable_array {A} (print : A -> jval) n l :
  (forall x, x ∈ l -> printable_value n (print x)) -> printable_value (1 + n) (VArr (map print l)).
Proof.
  intros H. split.
  - cbn [wf_json]. rewrite forallb_forall. intros v Hv.
    apply in_map_iff in Hv as (x & <- & Hx%list_elem_of_In). by apply H.
  - assert (foldr (fun v k => N.max (json_depth v) k) 0%N (map print l) <= n)%N.
    { induction l as [|x l IH]; simpl; [lia|].
      assert (json_depth (print x) <= n)%N by (apply H; left).
      assert (forall y, y ∈ l -> printable_value n (print y)) as Hl by (intros y Hy; apply H; by right).
      specialize (IH Hl). lia. }
    cbn [json_depth]. lia.
Qed.

Lemma printable_strings n l :
  forallb ValidString l = true -> printable_value (1 + n) (VArr (map VStr l)).
Proof.
  intros H. apply printable_array. intros x Hx%list_elem_of_In. apply printable_string.
  rewrite forallb_forall in H. by apply H.
Qed.

Lemma printable_map {A} (print : A -> jval) (m : gmap string A) n :
  (forall k x, m !! k = Some x -> ValidString k = true /\ wf_json (print x) = true) ->
  (forall x, json_depth (print x) = 0%N) -> printable_value (1 + n) (map_json print m).
Proof.
  intros Hm Hd. split; [by apply map_json_valid|]. etrans; [by apply map_json_depth|lia].
Qed.

Ltac printable_members :=
  repeat first
    [ apply printable_app | apply printable_cons; [reflexivity| |] | apply printable_nil
    | apply printable_omit; [reflexivity|]
    | apply printable_int | apply printable_uint | apply printable_bool
    | apply printable_string; (reflexivity || assumption) ].

Lemma strict_read {R} (fields : struct_type R) zero l n r text :
  printable n l -> (1 + n <= maxNestingDepth)%N ->
  text = print_json (VObj l) \/ text = encode_line (VObj l) ->
  store_members true fields l zero = Some r -> strict_json fields zero text = Some r.
Proof.
  intros Hp Hn Ht Hs. unfold strict_json, decode_json.
  apply printable_obj in Hp as [Hw Hd].
  assert (parse_json text = Some (VObj l)) as ->; [|exact Hs].
  assert (json_depth (VObj l) <= maxNestingDepth)%N by (etrans; [exact Hd|done]).
  destruct Ht as [->| ->]; [by apply parse_print|by apply encode_line_parse].
Qed.

Record valid_enforcement (r : EnforcementRequest) : Prop := {
  ve_stage : ValidString (er_stage r) = true;
  ve_queue_id : ValidString (er_queue_id r) = true;
  ve_mailbox : ValidString (er_authenticated_mailbox r) = true;
  ve_system : ValidString (er_system_sender_id r) = true;
  ve_sender : ValidString (er_envelope_sender r) = true;
  ve_recipient : ValidString (er_recipient r) = true;
  ve_sources : forallb (fun s => ValidString (qs_kind s) && ValidString (qs_object_id s))
                 (er_expansion_sources r) = true;
}.

Lemma enforcement_round_trip r : valid_enforcement r ->
  exists w, strict_json enforcement_fields zero_enforcement (print_json (enforcement_json r)) = Some w
    /\ enforcement_of w = r.
Proof.
  intros [H1 H2 H3 H4 H5 H6 H7].
  destruct (read_slice (store_struct true source_fields) zero_source source_json
    (er_expansion_sources r)) as (sl & Es & Hs); [by intros; apply read_source|].
  set (sl' := if length (er_expansion_sources r) =? 0 then nil_slice else sl).
  assert (slice_list sl' = er_expansion_sources r) as Hs'.
  { unfold sl'. destruct (length _ =? 0) eqn:E; [|done]. to_prop. by destruct (er_expansion_sources r). }
  exists {| ew_stage := er_stage r; ew_queue_id := er_queue_id r;
            ew_authenticated_mailbox := er_authenticated_mailbox r;
            ew_system_sender_id := er_system_sender_id r; ew_envelope_sender := er_envelope_sender r;
            ew_recipient := er_recipient r; ew_expansion_sources := sl' |}.
  split; [|unfold enforcement_of; cbn; rewrite Hs'; by destruct r].
  unfold enforcement_json. eapply (strict_read _ _ _ 2%N); [|done|by left|].
  - printable_members. apply (printable_array _ 1). intros s Hs1%list_elem_of_In.
    rewrite forallb_forall in H7. apply H7, andb_true_iff in Hs1 as [Hk Ho].
    apply (printable_obj 0). printable_members.
  - unfold omit_string.
    read_member ew_stage (er_stage r).
    read_member ew_queue_id (er_queue_id r).
    read_member ew_authenticated_mailbox (er_authenticated_mailbox r).
    read_member ew_system_sender_id (er_system_sender_id r).
    read_member ew_envelope_sender (er_envelope_sender r).
    read_member ew_recipient (er_recipient r).
    rewrite <- (app_nil_r (omitempty _ "expansion_sources" _)).
    erewrite (member_omitted ew_expansion_sources _ true _ _ _ _ sl');
      [reflexivity|reflexivity|by intros []| |]; unfold sl'; by intros ->.
Qed.

Record valid_metadata (m : QueueMetadata) : Prop := {
  vm_queue_id : ValidString (qm_queue_id m) = true;
  vm_fingerprint : ValidString (qm_arrival_fingerprint m) = true;
  vm_sender : ValidString (qm_envelope_sender m) = true;
  vm_recipients : forallb ValidString (qm_recipients m) = true;
}.

Record valid_admission (r : QueueAdmissionRequest) : Prop := {
  va_metadata : valid_metadata (qa_metadata r);
  va_mailbox : ValidString (qa_authenticated_mailbox r) = true;
  va_system : ValidString (qa_system_sender_id r) = true;
  va_deliveries : forallb (fun d => ValidString (qd_original d) && ValidString (qd_recipient d))
                    (qa_deliveries r) = true;
}.

Lemma printable_metadata m : valid_metadata m -> printable_value 2 (metadata_json m).
Proof.
  intros [H1 H2 H3 H4]. apply (printable_obj 1). printable_members. by apply (printable_strings 0).
Qed.

Lemma admission_round_trip r : valid_admission r ->
  exists w, strict_json admission_fields zero_admission (print_json (admission_json r)) = Some w
    /\ admission_of w = r.
Proof.
  intros [Hm H2 H3 H4]. destruct (metadata_stored (qa_metadata r)) as (mw & Em & Hmw).
  destruct (read_slice (store_struct true delivery_fields) zero_delivery delivery_json
    (qa_deliveries r)) as (sl & Es & Hs); [by intros; apply read_delivery|].
  exists {| aw_metadata := mw; aw_authenticated_mailbox := qa_authenticated_mailbox r;
            aw_system_sender_id := qa_system_sender_id r; aw_deliveries := sl |}.
  split; [|unfold admission_of; cbn; rewrite Hs, Hmw; by destruct r].
  unfold admission_json. eapply (strict_read _ _ _ 2%N); [|done|by left|].
  - printable_members; [by apply printable_metadata|]. apply (printable_array _ 1).
    intros d Hd%list_elem_of_In. rewrite forallb_forall in H4.
    apply H4, andb_true_iff in Hd as [Ho Hr]. apply (printable_obj 0). printable_members.
  - unfold omit_string.
    read_member aw_metadata mw.
    read_member aw_authenticated_mailbox (qa_authenticated_mailbox r).
    read_member aw_system_sender_id (qa_system_sender_id r).
    read_member aw_deliveries sl.
    reflexivity.
Qed.

(** ** Responses *)

Record valid_response (r : Response) : Prop := {
  vr_texts : Forall (fun s => ValidString s = true)
    [rp_correlation_id r; rp_decision r; rp_reason r; rp_message r; rp_home r; rp_selector r;
     rp_key_path r; rp_transport r; rp_queue_id r; rp_queue_state r; rp_confirmation r;
     rp_last_error_code r];
  vr_targets : forallb ValidString (slice_list (rp_targets r)) = true;
  vr_domains : forallb ValidString (slice_list (rp_domains r)) = true;
  vr_ints : Forall (fun n => - 2 ^ 63 <= n < 2 ^ 63)%Z
    [rp_uid r; rp_gid r; rp_quota_bytes r; rp_retry_after_sec r; rp_recipient_count r;
     rp_source_count r];
  vr_attempts : (rp_attempts r < 2 ^ 64)%N;
  vr_revisions : forall k x, rp_policy_revisions r !! k = Some x ->
    ValidString k = true /\ (x < 2 ^ 64)%N;
}.

(** Equal up to the backing arrays of the slices. *)
Definition same_response (r r' : Response) : Prop :=
  r' = put rp_targets (rp_targets r') (put rp_domains (rp_domains r') r)
  /\ slice_list (rp_targets r') = slice_list (rp_targets r)
  /\ slice_list (rp_domains r') = slice_list (rp_domains r).

(** A slice of strings that is left out when it is empty. *)
Lemma read_strings (s : GoSlice string) :
  exists s', ((sl_len s =? 0) = true -> s' = nil_slice)
    /\ ((sl_len s =? 0) = false ->
          store_slice store_string "" (VArr (map VStr (slice_list s))) nil_slice = Some s')
    /\ slice_list s' = slice_list s.
Proof.
  destruct (read_slice store_string "" VStr (slice_list s)) as (s' & E & H); [done|].
  destruct (sl_len s =? 0) eqn:El; [|by exists s'].
  exists nil_slice. split_and!; [done|done|]. to_prop. unfold slice_list. by rewrite El.
Qed.

Lemma printable_response r : valid_response r ->
  exists l, response_json r = VObj l /\ printable 2 l.
Proof.
  intros [Ht Hg Hd _ _ Hm]. eexists. split; [reflexivity|].
  rewrite !Forall_cons in Ht. destruct_and! Ht.
  unfold omit_string, omit_int, omit_bool, omit_strings.
  printable_members; try (by apply (printable_strings 1)).
  apply (printable_map _ _ 1); [|done]. intros k x [Hk _]%Hm. split; [done|].
  apply FormatInt_literal.
Qed.

(** The members of a response, read into a fresh one. *)
Lemma response_members_read r l : valid_response r -> response_json r = VObj l ->
  exists r', store_members true response_fields l zero_response = Some r' /\ same_response r r'.
Proof.
  intros [_ _ _ Hi Ha Hm] [= <-].
  rewrite !Forall_cons in Hi. destruct Hi as (H1 & H2 & H3 & H4 & H5 & H6 & _).
  destruct (read_strings (rp_targets r)) as (tg & T1 & T2 & T3).
  destruct (read_strings (rp_domains r)) as (dm & D1 & D2 & D3).
  exists (put rp_targets tg (put rp_domains dm r)). split; [|by destruct r].
  unfold omit_string, omit_int, omit_bool, omit_strings.
  pose proof store_int_json as Hint. pose proof store_uint_json as Huint.
  assert ((size (rp_policy_revisions r) =? 0) = true -> rp_policy_revisions r = ∅) as Hempty.
  { intros E. to_prop. by apply map_size_empty_inv. }
  assert (store_map store_uint 0%N (map_json uint_json (rp_policy_revisions r)) ∅
          = Some (rp_policy_revisions r)) as Hrev.
  { apply store_map_json. intros k x [_ Hx]%Hm. by apply store_uint_json. }
  read_member rp_correlation_id (rp_correlation_id r).
  read_member rp_decision (rp_decision r).
  read_member rp_reason (rp_reason r).
  read_member rp_message (rp_message r).
  read_member rp_targets tg.
  read_member rp_home (rp_home r).
  read_member rp_uid (rp_uid r).
  read_member rp_gid (rp_gid r).
  read_member rp_quota_bytes (rp_quota_bytes r).
  read_member rp_domains dm.
  read_member rp_selector (rp_selector r).
  read_member rp_key_path (rp_key_path r).
  read_member rp_allowed (rp_allowed r).
  read_member rp_retry_after_sec (rp_retry_after_sec r).
  read_member rp_transport (rp_transport r).
  read_member rp_policy_revisions (rp_policy_revisions r).
  read_member rp_queue_id (rp_queue_id r).
  read_member rp_queue_state (rp_queue_state r).
  read_member rp_confirmation (rp_confirmation r).
  read_member rp_last_error_code (rp_last_error_code r).
  read_member rp_recipient_count (rp_recipient_count r).
  read_member rp_source_count (rp_source_count r).
  read_member rp_attempts (rp_attempts r).
  read_member rp_postfix_held (rp_postfix_held r).
  rewrite <- (app_nil_r (omitempty _ "consistent" _)).
  read_member rp_consistent (rp_consistent r).
  by destruct r.
Qed.

Lemma response_round_trip r : valid_response r ->
  exists r', strict_json response_fields zero_response (encode_line (response_json r)) = Some r'
    /\ same_response r r'.
Proof.
  intros H. destruct (printable_response r H) as (l & E & Hp).
  destruct (response_members_read r l H E) as (r' & Hr & Hs). exists r'. split; [|exact Hs].
  rewrite E. by eapply (strict_read _ _ _ 2%N); [|done|right|].
Qed.
