(* ===== verification/Routes.v ===== *)
(** * The privileged routes of the core (internal/daemon/http.go)

    Method check, bearer comparison, strict bounded decoding and dispatch of
    the outbound operations of Daemon.v.  The lookup routes are in
    LookupRoutes.v. *)

From stdpp Require Import base list gmap sets strings.
From Stdlib Require Import ZArith Lia Ascii.
From S2P Require Import Prelude GoStd Json JsonText JsonStruct Policy Queue AuditLog Database QueueStore Sources Admission HoldMachine Reconcile Postfix Http Helper Remote RemoteRefinement Release Decision Daemon ControlWire.

(** [write(w, r)] *)
Definition write (r : Response) : HttpResponse := reply StatusOK (encode_line (response_json r)).

Definition malformed_json (rq : HttpRequest) : Response :=
  put rp_message "error: malformed json" (put rp_reason "malformed_json"
    (put rp_decision DecisionError (put rp_correlation_id (rq_correlation rq) zero_response))).

(** [http.MaxBytesReader(w, r.Body, 1<<20)] *)
Definition maxControlRequestBytes : Z := 2 ^ 20.

Definition decodeStrict {A} (fields : struct_type A) (zero : A) (rq : HttpRequest)
    : Response + A :=
  if (maxControlRequestBytes <? Z.of_nat (len (rq_body rq)))%Z then inl (malformed_json rq) else
  match strict_json fields zero (rq_body rq) with
  | None => inl (malformed_json rq)
  | Some a => inr a
  end.

(** The bearer of a request against a configured digest. *)
Definition authorizePostfixToken (rq : HttpRequest) (enabled : bool) (tokenHash : list N) : bool :=
  let header := rq_authorization rq in
  if negb enabled || negb (HasPrefix header bearer_prefix)
     || (len bearer_prefix + 4096 <? len header) then false else
  bool_decide (token_bytes (default header (strip bearer_prefix header)) = tokenHash).

Definition authorizePostfixHelper (sv : Service) (rq : HttpRequest) : bool :=
  authorizePostfixToken rq (sv_helper_enabled sv) (sv_helper_token sv).
Definition authorizePostfixRelease (sv : Service) (rq : HttpRequest) : bool :=
  authorizePostfixToken rq (sv_release_enabled sv) (sv_release_token sv).

(** [struct { QueueID, Confirmation string }] of the release route. *)
Definition confirmation_fields : struct_type (string * string) :=
  [("queue_id", fun v p => (fun x => (x, p.2)) <$> store_string v p.1);
   ("confirmation", fun v p => (fun x => (p.1, x)) <$> store_string v p.2)].

Section Routes.
Context `{HOST : !Host} {PS : Type} `{BOUND : !QueueBoundary PS}.
Variable sv : Service.

Definition Route : Type := HttpRequest -> World PS -> HttpResponse * World PS.

(** [if !method(w, r, want) { return }] *)
Definition method (want : string) (route : Route) : Route := fun rq w =>
  if rq_method rq <>?s want then (reply StatusMethodNotAllowed "", w) else route rq w.

(** [if !s.authorizePostfixHelper(w, r) { return }], and likewise release. *)
Definition authorized (allowed : HttpRequest -> bool) (route : Route) : Route := fun rq w =>
  if negb (allowed rq) then (reply StatusUnauthorized "", w) else route rq w.

(** [if decodeStrict(w, r, &req) { write(w, ...) }] *)
Definition strictly {A} (fields : struct_type A) (zero : A) (run : string -> A -> Answer (PS := PS))
    : Route := fun rq w =>
  match decodeStrict fields zero rq with
  | inl r => (write r, w)
  | inr a => let (r, w') := run (rq_correlation rq) a w in (write r, w')
  end.

Definition route_outbound_policy : Route :=
  method MethodPost (strictly enforcement_fields zero_enforcement (fun cid req =>
    PostfixOutboundPolicy sv cid (enforcement_of req))).

Definition route_queue_register : Route :=
  method MethodPost (authorized (authorizePostfixHelper sv)
    (strictly admission_fields zero_admission (fun cid req =>
      PostfixQueueAdmission sv cid (admission_of req)))).

Definition route_queue_reconcile : Route :=
  method MethodPost (authorized (authorizePostfixHelper sv)
    (strictly selector_fields "" (PostfixQueueReconcile sv))).

Definition route_release_preview : Route :=
  method MethodPost (authorized (authorizePostfixRelease sv)
    (strictly selector_fields "" (PostfixQueueReleasePreview sv))).

Definition route_queue_release : Route :=
  method MethodPost (authorized (authorizePostfixRelease sv)
    (strictly confirmation_fields ("", "") (fun cid req =>
      PostfixQueueRelease sv cid req.1 req.2))).

Definition route_queue_diagnostic : Route :=
  method MethodPost (authorized (authorizePostfixHelper sv)
    (strictly selector_fields "" (PostfixQueueDiagnostic sv))).

(** Service.Register: the exact paths of the outbound operations.  [other]
    are the remaining routes of the mux. *)
Definition mux (other : string -> Route) (path : string) : Route :=
  if path =?s "/internal/v1/postfix/outbound-policy" then route_outbound_policy
  else if path =?s "/internal/v1/postfix/queue/register" then route_queue_register
  else if path =?s "/internal/v1/postfix/queue/reconcile" then route_queue_reconcile
  else if path =?s "/internal/v1/postfix/queue/release-preview" then route_release_preview
  else if path =?s "/internal/v1/postfix/queue/release" then route_queue_release
  else if path =?s "/internal/v1/postfix/queue/diagnostic" then route_queue_diagnostic
  else other path.
End Routes.

(** ** Credentials *)

Section Credentials.
Context `{HOST : !Host} {PS : Type} `{BOUND : !QueueBoundary PS}.
Implicit Types (sv : Service) (rq : HttpRequest) (w : World PS).

(** The services start-up can build: tokens are only set by the two
    configuration calls that succeed. *)
Inductive configured : Service -> Prop :=
| configured_none sv : sv_helper_enabled sv = false -> sv_release_enabled sv = false -> configured sv
| configured_helper sv token sv' :
    configured sv -> ConfigurePostfixHelperToken token sv = Ok sv' -> configured sv'
| configured_release sv token sv' :
    configured sv -> ConfigurePostfixReleaseToken token sv = Ok sv' -> configured sv'.

Lemma configured_distinct sv : configured sv ->
  sv_helper_enabled sv = true -> sv_release_enabled sv = true ->
  sv_helper_token sv <> sv_release_token sv.
Proof.
  induction 1 as [sv H1 _|sv token sv' _ _ Hc|sv token sv' _ _ Hc]; [congruence| |];
    [unfold ConfigurePostfixHelperToken in Hc|unfold ConfigurePostfixReleaseToken in Hc];
    destruct (negb _); try discriminate Hc; destruct (_ && _) eqn:E; try discriminate Hc;
    injection Hc as <-; cbn; intros H1 H2 Heq.
  - rewrite H2 in E. cbn in E. apply bool_decide_eq_false in E. contradiction.
  - rewrite H1 in E. cbn in E. apply bool_decide_eq_false in E. congruence.
Qed.

(** A request that carries the token behind a digest. *)
Definition bears rq (hash : list N) : Prop :=
  exists token, rq_authorization rq = bearer_prefix +:+ token /\ len token <= 4096
    /\ token_bytes token = hash.

Lemma authorize_spec rq enabled hash :
  authorizePostfixToken rq enabled hash = true <-> enabled = true /\ bears rq hash.
Proof.
  unfold authorizePostfixToken, bears. split.
  - destruct (_ || _) eqn:E; [done|]. apply orb_false_iff in E as [[Ee Ep]%orb_false_iff El].
    apply negb_false_iff in Ee, Ep. apply HasPrefix_strip in Ep as [token Et].
    rewrite Et. cbn [default]. intros H%bool_decide_eq_true. split; [done|]. exists token.
    apply strip_some in Et. rewrite Et, len_app in El. split_and!; [done| |done]. simpl in El. to_prop. lia.
  - intros [-> (token & -> & Hl & <-)].
    assert (HasPrefix (bearer_prefix +:+ token) bearer_prefix = true) as ->
      by (apply HasPrefix_strip; exists token; apply strip_app).
    destruct (_ <? _) eqn:El; [rewrite len_app in El; simpl in El; to_prop; lia|].
    cbn [negb orb]. rewrite strip_app. cbn [default]. by apply bool_decide_eq_true.
Qed.

(** The digest a privileged path is guarded by. *)
Definition guarded_by (path : string) sv : option (bool * list N) :=
  if (path =?s "/internal/v1/postfix/queue/register")
     || (path =?s "/internal/v1/postfix/queue/reconcile")
     || (path =?s "/internal/v1/postfix/queue/diagnostic")
  then Some (sv_helper_enabled sv, sv_helper_token sv)
  else if (path =?s "/internal/v1/postfix/queue/release-preview")
          || (path =?s "/internal/v1/postfix/queue/release")
  then Some (sv_release_enabled sv, sv_release_token sv)
  else None.

Lemma authorized_route {A} (fields : struct_type A) zero run enabled hash rq w rs w' :
  method MethodPost (authorized (fun rq => authorizePostfixToken rq enabled hash)
    (strictly fields zero run)) rq w = (rs, w') ->
  (rq_method rq = MethodPost /\ enabled = true /\ bears rq hash
   /\ is_Some (strict_json fields zero (rq_body rq))) \/ w' = w.
Proof.
  unfold method, authorized, strictly, decodeStrict.
  destruct (rq_method rq =?s MethodPost) eqn:Em; cbn [negb]; [|by intros [= _ <-]; right].
  destruct (authorizePostfixToken rq enabled hash) eqn:Ea; cbn [negb]; [|by intros [= _ <-]; right].
  destruct (_ <? _)%Z; [by intros [= _ <-]; right|].
  destruct (strict_json fields zero (rq_body rq)) as [a|]; [|by intros [= _ <-]; right].
  intros _. left. apply eqs_true in Em. apply authorize_spec in Ea as [He Hb]. by split_and!.
Qed.

(** C14: the privileged routes of the core act only for the credential of their
    class.  On a service whose tokens were set by its configuration calls, a
    request to a queue route that changes anything (the database, Postfix,
    or the inputs of the process) is a POST that bears the token of that
    route: the helper token for registration, reconciliation and
    diagnosis, the release token for preview and release; and no request can
    bear both. *)
Theorem control_routes_authenticated sv other path rq w rs w' enabled hash :
  configured sv -> guarded_by path sv = Some (enabled, hash) ->
  mux sv other path rq w = (rs, w') ->
  (w' <> w -> rq_method rq = MethodPost /\ enabled = true /\ bears rq hash)
  /\ ~ (authorizePostfixHelper sv rq = true /\ authorizePostfixRelease sv rq = true).
Proof.
  intros Hc Hg Hm. split.
  - intros Hne. assert ((rq_method rq = MethodPost /\ enabled = true /\ bears rq hash) \/ w' = w) as Hx;
      [|by destruct Hx].
    unfold guarded_by in Hg. unfold mux in Hm.
    destruct (path =?s "/internal/v1/postfix/outbound-policy") eqn:E0.
    { apply eqs_true in E0 as ->. by vm_compute in Hg. }
    destruct (path =?s "/internal/v1/postfix/queue/register") eqn:E1;
      [|destruct (path =?s "/internal/v1/postfix/queue/reconcile") eqn:E2;
        [|destruct (path =?s "/internal/v1/postfix/queue/release-preview") eqn:E3;
          [|destruct (path =?s "/internal/v1/postfix/queue/release") eqn:E4;
            [|destruct (path =?s "/internal/v1/postfix/queue/diagnostic") eqn:E5; [|done]]]]].
    all: cbn [orb] in Hg; first [rewrite orb_true_r in Hg|idtac].
    all: first [apply eqs_true in E3|apply eqs_true in E4|idtac]; subst; cbn in Hg; injection Hg as <- <-.
    all: apply authorized_route in Hm as [(? & ? & ? & _)|?]; [left; by split_and!|by right].
  - intros [[He1 (t1 & E1 & _ & H1)]%authorize_spec [He2 (t2 & E2 & _ & H2)]%authorize_spec].
    apply (configured_distinct _ Hc He1 He2). rewrite E1 in E2.
    assert (t1 = t2) as ->; [|congruence].
    pose proof (strip_app bearer_prefix t1) as S1. rewrite E2, strip_app in S1. congruence.
Qed.
End Credentials.
