(* ===== verification/Gate.v ===== *)
(** * The delivery gate (internal/postfixgate/gate.go, control.go)

    Postfix hands every outbound message to the gate: it inspects the live
    queue entry, registers its provenance with the core, asks for the
    transport decision of every recipient, drives a hold when one is
    forbidden, and only then submits the message to the relay.

    [HTTPController] is the gate's client of the routes of Routes.v.  The
    network, the clock, the inspector and the SMTP connection are classes over
    the state [S] of the world around the gate. *)

From stdpp Require Import base list gmap sets strings.
From Stdlib Require Import ZArith Lia Ascii.
From S2P Require Import Prelude GoStd Json JsonText JsonStruct Policy Queue Sources Admission HoldMachine Reconcile Postfix Http Helper Remote RemoteRefinement Daemon ControlWire.

Definition MaxMessageBytes : Z := 64 * 2 ^ 20.
Definition maxControlResponseBytes : Z := 64 * 2 ^ 10.
Definition maxControlPayloadBytes : Z := 2 ^ 20.

(** ** The gate's client of the core *)

(** [hc_client]: whether an HTTP client is configured. *)
Record HTTPController := { hc_base_url : string; hc_token : string; hc_client : bool }.

Definition NewHTTPController `{PARSER : !UrlParser} (rawURL token : string) : result HTTPController :=
  match url_parse (TrimSpace rawURL) with
  | None => Err "invalid GOTTH Mail core URL"
  | Some parsed =>
      if negb (valid_origin parsed) then Err "invalid GOTTH Mail core URL" else
      if negb (valid_token token) then Err "invalid Postfix helper token" else
      Ok {| hc_base_url := TrimRightSlash (url_text parsed); hc_token := token; hc_client := true |}
  end.

(** [time.Now().UTC().Format("20060102T150405.000000000Z")] *)
Class GateClock (S : Type) := { clock_text : S -> string * S }.

Section Controller.
Context {S : Type} `{HTTP : !HttpClient S} `{CLOCK : !GateClock S}.
Variable c : HTTPController.

Definition control_call (path payload : string) (privileged : bool) : Command S Response :=
  guard_cmd (negb (hc_client c)) "GOTTH Mail controller unavailable";;
  guard_cmd (maxControlPayloadBytes <? Z.of_nat (len payload))%Z
    "GOTTH Mail control request invalid";;
  guard_cmd (negb (request_url (hc_base_url c +:+ path))) "invalid request URL";;
  rs ← (fun s =>
    let (now, s1) := clock_text s in
    match http_do {| rq_method := MethodPost; rq_url := hc_base_url c +:+ path;
                     rq_authorization := if privileged then bearer_prefix +:+ hc_token c else "";
                     rq_correlation := "postfix-gate:" +:+ now; rq_body := payload |} s1 with
    | (Some rs, s2) => (Ok rs, s2)
    | (None, s2) => (Err "GOTTH Mail control plane unavailable", s2)
    end);
  match read_body maxControlResponseBytes rs with
  | Some body =>
      if (rs_status rs =? StatusOK)%Z then
        match strict_json response_fields zero_response body with
        | Some response => mret response
        | None => fail_cmd "GOTTH Mail control response invalid"
        end
      else fail_cmd "GOTTH Mail control response invalid"
  | None => fail_cmd "GOTTH Mail control response invalid"
  end.

Definition controller_register (request : QueueAdmissionRequest) : Command S unit :=
  response ← control_call "/internal/v1/postfix/queue/register"
               (print_json (admission_json request)) true;
  guard_cmd ((rp_decision response <>?s DecisionOK)
             || ((rp_reason response <>?s "outbound_queue_registered")
                 && (rp_reason response <>?s "outbound_queue_already_registered")))
    "GOTTH Mail rejected queue registration".

Definition transport_request (queueID recipient : string) : EnforcementRequest :=
  {| er_stage := StageTransport; er_queue_id := queueID; er_authenticated_mailbox := "";
     er_system_sender_id := ""; er_envelope_sender := ""; er_recipient := recipient;
     er_expansion_sources := [] |}.

Definition known_reasons : list string :=
  [ReasonUnrestricted; ReasonSameDomain; ReasonRecipientForbidden; ReasonCrossDomainConflict;
   ReasonPolicyHold; ReasonUnavailable].

Definition controller_decide (queueID recipient : string) : Command S Decision :=
  response ← control_call "/internal/v1/postfix/outbound-policy"
               (print_json (enforcement_json (transport_request queueID recipient))) false;
  let action := rp_decision response in
  let reason := rp_reason response in
  guard_cmd ((action <>?s ActionOK) && (action <>?s ActionReject) && (action <>?s ActionDefer))
    "GOTTH Mail returned invalid policy action";;
  guard_cmd (negb (one_of reason known_reasons)) "GOTTH Mail returned invalid policy reason";;
  mret {| d_action := action; d_reason := reason; d_revisions := rp_policy_revisions response |}.

Definition controller_reconcile (queueID : string) : Command S unit :=
  response ← control_call "/internal/v1/postfix/queue/reconcile"
               (print_json (selector_json queueID)) true;
  guard_cmd ((rp_decision response <>?s DecisionOK)
             || ((rp_reason response <>?s "outbound_queue_hold_applied")
                 && (rp_reason response <>?s "outbound_queue_hold_already_applied")))
    "GOTTH Mail did not reconcile queue hold".
End Controller.

(** ** The gate *)

Record DeliveryRequest := {
  dr_queue_id : string; dr_authenticated_mailbox : string; dr_system_sender_id : string;
  dr_deliveries : list QueueDelivery;
}.

Class QueueInspector (S : Type) := { inspector_inspect : string -> Command S QueueMetadata }.

Class Controller (S : Type) := {
  control_register : QueueAdmissionRequest -> Command S unit;
  control_decide : string -> string -> Command S Decision;
  control_reconcile : string -> Command S unit;
}.

(** [Relay.Submit]: envelope sender, recipients and message. *)
Definition Relay (S : Type) : Type := string -> list string -> string -> Command S unit.

Definition ControllerHTTP {S} `{HTTP : !HttpClient S} `{CLOCK : !GateClock S} (c : HTTPController)
    : Controller S :=
  {| control_register := controller_register c; control_decide := controller_decide c;
     control_reconcile := controller_reconcile c |}.

(** The message: the bytes that can be read, and whether reading then fails. *)
Record Message := { ms_body : string; ms_broken : bool }.

(** [io.ReadAll(io.LimitReader(message, MaxMessageBytes+1))] and its check. *)
Definition read_message (message : Message) : result string :=
  if (MaxMessageBytes <? Z.of_nat (len (ms_body message)))%Z || ms_broken message
     || (ms_body message =?s "")
  then Err "invalid or oversized Postfix message" else Ok (ms_body message).

Section Gate.
Context {S : Type} `{INSPECTOR : !QueueInspector S} `{CONTROL : !Controller S}.

Definition admission_request (request : DeliveryRequest) (metadata : QueueMetadata)
    : QueueAdmissionRequest :=
  {| qa_metadata := metadata; qa_authenticated_mailbox := dr_authenticated_mailbox request;
     qa_system_sender_id := dr_system_sender_id request; qa_deliveries := dr_deliveries request |}.

(** The decision loop over the inspected recipients. *)
Fixpoint decide_each (queueID : string) (recipients : list string) : Command S unit :=
  match recipients with
  | [] => mret tt
  | recipient :: recipients =>
      decision ← control_decide queueID recipient;
      if (d_action decision =?s ActionDefer) && (d_reason decision =?s ReasonPolicyHold) then
        control_reconcile queueID;;
        fail_cmd "outbound queue placed on policy hold"
      else if d_action decision <>?s ActionOK then
        fail_cmd "outbound policy deferred final handoff"
      else decide_each queueID recipients
  end.

(** Gate.Deliver, for a gate whose three parts are configured. *)
Definition Deliver (relay : Relay S) (request : DeliveryRequest) (message : Message)
    : Command S unit :=
  guard_cmd (length (dr_deliveries request) =? 0) "Postfix delivery gate is unavailable";;
  metadata ← (fun s => match inspector_inspect (dr_queue_id request) s with
                       | (Ok metadata, s') =>
                           if qm_held metadata
                           then (Err "Postfix queue metadata is unavailable", s')
                           else (Ok metadata, s')
                       | (Err _, s') => (Err "Postfix queue metadata is unavailable", s')
                       end);
  control_register (admission_request request metadata);;
  decide_each (qm_queue_id metadata) (qm_recipients metadata);;
  body ← lift_cmd (read_message message);
  relay (qm_envelope_sender metadata) (qm_recipients metadata) body.
End Gate.

(** ** The pipe transport (cmd/gotth-mail-postfix-gate/main.go: runDelivery) *)

(** The mailbox and the system sender a message is delivered for. *)
Definition deliveryAuthority (authenticated explicitSystem clientAddress : string)
    : result (string * string) :=
  if (authenticated <>?s "") && (explicitSystem <>?s "")
  then Err "ambiguous Postfix delivery authority" else
  if explicitSystem <>?s "" then
    if clientAddress <>?s "" then Ok ("", "") else Ok ("", explicitSystem)
  else Ok (AuthenticatedIdentity authenticated).

(** stringList.Set *)
Definition set_address (value : string) (l : list string) : result (list string) :=
  if (value =?s "") || (320 <? len value) then Err "invalid Postfix address argument"
  else Ok (l ++ [value]).

(** The parsed flags of one pipe(8) invocation. *)
Record PipeArguments := {
  pa_queue_id : string; pa_authenticated : string; pa_system_sender : string;
  pa_client_address : string; pa_originals : list string; pa_recipients : list string;
}.

Definition delivery_request (args : PipeArguments) : result DeliveryRequest :=
  if (length (pa_originals args) =? 0)
     || negb (length (pa_originals args) =? length (pa_recipients args))
  then Err "invalid Postfix pipe arguments" else
  let! identity := deliveryAuthority (pa_authenticated args) (pa_system_sender args)
                     (pa_client_address args) in
  Ok {| dr_queue_id := pa_queue_id args; dr_authenticated_mailbox := identity.1;
        dr_system_sender_id := identity.2;
        dr_deliveries := map (fun p => {| qd_original := p.1; qd_recipient := p.2 |})
                           (zip (pa_originals args) (pa_recipients args)) |}.
