(* ===== verification/Relay.v ===== *)
(** * The SMTP handoff (internal/postfixgate/gate.go: SMTPRelay)

    One plaintext SMTP session: envelope, DATA and message in order, where
    the only success is the server's acceptance of the end of the message.
    The connection is the class [SmtpConnection] over the state [S]. *)

From stdpp Require Import base list strings.
From Stdlib Require Import ZArith Lia Ascii.
From S2P Require Import Prelude GoStd Json Postfix Gate.

(** [net/mail.ParseAddress], reduced to the Address of its result. *)
Class MailParser := { ParseAddress : string -> option string }.

(** net and net/smtp: the dialer, the greeting, and the commands of a client.
    [smtp_end] is [Close] on the DATA writer, which waits for the reply of the
    server; [smtp_hangup] closes the connection. *)
Class SmtpConnection (S : Type) := {
  smtp_dial : Z -> string -> Command S unit;
  smtp_greeting : string -> Command S unit;
  smtp_hello : string -> Command S unit;
  smtp_mail : string -> Command S unit;
  smtp_rcpt : string -> Command S unit;
  smtp_data : Command S unit;
  smtp_write : string -> Command S unit;
  smtp_end : Command S unit;
  smtp_quit : Command S unit;
  smtp_hangup : S -> S;
}.

(** ** net.SplitHostPort, the host of its result *)

Definition contains_byte (b : ascii) (s : string) : bool :=
  match SplitFirstByte b s with Some _ => true | None => false end.

Definition SplitHost (hostport : string) : option string :=
  match SplitLastByte ":" hostport with
  | None => None
  | Some (before, port) =>
      match hostport with
      | String "[" rest =>
          match SplitFirstByte "]" rest with
          | None => None
          | Some (host, after) =>
              (* what follows the bracket must be the last colon *)
              if negb (after =?s String ":" port) then None
              else if contains_byte "[" rest || contains_byte "]" after then None
              else Some host
          end
      | _ =>
          if contains_byte ":" before || contains_byte "[" hostport || contains_byte "]" hostport
          then None else Some before
      end
  end.

Definition smtpServerName (address : string) : string :=
  match SplitHost address with
  | Some host => if host =?s "" then address else host
  | None => address
  end.

(** ** The session *)

Record SMTPRelay := { sr_addr : string; sr_hello_name : string; sr_timeout : Z }.

Definition default_timeout : Z := 30 * 10 ^ 9.

Section Submit.
Context {S : Type} `{SMTP : !SmtpConnection S} `{MAIL : !MailParser}.

(** [if err := c; err != nil { return errors.New(msg) }] *)
Definition or_fail {A} (c : Command S A) (msg : string) : Command S A := fun s =>
  let (r, s') := c s in (relabel msg r, s').

Fixpoint send_recipients (recipients : list string) : Command S unit :=
  match recipients with
  | [] => mret tt
  | recipient :: recipients =>
      or_fail (smtp_rcpt recipient) "SMTP relay recipient rejected";;
      send_recipients recipients
  end.

(** [io.Copy(writer, message)]; a failed copy still closes the writer. *)
Definition write_message (message : string) : Command S unit := fun s =>
  match smtp_write message s with
  | (Ok _, s') => (Ok tt, s')
  | (Err _, s') => (Err "SMTP relay message write failed", (smtp_end s').2)
  end.

(** [_ = client.Quit()] *)
Definition quit_quietly : Command S unit := fun s => (Ok tt, (smtp_quit s).2).

(** The commands between the connection and its closing. *)
Definition session (addr helloName sender : string) (recipients : list string) (message : string)
    : Command S unit :=
  or_fail (smtp_greeting (smtpServerName addr)) "SMTP relay greeting failed";;
  (if helloName <>?s "" then or_fail (smtp_hello helloName) "SMTP relay hello failed" else mret tt);;
  or_fail (smtp_mail sender) "SMTP relay sender rejected";;
  send_recipients recipients;;
  or_fail smtp_data "SMTP relay DATA rejected";;
  write_message message;;
  or_fail smtp_end "SMTP relay did not accept DATA";;
  quit_quietly.

(** [defer client.Close()] *)
Definition closing (c : Command S unit) : Command S unit := fun s =>
  let (r, s') := c s in (r, smtp_hangup s').

(** smtpDialer.submit *)
Definition dialer_submit (addr helloName : string) (timeout : Z) (sender : string)
    (recipients : list string) (message : string) : Command S unit :=
  or_fail (smtp_dial timeout addr) "SMTP relay unavailable";;
  closing (session addr helloName sender recipients message).

Fixpoint parse_recipients (recipients : list string) : result (list string) :=
  match recipients with
  | [] => Ok []
  | recipient :: recipients =>
      match ParseAddress recipient with
      | None => Err "invalid SMTP relay recipient"
      | Some address =>
          let! rest := parse_recipients recipients in Ok (address :: rest)
      end
  end.

(** SMTPRelay.Submit *)
Definition Submit (relay : SMTPRelay) : Relay S := fun sender recipients message =>
  let addr := TrimSpace (sr_addr relay) in
  guard_cmd ((addr =?s "") || (length recipients =? 0) || (message =?s ""))
    "invalid SMTP relay request";;
  from ← lift_cmd (if sender <>?s "<>" then
                     match ParseAddress sender with
                     | Some address => Ok address
                     | None => Err "invalid SMTP relay sender"
                     end
                   else Ok "");
  canonicalRecipients ← lift_cmd (parse_recipients recipients);
  let timeout := if (sr_timeout relay <=? 0)%Z then default_timeout else sr_timeout relay in
  dialer_submit addr (TrimSpace (sr_hello_name relay)) timeout from canonicalRecipients message.
End Submit.

(** ** What a server has accepted *)

Definition Mail : Type := string * list string * string.

(** The protocol (RFC 5321) as the session relies on it: [accepted] are the
    messages the server took responsibility for, [transaction] the one in
    progress.  Only the end of the data hands a message over, and a server
    may have done so although its reply was lost.  A failed write leaves the
    buffered connection failed, so that the end of the data is not sent. *)
Class SmtpLaws {S} `{SMTP : !SmtpConnection S} (accepted : S -> list Mail)
    (transaction : S -> Mail) : Prop := {
  smtp_quiet : forall s,
    (forall t a, accepted (smtp_dial t a s).2 = accepted s)
    /\ (forall n, accepted (smtp_greeting n s).2 = accepted s)
    /\ (forall n, accepted (smtp_hello n s).2 = accepted s)
    /\ (forall f, accepted (smtp_mail f s).2 = accepted s)
    /\ (forall r, accepted (smtp_rcpt r s).2 = accepted s)
    /\ accepted (smtp_data s).2 = accepted s
    /\ (forall m, accepted (smtp_write m s).2 = accepted s)
    /\ accepted (smtp_quit s).2 = accepted s
    /\ accepted (smtp_hangup s) = accepted s;
  smtp_mail_ok : forall f s u s', smtp_mail f s = (Ok u, s') -> transaction s' = (f, [], "");
  smtp_rcpt_ok : forall r s u s', smtp_rcpt r s = (Ok u, s') ->
    transaction s' = let '(f, l, m) := transaction s in (f, l ++ [r], m);
  smtp_data_ok : forall s u s', smtp_data s = (Ok u, s') -> transaction s' = transaction s;
  smtp_write_ok : forall m s u s', smtp_write m s = (Ok u, s') ->
    transaction s' = let '(f, l, m0) := transaction s in (f, l, m0 +:+ m);
  smtp_write_failed : forall m s e s', smtp_write m s = (Err e, s') ->
    accepted (smtp_end s').2 = accepted s';
  smtp_end_ok : forall s u s', smtp_end s = (Ok u, s') ->
    accepted s' = accepted s ++ [transaction s];
  smtp_end_failed : forall s e s', smtp_end s = (Err e, s') ->
    accepted s' = accepted s \/ accepted s' = accepted s ++ [transaction s];
}.

Section SubmitFacts.
Context {S : Type} `{SMTP : !SmtpConnection S} `{MAIL : !MailParser}.
Context (accepted : S -> list Mail) (transaction : S -> Mail) {LAWS : SmtpLaws accepted transaction}.
Implicit Types s : S.

Definition data_lost : string := "SMTP relay did not accept DATA".

(** The outcome of a submission of [mail] from [s]. *)
Definition outcome_of (mail : Mail) s (r : result unit) s' : Prop :=
  match r with
  | Ok _ => accepted s' = accepted s ++ [mail]
  | Err e => accepted s' = accepted s
             \/ e = data_lost /\ accepted s' = accepted s ++ [mail]
  end.

Lemma or_fail_run {A} (c : Command S A) msg s :
  or_fail c msg s = (relabel msg (c s).1, (c s).2).
Proof. unfold or_fail. by destruct (c s). Qed.

(** A step that accepts nothing, followed by the rest. *)
Lemma quiet_step {A} (c : Command S A) msg (k : Command S unit) mail s r s' :
  accepted (c s).2 = accepted s ->
  (forall a, c s = (Ok a, (c s).2) -> forall r s', k (c s).2 = (r, s') -> outcome_of mail (c s).2 r s') ->
  (or_fail c msg;; k) s = (r, s') -> outcome_of mail s r s'.
Proof.
  intros Hq Hk H. unfold mbind, Command_bind in H. rewrite or_fail_run in H.
  destruct (c s) as [[a|e] s1] eqn:E; cbn [fst snd relabel] in *.
  - specialize (Hk a eq_refl _ _ H). unfold outcome_of in *. by rewrite <- Hq.
  - injection H as <- <-. by left.
Qed.

Lemma ended mail s r s' : transaction s = mail ->
  (or_fail smtp_end data_lost;; quit_quietly) s = (r, s') -> outcome_of mail s r s'.
Proof.
  intros Ht H. unfold mbind, Command_bind in H. rewrite or_fail_run in H.
  destruct (smtp_end s) as [[u|e] s1] eqn:E; cbn [fst snd relabel] in H; injection H as <- <-; cbn.
  - destruct (smtp_quiet s1) as (_ & _ & _ & _ & _ & _ & _ & -> & _).
    rewrite <- Ht. by eapply smtp_end_ok.
  - apply smtp_end_failed in E as [E|E]; [by left|right]. by rewrite <- Ht.
Qed.

Lemma written message f l m s r s' : transaction s = (f, l, m) ->
  (write_message message;; or_fail smtp_end data_lost;; quit_quietly) s = (r, s') ->
  outcome_of (f, l, m +:+ message) s r s'.
Proof.
  intros Ht H. unfold mbind at 1, Command_bind at 1, write_message in H.
  destruct (smtp_quiet s) as (_ & _ & _ & _ & _ & _ & Hq & _). specialize (Hq message).
  destruct (smtp_write message s) as [[u|e] s1] eqn:E; cbn [snd] in Hq.
  - apply smtp_write_ok in E. rewrite Ht in E. apply (ended _ _ _ _ E) in H.
    unfold outcome_of in *. by rewrite <- Hq.
  - injection H as <- <-. left. rewrite <- Hq. by eapply smtp_write_failed.
Qed.

Lemma command_assoc {A B C} (m : Command S A) (f : A -> Command S B) (g : B -> Command S C) s :
  ((m ≫= f) ≫= g) s = (m ≫= (fun a => f a ≫= g)) s.
Proof. unfold mbind, Command_bind. by destruct (m s) as [[a|e] s1]. Qed.

Lemma sent mail (k : Command S unit) f recipients : forall l s r s',
  transaction s = (f, l, "") ->
  (forall s0 r0 s0', transaction s0 = (f, l ++ recipients, "") -> k s0 = (r0, s0') ->
     outcome_of mail s0 r0 s0') ->
  (send_recipients recipients;; k) s = (r, s') -> outcome_of mail s r s'.
Proof.
  induction recipients as [|x recipients IH]; intros l s r s' Ht Hk H.
  { apply (Hk s); [by rewrite app_nil_r|exact H]. }
  cbn [send_recipients] in H. rewrite command_assoc in H.
  eapply quiet_step in H; [exact H|apply smtp_quiet|].
  intros a E r0 s0' H0. apply smtp_rcpt_ok in E. rewrite Ht in E.
  eapply IH; [exact E| |exact H0]. intros s1 r1 s1' Ht1. apply Hk. by rewrite <- app_assoc in Ht1.
Qed.

Lemma session_ok addr hello from recipients message s r s' :
  session addr hello from recipients message s = (r, s') ->
  outcome_of (from, recipients, message) s r s'.
Proof.
  unfold session. intros H. eapply quiet_step in H; [exact H|apply smtp_quiet|].
  clear H. intros _ _ r0 s0' H.
  assert (forall s1 r1 s1', (or_fail (smtp_mail from) "SMTP relay sender rejected";;
    send_recipients recipients;; or_fail smtp_data "SMTP relay DATA rejected";;
    write_message message;; or_fail smtp_end data_lost;; quit_quietly) s1 = (r1, s1') ->
    outcome_of (from, recipients, message) s1 r1 s1') as Hmail.
  { clear - LAWS. intros s1 r1 s1' H. eapply quiet_step in H; [exact H|apply smtp_quiet|].
    clear H. intros a E r2 s2' H. apply smtp_mail_ok in E.
    eapply sent; [exact E| |exact H]. clear - LAWS. intros s0 r0 s0' Ht H. cbn [app] in Ht.
    eapply quiet_step in H; [exact H|apply smtp_quiet|]. clear H.
    intros a E r1 s1' H. apply smtp_data_ok in E. rewrite Ht in E.
    by apply (written message from recipients "" _ _ _ E) in H. }
  destruct (hello <>?s ""); [|by apply Hmail].
  eapply quiet_step in H; [exact H|apply smtp_quiet|]. intros _ _ r1 s1' H1. by apply Hmail.
Qed.

Lemma parse_recipients_ok recipients addresses :
  parse_recipients recipients = Ok addresses <->
  Forall2 (fun r a => ParseAddress r = Some a) recipients addresses.
Proof.
  revert addresses. induction recipients as [|r recipients IH]; intros addresses; cbn.
  { split; [by intros [= <-]|by inversion 1]. }
  destruct (ParseAddress r) as [a|] eqn:E.
  - rewrite rbind_ok. split.
    + intros (rest & H%IH & [= <-]). by constructor.
    + inversion 1 as [|? a' ? rest]; subst. exists rest. split; [by apply IH|congruence].
  - split; [done|]. inversion 1. congruence.
Qed.

(** The envelope of a submission. *)
Definition envelope_sender (sender from : string) : Prop :=
  if sender =?s "<>" then from = "" else ParseAddress sender = Some from.

(** A submission to the relay hands over exactly the message it was given,
    and only once the server has taken it.  Success means the server accepted
    one more message, with the parsed sender, the parsed recipients in order
    and the whole body; after an error it accepted nothing more, unless the
    reply to the end of the data was lost. *)
Theorem Submit_exact relay sender recipients message s r s' :
  Submit relay sender recipients message s = (r, s') ->
  match r with
  | Ok _ => exists from addresses, envelope_sender sender from
      /\ Forall2 (fun x a => ParseAddress x = Some a) recipients addresses
      /\ accepted s' = accepted s ++ [(from, addresses, message)]
  | Err e => accepted s' = accepted s
      \/ e = data_lost /\ exists from addresses, envelope_sender sender from
           /\ Forall2 (fun x a => ParseAddress x = Some a) recipients addresses
           /\ accepted s' = accepted s ++ [(from, addresses, message)]
  end.
Proof.
  unfold Submit, mbind at 1 2 3, Command_bind at 1 2 3, guard_cmd, lift_cmd, envelope_sender. intros H.
  destruct (_ || _); [injection H as <- <-; by left|]. cbn [mret Command_ret] in H.
  destruct (sender =?s "<>") eqn:Es; cbn [negb] in H.
  2: destruct (ParseAddress sender) as [from|] eqn:Ef; [|injection H as <- <-; by left].
  all: destruct (parse_recipients recipients) as [addresses|e] eqn:Ep;
    [|injection H as <- <-; by left].
  all: apply parse_recipients_ok in Ep; unfold dialer_submit in H.
  all: eapply quiet_step with (mail := (_, addresses, message)) in H; [|apply smtp_quiet|
    intros _ _ r1 s1' H1; unfold closing in H1;
    destruct (session _ _ _ _ _ _) as [r2 s2] eqn:E2; injection H1 as <- <-;
    apply session_ok in E2; unfold outcome_of in *;
    destruct (smtp_quiet s2) as (_ & _ & _ & _ & _ & _ & _ & _ & ->); exact E2].
  all: unfold outcome_of in H; destruct r as [u|e'];
    [by eexists _, _|destruct H as [H|[-> H]]; [by left|right; split; [done|by eexists _, _]]].
Qed.
End SubmitFacts.
