(* ===== verification/GateSafety.v ===== *)
(** * What the gate hands to the relay

    The gate (Gate.v) talks to the core (Routes.v, Daemon.v) over HTTP.  Over
    a network that delivers, [Deliver] reaches the relay only with a message
    the core has registered and whose every recipient the policy tables allow
    at that moment; every other run ends in an error without touching the
    relay, whatever fails in the database, in Postfix or in the core. *)

From stdpp Require Import base list gmap sets strings.
From Stdlib Require Import ZArith Lia Ascii.
From S2P Require Import Prelude GoStd Json JsonText JsonStruct Policy Queue AuditLog Database QueueStore Sources Admission HoldMachine Reconcile Postfix Http Helper Remote RemoteRefinement Release Decision Admin Activation Daemon ControlWire Routes Gate.

(** ** What a decision carries *)

(** A member of a concrete list. *)
Ltac here_or_further := first [apply list_elem_of_here | apply list_elem_of_further; here_or_further].

Section Decisions.
Context `{HOST : !Host} `{IDNA : !IdnaLaws}.

Definition known_actions : list string := [ActionOK; ActionReject; ActionDefer].

Lemma Evaluate_shape req :
  d_action (Evaluate req) ∈ known_actions /\ d_reason (Evaluate req) ∈ known_reasons
  /\ forall k r, d_revisions (Evaluate req) !! k = Some r ->
       exists g, g ∈ rq_governing req /\ governs g k /\ gd_revision g = r.
Proof.
  assert (forall a r R, a ∈ known_actions -> r ∈ known_reasons ->
    (forall k x, R !! k = Some x -> restricted_by (rq_governing req) k x) ->
    d_action {| d_action := a; d_reason := r; d_revisions := R |} ∈ known_actions
    /\ d_reason {| d_action := a; d_reason := r; d_revisions := R |} ∈ known_reasons
    /\ forall k x, d_revisions {| d_action := a; d_reason := r; d_revisions := R |} !! k = Some x ->
         exists g, g ∈ rq_governing req /\ governs g k /\ gd_revision g = x) as Hw.
  { intros a r R Ha Hr HR. split_and!; [done..|]. intros k x Hk.
    destruct (HR k x Hk) as (g & Hg & Hd & _ & Hx). by exists g. }
  assert (forall a r, a ∈ known_actions -> r ∈ known_reasons ->
    d_action (decision_of a r) ∈ known_actions /\ d_reason (decision_of a r) ∈ known_reasons
    /\ forall k x, d_revisions (decision_of a r) !! k = Some x ->
         exists g, g ∈ rq_governing req /\ governs g k /\ gd_revision g = x) as H0.
  { intros a r Ha Hr. apply Hw; [done..|]. intros k x. by rewrite lookup_empty. }
  destruct (answerable_or_not req) as [(rcpt & A & R & Han & Hr & He & HR)|[_ ->]];
    [|apply H0; here_or_further].
  destruct Han as (Hst & Hlen & _ & _).
  assert (forall a r, a ∈ known_actions -> r ∈ known_reasons ->
    d_action {| d_action := a; d_reason := r; d_revisions := R |} ∈ known_actions
    /\ d_reason {| d_action := a; d_reason := r; d_revisions := R |} ∈ known_reasons
    /\ forall k x, d_revisions {| d_action := a; d_reason := r; d_revisions := R |} !! k = Some x ->
         exists g, g ∈ rq_governing req /\ governs g k /\ gd_revision g = x) as HwR.
  { intros a r Ha Hr'. apply Hw; [done..|]. intros k x. apply HR. }
  unfold Evaluate. rewrite Hr, He.
  repeat case_match; first [apply H0|apply HwR]; here_or_further.
Qed.

(** The revision columns are bigints. *)
Definition bigint_revisions (d : DB) : Prop :=
  forall i dom, db_domains d !! i = Some dom -> (dm_revision dom < 2 ^ 63)%Z.

(** A decision that can be sent and read back. *)
Record wire_decision (dec : Decision) : Prop := {
  wd_action : d_action dec ∈ known_actions;
  wd_reason : d_reason dec ∈ known_reasons;
  wd_revisions : forall k r, d_revisions dec !! k = Some r -> ValidString k = true /\ (r < 2 ^ 64)%N;
}.

Lemma unavailable_wire : wire_decision defer_unavailable.
Proof. split; [here_or_further..|]. intros k r H. cbn in H. by rewrite lookup_empty in H. Qed.

Lemma resolved_wire d sources governing req :
  bigint_revisions d -> resolves d sources governing -> rq_governing req = governing ->
  wire_decision (Evaluate req).
Proof.
  intros Hb Hres <-. destruct (Evaluate_shape req) as (Ha & Hr & Hk). split; [done..|].
  intros k r (g & Hg & Hgov & <-)%Hk.
  destruct (resolves_elem _ _ _ _ Hres Hg) as (s & dom & _ & (did & _ & Hrow & _ & _ & _ & Hp) & ->).
  destruct Hgov as (Hn & _). split.
  - by eapply ValidString_plain, NormalizeDomain_plain.
  - apply Hb in Hrow. simpl. lia.
Qed.

Context {PS : Type}.
Implicit Types (w : World PS).

(** What the core's transport decision is, and what an OK among them means. *)
Lemma decided_transport actor cid q r w dec w' :
  bigint_revisions (w_db w) -> decided (Decide actor cid (transport_of q r)) w = (dec, w') ->
  wire_decision dec
  /\ (d_action dec = ActionOK -> w_db w' = w_db w
      /\ exists record rcpt dom, load_pure q (w_db w) = Ok record
           /\ normalizeQueueRecipient r = Ok (rcpt, dom)
           /\ policy_allows (w_db w) (qr_sources record) rcpt).
Proof.
  intros Hb H. unfold decided in H.
  destruct (Decide actor cid (transport_of q r) w) as [[[dec' err]|e] w1] eqn:E; injection H as <- <-.
  2: { split; [apply unavailable_wire|done]. }
  assert (wire_decision dec') as Hw.
  { unfold Decide in E. edestruct (fail_closed_run (PS := PS)) as (d0 & e0 & E' & Hr).
    rewrite E' in E. injection E as -> -> _. destruct err as [e|].
    { destruct Hr as [-> _]. apply unavailable_wire. }
    apply bind_ok in Hr as ([] & ? & [_ ->]%guardM_ok & Hr).
    apply decide_transport_ok in Hr as (rec & rcpt & dom & g & _ & _ & _ & _ & Hg & -> & _).
    by eapply resolved_wire. }
  split; [exact Hw|]. intros Hok. destruct err as [e|].
  - exfalso. unfold Decide in E. edestruct (fail_closed_run (PS := PS)) as (d0 & e0 & E' & Hr).
    rewrite E' in E. injection E as -> -> _. destruct Hr as [-> _]. by vm_compute in Hok.
  - by eapply Decide_transport_allows.
Qed.
End Decisions.

(** ** Responses *)

Section Responses.
Context `{HOST : !Host} {PS : Type}.
Implicit Types (w : World PS).

(** The header the gate sends. *)
Record header_ok (cid : string) : Prop := {
  ho_valid : ValidString cid = true; ho_text : TrimSpace cid <> "";
}.

Lemma correlation_header cid w : header_ok cid -> correlation cid w = (cid, w).
Proof. intros [_ H]. unfold correlation. apply eqs_false in H. by rewrite H. Qed.

Lemma resp_header cid d reason w : header_ok cid ->
  resp cid d reason w = (put rp_message (safeMessage d reason) (put rp_reason reason
    (put rp_decision d (put rp_correlation_id cid zero_response))), w).
Proof. intros H. unfold resp. by rewrite correlation_header. Qed.

Lemma plain_response cid d reason m :
  Forall (fun s => ValidString s = true) [cid; d; reason; m] ->
  valid_response (put rp_message m (put rp_reason reason (put rp_decision d
    (put rp_correlation_id cid zero_response)))).
Proof.
  rewrite !Forall_cons. intros (H1 & H2 & H3 & H4 & _). split; try reflexivity.
  - repeat (apply Forall_cons; split); try apply Forall_nil;
      first [exact H1|exact H2|exact H3|exact H4|reflexivity].
  - repeat (apply Forall_cons; split); try apply Forall_nil; cbn; lia.
  - intros k x H. cbn in H. by rewrite lookup_empty in H.
Qed.

(** A response that is read back has the decision and the reason written. *)
Lemma write_read r r' : valid_response r ->
  strict_json response_fields zero_response (rs_body (write r)) = Some r' ->
  rp_decision r' = rp_decision r /\ rp_reason r' = rp_reason r
  /\ rp_policy_revisions r' = rp_policy_revisions r.
Proof.
  intros (r2 & E & Hs & _)%response_round_trip H. cbn [write reply rs_body] in H.
  rewrite E in H. injection H as <-. rewrite Hs. by split_and!.
Qed.
End Responses.

(** ** The gate over a network that delivers *)

(** [time.Format] of a reading of the clock. *)
Class TimeFormat := { format_stamp : Z -> string }.
Class TimeFormatLaws `{FORMAT : !TimeFormat} : Prop := {
  format_plain : forall t, forall_bytes plain_byte (format_stamp t) = true;
}.

#[export] Instance wall_clock `{FORMAT : !TimeFormat} {PS} : GateClock (World PS) :=
  {| clock_text := fun w => match nowM w with
                            | (Ok t, w') => (format_stamp t, w')
                            | (Err _, w') => ("", w')
                            end |}.

(** What the gate relies on of its inspector: it does not write the core's
    database, and its observations are text. *)
Class InspectorLaws {PS} `{INSPECTOR : !QueueInspector (World PS)} : Prop := {
  inspector_db : forall q w, w_db (inspector_inspect q w).2 = w_db w;
  inspector_valid : forall q w m w', inspector_inspect q w = (Ok m, w') -> valid_metadata m;
}.

Section Network.
Context `{HOST : !Host} `{IDNA : !IdnaLaws} `{FORMAT : !TimeFormat} `{STAMP : !TimeFormatLaws}.
Context {PS : Type} `{BOUND : !QueueBoundary PS}.
Variables (sv : Service) (other : string -> Route (PS := PS)) (c : HTTPController).
Implicit Types (w : World PS).

Definition core_network : HttpClient (World PS) := direct_client (hc_base_url c) (mux sv other).
#[local] Existing Instance core_network.

Definition control_request (path payload cid : string) (privileged : bool) : HttpRequest :=
  {| rq_method := MethodPost; rq_url := hc_base_url c +:+ path;
     rq_authorization := if privileged then bearer_prefix +:+ hc_token c else "";
     rq_correlation := cid; rq_body := payload |}.

Lemma stamp_header now : forall_bytes plain_byte now = true -> header_ok ("postfix-gate:" +:+ now).
Proof.
  intros H. assert (forall_bytes plain_byte ("postfix-gate:" +:+ now) = true) as Hp.
  { rewrite forall_bytes_app, H. reflexivity. }
  split; [by apply ValidString_plain|]. rewrite TrimSpace_plain by exact Hp. done.
Qed.

Lemma clock_ok w : exists now w1, clock_text w = (now, w1) /\ w_db w1 = w_db w
  /\ forall_bytes plain_byte now = true.
Proof.
  cbn. destruct (nowM w) as [[t|e] w1] eqn:E; cbn.
  - apply nowM_db in E as [D _]. eexists _, _. split_and!; [done|done|apply format_plain].
  - exfalso. unfold nowM in E. by destruct (w_clock w) as [|? []].
Qed.

(** A call that returns had its answer written by a route. *)
Lemma control_call_ok path payload privileged w r w' :
  control_call c path payload privileged w = (Ok r, w') ->
  exists cid w1 rs, header_ok cid /\ w_db w1 = w_db w
    /\ mux sv other path (control_request path payload cid privileged) w1 = (rs, w')
    /\ rs_status rs = StatusOK
    /\ strict_json response_fields zero_response (rs_body rs) = Some r.
Proof.
  unfold control_call, mbind, Command_bind, guard_cmd. intros H.
  destruct (negb (hc_client c)); [done|]. cbn [mret Command_ret] in H.
  destruct (_ <? _)%Z; [done|]. cbn [mret Command_ret] in H.
  destruct (negb (request_url _)); [done|]. cbn [mret Command_ret] in H.
  destruct (clock_ok w) as (now & w1 & Ec & D & Hp). rewrite Ec in H.
  cbn [http_do core_network direct_client rq_url] in H. rewrite strip_app in H.
  change ({| rq_method := MethodPost; rq_url := hc_base_url c +:+ path;
             rq_authorization := if privileged then bearer_prefix +:+ hc_token c else "";
             rq_correlation := "postfix-gate:" +:+ now; rq_body := payload |})
    with (control_request path payload ("postfix-gate:" +:+ now) privileged) in H.
  destruct (mux sv other path _ w1) as [rs w2] eqn:Em.
  unfold read_body in H. destruct (_ <? _)%Z; [done|]. destruct (rs_broken rs); [done|].
  destruct (rs_status rs =? StatusOK)%Z eqn:Es; [|done].
  destruct (strict_json _ _ _) as [r'|] eqn:Er; [|done]. injection H as -> ->.
  exists ("postfix-gate:" +:+ now), w1, rs. to_prop. split_and!; [by apply stamp_header|done..].
Qed.

Lemma decode_payload {A} (fields : struct_type A) zero rq a :
  decodeStrict fields zero rq = inr a -> strict_json fields zero (rq_body rq) = Some a.
Proof.
  unfold decodeStrict. destruct (_ <? _)%Z; [done|]. destruct (strict_json _ _ _); [|done].
  by intros [= ->].
Qed.

Lemma decode_refused {A} (fields : struct_type A) zero rq r :
  decodeStrict fields zero rq = inl r -> r = malformed_json rq.
Proof.
  unfold decodeStrict. destruct (_ <? _)%Z; [by intros [= <-]|].
  destruct (strict_json _ _ _); [done|by intros [= <-]].
Qed.

Lemma malformed_read path payload cid privileged r' : header_ok cid ->
  strict_json response_fields zero_response
    (rs_body (write (malformed_json (control_request path payload cid privileged)))) = Some r' ->
  rp_decision r' = DecisionError.
Proof.
  intros [Hv _] H. apply write_read in H as [H _]; [exact H|].
  apply plain_response. repeat (apply Forall_cons; split); try apply Forall_nil;
    first [exact Hv|reflexivity].
Qed.

(** What a strict POST route did to answer with another decision than an
    error. *)
Lemma strict_route {A} (fields : struct_type A) zero run path payload cid privileged w1 rs w' r' :
  header_ok cid ->
  strictly fields zero run (control_request path payload cid privileged) w1 = (rs, w') ->
  strict_json response_fields zero_response (rs_body rs) = Some r' ->
  rp_decision r' <> DecisionError ->
  exists a r, strict_json fields zero payload = Some a /\ run cid a w1 = (r, w')
    /\ strict_json response_fields zero_response (rs_body (write r)) = Some r'.
Proof.
  unfold strictly. intros Hc H Hr Hd.
  destruct (decodeStrict fields zero _) as [r|a] eqn:Ed.
  - exfalso. injection H as <- <-. apply decode_refused in Ed as ->.
    apply malformed_read in Hr; [|done]. contradiction.
  - apply decode_payload in Ed. cbn [rq_body rq_correlation control_request] in *.
    destruct (run cid a w1) as [r w2] eqn:E. injection H as <- <-. by exists a, r.
Qed.

(** ** The three calls *)

(** A plain answer is read with its decision. *)
Lemma plain_answer cid d reason w r w' r' : header_ok cid ->
  ValidString d && ValidString reason && ValidString (safeMessage d reason) = true ->
  resp cid d reason w = (r, w') ->
  strict_json response_fields zero_response (rs_body (write r)) = Some r' -> rp_decision r' = d.
Proof.
  intros Hc [[Hd Hs]%andb_true_iff Hm]%andb_true_iff H Hr.
  rewrite resp_header in H by done. injection H as <- _.
  apply write_read in Hr as [Hr _]; [exact Hr|]. apply plain_response. destruct Hc as [Hc _].
  by repeat constructor.
Qed.

Lemma register_call req w u w' :
  valid_admission req -> controller_register c req w = (Ok u, w') ->
  exists w1 record created, w_db w1 = w_db w /\ Admit req w1 = (Ok (record, created), w').
Proof.
  intros Hv H. unfold controller_register, mbind, Command_bind in H.
  destruct (control_call _ _ _ _ w) as [[r|e] w2] eqn:Ec; [|done].
  apply control_call_ok in Ec as (cid & w1 & rs & Hc & D & Hm & _ & Hr).
  destruct (_ || _) eqn:Eg in H; [done|]. injection H as _ <-.
  apply orb_false_iff in Eg as [Ed _]. apply negb_false_iff, eqs_true in Ed.
  change (mux sv other "/internal/v1/postfix/queue/register") with (route_queue_register (PS := PS) sv) in Hm.
  unfold route_queue_register, method in Hm. cbn [rq_method control_request] in Hm.
  rewrite eqs_refl in Hm. unfold authorized in Hm. cbn [negb] in Hm.
  destruct (authorizePostfixHelper sv _); [|injection Hm as <- _; by vm_compute in Hr].
  cbn [negb] in Hm. eapply strict_route in Hm as (a & r0 & Ha & Hrun & Hr0);
    [|done..|rewrite Ed; done].
  destruct (admission_round_trip req Hv) as (wire & Ew & <-). rewrite Ha in Ew.
  injection Ew as ->. unfold PostfixQueueAdmission in Hrun.
  destruct (negb (sv_outbound_admission sv)).
  { exfalso. eapply plain_answer in Hrun as Hd; [|done|by vm_compute|exact Hr0]. by rewrite Ed in Hd. }
  destruct (Admit _ w1) as [[[record created]|e] w3] eqn:Ea.
  2: { exfalso. eapply plain_answer in Hrun as Hd; [|done|by vm_compute|exact Hr0]. by rewrite Ed in Hd. }
  rewrite resp_header in Hrun by done. injection Hrun as _ <-. by exists w1, record, created.
Qed.

Lemma safe_known reason d : reason ∈ known_reasons -> d ∈ known_actions ->
  ValidString (safeMessage d reason) = true /\ ValidString reason = true /\ ValidString d = true.
Proof.
  unfold known_reasons, known_actions. rewrite !elem_of_cons.
  intros Hr Hd. assert (forall x : string, x ∈ ([] : list string) -> False) as Hn
    by (by intros x ?%not_elem_of_nil).
  destruct Hr as [->|[->|[->|[->|[->|[->|Hr]]]]]]; [..|by apply Hn in Hr];
    destruct Hd as [->|[->|[->|Hd]]]; try (by apply Hn in Hd); by vm_compute.
Qed.

(** The answer to a decision carries its action. *)
Lemma decision_answer cid dec w r w' : header_ok cid -> wire_decision dec ->
  outboundDecisionResponse cid dec w = (r, w') ->
  w' = w /\ valid_response r /\ rp_decision r = d_action dec.
Proof.
  intros Hc [Ha Hr Hk] H. unfold outboundDecisionResponse, resp_with in H.
  rewrite resp_header in H by done. injection H as <- <-.
  destruct (safe_known (d_reason dec) DecisionDefer Hr) as (Hm & Hv & _); [here_or_further|].
  assert ((closed_action dec).1 = d_action dec /\ (closed_action dec).2 = d_reason dec) as [E1 E2].
  { unfold closed_action, known_actions in *. rewrite !elem_of_cons in Ha.
    destruct Ha as [->|[->|[->|Ha]]]; [done..|]. by apply not_elem_of_nil in Ha. }
  split_and!; [done| |exact E1].
  destruct (safe_known (d_reason dec) (d_action dec) Hr Ha) as (_ & _ & Hva).
  split; try reflexivity.
  - repeat (apply Forall_cons; split); try apply Forall_nil; cbn;
      rewrite ?E1, ?E2; first [apply Hc|assumption|reflexivity].
  - repeat (apply Forall_cons; split); try apply Forall_nil; cbn; lia.
  - exact Hk.
Qed.

Lemma decide_call q rcpt w dec w' :
  ValidString q = true -> ValidString rcpt = true -> bigint_revisions (w_db w) ->
  controller_decide c q rcpt w = (Ok dec, w') -> d_action dec = ActionOK ->
  w_db w' = w_db w
  /\ exists record a dom, load_pure q (w_db w) = Ok record
       /\ normalizeQueueRecipient rcpt = Ok (a, dom)
       /\ policy_allows (w_db w) (qr_sources record) a.
Proof.
  intros Hq Hr0 Hb H Hok. unfold controller_decide, mbind, Command_bind in H.
  destruct (control_call _ _ _ _ w) as [[r|e] w2] eqn:Ec; [|done].
  apply control_call_ok in Ec as (cid & w1 & rs & Hc & D & Hm & _ & Hr).
  cbv zeta in H. unfold guard_cmd in H.
  destruct (_ && _) in H; [done|]. cbn [mret Command_ret] in H.
  destruct (negb _) in H; [done|]. injection H as <- <-. cbn [d_action] in Hok.
  change (mux sv other "/internal/v1/postfix/outbound-policy") with (route_outbound_policy (PS := PS) sv) in Hm.
  unfold route_outbound_policy, method in Hm. cbn [rq_method control_request] in Hm.
  rewrite eqs_refl in Hm. cbn [negb] in Hm.
  eapply strict_route in Hm as (a & r0 & Ha & Hrun & Hr0'); [|done..|rewrite Hok; done].
  destruct (enforcement_round_trip (transport_request q rcpt)) as (wire & Ew & Hwire).
  { by split. }
  rewrite Ha in Ew. injection Ew as ->. rewrite Hwire in Hrun.
  change (transport_request q rcpt) with (transport_of q rcpt) in Hrun.
  unfold PostfixOutboundPolicy in Hrun. destruct (sv_outbound_policy sv) as [holdActor|].
  2: { exfalso. eapply plain_answer in Hrun as Hd; [|done|by vm_compute|exact Hr0']. by rewrite Hok in Hd. }
  destruct (decided _ w1) as [dec' w3] eqn:Ed. rewrite <- D in Hb |- *.
  apply decided_transport in Ed as [Hw Hd]; [|done].
  destruct (decision_answer _ _ _ _ _ Hc Hw Hrun) as (-> & Hv & Hact).
  apply write_read in Hr0' as [Hdec _]; [|done].
  apply Hd. congruence.
Qed.

(** ** Delivery *)

#[local] Instance core_controller : Controller (World PS) := ControllerHTTP c.

Definition allowed_at (d : DB) (q recipient : string) : Prop :=
  exists record a dom, load_pure q d = Ok record /\ normalizeQueueRecipient recipient = Ok (a, dom)
    /\ policy_allows d (qr_sources record) a.

Lemma decide_each_ok q rs : forall w u w',
  ValidString q = true -> forallb ValidString rs = true -> bigint_revisions (w_db w) ->
  decide_each q rs w = (Ok u, w') ->
  w_db w' = w_db w /\ forall r, r ∈ rs -> allowed_at (w_db w) q r.
Proof.
  induction rs as [|r rs IH]; intros w u w' Hq Hv Hb H.
  { injection H as _ <-. split; [done|]. by intros r ?%not_elem_of_nil. }
  cbn [forallb] in Hv. apply andb_true_iff in Hv as [Hr Hv].
  cbn [decide_each] in H. unfold mbind, Command_bind in H.
  destruct (control_decide q r w) as [[dec|e] w1] eqn:Ed; [|done].
  destruct (_ && _) in H.
  { cbn in H. by destruct (controller_reconcile c q w1) as [[]]. }
  destruct (d_action dec =?s ActionOK) eqn:Ea; [|done]. cbn [negb] in H. apply eqs_true in Ea.
  destruct (decide_call q r w dec w1 Hq Hr Hb Ed Ea) as (D & record & a & dom & Hl & Hn & Hp).
  rewrite <- D in Hb. destruct (IH w1 u w' Hq Hv Hb H) as (D' & Hrs). rewrite D in D', Hrs.
  split; [done|]. intros r' [->|Hin]%elem_of_cons; [by exists record, a, dom|by apply Hrs].
Qed.

Context `{INSPECTOR : !QueueInspector (World PS)} `{LAWS : !InspectorLaws}.

(** A delivery request that is text. *)
Record valid_delivery (request : DeliveryRequest) : Prop := {
  vd_mailbox : ValidString (dr_authenticated_mailbox request) = true;
  vd_system : ValidString (dr_system_sender_id request) = true;
  vd_deliveries : forallb (fun d => ValidString (qd_original d) && ValidString (qd_recipient d))
                    (dr_deliveries request) = true;
}.

(** A message that may be handed over: [d0] is the database when the delivery
    began, [d] the database now. *)
Record cleared (d0 d : DB) (request : DeliveryRequest) (m : QueueMetadata) : Prop := {
  cl_unheld : qm_held m = false;
  cl_tables : only_queue (qm_queue_id m) d0 d;
  cl_registered : exists canonical bound expansion q record,
    rmap canonical_delivery (dr_deliveries request) = Ok canonical
    /\ Forall (derived d0) canonical
    /\ admission_authority d0 (admission_request request m) bound
    /\ (forall s, s ∈ expansion <-> owed d0 canonical s)
    /\ normalizeQueueRegistration
         (registration_request (admission_request request m) (bound ++ expansion)) = Ok q
    /\ sameQueueIdentity record q = true /\ load_pure (qm_queue_id m) d = Ok record;
  cl_allowed : forall recipient, recipient ∈ qm_recipients m -> allowed_at d (qm_queue_id m) recipient;
}.

Lemma Deliver_ok request message w :
  valid_delivery request -> bigint_revisions (w_db w) ->
  (exists e w', forall relay, Deliver relay request message w = (Err e, w'))
  \/ exists m body w0 w1, inspector_inspect (dr_queue_id request) w = (Ok m, w0)
       /\ read_message message = Ok body /\ cleared (w_db w) (w_db w1) request m
       /\ forall relay, Deliver relay request message w
            = relay (qm_envelope_sender m) (qm_recipients m) body w1.
Proof.
  intros [V1 V2 V3] Hb. unfold Deliver, mbind, Command_bind, guard_cmd.
  destruct (length _ =? 0); [left; by eexists _, _|]. cbn [mret Command_ret].
  pose proof (inspector_db (dr_queue_id request) w) as D0.
  destruct (inspector_inspect (dr_queue_id request) w) as [[m|e] w0] eqn:Ei;
    [|left; by eexists _, _].
  destruct (qm_held m) eqn:Eh; [left; by eexists _, _|]. cbn [snd] in D0.
  pose proof (inspector_valid _ _ _ _ Ei) as Hm.
  destruct (control_register (admission_request request m) w0) as [[u|e] w1] eqn:Er;
    [|left; by eexists _, _].
  assert (valid_admission (admission_request request m)) as Hva by (by split).
  destruct (register_call _ _ _ _ Hva Er) as (w0' & record & created & D1 & Ha).
  apply Admit_ok in Ha as (canonical & recipients & bound & expansion & q &
    Hc & Hd & _ & _ & Hauth & Howed & _ & Hq & Hsame & Hload & Honly).
  rewrite D1, D0 in *. cbn [qa_metadata qa_deliveries admission_request] in *.
  assert (bigint_revisions (w_db w1)) as Hb1.
  { intros i dom. destruct Honly as [-> _ _ _ _ _ _ _]. apply Hb. }
  destruct Hm as [Hq1 Hq2 Hq3 Hq4].
  destruct (decide_each (qm_queue_id m) (qm_recipients m) w1) as [[u'|e] w2] eqn:Ee;
    [|left; by eexists _, _].
  destruct (decide_each_ok _ _ _ _ _ Hq1 Hq4 Hb1 Ee) as (D2 & Hallow). unfold lift_cmd.
  destruct (read_message message) as [body|e]; [|left; by eexists _, _].
  right. exists m, body, w0, w2. split_and!; [done..| |done]. rewrite D2.
  split; [done|done| |done]. exists canonical, bound, expansion, q, record. by split_and!.
Qed.

(** C2: the gate reaches the relay only with a message the core has cleared.
    Every delivery either ends in an error that does not depend on the relay,
    whatever the relay would have answered, or hands the relay the inspected
    envelope and the whole message in a state where the message was not held,
    its provenance is registered as proved from the tables, only its own rows
    were written, and the policy tables allow every one of its recipients.
    The core is reached over HTTP with JSON bodies, and its database and its
    Postfix boundary may fail at any point. *)
Theorem Deliver_guarded request message w :
  valid_delivery request -> bigint_revisions (w_db w) ->
  (exists e w', forall relay, Deliver relay request message w = (Err e, w'))
  \/ exists m body w0 w1, inspector_inspect (dr_queue_id request) w = (Ok m, w0)
       /\ read_message message = Ok body /\ cleared (w_db w) (w_db w1) request m
       /\ forall relay, Deliver relay request message w
            = relay (qm_envelope_sender m) (qm_recipients m) body w1.
Proof. apply Deliver_ok. Qed.
End Network.

(** The boundary beside Postfix satisfies what the gate relies on. *)
Definition postfix_inspector `{HOST : !Host} {PS} `{RUNNER : !CommandRunner PS}
    (pb : PostfixBoundary) : QueueInspector (World PS) :=
  {| inspector_inspect := fun q => extM (postfix_inspect pb q) |}.

#[export] Instance postfix_inspector_laws `{HOST : !Host} `{IDNA : !IdnaLaws} `{MAIL : !MailLaws}
    {PS} `{RUNNER : !CommandRunner PS} (pb : PostfixBoundary) :
  InspectorLaws (INSPECTOR := postfix_inspector pb).
Proof.
  split.
  - intros q w. cbn. unfold extM. by destruct (postfix_inspect pb q (w_ext w)).
  - intros q w m w' H. cbn in H. unfold extM in H.
    destruct (postfix_inspect pb q (w_ext w)) as [r s] eqn:E. injection H as -> <-.
    apply postfix_inspect_canonical in E as (_ & H1 & H2 & H3 & H4). by split.
Qed.
