(* ===== verification/Verifier.v ===== *)
(** * Password verifiers (internal/daemon/daemon.go)

    The text format of Django's PBKDF2-SHA256 verifiers,
    [pbkdf2_sha256$iterations$salt$digest], how it is written, validated and
    checked.  The key derivation itself (golang.org/x/crypto/pbkdf2) is the
    class [Pbkdf2]. *)

From stdpp Require Import base list gmap sets strings pretty.
From Stdlib Require Import ZArith Lia Ascii.
From S2P Require Import Prelude GoStd Json JsonText.

(** [pbkdf2.Key(password, salt, iter, keyLen, sha256.New)] *)
Class Pbkdf2 := { pbkdf2_key : list N -> list N -> Z -> nat -> list N }.
Class Pbkdf2Laws `{KDF : !Pbkdf2} : Prop := {
  pbkdf2_length : forall password salt iter n, length (pbkdf2_key password salt iter n) = n;
  pbkdf2_bytes : forall password salt iter n, Forall (fun b => b < 256)%N (pbkdf2_key password salt iter n);
}.

(** ** base64.StdEncoding *)

Definition base64_alphabet : string :=
  "ABCDEFGHIJKLMNOPQRSTUVWXYZabcdefghijklmnopqrstuvwxyz0123456789+/".

Definition base64_char (n : N) : ascii :=
  default "="%char (String.get (N.to_nat n) base64_alphabet).

Definition sextet (c : ascii) : option N :=
  if in_range 65 90 c then Some (byte_val c - 65)%N
  else if in_range 97 122 c then Some (byte_val c - 71)%N
  else if in_range 48 57 c then Some (byte_val c + 4)%N
  else if (byte_val c =? 43)%N then Some 62%N
  else if (byte_val c =? 47)%N then Some 63%N
  else None.

(** EncodeToString: four characters for three bytes, padded at the end. *)
Fixpoint base64_encode (l : list N) : string :=
  match l with
  | [] => ""
  | [x] => String (base64_char (x / 4)) (String (base64_char (x mod 4 * 16)) "==")
  | [x; y] =>
      String (base64_char (x / 4)) (String (base64_char (x mod 4 * 16 + y / 16))
        (String (base64_char (y mod 16 * 4)) "="))
  | x :: y :: z :: l =>
      String (base64_char (x / 4)) (String (base64_char (x mod 4 * 16 + y / 16))
        (String (base64_char (y mod 16 * 4 + z / 64)) (String (base64_char (z mod 64))
          (base64_encode l))))
  end.

(** DecodeString skips carriage returns and line feeds, wants padding, and
    does not look at the bits the padding leaves over. *)
Fixpoint drop_newlines (s : string) : string :=
  match s with
  | "" => ""
  | String c s =>
      if (byte_val c =? 10)%N || (byte_val c =? 13)%N then drop_newlines s
      else String c (drop_newlines s)
  end.

Definition byte1 (a b : N) : N := (a * 4 + b / 16)%N.
Definition byte2 (b c : N) : N := (b mod 16 * 16 + c / 4)%N.
Definition byte3 (c d : N) : N := (c mod 4 * 64 + d)%N.

Fixpoint base64_groups (s : string) : option (list N) :=
  match s with
  | "" => Some []
  | String a (String b (String c (String d s))) =>
      match sextet a, sextet b with
      | Some a, Some b =>
          match sextet c, sextet d with
          | Some c, Some d =>
              (fun l => byte1 a b :: byte2 b c :: byte3 c d :: l) <$> base64_groups s
          | Some c, None =>
              if (byte_val d =? 61)%N && (s =?s "") then Some [byte1 a b; byte2 b c] else None
          | None, _ =>
              if (byte_val c =? 61)%N && (byte_val d =? 61)%N && (s =?s "")
              then Some [byte1 a b] else None
          end
      | _, _ => None
      end
  | _ => None
  end.

Definition base64_decode (s : string) : option (list N) := base64_groups (drop_newlines s).

(** ** strings.Split and strconv.Atoi *)

Fixpoint split_byte (b : ascii) (s : string) : list string :=
  match s with
  | "" => [""]
  | String c s =>
      if Ascii.eqb c b then "" :: split_byte b s
      else match split_byte b s with
           | e :: l => String c e :: l
           | [] => [String c ""]
           end
  end.

(** A sign is optional; the value must fit an [int]. *)
Definition Atoi (s : string) : option Z :=
  match match s with
        | String c s1 =>
            if (byte_val c =? 45)%N then Z.opp <$> parse_digits s1
            else if (byte_val c =? 43)%N then parse_digits s1
            else parse_digits s
        | EmptyString => None
        end with
  | Some n => if (- 2 ^ 63 <=? n)%Z && (n <? 2 ^ 63)%Z then Some n else None
  | None => None
  end.

(** ** Verifiers *)

Definition dollar : ascii := "$".

Section Verifier.
Context `{KDF : !Pbkdf2}.

(** [fmt.Sprintf("pbkdf2_sha256$%d$%s$%s", ...)] *)
Definition MakeDjangoPBKDF2SHA256Bytes (secret : list N) (salt : string) (iterations : Z) : string :=
  let dk := pbkdf2_key secret (bytes_of salt) iterations 32 in
  "pbkdf2_sha256$" +:+ FormatInt iterations +:+ String dollar (salt +:+ String dollar (base64_encode dk)).

Definition MakeDjangoPBKDF2SHA256 (secret salt : string) (iterations : Z) : string :=
  MakeDjangoPBKDF2SHA256Bytes (bytes_of secret) salt iterations.

(** The iterations, salt and digest of a valid verifier. *)
Definition ValidateDjangoPBKDF2SHA256 (encoded : string) : result (Z * string * list N) :=
  match split_byte dollar encoded with
  | [algorithm; iterations; salt; digest] =>
      if algorithm <>?s "pbkdf2_sha256" then Err "unsupported verifier" else
      match Atoi iterations with
      | None => Err "invalid verifier iterations"
      | Some n =>
          if (n <? 1)%Z then Err "invalid verifier iterations" else
          if salt =?s "" then Err "invalid verifier salt" else
          match base64_decode digest with
          | None => Err "invalid verifier digest"
          | Some want =>
              if negb (length want =? 32) then Err "invalid verifier digest"
              else Ok (n, salt, want)
          end
      end
  | _ => Err "unsupported verifier"
  end.

(** [hmac.Equal] is equality of byte strings. *)
Definition VerifyDjangoPBKDF2SHA256 (encoded secret : string) : result unit :=
  let! parts := ValidateDjangoPBKDF2SHA256 encoded in
  let '(iterations, salt, want) := parts in
  let got := pbkdf2_key (bytes_of secret) (bytes_of salt) iterations (length want) in
  if bool_decide (got = want) then Ok tt else Err "secret mismatch".
End Verifier.

(** ** Round trips *)

Definition sextet_ok (n : N) : bool :=
  match sextet (base64_char n) with Some m => (m =? n)%N | None => false end
  && negb (Ascii.eqb (base64_char n) dollar)
  && negb ((byte_val (base64_char n) =? 10)%N || (byte_val (base64_char n) =? 13)%N).

Lemma base64_char_ok n : (n < 64)%N ->
  sextet (base64_char n) = Some n /\ Ascii.eqb (base64_char n) dollar = false
  /\ (byte_val (base64_char n) =? 10)%N || (byte_val (base64_char n) =? 13)%N = false.
Proof.
  intros Hn. assert (sextet_ok n = true) as H.
  { assert (forallb (fun k => sextet_ok (N.of_nat k)) (seq 0 64) = true) as H by by vm_compute.
    rewrite forallb_forall in H. specialize (H (N.to_nat n)). rewrite N2Nat.id in H. apply H.
    apply in_seq. lia. }
  unfold sextet_ok in H. apply andb_true_iff in H as [[H1 H2]%andb_true_iff H3].
  apply negb_true_iff in H2, H3. split_and!; [|done..].
  destruct (sextet (base64_char n)) as [m|]; [|done]. to_prop. by subst.
Qed.

(** Three bytes and their four sextets. *)
Lemma sextets_of x y z : (x < 256)%N -> (y < 256)%N -> (z < 256)%N ->
  (x / 4 < 64 /\ x mod 4 * 16 + y / 16 < 64 /\ y mod 16 * 4 + z / 64 < 64 /\ z mod 64 < 64)%N
  /\ byte1 (x / 4) (x mod 4 * 16 + y / 16) = x
  /\ byte2 (x mod 4 * 16 + y / 16) (y mod 16 * 4 + z / 64) = y
  /\ byte3 (y mod 16 * 4 + z / 64) (z mod 64) = z.
Proof.
  intros Hx Hy Hz. unfold byte1, byte2, byte3.
  assert (x / 4 < 64 /\ y / 16 < 16 /\ z / 64 < 4)%N as (Hx4 & Hy16 & Hz64)
    by (split_and!; apply N.Div0.div_lt_upper_bound; lia).
  pose proof (N.div_mod x 4 ltac:(done)) as Ex. pose proof (N.mod_lt x 4 ltac:(done)).
  pose proof (N.div_mod y 16 ltac:(done)) as Ey. pose proof (N.mod_lt y 16 ltac:(done)).
  pose proof (N.div_mod z 64 ltac:(done)) as Ez. pose proof (N.mod_lt z 64 ltac:(done)).
  rewrite !(N.add_comm (_ * _)), !N.div_add, !N.Div0.mod_add by done.
  rewrite !(N.div_small (_ / _)), !(N.mod_small (_ / _)) by done.
  split_and!; lia.
Qed.

Lemma list_ind3 {A} (P : list A -> Prop) :
  P [] -> (forall x, P [x]) -> (forall x y, P [x; y]) ->
  (forall x y z l, P l -> P (x :: y :: z :: l)) -> forall l, P l.
Proof.
  intros H0 H1 H2 H3 l. remember (length l) as n eqn:Hn. revert l Hn.
  induction n as [n IH] using lt_wf_ind. intros [|x [|y [|z l]]] ->; [done..|].
  apply H3. eapply IH; [|done]. simpl. lia.
Qed.

Definition no_dollar (s : string) : bool := forall_bytes (fun c => negb (Ascii.eqb c dollar)) s.
Definition no_newline (s : string) : bool :=
  forall_bytes (fun c => negb ((byte_val c =? 10)%N || (byte_val c =? 13)%N)) s.

Lemma drop_newlines_id s : no_newline s = true -> drop_newlines s = s.
Proof.
  unfold no_newline. induction s as [|c s IH]; [done|]. cbn [forall_bytes drop_newlines].
  intros [Hc Hs]%andb_true_iff. apply negb_true_iff in Hc. by rewrite Hc, IH.
Qed.

Lemma base64_chars l : Forall (fun b => b < 256)%N l ->
  base64_groups (base64_encode l) = Some l
  /\ no_dollar (base64_encode l) = true /\ no_newline (base64_encode l) = true.
Proof.
  unfold no_dollar, no_newline. induction l as [|x|x y|x y z l IH] using list_ind3; intros Hl.
  - done.
  - apply Forall_cons in Hl as [Hx _]. destruct (sextets_of x 0 0 Hx) as ((H1 & H2 & _) & E1 & _); [done..|].
    rewrite N.add_0_r in H2, E1. change (0 / 16)%N with 0%N in *. rewrite ?N.add_0_r in H2, E1.
    destruct (base64_char_ok _ H1) as (S1 & D1 & L1), (base64_char_ok _ H2) as (S2 & D2 & L2).
    cbn [base64_encode base64_groups forall_bytes]. rewrite S1, S2, D1, D2, L1, L2.
    change (sextet "=") with (@None N). cbn. rewrite E1. done.
  - apply Forall_cons in Hl as [Hx [Hy _]%Forall_cons].
    destruct (sextets_of x y 0 Hx Hy) as ((H1 & H2 & H3 & _) & E1 & E2 & _); [done|].
    change (0 / 64)%N with 0%N in *. rewrite N.add_0_r in H3, E2.
    destruct (base64_char_ok _ H1) as (S1 & D1 & L1), (base64_char_ok _ H2) as (S2 & D2 & L2),
      (base64_char_ok _ H3) as (S3 & D3 & L3).
    cbn [base64_encode base64_groups forall_bytes].
    rewrite S1, S2, S3, D1, D2, D3, L1, L2, L3.
    change (sextet "=") with (@None N). cbn. rewrite E1, E2. done.
  - rewrite !Forall_cons in Hl. destruct Hl as (Hx & Hy & Hz & Hl).
    destruct (sextets_of x y z Hx Hy Hz) as ((H1 & H2 & H3 & H4) & E1 & E2 & E3).
    destruct (base64_char_ok _ H1) as (S1 & D1 & L1), (base64_char_ok _ H2) as (S2 & D2 & L2),
      (base64_char_ok _ H3) as (S3 & D3 & L3), (base64_char_ok _ H4) as (S4 & D4 & L4).
    destruct (IH Hl) as (Hg & Hd & Hn).
    cbn [base64_encode base64_groups forall_bytes].
    rewrite S1, S2, S3, S4, D1, D2, D3, D4, L1, L2, L3, L4, Hg, Hd, Hn. cbn.
    by rewrite E1, E2, E3.
Qed.

Lemma base64_round_trip l : Forall (fun b => b < 256)%N l -> base64_decode (base64_encode l) = Some l.
Proof.
  intros H. destruct (base64_chars l H) as (Hg & _ & Hn). unfold base64_decode.
  by rewrite drop_newlines_id.
Qed.

Lemma split_byte_last s : no_dollar s = true -> split_byte dollar s = [s].
Proof.
  unfold no_dollar. induction s as [|c s IH]; [done|]. cbn [forall_bytes split_byte].
  intros [Hc Hs]%andb_true_iff. apply negb_true_iff in Hc. by rewrite Hc, IH.
Qed.

Lemma split_byte_app s t : no_dollar s = true ->
  split_byte dollar (s +:+ String dollar t) = s :: split_byte dollar t.
Proof.
  unfold no_dollar. induction s as [|c s IH].
  - intros _. change ("" +:+ String dollar t) with (String dollar t). cbn [split_byte].
    by rewrite Ascii.eqb_refl.
  - cbn [forall_bytes]. intros [Hc Hs]%andb_true_iff. apply negb_true_iff in Hc.
    rewrite app_cons. cbn [split_byte]. by rewrite Hc, IH.
Qed.

Lemma FormatInt_positive n : (1 <= n)%Z ->
  exists c t, FormatInt n = String c t /\ is_digit c = true
    /\ forall_bytes is_digit (FormatInt n) = true /\ parse_digits (FormatInt n) = Some n.
Proof.
  intros Hn. rewrite FormatInt_eq. destruct n as [|p|p]; [lia| |lia].
  assert ((match Z.pos p with Zneg q => String "-" (pretty (Npos q)) | _ => pretty (Z.to_N (Z.pos p)) end
           : string) = pretty (Npos p)) as -> by done.
  destruct (pretty_N_first (Npos p)) as (c & t & E & Hc). exists c, t.
  split_and!; [done..| |apply parse_digits_pretty]. by destruct (pretty_N_text (Npos p)) as (H & _).
Qed.

Lemma Atoi_FormatInt n : (1 <= n < 2 ^ 63)%Z -> Atoi (FormatInt n) = Some n.
Proof.
  intros Hn. destruct (FormatInt_positive n) as (c & t & E & Hc & _ & Hp); [lia|].
  unfold Atoi. rewrite E. unfold is_digit, in_range in Hc.
  destruct (byte_val c =? 45)%N eqn:E45; [to_prop; lia|].
  destruct (byte_val c =? 43)%N eqn:E43; [to_prop; lia|].
  rewrite <- E, Hp. destruct (_ <=? _)%Z eqn:H1; [|to_prop; lia].
  destruct (_ <? _)%Z eqn:H2; [done|to_prop; lia].
Qed.

Section VerifierFacts.
Context `{KDF : !Pbkdf2} `{LAWS : !Pbkdf2Laws}.

Lemma Validate_Make secret salt iterations :
  (1 <= iterations < 2 ^ 63)%Z -> salt <> "" -> no_dollar salt = true ->
  ValidateDjangoPBKDF2SHA256 (MakeDjangoPBKDF2SHA256Bytes secret salt iterations)
  = Ok (iterations, salt, pbkdf2_key secret (bytes_of salt) iterations 32).
Proof.
  intros Hi Hs Hd. unfold ValidateDjangoPBKDF2SHA256, MakeDjangoPBKDF2SHA256Bytes.
  set (dk := pbkdf2_key _ _ _ _).
  destruct (base64_chars dk (pbkdf2_bytes _ _ _ _)) as (_ & Hdk & _).
  change ("pbkdf2_sha256$" +:+ ?x) with ("pbkdf2_sha256" +:+ String dollar x).
  rewrite split_byte_app by done.
  destruct (FormatInt_positive iterations) as (_ & _ & _ & _ & Hdig & _); [lia|].
  rewrite split_byte_app.
  2: { revert Hdig. apply byte_class_incl. by vm_compute. }
  rewrite split_byte_app, split_byte_last by done. rewrite eqs_refl. cbn [negb].
  rewrite Atoi_FormatInt by done.
  destruct (iterations <? 1)%Z eqn:E1; [to_prop; lia|].
  apply eqs_false in Hs as ->. rewrite base64_round_trip by apply pbkdf2_bytes.
  unfold dk. by rewrite pbkdf2_length.
Qed.

(** What a made verifier accepts: the secrets with its key. *)
Lemma Verify_Make secret salt iterations other :
  (1 <= iterations < 2 ^ 63)%Z -> salt <> "" -> no_dollar salt = true ->
  VerifyDjangoPBKDF2SHA256 (MakeDjangoPBKDF2SHA256 secret salt iterations) other = Ok tt
  <-> pbkdf2_key (bytes_of other) (bytes_of salt) iterations 32
      = pbkdf2_key (bytes_of secret) (bytes_of salt) iterations 32.
Proof.
  intros Hi Hs Hd. unfold VerifyDjangoPBKDF2SHA256, MakeDjangoPBKDF2SHA256.
  rewrite Validate_Make by done. cbn [rbind]. rewrite pbkdf2_length. case_bool_decide; by split.
Qed.

(** A verifier accepts exactly the secrets with the key it was made from.
    What [MakeDjangoPBKDF2SHA256] writes is valid, is read back as its salt,
    iterations and digest, accepts its own secret, and accepts another secret
    only if PBKDF2 gives both the same key. *)
Theorem verifier_round_trip secret salt iterations other :
  (1 <= iterations < 2 ^ 63)%Z -> salt <> "" -> no_dollar salt = true ->
  let encoded := MakeDjangoPBKDF2SHA256 secret salt iterations in
  let key s := pbkdf2_key (bytes_of s) (bytes_of salt) iterations 32 in
  ValidateDjangoPBKDF2SHA256 encoded = Ok (iterations, salt, key secret)
  /\ VerifyDjangoPBKDF2SHA256 encoded secret = Ok tt
  /\ (VerifyDjangoPBKDF2SHA256 encoded other = Ok tt <-> key other = key secret).
Proof.
  intros Hi Hs Hd encoded key. split_and!; [by apply Validate_Make|by apply Verify_Make|by apply Verify_Make].
Qed.
End VerifierFacts.
