(* ===== verification/Lookup.v ===== *)
(** * Lookups of the mail daemons (internal/daemon/daemon.go)

    Postfix asks for domains, recipients, senders and rate limits, Dovecot
    authenticates and locates mailboxes, Rspamd asks for keys.  The answers
    come from the maps of the service.  Go ranges over a map in an
    unspecified order: [range k] is the order of the [k]-th range statement
    of an operation. *)

From stdpp Require Import base list gmap sets strings.
From Stdlib Require Import ZArith Lia Ascii.
From S2P Require Import Prelude GoStd Json JsonText JsonStruct Sha256 Policy Queue AuditLog Database QueueStore Postfix Http Daemon Relay Verifier.

Class MapOrder := { range : nat -> forall {A}, gmap string A -> list (string * A) }.
Class MapOrderLaws `{ORDER : !MapOrder} : Prop := {
  range_perm : forall k A (m : gmap string A), range k m ≡ₚ map_to_list m;
}.

Definition MaxAppPasswordVerifiers : nat := 8.

Record SenderLoginRequest := { sl_sasl_username : string; sl_mail_from : string; sl_client_ip : string }.
Record PassdbRequest := { pd_username : string; pd_secret : string; pd_protocol : string }.
Record QuotaRequest := { qt_address : string; qt_quota_bytes : Z }.

#[export] Instance domain_eta : Eta Domain := fun d =>
  {| do_name := do_name d; do_enabled := do_enabled d; do_transport := do_transport d;
     do_dkim_selector := do_dkim_selector d;
     do_dkim_private_key_path := do_dkim_private_key_path d |}.
#[export] Instance mailbox_eta : Eta Mailbox := fun m =>
  {| ml_address := ml_address m; ml_enabled := ml_enabled m; ml_home := ml_home m;
     ml_uid := ml_uid m; ml_gid := ml_gid m; ml_quota_bytes := ml_quota_bytes m;
     ml_verifier := ml_verifier m; ml_default_sieve := ml_default_sieve m |}.
#[export] Instance alias_eta : Eta Alias := fun a =>
  {| as_address := as_address a; as_enabled := as_enabled a; as_targets := as_targets a |}.

Section Lookup.
Context `{HOST : !Host} `{MAIL : !MailParser} `{ORDER : !MapOrder} `{KDF : !Pbkdf2}.

(** ** Names *)

Definition normalizeDomain (v : string) : string := ToLower (TrimSpace v).

Definition normalizeAddress (v : string) : string :=
  match ParseAddress (TrimSpace v) with
  | Some address => ToLower address
  | None => ToLower (TrimSpace v)
  end.

(** ** Projections of the maps *)

(** A copy keyed by the normal form of each entry's own name, or of its key:
    the last entry of the range wins. *)
Definition project {A} (k : nat) (name : A -> string) (rename : string -> A -> A)
    (normalize : string -> string) (m : gmap string A) : gmap string A :=
  foldl (fun out p =>
    let v := if name p.2 =?s "" then rename p.1 p.2 else p.2 in
    <[normalize (name v) := v]> out) ∅ (range k m).

Variable s : Service.

Definition domains (k : nat) : gmap string Domain :=
  project k do_name (put do_name) normalizeDomain (sv_domains s).
Definition mailboxes (k : nat) : gmap string Mailbox :=
  project k ml_address (put ml_address) normalizeAddress (sv_mailboxes s).
Definition aliases (k : nat) : gmap string Alias :=
  project k as_address (put as_address) normalizeAddress (sv_aliases s).
Definition rateLimits (k : nat) : gmap string RateLimit :=
  foldl (fun out p => <[normalizeAddress p.1 := p.2]> out) ∅ (range k (sv_rate_limits s)).

(** The mailbox and the verifiers of an address: its entry, or the first of
    the range whose key has that normal form. *)
Definition by_address {A} (k : nat) (address : string) (m : gmap string A) : option A :=
  snd <$> List.find (fun p => normalizeAddress p.1 =?s address) (range k m).

Definition mailboxAuth (address0 : string) : option (Mailbox * list string) :=
  let address := normalizeAddress address0 in
  match match sv_mailboxes s !! address with
        | Some mailbox => Some mailbox
        | None => by_address 0 address (sv_mailboxes s)
        end with
  | None => None
  | Some mailbox =>
      let verifiers := match sv_verifiers s !! address with
                       | Some (Some l) => Some l
                       | _ => default None (by_address 1 address (sv_verifiers s))
                       end in
      Some (mailbox, default [] verifiers)
  end.

Context {PS : Type}.
Implicit Types (w : World PS) (cid : string).

Definition unavailable_or (cid : string) (answer : Answer (PS := PS)) : Answer (PS := PS) :=
  if sv_unavailable s then resp cid DecisionDefer "database_unavailable" else answer.

(** ** Postfix *)

Definition PostfixDomain (cid domain : string) : Answer (PS := PS) := unavailable_or cid (
  match domains 0 !! normalizeDomain domain with
  | None => resp cid NotFound "domain_not_found"
  | Some d => if negb (do_enabled d) then resp cid DecisionReject "domain_disabled"
              else resp cid DecisionOK "domain_accepted"
  end).

Definition PostfixMailbox (cid address : string) : Answer (PS := PS) := unavailable_or cid (
  match mailboxes 1 !! normalizeAddress address with
  | None => resp cid NotFound "mailbox_not_found"
  | Some m => if negb (ml_enabled m) then resp cid DecisionReject "mailbox_disabled"
              else resp cid DecisionOK "mailbox_accepted"
  end).

(** [append([]string(nil), targets...)] *)
Definition copy_slice {A} (l : list A) : GoSlice A := {| sl_array := l; sl_len := length l |}.

Definition PostfixAlias (cid address : string) : Answer (PS := PS) := unavailable_or cid (
  match aliases 1 !! normalizeAddress address with
  | None => resp cid NotFound "alias_not_found"
  | Some a => if negb (as_enabled a) then resp cid DecisionReject "alias_disabled"
              else resp_with cid DecisionOK "alias_expanded" (put rp_targets (copy_slice (as_targets a)))
  end).

Definition PostfixRecipient (cid address : string) : Answer (PS := PS) := unavailable_or cid (
  let addr := normalizeAddress address in
  match mailboxes 0 !! addr with
  | Some _ => PostfixMailbox cid addr
  | None =>
      match aliases 0 !! addr with
      | Some _ => PostfixAlias cid addr
      | None => resp cid NotFound "recipient_not_found"
      end
  end).

Definition PostfixSenderLogin (cid : string) (req : SenderLoginRequest) : Answer (PS := PS) :=
  unavailable_or cid (
    if (normalizeAddress (sl_sasl_username req) =?s "") || (normalizeAddress (sl_mail_from req) =?s "")
    then resp cid DecisionError "malformed_sender_login"
    else if normalizeAddress (sl_sasl_username req) <>?s normalizeAddress (sl_mail_from req)
    then resp cid DecisionReject "sender_login_mismatch"
    else PostfixMailbox cid (sl_sasl_username req)).

Definition PostfixSenderPolicy (cid : string) (req : SenderLoginRequest) : Answer (PS := PS) :=
  unavailable_or cid (
    if normalizeAddress (sl_mail_from req) =?s "" then resp cid DecisionError "malformed_sender_policy"
    else PostfixMailbox cid (sl_mail_from req)).

Definition PostfixRateLimit (cid sender : string) : Answer (PS := PS) := unavailable_or cid (
  match rateLimits 0 !! normalizeAddress sender with
  | Some r =>
      if rt_allowed r then resp_with cid DecisionOK "rate_limit_allowed" (put rp_allowed true)
      else resp_with cid DecisionReject "rate_limit_exceeded" (put rp_retry_after_sec (rt_retry_after_sec r))
  | None => resp_with cid DecisionOK "rate_limit_allowed" (put rp_allowed true)
  end).

(** A missing entry is the zero [Domain]. *)
Definition PostfixTransport (cid domain : string) : Answer (PS := PS) := fun w =>
  let (r, w') := PostfixDomain cid domain w in
  if rp_decision r <>?s DecisionOK then (r, w') else
  let transport := match domains 1 !! normalizeDomain domain with
                   | Some d => do_transport d
                   | None => ""
                   end in
  (put rp_transport (if transport =?s "" then "virtual:" else transport) r, w').

(** ** Dovecot *)

Definition passdbAuditAction (method : string) : string :=
  if method =?s "mailbox_password" then "mailbox_password.use"
  else if method =?s "app_password" then "app_password.use"
  else "mail_secret.use".

Definition passdb_event (cid : string) (req : PassdbRequest) (method result code : string) : Event :=
  {| ev_id := ""; ev_time := 0;
     ev_actor := {| actor_type := "dovecot"; actor_id := pd_protocol req |};
     ev_source := None; ev_action := passdbAuditAction method;
     ev_resource := {| resource_type := "mailbox"; resource_id := normalizeAddress (pd_username req) |};
     ev_before := JNull;
     ev_after := JObj [("method", JStr method); ("protocol", JStr (pd_protocol req))];
     ev_correlation_id := cid; ev_result := result; ev_error_code := code |}.

(** [s.auditPassdb(...)]: whether it returned without an error. *)
Definition auditPassdb (cid : string) (req : PassdbRequest) (method result code : string) w
    : bool * World PS :=
  if negb (sv_audit s) then (true, w) else
  let (c, w1) := correlation cid w in
  let (r, w2) := WriteSQL (passdb_event c req method result code) w1 in
  (is_ok r, w2).

(** [strings.Count(s, ".")] *)
Fixpoint count_byte (b : ascii) (x : string) : nat :=
  match x with
  | "" => 0
  | String c x => (if Ascii.eqb c b then 1 else 0) + count_byte b x
  end.

Definition oidc_secret (secret : string) : bool :=
  HasPrefix secret "oidc:" || ((count_byte "." secret =? 2) && HasPrefix secret "eyJ").

Definition audited_success (cid : string) (req : PassdbRequest) (method : string) : Answer (PS := PS) :=
  fun w =>
  let (ok, w') := auditPassdb cid req method "success" "" w in
  if ok then resp cid DecisionOK "passdb_authenticated" w'
  else resp cid DecisionDefer "audit_unavailable" w'.

Definition audited_failure (cid : string) (req : PassdbRequest) (d code : string) : Answer (PS := PS) :=
  fun w => resp cid d code (auditPassdb cid req "mail_secret" "failure" code w).2.

Definition DovecotPassdb (cid : string) (req : PassdbRequest) : Answer (PS := PS) := unavailable_or cid (
  if (pd_protocol req <>?s "imap") && (pd_protocol req <>?s "submission")
  then resp cid DecisionError "unsupported_protocol" else
  match mailboxAuth (normalizeAddress (pd_username req)) with
  | None => resp cid NotFound "mailbox_not_found"
  | Some (m, appVerifiers) =>
      if negb (ml_enabled m) then resp cid DecisionReject "mailbox_disabled" else
      if oidc_secret (pd_secret req) then resp cid DecisionReject "oidc_token_not_mail_secret" else
      if is_ok (VerifyDjangoPBKDF2SHA256 (ml_verifier m) (pd_secret req))
      then audited_success cid req "mailbox_password" else
      if MaxAppPasswordVerifiers <? length appVerifiers
      then audited_failure cid req DecisionError "app_password_verifier_limit_exceeded" else
      if existsb (fun v => is_ok (VerifyDjangoPBKDF2SHA256 v (pd_secret req))) appVerifiers
      then audited_success cid req "app_password"
      else audited_failure cid req DecisionReject "invalid_secret"
  end).

Definition DovecotUserdb (cid address : string) : Answer (PS := PS) :=
  let found := mailboxes 0 !! normalizeAddress address in
  unavailable_or cid (
    match found with
    | None => resp cid NotFound "mailbox_not_found"
    | Some m =>
        if negb (ml_enabled m) then resp cid DecisionReject "mailbox_disabled"
        else resp_with cid DecisionOK "userdb_found" (fun r =>
          put rp_quota_bytes (ml_quota_bytes m) (put rp_gid (ml_gid m)
            (put rp_uid (ml_uid m) (put rp_home (ml_home m) r))))
    end).

Definition DovecotQuota (cid : string) (req : QuotaRequest) : Answer (PS := PS) := unavailable_or cid (
  if (qt_quota_bytes req <? 0)%Z then resp cid DecisionError "invalid_quota" else
  match mailboxes 0 !! normalizeAddress (qt_address req) with
  | None => resp cid NotFound "mailbox_not_found"
  | Some m =>
      if negb (ml_enabled m) then resp cid DecisionReject "mailbox_disabled"
      else resp_with cid DecisionOK "quota_updated" (put rp_quota_bytes (qt_quota_bytes req))
  end).

Definition DovecotSieve (cid address : string) : Answer (PS := PS) := fun w =>
  let (r, w') := DovecotUserdb cid address w in
  if rp_decision r <>?s DecisionOK then (r, w')
  else resp cid DecisionOK "sieve_default_available" w'.

(** ** Rspamd *)

(** The names of the enabled domains, in the order of a second range. *)
Definition RspamdLocalDomains (cid : string) : Answer (PS := PS) := unavailable_or cid (
  resp_with cid DecisionOK "local_domains_listed" (fun r =>
    put rp_domains (copy_slice (map fst
      (List.filter (fun p => do_enabled p.2) (range 1 (domains 0))))) r)).

Definition RspamdDKIM (cid domain : string) : Answer (PS := PS) := unavailable_or cid (
  match domains 0 !! normalizeDomain domain with
  | None => resp cid NotFound "domain_not_found"
  | Some d =>
      if negb (do_enabled d) then resp cid DecisionReject "domain_disabled" else
      if (do_dkim_selector d =?s "") || (do_dkim_private_key_path d =?s "")
      then resp cid NotFound "dkim_not_configured"
      else resp_with cid DecisionOK "dkim_key_available" (fun r =>
        put rp_key_path (do_dkim_private_key_path d) (put rp_selector (do_dkim_selector d) r))
  end).

Definition RspamdSigningDecision (cid domain : string) : Answer (PS := PS) := fun w =>
  let (r, w') := RspamdDKIM cid domain w in
  (if rp_decision r =?s DecisionOK then put rp_reason "signing_allowed" r else r, w').

Definition RspamdRateSignal (cid sender : string) : Answer (PS := PS) := PostfixRateLimit cid sender.
End Lookup.

(** ** Updates of the identity projection *)

Section Projection.
Context `{HOST : !Host} `{MAIL : !MailParser}.

(** [address[strings.LastIndex(address, "@")+1:]] *)
Definition after_at (address : string) : string :=
  match SplitLastByte "@" address with
  | Some (_, domain) => domain
  | None => address
  end.

Definition UpsertIdentityMailbox (mailbox : Mailbox) (s : Service) : Service :=
  let address := normalizeAddress (ml_address mailbox) in
  let domain := after_at address in
  let s1 := put sv_mailboxes (<[address := put ml_address address mailbox]> (sv_mailboxes s)) s in
  match sv_domains s1 !! domain with
  | Some _ => s1
  | None => put sv_domains (<[domain := {| do_name := domain; do_enabled := true; do_transport := "";
                                            do_dkim_selector := ""; do_dkim_private_key_path := "" |}]>
                            (sv_domains s1)) s1
  end.

Definition DeleteIdentityMailbox (address0 : string) (s : Service) : Service :=
  let address := normalizeAddress address0 in
  put sv_verifiers (delete address (sv_verifiers s))
    (put sv_mailboxes (delete address (sv_mailboxes s)) s).

(** [append([]string(nil), verifiers...)] is nil for no verifiers. *)
Definition SetAppPasswordVerifiers (address : string) (verifiers : list string) (s : Service) : Service :=
  put sv_verifiers (<[normalizeAddress address :=
    if length verifiers =? 0 then None else Some verifiers]> (sv_verifiers s)) s.
End Projection.

(** ** Authentication *)

Section Authentication.
Context `{HOST : !Host} `{MAIL : !MailParser} `{ORDER : !MapOrder} `{KDF : !Pbkdf2}.
Context {PS : Type}.
Implicit Types (w : World PS) (s : Service).

Lemma correlation_db cid w : w_db (correlation cid w).2 = w_db w.
Proof.
  unfold correlation. destruct (_ <>?s _); [done|].
  destruct (entropyM w) as [[[b|]|e] w1] eqn:E; unfold entropyM in E;
    by destruct (w_entropy w); simplify_eq.
Qed.

Lemma resp_db cid d reason w :
  rp_decision (resp cid d reason w).1 = d /\ rp_reason (resp cid d reason w).1 = reason
  /\ w_db (resp cid d reason w).2 = w_db w.
Proof.
  unfold resp. pose proof (correlation_db cid w) as H.
  destruct (correlation cid w) as [c w1]. by split_and!.
Qed.

(** An audit row of a secret check. *)
Definition passdb_row (req : PassdbRequest) (method result : string) (ev : Event) : Prop :=
  ev_action ev = passdbAuditAction method /\ ev_result ev = result
  /\ ev_actor ev = {| actor_type := "dovecot"; actor_id := pd_protocol req |}
  /\ ev_resource ev
     = {| resource_type := "mailbox"; resource_id := normalizeAddress (pd_username req) |}.

Lemma auditPassdb_ok s cid req method result code w w' :
  auditPassdb s cid req method result code w = (true, w') ->
  if sv_audit s
  then exists ev, w_db w' = with_audit (fun l => l ++ [ev]) (w_db w)
         /\ passdb_row req method result ev
  else w' = w.
Proof.
  unfold auditPassdb. destruct (sv_audit s); cbn [negb]; [|by intros [= <-]].
  pose proof (correlation_db cid w) as D. destruct (correlation cid w) as [c w1]. cbn [snd] in D.
  destruct (WriteSQL _ w1) as [[u|e] w2] eqn:E; [|done]. intros [= <-].
  apply WriteSQL_ok in E as (ev & Hd & _ & Ha & Hres & Hact & _ & Hr & _).
  exists ev. rewrite D in Hd. by split.
Qed.

(** A secret that authenticates a mailbox, and the method audited for it. *)
Definition authenticates (m : Mailbox) (verifiers : list string) (secret method : string) : Prop :=
  method = "mailbox_password" /\ VerifyDjangoPBKDF2SHA256 (ml_verifier m) secret = Ok tt
  \/ method = "app_password" /\ length verifiers <= MaxAppPasswordVerifiers
     /\ exists v, v ∈ verifiers /\ VerifyDjangoPBKDF2SHA256 v secret = Ok tt.

Lemma verify_ok v secret : is_ok (VerifyDjangoPBKDF2SHA256 v secret) = true ->
  VerifyDjangoPBKDF2SHA256 v secret = Ok tt.
Proof. by destruct (VerifyDjangoPBKDF2SHA256 v secret) as [[]|]. Qed.

Lemma audited_success_ok s cid req method w r w' :
  audited_success s cid req method w = (r, w') -> rp_decision r = DecisionOK ->
  if sv_audit s
  then exists ev, w_db w' = with_audit (fun l => l ++ [ev]) (w_db w)
         /\ passdb_row req method "success" ev
  else w_db w' = w_db w.
Proof.
  unfold audited_success. destruct (auditPassdb s cid req method "success" "" w) as [[] w1] eqn:Ea;
    intros H Hd.
  - destruct (resp_db cid DecisionOK "passdb_authenticated" w1) as (_ & _ & D).
    rewrite H in D. cbn [snd] in D. apply auditPassdb_ok in Ea.
    destruct (sv_audit s); [rewrite D; exact Ea|by subst].
  - destruct (resp_db cid DecisionDefer "audit_unavailable" w1) as (D & _).
    rewrite H in D. cbn [fst] in D. by rewrite D in Hd.
Qed.

Lemma resp_not_ok cid d reason w r w' :
  resp cid d reason w = (r, w') -> rp_decision r = DecisionOK -> d = DecisionOK.
Proof.
  intros H Hd. destruct (resp_db cid d reason w) as (D & _). rewrite H in D. cbn [fst] in D. congruence.
Qed.

Lemma passdb_sound s cid req w r w' :
  DovecotPassdb s cid req w = (r, w') -> rp_decision r = DecisionOK ->
  sv_unavailable s = false /\ pd_protocol req ∈ ["imap"; "submission"]
  /\ oidc_secret (pd_secret req) = false
  /\ exists m verifiers method, mailboxAuth s (normalizeAddress (pd_username req)) = Some (m, verifiers)
       /\ ml_enabled m = true /\ authenticates m verifiers (pd_secret req) method
       /\ if sv_audit s
          then exists ev, w_db w' = with_audit (fun l => l ++ [ev]) (w_db w)
                 /\ passdb_row req method "success" ev
          else w_db w' = w_db w.
Proof.
  unfold DovecotPassdb, unavailable_or. intros H Hd.
  destruct (sv_unavailable s); [by eapply resp_not_ok in H|]. split; [done|].
  destruct (_ && _) eqn:Ep; [by eapply resp_not_ok in H|].
  assert (pd_protocol req ∈ ["imap"; "submission"]) as Hp.
  { rewrite !elem_of_cons. to_prop. destruct Ep; auto. }
  destruct (mailboxAuth s _) as [[m vs]|] eqn:Em; [|by eapply resp_not_ok in H].
  destruct (ml_enabled m) eqn:Een; [|by eapply resp_not_ok in H]. cbn [negb] in H.
  destruct (oidc_secret _) eqn:Eo; [by eapply resp_not_ok in H|].
  split_and!; [done..|].
  destruct (is_ok (VerifyDjangoPBKDF2SHA256 (ml_verifier m) _)) eqn:Ev.
  { exists m, vs, "mailbox_password". split_and!; [done..| |by eapply audited_success_ok].
    left. split; [done|]. by apply verify_ok. }
  destruct (_ <? length vs) eqn:El; [by eapply resp_not_ok in H|].
  destruct (existsb _ vs) eqn:Ex; [|by eapply resp_not_ok in H].
  exists m, vs, "app_password". split_and!; [done..| |by eapply audited_success_ok].
  right. apply existsb_exists in Ex as (v & Hv%list_elem_of_In & Hok).
  split_and!; [done|to_prop; lia|]. exists v. split; [done|]. by apply verify_ok.
Qed.

(** C13: Dovecot is told that a secret is right only for an enabled mailbox of
    a reachable directory, over a mail protocol, with a secret that is not an
    OIDC token and that the mailbox's verifier or one of at most eight
    application passwords accepts; and when auditing is configured, only
    after that success is committed as one audit row naming the method. *)
Theorem DovecotPassdb_sound s cid req w r w' :
  DovecotPassdb s cid req w = (r, w') -> rp_decision r = DecisionOK ->
  sv_unavailable s = false /\ pd_protocol req ∈ ["imap"; "submission"]
  /\ oidc_secret (pd_secret req) = false
  /\ exists m verifiers method, mailboxAuth s (normalizeAddress (pd_username req)) = Some (m, verifiers)
       /\ ml_enabled m = true /\ authenticates m verifiers (pd_secret req) method
       /\ if sv_audit s
          then exists ev, w_db w' = with_audit (fun l => l ++ [ev]) (w_db w)
                 /\ passdb_row req method "success" ev
          else w_db w' = w_db w.
Proof. apply passdb_sound. Qed.
End Authentication.

(** ** Maps with distinct names *)

(** A map built by insertion is the relation of its entries when their keys
    are distinct. *)
Lemma fold_insert_spec {A B} (f : B -> string) (g : B -> A) l :
  forall (acc : gmap string A) n x,
  NoDup (map f l) ->
  foldl (fun out p => <[f p := g p]> out) acc l !! n = Some x <->
  (exists p, p ∈ l /\ f p = n /\ g p = x) \/ (~ n ∈ map f l) /\ acc !! n = Some x.
Proof.
  induction l as [|p l IH]; intros acc n x Hn; cbn [foldl map].
  { split; [intros H; right; split; [apply not_elem_of_nil|done]|].
    by intros [(p & ?%not_elem_of_nil & _)|[_ H]]. }
  apply NoDup_cons in Hn as [Hp Hn]. rewrite IH by done. rewrite not_elem_of_cons.
  destruct (decide (f p = n)) as [<-|Hne].
  - rewrite lookup_insert_eq. split.
    + intros [(q & Hq & ? & ?)|[_ [= <-]]]; [left; exists q; by split; [right|]|].
      left. exists p. by split; [left|].
    + intros [(q & [->|Hq]%elem_of_cons & E & <-)|[[] _]]; [by right|by left; exists q|done].
  - rewrite lookup_insert_ne by done. split.
    + intros [(q & Hq & ? & ?)|[? ?]]; [left; exists q; by split; [right|]|].
      right. by split_and!.
    + intros [(q & [->|Hq]%elem_of_cons & E & <-)|[[? ?] ?]]; [done|by left; exists q|by right].
Qed.

Lemma fold_insert_perm {A B} (f : B -> string) (g : B -> A) l1 l2 :
  l1 ≡ₚ l2 -> NoDup (map f l1) ->
  foldl (fun out p => <[f p := g p]> out) (∅ : gmap string A) l1
  = foldl (fun out p => <[f p := g p]> out) ∅ l2.
Proof.
  intros Hp H1. assert (NoDup (map f l2)) as H2 by (by rewrite <- Hp).
  apply map_eq. intros n. apply option_eq. intros x. rewrite !fold_insert_spec by done.
  by setoid_rewrite Hp.
Qed.

(** At most one entry passes a test: the first found is that one. *)
Lemma find_perm {B} (p : B -> bool) l1 l2 :
  l1 ≡ₚ l2 -> (forall x y, x ∈ l1 -> y ∈ l1 -> p x = true -> p y = true -> x = y) ->
  List.find p l1 = List.find p l2.
Proof.
  intros Hp Hu. destruct (List.find p l1) as [x|] eqn:E1, (List.find p l2) as [y|] eqn:E2; [| | |done].
  - apply find_some in E1 as [H1 P1], E2 as [H2 P2]. f_equal. apply Hu; [by apply list_elem_of_In| |done..].
    rewrite Hp. by apply list_elem_of_In.
  - exfalso. apply find_some in E1 as [H1 P1]. eapply find_none in E2; [by rewrite P1 in E2|].
    apply list_elem_of_In. rewrite <- Hp. by apply list_elem_of_In.
  - exfalso. apply find_some in E2 as [H2 P2]. eapply find_none in E1; [by rewrite P2 in E1|].
    apply list_elem_of_In. rewrite Hp. by apply list_elem_of_In.
Qed.

Section Names.
Context `{HOST : !Host} `{MAIL : !MailParser}.
Implicit Types s : Service.

(** The name an entry is found under. *)
Definition found_under {A} (name : A -> string) (normalize : string -> string) (p : string * A) : string :=
  normalize (if name p.2 =?s "" then p.1 else name p.2).

(** Maps in which no two entries are found under one name. *)
Record well_named s : Prop := {
  wn_domains : NoDup (map (found_under do_name normalizeDomain) (map_to_list (sv_domains s)));
  wn_mailboxes : NoDup (map (found_under ml_address normalizeAddress) (map_to_list (sv_mailboxes s)));
  wn_aliases : NoDup (map (found_under as_address normalizeAddress) (map_to_list (sv_aliases s)));
  wn_rates : NoDup (map (fun p => normalizeAddress p.1) (map_to_list (sv_rate_limits s)));
  wn_mailbox_keys : NoDup (map (fun p => normalizeAddress p.1) (map_to_list (sv_mailboxes s)));
  wn_verifier_keys : NoDup (map (fun p => normalizeAddress p.1) (map_to_list (sv_verifiers s)));
}.

(** The entry as [project] stores it. *)
Definition named {A} (name : A -> string) (rename : string -> A -> A) (p : string * A) : A :=
  if name p.2 =?s "" then rename p.1 p.2 else p.2.

Lemma project_fold `{ORDER : !MapOrder} {A} k (name : A -> string) rename normalize m :
  (forall x v, name (rename x v) = x) ->
  project k name rename normalize m
  = foldl (fun out p => <[found_under name normalize p := named name rename p]> out) ∅ (range k m).
Proof.
  intros Hr. unfold project. generalize (∅ : gmap string A). induction (range k m) as [|p l IH]; [done|].
  intros acc. cbn [foldl]. rewrite <- IH. f_equal. f_equal. unfold found_under, named.
  destruct (name p.2 =?s "") eqn:E; [by rewrite Hr|done].
Qed.

Context (o1 o2 : MapOrder) {L1 : MapOrderLaws (ORDER := o1)} {L2 : MapOrderLaws (ORDER := o2)}.

Lemma ranges_perm k j {A} (m : gmap string A) : range (MapOrder := o1) k m ≡ₚ range (MapOrder := o2) j m.
Proof. by rewrite (range_perm (ORDER := o1)), (range_perm (ORDER := o2)). Qed.

Lemma project_order {A} k j (name : A -> string) rename normalize m :
  (forall x v, name (rename x v) = x) ->
  NoDup (map (found_under name normalize) (map_to_list m)) ->
  project (ORDER := o1) k name rename normalize m = project (ORDER := o2) j name rename normalize m.
Proof.
  intros Hr Hn. rewrite !project_fold by done. apply fold_insert_perm; [apply ranges_perm|].
  by rewrite (range_perm (ORDER := o1)).
Qed.

Lemma NoDup_map_inj {A B} (f : A -> B) l x y :
  NoDup (map f l) -> x ∈ l -> y ∈ l -> f x = f y -> x = y.
Proof.
  induction l as [|z l IH]; intros Hn Hx Hy E; [by apply not_elem_of_nil in Hx|].
  apply NoDup_cons in Hn as [Hz Hn].
  apply elem_of_cons in Hx as [->|Hx], Hy as [->|Hy]; [done| | |by apply IH].
  - exfalso. apply Hz. rewrite E. by apply list_elem_of_fmap_2.
  - exfalso. apply Hz. rewrite <- E. by apply list_elem_of_fmap_2.
Qed.

Lemma by_address_order {A} k j address (m : gmap string A) :
  NoDup (map (fun p => normalizeAddress p.1) (map_to_list m)) ->
  by_address (ORDER := o1) k address m = by_address (ORDER := o2) j address m.
Proof.
  intros Hn. unfold by_address. rewrite (find_perm _ _ (range (MapOrder := o2) j m)); [done|apply ranges_perm|].
  intros x y. rewrite (range_perm (ORDER := o1)). intros Hx Hy Px Py. to_prop.
  eapply (NoDup_map_inj _ _ _ _ Hn); [done..|]. cbn. congruence.
Qed.

Lemma projections_order s k j : well_named s ->
  domains (ORDER := o1) s k = domains (ORDER := o2) s j
  /\ mailboxes (ORDER := o1) s k = mailboxes (ORDER := o2) s j
  /\ aliases (ORDER := o1) s k = aliases (ORDER := o2) s j
  /\ rateLimits (ORDER := o1) s k = rateLimits (ORDER := o2) s j
  /\ forall a, mailboxAuth (ORDER := o1) s a = mailboxAuth (ORDER := o2) s a.
Proof.
  intros [H1 H2 H3 H4 H5 H6]. split_and!.
  1-3: by apply project_order.
  - unfold rateLimits. apply (fold_insert_perm (fun p => normalizeAddress p.1) snd); [apply ranges_perm|].
    by rewrite (range_perm (ORDER := o1)).
  - intros a. unfold mailboxAuth.
    by rewrite (by_address_order 0 0 _ _ H5), (by_address_order 1 1 _ _ H6).
Qed.
End Names.

Section OrderIndependence.
Context `{HOST : !Host} `{MAIL : !MailParser} `{KDF : !Pbkdf2} {PS : Type}.
Context (o1 o2 : MapOrder) {L1 : MapOrderLaws (ORDER := o1)} {L2 : MapOrderLaws (ORDER := o2)}.
Implicit Types (s : Service) (w : World PS).

(** The order in which Go ranges over the maps of the service is never
    visible in an answer about one name: when no two entries share a normal
    name, every lookup and every password check gives the same answer and the
    same world under any two orders. *)
Theorem lookup_order_independent s cid w : well_named s ->
  (forall x, PostfixRecipient (ORDER := o1) s cid x w = PostfixRecipient (ORDER := o2) s cid x w)
  /\ (forall x, PostfixTransport (ORDER := o1) s cid x w = PostfixTransport (ORDER := o2) s cid x w)
  /\ (forall q, PostfixSenderLogin (ORDER := o1) s cid q w = PostfixSenderLogin (ORDER := o2) s cid q w)
  /\ (forall x, PostfixRateLimit (ORDER := o1) s cid x w = PostfixRateLimit (ORDER := o2) s cid x w)
  /\ (forall q, DovecotPassdb (ORDER := o1) s cid q w = DovecotPassdb (ORDER := o2) s cid q w)
  /\ (forall x, DovecotUserdb (ORDER := o1) s cid x w = DovecotUserdb (ORDER := o2) s cid x w)
  /\ (forall x, RspamdDKIM (ORDER := o1) s cid x w = RspamdDKIM (ORDER := o2) s cid x w).
Proof.
  intros Hn. pose proof (fun k => projections_order o1 o2 s k k Hn) as H.
  destruct (H 0) as (D0 & M0 & A0 & R0 & P0), (H 1) as (D1 & M1 & A1 & R1 & _).
  assert (forall x, PostfixMailbox (ORDER := o1) s cid x w = PostfixMailbox (ORDER := o2) s cid x w) as Hm
    by (intros x; unfold PostfixMailbox; by rewrite M1).
  assert (forall x, PostfixAlias (ORDER := o1) s cid x w = PostfixAlias (ORDER := o2) s cid x w) as Ha
    by (intros x; unfold PostfixAlias; by rewrite A1).
  assert (forall x, PostfixDomain (ORDER := o1) s cid x w = PostfixDomain (ORDER := o2) s cid x w) as Hd
    by (intros x; unfold PostfixDomain; by rewrite D0).
  split_and!; intros x.
  - unfold PostfixRecipient, unavailable_or. rewrite M0, A0. destruct (sv_unavailable s); [done|].
    destruct (mailboxes s 0 !! _); [apply Hm|]. destruct (aliases s 0 !! _); [apply Ha|done].
  - unfold PostfixTransport. by rewrite Hd, D1.
  - unfold PostfixSenderLogin, unavailable_or. destruct (sv_unavailable s); [done|].
    destruct (_ || _); [done|]. destruct (_ <>?s _); [done|apply Hm].
  - unfold PostfixRateLimit. by rewrite R0.
  - unfold DovecotPassdb. by rewrite P0.
  - unfold DovecotUserdb. by rewrite M0.
  - unfold RspamdDKIM. by rewrite D0.
Qed.
End OrderIndependence.

(** ** The identity projection *)

Section IdentityProjection.
Context `{HOST : !Host} `{MAIL : !MailParser} `{ORDER : !MapOrder} {LAWS : MapOrderLaws}.
Implicit Types s : Service.

(** Every entry of a map has its own name as its key. *)
Definition keyed_by {A} (f : string * A -> string) (m : gmap string A) : Prop :=
  forall k v, m !! k = Some v -> f (k, v) = k.

(** The service maps as the identity projection keeps them. *)
Record canonical_service s : Prop := {
  cs_domains : keyed_by (found_under do_name normalizeDomain) (sv_domains s);
  cs_mailboxes : keyed_by (found_under ml_address normalizeAddress) (sv_mailboxes s);
  cs_mailbox_keys : keyed_by (fun p => normalizeAddress p.1) (sv_mailboxes s);
  cs_verifiers : keyed_by (fun p => normalizeAddress p.1) (sv_verifiers s);
}.

Lemma keyed_nodup {A} (f : string * A -> string) m : keyed_by f m -> NoDup (map f (map_to_list m)).
Proof.
  intros H. assert (map f (map_to_list m) = map fst (map_to_list m)) as ->.
  { apply map_ext_in. intros [k v] Hk%list_elem_of_In%elem_of_map_to_list. by apply H. }
  apply NoDup_fst_map_to_list.
Qed.

Lemma keyed_insert_new {A} (f : string * A -> string) (m : gmap string A) k v :
  keyed_by f m -> f (k, v) = k -> keyed_by f (<[k := v]> m).
Proof.
  intros H Hk j x. rewrite lookup_insert. case_decide as E; [intros [= <-]; by subst|apply H].
Qed.

Lemma keyed_delete {A} (f : string * A -> string) (m : gmap string A) k :
  keyed_by f m -> keyed_by f (delete k m).
Proof. intros H j x [_ Hj]%lookup_delete_Some. by apply H. Qed.

(** A canonical map is looked up by the key itself. *)
Lemma project_keyed {A} k (name : A -> string) rename normalize m n :
  (forall x v, name (rename x v) = x) -> keyed_by (found_under name normalize) m ->
  project k name rename normalize m !! n = (fun v => named name rename (n, v)) <$> m !! n.
Proof.
  intros Hr Hk. rewrite project_fold by done. apply option_eq. intros x.
  rewrite fold_insert_spec by (rewrite range_perm; by apply keyed_nodup).
  rewrite fmap_Some. setoid_rewrite range_perm. split.
  - intros [([j v] & Hj%elem_of_map_to_list & E & <-)|[_ H]]; [|by rewrite lookup_empty in H].
    rewrite (Hk j v Hj) in E. subst j. by exists v.
  - intros (v & Hv & ->). left. exists (n, v). rewrite elem_of_map_to_list. by rewrite Hk.
Qed.

(** An address the projection can keep: it and its domain are in normal
    form. *)
Record normal_address (a : string) : Prop := {
  na_address : normalizeAddress a = a;
  na_nonempty : a <> "";
  na_domain : normalizeDomain (after_at a) = after_at a;
  na_domain_nonempty : after_at a <> "";
}.

Lemma by_address_none {A} k a (m : gmap string A) :
  keyed_by (fun p => normalizeAddress p.1) m -> m !! a = None -> by_address k a m = None.
Proof.
  intros Hk Ha. unfold by_address. destruct (List.find _ _) as [[j v]|] eqn:E; [|done].
  apply find_some in E as [Hj He]. to_prop. cbn in He.
  apply list_elem_of_In in Hj. rewrite range_perm, elem_of_map_to_list in Hj.
  pose proof (Hk _ _ Hj) as Hkj. cbn in Hkj. congruence.
Qed.

Lemma mailboxAuth_canonical s a : canonical_service s -> normalizeAddress a = a ->
  mailboxAuth s a =
  (fun m => (m, default [] (default None (sv_verifiers s !! a)))) <$> sv_mailboxes s !! a.
Proof.
  intros [_ _ Hm Hv] Ha. unfold mailboxAuth. rewrite Ha.
  destruct (sv_mailboxes s !! a) as [m|] eqn:Em.
  - cbn. destruct (sv_verifiers s !! a) as [[l|]|] eqn:Ev; [done| |].
    + cbn. destruct (by_address 1 a (sv_verifiers s)) as [x|] eqn:E; [|done].
      unfold by_address in E. destruct (List.find _ _) as [[j v]|] eqn:Ef; [|done].
      injection E as <-. apply find_some in Ef as [Hj He]. to_prop. cbn in He.
      apply list_elem_of_In in Hj. rewrite range_perm, elem_of_map_to_list in Hj.
      pose proof (Hv _ _ Hj) as Hkj. cbn in Hkj. cbn.
      assert (v = None) as -> by congruence. done.
    + cbn. by rewrite by_address_none.
  - by rewrite by_address_none.
Qed.

(** *** What the projection does to the maps *)

Lemma canonical_upsert s mailbox :
  canonical_service s -> normal_address (normalizeAddress (ml_address mailbox)) ->
  canonical_service (UpsertIdentityMailbox mailbox s).
Proof.
  intros [Hd Hm Hmk Hv] [N1 N2 N3 N4]. unfold UpsertIdentityMailbox. cbn [sv_domains put service_eta].
  set (a := normalizeAddress (ml_address mailbox)) in *.
  assert (found_under ml_address normalizeAddress (a, put ml_address a mailbox) = a) as Ea.
  { unfold found_under. cbn. apply eqs_false in N2. by rewrite N2. }
  assert (canonical_service (put sv_mailboxes (<[a:=put ml_address a mailbox]> (sv_mailboxes s)) s)) as C0
    by (split; cbn; [done|by apply keyed_insert_new..|done]).
  destruct (sv_domains _ !! after_at a) eqn:E; [exact C0|].
  destruct C0 as [_ ? ? ?]. split; cbn; [|done..]. apply keyed_insert_new; [done|].
  unfold found_under. cbn. apply eqs_false in N4. by rewrite N4.
Qed.

Lemma canonical_delete s address : canonical_service s -> canonical_service (DeleteIdentityMailbox address s).
Proof. intros [Hd Hm Hmk Hv]. split; cbn; [done|by apply keyed_delete..]. Qed.

Lemma canonical_verifiers s address verifiers :
  canonical_service s -> normalizeAddress (normalizeAddress address) = normalizeAddress address ->
  canonical_service (SetAppPasswordVerifiers address verifiers s).
Proof. intros [Hd Hm Hmk Hv] Hi. split; cbn; [done..|by apply keyed_insert_new]. Qed.

Lemma upsert_mailboxes mailbox s :
  sv_mailboxes (UpsertIdentityMailbox mailbox s)
  = <[normalizeAddress (ml_address mailbox) := put ml_address (normalizeAddress (ml_address mailbox)) mailbox]>
      (sv_mailboxes s).
Proof. unfold UpsertIdentityMailbox. by destruct (sv_domains _ !! _). Qed.
Lemma upsert_verifiers mailbox s : sv_verifiers (UpsertIdentityMailbox mailbox s) = sv_verifiers s.
Proof. unfold UpsertIdentityMailbox. by destruct (sv_domains _ !! _). Qed.

(** The identity projection keeps the maps of the service canonical, and
    what it writes is what the daemons see: an upserted mailbox is found under
    its address, its domain is known, a deleted one can neither be found nor
    authenticated, and the verifiers of a mailbox are exactly the ones set
    last. *)
Theorem identity_projection s mailbox address verifiers k :
  canonical_service s ->
  normal_address (normalizeAddress (ml_address mailbox)) ->
  normalizeAddress (normalizeAddress address) = normalizeAddress address ->
  let a := normalizeAddress (ml_address mailbox) in
  let s1 := UpsertIdentityMailbox mailbox s in
  let s2 := DeleteIdentityMailbox address s in
  let s3 := SetAppPasswordVerifiers address verifiers s in
  (canonical_service s1 /\ canonical_service s2 /\ canonical_service s3)
  /\ mailboxes s1 k !! a = Some (put ml_address a mailbox)
  /\ is_Some (domains s1 k !! after_at a)
  /\ mailboxes s2 k !! normalizeAddress address = None
  /\ mailboxAuth s2 address = None
  /\ snd <$> mailboxAuth s3 address
     = (fun _ => verifiers) <$> sv_mailboxes s !! normalizeAddress address.
Proof.
  intros Hc Hn Hi a s1 s2 s3. pose proof Hn as [N1 N2 N3 N4]. fold a in N1, N2, N3, N4.
  set (b := normalizeAddress address) in *.
  assert (canonical_service s1) as C1 by by apply canonical_upsert.
  assert (canonical_service s2) as C2 by by apply canonical_delete.
  assert (canonical_service s3) as C3 by by apply canonical_verifiers.
  split_and!; [done..| | | | |].
  - unfold mailboxes. rewrite project_keyed; [|done|apply C1].
    unfold s1. rewrite upsert_mailboxes. fold a. rewrite lookup_insert_eq.
    cbn. f_equal. unfold named. cbn. apply eqs_false in N2. by rewrite N2.
  - unfold domains. rewrite project_keyed; [|done|apply C1]. rewrite fmap_is_Some.
    unfold s1, UpsertIdentityMailbox. fold a. cbn.
    destruct (sv_domains s !! after_at a) eqn:E; cbn; [by rewrite E|].
    rewrite lookup_insert_eq. by eexists.
  - unfold mailboxes. rewrite project_keyed; [|done|apply C2]. cbn.
    fold b. by rewrite lookup_delete_eq.
  - unfold mailboxAuth. fold b. cbn. fold b. rewrite lookup_delete_eq.
    rewrite by_address_none; [done|apply C2|]. cbn. by rewrite lookup_delete_eq.
  - assert (mailboxAuth s3 address = mailboxAuth s3 b) as ->
      by (unfold mailboxAuth; by rewrite Hi).
    rewrite mailboxAuth_canonical by done. cbn. fold b. rewrite lookup_insert_eq.
    destruct (sv_mailboxes s !! b); [|done]. cbn. by destruct verifiers.
Qed.
End IdentityProjection.
