(* ===== verification/LookupRoutes.v ===== *)
(** * The lookup routes of the core (internal/daemon/http.go)

    GET routes take their argument from the rest of the path, POST routes
    from a JSON body that is decoded leniently: unknown members are skipped
    and anything after the first value is ignored. *)

From stdpp Require Import base list gmap sets strings.
From Stdlib Require Import ZArith Lia Ascii.
From S2P Require Import Prelude GoStd Json JsonText JsonStruct Policy Queue AuditLog Database QueueStore HoldMachine Reconcile Postfix Http Helper Daemon ControlWire Routes Relay Verifier Lookup.

Definition MethodGet : string := "GET".

(** The bytes [http.MaxBytesReader] lets through. *)
Definition visible (limit : Z) (body : string) : string :=
  if (limit <? Z.of_nat (len body))%Z then String.substring 0 (Z.to_nat limit) body else body.

(** [json.NewDecoder(...).Decode(v)]: the first value of the body. *)
Definition decode {A} (fields : struct_type A) (zero : A) (rq : HttpRequest) : Response + A :=
  let body := visible maxControlRequestBytes (rq_body rq) in
  match parse_value (json_fuel body) maxNestingDepth body with
  | Some (v, _) =>
      match store_struct false fields v zero with
      | Some a => inr a
      | None => inl (malformed_json rq)
      end
  | None => inl (malformed_json rq)
  end.

#[export] Instance sender_login_eta : Eta SenderLoginRequest := fun r =>
  {| sl_sasl_username := sl_sasl_username r; sl_mail_from := sl_mail_from r;
     sl_client_ip := sl_client_ip r |}.
#[export] Instance passdb_eta : Eta PassdbRequest := fun r =>
  {| pd_username := pd_username r; pd_secret := pd_secret r; pd_protocol := pd_protocol r |}.
#[export] Instance quota_eta : Eta QuotaRequest := fun r =>
  {| qt_address := qt_address r; qt_quota_bytes := qt_quota_bytes r |}.

Definition sender_login_fields : struct_type SenderLoginRequest :=
  [("sasl_username", member sl_sasl_username store_string);
   ("mail_from", member sl_mail_from store_string); ("client_ip", member sl_client_ip store_string)].
Definition passdb_fields : struct_type PassdbRequest :=
  [("username", member pd_username store_string); ("secret", member pd_secret store_string);
   ("protocol", member pd_protocol store_string)].
Definition quota_fields : struct_type QuotaRequest :=
  [("address", member qt_address store_string); ("quota_bytes", member qt_quota_bytes store_int)].

(** [struct { Domain string }] and [struct { Sender string }]. *)
Definition text_fields (name : string) : struct_type string := [(name, store_string)].

Section LookupRoutes.
Context `{HOST : !Host} `{MAIL : !MailParser} `{ORDER : !MapOrder} `{KDF : !Pbkdf2}.
Context {PS : Type} `{BOUND : !QueueBoundary PS}.
Variable sv : Service.

Definition get_route (prefix path : string) (answer : string -> string -> Answer (PS := PS)) : Route :=
  method MethodGet (fun rq w =>
    let (r, w') := answer (rq_correlation rq) (default path (strip prefix path)) w in (write r, w')).

Definition post_route {A} (fields : struct_type A) (zero : A)
    (answer : string -> A -> Answer (PS := PS)) : Route :=
  method MethodPost (fun rq w =>
    match decode fields zero rq with
    | inl r => (write r, w)
    | inr a => let (r, w') := answer (rq_correlation rq) a w in (write r, w')
    end).

Definition zero_sender_login : SenderLoginRequest :=
  {| sl_sasl_username := ""; sl_mail_from := ""; sl_client_ip := "" |}.

(** The routes of a mux: a pattern that ends in a slash covers the paths under
    it.  No pattern of the service is a prefix of another. *)
Definition get_routes : list (string * (string -> string -> Answer (PS := PS))) :=
  [("/internal/v1/postfix/domains/", PostfixDomain sv);
   ("/internal/v1/postfix/recipients/", PostfixRecipient sv);
   ("/internal/v1/postfix/mailboxes/", PostfixMailbox sv);
   ("/internal/v1/postfix/aliases/", PostfixAlias sv);
   ("/internal/v1/postfix/rate-limit/", PostfixRateLimit sv);
   ("/internal/v1/postfix/transport/", PostfixTransport sv);
   ("/internal/v1/dovecot/userdb/", DovecotUserdb sv);
   ("/internal/v1/dovecot/sieve/default/", DovecotSieve sv);
   ("/internal/v1/rspamd/dkim/", RspamdDKIM sv)].

Definition post_routes : list (string * Route) :=
  [("/internal/v1/postfix/sender-login",
     post_route sender_login_fields zero_sender_login (PostfixSenderLogin sv));
   ("/internal/v1/postfix/sender-policy",
     post_route sender_login_fields zero_sender_login (PostfixSenderPolicy sv));
   ("/internal/v1/dovecot/passdb",
     post_route passdb_fields {| pd_username := ""; pd_secret := ""; pd_protocol := "" |}
       (DovecotPassdb sv));
   ("/internal/v1/dovecot/quota",
     post_route quota_fields {| qt_address := ""; qt_quota_bytes := 0 |} (DovecotQuota sv));
   ("/internal/v1/rspamd/signing-decision",
     post_route (text_fields "domain") "" (RspamdSigningDecision sv));
   ("/internal/v1/rspamd/rate-signal",
     post_route (text_fields "sender") "" (RspamdRateSignal sv))].

Definition lookup_mux (path : string) : Route := fun rq w =>
  match List.find (fun p => HasPrefix path p.1) get_routes with
  | Some (prefix, answer) => get_route prefix path answer rq w
  | None =>
      match List.find (fun p => path =?s p.1) post_routes with
      | Some (_, route) => route rq w
      | None =>
          if path =?s "/internal/v1/rspamd/local-domains"
          then get_route path path (fun cid _ => RspamdLocalDomains sv cid) rq w
          else (http_error "404 page not found" StatusNotFound, w)
      end
  end.

(** Service.Register: all routes of the service. *)
Definition Register : string -> Route := mux sv lookup_mux.
End LookupRoutes.
