(* ===== verification/PlanDigest.v ===== *)
(** * What a confirmation digest binds, and that confirming works
      (internal/outboundpolicy/admin.go)

    The digest of a plan determines the plan and the rows it was computed
    from, up to SHA-256 collisions; and the digest a preview returned is
    accepted when nothing changed in between. *)

From stdpp Require Import base list gmap sets strings sorting pretty.
From Stdlib Require Import ZArith Lia Ascii.
From S2P Require Import Prelude GoStd Json JsonText Sha256 Policy Queue AuditLog Database QueueStore Sources HoldMachine Reconcile Decision Admin.

(** ** Hexadecimal round trip *)

Lemma hex_value_digit n : (n < 16)%N -> hex_value (hex_digit n) = Some n.
Proof.
  intros Hn. unfold hex_value, hex_digit, in_range, byte_val.
  destruct (n <? 10)%N eqn:E; to_prop; rewrite N_ascii_embedding by lia.
  - destruct (48 <=? 48 + n)%N eqn:E1, (48 + n <=? 57)%N eqn:E2; to_prop; try lia.
    simpl. f_equal. lia.
  - destruct (48 <=? 87 + n)%N eqn:E1, (87 + n <=? 57)%N eqn:E2; to_prop; try lia.
    destruct (97 <=? 87 + n)%N eqn:E3, (87 + n <=? 102)%N eqn:E4; to_prop; try lia.
    simpl. f_equal. lia.
Qed.

Lemma hex_decode_encode l : Forall is_byte l -> hex_decode (hex_encode l) = Some l.
Proof.
  induction 1 as [|b l Hb _ IH]; [done|]. unfold is_byte in Hb. cbn [hex_encode hex_decode].
  rewrite !hex_value_digit, IH.
  - do 2 f_equal. rewrite (N.div_mod b 16) at 3 by done. done.
  - by apply N.mod_upper_bound.
  - apply N.Div0.div_lt_upper_bound. lia.
Qed.

Lemma equalPlanDigest_refl l : equalPlanDigest (sha256_hex l) (sha256_hex l) = true.
Proof.
  destruct (sum256_shape l) as [Hn Hb]. unfold equalPlanDigest.
  destruct (sha256_hex_ok l) as [-> _]. unfold sha256_hex.
  rewrite hex_decode_encode by done. rewrite Hn. simpl. by apply bool_decide_eq_true.
Qed.

(** A confirmation is the plan's digest, up to the case of its letters. *)
Lemma equalPlanDigest_decode l x :
  equalPlanDigest (sha256_hex l) x = true -> hex_decode x = Some (Sha.sum256 l).
Proof.
  destruct (sum256_shape l) as [Hn Hb]. unfold equalPlanDigest, sha256_hex.
  rewrite hex_decode_encode by done. destruct (hex_decode x); rewrite ?andb_false_r; [|done].
  rewrite !andb_true_iff, bool_decide_eq_true. intros [_ [_ ->]]. done.
Qed.

(** ** Numbers and quoted texts in the payload *)

Definition number_byte (c : ascii) : bool := in_range 48 57 c || (byte_val c =? 45)%N.

Lemma pretty_N_char_number n : (n < 10)%N -> number_byte (pretty_N_char n) = true.
Proof.
  intros Hn. assert (forallb (fun k => number_byte (pretty_N_char (N.of_nat k))) (seq 0 10) = true)
    as H by done.
  rewrite forallb_forall in H. specialize (H (N.to_nat n)). rewrite N2Nat.id in H.
  apply H, in_seq. lia.
Qed.

Lemma pretty_N_go_number n s :
  forall_bytes number_byte s = true -> forall_bytes number_byte (pretty_N_go n s) = true.
Proof.
  revert s. induction (N.lt_wf_0 n) as [n _ IH]; intros s Hs.
  destruct (decide (0 < n)%N) as [Hpos|Hz].
  - rewrite pretty_N_go_step by done. apply IH.
    + apply N.div_lt; lia.
    + simpl. rewrite Hs, andb_true_r. apply pretty_N_char_number. by apply N.mod_upper_bound.
  - assert (n = 0)%N as -> by lia. by rewrite pretty_N_go_0.
Qed.

Lemma pretty_N_number (n : N) : forall_bytes number_byte (pretty n) = true.
Proof.
  unfold pretty, pretty_N. destruct (decide _); [done|]. by apply pretty_N_go_number.
Qed.

Lemma FormatInt_number n : forall_bytes number_byte (FormatInt n) = true.
Proof.
  unfold FormatInt, pretty, pretty_Z. destruct n as [|p|p]; [done| |].
  - apply pretty_N_number.
  - simpl. apply pretty_N_number.
Qed.

Lemma FormatInt_inj m n : FormatInt m = FormatInt n -> m = n.
Proof. apply (inj pretty). Qed.

(** A text before a byte it does not contain. *)
Definition lacks (c : ascii) (s : string) : Prop :=
  forall_bytes (fun b => negb (byte_val b =? byte_val c)%N) s = true.

Lemma lacks_app_inj c s t l r :
  lacks c s -> lacks c t -> s +:+ String c l = t +:+ String c r -> s = t /\ l = r.
Proof.
  unfold lacks. revert t. induction s as [|a s IH]; intros [|b t]; simpl.
  - intros _ _ [= ->]. done.
  - intros _ [Hb _]%andb_true_iff [= <- _]. by rewrite N.eqb_refl in Hb.
  - intros [Ha _]%andb_true_iff _ [= -> _]. by rewrite N.eqb_refl in Ha.
  - intros [_ Hs]%andb_true_iff [_ Ht]%andb_true_iff [= -> H].
    destruct (IH t Hs Ht H) as [-> ->]. done.
Qed.

Lemma lacks_impl (p : ascii -> bool) c s :
  p c = false -> forall_bytes p s = true -> lacks c s.
Proof.
  intros Hp. apply forall_bytes_impl. intros b Hb.
  destruct (byte_val b =? byte_val c)%N eqn:E; [|done]. to_prop. apply byte_val_inj in E. congruence.
Qed.

Section Payload.
Context `{HOST : !Host}.
Implicit Types (p : ChangePlan).

(** The texts of a plan that JSON copies: identifiers, host names, the scope
    enum and hexadecimal digests. *)
Definition plain_plan p : Prop :=
  forall_bytes json_plain (cp_domain_id p) = true
  /\ forall_bytes json_plain (cp_domain p) = true
  /\ forall_bytes json_plain (cp_current_scope p) = true
  /\ forall_bytes json_plain (cp_requested_scope p) = true
  /\ forall_bytes json_plain (cp_state_digest p) = true.

(** The constant texts of the payload between its values. *)
Definition payload_pieces : list string := Eval vm_compute in
  let q s := dquote +:+ s +:+ dquote in
  ["{" +:+ q "contract" +:+ ":" +:+ q "gotth-mail/outbound-policy-plan/v2" +:+ ","
     +:+ q "domain_id" +:+ ":" +:+ dquote;
   "," +:+ q "domain" +:+ ":" +:+ dquote;
   "," +:+ q "current_scope" +:+ ":" +:+ dquote;
   "," +:+ q "requested_scope" +:+ ":" +:+ dquote;
   "," +:+ q "revision" +:+ ":";
   q "impact" +:+ ":{" +:+ q "aliases" +:+ ":";
   q "external_targets" +:+ ":";
   q "queued_recipients" +:+ ":";
   "," +:+ q "state_digest" +:+ ":" +:+ dquote].
Definition piece (i : nat) : string := nth i payload_pieces "".

Definition payload_form p : string :=
  piece 0 +:+ (cp_domain_id p +:+ String "034" (piece 1 +:+ (cp_domain p
  +:+ String "034" (piece 2 +:+ (cp_current_scope p
  +:+ String "034" (piece 3 +:+ (cp_requested_scope p
  +:+ String "034" (piece 4 +:+ (FormatInt (Z.of_N (cp_revision p))
  +:+ String "," (piece 5 +:+ (FormatInt (im_aliases (cp_impact p))
  +:+ String "," (piece 6 +:+ (FormatInt (im_external_targets (cp_impact p))
  +:+ String "," (piece 7 +:+ (FormatInt (im_queued_recipients (cp_impact p))
  +:+ String "}" (piece 8 +:+ (cp_state_digest p +:+ String "034" "}"))))))))))))))))).

Lemma plan_payload_form p : plain_plan p -> plan_payload p = payload_form p.
Proof.
  intros (H1 & H2 & H3 & H4 & H5).
  unfold plan_payload, payload_form, impact_json, json_object, json_field, json_quote.
  rewrite !quote_plain by done. cbn [json_fields]. rewrite <- !app_assoc_s.
  unfold FormatInt. repeat rewrite ?app_cons, <- ?app_assoc_s. reflexivity.
Qed.

Lemma append_inj_l (u s t : string) : u +:+ s = u +:+ t -> s = t.
Proof. induction u as [|c u IH]; [done|]. rewrite !app_cons. intros [= H]. auto. Qed.

Lemma plain_value (s t l r : string) :
  forall_bytes json_plain s = true -> forall_bytes json_plain t = true ->
  s +:+ String "034" l = t +:+ String "034" r -> s = t /\ l = r.
Proof. intros Hs Ht. apply lacks_app_inj; by apply (lacks_impl json_plain). Qed.

Lemma number_value (c : ascii) (m n : Z) (l r : string) :
  number_byte c = false ->
  FormatInt m +:+ String c l = FormatInt n +:+ String c r -> m = n /\ l = r.
Proof.
  intros Hc H. apply lacks_app_inj in H as [H ->].
  - split; [by apply FormatInt_inj|done].
  - apply (lacks_impl number_byte); [done|apply FormatInt_number].
  - apply (lacks_impl number_byte); [done|apply FormatInt_number].
Qed.

(** What the payload says of a plan. *)
Definition plan_content p :=
  (cp_domain_id p, cp_domain p, cp_current_scope p, cp_requested_scope p, cp_revision p,
   cp_impact p, cp_state_digest p).

Lemma plan_payload_inj p1 p2 :
  plain_plan p1 -> plain_plan p2 -> plan_payload p1 = plan_payload p2 ->
  plan_content p1 = plan_content p2.
Proof.
  intros P1 P2. rewrite !plan_payload_form by done. unfold payload_form.
  destruct P1 as (A1 & A2 & A3 & A4 & A5), P2 as (B1 & B2 & B3 & B4 & B5). intros H.
  apply append_inj_l, plain_value in H as [E1 H]; [|done..].
  apply append_inj_l, plain_value in H as [E2 H]; [|done..].
  apply append_inj_l, plain_value in H as [E3 H]; [|done..].
  apply append_inj_l, plain_value in H as [E4 H]; [|done..].
  apply append_inj_l, number_value in H as [E5 H]; [|done].
  apply append_inj_l, number_value in H as [E6 H]; [|done].
  apply append_inj_l, number_value in H as [E7 H]; [|done].
  apply append_inj_l, number_value in H as [E8 H]; [|done].
  apply append_inj_l, plain_value in H as [E9 _]; [|done..].
  apply N2Z.inj in E5. unfold plan_content.
  destruct (cp_impact p1), (cp_impact p2). simpl in *. congruence.
Qed.
End Payload.

(** ** The transcripts behind the state digest *)

Section Transcripts.
Context `{HOST : !Host}.

Definition alias_texts (row : AliasImpactRow) : list string :=
  [ai_id row; ai_local_part row; default "" (ai_encoded row)].
Definition queued_texts (row : QueuedRow) : list string :=
  [qi_queue_id row; qi_arrival row; qi_recipients row; qi_sources row; qi_recipient row].

Lemma frames_app l k : frames (l ++ k) = frames l ++ frames k.
Proof. unfold frames. by rewrite map_app, concat_app. Qed.

Lemma alias_loop_digest domain rows : forall n total impact digest impact' digest',
  alias_impact_loop domain n total impact digest rows = Ok (impact', digest') ->
  digest' = digest ++ frames (concat (map alias_texts rows))
  /\ Forall (fun row => is_Some (ai_encoded row)) rows.
Proof.
  induction rows as [|row rows IH]; intros n total impact digest impact' digest' H; simpl in H.
  { injection H as <- <-. simpl. by rewrite app_nil_r. }
  destruct (_ <? _)%N; [done|].
  destruct (ai_encoded row) eqn:Ee; rewrite ?orb_true_r in H.
  2: done.
  destruct (_ || _); [done|]. apply rbind_ok in H as (ts & _ & H).
  apply rbind_ok in H as (ext & _ & H). apply IH in H as [-> Hall]. split.
  - unfold writePolicyStateDigest. rewrite <- app_assoc, <- frames_app. simpl map.
    unfold alias_texts at 2. rewrite Ee. done.
  - constructor; [by eexists|done].
Qed.

Lemma queued_loop_digest domain rows : forall count last ids digest count' digest' ids',
  queued_impact_loop domain count last ids digest rows = Ok (count', digest', ids') ->
  digest' = digest ++ frames (concat (map queued_texts rows)).
Proof.
  induction rows as [|row rows IH]; intros count last ids digest count' digest' ids' H; simpl in H.
  { injection H as <- <- <-. simpl. by rewrite app_nil_r. }
  destruct (_ <=? _)%Z; [done|]. destruct (negb _); [done|]. apply IH in H as ->.
  unfold writePolicyStateDigest. by rewrite <- app_assoc, <- frames_app.
Qed.

Lemma queued_texts_inj rows : forall rows',
  concat (map queued_texts rows) = concat (map queued_texts rows') -> rows = rows'.
Proof.
  induction rows as [|[] rows IH]; intros [|[] rows']; simpl; try done.
  intros [= -> -> -> -> -> H]. f_equal. by apply IH.
Qed.

(** A row of the alias query is determined by its texts. *)
Definition alias_row_ok (row : AliasImpactRow) : Prop :=
  forall targets, ai_encoded row = Some targets ->
    ai_encoded_bytes row = Z.of_nat (len targets).

Lemma alias_texts_inj rows : forall rows',
  Forall (fun row => is_Some (ai_encoded row)) rows ->
  Forall (fun row => is_Some (ai_encoded row)) rows' ->
  Forall alias_row_ok rows -> Forall alias_row_ok rows' ->
  concat (map alias_texts rows) = concat (map alias_texts rows') -> rows = rows'.
Proof.
  induction rows as [|[i l n e] rows IH]; intros [|[i' l' n' e'] rows']; simpl; try done.
  intros [[t Ht] S1]%Forall_cons [[t' Ht'] S2]%Forall_cons [W1 R1]%Forall_cons
    [W2 R2]%Forall_cons. unfold alias_row_ok in W1, W2. simpl in *. subst e e'.
  specialize (W1 _ eq_refl). specialize (W2 _ eq_refl). simpl.
  intros [= -> -> -> H]. f_equal; [congruence|]. by apply IH.
Qed.

Transparent alias_impact_rows.
Lemma alias_impact_rows_ok id d : Forall alias_row_ok (alias_impact_rows id d).
Proof.
  unfold alias_impact_rows. apply Forall_take, Forall_map, Forall_forall.
  intros p _ t. simpl. destruct (_ <=? _)%Z; [|done]. by intros [= <-].
Qed.
Opaque alias_impact_rows.
End Transcripts.

(** ** Binding *)

Section Binding.
Context `{HOST : !Host} `{IDNA : !IdnaLaws}.
Implicit Types (d : DB) (p : ChangePlan).

(** The texts behind the digests of a plan computed on [d]. *)
Definition alias_state_texts d p : list string :=
  "gotth-mail/outbound-policy-alias-state/v1"
    :: concat (map alias_texts (alias_impact_rows (cp_domain_id p) d)).
Definition queue_state_texts d p : list string :=
  "gotth-mail/outbound-policy-queue-state/v1"
    :: concat (map queued_texts (queued_rows (cp_domain_id p) (cp_domain p) d)).
Definition state_texts d p : list string :=
  ["gotth-mail/outbound-policy-state/v1"; digestStrings (alias_state_texts d p);
   digestStrings (queue_state_texts d p)].

(** The streamed digests are the digests of the flattened texts. *)
Lemma plan_state_digest raw requested d p :
  plan_pure raw requested d = Ok p ->
  cp_state_digest p = digestStrings (state_texts d p)
  /\ Forall (fun row => is_Some (ai_encoded row)) (alias_impact_rows (cp_domain_id p) d).
Proof.
  intros (row & _ & _ & _ & _ & _ & _ & _ & _ & _ & al & qd & qc & Ha & Hq & _ & ->)%plan_pure_fields.
  unfold alias_state, queue_state in Ha, Hq. destruct al as [im ad].
  apply alias_loop_digest in Ha as [-> Hall]. apply queued_loop_digest in Hq as ->.
  split; [|done]. unfold state_texts, digestStrings, newPolicyStateDigest, writePolicyStateDigest.
  rewrite !app_nil_l, <- !frames_app. done.
Qed.

Lemma ldh_json_plain s : forall_bytes ldh_lower s = true -> forall_bytes json_plain s = true.
Proof. apply byte_class_incl. by vm_compute. Qed.

Lemma hex_json_plain s : forall_bytes hex_byte s = true -> forall_bytes json_plain s = true.
Proof. apply byte_class_incl. by vm_compute. Qed.

Lemma scope_json_plain s : validScope s = true -> forall_bytes json_plain s = true.
Proof. unfold validScope. intros [->%eqs_true| ->%eqs_true]%orb_true_iff; done. Qed.

Lemma plan_plain raw requested d p :
  plan_pure raw requested d = Ok p -> forall_bytes json_plain (cp_domain_id p) = true ->
  plain_plan p.
Proof.
  intros (row & _ & _ & Hn & _ & Hs & Hv & Hr & _ & Hd & _)%plan_pure_fields Hid.
  unfold planDigest in Hd. destruct (validLowerHexDigest (cp_state_digest p)) eqn:E; [|done].
  unfold validLowerHexDigest in E. split_and!; [done| | | |].
  - apply NormalizeDomain_ldh in Hn as [Hn _]. by apply ldh_json_plain.
  - apply andb_true_iff in Hv as [_ Hv]. by apply scope_json_plain.
  - apply andb_true_iff in Hv as [Hv _]. rewrite Hr. by apply scope_json_plain.
  - apply andb_true_iff in E as [_ E]. by apply hex_json_plain.
Qed.

Lemma three_inj {A} (a b c a' b' c' : A) : [a; b; c] = [a'; b'; c'] -> b = b' /\ c = c'.
Proof. by intros [= _ -> ->]. Qed.
Lemma cons_inj_tail {A} (a b : A) l k : a :: l = b :: k -> l = k.
Proof. by intros [= _ ->]. Qed.

(** The pairs of transcripts hashed for two plans, outermost first. *)
Definition plan_transcripts d1 p1 d2 p2 : list (list N * list N) :=
  [(bytes_of (plan_payload p1), bytes_of (plan_payload p2));
   (frames (state_texts d1 p1), frames (state_texts d2 p2));
   (frames (alias_state_texts d1 p1), frames (alias_state_texts d2 p2));
   (frames (queue_state_texts d1 p1), frames (queue_state_texts d2 p2))].

Definition collides (t : list N * list N) : Prop :=
  t.1 <> t.2 /\ Sha.sum256 t.1 = Sha.sum256 t.2.

(** Equal digests come from equal texts, unless the transcripts collide. *)
Lemma digestStrings_binds xs ys :
  Forall go_len (xs ++ ys) -> digestStrings xs = digestStrings ys ->
  xs = ys \/ collides (frames xs, frames ys).
Proof.
  intros [Hx Hy]%Forall_app H. unfold digestStrings in H. rewrite sha256_hex_eq in H.
  destruct (decide (frames xs = frames ys)) as [E|E]; [left; by apply frames_inj|by right].
Qed.

Lemma go_len_digest l : go_len (sha256_hex l).
Proof. unfold go_len. destruct (sha256_hex_ok l) as [-> _]. done. Qed.

Lemma state_texts_len d p : Forall go_len (state_texts d p).
Proof. unfold state_texts, digestStrings. repeat constructor; apply go_len_digest. Qed.

(** A confirmation digest binds everything the administrator was shown:
    two plans with one digest agree on the domain, both scopes, the revision
    and the impact, and were computed from the same enabled aliases of the
    domain and the same affected queue rows; otherwise one of the four listed
    pairs of hashed texts is a SHA-256 collision. *)
Theorem plan_digest_binds raw1 req1 d1 p1 raw2 req2 d2 p2 :
  plan_pure raw1 req1 d1 = Ok p1 -> plan_pure raw2 req2 d2 = Ok p2 ->
  cp_digest p1 = cp_digest p2 ->
  forall_bytes json_plain (cp_domain_id p1) = true ->
  forall_bytes json_plain (cp_domain_id p2) = true ->
  Forall go_len (alias_state_texts d1 p1 ++ alias_state_texts d2 p2) ->
  Forall go_len (queue_state_texts d1 p1 ++ queue_state_texts d2 p2) ->
  (plan_content p1 = plan_content p2
   /\ alias_impact_rows (cp_domain_id p1) d1 = alias_impact_rows (cp_domain_id p2) d2
   /\ queued_rows (cp_domain_id p1) (cp_domain p1) d1
      = queued_rows (cp_domain_id p2) (cp_domain p2) d2)
  \/ exists t, t ∈ plan_transcripts d1 p1 d2 p2 /\ collides t.
Proof.
  intros H1 H2 Hd Hi1 Hi2 La Lq.
  pose proof (plan_plain _ _ _ _ H1 Hi1) as P1. pose proof (plan_plain _ _ _ _ H2 Hi2) as P2.
  destruct (plan_state_digest _ _ _ _ H1) as [S1 A1].
  destruct (plan_state_digest _ _ _ _ H2) as [S2 A2].
  apply plan_pure_fields in H1 as (? & _ & _ & _ & _ & _ & _ & _ & _ & D1 & _).
  apply plan_pure_fields in H2 as (? & _ & _ & _ & _ & _ & _ & _ & _ & D2 & _).
  unfold planDigest in D1, D2. destruct (negb _); [done|]. destruct (negb _); [done|].
  injection D1 as D1. injection D2 as D2. rewrite <- D1, <- D2, sha256_hex_eq in Hd.
  unfold plan_transcripts.
  destruct (decide (bytes_of (plan_payload p1) = bytes_of (plan_payload p2))) as [E|E].
  2: { right. eexists. split; [left|by split]. }
  apply bytes_of_inj, plan_payload_inj in E; [|done..].
  assert (cp_state_digest p1 = cp_state_digest p2) as Es by (unfold plan_content in E; congruence).
  rewrite S1, S2 in Es. apply digestStrings_binds in Es as [Es|?];
    [|right; eexists; split; [right; left|done]|by apply Forall_app_2; apply state_texts_len].
  apply three_inj in Es as [Ea Eq].
  apply digestStrings_binds in Ea as [Ea|?];
    [|right; eexists; split; [right; right; left|done]|done].
  apply digestStrings_binds in Eq as [Eq|?];
    [|right; eexists; split; [right; right; right; left|done]|done].
  left. apply cons_inj_tail in Ea, Eq. split_and!; [done| |].
  - apply alias_texts_inj in Ea; auto using alias_impact_rows_ok.
  - by apply queued_texts_inj in Eq.
Qed.
End Binding.

(** ** Confirming a preview works *)

Section Confirm.
Context `{HOST : !Host} {PS : Type}.
Implicit Types (w : World PS) (d : DB).

Lemma planDigest_ok p dg :
  planDigest p = Ok dg -> dg = sha256_hex (bytes_of (plan_payload p)).
Proof. unfold planDigest. destruct (negb _); [done|congruence]. Qed.

Lemma loadChangePlan_reliable raw requested w plan :
  reliable w -> plan_pure raw requested (w_db w) = Ok plan ->
  exists w', loadChangePlan raw requested w = (Ok plan, w') /\ reliable w'
    /\ w_db w' = w_db w /\ w_entropy w' = w_entropy w.
Proof.
  intros Hw Hp. unfold plan_pure in Hp. unfold loadChangePlan.
  apply rbind_ok in Hp as (u & Hg & Hp). destruct (negb (validScope requested)); [done|].
  rewrite (bind_step _ _ _ tt w) by done.
  apply rbind_ok in Hp as (domain & Hd & Hp).
  rewrite (bind_step _ _ _ domain w) by (by rewrite Hd).
  apply rbind_ok in Hp as (row & Hr & Hp).
  destruct (queryM_reliable (select_domain domain) w Hw) as (w1 & E1 & W1 & D1 & _ & N1 & _).
  rewrite Hr in E1. rewrite (bind_step _ _ _ _ _ E1).
  apply rbind_ok in Hp as (u1 & Hg1 & Hp). destruct (_ || _); [done|].
  rewrite (bind_step _ _ _ tt w1) by done.
  apply rbind_ok in Hp as (al & Hal & Hp). apply rbind_ok in Hp as (u2 & Hg2 & Hp).
  destruct (negb (unresolved_sources (w_db w) =? 0)) eqn:Eu; [done|].
  apply rbind_ok in Hp as (qu & Hqu & Hp). apply rbind_ok in Hp as (dg & Hdg & Hp).
  unfold loadAliasImpact, loadQueuedRecipientImpact.
  destruct (queryM_reliable (fun d => Ok (alias_impact_rows row.1 d)) w1 W1)
    as (w2 & E2 & W2 & D2 & _ & N2 & _).
  rewrite (bind_step _ _ w1 (al.1, sha256_hex al.2) w2).
  2: { rewrite (bind_step _ _ _ _ _ E2). rewrite D1. unfold alias_state in Hal.
       rewrite (bind_step _ _ _ al w2) by (by rewrite Hal). done. }
  destruct (queryM_reliable (fun d => Ok (unresolved_sources d)) w2 W2)
    as (w3 & E3 & W3 & D3 & _ & N3 & _).
  destruct (queryM_reliable (fun d => Ok (queued_rows row.1 (dm_name row.2) d)) w3 W3)
    as (w4 & E4 & W4 & D4 & _ & N4 & _).
  rewrite (bind_step _ _ w2 (qu.1.1, sha256_hex qu.1.2, qu.2) w4).
  2: { rewrite (bind_step _ _ _ _ _ E3), D2, D1, Eu.
       rewrite (bind_step _ _ _ tt w3) by done. rewrite (bind_step _ _ _ _ _ E4), D3, D2, D1.
       unfold queue_state in Hqu. rewrite (bind_step _ _ _ qu w4) by (by rewrite Hqu). done. }
  cbv zeta. cbn [fst snd]. rewrite (bind_step _ _ w4 dg w4) by (by rewrite <- Hdg).
  exists w4. injection Hp as <-. split_and!; [done..|congruence|congruence].
Qed.

Lemma nowM_entropy w t w' : nowM w = (Ok t, w') -> w_entropy w' = w_entropy w.
Proof. unfold nowM. destruct (w_clock w) as [|? [|? ?]]; by intros [= _ <-]. Qed.

(** The digest a preview returned is accepted as long as the policy state
    it covers is the same: applying it over an answering database changes the
    scope, unless the revision counter is exhausted. *)
Theorem preview_then_apply raw requested w0 w0' plan actor cid w :
  PreviewChange raw requested w0 = (Ok plan, w0') ->
  plan_pure raw requested (w_db w) = plan_pure raw requested (w_db w0) ->
  reliable w -> fresh_audit w -> valid_actor actor = true ->
  validPolicyCorrelationID cid = true -> cp_current_scope plan <> requested ->
  (Z.of_N (cp_revision plan) + 1 < 2 ^ 63)%Z ->
  exists w', ApplyChange actor cid raw requested (cp_digest plan) w
    = (Ok {| cr_plan := plan; cr_changed := true; cr_reconciliation := None |}, w').
Proof.
  intros (Hp & _ & _)%loadChangePlan_ok Heq Hw Hf Ha Hc Hne Hrev. rewrite <- Heq in Hp.
  apply plan_pure_fields in Hp as HF.
  destruct HF as (row & Hrow & _ & _ & _ & Hs & Hv & Hreq & Hr & Hd & _).
  apply andb_true_iff in Hv as [Hv _].
  unfold ApplyChange. rewrite (bind_step _ _ _ tt w) by (by rewrite Ha, Hc).
  apply next_outcome_reliable in Hw as (w1 & O1 & W1 & D1 & _ & N1 & _).
  destruct (loadChangePlan_reliable raw requested w1 plan W1) as (w2 & E2 & W2 & D2 & N2).
  { by rewrite D1. }
  destruct (nowM_reliable w2 W2) as (w3 & E3 & W3 & D3 & _).
  pose proof (nowM_entropy _ _ _ E3) as N3.
  destruct (execM_reliable (update_scope (cp_domain_id plan) (cp_requested_scope plan)
    (cp_revision plan)) w3 1 (with_domains
      (<[cp_domain_id plan := set_scope (cp_requested_scope plan) row]>) (w_db w3)))
    as (w4 & E4 & W4 & D4 & _ & N4 & _); [done| |].
  { unfold update_scope. rewrite D3, D2, D1, Hrow, Hr, Z.eqb_refl. unfold domain_row_check.
    simpl. rewrite Hreq, Hv, Hr. destruct (0 <? Z.of_N (cp_revision plan) + 1)%Z eqn:E; to_prop; [|lia].
    destruct (Z.of_N (cp_revision plan) + 1 <? 2 ^ 63)%Z eqn:E'; to_prop; [done|lia]. }
  destruct (WriteSQL_reliable (scope_event (clock_now w2) actor cid plan) w4)
    as (w5 & E5 & W5); [done| |done|].
  { unfold fresh_audit in *. rewrite N4, N3, N2, N1, D4. simpl. by rewrite D3, D2, D1. }
  apply next_outcome_reliable in W5 as (w6 & O6 & _).
  unfold transaction. rewrite O1. unfold apply_body.
  rewrite (bind_step _ _ _ _ _ E2). apply planDigest_ok in Hd as Hd'.
  pose proof (equalPlanDigest_refl (bytes_of (plan_payload plan))) as Hq.
  rewrite <- Hd' in Hq. rewrite (bind_step _ _ _ tt w2) by (by rewrite Hq). cbv beta.
  rewrite Hreq. apply eqs_false in Hne. rewrite Hne.
  rewrite (bind_step _ _ _ _ _ E3). rewrite Hreq in E4. rewrite (bind_step _ _ _ _ _ E4).
  rewrite (bind_step _ _ _ tt w4) by done. rewrite (bind_step _ _ _ _ _ E5). cbn.
  rewrite O6. by exists w6.
Qed.
End Confirm.
