(* ===== verification/Tokens.v ===== *)
(** * Random tokens (encoding/base64 RawURLEncoding)

    The text of the random tokens the services issue, and that decoding gives
    the bytes back. *)

From stdpp Require Import base list strings.
From Stdlib Require Import ZArith Lia Ascii.
From S2P Require Import Prelude GoStd Verifier.

(** base64.RawURLEncoding: the URL alphabet, without padding. *)
Definition url_char (c : ascii) : ascii :=
  if (byte_val c =? 43)%N then "-"%char else if (byte_val c =? 47)%N then "_"%char else c.
Definition url_sextet (c : ascii) : option N :=
  if (byte_val c =? 45)%N then Some 62%N else if (byte_val c =? 95)%N then Some 63%N
  else if (byte_val c =? 43)%N || (byte_val c =? 47)%N then None else sextet c.

Fixpoint raw_url_encode (l : list N) : string :=
  let char n := url_char (base64_char n) in
  match l with
  | [] => ""
  | [x] => String (char (x / 4)%N) (String (char (x mod 4 * 16)%N) "")
  | [x; y] =>
      String (char (x / 4)%N) (String (char (x mod 4 * 16 + y / 16)%N)
        (String (char (y mod 16 * 4)%N) ""))
  | x :: y :: z :: l =>
      String (char (x / 4)%N) (String (char (x mod 4 * 16 + y / 16)%N)
        (String (char (y mod 16 * 4 + z / 64)%N) (String (char (z mod 64)%N) (raw_url_encode l))))
  end.

(** The bits that a last group of two or three characters leaves over are
    not looked at. *)
Fixpoint raw_url_groups (s : string) : option (list N) :=
  match s with
  | "" => Some []
  | String a (String b "") =>
      match url_sextet a, url_sextet b with
      | Some a, Some b => Some [byte1 a b]
      | _, _ => None
      end
  | String a (String b (String c "")) =>
      match url_sextet a, url_sextet b, url_sextet c with
      | Some a, Some b, Some c => Some [byte1 a b; byte2 b c]
      | _, _, _ => None
      end
  | String a (String b (String c (String d s))) =>
      match url_sextet a, url_sextet b, url_sextet c, url_sextet d with
      | Some a, Some b, Some c, Some d =>
          (fun l => byte1 a b :: byte2 b c :: byte3 c d :: l) <$> raw_url_groups s
      | _, _, _, _ => None
      end
  | _ => None
  end.

Definition raw_url_decode (s : string) : option (list N) := raw_url_groups (drop_newlines s).

(** ** Round trip *)

Definition token_byte (c : ascii) : bool :=
  plain_byte c && negb (existsb (Ascii.eqb c) ["$"; "."; ":"])%char
  && negb ((byte_val c =? 10)%N || (byte_val c =? 13)%N).

Definition url_ok (n : N) : bool :=
  match url_sextet (url_char (base64_char n)) with Some m => (m =? n)%N | None => false end
  && token_byte (url_char (base64_char n)).

Lemma url_char_ok n : (n < 64)%N ->
  url_sextet (url_char (base64_char n)) = Some n /\ token_byte (url_char (base64_char n)) = true.
Proof.
  intros Hn. assert (url_ok n = true) as H.
  { assert (forallb (fun k => url_ok (N.of_nat k)) (seq 0 64) = true) as H by by vm_compute.
    rewrite forallb_forall in H. specialize (H (N.to_nat n)). rewrite N2Nat.id in H. apply H.
    apply in_seq. lia. }
  unfold url_ok in H. apply andb_true_iff in H as [H1 H2]. split; [|done].
  destruct (url_sextet _) as [m|]; [|done]. to_prop. by subst.
Qed.

(** The length of the text of [n] bytes. *)
Definition raw_url_len (n : nat) : nat := (8 * n + 5) / 6.

Lemma raw_url_len_step n : raw_url_len (S (S (S n))) = 4 + raw_url_len n.
Proof. unfold raw_url_len. replace (8 * S (S (S n)) + 5) with (4 * 6 + (8 * n + 5)) by lia.
  by rewrite Nat.div_add_l. Qed.

Lemma raw_url_chars l : Forall (fun b => b < 256)%N l ->
  raw_url_groups (raw_url_encode l) = Some l
  /\ forall_bytes token_byte (raw_url_encode l) = true
  /\ len (raw_url_encode l) = raw_url_len (length l).
Proof.
  induction l as [|x|x y|x y z l IH] using list_ind3; intros Hl.
  - done.
  - apply Forall_cons in Hl as [Hx _]. destruct (sextets_of x 0 0 Hx) as ((H1 & H2 & _) & E1 & _); [done..|].
    change (0 / 16)%N with 0%N in *. rewrite ?N.add_0_r in H2, E1.
    destruct (url_char_ok _ H1) as (S1 & D1), (url_char_ok _ H2) as (S2 & D2).
    cbn [raw_url_encode raw_url_groups forall_bytes]. rewrite S1, S2, D1, D2, E1. done.
  - apply Forall_cons in Hl as [Hx [Hy _]%Forall_cons].
    destruct (sextets_of x y 0 Hx Hy) as ((H1 & H2 & H3 & _) & E1 & E2 & _); [done|].
    change (0 / 64)%N with 0%N in *. rewrite N.add_0_r in H3, E2.
    destruct (url_char_ok _ H1) as (S1 & D1), (url_char_ok _ H2) as (S2 & D2),
      (url_char_ok _ H3) as (S3 & D3).
    cbn [raw_url_encode raw_url_groups forall_bytes]. rewrite S1, S2, S3, D1, D2, D3, E1, E2. done.
  - rewrite !Forall_cons in Hl. destruct Hl as (Hx & Hy & Hz & Hl).
    destruct (sextets_of x y z Hx Hy Hz) as ((H1 & H2 & H3 & H4) & E1 & E2 & E3).
    destruct (url_char_ok _ H1) as (S1 & D1), (url_char_ok _ H2) as (S2 & D2),
      (url_char_ok _ H3) as (S3 & D3), (url_char_ok _ H4) as (S4 & D4).
    destruct (IH Hl) as (Hg & Hd & Hn). cbn [length]. rewrite raw_url_len_step.
    cbn [raw_url_encode raw_url_groups forall_bytes len].
    rewrite S1, S2, S3, S4, D1, D2, D3, D4, Hg, Hd, Hn. cbn. by rewrite E1, E2, E3.
Qed.

Lemma raw_url_round_trip l : Forall (fun b => b < 256)%N l ->
  raw_url_decode (raw_url_encode l) = Some l.
Proof.
  intros H. destruct (raw_url_chars l H) as (Hg & Hd & _). unfold raw_url_decode.
  rewrite drop_newlines_id; [done|]. revert Hd. apply byte_class_incl. by vm_compute.
Qed.

Lemma raw_url_trim l : Forall (fun b => b < 256)%N l ->
  TrimSpace (raw_url_encode l) = raw_url_encode l.
Proof.
  intros H. destruct (raw_url_chars l H) as (_ & Hd & _). apply TrimSpace_plain.
  revert Hd. apply byte_class_incl. by vm_compute.
Qed.
