(* ===== verification/Authz.v ===== *)
(** * Authorization (internal/authz/authz.go)

    [StaticAuthorizer] decides from the type of an actor, its scopes, and for
    OIDC subjects from the roles bound to it.  Writing to the role map under a
    role it does not hold is a write to a nil map: [None] is that panic. *)

From stdpp Require Import base list gmap sets strings.
From Stdlib Require Import ZArith Lia Ascii.
From S2P Require Import Prelude GoStd Lookup.

Module authz.

Definition Action := string.
Definition Role := string.

Record RoleAssignment := { ra_role : Role; ra_domain : string }.

Record Actor := {
  a_type : string; a_id : string; a_mailbox : string; a_scopes : list string;
  a_groups : list string; a_roles : list RoleAssignment;
}.

Record Resource := { r_type : string; r_id : string }.
Record Decision := { d_allow : bool; d_reason : string }.
Record Explanation := {
  ex_decision : Decision; ex_steps : list string; ex_matched : list string;
  ex_missing : list string;
}.

Definition RoleGlobalAdmin : Role := "global_admin".
Definition RoleDomainManager : Role := "domain_manager".
Definition RoleScopedDomainAccess : Role := "scoped_domain_access".

Record RoleMapping := {
  rm_group : string; rm_role : Role; rm_domain : string; rm_verified : bool;
}.

Record StaticAuthorizer := { sa_mappings : list RoleMapping }.

(** A [map[Role]map[string]bool] whose inner maps hold only [true]. *)
Abbreviation RoleMap := (gmap string (gset string)).

Section Authz.
Context `{HOST : !Host}.

(** [append(ex.Steps, reason)] on the three steps of every explanation. *)
Definition base_steps : list string := ["load actor"; "load resource"; "evaluate policy"].

Definition allow (reason : string) (rules : list string) : Explanation :=
  {| ex_decision := {| d_allow := true; d_reason := reason |};
     ex_steps := base_steps ++ [reason]; ex_matched := rules; ex_missing := [] |}.
Definition deny (reason : string) (missing : list string) : Explanation :=
  {| ex_decision := {| d_allow := false; d_reason := reason |};
     ex_steps := base_steps ++ [reason]; ex_matched := []; ex_missing := missing |}.

(** The results of explainOIDC, whose last step differs from the reason. *)
Definition oidc (ok : bool) (reason step : string) (rules missing : list string) : Explanation :=
  {| ex_decision := {| d_allow := ok; d_reason := reason |};
     ex_steps := base_steps ++ [step]; ex_matched := rules; ex_missing := missing |}.

Definition resourceDomain (r : Resource) : string :=
  if r_type r =?s "domain" then ToLower (r_id r) else
  match SplitLastByte "@" (r_id r) with
  | Some (_, domain) => ToLower domain
  | None => ToLower (r_id r)
  end.

(** ** Roles *)

Definition empty_roles : RoleMap :=
  <[RoleGlobalAdmin := ∅]> (<[RoleDomainManager := ∅]> (<[RoleScopedDomainAccess := ∅]> ∅)).

Definition has_role (out : RoleMap) (role : Role) (domain : string) : bool :=
  bool_decide (domain ∈ default ∅ (out !! role)).

Definition any_domain (domain : string) : string := if domain =?s "" then "*" else domain.

Definition assign (out : RoleMap) (assignment : RoleAssignment) : RoleMap :=
  match out !! ra_role assignment with
  | None => out
  | Some domains =>
      <[ra_role assignment :=
          {[any_domain (ToLower (TrimSpace (ra_domain assignment)))]} ∪ domains]> out
  end.

(** [out[m.Role][domain] = true] *)
Definition apply_mapping (groups : list string) (out : option RoleMap) (m : RoleMapping)
    : option RoleMap :=
  out ← out;
  if negb (rm_verified m) || negb (bool_decide (rm_group m ∈ groups)) then Some out else
  domains ← out !! rm_role m;
  Some (<[rm_role m := {[any_domain (rm_domain m)]} ∪ domains]> out).

Definition rolesFor (s : StaticAuthorizer) (a : Actor) : option RoleMap :=
  foldl (apply_mapping (a_groups a)) (Some (foldl assign empty_roles (a_roles a))) (sa_mappings s).

(** ** Decisions *)

Definition owns_mailbox (a : Actor) (r : Resource) : bool :=
  (a_mailbox a <>?s "") && EqualFold (a_mailbox a) (r_id r).

Definition explainOIDC (s : StaticAuthorizer) (a : Actor) (act : Action) (r : Resource)
    : option Explanation :=
  if owns_mailbox a r && (act =?s "webmail:use") then
    Some (oidc true "OIDC subject may use webmail for its bound mailbox" "bound mailbox matched"
            ["oidc:bound_mailbox:webmail"] [])
  else if owns_mailbox a r && HasPrefix act "mailbox:app_password." then
    Some (oidc true "OIDC subject may manage app passwords for its bound mailbox"
            "bound mailbox matched" ["oidc:bound_mailbox:app_password"] [])
  else
  roles ← rolesFor s a;
  Some (
    if has_role roles RoleGlobalAdmin "*" then
      oidc true "global admin role matched" "global admin role matched" ["oidc:global_admin"] []
    else if HasPrefix act "status:" || HasPrefix act "doctor:" then
      oidc true "OIDC subject may read bounded status" "bounded read allowed" ["oidc:status_read"] []
    else
    let domain := resourceDomain r in
    if has_role roles RoleDomainManager domain
       && (HasPrefix act "domain:" || HasPrefix act "mailbox:" || HasPrefix act "alias:") then
      oidc true "domain manager role matched" "domain manager role matched"
        ["oidc:domain_manager:" +:+ domain] []
    else if has_role roles RoleScopedDomainAccess domain
       && (HasPrefix act "mailbox:read" || HasPrefix act "alias:read" || HasPrefix act "domain:read") then
      oidc true "scoped domain access role matched" "scoped domain access role matched"
        ["oidc:scoped_domain_access:" +:+ domain] []
    else
      oidc false "OIDC subject lacks required Authentik role mapping"
        "no matching Authentik role mapping" [] ["global_admin_or_domain_mapping"]).

(** The scopes of an API token that cover an action on a resource. *)
Definition scope_matches (act : Action) (r : Resource) (scope : string) : bool :=
  (scope =?s act) || (scope =?s act +:+ ":" +:+ ToLower (r_id r))
  || (scope =?s "mailbox:" +:+ ToLower (r_id r) +:+ ":" +:+ act).

Definition Explain (s : StaticAuthorizer) (a : Actor) (act : Action) (r : Resource)
    : option Explanation :=
  if a_type a =?s "local_admin" then
    Some (allow "local admin may administer all resources" ["local_admin:all"])
  else if a_type a =?s "break_glass" then
    Some (if HasPrefix act "bootstrap:" || HasPrefix act "recovery:"
          then allow "break-glass limited to bootstrap/recovery" ["break_glass:bootstrap_recovery"]
          else deny "break-glass denied outside bootstrap/recovery" ["bootstrap_or_recovery_action"])
  else if a_type a =?s "api_token" then
    Some (match List.find (scope_matches act r) (a_scopes a) with
          | Some scope => allow "api token scope matched" ["api_token:scope:" +:+ scope]
          | None => deny "api token scope missing" ["matching_api_scope"]
          end)
  else if a_type a =?s "plugin_service" then
    Some (if HasPrefix act "plugin:" && negb (Contains act "grant") && negb (Contains act "policy")
          then allow "plugin service limited to plugin actions" ["plugin_service:plugin_action"]
          else deny "plugin service cannot mutate core policy or grant roles" ["non_policy_plugin_action"])
  else if a_type a =?s "system" then
    Some (if HasPrefix act "system:" || HasPrefix act "notification:"
          then allow "system actor limited to system actions" ["system:system_action"]
          else deny "system actor denied for user/admin action" ["system_action"])
  else if a_type a =?s "scim_client" then
    Some (if HasPrefix act "scim:" || HasPrefix act "mailbox:provision"
          then allow "SCIM client limited to provisioning actions" ["scim_client:provisioning"]
          else deny "SCIM client denied outside provisioning" ["scim_or_provisioning_action"])
  else if a_type a =?s "oidc_subject" then explainOIDC s a act r
  else Some (deny "unknown actor type" ["known_actor_type"]).

Definition Decide (s : StaticAuthorizer) (a : Actor) (act : Action) (r : Resource)
    : option Decision :=
  ex_decision <$> Explain s a act r.

(** ** ValidateRoleMappings *)

Definition known_role (role : Role) : bool :=
  (role =?s RoleGlobalAdmin) || (role =?s RoleDomainManager) || (role =?s RoleScopedDomainAccess).

Definition mapping_problems (known : list string) (m : RoleMapping) : list string :=
  (if TrimSpace (rm_group m) =?s "" then ["authentik_group_required"] else [])
  ++ (if known_role (rm_role m) then [] else ["unknown_role:" +:+ rm_role m])
  ++ (if ((rm_role m =?s RoleDomainManager) || (rm_role m =?s RoleScopedDomainAccess))
         && (rm_domain m <>?s "") && negb (bool_decide (ToLower (rm_domain m) ∈ known))
      then ["unknown_domain:" +:+ rm_domain m] else [])
  ++ (if rm_verified m then [] else ["mapping_unverified:" +:+ rm_group m]).

Definition ValidateRoleMappings (ms : list RoleMapping) (knownDomains : list string) : list string :=
  let known := map ToLower knownDomains in
  concat (map (mapping_problems known) ms)
  ++ concat (map (fun role =>
       if existsb (fun m => rm_role m =?s role) ms then []
       else ["missing_required_mapping:" +:+ role])
       [RoleGlobalAdmin; RoleDomainManager; RoleScopedDomainAccess]).
End Authz.

(** ** Who may do what *)

Section Permissions.
Context `{HOST : !Host}.
Implicit Types (s : StaticAuthorizer) (a : Actor) (act : Action) (r : Resource).

(** A role an actor holds in a domain, by assignment or through a group. *)
Inductive granted s a (role : Role) (domain : string) : Prop :=
| granted_assignment x :
    x ∈ a_roles a -> ra_role x = role -> known_role role = true ->
    domain = any_domain (ToLower (TrimSpace (ra_domain x))) -> granted s a role domain
| granted_mapping m :
    m ∈ sa_mappings s -> rm_verified m = true -> rm_group m ∈ a_groups a ->
    rm_role m = role -> domain = any_domain (rm_domain m) -> granted s a role domain.

Definition has_any_prefix act (prefixes : list string) : Prop :=
  exists p, p ∈ prefixes /\ HasPrefix act p = true.

(** The actions of every kind of actor. *)
Inductive permitted s a act r : Prop :=
| permitted_admin : a_type a = "local_admin" -> permitted s a act r
| permitted_break_glass :
    a_type a = "break_glass" -> has_any_prefix act ["bootstrap:"; "recovery:"] -> permitted s a act r
| permitted_token scope :
    a_type a = "api_token" -> scope ∈ a_scopes a ->
    scope ∈ [act; act +:+ ":" +:+ ToLower (r_id r); "mailbox:" +:+ ToLower (r_id r) +:+ ":" +:+ act] ->
    permitted s a act r
| permitted_plugin :
    a_type a = "plugin_service" -> HasPrefix act "plugin:" = true -> Contains act "grant" = false ->
    Contains act "policy" = false -> permitted s a act r
| permitted_system :
    a_type a = "system" -> has_any_prefix act ["system:"; "notification:"] -> permitted s a act r
| permitted_scim :
    a_type a = "scim_client" -> has_any_prefix act ["scim:"; "mailbox:provision"] -> permitted s a act r
| permitted_mailbox :
    a_type a = "oidc_subject" -> owns_mailbox a r = true ->
    act = "webmail:use" \/ HasPrefix act "mailbox:app_password." = true -> permitted s a act r
| permitted_global :
    a_type a = "oidc_subject" -> granted s a RoleGlobalAdmin "*" -> permitted s a act r
| permitted_status :
    a_type a = "oidc_subject" -> has_any_prefix act ["status:"; "doctor:"] -> permitted s a act r
| permitted_manager :
    a_type a = "oidc_subject" -> granted s a RoleDomainManager (resourceDomain r) ->
    has_any_prefix act ["domain:"; "mailbox:"; "alias:"] -> permitted s a act r
| permitted_scoped :
    a_type a = "oidc_subject" -> granted s a RoleScopedDomainAccess (resourceDomain r) ->
    has_any_prefix act ["mailbox:read"; "alias:read"; "domain:read"] -> permitted s a act r.

(** *** The role map *)

Definition in_role (out : RoleMap) (role : Role) (domain : string) : Prop :=
  domain ∈ default ∅ (out !! role).

Lemma in_role_insert (out : RoleMap) role0 domains domain0 role domain :
  out !! role0 = Some domains ->
  in_role (<[role0 := {[domain0]} ∪ domains]> out) role domain
  <-> (role = role0 /\ domain = domain0) \/ in_role out role domain.
Proof.
  unfold in_role. intros H. destruct (decide (role = role0)) as [->|Hne].
  - rewrite lookup_insert_eq, H. cbn. set_solver.
  - rewrite lookup_insert_ne by done. naive_solver.
Qed.

(** The roles of the map stay the three known ones. *)
Definition known_keys (out : RoleMap) : Prop := forall role, is_Some (out !! role) <-> known_role role = true.

Lemma empty_roles_keys : known_keys empty_roles.
Proof.
  intros role. unfold empty_roles, known_role. rewrite !lookup_insert_is_Some, lookup_empty.
  rewrite !orb_true_iff, !eqs_true. unfold is_Some. naive_solver congruence.
Qed.

Lemma empty_roles_none role domain : ~ in_role empty_roles role domain.
Proof.
  unfold in_role, empty_roles. rewrite !lookup_insert, lookup_empty.
  repeat case_decide; cbn; apply not_elem_of_empty.
Qed.

Lemma known_keys_insert out role domains :
  known_keys out -> is_Some (out !! role) -> known_keys (<[role := domains]> out).
Proof.
  unfold known_keys. intros H Hr role'. rewrite lookup_insert_is_Some.
  rewrite (H role'). apply H in Hr. destruct (decide (role = role')) as [->|?]; naive_solver.
Qed.

Lemma assign_spec out x : known_keys out ->
  known_keys (assign out x) /\ forall role domain, in_role (assign out x) role domain <->
    in_role out role domain \/ (ra_role x = role /\ known_role role = true
      /\ domain = any_domain (ToLower (TrimSpace (ra_domain x)))).
Proof.
  intros H. unfold assign. destruct (out !! ra_role x) as [domains|] eqn:E.
  - assert (known_role (ra_role x) = true) as Hk by (apply H; by eexists).
    split; [apply known_keys_insert; [done|by eexists]|].
    intros role domain. rewrite in_role_insert by done. naive_solver.
  - split; [done|]. intros role domain. split; [by left|].
    intros [?|(<- & Hk & _)]; [done|]. apply H in Hk as [? ?]. congruence.
Qed.

Lemma exists_cons {A} (x : A) l (P : A -> Prop) :
  (exists y, y ∈ x :: l /\ P y) <-> P x \/ exists y, y ∈ l /\ P y.
Proof.
  split.
  - intros (y & [->|Hy]%elem_of_cons & HP); eauto.
  - intros [HP|(y & Hy & HP)]; eexists; (split; [|exact HP]); [left|by right].
Qed.

Lemma assign_all_spec l : forall out, known_keys out ->
  known_keys (foldl assign out l) /\ forall role domain, in_role (foldl assign out l) role domain <->
    in_role out role domain \/ exists x, x ∈ l /\ ra_role x = role /\ known_role role = true
      /\ domain = any_domain (ToLower (TrimSpace (ra_domain x))).
Proof.
  induction l as [|x l IH]; intros out H; cbn [foldl].
  { split; [done|]. intros role domain. split; [by left|].
    by intros [?|(x & ?%not_elem_of_nil & _)]. }
  destruct (assign_spec out x H) as [Hk Hx]. destruct (IH _ Hk) as [Hk' Hl]. split; [done|].
  intros role domain. rewrite Hl, Hx, exists_cons. tauto.
Qed.

Lemma apply_mapping_none groups l : foldl (apply_mapping groups) None l = None.
Proof. induction l as [|m l IH]; [done|exact IH]. Qed.

Lemma apply_mappings_spec groups l : forall out out', known_keys out ->
  foldl (apply_mapping groups) (Some out) l = Some out' ->
  forall role domain, in_role out' role domain <->
    in_role out role domain \/ exists m, m ∈ l /\ rm_verified m = true /\ rm_group m ∈ groups
      /\ rm_role m = role /\ domain = any_domain (rm_domain m).
Proof.
  induction l as [|m l IH]; intros out out' H E role domain; cbn [foldl] in E.
  { injection E as <-. split; [by left|]. by intros [?|(x & ?%not_elem_of_nil & _)]. }
  destruct (apply_mapping groups (Some out) m) as [out1|] eqn:E1;
    [|by rewrite apply_mapping_none in E].
  unfold apply_mapping in E1. cbn [mbind option_bind] in E1.
  rewrite exists_cons. destruct (negb (rm_verified m) || _) eqn:Em.
  - injection E1 as <-. rewrite (IH _ _ H E). to_prop.
    assert (rm_verified m = true -> rm_group m ∈ groups -> False) by (intros; destruct Em; congruence).
    tauto.
  - to_prop. destruct Em as [Hv Hg].
    destruct (out !! rm_role m) as [domains|] eqn:Er; [|done]. injection E1 as <-.
    rewrite (IH _ _ (known_keys_insert _ _ _ H ltac:(by eexists)) E), in_role_insert by done.
    split; [intros [[[-> ->]|?]|?]|intros [?|[(_ & _ & <- & ->)|?]]]; tauto.
Qed.

Lemma rolesFor_spec s a roles role domain :
  rolesFor s a = Some roles -> has_role roles role domain = true <-> granted s a role domain.
Proof.
  intros E. unfold has_role. rewrite bool_decide_eq_true. fold (in_role roles role domain).
  destruct (assign_all_spec (a_roles a) _ empty_roles_keys) as [Hk Ha].
  rewrite (apply_mappings_spec _ _ _ _ Hk E), Ha. split.
  - intros [[?|(x & ? & ? & ? & ?)]|(m & ? & ? & ? & ? & ?)].
    + by destruct (empty_roles_none role domain).
    + by eapply granted_assignment.
    + by eapply granted_mapping.
  - intros [x|m]; [left; right; by exists x|right; by exists m].
Qed.

(** *** Decisions *)

Lemma has_any_prefix_two act p q :
  HasPrefix act p || HasPrefix act q = true <-> has_any_prefix act [p; q].
Proof.
  rewrite orb_true_iff. unfold has_any_prefix. split.
  - intros [?|?]; eexists; (split; [|eassumption]); set_solver.
  - intros (x & Hx & H). apply elem_of_cons in Hx as [->|Hx]; [by left|].
    apply list_elem_of_singleton in Hx as ->. by right.
Qed.

Lemma has_any_prefix_three act p q t :
  HasPrefix act p || HasPrefix act q || HasPrefix act t = true <-> has_any_prefix act [p; q; t].
Proof.
  rewrite !orb_true_iff. unfold has_any_prefix. split.
  - intros [[?|?]|?]; eexists; (split; [|eassumption]); set_solver.
  - intros (x & Hx & H). apply elem_of_cons in Hx as [->|Hx]; [by left; left|].
    apply elem_of_cons in Hx as [->|Hx]; [by left; right|].
    apply list_elem_of_singleton in Hx as ->. by right.
Qed.

(** The permissions of an OIDC subject, apart from its type. *)
Definition oidc_permitted s a act r : Prop :=
  (owns_mailbox a r = true /\ (act = "webmail:use" \/ HasPrefix act "mailbox:app_password." = true))
  \/ granted s a RoleGlobalAdmin "*"
  \/ has_any_prefix act ["status:"; "doctor:"]
  \/ (granted s a RoleDomainManager (resourceDomain r)
      /\ has_any_prefix act ["domain:"; "mailbox:"; "alias:"])
  \/ (granted s a RoleScopedDomainAccess (resourceDomain r)
      /\ has_any_prefix act ["mailbox:read"; "alias:read"; "domain:read"]).

Lemma explainOIDC_spec s a act r ex :
  explainOIDC s a act r = Some ex -> d_allow (ex_decision ex) = true <-> oidc_permitted s a act r.
Proof.
  unfold explainOIDC, oidc_permitted. intros E.
  destruct (owns_mailbox a r && (act =?s _)) eqn:E1.
  { injection E as <-. to_prop. destruct E1. cbn. tauto. }
  destruct (owns_mailbox a r && HasPrefix _ _) eqn:E2.
  { injection E as <-. to_prop. destruct E2. cbn. tauto. }
  assert (~ (owns_mailbox a r = true /\
     (act = "webmail:use" \/ HasPrefix act "mailbox:app_password." = true))) as Hm.
  { intros [Ho [->|Hp]]; rewrite Ho in *; cbn in *; [discriminate|congruence]. }
  destruct (rolesFor s a) as [roles|] eqn:Er; [|done]. cbn [mbind option_bind] in E.
  injection E as <-.
  rewrite <- !(rolesFor_spec _ _ _ _ _ Er), <- has_any_prefix_two, <- !has_any_prefix_three.
  destruct (has_role roles RoleGlobalAdmin "*"); [cbn; tauto|].
  destruct (_ || HasPrefix act "doctor:"); [cbn; tauto|].
  destruct (has_role roles RoleDomainManager _), (_ || HasPrefix act "alias:");
    destruct (has_role roles RoleScopedDomainAccess _), (_ || HasPrefix act "domain:read");
    cbn; intuition congruence.
Qed.

Lemma scope_matches_spec act r scope : scope_matches act r scope = true <->
  scope ∈ [act; act +:+ ":" +:+ ToLower (r_id r); "mailbox:" +:+ ToLower (r_id r) +:+ ":" +:+ act].
Proof.
  unfold scope_matches. rewrite !orb_true_iff, !eqs_true, !elem_of_cons, elem_of_nil. tauto.
Qed.

Lemma token_spec act r a :
  d_allow (ex_decision (match List.find (scope_matches act r) (a_scopes a) with
    | Some scope => allow "api token scope matched" ["api_token:scope:" +:+ scope]
    | None => deny "api token scope missing" ["matching_api_scope"] end)) = true
  <-> exists scope, scope ∈ a_scopes a /\ scope_matches act r scope = true.
Proof.
  destruct (List.find _ _) as [scope|] eqn:E; cbn.
  - apply find_some in E as [Hin Hm]. split; [|done]. intros _. exists scope.
    by rewrite list_elem_of_In.
  - split; [done|]. intros (scope & Hin & Hm). rewrite list_elem_of_In in Hin.
    pose proof (find_none _ _ E scope Hin). congruence.
Qed.

Lemma permitted_oidc s a act r : a_type a = "oidc_subject" ->
  permitted s a act r <-> oidc_permitted s a act r.
Proof.
  intros Ht. unfold oidc_permitted. split.
  - intros []; try congruence; tauto.
  - intros [[? ?]|[?|[?|[[? ?]|[? ?]]]]];
      [eapply permitted_mailbox|eapply permitted_global|eapply permitted_status
      |eapply permitted_manager|eapply permitted_scoped]; eassumption.
Qed.

(** Every other type of actor has one rule. *)
Lemma permitted_typed s a act r :
  a_type a <> "oidc_subject" -> permitted s a act r <->
  a_type a = "local_admin"
  \/ (a_type a = "break_glass" /\ has_any_prefix act ["bootstrap:"; "recovery:"])
  \/ (a_type a = "api_token" /\ exists scope, scope ∈ a_scopes a /\ scope_matches act r scope = true)
  \/ (a_type a = "plugin_service" /\ HasPrefix act "plugin:" = true
      /\ Contains act "grant" = false /\ Contains act "policy" = false)
  \/ (a_type a = "system" /\ has_any_prefix act ["system:"; "notification:"])
  \/ (a_type a = "scim_client" /\ has_any_prefix act ["scim:"; "mailbox:provision"]).
Proof.
  intros Ht. setoid_rewrite scope_matches_spec. split.
  - intros []; try contradiction; eauto 10.
  - intros [?|[[? ?]|[[? (scope & ? & ?)]|[[? (? & ? & ?)]|[[? ?]|[? ?]]]]]];
      [by apply permitted_admin|by apply permitted_break_glass|by eapply permitted_token
      |by apply permitted_plugin|by apply permitted_system|by apply permitted_scim].
Qed.

Lemma Decide_allow s a act r d :
  Decide s a act r = Some d -> d_allow d = true <-> permitted s a act r.
Proof.
  unfold Decide. intros (ex & E & ->)%fmap_Some. unfold Explain in E.
  destruct (decide (a_type a = "oidc_subject")) as [Ht|Ht].
  { rewrite permitted_oidc by done. rewrite Ht in E. by apply (explainOIDC_spec s a act r). }
  rewrite permitted_typed, <- !has_any_prefix_two by done.
  assert (forall t, a_type a = t <-> (a_type a =?s t) = true) as Heq by (intros; by rewrite eqs_true).
  destruct (a_type a =?s "local_admin") eqn:E1.
  { injection E as <-. cbn. apply eqs_true in E1. tauto. }
  apply eqs_false in E1.
  destruct (a_type a =?s "break_glass") eqn:E2.
  { apply eqs_true in E2. rewrite E2 in *. injection E as <-.
    destruct (_ || HasPrefix act "recovery:"); cbn; intuition congruence. }
  destruct (a_type a =?s "api_token") eqn:E3.
  { apply eqs_true in E3. injection E as <-. 
    etransitivity; [exact (token_spec act r a)|].
    rewrite E3. intuition congruence. }
  destruct (a_type a =?s "plugin_service") eqn:E4.
  { apply eqs_true in E4. rewrite E4. injection E as <-.
    destruct (HasPrefix act "plugin:"), (Contains act "grant"), (Contains act "policy"); cbn;
      intuition congruence. }
  destruct (a_type a =?s "system") eqn:E5.
  { apply eqs_true in E5. rewrite E5. injection E as <-.
    destruct (_ || HasPrefix act "notification:"); cbn; intuition congruence. }
  destruct (a_type a =?s "scim_client") eqn:E6.
  { apply eqs_true in E6. rewrite E6. injection E as <-.
    destruct (_ || HasPrefix act "mailbox:provision"); cbn; intuition congruence. }
  apply eqs_false in E2, E3, E4, E5, E6. rewrite (proj2 (eqs_false _ _) Ht) in E.
  injection E as <-. cbn. intuition congruence.
Qed.

Lemma Decide_permitted s a act r d :
  Decide s a act r = Some d -> d_allow d = true -> permitted s a act r.
Proof. intros H. apply (Decide_allow _ _ _ _ _ H). Qed.

(** [StaticAuthorizer.Decide] allows an action exactly when the actor is
    permitted it: by the rule of its type, by a scope of its token, by its own
    mailbox, or by a role it was assigned or holds through a verified group
    mapping.  No other combination of type, scope, group and role is allowed. *)
Theorem Decide_allows_iff s a act r d :
  Decide s a act r = Some d -> d_allow d = true <-> permitted s a act r.
Proof. apply Decide_allow. Qed.

(** *** Validated mappings *)

Lemma apply_mapping_total groups l out : known_keys out ->
  (forall m, m ∈ l -> known_role (rm_role m) = true) ->
  exists out', foldl (apply_mapping groups) (Some out) l = Some out'.
Proof.
  revert out. induction l as [|m l IH]; intros out H Hl; [by eexists|]. cbn [foldl].
  assert (exists out1, apply_mapping groups (Some out) m = Some out1 /\ known_keys out1)
    as (out1 & -> & H1).
  { unfold apply_mapping. cbn [mbind option_bind]. destruct (_ || _); [by eexists|].
    destruct (proj2 (H (rm_role m)) (Hl m ltac:(left))) as [domains Hd].
    rewrite Hd. cbn [mbind option_bind]. eexists. split; [done|].
    apply known_keys_insert; [done|by eexists]. }
  apply IH; [done|]. intros m' Hm'. apply Hl. by right.
Qed.

Lemma ValidateRoleMappings_known ms known :
  ValidateRoleMappings ms known = [] -> forall m, m ∈ ms -> known_role (rm_role m) = true.
Proof.
  unfold ValidateRoleMappings. intros [H _]%app_eq_nil m Hm.
  assert (mapping_problems (map ToLower known) m = []) as Hp.
  { destruct (mapping_problems (map ToLower known) m) as [|x xs] eqn:E; [done|].
    assert (In x (concat (map (mapping_problems (map ToLower known)) ms))) as Hi; [|by rewrite H in Hi].
    apply in_concat. exists (x :: xs). split; [|by left].
    rewrite <- E. apply in_map. by apply list_elem_of_In. }
  unfold mapping_problems in Hp. apply app_eq_nil in Hp as [_ Hp]. apply app_eq_nil in Hp as [Hp _].
  by destruct (known_role _).
Qed.

(** C40: Role mappings that [ValidateRoleMappings] reports no problem for never
    panic the authorizer: every decision on every actor, action and resource
    is made.  (A mapping to an unknown role does panic it.) *)
Theorem validated_mappings_decide ms known a act r :
  ValidateRoleMappings ms known = [] ->
  exists d, Decide {| sa_mappings := ms |} a act r = Some d.
Proof.
  intros H. pose proof (ValidateRoleMappings_known _ _ H) as Hk. unfold Decide, Explain.
  repeat (case_match; [by eexists|]). destruct (a_type a =?s "oidc_subject"); [|by eexists].
  unfold explainOIDC. repeat (case_match; [by eexists|]).
  destruct (apply_mapping_total (a_groups a) ms (foldl assign empty_roles (a_roles a))) as [out Hout].
  { apply assign_all_spec, empty_roles_keys. }
  { exact Hk. }
  unfold rolesFor. cbn [sa_mappings]. rewrite Hout. by eexists.
Qed.
End Permissions.
End authz.
