(* ===== verification/NotifyText.v ===== *)
(** * Bounded text of notifications (internal/notification/notification.go)

    Everything a notification or an approval stores goes through [bound],
    [boundLine] or [boundToken] first: trimmed, normalised, and cut to a byte
    budget at a rune boundary. *)

From stdpp Require Import base list strings.
From Stdlib Require Import ZArith Lia Ascii.
From S2P Require Import Prelude GoStd Json.

(** ** bound *)

(** [utf8.RuneStart(v[i])] for [i < len(v)]. *)
Definition rune_start_at (v : string) (i : nat) : bool :=
  match String.get i v with Some c => negb (cont c) | None => true end.

(** [for cut > 0 && !utf8.RuneStart(v[cut]) { cut-- }] *)
Fixpoint cut_at (v : string) (cut : nat) : nat :=
  match cut with
  | O => O
  | S k => if rune_start_at v cut then cut else cut_at v k
  end.

(** The budget [n] of the source is a positive constant at every call. *)
Definition bound (v0 : string) (n : nat) : string :=
  let v := TrimSpace v0 in
  if len v <=? n then v else
  if n =? 0 then "" else
  if n =? 1 then "." else
  String.substring 0 (cut_at v (n - 1)) v +:+ ".".

(** ** strings.Fields and strings.Map *)

Definition flush_field (acc : string) (l : list string) : list string :=
  if acc =?s "" then l else acc :: l.

(** [strings.Fields]; [acc] is the field being read. *)
Fixpoint fields_from (acc s : string) : list string :=
  match s with
  | EmptyString => flush_field acc []
  | String a s1 =>
      if space1 a then flush_field acc (fields_from "" s1) else
      match s1 with
      | EmptyString => [acc +:+ String a ""]
      | String b s2 =>
          if space2 a b then flush_field acc (fields_from "" s2) else
          match s2 with
          | String c s3 =>
              if space3 a b c then flush_field acc (fields_from "" s3)
              else fields_from (acc +:+ String a "") s1
          | EmptyString => fields_from (acc +:+ String a "") s1
          end
      end
  end.
Definition Fields (s : string) : list string := fields_from "" s.

(** [strings.Join(l, " ")] *)
Fixpoint join_spaces (l : list string) : string :=
  match l with
  | [] => ""
  | [x] => x
  | x :: l => x +:+ " " +:+ join_spaces l
  end.

Definition boundLine (v : string) (n : nat) : string := bound (join_spaces (Fields v)) n.

(** [utf8.RuneError] as it is written out. *)
Definition rune_error : string := String "239" (String "191" (String "189" "")).

(** [strings.Map] of the function that turns white space into a dash: the
    runes of the string in turn, a byte that starts none being read and
    written as U+FFFD. *)
Fixpoint dash_spaces (s : string) : string :=
  match s with
  | EmptyString => EmptyString
  | String a s1 =>
      if is_ascii_byte a then
        String (if space1 a then "-"%char else a) (dash_spaces s1)
      else match s1 with
      | String b s2 =>
          if in_range 194 223 a && cont b then
            (if space2 a b then "-" else String a (String b "")) +:+ dash_spaces s2
          else match s2 with
          | String c s3 =>
              if in_range 224 239 a && second3 a b && cont c then
                (if space3 a b c then "-" else String a (String b (String c ""))) +:+ dash_spaces s3
              else match s3 with
              | String d s4 =>
                  if in_range 240 244 a && second4 a b && cont c && cont d then
                    String a (String b (String c (String d (dash_spaces s4))))
                  else rune_error +:+ dash_spaces s1
              | EmptyString => rune_error +:+ dash_spaces s1
              end
          | EmptyString => rune_error +:+ dash_spaces s1
          end
      | EmptyString => rune_error
      end
  end.

Section Tokens.
Context `{HOST : !Host}.

Definition normalizeToken (v : string) : string := dash_spaces (ToLower (TrimSpace v)).
Definition boundToken (v : string) (n : nat) : string := bound (normalizeToken v) n.

(** approval.go *)
Definition cleanToken (v : string) (n : nat) : string := boundToken v n.
End Tokens.

(** ** What these texts are *)

(** No rune of the string is white space; every position is looked at, which
    on a valid string is no more than every rune. *)
Fixpoint has_space (s : string) : bool :=
  match s with
  | EmptyString => false
  | String a s1 =>
      space1 a
      || match s1 with
         | String b s2 => space2 a b || match s2 with String c _ => space3 a b c | _ => false end
         | EmptyString => false
         end
      || has_space s1
  end.

Lemma cut_at_le v n : cut_at v n <= n.
Proof. induction n as [|n IH]; cbn [cut_at]; [lia|]. destruct (rune_start_at v (S n)); lia. Qed.

Lemma len_substring_le v n m : len (String.substring m n v) <= n.
Proof.
  revert n m. induction v as [|c v IH]; intros n m; [destruct n, m; cbn; lia|].
  destruct m, n; cbn [String.substring len]; [lia|..]; cbn.
  - specialize (IH n 0). lia.
  - apply (IH 0 m).
  - apply (IH (S n) m).
Qed.

Lemma bound_le v n : len (bound v n) <= n.
Proof.
  unfold bound. destruct (len (TrimSpace v) <=? n) eqn:E1; [by apply Nat.leb_le|].
  destruct (n =? 0) eqn:E2; [cbn; lia|]. destruct (n =? 1) eqn:E3; [to_prop; subst; cbn; lia|].
  to_prop. rewrite len_app. cbn [len]. pose proof (cut_at_le (TrimSpace v) (n - 1)).
  pose proof (len_substring_le (TrimSpace v) (cut_at (TrimSpace v) (n - 1)) 0). lia.
Qed.

(** *** White space and trimming *)

Lemma has_space_app_r p s : has_space (p +:+ s) = false -> has_space s = false.
Proof.
  induction p as [|c p IH]; [done|]. rewrite app_cons. cbn [has_space].
  intros H. apply orb_false_iff in H as [_ H]. by apply IH.
Qed.

Lemma has_space_starts s : has_space s = false -> starts_space s = false.
Proof.
  destruct s as [|a [|b [|c s]]]; [done|..]; cbn [has_space starts_space]; intros H;
    rewrite !orb_false_iff in *; tauto.
Qed.

Lemma has_space_ends s : has_space s = false -> ends_space_rev (String.rev s) = false.
Proof.
  rewrite <- (rev_involutive_s s) at 1. destruct (String.rev s) as [|c r]; [done|].
  intros H. assert (forall t p, String.rev (String c r) = t +:+ p -> has_space p = false) as Hs.
  { intros t p E. apply (has_space_app_r t). by rewrite <- E. }
  clear H. rewrite rev_cons_s in Hs. destruct r as [|b [|a r]].
  - specialize (Hs "" (String c "") eq_refl). cbn in *. by rewrite !orb_false_r in *.
  - specialize (Hs "" (String b (String c "")) eq_refl).
    cbn [has_space ends_space_rev] in *. rewrite !orb_false_iff in *. tauto.
  - specialize (Hs (String.rev r) (String a (String b (String c "")))).
    rewrite !rev_cons_s, <- !app_assoc_s in Hs. specialize (Hs eq_refl).
    cbn [has_space ends_space_rev] in *. rewrite !orb_false_iff in *. tauto.
Qed.

Lemma has_space_trim s : has_space s = false -> TrimSpace s = s.
Proof. intros H. apply TrimSpace_id; [by apply has_space_starts|by apply has_space_ends]. Qed.

(** *** Lead and continuation bytes *)

Ltac byte_ranges := unfold space1, space2, space3, cont, is_ascii_byte, in_range in *;
  to_prop.

Lemma has_space_cont b s : cont b = true -> has_space (String b s) = has_space s.
Proof.
  intros Hb. cbn [has_space].
  assert (space1 b = false) as -> by (byte_ranges; lia).
  assert (forall c, space2 b c = false) as H2 by (intros c; byte_ranges; lia).
  assert (forall c d, space3 b c d = false) as H3 by (intros c d; byte_ranges; lia).
  destruct s as [|c [|d s]]; [done|..]; by rewrite ?H2, ?H3.
Qed.

Lemma has_space_lead4 a s : in_range 240 244 a = true -> has_space (String a s) = has_space s.
Proof.
  intros Ha. cbn [has_space].
  assert (space1 a = false) as -> by (byte_ranges; lia).
  assert (forall c, space2 a c = false) as H2 by (intros c; byte_ranges; lia).
  assert (forall c d, space3 a c d = false) as H3 by (intros c d; byte_ranges; lia).
  destruct s as [|c [|d s]]; [done|..]; by rewrite ?H2, ?H3.
Qed.

Lemma has_space_lead3 a b c s : in_range 224 239 a = true ->
  has_space (String a (String b (String c s))) = space3 a b c || has_space (String b (String c s)).
Proof.
  intros Ha. cbn [has_space].
  assert (space1 a = false) as -> by (byte_ranges; lia).
  assert (space2 a b = false) as -> by (byte_ranges; lia). done.
Qed.

Lemma has_space_lead2 a b s : in_range 194 223 a = true ->
  has_space (String a (String b s)) = space2 a b || has_space (String b s).
Proof.
  intros Ha. cbn [has_space].
  assert (space1 a = false) as -> by (byte_ranges; lia).
  destruct s as [|c s]; [by rewrite orb_false_r|].
  assert (space3 a b c = false) as -> by (byte_ranges; lia). by rewrite orb_false_r.
Qed.

Lemma second3_cont a b : second3 a b = true -> cont b = true.
Proof. unfold second3. destruct (byte_val a =? 224)%N, (byte_val a =? 237)%N; byte_ranges; lia. Qed.
Lemma second4_cont a b : second4 a b = true -> cont b = true.
Proof. unfold second4. destruct (byte_val a =? 240)%N, (byte_val a =? 244)%N; byte_ranges; lia. Qed.

Lemma lead_range a :
  (in_range 194 223 a = true -> is_ascii_byte a = false)
  /\ (in_range 224 239 a = true -> is_ascii_byte a = false /\ in_range 194 223 a = false)
  /\ (in_range 240 244 a = true ->
      is_ascii_byte a = false /\ in_range 194 223 a = false /\ in_range 224 239 a = false).
Proof. byte_ranges. lia. Qed.

Lemma has_space_ascii a s : is_ascii_byte a = true ->
  has_space (String a s) = space1 a || has_space s.
Proof.
  intros Ha. cbn [has_space].
  assert (forall c, space2 a c = false) as H2 by (intros c; byte_ranges; lia).
  assert (forall c d, space3 a c d = false) as H3 by (intros c d; byte_ranges; lia).
  destruct s as [|c [|d s]]; rewrite ?H2, ?H3; cbn [orb]; by rewrite ?orb_false_r.
Qed.

(** *** The output of strings.Map *)

(** Valid UTF-8 without white space, whatever the input. *)
Definition clean_text (s : string) : Prop := ValidString s = true /\ has_space s = false.

Lemma clean_dash s : clean_text s -> clean_text (String "-" s).
Proof. intros [Hv Hs]. split; [done|]. by rewrite has_space_ascii. Qed.

Lemma clean_error s : clean_text s -> clean_text (rune_error +:+ s).
Proof.
  intros [Hv Hs]. unfold rune_error. rewrite !app_cons. change ("" +:+ s) with s. split; [done|].
  rewrite has_space_lead3, !has_space_cont by done. cbn. done.
Qed.

Lemma clean_dash_spaces s : clean_text (dash_spaces s).
Proof.
  remember (len s) as n eqn:Hn. revert s Hn.
  induction n as [n IHn] using lt_wf_ind; intros s ->.
  assert (forall s', len s' < len s -> clean_text (dash_spaces s')) as IH
    by (intros s' Hl; by eapply IHn).
  clear IHn. destruct s as [|a s1]; [done|]. cbn [dash_spaces].
  assert (clean_text (dash_spaces s1)) as H1 by (apply IH; cbn; lia).
  destruct (is_ascii_byte a) eqn:Ea.
  { destruct (space1 a) eqn:E1; [by apply clean_dash|]. destruct H1 as [Hv Hs].
    split; [cbn; by rewrite Ea|]. by rewrite has_space_ascii, E1. }
  destruct s1 as [|b s2]; [done|].
  destruct (in_range 194 223 a && cont b) eqn:E2.
  { assert (clean_text (dash_spaces s2)) as [Hv Hs] by (apply IH; cbn; lia).
    to_prop. destruct E2 as [Hl Hb]. destruct (space2 a b) eqn:Es; [by apply clean_dash|].
    rewrite !app_cons. split; [cbn; by rewrite Ea, Hl, Hb|].
    by rewrite has_space_lead2, Es, has_space_cont. }
  destruct s2 as [|c s3]; [by apply clean_error|].
  destruct (in_range 224 239 a && second3 a b && cont c) eqn:E3.
  { assert (clean_text (dash_spaces s3)) as [Hv Hs] by (apply IH; cbn; lia).
    to_prop. destruct E3 as [[Hl Hb] Hc]. destruct (space3 a b c) eqn:Es; [by apply clean_dash|].
    destruct (lead_range a) as (_ & Hr & _). destruct (Hr Hl) as [_ Hn2].
    rewrite !app_cons. split; [cbn; by rewrite Ea, Hn2, Hl, Hb, Hc|].
    rewrite has_space_lead3, Es, !has_space_cont by eauto using second3_cont. done. }
  destruct s3 as [|d s4]; [by apply clean_error|].
  destruct (in_range 240 244 a && second4 a b && cont c && cont d) eqn:E4; [|by apply clean_error].
  assert (clean_text (dash_spaces s4)) as [Hv Hs] by (apply IH; cbn; lia).
  to_prop. destruct E4 as [[[Hl Hb] Hc] Hd]. destruct (lead_range a) as (_ & _ & Hr).
  destruct (Hr Hl) as (_ & Hn2 & Hn3). split; [cbn; by rewrite Ea, Hn2, Hn3, Hl, Hb, Hc, Hd|].
  rewrite has_space_lead4, !has_space_cont by eauto using second4_cont. done.
Qed.

(** *** Cutting at a rune boundary *)

Lemma substring_valid v : ValidString v = true -> forall i,
  i < len v -> rune_start_at v i = true -> ValidString (String.substring 0 i v) = true.
Proof.
  revert v. apply (valid_string_ind (fun v => forall i, i < len v -> rune_start_at v i = true ->
    ValidString (String.substring 0 i v) = true)); unfold rune_start_at.
  - intros i Hi. cbn in Hi. lia.
  - intros a v Ha IH i Hi Hs. destruct i as [|i]; [done|]. cbn in Hi. cbn. rewrite Ha.
    apply IH; [lia|done].
  - intros a b v Ha H IH i Hi Hs. apply andb_true_iff in H as [H2 Hb].
    destruct i as [|[|i]]; [done|cbn in Hs; by rewrite Hb in Hs|].
    cbn in Hi. cbn. rewrite Ha, H2, Hb. apply IH; [lia|done].
  - intros a b c v Ha H2 H IH i Hi Hs. apply andb_true_iff in H as [[H3 Hb]%andb_true_iff Hc].
    apply second3_cont in Hb as Hb'.
    destruct i as [|[|[|i]]]; [done|cbn in Hs; by rewrite ?Hb', ?Hc in Hs..|].
    cbn in Hi. cbn. rewrite Ha, H2, H3, Hb, Hc. apply IH; [lia|done].
  - intros a b c d v Ha H2 H3 H IH i Hi Hs.
    apply andb_true_iff in H as [[[H4 Hb]%andb_true_iff Hc]%andb_true_iff Hd].
    apply second4_cont in Hb as Hb'.
    destruct i as [|[|[|[|i]]]]; [done|cbn in Hs; by rewrite ?Hb', ?Hc, ?Hd in Hs..|].
    cbn in Hi. cbn. rewrite Ha, H2, H3, H4, Hb, Hc, Hd. apply IH; [lia|done].
Qed.

Lemma cut_at_start v n : rune_start_at v (cut_at v n) = true \/ cut_at v n = 0.
Proof.
  induction n as [|n IH]; cbn [cut_at]; [by right|].
  destruct (rune_start_at v (S n)) eqn:E; [by left|done].
Qed.

Lemma has_space_substring v : forall i, has_space v = false -> has_space (String.substring 0 i v) = false.
Proof.
  induction v as [|a v IH]; intros [|i] H; [done..|]. cbn [String.substring].
  cbn [has_space] in *. rewrite !orb_false_iff in *. destruct H as [[H1 H2] Hv].
  split_and!; [done| |by apply IH]. destruct v as [|b [|c v]], i as [|[|i]]; cbn in *; try done;
    rewrite ?orb_false_iff in *; tauto.
Qed.

Lemma has_space_app_plain v c : has_space v = false -> is_ascii_byte c = true -> space1 c = false ->
  has_space (v +:+ String c "") = false.
Proof.
  intros H Hc Hs.
  assert (forall a, space2 a c = false) as H2 by (intros a; byte_ranges; lia).
  assert (forall a b, space3 a b c = false) as H3 by (intros a b; byte_ranges; lia).
  induction v as [|a v IH].
  { change ("" +:+ String c "") with (String c ""). cbn [has_space]. by rewrite Hs. }
  rewrite app_cons.
  cbn [has_space] in *. rewrite !orb_false_iff in *. destruct H as [[H1 H'] Hv].
  split_and!; [done| |by apply IH].
  destruct v as [|b [|d v]]; rewrite ?app_cons; try change ("" +:+ String c "") with (String c "");
    cbn -[space1 space2 space3] in H' |- *.
  - by rewrite H2.
  - rewrite H3. by rewrite orb_false_r in *.
  - exact H'.
Qed.

Lemma ValidString_suffix s t : ValidString s = true -> ValidString (s +:+ t) = ValidString t.
Proof.
  revert s. apply valid_string_ind; [done|..].
  - intros a v Ha IH. rewrite app_cons. cbn [ValidString]. by rewrite Ha.
  - intros a b v Ha [H2 Hb]%andb_true_iff IH. rewrite !app_cons. cbn [ValidString].
    by rewrite Ha, H2, Hb.
  - intros a b c v Ha H2 H IH. apply andb_true_iff in H as [[H3 Hb]%andb_true_iff Hc].
    rewrite !app_cons. cbn [ValidString]. by rewrite Ha, H2, H3, Hb, Hc.
  - intros a b c d v Ha H2 H3 H IH.
    apply andb_true_iff in H as [[[H4 Hb]%andb_true_iff Hc]%andb_true_iff Hd].
    rewrite !app_cons. cbn [ValidString]. by rewrite Ha, H2, H3, H4, Hb, Hc, Hd.
Qed.

Lemma bound_clean v n : clean_text v -> clean_text (bound v n).
Proof.
  intros [Hv Hs]. unfold bound. rewrite has_space_trim by done.
  destruct (len v <=? n) eqn:E; [done|]. destruct (n =? 0); [done|]. destruct (n =? 1); [done|].
  to_prop. assert (ValidString (String.substring 0 (cut_at v (n - 1)) v) = true) as Hc.
  { destruct (cut_at_start v (n - 1)) as [Hr| ->]; [|by destruct v].
    apply substring_valid; [done| |done]. pose proof (cut_at_le v (n - 1)). lia. }
  split; [by rewrite ValidString_suffix|].
  apply has_space_app_plain; [by apply has_space_substring|done|done].
Qed.

Section TokenFacts.
Context `{HOST : !Host}.

(** Whatever the input, a token an approval stores or compares
    is valid UTF-8, contains no white space and is at most [n] bytes long:
    cutting never leaves half a rune behind. *)
Theorem cleanToken_text v n :
  ValidString (cleanToken v n) = true /\ has_space (cleanToken v n) = false
  /\ len (cleanToken v n) <= n.
Proof.
  unfold cleanToken, boundToken.
  destruct (bound_clean (normalizeToken v) n (clean_dash_spaces _)) as [Hv Hs].
  split_and!; [done|done|apply bound_le].
Qed.
(** *** Texts that are tokens already *)

(** Printable ASCII without capital letters. *)
Definition token_text (s : string) : bool :=
  forall_bytes (fun c => plain_byte c && negb (in_range 65 90 c)) s.

Lemma dash_spaces_plain s : forall_bytes plain_byte s = true -> dash_spaces s = s.
Proof.
  induction s as [|a s IH]; [done|]. cbn [forall_bytes dash_spaces]. intros [Ha Hs]%andb_true_iff.
  assert (is_ascii_byte a = true) as -> by (unfold plain_byte in Ha; byte_ranges; lia).
  assert (space1 a = false) as -> by (unfold plain_byte in Ha; byte_ranges; lia).
  by rewrite IH.
Qed.

Lemma cleanToken_id s n : token_text s = true -> len s <= n -> cleanToken s n = s.
Proof.
  intros H Hn. assert (forall_bytes plain_byte s = true) as Hp.
  { revert H. apply forall_bytes_impl. intros c Hc. by apply andb_true_iff in Hc as [Hc _]. }
  unfold cleanToken, boundToken, normalizeToken, bound. rewrite (TrimSpace_plain s) by done.
  assert (ToLower s = s) as ->.
  { unfold ToLower. assert (is_ascii s = true) as ->.
    { unfold is_ascii. revert Hp. apply forall_bytes_impl. intros c Hc. unfold plain_byte in Hc. byte_ranges. lia. }
    clear Hp Hn. induction s as [|c s IH]; [done|]. cbn [token_text forall_bytes map_bytes] in *.
    apply andb_true_iff in H as [[_ Hc]%andb_true_iff Hs]. rewrite IH by done.
    unfold lower_byte. apply negb_true_iff in Hc. by rewrite Hc. }
  rewrite dash_spaces_plain, (TrimSpace_plain s) by done.
  by rewrite (proj2 (Nat.leb_le _ _) Hn).
Qed.
End TokenFacts.
