(* ===== verification/Regex.v ===== *)
(** * Regular expressions (package regexp)

    What [MatchString] decides of the patterns the source compiles: a pattern
    is a regular expression over runes, matched by derivatives.  The matcher is
    proved to decide the language of the expression.  [runes] reads a string as
    Go ranges over it; a byte that starts no rune is U+FFFD. *)

From stdpp Require Import base list strings.
From Stdlib Require Import ZArith Lia Ascii.
From S2P Require Import Prelude GoStd.

(** ** Runes *)

Definition rune2 (a b : ascii) : N := ((byte_val a - 192) * 64 + (byte_val b - 128))%N.
Definition rune3 (a b c : ascii) : N :=
  ((byte_val a - 224) * 4096 + (byte_val b - 128) * 64 + (byte_val c - 128))%N.
Definition rune4 (a b c d : ascii) : N :=
  ((byte_val a - 240) * 262144 + (byte_val b - 128) * 4096 + (byte_val c - 128) * 64
   + (byte_val d - 128))%N.
Definition RuneError : N := 65533.

Fixpoint runes (s : string) : list N :=
  match s with
  | EmptyString => []
  | String a s1 =>
      if is_ascii_byte a then byte_val a :: runes s1 else
      match s1 with
      | String b s2 =>
          if in_range 194 223 a && cont b then rune2 a b :: runes s2 else
          match s2 with
          | String c s3 =>
              if in_range 224 239 a && second3 a b && cont c then rune3 a b c :: runes s3 else
              match s3 with
              | String d s4 =>
                  if in_range 240 244 a && second4 a b && cont c && cont d
                  then rune4 a b c d :: runes s4 else RuneError :: runes s1
              | EmptyString => RuneError :: runes s1
              end
          | EmptyString => RuneError :: runes s1
          end
      | EmptyString => [RuneError]
      end
  end.

(** [unicode.IsSpace] *)
Definition IsSpace (r : N) : bool :=
  ((9 <=? r) && (r <=? 13))%N
  || existsb (N.eqb r) [32; 133; 160; 5760; 8232; 8233; 8239; 8287; 12288]%N
  || ((8192 <=? r) && (r <=? 8202))%N.

(** ** Expressions *)

(** A class is a list of ranges, or what lies outside of it. *)
Inductive regex :=
| Never
| Empty
| Class (negated : bool) (ranges : list (N * N))
| Cat (r s : regex)
| Alt (r s : regex)
| Star (r : regex).

#[export] Instance regex_eq_dec : EqDecision regex.
Proof. solve_decision. Defined.

Definition in_class (negated : bool) (ranges : list (N * N)) (c : N) : bool :=
  xorb negated (existsb (fun p => (p.1 <=? c) && (c <=? p.2))%N ranges).

(** The texts of an expression. *)
Inductive lang : regex -> list N -> Prop :=
| lang_empty : lang Empty []
| lang_class negated ranges c : in_class negated ranges c = true -> lang (Class negated ranges) [c]
| lang_cat r s u v : lang r u -> lang s v -> lang (Cat r s) (u ++ v)
| lang_alt_l r s u : lang r u -> lang (Alt r s) u
| lang_alt_r r s u : lang s u -> lang (Alt r s) u
| lang_star_nil r : lang (Star r) []
| lang_star_app r u v : lang r u -> lang (Star r) v -> lang (Star r) (u ++ v).

Fixpoint nullable (r : regex) : bool :=
  match r with
  | Never | Class _ _ => false
  | Empty | Star _ => true
  | Cat r s => nullable r && nullable s
  | Alt r s => nullable r || nullable s
  end.

(** Constructors that drop what cannot match. *)
Definition cat (r s : regex) : regex :=
  match r, s with
  | Never, _ | _, Never => Never
  | Empty, _ => s
  | _, _ => Cat r s
  end.
Definition alt (r s : regex) : regex :=
  match r, s with
  | Never, _ => s
  | _, Never => r
  | _, _ => if decide (r = s) then r else Alt r s
  end.

Fixpoint deriv (c : N) (r : regex) : regex :=
  match r with
  | Never | Empty => Never
  | Class negated ranges => if in_class negated ranges c then Empty else Never
  | Cat r s =>
      if nullable r then alt (cat (deriv c r) s) (deriv c s) else cat (deriv c r) s
  | Alt r s => alt (deriv c r) (deriv c s)
  | Star r => cat (deriv c r) (Star r)
  end.

(** The whole text matches; some prefix of it does; some part of it does. *)
Fixpoint full_match (r : regex) (s : list N) : bool :=
  match s with
  | [] => nullable r
  | c :: s => full_match (deriv c r) s
  end.
Fixpoint prefix_match (r : regex) (s : list N) : bool :=
  nullable r || match s with [] => false | c :: s => prefix_match (deriv c r) s end.
Definition any : regex := Class true [].
Definition find_match (r : regex) (s : list N) : bool := prefix_match (cat (Star any) r) s.

(** ** The matcher decides the language *)

Lemma lang_never u : ~ lang Never u.
Proof. by inversion 1. Qed.

Lemma lang_cat_iff r s u : lang (Cat r s) u <-> exists v w, u = v ++ w /\ lang r v /\ lang s w.
Proof.
  split.
  - inversion 1; subst. by eexists _, _.
  - intros (v & w & -> & ? & ?). by constructor.
Qed.

Lemma lang_alt_iff r s u : lang (Alt r s) u <-> lang r u \/ lang s u.
Proof. split; [inversion 1; tauto|intros [?|?]; by constructor]. Qed.

Lemma lang_cat_smart r s u : lang (cat r s) u <-> lang (Cat r s) u.
Proof.
  assert (forall r, (exists v w, u = v ++ w /\ lang Never v /\ lang r w) <-> False) as H1.
  { intros r'. split; [|done]. intros (v & w & _ & H & _). by apply lang_never in H. }
  assert (forall r, (exists v w, u = v ++ w /\ lang r v /\ lang Never w) <-> False) as H2.
  { intros r'. split; [|done]. intros (v & w & _ & _ & H). by apply lang_never in H. }
  assert (forall s, (exists v w, u = v ++ w /\ lang Empty v /\ lang s w) <-> lang s u) as H3.
  { intros s'. split.
    - intros (v & w & -> & H & Hw). by inversion H; subst.
    - intros H. exists [], u. split_and!; [done|constructor|done]. }
  rewrite lang_cat_iff. destruct r, s; cbn [cat]; rewrite ?H1, ?H2, ?H3, ?lang_cat_iff; try done;
    split; try done; apply lang_never.
Qed.

Lemma lang_alt_smart r s u : lang (alt r s) u <-> lang (Alt r s) u.
Proof.
  rewrite lang_alt_iff. pose proof (lang_never u).
  assert (lang (if decide (r = s) then r else Alt r s) u <-> lang r u \/ lang s u) as Hd.
  { case_decide as E; [subst; tauto|apply lang_alt_iff]. }
  destruct r, s; cbn [alt]; try exact Hd; tauto.
Qed.

Lemma nullable_spec r : nullable r = true <-> lang r [].
Proof.
  induction r as [| | |r IHr s IHs|r IHr s IHs|r IHr]; cbn [nullable].
  - split; [done|by inversion 1].
  - split; [constructor|done].
  - split; [done|by inversion 1].
  - rewrite andb_true_iff, IHr, IHs, lang_cat_iff. split.
    + intros [? ?]. by exists [], [].
    + intros (v & w & E & ? & ?). symmetry in E. apply app_eq_nil in E as [-> ->]. done.
  - rewrite orb_true_iff, IHr, IHs. symmetry. apply lang_alt_iff.
  - split; [constructor|done].
Qed.

(** A non-empty text of a star starts with a non-empty text of its body. *)
Lemma lang_star_cons r c u : lang (Star r) (c :: u) ->
  exists v w, u = v ++ w /\ lang r (c :: v) /\ lang (Star r) w.
Proof.
  remember (Star r) as e eqn:He. remember (c :: u) as t eqn:Ht. intros H.
  induction H as [| | | | | |r' v w Hv _ Hw IH]; try discriminate.
  injection He as ->. destruct v as [|c' v]; [by apply IH|].
  injection Ht as -> <-. exists v, w. split_and!; [done|done|]. exact Hw.
Qed.

Lemma deriv_spec c r u : lang (deriv c r) u <-> lang r (c :: u).
Proof.
  revert u. induction r as [| |negated ranges|r IHr s IHs|r IHr s IHs|r IHr]; intros u; cbn [deriv].
  - split; by inversion 1.
  - split; by inversion 1.
  - destruct (in_class negated ranges c) eqn:E; split; inversion 1; subst.
    + by constructor.
    + constructor.
    + congruence.
  - assert (lang (cat (deriv c r) s) u <-> exists v w, u = v ++ w /\ lang r (c :: v) /\ lang s w) as H1.
    { rewrite lang_cat_smart, lang_cat_iff. by setoid_rewrite IHr. }
    assert (lang (Cat r s) (c :: u) <-> (exists v w, u = v ++ w /\ lang r (c :: v) /\ lang s w)
      \/ (lang r [] /\ lang s (c :: u))) as H2.
    { rewrite lang_cat_iff. split.
      - intros ([|c' v] & w & E & Hv & Hw); [right; by rewrite E|].
        injection E as -> ->. left. by exists v, w.
      - intros [(v & w & -> & Hv & Hw)|[Hv Hw]]; [by exists (c :: v), w|by exists [], (c :: u)]. }
    rewrite H2. destruct (nullable r) eqn:En.
    + apply nullable_spec in En. rewrite lang_alt_smart, lang_alt_iff, H1, IHs. tauto.
    + rewrite H1. rewrite <- nullable_spec. rewrite En. naive_solver.
  - rewrite lang_alt_smart, !lang_alt_iff, IHr, IHs. done.
  - rewrite lang_cat_smart, lang_cat_iff. setoid_rewrite IHr. split.
    + intros (v & w & -> & Hv & Hw). change (c :: v ++ w) with ((c :: v) ++ w). by constructor.
    + apply lang_star_cons.
Qed.

Lemma full_match_spec s : forall r, full_match r s = true <-> lang r s.
Proof.
  induction s as [|c s IH]; intros r; cbn [full_match]; [apply nullable_spec|].
  rewrite IH. apply deriv_spec.
Qed.

Lemma prefix_match_spec s : forall r,
  prefix_match r s = true <-> exists u v, s = u ++ v /\ lang r u.
Proof.
  induction s as [|c s IH]; intros r; cbn [prefix_match]; rewrite orb_true_iff, nullable_spec.
  - split; [intros [H|]; [by exists [], []|done]|].
    intros (u & v & E & H). symmetry in E. apply app_eq_nil in E as [-> ->]. by left.
  - rewrite IH. setoid_rewrite deriv_spec. split.
    + intros [H|(u & v & -> & H)]; [by exists [], (c :: s)|by exists (c :: u), v].
    + intros ([|c' u] & v & E & H); [by left|]. injection E as -> ->. right. by exists u, v.
Qed.

Lemma lang_any_star u : lang (Star any) u.
Proof.
  induction u as [|c u IH]; [constructor|]. change (c :: u) with ([c] ++ u).
  constructor; [|done]. by constructor.
Qed.

(** The matcher decides regular expressions: [find_match] is true exactly
    when some part of the text, anywhere in it, is a text of the expression. *)
Lemma find_match_ok r s :
  find_match r s = true <-> exists p u q, s = p ++ u ++ q /\ lang r u.
Proof.
  unfold find_match. rewrite prefix_match_spec. setoid_rewrite lang_cat_smart.
  setoid_rewrite lang_cat_iff. split.
  - intros (t & q & -> & p & u & -> & _ & H). exists p, u, q. by rewrite <- app_assoc.
  - intros (p & u & q & -> & H). exists (p ++ u), q. split; [by rewrite <- app_assoc|].
    exists p, u. split_and!; [done|apply lang_any_star|done].
Qed.

(** ** Pattern syntax under (?i) *)

(** A letter matches both its cases, and the two runes outside ASCII that fold
    to a letter: U+017F to S and U+212A to K. *)
Definition fold_ranges (c : N) : list (N * N) :=
  if (97 <=? c)%N && (c <=? 122)%N then
    [(c, c); (c - 32, c - 32)]%N
    ++ (if (c =? 115)%N then [(383, 383)%N] else []) ++ (if (c =? 107)%N then [(8490, 8490)%N] else [])
  else [(c, c)].
Fixpoint ilit (s : string) : regex :=
  match s with
  | EmptyString => Empty
  | String a s => cat (Class false (fold_ranges (byte_val a))) (ilit s)
  end.

Definition letters : list (N * N) := [(65, 90); (97, 122)]%N.
Definition digits : list (N * N) := [(48, 57)]%N.
(** [[A-Z]] under (?i) *)
Definition iletters : list (N * N) := letters ++ [(383, 383); (8490, 8490)]%N.
Definition char_range (a : ascii) : N * N := (byte_val a, byte_val a).
Definition chars (l : list ascii) : list (N * N) := map char_range l.
Definition set (ranges : list (N * N)) : regex := Class false ranges.
Definition outside (ranges : list (N * N)) : regex := Class true ranges.
Definition opt (r : regex) : regex := Alt Empty r.
Definition plus (r : regex) : regex := cat r (Star r).
Fixpoint alts (l : list regex) : regex :=
  match l with [] => Never | [r] => r | r :: l => Alt r (alts l) end.
Fixpoint cats (l : list regex) : regex :=
  match l with [] => Empty | [r] => r | r :: l => cat r (cats l) end.
(** [r{n}] *)
Fixpoint repeat_re (n : nat) (r : regex) : regex :=
  match n with O => Empty | S n => cat r (repeat_re n r) end.
(** [\s] *)
Definition perl_space : list (N * N) := [(9, 10); (12, 13); (32, 32)]%N.
