(* ===== verification/Notification.v ===== *)
(** * Alerts (internal/notification/notification.go)

    An alert is sanitised before it is recorded or sent: identifiers that name
    a secret are refused, free text with a secret marker is replaced, and
    everything is cut to a byte budget.  What a backend reports about a
    delivery is reduced to a narrow grammar. *)

From stdpp Require Import base list gmap sets strings sorting.
From Stdlib Require Import ZArith Lia Ascii.
From S2P Require Import Prelude GoStd Json JsonStruct Policy AuditLog Database Lookup NotifyText Regex.

(** ** Secret markers *)

Definition privateKeyMarker : regex :=
  cats [ilit "-----begin "; Star (set (iletters ++ digits ++ chars [" "%char])); ilit "private key";
        opt (ilit " block"); ilit "-----"].

Definition secret_word : regex := alts [ilit "password"; ilit "token"; ilit "secret"].
Definition word_sep : regex := set (chars ["_"; "."; "-"]%char).
(** Words joined by separators, the last of them a secret word. *)
Definition compound_secret : regex :=
  let word := plus (set (iletters ++ digits)) in
  cats [word; Star (cat word_sep word); word_sep; secret_word].
Definition quote_opt : regex := opt (set (chars ["034"%char])).

(** The assignment after [(?:^|[^A-Z0-9_])]. *)
Definition secretAssignment : regex :=
  let gap := Star (set (chars [" "; "_"; "-"]%char)) in
  cats [quote_opt;
        alts [secret_word; ilit "authorization"; ilit "apikey"; cats [ilit "api"; gap; ilit "key"];
              cats [ilit "private"; gap; ilit "key"]; compound_secret];
        quote_opt; Star (set perl_space); set (chars ["="; ":"]%char)].

(** The value after [\b]. *)
Definition bearerValue : regex :=
  cats [ilit "bearer"; plus (set perl_space); plus (outside perl_space)].

Definition secretKey : regex :=
  let gap := opt (set (chars ["_"; "-"]%char)) in
  cats [quote_opt;
        alts [secret_word; ilit "authorization"; ilit "apikey"; cats [ilit "api"; gap; ilit "key"];
              cats [ilit "private"; gap; ilit "key"]; compound_secret];
        quote_opt].

(** A match at the start of the text, or after a rune outside of a class. *)
Definition match_after (before : list (N * N)) (r : regex) (s : list N) : bool :=
  prefix_match r s || find_match (cat (outside before) r) s.

Definition assignment_boundary : list (N * N) := iletters ++ digits ++ chars ["_"%char].
Definition ascii_word : list (N * N) := letters ++ digits ++ chars ["_"%char].

(** normalizeSecretWhitespace: the runes it leaves. *)
Definition normalizeSecretWhitespace (v : string) : list N :=
  map (fun r => if IsSpace r then 32%N else r) (runes v).

Definition hasSecretMarker (v : string) : bool :=
  let scan := normalizeSecretWhitespace v in
  find_match privateKeyMarker scan
  || match_after assignment_boundary secretAssignment scan
  || match_after ascii_word bearerValue scan.

Definition redacted_mark : string := "[REDACTED]".
Definition redact (v : string) : string := if hasSecretMarker v then redacted_mark else v.

(** ** Delivery evidence *)

Definition alnum : list (N * N) := letters ++ digits.
Definition deliveryReason : regex :=
  plus (set (alnum ++ chars ["."; "_"; ":"; "@"; ";"; "="; "<"; ">"; "-"]%char)).
Definition evidenceTransport : regex :=
  cat (set letters) (Star (set (alnum ++ chars ["."; "_"; "-"]%char))).
Definition positive : regex := cat (set [(49, 57)%N]) (Star (set digits)).
Definition evidenceMessageID : regex :=
  alts [cats [ilit "<"; set alnum; Star (set (alnum ++ chars ["."; "_"; "+"; "/"; "-"]%char)); ilit "@";
              set alnum; Star (set (alnum ++ chars ["."; "-"]%char)); ilit ">"];
        cats [cats (map (fun a => set [char_range a]) ["t"; "e"; "l"; "e"; "g"; "r"; "a"; "m"; ":"]%char);
              opt (ilit "-"); positive; ilit ":"; positive]].
Definition hex_any : regex := set ([(65, 70); (97, 102)]%N ++ digits).
Definition evidenceFingerprint : regex := alts [repeat_re 40 hex_any; repeat_re 64 hex_any].
Definition evidenceIdentityID : regex :=
  cat (set alnum) (Star (set (alnum ++ chars ["."; "_"; ":"; "@"; "+"; "/"; "-"]%char))).
Definition evidenceClass : regex := evidenceTransport.
Definition evidencePolicyVersion : regex :=
  cat (set alnum) (Star (set (alnum ++ chars ["."; "_"; "-"]%char))).
Definition evidenceStateRef : regex :=
  cat (set letters) (Star (set (alnum ++ chars ["."; "_"; ":"; "+"; "/"; "-"]%char))).
Definition evidenceVerification : regex := evidenceTransport.
Definition evidenceWorkflow : regex := evidenceTransport.

Record DeliveryEvidence := {
  de_transport : string; de_message_id : string; de_generated_at : Z; de_from : string;
  de_sender : string; de_signing_fingerprint : string; de_sender_identity_id : string;
  de_sender_identity_class : string; de_policy_version : string; de_identity_state_ref : string;
  de_verification_result : string; de_workflow : string;
}.
Definition empty_evidence : DeliveryEvidence :=
  {| de_transport := ""; de_message_id := ""; de_generated_at := 0; de_from := ""; de_sender := "";
     de_signing_fingerprint := ""; de_sender_identity_id := ""; de_sender_identity_class := "";
     de_policy_version := ""; de_identity_state_ref := ""; de_verification_result := "";
     de_workflow := "" |}.

Definition SanitizeDeliveryReason (v0 : string) : string :=
  let v := TrimSpace v0 in
  if v =?s "" then "" else
  if (redact v <>?s v) || (256 <? len v) || negb (ValidString v) || negb (full_match deliveryReason (runes v))
  then "delivery_reason_redacted" else v.

Section Evidence.
Context `{HOST : !Host}.

Definition hasSecretIdentifier (v : string) : bool :=
  hasSecretMarker v || full_match secretKey (runes (normalizeToken v)).

Definition safeEvidencePattern (v0 : string) (n : nat) (pattern : regex) : string :=
  let v := TrimSpace v0 in
  if (v =?s "") || (n <? len v) || negb (ValidString v) || hasSecretIdentifier v
     || negb (full_match pattern (runes v))
  then "" else v.

Definition safeEvidenceAddress (v0 : string) : string :=
  let v := TrimSpace v0 in
  if v =?s "" then "" else
  if (320 <? len v) || negb (ValidString v) || hasSecretIdentifier v
     || negb (forall_bytes (fun c => negb ((byte_val c =? 13)%N || (byte_val c =? 10)%N)) v)
  then "" else
  if ParseAddressExact v then v else "".

Definition SanitizeDeliveryEvidence (e : DeliveryEvidence) : DeliveryEvidence :=
  {| de_transport := safeEvidencePattern (de_transport e) 32 evidenceTransport;
     de_message_id := safeEvidencePattern (de_message_id e) 255 evidenceMessageID;
     de_generated_at := de_generated_at e;
     de_from := safeEvidenceAddress (de_from e);
     de_sender := safeEvidenceAddress (de_sender e);
     de_signing_fingerprint := safeEvidencePattern (de_signing_fingerprint e) 64 evidenceFingerprint;
     de_sender_identity_id := safeEvidencePattern (de_sender_identity_id e) 320 evidenceIdentityID;
     de_sender_identity_class := safeEvidencePattern (de_sender_identity_class e) 32 evidenceClass;
     de_policy_version := safeEvidencePattern (de_policy_version e) 64 evidencePolicyVersion;
     de_identity_state_ref := safeEvidencePattern (de_identity_state_ref e) 160 evidenceStateRef;
     de_verification_result := safeEvidencePattern (de_verification_result e) 64 evidenceVerification;
     de_workflow := safeEvidencePattern (de_workflow e) 64 evidenceWorkflow |}.
End Evidence.

(** ** Alerts *)

Record ResourceName := { rn_type : string; rn_id : string }.
Record Alert := {
  at_id : string; at_class : string; at_title : string; at_summary : string;
  at_correlation_id : string; at_severity : string; at_resource : ResourceName;
  at_details : gmap string string;
}.

Fixpoint count_byte (b : ascii) (s : string) : nat :=
  match s with
  | EmptyString => 0
  | String c s => (if Ascii.eqb c b then 1 else 0) + count_byte b s
  end.

(** The details sanitised so far: the clean map and the redacted keys. *)
Record Details := { ds_clean : gmap string string; ds_redacted : gset string }.

Section Alerts.
Context `{HOST : !Host} `{ORDER : !MapOrder}.

Definition clean_detail (acc : result Details) (kv : string * string) : result Details :=
  let! ds := acc in
  let normalizedKey := normalizeToken kv.1 in
  let key := bound normalizedKey 64 in
  if key =?s "" then Err "alert detail key required" else
  if hasSecretIdentifier normalizedKey then
    Ok {| ds_clean := <[key := redacted_mark]> (ds_clean ds); ds_redacted := {[key]} ∪ ds_redacted ds |}
  else if bool_decide (key ∈ ds_redacted ds) then Ok ds else
  if (3 <? count_byte "010"%char kv.2) || (2048 <? len kv.2) then Err "alert detail value too large" else
  Ok {| ds_clean := <[key := bound (redact kv.2) 1024]> (ds_clean ds); ds_redacted := ds_redacted ds |}.

Definition empty_details : Details := {| ds_clean := ∅; ds_redacted := ∅ |}.

Definition alert_texts (a : Alert) : list string :=
  [at_id a; at_class a; at_title a; at_summary a; at_correlation_id a; rn_type (at_resource a);
   rn_id (at_resource a)].
Definition alert_identifiers (a : Alert) : list string :=
  [at_id a; at_class a; at_correlation_id a; rn_type (at_resource a)].

Definition known_severity (s : string) : bool :=
  (s =?s "info") || (s =?s "warning") || (s =?s "critical").

Definition SanitizeAlert (a : Alert) : result Alert :=
  if negb (forallb ValidString (alert_texts a)) then Err "alert text must be valid UTF-8" else
  if negb (forallb (fun kv => ValidString kv.1 && ValidString kv.2) (range 0 (at_details a)))
  then Err "alert detail text must be valid UTF-8" else
  if existsb hasSecretIdentifier (alert_identifiers a)
  then Err "alert identifiers must not contain secret markers" else
  let id := TrimSpace (at_id a) in
  if id =?s "" then Err "alert id required" else
  let class := boundToken (at_class a) 80 in
  if class =?s "" then Err "alert class required" else
  if negb (known_severity (at_severity a)) && (at_severity a <>?s "")
  then Err "unsupported alert severity" else
  let severity := if at_severity a =?s "" then "info" else at_severity a in
  let title := boundLine (redact (at_title a)) 120 in
  let summary := boundLine (redact (at_summary a)) 512 in
  if (title =?s "") || (summary =?s "") then Err "alert title and summary required" else
  if 20 <? size (at_details a) then Err "alert details too large" else
  let! ds := foldl clean_detail (Ok empty_details) (range 1 (at_details a)) in
  Ok {| at_id := id; at_class := class; at_title := title; at_summary := summary;
        at_correlation_id := boundToken (at_correlation_id a) 128; at_severity := severity;
        at_resource := {| rn_type := boundToken (rn_type (at_resource a)) 64;
                          rn_id := boundLine (redact (rn_id (at_resource a))) 160 |};
        at_details := ds_clean ds |}.
End Alerts.

(** ** Delivery *)

Record DeliveryResult := { rs_status : string; rs_reason : string; rs_evidence : DeliveryEvidence }.

Record DeliveryRecord := {
  dr_alert : Alert; dr_status : string; dr_reason : string; dr_evidence : DeliveryEvidence;
  dr_created_at : Z; dr_updated_at : Z;
}.

(** The transport: what it reports, and perhaps an error. *)
Class Backend (PS : Type) := {
  backend_send : Alert -> PS -> (DeliveryResult * option string) * PS;
}.

(** Where deliveries are recorded. *)
Class Recorder (PS : Type) := {
  RecordPending : Alert -> Z -> PS -> result unit * PS;
  RecordFinal : string -> string -> string -> DeliveryEvidence -> Z -> PS -> result unit * PS;
  GetRecord : string -> PS -> result (option DeliveryRecord) * PS;
}.

(** What a recorder promises: a final record is read back as it was written. *)
Class RecorderLaws `{HOST : !Host} (PS : Type) `{REC : !Recorder PS} : Prop := {
  final_read : forall id status reason evidence now rs rs',
    RecordFinal id status reason evidence now rs = (Ok tt, rs') ->
    forall r rs'', GetRecord id rs' = (Ok r, rs'') ->
    exists rec, r = Some rec /\ dr_status rec = status /\ dr_reason rec = reason
      /\ dr_evidence rec = SanitizeDeliveryEvidence evidence /\ dr_updated_at rec = now;
}.

Definition final_statuses : list string := ["delivered"; "failed_retryable"; "failed_permanent"].
Definition is_final (status : string) : bool := existsb (fun s => s =?s status) final_statuses.

Definition final_status (result : DeliveryResult) (sendErr : option string) : string :=
  let status := if rs_status result =?s "" then
                  match sendErr with Some _ => "failed_retryable" | None => "delivered" end
                else rs_status result in
  if is_final status then status else "failed_retryable".

Definition final_reason (result : DeliveryResult) (sendErr : option string) : string :=
  let reason := SanitizeDeliveryReason (rs_reason result) in
  match sendErr with
  | Some err => if reason =?s "" then SanitizeDeliveryReason err else reason
  | None => reason
  end.

Section Service.
Context `{HOST : !Host} `{ORDER : !MapOrder}.
Context {PS : Type} `{BACKEND : !Backend PS} `{REC : !Recorder PS}.

(** [Service.SendAlert]: the record, and the error of the send; the error of
    the monad is an error without a record. *)
Definition SendAlert (alert : Alert) : M PS (DeliveryRecord * option string) :=
  now ← nowM;
  clean ← liftM (SanitizeAlert alert);
  extM (RecordPending clean now);;
  out ← extM (fun s => let (o, s') := backend_send clean s in (Ok o, s'));
  let '(sent, sendErr) := out in
  finished ← nowM;
  extM (RecordFinal (at_id clean) (final_status sent sendErr) (final_reason sent sendErr)
          (SanitizeDeliveryEvidence (rs_evidence sent)) finished);;
  got ← extM (GetRecord (at_id clean));
  match got with
  | None => failM "delivery record missing after send"
  | Some rec => mret (rec, sendErr)
  end.
End Service.

(** *** MemoryRecorder *)

Definition MemoryRecorder : Type := gmap string DeliveryRecord.

#[export] Instance memory_recorder `{HOST : !Host} : Recorder MemoryRecorder := {|
  RecordPending a now m :=
    (Ok tt, <[at_id a := {| dr_alert := a; dr_status := "pending"; dr_reason := "";
                            dr_evidence := empty_evidence; dr_created_at := now;
                            dr_updated_at := now |}]> m);
  RecordFinal id status reason evidence now m :=
    match m !! id with
    | None => (Err "delivery record not found", m)
    | Some r => (Ok tt, <[id := {| dr_alert := dr_alert r; dr_status := status; dr_reason := reason;
                                   dr_evidence := SanitizeDeliveryEvidence evidence;
                                   dr_created_at := dr_created_at r; dr_updated_at := now |}]> m)
    end;
  GetRecord id m := (Ok (m !! id), m);
|}.

(** [List]: sorted by the alert's identifier. *)
Definition record_le (x y : DeliveryRecord) : Prop := String.le (at_id (dr_alert x)) (at_id (dr_alert y)).
#[export] Instance record_le_dec : RelDecision record_le.
Proof. intros x y. unfold record_le. apply _. Defined.
Definition ListRecords (m : MemoryRecorder) : list DeliveryRecord :=
  merge_sort record_le (map snd (map_to_list m)).

#[export] Instance memory_recorder_laws `{HOST : !Host} : RecorderLaws MemoryRecorder.
Proof.
  split. intros id status reason evidence now rs rs' H r rs'' G. cbn in H, G.
  destruct (rs !! id) as [old|]; [|done]. injection H as <-. injection G as <- _.
  eexists. split; [exact (lookup_insert_eq (M := gmap string) rs id _)|done].
Qed.

(** A recorder and a transport side by side. *)
#[export] Instance recorder_fst {A B} `{REC : !Recorder A} : Recorder (A * B) := {|
  RecordPending a now s := let (r, x) := RecordPending a now s.1 in (r, (x, s.2));
  RecordFinal id status reason e now s :=
    let (r, x) := RecordFinal id status reason e now s.1 in (r, (x, s.2));
  GetRecord id s := let (r, x) := GetRecord id s.1 in (r, (x, s.2));
|}.
#[export] Instance backend_snd {A B} `{BACKEND : !Backend B} : Backend (A * B) :=
  {| backend_send a s := let (r, x) := backend_send a s.2 in (r, (s.1, x)) |}.

#[export] Instance recorder_fst_laws `{HOST : !Host} {A B} `{REC : !Recorder A} `{LAWS : !RecorderLaws A} :
  RecorderLaws (A * B).
Proof.
  split. intros id status reason evidence now [a b] [a' b'] H r [a'' b''] G. cbn in H, G.
  destruct (RecordFinal id status reason evidence now a) as [[[]|e] x] eqn:E; [|done].
  injection H as <- <-. destruct (GetRecord id x) as [g y] eqn:Eg. injection G as -> <- <-.
  by apply (final_read _ _ _ _ _ _ _ E _ _ Eg).
Qed.

(** ** What sanitised values are *)

(** *** Redaction *)

(** A text stands somewhere in [s], and before it nothing or a rune outside of
    a class. *)
Definition stands_after (before : list (N * N)) (r : regex) (s : list N) : Prop :=
  exists p u q, s = p ++ u ++ q /\ lang r u
    /\ (p = [] \/ exists p' c, p = p' ++ [c] /\ in_class true before c = true).

Lemma match_after_spec before r s : match_after before r s = true <-> stands_after before r s.
Proof.
  unfold match_after, stands_after. rewrite orb_true_iff, prefix_match_spec, find_match_ok.
  setoid_rewrite lang_cat_smart. setoid_rewrite lang_cat_iff. split.
  - intros [(u & q & -> & H)|(p & x & q & -> & v & u & -> & Hv & H)].
    + exists [], u, q. split_and!; [done..|by left].
    + inversion Hv as [| |n ranges c Hc| | | |]; subst.
      exists (p ++ [c]), u, q. rewrite <- !app_assoc. split_and!; [done..|]. right. by exists p, c.
  - intros (p & u & q & -> & H & [->|(p' & c & -> & Hc)]).
    + left. by exists u, q.
    + right. exists p', (c :: u), q. rewrite <- !app_assoc. split; [done|].
      exists [c], u. split_and!; [done|by constructor|done].
Qed.

(** A text that gives a secret away: a private key, an assignment to a secret
    name, or a bearer value. *)
Definition gives_away (v : string) : Prop :=
  let scan := normalizeSecretWhitespace v in
  (exists p u q, scan = p ++ u ++ q /\ lang privateKeyMarker u)
  \/ stands_after assignment_boundary secretAssignment scan
  \/ stands_after ascii_word bearerValue scan.

(** Redaction is exact: a text in which, white space aside, a private key
    marker, an assignment to a secret name after a boundary, or a bearer value
    at a word boundary stands anywhere is replaced whole, and every other text
    is kept. *)
Theorem redact_exact v :
  (gives_away v -> redact v = redacted_mark) /\ (~ gives_away v -> redact v = v).
Proof.
  assert (hasSecretMarker v = true <-> gives_away v) as E.
  { unfold hasSecretMarker, gives_away. cbv zeta.
    rewrite !orb_true_iff, find_match_ok, !match_after_spec. tauto. }
  unfold redact. destruct (hasSecretMarker v); split; [done| |intros H%E; done|done].
  intros H. exfalso. by apply H, E.
Qed.

Section Facts.
Context `{HOST : !Host} `{ORDER : !MapOrder}.

Lemma safeEvidencePattern_spec v n pattern :
  let v' := safeEvidencePattern v n pattern in
  v' = "" \/ (len v' <= n /\ ValidString v' = true /\ hasSecretIdentifier v' = false
              /\ lang pattern (runes v')).
Proof.
  cbv zeta. unfold safeEvidencePattern. cbv zeta. destruct (_ || _) eqn:E; [by left|right].
  to_prop. destruct E as ((((_ & E1) & E2) & E3) & E4). rewrite <- full_match_spec. split_and!; done.
Qed.

Lemma clean_detail_err e l : foldl clean_detail (Err e) l = Err e.
Proof. induction l as [|kv l IH]; [done|exact IH]. Qed.

(** The clean map is keyed by bounded tokens, and whoever comes first, a key
    that any secret name is cut to stays redacted. *)
Definition details_ok (ds : Details) : Prop :=
  (forall k, k ∈ ds_redacted ds -> ds_clean ds !! k = Some redacted_mark)
  /\ (forall k v, ds_clean ds !! k = Some v ->
       k <> "" /\ len k <= 64 /\ len v <= 1024 /\ ValidString k = true /\ has_space k = false).

Lemma details_ok_insert k v ds :
  details_ok ds -> k <> "" -> len k <= 64 -> len v <= 1024 -> clean_text k ->
  (k ∈ ds_redacted ds -> v = redacted_mark) ->
  details_ok {| ds_clean := <[k := v]> (ds_clean ds); ds_redacted := ds_redacted ds |}.
Proof.
  intros [H1 H2] Hk Hl Hv [Hc1 Hc2] Hr. split; cbn.
  - intros k' Hk'. destruct (decide (k = k')) as [<-|Hne].
    + rewrite lookup_insert_eq. by rewrite Hr.
    + rewrite lookup_insert_ne by done. by apply H1.
  - intros k' v' Hk'. destruct (decide (k = k')) as [<-|Hne].
    + rewrite lookup_insert_eq in Hk'. by injection Hk' as <-.
    + rewrite lookup_insert_ne in Hk' by done. by apply H2.
Qed.

Lemma details_ok_redact k ds : details_ok ds -> ds_clean ds !! k = Some redacted_mark ->
  details_ok {| ds_clean := ds_clean ds; ds_redacted := {[k]} ∪ ds_redacted ds |}.
Proof.
  intros [H1 H2] Hk. split; cbn; [|done]. intros k' [->%elem_of_singleton|Hk']%elem_of_union; [done|].
  by apply H1.
Qed.

Lemma clean_detail_ok ds kv ds' : details_ok ds -> clean_detail (Ok ds) kv = Ok ds' ->
  details_ok ds' /\ ds_redacted ds ⊆ ds_redacted ds'
  /\ (hasSecretIdentifier (normalizeToken kv.1) = true -> bound (normalizeToken kv.1) 64 ∈ ds_redacted ds').
Proof.
  intros Hd. unfold clean_detail. cbn [rbind]. set (key := bound (normalizeToken kv.1) 64).
  assert (clean_text key) as Hc by apply bound_clean, clean_dash_spaces.
  assert (len key <= 64) as Hl by apply bound_le.
  destruct (key =?s "") eqn:Ek; [done|]. apply eqs_false in Ek.
  destruct (hasSecretIdentifier (normalizeToken kv.1)).
  { intros [= <-]. split_and!; cbn; [|set_solver|set_solver].
    pose proof (details_ok_insert key redacted_mark ds Hd Ek Hl ltac:(cbn; lia) Hc (fun _ => eq_refl)) as Hi.
    apply (details_ok_redact key) in Hi; [exact Hi|]. cbn. apply lookup_insert_eq. }
  destruct (bool_decide (key ∈ ds_redacted ds)) eqn:Er; [intros [= <-]; by split_and!|].
  apply bool_decide_eq_false in Er. destruct (_ || _); [done|]. intros [= <-]. split_and!; [|done|done].
  apply details_ok_insert; [done|done|done|apply bound_le|done|]. intros ?. contradiction.
Qed.

Lemma clean_details_ok l : forall ds ds', details_ok ds -> foldl clean_detail (Ok ds) l = Ok ds' ->
  details_ok ds' /\ ds_redacted ds ⊆ ds_redacted ds'
  /\ forall kv, kv ∈ l -> hasSecretIdentifier (normalizeToken kv.1) = true ->
     bound (normalizeToken kv.1) 64 ∈ ds_redacted ds'.
Proof.
  induction l as [|kv l IH]; intros ds ds' Hd H; cbn [foldl] in H.
  { injection H as <-. split_and!; [done|done|]. by intros kv Hkv%not_elem_of_nil. }
  destruct (clean_detail (Ok ds) kv) as [ds1|e] eqn:E; [|by rewrite clean_detail_err in H].
  destruct (clean_detail_ok _ _ _ Hd E) as (Hd1 & Hs1 & Hk1).
  destruct (IH _ _ Hd1 H) as (Hd' & Hs' & Hk'). split_and!; [done|by etrans|].
  intros kv' [->|Hin]%elem_of_cons Hsec; [|by apply Hk']. by apply Hs', Hk1.
Qed.

(** A sanitised alert is bounded and its secret details are gone, in
    whatever order Go ranges over the map: identifiers are valid UTF-8 without
    white space, every text is within its budget, there are at most 20 details,
    and every detail whose name marks a secret reads [REDACTED] even when
    another name is cut to the same key. *)
Theorem SanitizeAlert_bounded `{LAWS : !MapOrderLaws} a a' :
  SanitizeAlert a = Ok a' ->
  at_id a' <> "" /\ at_class a' <> "" /\ at_title a' <> "" /\ at_summary a' <> ""
  /\ known_severity (at_severity a') = true
  /\ len (at_class a') <= 80 /\ len (at_title a') <= 120 /\ len (at_summary a') <= 512
  /\ len (at_correlation_id a') <= 128 /\ len (rn_type (at_resource a')) <= 64
  /\ len (rn_id (at_resource a')) <= 160
  /\ clean_text (at_class a') /\ clean_text (at_correlation_id a') /\ clean_text (rn_type (at_resource a'))
  /\ size (at_details a) <= 20
  /\ (forall k v, at_details a' !! k = Some v -> k <> "" /\ len k <= 64 /\ len v <= 1024)
  /\ (forall k v, at_details a !! k = Some v -> hasSecretIdentifier (normalizeToken k) = true ->
       at_details a' !! bound (normalizeToken k) 64 = Some redacted_mark).
Proof.
  unfold SanitizeAlert. intros H. destruct (negb _); [done|]. destruct (negb _); [done|].
  destruct (existsb _ _); [done|]. destruct (_ =?s _) eqn:Ei; [done|].
  destruct (boundToken (at_class a) 80 =?s "") eqn:Ec; [done|].
  destruct (negb (known_severity (at_severity a)) && _) eqn:Es; [done|].
  destruct ((_ =?s _) || _) eqn:Et; [done|]. destruct (20 <? _) eqn:En; [done|].
  apply rbind_ok in H as (ds & Hds & [= <-]).
  apply clean_details_ok in Hds as ([Hd1 Hd2] & _ & Hsec).
  2: { split; cbn; [set_solver|]. intros k v Hk. by rewrite lookup_empty in Hk. }
  apply eqs_false in Ei, Ec. apply orb_false_iff in Et as [Et1 Et2]. apply eqs_false in Et1, Et2.
  cbn [at_id at_class at_title at_summary at_severity at_correlation_id at_resource rn_type rn_id at_details].
  assert (forall v n, clean_text (boundToken v n)) as Hclean
    by (intros; apply bound_clean, clean_dash_spaces).
  split_and!; [exact Ei|exact Ec|exact Et1|exact Et2| |apply bound_le|apply bound_le|apply bound_le
    |apply bound_le|apply bound_le|apply bound_le|apply Hclean|apply Hclean|apply Hclean|..].
  - destruct (at_severity a =?s "") eqn:E0; [done|]. by destruct (known_severity _).
  - by apply Nat.ltb_ge.
  - intros k v Hk. by destruct (Hd2 k v Hk) as (? & ? & ? & _).
  - intros k v Hk Hs. apply Hd1. apply (Hsec (k, v)); [|done].
    rewrite range_perm. by apply elem_of_map_to_list.
Qed.

(** A delivery is recorded with a final status, whatever the backend says. *)
Lemma final_status_final sent sendErr : is_final (final_status sent sendErr) = true.
Proof. 
  unfold final_status. cbv zeta. set (status := if _ =?s _ then _ else _).
  by destruct (is_final status) eqn:E.
Qed.

Definition safe_reason (v : string) : Prop :=
  v = "" \/ v = "delivery_reason_redacted"
  \/ (len v <= 256 /\ hasSecretMarker v = false /\ lang deliveryReason (runes v)).

Lemma SanitizeDeliveryReason_safe v : safe_reason (SanitizeDeliveryReason v).
Proof.
  unfold safe_reason, SanitizeDeliveryReason. cbv zeta. destruct (TrimSpace v =?s "") eqn:Ev; [by left|].
  destruct (_ || _) eqn:E; [by right; left|]. right. right. to_prop.
  destruct E as (((E1 & E2) & E3) & E4). rewrite <- full_match_spec. split_and!; try done.
  unfold redact in E1. destruct (hasSecretMarker (TrimSpace v)) eqn:Em; [|done].
  exfalso. rewrite <- E1 in Em. by vm_compute in Em.
Qed.

Lemma extM_ok {PS A} (op : PS -> result A * PS) w a w' :
  extM op w = (Ok a, w') -> op (w_ext w) = (Ok a, w_ext w').
Proof. unfold extM. destruct (op (w_ext w)) as [r x]. by intros [= -> <-]. Qed.

(** A send that returns a record returns what the recorder keeps: a final
    status, a reason in the machine-readable grammar and sanitised evidence,
    whatever the backend reported, whether or not it failed; and what was sent
    is the sanitised alert. *)
Theorem SendAlert_recorded {PS} `{BACKEND : !Backend PS} `{REC : !Recorder PS} `{RLAWS : !RecorderLaws PS}
    alert w rec sendErr w' :
  SendAlert (PS := PS) alert w = (Ok (rec, sendErr), w') ->
  is_final (dr_status rec) = true /\ safe_reason (dr_reason rec)
  /\ exists clean sent s s', SanitizeAlert alert = Ok clean
     /\ backend_send clean s = ((sent, sendErr), s')
     /\ dr_status rec = final_status sent sendErr /\ dr_reason rec = final_reason sent sendErr
     /\ exists e, dr_evidence rec = SanitizeDeliveryEvidence e.
Proof.
  unfold SendAlert. intros H. apply bind_ok in H as (now & w1 & _ & H).
  apply bind_ok in H as (clean & w2 & [Hc ->]%liftM_ok & H).
  apply bind_ok in H as (? & w3 & _ & H).
  apply bind_ok in H as ([sent err] & w4 & H4%extM_ok & H).
  destruct (backend_send clean (w_ext w3)) as [o s'] eqn:Es. injection H4 as -> _.
  apply bind_ok in H as (finished & w5 & _ & H).
  apply bind_ok in H as ([] & w6 & Hf%extM_ok & H).
  apply bind_ok in H as (got & w7 & Hg%extM_ok & H).
  destruct (final_read _ _ _ _ _ _ _ Hf _ _ Hg) as (r & -> & H1 & H2 & H3 & _).
  injection H as <- <- _. split_and!; [rewrite H1; apply final_status_final| |].
  - rewrite H2. unfold final_reason.
    destruct err as [e|]; [destruct (_ =?s _)|]; apply SanitizeDeliveryReason_safe.
  - exists clean, sent, (w_ext w3), s'. split_and!; [done..|by eexists].
Qed.
End Facts.
