(* ===== verification/Approval.v ===== *)
(** * Approvals of queue operations (internal/notification/approval.go)

    An operator reached over Telegram confirms a queue operation by presenting
    a one-time token.  [SQLActorMapper] maps transport identities to actors;
    [SQLApprovalStore] keeps the requests, whose result column is the state of
    a life cycle: creating, pending, executing, approved, rejected, expired.

    The creation and update times of a mapping are not part of its row.  An
    empty list of scopes stands for the nil slice the callers pass. *)

From stdpp Require Import base list gmap sets strings.
From Stdlib Require Import ZArith Lia Ascii.
From S2P Require Import Prelude GoStd Json JsonText JsonStruct Sha256 Policy Queue AuditLog Database Verifier Tokens Authz NotifyText.
Import authz.

(** ** Binding tokens *)

Definition validBindingToken (token : string) : bool :=
  if negb (len token =? 22) || (TrimSpace token <>?s token) then false else
  match raw_url_decode token with
  | Some decoded => length decoded =? 16
  | None => false
  end.

Definition hashBindingToken (token : string) : string := sha256_hex (bytes_of token).

Section Random.
Context {PS : Type}.

Definition newID : M PS string :=
  b ← entropyM;
  match b with
  | Some bytes => mret (newUUID (Some bytes))
  | None => failM "generate approval id"
  end.

Definition newBindingToken : M PS string :=
  b ← entropyM;
  match b with
  | Some bytes => mret (raw_url_encode bytes)
  | None => failM "generate approval binding token"
  end.
End Random.

(** ** Data *)

Record TransportActor := { ta_transport : string; ta_external_id : string }.

Record ActorMapping := { am_transport_actor : TransportActor; am_actor : Actor }.

Record ApprovalRequest := {
  rq_id : string; rq_transport_actor : TransportActor; rq_initiator : Actor; rq_actor : Actor;
  rq_action : Action; rq_resource : Resource; rq_request_hash : string; rq_binding_hash : string;
  rq_binding_token : string; rq_correlation_id : string; rq_expires_at : Z; rq_created_at : Z;
  rq_used_at : option Z; rq_started_at : option Z; rq_attempts : Z; rq_result : string;
}.

Record ApprovalConfirmation := {
  cf_id : string; cf_transport_actor : TransportActor; cf_actor : Actor; cf_action : Action;
  cf_resource : Resource; cf_request_hash : string; cf_binding_token : string; cf_now : Z;
}.

#[export] Instance request_eta : Eta ApprovalRequest := fun r =>
  {| rq_id := rq_id r; rq_transport_actor := rq_transport_actor r; rq_initiator := rq_initiator r;
     rq_actor := rq_actor r; rq_action := rq_action r; rq_resource := rq_resource r;
     rq_request_hash := rq_request_hash r; rq_binding_hash := rq_binding_hash r;
     rq_binding_token := rq_binding_token r; rq_correlation_id := rq_correlation_id r;
     rq_expires_at := rq_expires_at r; rq_created_at := rq_created_at r; rq_used_at := rq_used_at r;
     rq_started_at := rq_started_at r; rq_attempts := rq_attempts r; rq_result := rq_result r |}.

(** An actor as SQL knows it: its type and its identifier. *)
Definition plain_actor (type id : string) : Actor :=
  {| a_type := type; a_id := id; a_mailbox := ""; a_scopes := []; a_groups := []; a_roles := [] |}.

(** ** Statements *)

Definition with_approvals (f : gmap string ApprovalRow -> gmap string ApprovalRow) : DB -> DB :=
  with_access (fun t => put ac_approvals (f (ac_approvals t)) t).
Definition with_mappings (f : gmap (string * string) MappingRow -> gmap (string * string) MappingRow)
    : DB -> DB :=
  with_access (fun t => put ac_mappings (f (ac_mappings t)) t).

Definition approvals (d : DB) : gmap string ApprovalRow := ac_approvals (db_access d).
Definition mappings (d : DB) : gmap (string * string) MappingRow := ac_mappings (db_access d).

(** '^[a-z0-9_]{1,80}$' *)
Definition code_byte (c : ascii) : bool :=
  in_range 97 122 c || in_range 48 57 c || (byte_val c =? 95)%N.
Definition safe_code (s : string) : bool :=
  (1 <=? len s) && (len s <=? 80) && forall_bytes code_byte s.

(** The CHECK constraints of migrations 0013 and 0014; the counter is an
    [integer] column. *)
Definition approval_row_check (r : ApprovalRow) : bool :=
  validLowerHexDigest (ap_binding_hash r)
  && (0 <=? ap_attempts r)%Z && (ap_attempts r <? 2 ^ 31)%Z
  && match ap_error_code r with Some c => safe_code c | None => true end.

Definition check_violation : string := "check constraint violated".

Definition insert_approval (id : string) (row : ApprovalRow) (d : DB) : result (unit * DB) :=
  match approvals d !! id with
  | Some _ => Err "duplicate key value violates unique constraint"
  | None =>
      if approval_row_check row then Ok (tt, with_approvals (<[id := row]>) d)
      else Err check_violation
  end.

(** UPDATE ... WHERE id=$1 AND ... RETURNING ...: the updated row. *)
Definition update_approval (id : string) (cond : ApprovalRow -> bool)
    (set : ApprovalRow -> ApprovalRow) (d : DB) : result (option ApprovalRow * DB) :=
  match approvals d !! id with
  | None => Ok (None, d)
  | Some row =>
      if cond row then
        if approval_row_check (set row)
        then Ok (Some (set row), with_approvals (<[id := set row]>) d)
        else Err check_violation
      else Ok (None, d)
  end.

Definition upsert_mapping (key : string * string) (row : MappingRow) (d : DB) : result (unit * DB) :=
  Ok (tt, with_mappings (<[key := row]>) d).
Definition delete_mapping (key : string * string) (d : DB) : result (unit * DB) :=
  Ok (tt, with_mappings (delete key) d).

(** A [[]string] as JSON text. *)
Definition marshal_strings (l : list string) : string :=
  print_json (match l with [] => VNull | _ => VArr (map VStr l) end).
Definition unmarshal_strings (text : string) : option (list string) :=
  slice_list <$> decode_json (store_slice store_string "") nil_slice text.

(** ** SQLActorMapper *)

Section Mapper.
Context `{HOST : !Host} {PS : Type}.

Definition clean_transport (t : TransportActor) : TransportActor :=
  {| ta_transport := cleanToken (ta_transport t) 40;
     ta_external_id := TrimSpace (ta_external_id t) |}.
Definition clean_actor (a : Actor) : Actor :=
  {| a_type := cleanToken (a_type a) 40; a_id := TrimSpace (a_id a); a_mailbox := a_mailbox a;
     a_scopes := a_scopes a; a_groups := a_groups a; a_roles := a_roles a |}.
Definition clean_mapping (m : ActorMapping) : ActorMapping :=
  {| am_transport_actor := clean_transport (am_transport_actor m);
     am_actor := clean_actor (am_actor m) |}.

Definition mapping_key (m : ActorMapping) : string * string :=
  (ta_transport (am_transport_actor m), ta_external_id (am_transport_actor m)).
Definition mapping_row (a : Actor) : MappingRow :=
  {| mp_actor_type := a_type a; mp_actor_id := a_id a; mp_scopes_json := marshal_strings (a_scopes a) |}.

Definition Put (m0 : ActorMapping) : M PS unit :=
  let m := clean_mapping m0 in
  guardM ((ta_transport (am_transport_actor m) =?s "")
          || (ta_external_id (am_transport_actor m) =?s "")
          || (a_type (am_actor m) =?s "") || (a_id (am_actor m) =?s ""))
    "complete notification actor mapping required";;
  execM (upsert_mapping (mapping_key m) (mapping_row (am_actor m))).

(** The loop of ReplaceTelegram; [seen] grows as the set of the source. *)
Fixpoint replace_loop (seen : gset string) (l : list ActorMapping) : M PS (gset string) :=
  match l with
  | [] => mret seen
  | m0 :: l =>
      let m := clean_mapping m0 in
      let external := ta_external_id (am_transport_actor m) in
      guardM ((ta_transport (am_transport_actor m) <>?s "telegram") || (external =?s "")
              || (a_type (am_actor m) =?s "") || (a_id (am_actor m) =?s "")
              || bool_decide (external ∈ seen))
        "invalid Telegram actor mapping set";;
      execM (upsert_mapping ("telegram", external) (mapping_row (am_actor m)));;
      replace_loop ({[external]} ∪ seen) l
  end.

(** SELECT external_actor_id ... WHERE transport='telegram', those not seen. *)
Definition stale_mappings (seen : gset string) (d : DB) : list string :=
  List.filter (fun id => negb (bool_decide (id ∈ seen)))
    (map snd (List.filter (fun k => k.1 =?s "telegram") (map fst (map_to_list (mappings d))))).

Fixpoint delete_stale (l : list string) : M PS unit :=
  match l with
  | [] => mret tt
  | id :: l => execM (delete_mapping ("telegram", id));; delete_stale l
  end.

Definition ReplaceTelegram (l : list ActorMapping) : M PS unit :=
  transaction (
    seen ← replace_loop ∅ l;
    stale ← queryM (fun d => Ok (stale_mappings seen d));
    delete_stale stale;;
    mret (true, tt)).

(** [Map]: no actor is [None]. *)
Definition Map (ta : TransportActor) : M PS (option Actor) :=
  let t := clean_transport ta in
  if (ta_transport t =?s "") || (ta_external_id t =?s "") then mret None else
  row ← queryM (fun d => Ok (mappings d !! (ta_transport t, ta_external_id t)));
  match row with
  | None => mret None
  | Some row =>
      match unmarshal_strings (mp_scopes_json row) with
      | None => failM "invalid scopes_json"
      | Some scopes =>
          mret (Some {| a_type := mp_actor_type row; a_id := mp_actor_id row; a_mailbox := "";
                        a_scopes := scopes; a_groups := []; a_roles := [] |})
      end
  end.
End Mapper.

(** ** SQLApprovalStore *)

Section Store.
Context `{HOST : !Host} {PS : Type}.

Definition approvalAuditEvent (r : ApprovalRequest) (action result : string) (err : option string)
    : Event :=
  {| ev_id := ""; ev_time := 0;
     ev_actor := {| actor_type := a_type (rq_actor r); actor_id := a_id (rq_actor r) |};
     ev_source := None; ev_action := action;
     ev_resource := {| resource_type := r_type (rq_resource r); resource_id := r_id (rq_resource r) |};
     ev_before := JNull;
     ev_after := JObj [("approval_id", JStr (rq_id r));
                       ("external_actor_id", JStr (ta_external_id (rq_transport_actor r)));
                       ("request_hash", JStr (rq_request_hash r));
                       ("transport", JStr (ta_transport (rq_transport_actor r)))];
     ev_correlation_id := rq_correlation_id r; ev_result := result;
     ev_error_code := match err with Some e => cleanToken e 80 | None => "" end |}.

(** The event of Create names its initiator and the actor it prompts. *)
Definition create_event (r : ApprovalRequest) : Event :=
  {| ev_id := ""; ev_time := 0;
     ev_actor := {| actor_type := a_type (rq_initiator r); actor_id := a_id (rq_initiator r) |};
     ev_source := None; ev_action := "notification.approval.create";
     ev_resource := {| resource_type := r_type (rq_resource r); resource_id := r_id (rq_resource r) |};
     ev_before := JNull;
     ev_after := JObj [("approval_id", JStr (rq_id r));
                       ("external_actor_id", JStr (ta_external_id (rq_transport_actor r)));
                       ("prompted_actor_id", JStr (a_id (rq_actor r)));
                       ("prompted_actor_type", JStr (a_type (rq_actor r)));
                       ("request_hash", JStr (rq_request_hash r));
                       ("transport", JStr (ta_transport (rq_transport_actor r)))];
     ev_correlation_id := rq_correlation_id r; ev_result := "success"; ev_error_code := "" |}.

(** The request as Create stores it. *)
Definition prepare_request (r : ApprovalRequest) (id token : string) (now : Z) : ApprovalRequest :=
  {| rq_id := id; rq_transport_actor := clean_transport (rq_transport_actor r);
     rq_initiator := clean_actor (rq_initiator r); rq_actor := clean_actor (rq_actor r);
     rq_action := rq_action r; rq_resource := rq_resource r;
     rq_request_hash := cleanToken (rq_request_hash r) 128;
     rq_binding_hash := hashBindingToken token; rq_binding_token := token;
     rq_correlation_id := cleanToken (rq_correlation_id r) 128;
     rq_expires_at := rq_expires_at r; rq_created_at := now; rq_used_at := rq_used_at r;
     rq_started_at := rq_started_at r; rq_attempts := rq_attempts r; rq_result := "creating" |}.

Definition incomplete_request (r : ApprovalRequest) (now : Z) : bool :=
  (now =? 0)%Z || (ta_transport (rq_transport_actor r) =?s "")
  || (ta_external_id (rq_transport_actor r) =?s "")
  || (a_type (rq_initiator r) =?s "") || (a_id (rq_initiator r) =?s "")
  || (a_type (rq_actor r) =?s "") || (a_id (rq_actor r) =?s "") || (rq_action r =?s "")
  || (r_type (rq_resource r) =?s "") || (r_id (rq_resource r) =?s "")
  || (rq_request_hash r =?s "") || (rq_expires_at r <=? now)%Z.

Definition request_row (r : ApprovalRequest) : ApprovalRow :=
  {| ap_transport := ta_transport (rq_transport_actor r);
     ap_external_actor_id := ta_external_id (rq_transport_actor r);
     ap_actor_type := a_type (rq_actor r); ap_actor_id := a_id (rq_actor r);
     ap_action := rq_action r; ap_resource_type := r_type (rq_resource r);
     ap_resource_id := r_id (rq_resource r); ap_request_hash := rq_request_hash r;
     ap_binding_hash := rq_binding_hash r; ap_correlation_id := rq_correlation_id r;
     ap_expires_at := rq_expires_at r; ap_used_at := None; ap_started_at := None; ap_attempts := 0;
     ap_error_code := None; ap_result := "creating"; ap_created_at := rq_created_at r;
     ap_updated_at := rq_created_at r |}.

Definition Create (r0 : ApprovalRequest) (now : Z) : M PS ApprovalRequest :=
  id ← (if rq_id r0 =?s "" then newID else mret (rq_id r0));
  guardM (rq_binding_token r0 <>?s "") "approval binding token is generated by the store";;
  token ← newBindingToken;
  guardM (negb (validBindingToken token)) "valid approval binding token required";;
  let r := prepare_request r0 id token now in
  guardM (incomplete_request r now) "complete unexpired approval request required";;
  transaction (
    execM (insert_approval (rq_id r) (request_row r));;
    WriteSQL (create_event r);;
    mret (true, r)).

(** A request read back from its row: SQL knows no initiator and no token. *)
Definition row_request (id : string) (row : ApprovalRow) : ApprovalRequest :=
  {| rq_id := id;
     rq_transport_actor := {| ta_transport := ap_transport row; ta_external_id := ap_external_actor_id row |};
     rq_initiator := plain_actor "" ""; rq_actor := plain_actor (ap_actor_type row) (ap_actor_id row);
     rq_action := ap_action row;
     rq_resource := {| r_type := ap_resource_type row; r_id := ap_resource_id row |};
     rq_request_hash := ap_request_hash row; rq_binding_hash := ap_binding_hash row;
     rq_binding_token := ""; rq_correlation_id := ap_correlation_id row;
     rq_expires_at := ap_expires_at row; rq_created_at := ap_created_at row;
     rq_used_at := ap_used_at row; rq_started_at := ap_started_at row;
     rq_attempts := ap_attempts row; rq_result := ap_result row |}.

Definition Get (id : string) : M PS (option ApprovalRequest) :=
  queryM (fun d => Ok (row_request id <$> approvals d !! id)).

(** An UPDATE ... RETURNING that must find its row, in a transaction with
    the audit event built from the row. *)
Definition update_and_audit (id : string) (cond : ApprovalRow -> bool)
    (set : ApprovalRow -> ApprovalRow) (rejected : string) (event : ApprovalRow -> Event) : M PS unit :=
  transaction (
    row ← execM (update_approval id cond set);
    match row with
    | None => failM rejected
    | Some row => WriteSQL (event row);; mret (true, tt)
    end).

Definition unused (r : ApprovalRow) : bool := match ap_used_at r with None => true | Some _ => false end.

Definition set_pending (now : Z) (r : ApprovalRow) : ApprovalRow :=
  put ap_updated_at now (put ap_result "pending" r).

Definition Activate (id : string) (now : Z) : M PS unit :=
  update_and_audit id (fun r => (ap_result r =?s "creating") && unused r) (set_pending now)
    "approval activation rejected"
    (fun row => approvalAuditEvent (row_request id row) "notification.approval.prompt" "success" None).

Definition set_approved (now : Z) (r : ApprovalRow) : ApprovalRow :=
  put ap_updated_at now (put ap_error_code None (put ap_result "approved" (put ap_used_at (Some now) r))).

Definition executing (r : ApprovalRow) : bool := unused r && (ap_result r =?s "executing").

(** The success event of Complete, and (with another result and code) the
    events ApprovalExecutor writes. *)
Definition execute_event (r : ApprovalRequest) (result code : string) : Event :=
  {| ev_id := ""; ev_time := 0;
     ev_actor := {| actor_type := a_type (rq_actor r); actor_id := a_id (rq_actor r) |};
     ev_source := None; ev_action := "notification.approval.execute";
     ev_resource := {| resource_type := r_type (rq_resource r); resource_id := r_id (rq_resource r) |};
     ev_before := JNull;
     ev_after := JObj [("approval_id", JStr (rq_id r)); ("approved_action", JStr (rq_action r))];
     ev_correlation_id := rq_correlation_id r; ev_result := result; ev_error_code := code |}.

Definition Complete (id : string) (now : Z) : M PS unit :=
  update_and_audit id executing (set_approved now) "approval execution completion rejected"
    (fun row => execute_event (row_request id row) "success" "").

Definition set_retry (now : Z) (code : string) (r : ApprovalRow) : ApprovalRow :=
  put ap_updated_at now (put ap_error_code (Some code) (put ap_started_at None (put ap_result "pending" r))).

Definition retry_code (code0 : string) : string :=
  let code := cleanToken code0 80 in if code =?s "" then "execution_failed" else code.

(** SQLApprovalStore.Retry *)
Definition RetryApproval (id : string) (now : Z) (code0 : string) : M PS unit :=
  let code := retry_code code0 in
  update_and_audit id executing (set_retry now code) "approval execution retry rejected"
    (fun row => approvalAuditEvent (row_request id row) "notification.approval.execute" "failure"
                  (Some code)).

Definition set_rejected (now : Z) (r : ApprovalRow) : ApprovalRow :=
  put ap_updated_at now (put ap_result "rejected" r).

Definition Invalidate (id : string) (now : Z) (reason : string) : M PS unit :=
  got ← Get id;
  match got with
  | None => failM "approval request not found"
  | Some r =>
      update_and_audit id (fun r => (ap_result r =?s "creating") || (ap_result r =?s "pending"))
        (set_rejected now) "approval request not pending"
        (fun _ => approvalAuditEvent r "notification.approval.invalidate" "failure"
                    (Some (cleanToken reason 80)))
  end.
End Store.

(** ** Claim *)

Section Claim.
Context `{HOST : !Host} {PS : Type}.

Definition set_expired (now : Z) (r : ApprovalRow) : ApprovalRow :=
  put ap_updated_at now (put ap_result "expired" r).

Definition recordDenied (r : ApprovalRequest) (now : Z) (message : string) (terminal : bool)
    : M PS unit :=
  let event := approvalAuditEvent r "notification.approval.confirm" "denied" (Some message) in
  if terminal then
    update_and_audit (rq_id r)
      (fun row => (ap_result row =?s "pending") || (ap_result row =?s "executing"))
      (set_expired now) "approval request not pending" (fun _ => event)
  else transaction (WriteSQL event;; mret (true, tt)).

(** The function literal [fail] of Claim: the refusal is audited under the
    actor and the transport identity of the attempt. *)
Definition claim_fail {A} (r : ApprovalRequest) (c : ApprovalConfirmation) (msg : string)
    (terminal : bool) : M PS A :=
  let attempt := put rq_transport_actor (cf_transport_actor c) (put rq_actor (cf_actor c) r) in
  recorded ← tryM (recordDenied attempt (cf_now c) msg terminal);
  match recorded with
  | Err _ => failM "approval audit unavailable"
  | Ok _ => failM msg
  end.

Definition binding_mismatch (r : ApprovalRequest) (c : ApprovalConfirmation) : bool :=
  (cleanToken (ta_transport (cf_transport_actor c)) 40 <>?s ta_transport (rq_transport_actor r))
  || (TrimSpace (ta_external_id (cf_transport_actor c)) <>?s ta_external_id (rq_transport_actor r))
  || (cleanToken (a_type (cf_actor c)) 40 <>?s a_type (rq_actor r))
  || (TrimSpace (a_id (cf_actor c)) <>?s a_id (rq_actor r))
  || (cf_action c <>?s rq_action r)
  || (r_type (cf_resource c) <>?s r_type (rq_resource r))
  || (r_id (cf_resource c) <>?s r_id (rq_resource r))
  || (cleanToken (cf_request_hash c) 128 <>?s rq_request_hash r)
  || negb (validBindingToken (cf_binding_token c))
  || (hashBindingToken (cf_binding_token c) <>?s rq_binding_hash r).

(** Why a claim is refused before it writes: the message, and whether the
    refusal ends the request. *)
Definition claim_refusal (r : ApprovalRequest) (c : ApprovalConfirmation) (lease : Z)
    : option (string * bool) :=
  if (match rq_used_at r with Some _ => true | None => false end)
     || ((rq_result r <>?s "pending") && (rq_result r <>?s "executing"))
  then Some ("approval replay rejected", false) else
  if (rq_result r =?s "executing")
     && match rq_started_at r with
        | None => true
        | Some started => (cf_now c - started <? lease)%Z
        end
  then Some ("approval execution already in progress", false) else
  if (cf_now c =? 0)%Z || (cf_now c <? rq_created_at r)%Z
  then Some ("invalid approval confirmation time", false) else
  if (rq_expires_at r <=? cf_now c)%Z then Some ("approval expired", true) else
  if binding_mismatch r c then Some ("approval binding mismatch", false) else None.

Definition claimable (staleBefore : Z) (row : ApprovalRow) : bool :=
  unused row
  && ((ap_result row =?s "pending")
      || ((ap_result row =?s "executing")
          && match ap_started_at row with Some t => (t <? staleBefore)%Z | None => false end)).

Definition set_executing (now : Z) (r : ApprovalRow) : ApprovalRow :=
  put ap_updated_at now (put ap_error_code None (put ap_attempts (ap_attempts r + 1)%Z
    (put ap_started_at (Some now) (put ap_result "executing" r)))).

Definition claimed (r : ApprovalRequest) (now : Z) : ApprovalRequest :=
  put rq_result "executing" (put rq_attempts (rq_attempts r + 1)%Z (put rq_started_at (Some now) r)).

(** The transaction; [None] when the row was not there to be claimed. *)
Definition claim_body (r : ApprovalRequest) (c : ApprovalConfirmation) (lease : Z)
    : M PS (bool * option ApprovalRequest) :=
  row ← execM (update_approval (rq_id r) (claimable (cf_now c - lease)%Z) (set_executing (cf_now c)));
  match row with
  | None => mret (false, None)
  | Some _ =>
      WriteSQL (approvalAuditEvent (claimed r (cf_now c)) "notification.approval.confirm" "success" None);;
      mret (true, Some (claimed r (cf_now c)))
  end.

Definition Claim (c : ApprovalConfirmation) (lease : Z) : M PS ApprovalRequest :=
  got ← Get (cf_id c);
  match got with
  | None => failM "approval request not found"
  | Some r =>
      match claim_refusal r c lease with
      | Some (msg, terminal) => claim_fail r c msg terminal
      | None =>
          done ← transaction (claim_body r c lease);
          match done with
          | Some r' => mret r'
          | None => claim_fail r c "approval replay rejected" false
          end
      end
  end.
End Claim.

(** ** The life of an approval *)

(** What a request was created with. *)
Definition same_binding (r r' : ApprovalRow) : Prop :=
  ap_transport r' = ap_transport r /\ ap_external_actor_id r' = ap_external_actor_id r
  /\ ap_actor_type r' = ap_actor_type r /\ ap_actor_id r' = ap_actor_id r
  /\ ap_action r' = ap_action r /\ ap_resource_type r' = ap_resource_type r
  /\ ap_resource_id r' = ap_resource_id r /\ ap_request_hash r' = ap_request_hash r
  /\ ap_binding_hash r' = ap_binding_hash r /\ ap_correlation_id r' = ap_correlation_id r
  /\ ap_expires_at r' = ap_expires_at r /\ ap_created_at r' = ap_created_at r.

(** The moves of the life cycle. *)
Inductive move : ApprovalRow -> ApprovalRow -> Prop :=
| move_activate r r' :
    ap_result r = "creating" -> ap_used_at r = None ->
    ap_result r' = "pending" -> ap_used_at r' = None -> ap_attempts r' = ap_attempts r -> move r r'
| move_invalidate r r' :
    ap_result r = "creating" \/ ap_result r = "pending" ->
    ap_result r' = "rejected" -> ap_used_at r' = ap_used_at r -> ap_attempts r' = ap_attempts r ->
    move r r'
| move_claim r r' now staleBefore :
    ap_used_at r = None ->
    ap_result r = "pending"
    \/ (ap_result r = "executing" /\ exists t, ap_started_at r = Some t /\ (t < staleBefore)%Z) ->
    ap_result r' = "executing" -> ap_used_at r' = None -> ap_started_at r' = Some now ->
    ap_attempts r' = (ap_attempts r + 1)%Z -> move r r'
| move_retry r r' :
    ap_result r = "executing" -> ap_used_at r = None ->
    ap_result r' = "pending" -> ap_used_at r' = None -> ap_started_at r' = None ->
    ap_attempts r' = ap_attempts r -> move r r'
| move_complete r r' now :
    ap_result r = "executing" -> ap_used_at r = None ->
    ap_result r' = "approved" -> ap_used_at r' = Some now -> ap_attempts r' = ap_attempts r -> move r r'
| move_expire r r' :
    ap_result r = "pending" \/ ap_result r = "executing" ->
    ap_result r' = "expired" -> ap_used_at r' = ap_used_at r -> ap_attempts r' = ap_attempts r ->
    move r r'.

Definition life_step (r r' : ApprovalRow) : Prop := move r r' /\ same_binding r r'.

(** Every request lives on by moves, and a new one starts in [creating]. *)
Definition evolves (d d' : DB) : Prop :=
  (forall id r, approvals d !! id = Some r ->
     exists r', approvals d' !! id = Some r' /\ rtc life_step r r')
  /\ (forall id r', approvals d !! id = None -> approvals d' !! id = Some r' ->
     exists r0, ap_result r0 = "creating" /\ ap_used_at r0 = None /\ ap_attempts r0 = 0%Z
       /\ rtc life_step r0 r').

#[export] Instance evolves_preorder : PreOrder evolves.
Proof.
  split.
  - intros d. split; [by intros id r ?; exists r|]. intros id r' H1 H2. congruence.
  - intros d1 d2 d3 [A1 B1] [A2 B2]. split.
    + intros id r H. destruct (A1 _ _ H) as (r2 & H2 & S2). destruct (A2 _ _ H2) as (r3 & H3 & S3).
      exists r3. split; [done|]. by etrans.
    + intros id r' H1 H3. destruct (approvals d2 !! id) as [r2|] eqn:E.
      * destruct (A2 _ _ E) as (r3 & E3 & S3). rewrite H3 in E3. injection E3 as <-.
        destruct (B1 _ _ H1 E) as (r0 & ? & ? & ? & S0). exists r0. split_and!; [done..|]. by etrans.
      * by apply (B2 id r').
Qed.

Lemma approvals_set f d : approvals (with_approvals f d) = f (approvals d).
Proof. done. Qed.

Lemma approvals_set_audit f g d : approvals (with_audit f (with_approvals g d)) = g (approvals d).
Proof. done. Qed.

Lemma evolves_update id cond set d a d' :
  (forall r, cond r = true -> life_step r (set r)) ->
  update_approval id cond set d = Ok (a, d') -> evolves d d'.
Proof.
  unfold update_approval. intros Hs H. destruct (approvals d !! id) as [row|] eqn:E;
    [|by injection H as _ <-].
  destruct (cond row) eqn:Ec; [|by injection H as _ <-].
  destruct (approval_row_check (set row)); [|done]. injection H as _ <-. split.
  - intros id' r Hr. rewrite approvals_set. destruct (decide (id = id')) as [<-|Hne].
    + rewrite lookup_insert_eq. rewrite E in Hr. injection Hr as <-.
      exists (set row). split; [done|]. apply rtc_once. by apply Hs.
    + rewrite lookup_insert_ne by done. by exists r.
  - intros id' r' H1 H2. rewrite approvals_set in H2. destruct (decide (id = id')) as [<-|Hne].
    + congruence.
    + rewrite lookup_insert_ne in H2 by done. congruence.
Qed.

Lemma evolves_insert id row d a d' :
  ap_result row = "creating" -> ap_used_at row = None -> ap_attempts row = 0%Z ->
  insert_approval id row d = Ok (a, d') -> evolves d d'.
Proof.
  unfold insert_approval. intros H1 H2 H3 H. destruct (approvals d !! id) as [?|] eqn:E; [done|].
  destruct (approval_row_check row); [|done]. injection H as _ <-. split.
  - intros id' r Hr. rewrite approvals_set, lookup_insert_ne by congruence. by exists r.
  - intros id' r' Hn Hr. rewrite approvals_set in Hr. destruct (decide (id = id')) as [<-|Hne].
    + rewrite lookup_insert_eq in Hr. injection Hr as <-. exists row. by split_and!.
    + rewrite lookup_insert_ne in Hr by done. congruence.
Qed.

Section Life.
Context `{HOST : !Host} {PS : Type}.

Lemma evolves_audit d e : evolves d (with_audit (fun l => l ++ [e]) d).
Proof. split; [by intros id r ?; exists r|]. intros id r' H1 H2. cbv in H1, H2. congruence. Qed.

Lemma evolves_WriteSQL e : effect (PS := PS) evolves (WriteSQL e).
Proof. apply effect_WriteSQL; [apply _|]. intros d e'. apply evolves_audit. Qed.

Lemma evolves_update_and_audit id cond set msg event :
  (forall r, cond r = true -> life_step r (set r)) ->
  effect (PS := PS) evolves (update_and_audit id cond set msg event).
Proof.
  intros Hs. unfold update_and_audit. apply effect_transaction; [apply _|].
  apply effect_bind; [apply _| |].
  - apply (effect_exec evolves). intros d a d' H. by eapply evolves_update.
  - intros [row|]; [|by apply effect_fail; apply _].
    apply effect_bind; [apply _|apply evolves_WriteSQL|]. intros _. by apply effect_ret; apply _.
Qed.

Lemma life_pending now r :
  (ap_result r =?s "creating") && unused r = true -> life_step r (set_pending now r).
Proof.
  unfold unused. intros H. to_prop. destruct H as [H1 H2]. destruct (ap_used_at r) eqn:E; [done|].
  split; [|by split_and!]. by apply move_activate.
Qed.

Lemma life_executing r : executing r = true -> ap_used_at r = None /\ ap_result r = "executing".
Proof. unfold executing, unused. intros H. to_prop. destruct (ap_used_at r); naive_solver. Qed.

Lemma life_approved now r : executing r = true -> life_step r (set_approved now r).
Proof. intros [H1 H2]%life_executing. split; [|by split_and!]. by eapply move_complete. Qed.

Lemma life_retry now code r : executing r = true -> life_step r (set_retry now code r).
Proof. intros [H1 H2]%life_executing. split; [|by split_and!]. by apply move_retry. Qed.

Lemma life_rejected now r :
  (ap_result r =?s "creating") || (ap_result r =?s "pending") = true -> life_step r (set_rejected now r).
Proof. intros H. to_prop. split; [|by split_and!]. by apply move_invalidate. Qed.

Lemma life_expired now r :
  (ap_result r =?s "pending") || (ap_result r =?s "executing") = true -> life_step r (set_expired now r).
Proof. intros H. to_prop. split; [|by split_and!]. by apply move_expire. Qed.

Lemma life_executed now stale r : claimable stale r = true -> life_step r (set_executing now r).
Proof.
  unfold claimable, unused. intros [Hu H]%andb_true_iff. destruct (ap_used_at r) eqn:E; [done|].
  split; [|by split_and!]. eapply (move_claim _ _ now stale); [done| |done..].
  to_prop. destruct H as [H|[H Ht]]; [by left|right]. split; [done|].
  destruct (ap_started_at r) as [t|]; [|done]. exists t. to_prop. by split.
Qed.

Lemma evolves_Get id : effect (PS := PS) evolves (Get id).
Proof. apply effect_query; apply _. Qed.

Lemma evolves_denied r now msg terminal : effect (PS := PS) evolves (recordDenied r now msg terminal).
Proof.
  unfold recordDenied. destruct terminal.
  - apply evolves_update_and_audit. intros row. apply life_expired.
  - apply effect_transaction; [apply _|]. apply effect_bind; [apply _|apply evolves_WriteSQL|].
    intros _. by apply effect_ret; apply _.
Qed.

Lemma evolves_fail {A} r c msg terminal :
  effect (PS := PS) evolves (claim_fail (A := A) r c msg terminal).
Proof.
  unfold claim_fail. apply effect_bind; [apply _|apply effect_try, evolves_denied|].
  intros [?|?]; by apply effect_fail; apply _.
Qed.

Lemma evolves_Claim c lease : effect (PS := PS) evolves (Claim c lease).
Proof.
  unfold Claim. apply effect_bind; [apply _|apply evolves_Get|]. intros [r|]; [|by apply effect_fail; apply _].
  destruct (claim_refusal r c lease) as [[msg terminal]|]; [apply evolves_fail|].
  apply effect_bind; [apply _| |].
  - apply effect_transaction; [apply _|]. apply effect_bind; [apply _| |].
    + apply (effect_exec evolves). intros d a d' H. eapply evolves_update; [|exact H].
      intros row Hr. by eapply life_executed.
    + intros [row|]; [|by apply effect_ret; apply _].
      apply effect_bind; [apply _|apply evolves_WriteSQL|]. intros _. by apply effect_ret; apply _.
  - intros [r'|]; [by apply effect_ret; apply _|apply evolves_fail].
Qed.

Lemma evolves_Create r now : effect (PS := PS) evolves (Create r now).
Proof.
  unfold Create. apply effect_bind; [apply _| |].
  { destruct (rq_id r =?s ""); [|by apply effect_ret; apply _].
    unfold newID. solve_effect. }
  intros id. apply effect_bind; [apply _|by apply effect_guard; apply _|]. intros _.
  apply effect_bind; [apply _|unfold newBindingToken; solve_effect|]. intros token.
  apply effect_bind; [apply _|by apply effect_guard; apply _|]. intros _. cbv zeta.
  apply effect_bind; [apply _|by apply effect_guard; apply _|]. intros _.
  apply effect_transaction; [apply _|]. apply effect_bind; [apply _| |].
  { apply (effect_exec evolves). intros d a d' H. by apply evolves_insert in H. }
  intros _. apply effect_bind; [apply _|apply evolves_WriteSQL|]. intros _. by apply effect_ret; apply _.
Qed.

(** *** Every schedule of operations *)

Inductive approval_op :=
| do_create (r : ApprovalRequest) (now : Z)
| do_activate (id : string) (now : Z)
| do_claim (c : ApprovalConfirmation) (lease : Z)
| do_complete (id : string) (now : Z)
| do_retry (id : string) (now : Z) (code : string)
| do_invalidate (id : string) (now : Z) (reason : string).

(** One call of the store, its answer dropped. *)
Definition run_op (o : approval_op) (w : World PS) : World PS :=
  match o with
  | do_create r now => (Create r now w).2
  | do_activate id now => (Activate id now w).2
  | do_claim c lease => (Claim c lease w).2
  | do_complete id now => (Complete id now w).2
  | do_retry id now code => (RetryApproval id now code w).2
  | do_invalidate id now reason => (Invalidate id now reason w).2
  end.

Definition run_ops (l : list approval_op) (w : World PS) : World PS := foldl (fun w o => run_op o w) w l.

Lemma evolves_op o w : evolves (w_db w) (w_db (run_op o w)).
Proof.
  destruct o as [r now|id now|c lease|id now|id now code|id now reason]; cbn [run_op].
  - apply evolves_Create.
  - apply evolves_update_and_audit. intros row. apply life_pending.
  - apply evolves_Claim.
  - apply evolves_update_and_audit. intros row. apply life_approved.
  - apply evolves_update_and_audit. intros row. apply life_retry.
  - unfold Invalidate. apply effect_bind; [apply _|apply evolves_Get|].
    intros [r|]; [|by apply effect_fail; apply _]. apply evolves_update_and_audit.
    intros row. apply life_rejected.
Qed.

Lemma evolves_ops l w : evolves (w_db w) (w_db (run_ops l w)).
Proof.
  revert w. induction l as [|o l IH]; intros w; [done|]. etrans; [apply (evolves_op o w)|apply IH].
Qed.

(** *** A request that is over *)

Definition over (r : ApprovalRow) : Prop := ap_result r ∈ ["approved"; "rejected"; "expired"].

Lemma over_no_move r r' : over r -> ~ move r r'.
Proof.
  unfold over. intros H Hm. rewrite !elem_of_cons, elem_of_nil in H.
  assert (ap_result r <> "creating" /\ ap_result r <> "pending" /\ ap_result r <> "executing")
    as (? & ? & ?) by (destruct H as [->|[->|[->|[]]]]; done).
  destruct Hm; naive_solver.
Qed.

Lemma over_frozen r r' : over r -> rtc life_step r r' -> r' = r.
Proof.
  intros H Hs. destruct Hs as [|r r1 r2 [Hm _] _]; [done|]. by destruct (over_no_move r r1 H).
Qed.

Lemma over_stays l w id r :
  approvals (w_db w) !! id = Some r -> over r -> approvals (w_db (run_ops l w)) !! id = Some r.
Proof.
  intros H Ho. destruct (evolves_ops l w) as [A _]. destruct (A _ _ H) as (r' & H' & Hs).
  by rewrite (over_frozen _ _ Ho Hs) in H'.
Qed.
End Life.

(** ** What the answers mean *)

Section Answers.
Context `{HOST : !Host} {PS : Type}.
Implicit Types w : World PS.

Lemma update_approval_some id cond set d row' d' :
  update_approval id cond set d = Ok (Some row', d') ->
  exists row, approvals d !! id = Some row /\ cond row = true /\ row' = set row
    /\ d' = with_approvals (<[id := set row]>) d.
Proof.
  unfold update_approval. destruct (approvals d !! id) as [row|]; [|done].
  destruct (cond row) eqn:E; [|done]. destruct (approval_row_check (set row)); [|done].
  intros [= <- <-]. by exists row.
Qed.

Lemma claim_fail_err {A} r c msg terminal w (a : A) w' : claim_fail r c msg terminal w <> (Ok a, w').
Proof.
  unfold claim_fail. intros H. apply bind_ok in H as (x & w1 & _ & H). by destruct x.
Qed.

(** A claim that returned: the row it found, what it checked, what it wrote. *)
Lemma Claim_ok c lease w r' w' : Claim c lease w = (Ok r', w') ->
  exists row ev, approvals (w_db w) !! cf_id c = Some row
    /\ claim_refusal (row_request (cf_id c) row) c lease = None
    /\ claimable (cf_now c - lease)%Z row = true
    /\ r' = claimed (row_request (cf_id c) row) (cf_now c)
    /\ w_db w' = with_audit (fun l => l ++ [ev])
         (with_approvals (<[cf_id c := set_executing (cf_now c) row]>) (w_db w))
    /\ ev_action ev = "notification.approval.confirm" /\ ev_result ev = "success"
    /\ w_ext w' = w_ext w.
Proof.
  unfold Claim. intros H. apply bind_ok in H as (got & w1 & H1 & H).
  apply queryM_ok in H1 as (Hq & D1 & X1). injection Hq as <-.
  destruct (approvals (w_db w) !! cf_id c) as [row|] eqn:Er; [|done]. cbn [fmap option_fmap option_map] in H.
  destruct (claim_refusal _ c lease) as [[msg t]|] eqn:Ec; [by apply claim_fail_err in H|].
  apply bind_ok in H as (done & w2 & H2 & H).
  destruct done as [r2|]; [|by apply claim_fail_err in H]. injection H as <- <-.
  apply transaction_ok in H2 as (w3 & b & w4 & Hb & D3 & X3 & X2 & D2).
  unfold claim_body in Hb. apply bind_ok in Hb as (row' & w5 & H5 & Hb).
  apply execM_ok in H5 as [Hu X5]. destruct row' as [row'|]; [|done].
  apply update_approval_some in Hu as (row0 & Hr0 & Hc & _ & Hd).
  rewrite D3, D1 in Hr0. cbn [rq_id row_request] in Hr0. rewrite Er in Hr0. injection Hr0 as <-.
  apply bind_ok in Hb as ([] & w6 & H6 & Hb). injection Hb as <- <- <-.
  apply WriteSQL_ok in H6 as (ev & D6 & X6 & A1 & _ & _ & _ & A2 & _).
  exists row, ev. rewrite A1, A2. split_and!; [done..| |done|done|congruence].
  by rewrite D2, D6, Hd, D3, D1.
Qed.

(** The comparisons of a claim that was not refused. *)
Lemma claim_refusal_none r c lease : claim_refusal r c lease = None ->
  rq_used_at r = None /\ (rq_result r = "pending" \/ rq_result r = "executing")
  /\ (cf_now c <> 0 /\ rq_created_at r <= cf_now c < rq_expires_at r)%Z
  /\ binding_mismatch r c = false.
Proof.
  unfold claim_refusal. intros H.
  destruct (_ || (_ && _)) eqn:E1; [done|]. destruct ((rq_result r =?s "executing") && _) eqn:E2; [done|].
  destruct ((cf_now c =? 0)%Z || _) eqn:E3; [done|]. destruct (_ <=? cf_now c)%Z eqn:E4; [done|].
  destruct (binding_mismatch r c); [done|]. clear H E2. to_prop. destruct E1 as [E1 E1'].
  split_and!; [by destruct (rq_used_at r)|tauto|lia..|done].
Qed.

Lemma binding_match r c : binding_mismatch r c = false ->
  clean_transport (cf_transport_actor c) = rq_transport_actor r
  /\ a_type (clean_actor (cf_actor c)) = a_type (rq_actor r)
  /\ a_id (clean_actor (cf_actor c)) = a_id (rq_actor r)
  /\ cf_action c = rq_action r /\ cf_resource c = rq_resource r
  /\ cleanToken (cf_request_hash c) 128 = rq_request_hash r
  /\ validBindingToken (cf_binding_token c) = true
  /\ hashBindingToken (cf_binding_token c) = rq_binding_hash r.
Proof.
  unfold binding_mismatch. intros H. to_prop.
  destruct H as (((((((((H1 & H2) & H3) & H4) & H5) & H6) & H7) & H8) & H9) & H10).
  unfold clean_transport. destruct (rq_transport_actor r), (cf_resource c), (rq_resource r).
  cbn in *. by subst.
Qed.

Lemma Create_ok r0 now w r w' : Create r0 now w = (Ok r, w') ->
  exists id token ev, r = prepare_request r0 id token now
    /\ validBindingToken token = true /\ incomplete_request r now = false
    /\ approvals (w_db w) !! id = None
    /\ w_db w' = with_audit (fun l => l ++ [ev]) (with_approvals (<[id := request_row r]>) (w_db w)).
Proof.
  unfold Create. intros H. apply bind_ok in H as (id & w1 & H1 & H).
  assert (w_db w1 = w_db w) as D1.
  { destruct (rq_id r0 =?s ""); [|by injection H1 as _ <-]. unfold newID in H1.
    apply bind_ok in H1 as (b & w1' & H1 & H1'). destruct (entropyM_run w) as (b' & w0 & E & D & _).
    rewrite E in H1. injection H1 as -> ->. destruct b; [|done]. by injection H1' as _ <-. }
  apply bind_ok in H as (? & w2 & [_ ->]%guardM_ok & H).
  apply bind_ok in H as (token & w3 & H3 & H).
  assert (w_db w3 = w_db w1) as D3.
  { unfold newBindingToken in H3. apply bind_ok in H3 as (b & w1' & H3 & H3').
    destruct (entropyM_run w1) as (b' & w0 & E & D & _).
    rewrite E in H3. injection H3 as -> ->. destruct b; [|done]. by injection H3' as _ <-. }
  apply bind_ok in H as (? & w4 & [Hv ->]%guardM_ok & H). cbv zeta in H.
  apply bind_ok in H as (? & w5 & [Hi ->]%guardM_ok & H).
  apply transaction_ok in H as (w6 & b & w7 & Hb & D6 & _ & _ & D').
  apply bind_ok in Hb as (? & w8 & [Hs _]%execM_ok & Hb).
  apply bind_ok in Hb as (? & w9 & H9 & Hb). injection Hb as <- <- <-.
  apply WriteSQL_ok in H9 as (ev & D9 & _). unfold insert_approval in Hs.
  destruct (approvals (w_db w6) !! _) eqn:En; [done|]. destruct (approval_row_check _); [|done].
  injection Hs as _ Hs. exists id, token, ev.
  split_and!; [done|by apply negb_false_iff|done| |by rewrite D', D9, <- Hs, D6, D3, D1].
  by rewrite D6, D3, D1 in En.
Qed.

(** Whatever calls reach the store, in whatever order and under every
    failure of the database, each request lives on by the moves of the life
    cycle (creating to pending to executing to approved, back from executing
    to pending on a failure, or off to rejected or expired), its actor, action,
    resource, hashes and expiry never change, and a new request starts as
    [creating]. *)
Theorem operations_follow_life_cycle l w :
  evolves (w_db w) (w_db (run_ops l w)).
Proof. apply evolves_ops. Qed.

(** An approval is used once: when a request was approved, rejected or has
    expired, its row never changes again and no claim of it succeeds, whatever
    the store is asked to do in between. *)
Theorem approval_one_time l w id r c lease :
  approvals (w_db w) !! id = Some r -> over r -> cf_id c = id ->
  approvals (w_db (run_ops l w)) !! id = Some r
  /\ forall r' w', Claim c lease (run_ops l w) <> (Ok r', w').
Proof.
  intros H Ho Hc. split; [by apply over_stays|]. intros r' w' HC.
  apply Claim_ok in HC as (row & ev & Hr & Hn & _).
  rewrite Hc, (over_stays l w id r H Ho) in Hr. injection Hr as <-.
  apply claim_refusal_none in Hn as (_ & Hres & _). cbn [rq_result row_request] in Hres.
  unfold over in Ho. rewrite !elem_of_cons, elem_of_nil in Ho.
  destruct Hres as [Hres|Hres]; rewrite Hres in Ho; naive_solver.
Qed.

Lemma life_binding r r' : rtc life_step r r' -> same_binding r r'.
Proof.
  induction 1 as [|r r1 r2 [_ H] _ IH]; [by split_and!|].
  unfold same_binding in *. destruct_and!. split_and!; congruence.
Qed.

(** A claim that succeeds was made for the request that was created: by
    the prompted transport identity and actor, for the same action, resource
    and request hash, before its expiry, and with the token [Create] returned
    (or a token with the same SHA-256 digest).  What the store did in between,
    and every failure, makes no difference. *)
Theorem Claim_needs_token r0 now w r w1 l c lease r' w2 :
  Create r0 now w = (Ok r, w1) -> cf_id c = rq_id r ->
  Claim c lease (run_ops l w1) = (Ok r', w2) ->
  clean_transport (cf_transport_actor c) = rq_transport_actor r
  /\ a_type (clean_actor (cf_actor c)) = a_type (rq_actor r)
  /\ a_id (clean_actor (cf_actor c)) = a_id (rq_actor r)
  /\ cf_action c = rq_action r /\ cf_resource c = rq_resource r
  /\ cleanToken (cf_request_hash c) 128 = rq_request_hash r
  /\ (now <= cf_now c < rq_expires_at r)%Z
  /\ (cf_binding_token c = rq_binding_token r
      \/ (cf_binding_token c <> rq_binding_token r
          /\ hashBindingToken (cf_binding_token c) = hashBindingToken (rq_binding_token r))).
Proof.
  intros HC Hid HCl. apply Create_ok in HC as (id & token & ev & -> & _ & _ & _ & D1).
  apply Claim_ok in HCl as (row & ev' & Hr & Hn & _).
  rewrite Hid in Hr. cbn [rq_id prepare_request] in *.
  destruct (evolves_ops l w1) as [A _]. edestruct (A id) as (row' & Hr' & Hlife).
  { rewrite D1. apply lookup_insert_eq. }
  rewrite Hr' in Hr. injection Hr as <-. apply life_binding in Hlife.
  apply claim_refusal_none in Hn as (_ & _ & Ht & Hb). apply binding_match in Hb.
  unfold same_binding in Hlife. cbn in Hlife, Hb, Ht |- *. destruct_and! Hlife. destruct_and! Hb.
  destruct_and! Ht. simplify_eq/=.
  split_and!; try congruence; try lia.
  - unfold clean_transport at 2. congruence.
  - destruct (rq_resource r0). cbn in *. congruence.
  - destruct (decide (cf_binding_token c = token)); [by left|right]. split; congruence.
Qed.
End Answers.

(** ** A store that answers *)

Section Completeness.
Context `{HOST : !Host} {PS : Type}.
Implicit Types w : World PS.

(** A token issued from sixteen random bytes is a valid one. *)
Lemma issued_token_valid b : length b = 16 -> Forall (fun x => x < 256)%N b ->
  validBindingToken (raw_url_encode b) = true.
Proof.
  intros Hl Hb. unfold validBindingToken.
  destruct (raw_url_chars b Hb) as (_ & _ & ->). rewrite Hl, raw_url_trim, eqs_refl by done.
  cbn. rewrite raw_url_round_trip by done. by rewrite Hl.
Qed.

(** The converse for a store that answers: a claim that matches its
    request in every field, in time and with its token, made when the request
    is pending (or executing for longer than the lease), succeeds and leaves
    the request executing. *)
Theorem Claim_accepts c lease w row :
  reliable w -> fresh_audit w ->
  approvals (w_db w) !! cf_id c = Some row ->
  claim_refusal (row_request (cf_id c) row) c lease = None ->
  claimable (cf_now c - lease)%Z row = true -> approval_row_check row = true ->
  (ap_attempts row + 1 < 2 ^ 31)%Z ->
  exists r' w', Claim c lease w = (Ok r', w') /\ rq_id r' = cf_id c /\ rq_result r' = "executing"
    /\ approvals (w_db w') !! cf_id c = Some (set_executing (cf_now c) row).
Proof.
  intros Hw Hf Hr Hn Hc Hk Ha.
  cut (exists w', Claim c lease w = (Ok (claimed (row_request (cf_id c) row) (cf_now c)), w')).
  { intros (w' & HC). eexists _, w'. split_and!; [exact HC|done..|].
    apply Claim_ok in HC as (row' & ev & Hr' & _ & _ & _ & D & _). rewrite Hr in Hr'.
    injection Hr' as <-. rewrite D. apply lookup_insert_eq. }
  unfold Claim. destruct (next_outcome_reliable w Hw) as (w1 & O1 & W1 & D1 & _ & N1 & _).
  rewrite (bind_step _ _ _ (Some (row_request (cf_id c) row)) w1)
    by (unfold Get, queryM; by rewrite O1, D1, Hr).
  rewrite Hn. destruct (next_outcome_reliable w1 W1) as (w2 & O2 & W2 & D2 & _ & N2 & _).
  destruct (execM_reliable (update_approval (cf_id c) (claimable (cf_now c - lease)%Z)
    (set_executing (cf_now c))) w2 (Some (set_executing (cf_now c) row))
    (with_approvals (<[cf_id c := set_executing (cf_now c) row]>) (w_db w2)))
    as (w3 & E3 & W3 & D3 & _ & N3 & _); [done| |].
  { unfold update_approval. rewrite D2, D1, Hr, Hc. unfold approval_row_check in *. cbn.
    rewrite !andb_true_iff in Hk. destruct Hk as [[[-> H0] _] _]. cbn. to_prop.
    destruct (0 <=? ap_attempts row + 1)%Z eqn:E1; to_prop; [|lia].
    destruct (ap_attempts row + 1 <? 2 ^ 31)%Z eqn:E2; to_prop; [done|lia]. }
  destruct (WriteSQL_reliable (approvalAuditEvent (claimed (row_request (cf_id c) row) (cf_now c))
    "notification.approval.confirm" "success" None) w3) as (w4 & E4 & W4); [done| |done|].
  { unfold fresh_audit in *. by rewrite N3, N2, N1, D3, D2, D1. }
  destruct (next_outcome_reliable w4 W4) as (w5 & O5 & _).
  assert (transaction (claim_body (row_request (cf_id c) row) c lease) w1
    = (Ok (Some (claimed (row_request (cf_id c) row) (cf_now c))), w5)) as ET.
  { unfold transaction. rewrite O2. unfold claim_body.
    rewrite (bind_step _ _ _ _ _ E3), (bind_step _ _ _ _ _ E4). cbn. by rewrite O5. }
  exists w5. by rewrite (bind_step _ _ _ _ _ ET).
Qed.

(** ** Mappings *)

Lemma marshal_round_trip l : forallb ValidString l = true ->
  unmarshal_strings (marshal_strings l) = Some l.
Proof.
  intros Hv. unfold unmarshal_strings, marshal_strings, decode_json.
  rewrite parse_print.
  - destruct l as [|x l]; [done|]. apply store_slice_fresh. done.
  - destruct l as [|x l]; [done|]. cbn [wf_json]. revert Hv. generalize (x :: l). clear x l.
    intros l Hv. induction l as [|y l IH]; [done|]. cbn in *. apply andb_true_iff in Hv as [-> Hv].
    by apply IH.
  - destruct l as [|x l]; [done|]. cbn [json_depth]. generalize (x :: l). clear Hv x l. intros l.
    assert (foldr (fun v n => N.max (json_depth v) n) 0%N (map VStr l) = 0%N) as ->; [|done].
    induction l as [|y l IH]; [done|]. cbn in *. by rewrite IH.
Qed.

Lemma mappings_set f d : mappings (with_mappings f d) = f (mappings d).
Proof. done. Qed.

(** An actor that [Put] stored under a transport identity is the one [Map]
    finds, its scopes included, for every spelling of that identity; every
    other identity is mapped as before. *)
Theorem Put_Map m w w' w2 ta r w3 :
  Put m w = (Ok tt, w') -> forallb ValidString (a_scopes (am_actor m)) = true ->
  w_db w2 = w_db w' -> Map ta w2 = (Ok r, w3) ->
  (clean_transport ta = clean_transport (am_transport_actor m) ->
     r = Some {| a_type := a_type (clean_actor (am_actor m)); a_id := a_id (clean_actor (am_actor m));
                 a_mailbox := ""; a_scopes := a_scopes (am_actor m); a_groups := []; a_roles := [] |})
  /\ (forall w0 r0 w1, clean_transport ta <> clean_transport (am_transport_actor m) ->
        w_db w0 = w_db w -> Map ta w0 = (Ok r0, w1) -> r = r0).
Proof.
  unfold Put. intros HP Hs D2 HM. apply bind_ok in HP as (? & w1 & [Hg ->]%guardM_ok & HP).
  apply execM_ok in HP as [HP _]. injection HP as HP. unfold Map in *. split.
  - intros Ht. rewrite Ht in HM. to_prop. destruct Hg as [[[H1 H2] H3] H4].
    cbn [clean_mapping am_transport_actor] in H1, H2. apply eqs_false in H1, H2.
    cbv zeta in HM. rewrite H1, H2 in HM. cbn [orb] in HM.
    apply bind_ok in HM as (row & w4 & [Hq _]%queryM_ok & HM). injection Hq as <-.
    rewrite D2, <- HP in HM. unfold mapping_key in HM. cbn in HM. rewrite lookup_insert_eq in HM.
    cbn [mp_scopes_json mapping_row clean_mapping am_actor clean_actor a_scopes] in HM.
    rewrite marshal_round_trip in HM by done. by injection HM as <- _.
  - intros w0 r0 w5 Hne D0 HM0. cbv zeta in HM, HM0. clear Hg.
    destruct ((ta_transport (clean_transport ta) =?s "") || (ta_external_id (clean_transport ta) =?s "")).
    { injection HM as <- _. by injection HM0 as <- _. }
    apply bind_ok in HM as (row & w4 & [Hq _]%queryM_ok & HM). injection Hq as <-.
    apply bind_ok in HM0 as (row & w6 & [Hq _]%queryM_ok & HM0). injection Hq as <-.
    rewrite D2, <- HP, mappings_set, lookup_insert_ne in HM.
    2: { intros [= E1 E2]. apply Hne. cbn in E1, E2. unfold clean_transport. by rewrite E1, E2. }
    rewrite D0 in HM0. cbn [ta_transport ta_external_id clean_transport] in HM, HM0.
    destruct (mappings (w_db w) !! _) as [row|].
    + destruct (unmarshal_strings _); [|done]. injection HM as <- _. by injection HM0 as <- _.
    + injection HM as <- _. by injection HM0 as <- _.
Qed.

(** The Telegram mappings are exactly those of a list. *)
Definition telegram_key (m : ActorMapping) : string := ta_external_id (clean_transport (am_transport_actor m)).

Definition replaced (l : list ActorMapping) (d d' : DB) : Prop :=
  NoDup (map telegram_key l)
  /\ (forall m, m ∈ l -> mappings d' !! ("telegram", telegram_key m)
                         = Some (mapping_row (clean_actor (am_actor m))))
  /\ (forall external, external ∉ map telegram_key l -> mappings d' !! ("telegram", external) = None)
  /\ (forall transport external, transport <> "telegram" ->
       mappings d' !! (transport, external) = mappings d !! (transport, external)).

(** The loop: the keys it has seen, and the table after it. *)
Lemma replace_loop_ok l : forall seen w seen' w',
  replace_loop seen l w = (Ok seen', w') ->
  NoDup (map telegram_key l) /\ (forall k, k ∈ map telegram_key l -> k ∉ seen)
  /\ (forall k, k ∈ seen' <-> k ∈ seen \/ k ∈ map telegram_key l)
  /\ (forall m, m ∈ l -> mappings (w_db w') !! ("telegram", telegram_key m)
                          = Some (mapping_row (clean_actor (am_actor m))))
  /\ (forall t k, t <> "telegram" \/ k ∉ map telegram_key l ->
       mappings (w_db w') !! (t, k) = mappings (w_db w) !! (t, k)).
Proof.
  induction l as [|m l IH]; intros seen w seen' w' H; cbn [replace_loop] in H.
  { injection H as <- <-. split_and!; [constructor|..]; set_solver. }
  apply bind_ok in H as (? & w1 & [Hg ->]%guardM_ok & H).
  apply bind_ok in H as (? & w2 & [H2 _]%execM_ok & H). injection H2 as _ D2.
  apply IH in H as (Hn & Hd & Hs & Hm & Ho). fold (telegram_key m) in *.
  change (ta_external_id (am_transport_actor (clean_mapping m))) with (telegram_key m) in *.
  to_prop. destruct Hg as [_ Hg]. cbn [map].
  assert (telegram_key m ∉ map telegram_key l) as Hnew.
  { intros Hin. apply Hd in Hin. set_solver. }
  split_and!.
  - constructor; done.
  - intros k [->|Hk]%elem_of_cons; [done|]. apply Hd in Hk. set_solver.
  - intros k. rewrite Hs, elem_of_cons. set_solver.
  - intros m' [->|Hm']%elem_of_cons; [|by apply Hm]. rewrite Ho by (by right).
    rewrite <- D2, mappings_set. apply lookup_insert_eq.
  - intros t k Hk. rewrite Ho by set_solver. rewrite <- D2, mappings_set.
    apply lookup_insert_ne. intros [= <- <-]. set_solver.
Qed.

Lemma delete_stale_ok l : forall w w',
  delete_stale l w = (Ok tt, w') ->
  forall t k, mappings (w_db w') !! (t, k)
    = if bool_decide (t = "telegram" /\ k ∈ l) then None else mappings (w_db w) !! (t, k).
Proof.
  induction l as [|id l IH]; intros w w' H t k; cbn [delete_stale] in H.
  { injection H as <-. rewrite bool_decide_eq_false_2; [done|]. set_solver. }
  apply bind_ok in H as (? & w1 & [H1 _]%execM_ok & H). injection H1 as _ D1.
  rewrite (IH _ _ H), <- D1, mappings_set. clear IH H D1.
  destruct (decide (("telegram", id) = (t, k))) as [[= <- <-]|Hne].
  - rewrite lookup_delete_eq, (bool_decide_eq_true_2 ("telegram" = "telegram" /\ (id ∈ id :: l)))
      by (split; [done|left]).
    by destruct (bool_decide _).
  - rewrite lookup_delete_ne by done.
    assert (bool_decide (t = "telegram" /\ (k ∈ id :: l)) = bool_decide (t = "telegram" /\ k ∈ l)) as ->;
      [|done].
    apply bool_decide_ext. rewrite elem_of_cons. split; [|tauto].
    intros [-> [->|?]]; [by destruct Hne|done].
Qed.

Lemma stale_mappings_spec seen d k :
  (k ∈ stale_mappings seen d) <-> (k ∉ seen) /\ is_Some (mappings d !! ("telegram", k)).
Proof.
  unfold stale_mappings. rewrite list_elem_of_In, filter_In, in_map_iff, negb_true_iff.
  setoid_rewrite bool_decide_eq_false. split.
  - intros (((t & k') & <- & Hk) & Hn). split; [done|]. apply filter_In in Hk as [Hk Ht].
    cbn in *. apply eqs_true in Ht as ->. apply in_map_iff in Hk as (((t & k) & row) & [= -> ->] & Hk).
    exists row. by apply elem_of_map_to_list, list_elem_of_In.
  - intros (Hn & row & Hr). split; [|done]. exists ("telegram", k). split; [done|].
    apply filter_In. split; [|done]. apply in_map_iff. exists (("telegram", k), row).
    split; [done|]. by apply list_elem_of_In, elem_of_map_to_list.
Qed.

(** [ReplaceTelegram] is all or nothing: whatever fails, the mapping table
    is the one it found, or the Telegram mappings are exactly those of the
    list (each identity once) and every other transport is untouched. *)
Theorem ReplaceTelegram_exact l w r w' :
  ReplaceTelegram l w = (r, w') -> w_db w' = w_db w \/ replaced l (w_db w) (w_db w').
Proof.
  unfold ReplaceTelegram. intros [?|(w1 & [] & w2 & H & D1 & D2)]%transaction_atomic; [by left|right].
  apply bind_ok in H as (seen & w3 & HL & H).
  apply replace_loop_ok in HL as (Hn & _ & Hs & Hm & Ho).
  apply bind_ok in H as (stale & w4 & [Hq [D4 _]]%queryM_ok & H). injection Hq as <-.
  apply bind_ok in H as ([] & w5 & HD & H). injection H as <-.
  pose proof (delete_stale_ok _ _ _ HD) as Hdel. rewrite D4 in Hdel. rewrite <- D1, D2.
  split_and!; [done|..].
  - intros m Hin. rewrite Hdel, bool_decide_eq_false_2; [by apply Hm|].
    intros [_ [Hk _]%stale_mappings_spec]. apply Hk, Hs. right. by apply list_elem_of_fmap_2.
  - intros k Hk. rewrite Hdel. case_bool_decide as Hc; [done|].
    destruct (mappings (w_db w3) !! ("telegram", k)) eqn:E; [|done]. destruct Hc. split; [done|].
    apply stale_mappings_spec. rewrite Hs. split; [set_solver|by rewrite E].
  - intros t k Ht. rewrite Hdel, bool_decide_eq_false_2 by naive_solver. apply Ho. by left.
Qed.
End Completeness.
