(* ===== verification/Executor.v ===== *)
(** * Approved queue operations (internal/notifyruntime/approval_service.go,
      executor.go)

    [RequestTelegramApproval] prompts an operator for a queue operation;
    [ExecuteTelegramApproval] runs it when the operator confirms.  Both are
    wired as in cmd/gotth-mail: the SQL mapper, the SQL approval store, the
    role authorizer, the audit table, and a queue operator (Postfix or its
    remote helper).  An error of the monad is a panic of the authorizer; the
    error an executor returns comes with its partial result, as in Go. *)

From stdpp Require Import base list gmap sets strings.
From Stdlib Require Import ZArith Lia Ascii.
From S2P Require Import Prelude GoStd Json JsonStruct Sha256 Policy Queue AuditLog Database QueueStore Reconcile Postfix Helper Lookup Tokens Authz NotifyText Approval.
Import authz.
#[local] Existing Instances M_ret M_bind.

(** The prompt, as the notification plugin is given it; the expiry is printed
    there. *)
Record NotificationPrompt := {
  np_id : string; np_correlation_id : string; np_transport : string; np_external_actor_id : string;
  np_actor_type : string; np_actor_id : string; np_action : string; np_resource_type : string;
  np_resource_id : string; np_request_hash : string; np_expires_at : Z;
  np_confirmation_token : string; np_title : string; np_summary : string;
}.

(** [SendPrompt]: whether the prompt was accepted. *)
Class PromptSender (PS : Type) := { send_prompt : NotificationPrompt -> Command PS bool }.

Record TelegramApprovalRequest := {
  tr_transport_actor : TransportActor; tr_initiator : Actor; tr_action : Action;
  tr_resource : Resource; tr_correlation_id : string; tr_expires_at : Z; tr_title : string;
  tr_summary : string;
}.

(** [ex_queue] is whether a queue is configured, [ex_after_mutation] the hook
    and [ex_lease] the lease in nanoseconds. *)
Record ApprovalExecutor := {
  ex_authorizer : StaticAuthorizer; ex_queue : bool; ex_lease : Z;
  ex_after_mutation : option (ApprovalRequest -> result unit);
}.

Record ExecutionResult := {
  er_approval_id : string; er_action : string; er_resource : string; er_executed : bool;
}.
Definition no_result : ExecutionResult :=
  {| er_approval_id := ""; er_action := ""; er_resource := ""; er_executed := false |}.

Definition nil_map_panic : string := "panic: assignment to entry in nil map".

Section Executor.
Context `{HOST : !Host} {PS : Type} `{OPERATOR : !QueueOperator PS}.

(** ** The request hash *)

Definition request_payload (action : Action) (resource : Resource) (snapshot : QueueSnapshot) : jval :=
  VObj [("action", VStr action);
        ("resource", VObj [("Type", VStr (r_type resource)); ("ID", VStr (r_id resource))]);
        ("snapshot", snapshot_json snapshot)].

Definition request_hash (action : Action) (resource : Resource) (snapshot : QueueSnapshot) : string :=
  "sha256:" +:+ sha256_hex (bytes_of (print_json (request_payload action resource snapshot))).

Definition hash_selector (action : Action) (resource : Resource) : string :=
  if action =?s "queue:retry" then r_id resource else "".

Definition queueApprovalRequestHash (queue : bool) (action : Action) (resource : Resource)
    : M PS string :=
  guardM (negb queue) "queue runtime required";;
  snapshot ← extM (op_snapshot (hash_selector action resource));
  mret (request_hash action resource snapshot).

(** ** RequestTelegramApproval *)

Definition prompt_of (created : ApprovalRequest) (input : TelegramApprovalRequest) : NotificationPrompt :=
  {| np_id := rq_id created; np_correlation_id := rq_correlation_id created;
     np_transport := ta_transport (rq_transport_actor created);
     np_external_actor_id := ta_external_id (rq_transport_actor created);
     np_actor_type := a_type (rq_actor created); np_actor_id := a_id (rq_actor created);
     np_action := rq_action created; np_resource_type := r_type (rq_resource created);
     np_resource_id := r_id (rq_resource created); np_request_hash := rq_request_hash created;
     np_expires_at := rq_expires_at created; np_confirmation_token := rq_binding_token created;
     np_title := tr_title input; np_summary := tr_summary input |}.

Definition new_request (input : TelegramApprovalRequest) (actor : Actor) (hash : string) : ApprovalRequest :=
  {| rq_id := ""; rq_transport_actor := tr_transport_actor input; rq_initiator := tr_initiator input;
     rq_actor := actor; rq_action := tr_action input; rq_resource := tr_resource input;
     rq_request_hash := hash; rq_binding_hash := ""; rq_binding_token := "";
     rq_correlation_id := tr_correlation_id input; rq_expires_at := tr_expires_at input;
     rq_created_at := 0; rq_used_at := None; rq_started_at := None; rq_attempts := 0;
     rq_result := "" |}.

Definition approvable_action (action : Action) : bool :=
  (action =?s "queue:flush") || (action =?s "queue:retry").
Definition queue_resource (resource : Resource) : bool :=
  (r_type resource =?s "queue") || (r_type resource =?s "postfix_queue").

(** The checks before anything is created: the actor and the request hash. *)
Definition request_checks (authorizer : StaticAuthorizer) (input : TelegramApprovalRequest)
    : M PS (Actor * Z * string) :=
  guardM ((TrimSpace (a_type (tr_initiator input)) =?s "") || (TrimSpace (a_id (tr_initiator input)) =?s ""))
    "approval initiator required";;
  guardM (negb (approvable_action (tr_action input))) "unsupported approval action";;
  guardM (negb (queue_resource (tr_resource input))) "queue approval resource required";;
  mapped ← Map (tr_transport_actor input);
  match mapped with
  | None => failM "notification actor mapping required"
  | Some actor =>
      match Decide authorizer actor (tr_action input) (tr_resource input) with
      | None => failM nil_map_panic
      | Some decision =>
          guardM (negb (d_allow decision)) "approval action unauthorized";;
          now ← nowM;
          hash ← queueApprovalRequestHash true (tr_action input) (tr_resource input);
          mret (actor, now, hash)
      end
  end.

Definition RequestTelegramApproval `{SENDER : !PromptSender PS} (authorizer : StaticAuthorizer)
    (input : TelegramApprovalRequest) : M PS ApprovalRequest :=
  checked ← request_checks authorizer input;
  let '(actor, now, hash) := checked in
  created ← Create (new_request input actor hash) now;
  sent ← tryM (extM (send_prompt (prompt_of created input)));
  match sent with
  | Ok true =>
      now ← nowM;
      activated ← tryM (Activate (rq_id created) now);
      match activated with
      | Ok _ => mret (put rq_binding_token "" (put rq_result "pending" created))
      | Err _ => failM "notification approval activation failed"
      end
  | _ =>
      now ← nowM;
      invalidated ← tryM (Invalidate (rq_id created) now "prompt_delivery_failed");
      match invalidated, sent with
      | Err _, _ => failM "notification prompt invalidation failed"
      | Ok _, Err err => failM err
      | Ok _, Ok _ => failM "notification prompt rejected"
      end
  end.

(** ** ExecuteTelegramApproval *)

(** What the executor returns: a result and perhaps an error. *)
Definition answer : Type := ExecutionResult * option string.

(** [if auditErr := write; auditErr != nil { return "approval audit
    unavailable" }; return err] *)
Definition stop (write : M PS unit) (err : string) : M PS answer :=
  written ← tryM write;
  mret (no_result, Some match written with Ok _ => err | Err _ => "approval audit unavailable" end).

Definition writeAudit (r : ApprovalRequest) (result code : string) : M PS unit :=
  WriteSQL (execute_event r result code).

Definition transport_event (approvalID : string) (actor : TransportActor) (result code : string) : Event :=
  {| ev_id := ""; ev_time := 0;
     ev_actor := {| actor_type := ta_transport actor; actor_id := ta_external_id actor |};
     ev_source := None; ev_action := "notification.approval.execute";
     ev_resource := {| resource_type := "notification_approval"; resource_id := approvalID |};
     ev_before := JNull; ev_after := JObj [("transport", JStr (ta_transport actor))];
     ev_correlation_id := ""; ev_result := result; ev_error_code := code |}.
Definition writeTransportAudit (approvalID : string) (actor : TransportActor) (result code : string)
    : M PS unit :=
  WriteSQL (transport_event approvalID actor result code).

Definition validateMutation (queue : bool) (r : ApprovalRequest) : result unit :=
  if negb (approvable_action (rq_action r)) then Err "unsupported approved mutation" else
  if negb (queue_resource (rq_resource r)) then Err "queue approval resource required" else
  if negb queue then Err "queue runtime required" else Ok tt.

Definition preflight (queue : bool) (r : ApprovalRequest) : M PS unit :=
  liftM (validateMutation queue r);;
  hash ← queueApprovalRequestHash queue (rq_action r) (rq_resource r);
  guardM (hash <>?s rq_request_hash r) "approval request changed".

(** [execute]: the operation that was approved. *)
Definition queue_mutation (r : ApprovalRequest) : Command PS unit :=
  if rq_action r =?s "queue:flush" then op_flush
  else if rq_action r =?s "queue:retry" then op_retry (r_id (rq_resource r))
  else fun s => (Err "unsupported approved mutation", s).

Definition execute (queue : bool) (r : ApprovalRequest) : M PS unit :=
  liftM (validateMutation queue r);;
  extM (queue_mutation r).

Definition lease (e : ApprovalExecutor) : Z :=
  if (0 <? ex_lease e)%Z then ex_lease e else (2 * 60 * 10 ^ 9)%Z.

Definition confirmed_result (r : ApprovalRequest) (executed : bool) : ExecutionResult :=
  {| er_approval_id := rq_id r; er_action := rq_action r;
     er_resource := r_type (rq_resource r) +:+ ":" +:+ r_id (rq_resource r);
     er_executed := executed |}.

Definition execute_confirmed (e : ApprovalExecutor) (confirmed : ApprovalRequest) : M PS answer :=
  mutated ← tryM (execute (ex_queue e) confirmed);
  match mutated with
  | Err err =>
      now ← nowM;
      retried ← tryM (RetryApproval (rq_id confirmed) now "queue_mutation_failed");
      mret (confirmed_result confirmed false,
            Some match retried with Ok _ => err | Err _ => "approval recovery audit unavailable" end)
  | Ok _ =>
      match match ex_after_mutation e with Some after => after confirmed | None => Ok tt end with
      | Err err => mret (confirmed_result confirmed false, Some err)
      | Ok _ =>
          now ← nowM;
          completed ← tryM (Complete (rq_id confirmed) now);
          mret (confirmed_result confirmed true,
                match completed with Ok _ => None | Err err => Some err end)
      end
  end.

(** From the request that was found to its claim. *)
Definition execute_request (e : ApprovalExecutor) (approvalID bindingToken : string)
    (actor : TransportActor) (mapped : Actor) (req : ApprovalRequest) : M PS answer :=
  if (match rq_used_at req with Some _ => true | None => false end)
     || ((rq_result req <>?s "pending") && (rq_result req <>?s "executing"))
  then stop (writeAudit req "denied" "approval_replay_rejected") "approval replay rejected" else
  match Decide (ex_authorizer e) mapped (rq_action req) (rq_resource req) with
  | None => failM nil_map_panic
  | Some decision =>
      if negb (d_allow decision)
      then stop (writeAudit req "denied" "authorization_denied") "approval action unauthorized" else
      checked ← tryM (if rq_result req =?s "pending" then preflight (ex_queue e) req
                      else liftM (validateMutation (ex_queue e) req));
      match checked with
      | Err err => stop (writeAudit req "denied" "approval_request_changed") err
      | Ok _ =>
          now ← nowM;
          confirmed ← tryM (Claim {| cf_id := approvalID; cf_transport_actor := actor;
            cf_actor := mapped; cf_action := rq_action req; cf_resource := rq_resource req;
            cf_request_hash := rq_request_hash req; cf_binding_token := bindingToken;
            cf_now := now |} (lease e));
          match confirmed with
          | Err err => mret (no_result, Some err)
          | Ok confirmed => execute_confirmed e confirmed
          end
      end
  end.

Definition ExecuteTelegramApproval (e : ApprovalExecutor) (approvalID bindingToken : string)
    (actor : TransportActor) : M PS answer :=
  mapped ← tryM (Map actor);
  match mapped with
  | Err err => stop (writeTransportAudit approvalID actor "failure" "mapping_unavailable") err
  | Ok None => stop (writeTransportAudit approvalID actor "denied" "mapping_required")
                 "notification actor mapping required"
  | Ok (Some mapped) =>
      found ← tryM (Get approvalID);
      match found with
      | Err err => stop (writeTransportAudit approvalID actor "failure" "approval_lookup_failed") err
      | Ok None => stop (writeTransportAudit approvalID actor "denied" "approval_not_found")
                     "approval request not found"
      | Ok (Some req) => execute_request e approvalID bindingToken actor mapped req
      end
  end.
End Executor.

(** ** What reading the queue may do *)

(** [postqueue -j] lists the queue and changes nothing. *)
Class SnapshotReads {PS : Type} `(OPERATOR : !QueueOperator PS) : Prop :=
  { snapshot_reads : forall selector s, (op_snapshot selector s).2 = s }.

(** The actor a transport identity is mapped to. *)
Definition mapped_actor `{HOST : !Host} (d : DB) (ta : TransportActor) : option Actor :=
  let t := clean_transport ta in
  if (ta_transport t =?s "") || (ta_external_id t =?s "") then None else
  row ← mappings d !! (ta_transport t, ta_external_id t);
  scopes ← unmarshal_strings (mp_scopes_json row);
  Some {| a_type := mp_actor_type row; a_id := mp_actor_id row; a_mailbox := "";
          a_scopes := scopes; a_groups := []; a_roles := [] |}.

Section Facts.
Context `{HOST : !Host} {PS : Type} `{OPERATOR : !QueueOperator PS} `{READS : !SnapshotReads OPERATOR}.
Implicit Types w : World PS.

Lemma Map_ok ta w r w' : Map ta w = (Ok r, w') -> r = mapped_actor (w_db w) ta /\ w_db w' = w_db w.
Proof.
  unfold Map, mapped_actor. cbv zeta. destruct (_ || _).
  { intros H. by injection H as <- <-. }
  intros H. apply bind_ok in H as (row & w1 & (Hq & D & _)%queryM_ok & H). injection Hq as <-.
  destruct (mappings (w_db w) !! _) as [row|]; cbn [mbind option_bind]; [|by injection H as <- <-].
  destruct (unmarshal_strings _) as [scopes|]; [|done]. by injection H as <- <-.
Qed.

(** *** Programs that leave the queue alone *)

Lemma keeps_update_and_audit id cond set msg event :
  keeps_ext (PS := PS) (update_and_audit id cond set msg event).
Proof. unfold update_and_audit. solve_keeps. Qed.
#[local] Hint Resolve keeps_update_and_audit : effects.

Lemma keeps_Map ta : keeps_ext (PS := PS) (Map ta).
Proof. unfold Map. solve_keeps. Qed.

Lemma keeps_denied r now msg terminal : keeps_ext (PS := PS) (recordDenied r now msg terminal).
Proof. unfold recordDenied. solve_keeps. Qed.
#[local] Hint Resolve keeps_denied : effects.

Lemma keeps_claim_fail {A} r c msg terminal :
  keeps_ext (PS := PS) (claim_fail (A := A) r c msg terminal).
Proof. unfold claim_fail. solve_keeps. Qed.
#[local] Hint Resolve keeps_claim_fail : effects.

Lemma keeps_Claim c l : keeps_ext (PS := PS) (Claim c l).
Proof. unfold Claim, Get, claim_body. solve_keeps. Qed.

Lemma keeps_Create r now : keeps_ext (PS := PS) (Create r now).
Proof. unfold Create, newID, newBindingToken. solve_keeps. Qed.

Lemma keeps_Activate id now : keeps_ext (PS := PS) (Activate id now).
Proof. unfold Activate. solve_keeps. Qed.

Lemma ok_ext {A} (m : M PS A) w a w' : keeps_ext m -> m w = (Ok a, w') -> w_ext w' = w_ext w.
Proof. intros K H. specialize (K w). by rewrite H in K. Qed.

Lemma keeps_stop write err : keeps_ext write -> keeps_ext (PS := PS) (stop write err).
Proof.
  intros H. unfold stop. apply keeps_bind; [by apply keeps_try|]. intros ?. apply keeps_ret.
Qed.

Lemma keeps_hash queue action resource :
  keeps_ext (PS := PS) (queueApprovalRequestHash queue action resource).
Proof.
  unfold queueApprovalRequestHash. apply keeps_bind; [apply keeps_guard|]. intros _.
  apply keeps_bind; [|intros ?; apply keeps_ret]. intros w. unfold extM.
  pose proof (snapshot_reads (hash_selector action resource) (w_ext w)) as H.
  destruct (op_snapshot _ _) as [r s]. exact H.
Qed.

Lemma keeps_preflight queue r : keeps_ext (PS := PS) (preflight queue r).
Proof.
  unfold preflight. apply keeps_bind; [apply keeps_lift|]. intros _.
  apply keeps_bind; [apply keeps_hash|]. intros ?. apply keeps_guard.
Qed.

(** *** Running to the mutation *)

Lemma tryM_run {A} (m : M PS A) w r w' : tryM m w = (Ok r, w') -> m w = (r, w').
Proof. unfold tryM. destruct (m w) as [x w1]. by intros [= -> ->]. Qed.

Lemma effect_eq_db {A} (m : M PS A) w r w' : effect eq m -> m w = (r, w') -> w_db w' = w_db w.
Proof. intros H E. specialize (H w). by rewrite E in H. Qed.

Lemma effect_preflight queue r : effect (PS := PS) eq (preflight queue r).
Proof. unfold preflight, queueApprovalRequestHash. solve_effect. Qed.

(** After the claim only the mutation touches the queue. *)
Lemma execute_confirmed_ext e confirmed w :
  w_ext (execute_confirmed e confirmed w).2 <> w_ext w ->
  validateMutation (ex_queue e) confirmed = Ok tt
  /\ w_ext (execute_confirmed e confirmed w).2 = (queue_mutation confirmed (w_ext w)).2.
Proof.
  unfold execute_confirmed.
  match goal with |- context [mbind ?k (tryM _)] => set (rest := k) end.
  assert (forall x, keeps_ext (rest x)) as Hk.
  { intros x. unfold rest, RetryApproval, Complete. solve_keeps. }
  rewrite bind_run. unfold tryM, execute.
  destruct (validateMutation (ex_queue e) confirmed) as [[]|err]; cbn [liftM];
    rewrite bind_run; unfold liftM.
  2: { intros H. by rewrite Hk in H. }
  unfold extM. destruct (queue_mutation confirmed (w_ext w)) as [r s]. by rewrite Hk.
Qed.

Lemma queueApprovalRequestHash_ok queue action resource w h w' :
  queueApprovalRequestHash queue action resource w = (Ok h, w') ->
  exists snapshot, (op_snapshot (hash_selector action resource) (w_ext w)).1 = Ok snapshot
    /\ h = request_hash action resource snapshot /\ w_db w' = w_db w.
Proof.
  unfold queueApprovalRequestHash. intros H. apply bind_ok in H as (? & w1 & [_ ->]%guardM_ok & H).
  apply bind_ok in H as (sn & w2 & H2 & H). injection H as <- <-. unfold extM in H2.
  destruct (op_snapshot _ (w_ext w)) as [r s]. injection H2 as -> <-. by exists sn.
Qed.

Lemma preflight_ok queue r w w' : preflight queue r w = (Ok tt, w') ->
  validateMutation queue r = Ok tt
  /\ exists snapshot, (op_snapshot (hash_selector (rq_action r) (rq_resource r)) (w_ext w)).1 = Ok snapshot
    /\ rq_request_hash r = request_hash (rq_action r) (rq_resource r) snapshot.
Proof.
  unfold preflight. intros H. apply bind_ok in H as ([] & w1 & [Hv ->]%liftM_ok & H). split; [done|].
  apply bind_ok in H as (h & w2 & H2 & H). apply queueApprovalRequestHash_ok in H2 as (sn & Hs & -> & _).
  apply guardM_ok in H as [Hg _]. exists sn. split; [done|]. by to_prop.
Qed.

(** What holds of the request and of the caller when the queue is touched. *)
Record guarded (e : ApprovalExecutor) (id token : string) (ta : TransportActor) (d : DB) (s s' : PS)
    (row : ApprovalRow) (actor : Actor) (now : Z) : Prop := {
  gd_mapped : mapped_actor d ta = Some actor;
  gd_permitted : permitted (ex_authorizer e) actor (ap_action row)
    {| r_type := ap_resource_type row; r_id := ap_resource_id row |};
  gd_row : approvals d !! id = Some row;
  gd_unused : ap_used_at row = None;
  gd_state : ap_result row = "pending" \/ ap_result row = "executing";
  gd_abandoned : ap_result row = "executing" -> exists started, ap_started_at row = Some started
    /\ (started < now - lease e)%Z;
  gd_time : (ap_created_at row <= now < ap_expires_at row)%Z;
  gd_transport : clean_transport ta
    = {| ta_transport := ap_transport row; ta_external_id := ap_external_actor_id row |};
  gd_actor : cleanToken (a_type actor) 40 = ap_actor_type row /\ TrimSpace (a_id actor) = ap_actor_id row;
  gd_token : validBindingToken token = true /\ hashBindingToken token = ap_binding_hash row;
  gd_unchanged : ap_result row = "pending" -> exists snapshot,
    (op_snapshot (hash_selector (ap_action row) {| r_type := ap_resource_type row;
                                                   r_id := ap_resource_id row |}) s).1 = Ok snapshot
    /\ ap_request_hash row = request_hash (ap_action row)
         {| r_type := ap_resource_type row; r_id := ap_resource_id row |} snapshot;
  gd_mutation : s' = (if ap_action row =?s "queue:flush" then op_flush s
                      else op_retry (ap_resource_id row) s).2;
}.

Lemma execute_request_ext e id token ta actor row w :
  approvals (w_db w) !! id = Some row -> mapped_actor (w_db w) ta = Some actor ->
  w_ext (execute_request e id token ta actor (row_request id row) w).2 <> w_ext w ->
  exists now, guarded e id token ta (w_db w) (w_ext w)
    (w_ext (execute_request e id token ta actor (row_request id row) w).2) row actor now.
Proof.
  intros Hr Hm. unfold execute_request. set (req := row_request id row).
  destruct (_ || _) eqn:Eu. { intros H. destruct H. apply keeps_stop, keeps_WriteSQL. }
  destruct (Decide (ex_authorizer e) actor (rq_action req) (rq_resource req)) as [d|] eqn:Ed;
    [|by intros []].
  destruct (d_allow d) eqn:Ea; cbn [negb]; [|intros H; destruct H; apply keeps_stop, keeps_WriteSQL].
  apply Decide_permitted in Ed; [|done].
  intros H. apply bind_changed in H as (checked & w1 & H1 & H & ->).
  2: { apply keeps_try. destruct (_ =?s _); [apply keeps_preflight|apply keeps_lift]. }
  apply tryM_run in H1.
  destruct checked as [[]|err]; [|destruct H; apply keeps_stop, keeps_WriteSQL].
  assert (w_db w1 = w_db w /\ w_ext w1 = w_ext w) as [D1 X1].
  { split.
    - eapply effect_eq_db; [|exact H1]. destruct (_ =?s _); [apply effect_preflight|apply effect_lift; apply _].
    - change w1 with (Ok (A := unit) tt, w1).2. rewrite <- H1.
      destruct (_ =?s _); [apply keeps_preflight|apply keeps_lift]. }
  apply bind_changed in H as (now & w2 & H2 & H & ->); [|apply keeps_now].
  apply bind_changed in H as (confirmed & w3 & H3 & H & ->); [|apply keeps_try, keeps_Claim].
  apply tryM_run in H3. destruct confirmed as [confirmed|err]; [|by destruct H].
  destruct (nowM_run w1) as (t & w2' & E2 & D2 & X2 & _). rewrite E2 in H2. injection H2 as -> ->.
  apply Claim_ok in H3 as (row' & ev & Hr' & Hn & Hcl & -> & _ & _ & _ & X3).
  cbn [cf_id cf_now] in *. rewrite D2, D1, Hr in Hr'. injection Hr' as <-.
  apply execute_confirmed_ext in H as [Hv ->].
  apply claim_refusal_none in Hn as (Hu & Hst & (_ & Ht) & Hb). apply binding_match in Hb.
  destruct Hb as (B1 & B2 & B3 & _ & _ & _ & B7 & B8). fold req in B1, B2, B3, B8. 
  exists now. split; try done.
  - intros Hx. unfold claimable in Hcl. apply andb_true_iff in Hcl as [_ Hcl]. rewrite Hx in Hcl. cbn in Hcl.
    destruct (ap_started_at row) as [started|]; [|done]. exists started. split; [done|by apply Z.ltb_lt].
  - intros Hp. destruct (rq_result req =?s "pending") eqn:E; [|cbn in E; by rewrite Hp in E].
    by apply preflight_ok in H1 as [_ ?].
  - rewrite X3, X2, X1. unfold queue_mutation. unfold validateMutation, approvable_action in Hv.
    cbn in Hv |- *. destruct (ap_action row =?s "queue:flush"); [done|].
    by destruct (ap_action row =?s "queue:retry").
Qed.

Lemma execute_guarded_ok e id token ta w :
  w_ext (ExecuteTelegramApproval e id token ta w).2 <> w_ext w ->
  exists row actor now, guarded e id token ta (w_db w) (w_ext w)
    (w_ext (ExecuteTelegramApproval e id token ta w).2) row actor now.
Proof.
  intros H. unfold ExecuteTelegramApproval in *.
  apply bind_changed in H as (mapped & w1 & H1 & H & ->); [|apply keeps_try, keeps_Map].
  assert (w_ext w1 = w_ext w) as X1.
  { change w1 with (Ok (A := result (option Actor)) mapped, w1).2. rewrite <- H1. apply keeps_try, keeps_Map. }
  apply tryM_run in H1.
  destruct mapped as [[actor|]|err]; [|destruct H; apply keeps_stop, keeps_WriteSQL..].
  apply Map_ok in H1 as [Hm D1].
  apply bind_changed in H as (found & w2 & H2 & H & ->); [|apply keeps_try, keeps_query].
  apply tryM_run in H2.
  destruct found as [[req|]|err]; [|destruct H; apply keeps_stop, keeps_WriteSQL..].
  apply queryM_ok in H2 as (Hq & D2 & X2). injection Hq as Hq.
  destruct (approvals (w_db w1) !! id) as [row|] eqn:Er; [|done]. injection Hq as <-.
  apply execute_request_ext in H as (now & Hg); [|by rewrite D2|by rewrite D2, D1].
  exists row, actor, now. by rewrite D2, D1, X2, X1 in Hg.
Qed.

(** C39: The queue is touched only as approved.  Whatever fails, if executing an
    approval changed the queue, then: the transport identity is the prompted
    one and is mapped to the prompted actor; that actor is permitted the action
    on the resource now; the request was unexpired and unused; the token has
    the stored digest; and the change is one run of the approved operation.
    A request that was pending runs over the live queue whose snapshot has the
    approved hash. One whose earlier execution was abandoned, having started
    longer ago than the lease, is taken up again without that comparison, over
    the queue as it then is. *)
Theorem ExecuteTelegramApproval_guarded e id token ta w :
  w_ext (ExecuteTelegramApproval e id token ta w).2 <> w_ext w ->
  exists row actor now, guarded e id token ta (w_db w) (w_ext w)
    (w_ext (ExecuteTelegramApproval e id token ta w).2) row actor now.
Proof. apply execute_guarded_ok. Qed.

(** Only who holds the token of a request can have it executed: after
    [Create], and any calls of the store, executing the request changes the
    queue only for the prompted transport identity presenting the token that
    [Create] returned (or one with the same SHA-256 digest), and what runs is
    the requested action. *)
Theorem ExecuteTelegramApproval_needs_token r0 now0 w0 r w1 l e token ta :
  Create r0 now0 w0 = (Ok r, w1) ->
  let w := run_ops l w1 in let w' := (ExecuteTelegramApproval e (rq_id r) token ta w).2 in
  w_ext w' <> w_ext w ->
  clean_transport ta = rq_transport_actor r
  /\ (token = rq_binding_token r
      \/ (token <> rq_binding_token r /\ hashBindingToken token = hashBindingToken (rq_binding_token r)))
  /\ w_ext w' = (if rq_action r =?s "queue:flush" then op_flush (w_ext w)
                 else op_retry (r_id (rq_resource r)) (w_ext w)).2.
Proof.
  intros HC w w' H. apply execute_guarded_ok in H as (row & actor & now & G).
  apply Create_ok in HC as (id & tk & ev & -> & _ & _ & _ & D1).
  destruct (evolves_ops l w1) as [A _]. edestruct (A id) as (row' & Hr' & Hlife).
  { rewrite D1. apply lookup_insert_eq. }
  destruct G as [_ _ Hr _ _ _ _ Ht _ [_ Htk] _ Hmut]. cbn [rq_id prepare_request] in Hr.
  fold w in Hr', Hmut. fold w' in Hmut. clearbody w'. rewrite Hr' in Hr. injection Hr as <-. apply life_binding in Hlife.
  unfold same_binding in Hlife. destruct_and! Hlife. cbn in *. split_and!.
  - rewrite Ht. unfold clean_transport. congruence.
  - destruct (decide (token = tk)); [by left|right]. split; congruence.
  - rewrite Hmut. repeat match goal with E : _ row' = _ |- _ => rewrite E; clear E end. done.
Qed.

Lemma Complete_ok id now w w' : Complete id now w = (Ok tt, w') ->
  exists row, approvals (w_db w') !! id = Some (set_approved now row).
Proof.
  unfold Complete, update_and_audit. intros (w1 & c & w2 & H & D1 & _ & _ & D2)%transaction_ok.
  apply bind_ok in H as (row & w3 & [Hu _]%execM_ok & H). destruct row as [row'|]; [|done].
  apply update_approval_some in Hu as (row & _ & _ & _ & Hd).
  apply bind_ok in H as (? & w4 & (ev & Hw & _)%WriteSQL_ok & H). injection H as <- <-.
  exists row. rewrite D2, Hw, Hd. apply lookup_insert_eq.
Qed.

Lemma execute_confirmed_done e r w res w' : execute_confirmed e r w = (Ok (res, None), w') ->
  er_executed res = true /\ exists now row, approvals (w_db w') !! rq_id r = Some (set_approved now row).
Proof.
  unfold execute_confirmed. intros H. apply bind_ok in H as (mutated & w1 & _ & H).
  destruct mutated as [u|err].
  - destruct (match ex_after_mutation e with Some after => after r | None => Ok tt end); [|done].
    apply bind_ok in H as (now & w2 & _ & H). apply bind_ok in H as (completed & w3 & H3 & H).
    apply tryM_run in H3. destruct completed as [[]|err]; [|done]. injection H as <- <-.
    split; [done|]. exists now. by apply Complete_ok in H3.
  - apply bind_ok in H as (now & w2 & _ & H). apply bind_ok in H as (retried & w3 & _ & H). done.
Qed.

Lemma stop_err write err w (res : ExecutionResult) w' : stop (PS := PS) write err w <> (Ok (res, None), w').
Proof. unfold stop. intros H. apply bind_ok in H as (x & w1 & _ & H). done. Qed.

(** A request that is over is refused before anything else. *)
Lemma execute_over e id token ta w row :
  approvals (w_db w) !! id = Some row -> over row ->
  w_ext (ExecuteTelegramApproval e id token ta w).2 = w_ext w.
Proof.
  intros Hr Ho. unfold ExecuteTelegramApproval.
  pose proof (keeps_try _ (keeps_Map ta) w) as KM. rewrite bind_run.
  destruct (tryM (Map ta) w) as [[mapped|] w1] eqn:E1; [|exact KM]. cbn [snd] in KM. rewrite <- KM.
  destruct mapped as [[actor|]|err]; [|apply keeps_stop, keeps_WriteSQL..].
  apply tryM_run, Map_ok in E1 as [_ D1].
  pose proof (keeps_try _ (keeps_query (fun d => Ok (row_request id <$> approvals d !! id))) w1) as KG.
  unfold Get. rewrite bind_run. destruct (tryM (queryM _) w1) as [[found|] w2] eqn:E2; [|exact KG].
  cbn [snd] in KG. rewrite <- KG. apply tryM_run in E2.
  destruct found as [[req|]|err]; [|apply keeps_stop, keeps_WriteSQL..].
  apply queryM_ok in E2 as (Hq & _ & _). rewrite D1, Hr in Hq. injection Hq as <-.
  unfold execute_request. assert ((ap_result row <>?s "pending") && (ap_result row <>?s "executing") = true) as Hx.
  { unfold over in Ho. rewrite !elem_of_cons, elem_of_nil in Ho.
    destruct Ho as [->|[->|[->|[]]]]; done. }
  cbn [rq_result row_request]. rewrite Hx, orb_true_r. apply keeps_stop, keeps_WriteSQL.
Qed.

(** An execution that reports no error approved the request, and from then
    on the request is dead: whatever the store is asked to do in between,
    executing it again, by anyone and with any token, leaves the queue alone. *)
Theorem ExecuteTelegramApproval_once e id token ta w res w' l e' token' ta' :
  ExecuteTelegramApproval e id token ta w = (Ok (res, None), w') ->
  er_executed res = true
  /\ (exists row, approvals (w_db w') !! id = Some row /\ ap_result row = "approved")
  /\ w_ext (ExecuteTelegramApproval e' id token' ta' (run_ops l w')).2 = w_ext (run_ops l w').
Proof.
  unfold ExecuteTelegramApproval at 1. intros H. apply bind_ok in H as (mapped & w1 & _ & H).
  destruct mapped as [[actor|]|err]; [|by apply stop_err in H..].
  apply bind_ok in H as (found & w2 & _ & H). destruct found as [[req|]|err]; [|by apply stop_err in H..].
  unfold execute_request in H. destruct (_ || _); [by apply stop_err in H|].
  destruct (Decide _ _ _ _) as [d|]; [|done]. destruct (negb _); [by apply stop_err in H|].
  apply bind_ok in H as (checked & w3 & _ & H). destruct checked as [u|err]; [|by apply stop_err in H].
  apply bind_ok in H as (now & w4 & _ & H). apply bind_ok in H as (confirmed & w5 & H5 & H).
  destruct confirmed as [confirmed|err]; [|done]. apply tryM_run in H5.
  apply Claim_ok in H5 as (row0 & ev & _ & _ & _ & -> & _).
  apply execute_confirmed_done in H as (Hx & now' & row & Hrow). cbn [rq_id claimed row_request] in Hrow.
  change (rq_id (claimed _ _)) with id in Hrow.
  split_and!; [done|by eexists|].
  apply (execute_over e' id token' ta' _ (set_approved now' row));
    [apply over_stays; [done|]|]; unfold over; set_solver.
Qed.

(** *** What a prompted request is *)

Lemma request_hash_clean action resource snapshot :
  cleanToken (request_hash action resource snapshot) 128 = request_hash action resource snapshot.
Proof.
  unfold request_hash. destruct (sha256_hex_ok (bytes_of (print_json
    (request_payload action resource snapshot)))) as [Hl Hb].
  apply cleanToken_id.
  - unfold token_text. rewrite forall_bytes_app. cbn [forall_bytes]. rewrite andb_true_iff. split; [done|].
    revert Hb. by apply byte_class_incl.
  - rewrite len_app, Hl. cbn. lia.
Qed.

Lemma Activate_ok id now w w' : Activate id now w = (Ok tt, w') ->
  exists row, approvals (w_db w) !! id = Some row
    /\ approvals (w_db w') = <[id := set_pending now row]> (approvals (w_db w)).
Proof.
  unfold Activate, update_and_audit. intros (w1 & c & w2 & H & D1 & _ & _ & D2)%transaction_ok.
  apply bind_ok in H as (row & w3 & [Hu _]%execM_ok & H). destruct row as [row'|]; [|done].
  apply update_approval_some in Hu as (row & Hr & _ & _ & Hd).
  apply bind_ok in H as (? & w4 & (ev & Hw & _)%WriteSQL_ok & H). injection H as <- <-.
  exists row. rewrite <- D1. split; [done|]. by rewrite D2, Hw, Hd.
Qed.

(** The row and the prompt of a request are for this operator: the transport
    identity, the actor it is mapped to, and the operation it was asked for;
    the prompt says what the row stores and carries the token of its digest. *)
Record for_operator (ta : TransportActor) (actor : Actor) (action : Action) (resource : Resource)
    (row : ApprovalRow) (prompt : NotificationPrompt) : Prop := {
  fo_identity : clean_transport ta = {| ta_transport := ap_transport row; ta_external_id := ap_external_actor_id row |};
  fo_actor : (a_type (clean_actor actor), a_id (clean_actor actor)) = (ap_actor_type row, ap_actor_id row);
  fo_action : ap_action row = action;
  fo_resource : resource = {| r_type := ap_resource_type row; r_id := ap_resource_id row |};
  fo_prompted : {| ta_transport := np_transport prompt; ta_external_id := np_external_actor_id prompt |}
    = clean_transport ta;
  fo_prompt_actor : (np_actor_type prompt, np_actor_id prompt) = (ap_actor_type row, ap_actor_id row);
  fo_prompt_request : (np_action prompt, np_resource_type prompt, np_resource_id prompt, np_request_hash prompt)
    = (ap_action row, ap_resource_type row, ap_resource_id row, ap_request_hash row);
  fo_prompt_expiry : np_expires_at prompt = ap_expires_at row;
  fo_token : hashBindingToken (np_confirmation_token prompt) = ap_binding_hash row
    /\ validBindingToken (np_confirmation_token prompt) = true;
}.

(** A request that is returned as prompted: its action is one of the two
    queue operations, the transport identity is mapped to an actor permitted
    that action, one row is stored, under a new identifier, pending, unused and
    for that operator, its hash covering the action, the resource and the queue
    as it was; a prompt to that operator carrying the token of the stored
    digest was accepted, and is all that was done outside the database; the
    token is not returned to the caller. *)
Theorem RequestTelegramApproval_prompted `{SENDER : !PromptSender PS} authorizer input w r w' :
  RequestTelegramApproval authorizer input w = (Ok r, w') ->
  exists actor snapshot prompt row,
    mapped_actor (w_db w) (tr_transport_actor input) = Some actor
    /\ approvable_action (tr_action input) = true /\ queue_resource (tr_resource input) = true
    /\ permitted authorizer actor (tr_action input) (tr_resource input)
    /\ (op_snapshot (hash_selector (tr_action input) (tr_resource input)) (w_ext w)).1 = Ok snapshot
    /\ send_prompt prompt (w_ext w) = (Ok true, w_ext w') /\ np_id prompt = rq_id r
    /\ approvals (w_db w) !! rq_id r = None
    /\ approvals (w_db w') = <[rq_id r := row]> (approvals (w_db w))
    /\ ap_result row = "pending" /\ ap_used_at row = None
    /\ ap_request_hash row = request_hash (tr_action input) (tr_resource input) snapshot
    /\ for_operator (tr_transport_actor input) actor (tr_action input) (tr_resource input) row prompt
    /\ rq_binding_token r = "" /\ rq_result r = "pending".
Proof.
  unfold RequestTelegramApproval. intros H.
  apply bind_ok in H as ([[actor now] hash] & w1 & H1 & H).
  unfold request_checks in H1.
  apply bind_ok in H1 as (? & w2 & [_ ->]%guardM_ok & H1).
  apply bind_ok in H1 as (? & w2 & [Ha ->]%guardM_ok & H1).
  apply bind_ok in H1 as (? & w2 & [Hq ->]%guardM_ok & H1).
  apply bind_ok in H1 as (mapped & w2 & HM & H1).
  pose proof (keeps_Map (tr_transport_actor input) w) as X2. rewrite HM in X2. cbn [snd] in X2.
  apply Map_ok in HM as [Hm D2]. destruct mapped as [actor'|]; [|done].
  destruct (Decide authorizer actor' _ _) as [d|] eqn:Ed; [|done].
  apply bind_ok in H1 as (? & w3 & [Hal ->]%guardM_ok & H1). apply negb_false_iff in Hal.
  apply Decide_permitted in Ed; [|done].
  apply bind_ok in H1 as (t & w3 & H3 & H1).
  destruct (nowM_run w2) as (t' & w3' & E3 & D3 & X3 & _). rewrite E3 in H3. injection H3 as -> ->.
  apply bind_ok in H1 as (h & w4 & H4 & H1). injection H1 as -> -> -> ->.
  pose proof (ok_ext _ _ _ _ (keeps_hash _ _ _) H4) as X4.
  apply queueApprovalRequestHash_ok in H4 as (sn & Hs & -> & D4). rewrite X3, X2 in Hs.
  apply bind_ok in H as (created & w5 & HC & H).
  pose proof (ok_ext _ _ _ _ (keeps_Create _ _) HC) as X5.
  apply Create_ok in HC as (id & token & ev & -> & Hv & _ & Hnew & D5).
  apply bind_ok in H as (sent & w6 & H6 & H). apply tryM_run in H6.
  destruct sent as [[]|err].
  2,3: apply bind_ok in H as (? & ? & _ & H); apply bind_ok in H as ([] & ? & _ & H); done.
  unfold extM in H6. destruct (send_prompt _ (w_ext w5)) as [rs s] eqn:Es. injection H6 as -> <-.
  apply bind_ok in H as (now2 & w7 & H7 & H).
  destruct (nowM_run (set_ext s w5)) as (? & w7' & E7 & D7 & X7 & _). rewrite E7 in H7. injection H7 as -> ->.
  apply bind_ok in H as (activated & w8 & H8 & H). apply tryM_run in H8.
  destruct activated as [[]|err]; [|done]. injection H as <- <-.
  pose proof (ok_ext _ _ _ _ (keeps_Activate _ _) H8) as X8.
  apply Activate_ok in H8 as (row & Hr & Hr').
  rewrite D7 in Hr. cbn [w_db set_ext] in Hr. rewrite D5 in Hr.
  change (rq_id (prepare_request _ id _ _)) with id in Hr, Hr'.
  rewrite approvals_set_audit, lookup_insert_eq in Hr. injection Hr as <-.
  rewrite D7 in Hr'. cbn [w_db set_ext] in Hr'. rewrite D5, approvals_set_audit, insert_insert_eq in Hr'.
  rewrite D4, D3, D2 in Hnew, Hr'.
  rewrite X5, X4, X3, X2 in Es. rewrite X8, X7. cbn [w_ext set_ext].
  eexists _, sn, _, _.
  split_and!; [done|by apply negb_false_iff|by apply negb_false_iff|done|exact Hs|exact Es|done|exact Hnew|exact Hr'|..];
    try done; [apply request_hash_clean|]. split; try done. cbn. by destruct (tr_resource input).
Qed.
End Facts.
