(* ===== verification/Telegram.v ===== *)
(** * The Telegram receiver (internal/notification/commands.go, telegram.go,
      telegram_sql.go)

    A webhook delivers updates.  A message is one of six read-only commands,
    a callback is the confirmation of an approval; everything else is audited
    and refused.  Updates are numbered, and the store of processed updates
    answers a repeated one with the recorded reply. *)

From stdpp Require Import base list gmap sets strings pretty.
From Stdlib Require Import ZArith Lia Ascii.
From S2P Require Import Prelude GoStd Json JsonText JsonStruct Policy Queue AuditLog Database Reconcile Postfix Http Helper Daemon Routes Verifier Lookup LookupRoutes Authz NotifyText Notification Approval Executor.
Import authz.
#[local] Existing Instances M_ret M_bind.

(** ** Commands *)

Definition ReadOnlyCommand : Type := string.

(** [CommandProvider]: the text of a command's answer. *)
Class CommandProvider (PS : Type) := { Summary : ReadOnlyCommand -> Command PS string }.

Record CommandRequest := {
  cq_transport_actor : TransportActor; cq_command : ReadOnlyCommand; cq_correlation_id : string;
}.
Record CommandResponse := {
  cp_actor : Actor; cp_command : ReadOnlyCommand; cp_summary : string; cp_correlation_id : string;
}.
Definition no_response : CommandResponse :=
  {| cp_actor := plain_actor "" ""; cp_command := ""; cp_summary := ""; cp_correlation_id := "" |}.

Record readCommandSpec := { rc_action : Action; rc_resource : Resource }.
Definition command_spec (action type id : string) : readCommandSpec :=
  {| rc_action := action; rc_resource := {| r_type := type; r_id := id |} |}.

Definition commandSpec (c : ReadOnlyCommand) : option readCommandSpec :=
  if c =?s "doctor_summary" then Some (command_spec "doctor:read" "system" "doctor")
  else if c =?s "queue_summary" then Some (command_spec "queue:read" "postfix_queue" "default")
  else if c =?s "domain_health" then Some (command_spec "domain:read" "domain" "*")
  else if c =?s "backup_status" then Some (command_spec "backup:read" "backup" "status")
  else if c =?s "deployment_status" then Some (command_spec "deployment:read" "deployment" "current")
  else if c =?s "plugin_health" then Some (command_spec "plugin:read" "plugin" "health")
  else None.

Definition boundCommandSummary (v : string) : string := boundLine (redact v) 1024.

Section Commands.
Context `{HOST : !Host} {PS : Type} `{PROVIDER : !CommandProvider PS}.

Definition command_event (now : Z) (actor : Actor) (req : CommandRequest) (cmd : readCommandSpec)
    (result : string) (err : option string) : Event :=
  {| ev_id := ""; ev_time := now;
     ev_actor := {| actor_type := a_type actor; actor_id := a_id actor |};
     ev_source := None; ev_action := "notification.command." +:+ cq_command req;
     ev_resource := {| resource_type := r_type (rc_resource cmd); resource_id := r_id (rc_resource cmd) |};
     ev_before := JNull;
     ev_after := JObj [("authorized_action", JStr (rc_action cmd));
                       ("external_actor_id", JStr (ta_external_id (cq_transport_actor req)));
                       ("transport", JStr (ta_transport (cq_transport_actor req)))];
     ev_correlation_id := cleanToken (cq_correlation_id req) 128; ev_result := result;
     ev_error_code := match err with Some e => boundLine e 80 | None => "" end |}.

Definition command_audit (actor : Actor) (req : CommandRequest) (cmd : readCommandSpec)
    (result : string) (err : option string) : M PS unit :=
  now ← nowM; WriteSQL (command_event now actor req cmd result err).

Definition command_refused (actor : Actor) (req : CommandRequest) (cmd : readCommandSpec)
    (result err : string) : M PS (CommandResponse * option string) :=
  written ← tryM (command_audit actor req cmd result (Some err));
  mret (no_response, Some match written with
                          | Ok _ => err
                          | Err _ => "notification command audit unavailable"
                          end).

(** [Run]; a panic of the authorizer is the error of the monad. *)
Definition Run (authorizer : StaticAuthorizer) (req : CommandRequest)
    : M PS (CommandResponse * option string) :=
  match commandSpec (cq_command req) with
  | None => mret (no_response, Some "unsupported notification command")
  | Some cmd =>
      mapped ← tryM (Map (cq_transport_actor req));
      match mapped with
      | Err err => mret (no_response, Some err)
      | Ok None =>
          command_refused (plain_actor "unmapped" (ta_transport (cq_transport_actor req))) req cmd
            "denied" "notification actor mapping required"
      | Ok (Some actor) =>
          match Decide authorizer actor (rc_action cmd) (rc_resource cmd) with
          | None => failM nil_map_panic
          | Some decision =>
              if negb (d_allow decision)
              then command_refused actor req cmd "denied" (d_reason decision) else
              summary ← tryM (extM (Summary (cq_command req)));
              match summary with
              | Err err => command_refused actor req cmd "failure" err
              | Ok summary =>
                  written ← tryM (command_audit actor req cmd "success" None);
                  mret ({| cp_actor := actor; cp_command := cq_command req;
                           cp_summary := boundCommandSummary summary;
                           cp_correlation_id := cleanToken (cq_correlation_id req) 128 |},
                        match written with Ok _ => None | Err err => Some err end)
              end
          end
      end
  end.

Definition unsupported_kind (kind0 : string) : string :=
  let kind := cleanToken kind0 40 in
  if (kind =?s "command") || (kind =?s "callback") || (kind =?s "update") then kind else "update".

Definition unsupported_event (now : Z) (actor : Actor) (ta : TransportActor) (correlationID kind : string)
    (mapped : bool) : Event :=
  {| ev_id := ""; ev_time := now;
     ev_actor := {| actor_type := a_type actor; actor_id := a_id actor |};
     ev_source := None; ev_action := "notification.telegram.unsupported";
     ev_resource := {| resource_type := "telegram_update"; resource_id := cleanToken correlationID 128 |};
     ev_before := JNull;
     ev_after := JObj [("external_actor_id", JStr (ta_external_id ta)); ("mapped", JBool mapped);
                       ("transport", JStr (ta_transport ta))];
     ev_correlation_id := cleanToken correlationID 128; ev_result := "denied";
     ev_error_code := "unsupported_telegram_" +:+ kind |}.

(** [RejectUnsupported]: the error it always returns. *)
Definition RejectUnsupported (ta : TransportActor) (correlationID kind0 : string) : M PS string :=
  mapped ← tryM (Map ta);
  let actor := match mapped with Ok (Some a) => a | _ => plain_actor "unmapped" (ta_external_id ta) end in
  let known := match mapped with Ok (Some _) => true | _ => false end in
  let kind := unsupported_kind kind0 in
  now ← nowM;
  written ← tryM (WriteSQL (unsupported_event now actor ta correlationID kind known));
  mret match written with
       | Ok _ => "unsupported_telegram_" +:+ kind
       | Err _ => "notification command audit unavailable"
       end.
End Commands.

(** ** Updates *)

Record TelegramReply := { tg_method : string; tg_chat_id : string; tg_text : string }.
Definition no_reply : TelegramReply := {| tg_method := ""; tg_chat_id := ""; tg_text := "" |}.
Definition reply_to (chat text : string) : TelegramReply :=
  {| tg_method := ""; tg_chat_id := chat; tg_text := text |}.

Record telegramUser := { tu_id : Z; tu_username : string }.
Record telegramMessage := {
  tm_message_id : Z; tm_from : telegramUser; tm_chat : Z; tm_text : string;
}.
Record telegramCallbackQuery := {
  tc_id : string; tc_from : telegramUser; tc_message : option telegramMessage; tc_data : string;
}.
Record telegramUpdate := {
  td_update_id : Z; td_message : option telegramMessage;
  td_callback_query : option telegramCallbackQuery;
}.

#[export] Instance user_eta : Eta telegramUser := fun u =>
  {| tu_id := tu_id u; tu_username := tu_username u |}.
#[export] Instance message_eta : Eta telegramMessage := fun m =>
  {| tm_message_id := tm_message_id m; tm_from := tm_from m; tm_chat := tm_chat m; tm_text := tm_text m |}.
#[export] Instance callback_eta : Eta telegramCallbackQuery := fun c =>
  {| tc_id := tc_id c; tc_from := tc_from c; tc_message := tc_message c; tc_data := tc_data c |}.
#[export] Instance update_eta : Eta telegramUpdate := fun u =>
  {| td_update_id := td_update_id u; td_message := td_message u;
     td_callback_query := td_callback_query u |}.
#[export] Instance reply_eta : Eta TelegramReply := fun r =>
  {| tg_method := tg_method r; tg_chat_id := tg_chat_id r; tg_text := tg_text r |}.

(** A pointer: null makes it nil, anything else is stored behind it. *)
Definition store_pointer {A} (store : jval -> A -> option A) (zero : A) (v : jval) (old : option A)
    : option (option A) :=
  match v with
  | VNull => Some None
  | _ => Some <$> store v (default zero old)
  end.

Definition zero_user : telegramUser := {| tu_id := 0; tu_username := "" |}.
Definition zero_message : telegramMessage :=
  {| tm_message_id := 0; tm_from := zero_user; tm_chat := 0; tm_text := "" |}.
Definition zero_callback : telegramCallbackQuery :=
  {| tc_id := ""; tc_from := zero_user; tc_message := None; tc_data := "" |}.
Definition zero_update : telegramUpdate :=
  {| td_update_id := 0; td_message := None; td_callback_query := None |}.

Definition store_user : jval -> telegramUser -> option telegramUser :=
  store_struct false [("id", member tu_id store_int); ("username", member tu_username store_string)].
Definition store_chat : jval -> Z -> option Z := store_struct false [("id", store_int)].
Definition store_message : jval -> telegramMessage -> option telegramMessage :=
  store_struct false [("message_id", member tm_message_id store_int); ("from", member tm_from store_user);
                      ("chat", member tm_chat store_chat); ("text", member tm_text store_string)].
Definition store_callback : jval -> telegramCallbackQuery -> option telegramCallbackQuery :=
  store_struct false [("id", member tc_id store_string); ("from", member tc_from store_user);
                      ("message", member tc_message (store_pointer store_message zero_message));
                      ("data", member tc_data store_string)].
Definition store_update : jval -> telegramUpdate -> option telegramUpdate :=
  store_struct false [("update_id", member td_update_id store_int);
                      ("message", member td_message (store_pointer store_message zero_message));
                      ("callback_query",
                       member td_callback_query (store_pointer store_callback zero_callback))].

Definition message_ChatID (m : telegramMessage) : string := FormatInt (tm_chat m).
Definition telegram_actor (chat user : Z) : TransportActor :=
  {| ta_transport := "telegram"; ta_external_id := "chat:" +:+ FormatInt chat +:+ ":user:" +:+ FormatInt user |}.
Definition message_Actor (m : telegramMessage) : TransportActor := telegram_actor (tm_chat m) (tu_id (tm_from m)).
Definition message_CorrelationID (m : telegramMessage) : string :=
  "telegram:" +:+ FormatInt (tm_chat m) +:+ ":" +:+ FormatInt (tm_message_id m).
Definition callback_ChatID (c : telegramCallbackQuery) : string :=
  match tc_message c with Some m => message_ChatID m | None => "" end.
Definition callback_Actor (c : telegramCallbackQuery) : TransportActor :=
  telegram_actor (match tc_message c with Some m => tm_chat m | None => 0 end) (tu_id (tc_from c)).

(** [strings.TrimPrefix] *)
Definition TrimPrefix (s p : string) : string := default s (strip p s).

Section Parsing.
Context `{HOST : !Host}.

Definition command_named (name : string) : option ReadOnlyCommand :=
  if name =?s "doctor" then Some "doctor_summary"
  else if name =?s "queue" then Some "queue_summary"
  else if name =?s "domains" then Some "domain_health"
  else if name =?s "backup" then Some "backup_status"
  else if (name =?s "deploy") || (name =?s "deployment") then Some "deployment_status"
  else if name =?s "plugins" then Some "plugin_health"
  else None.

Definition parseTelegramCommand (text : string) : option ReadOnlyCommand :=
  match Fields (TrimSpace text) with
  | [] => None
  | word :: _ =>
      if negb (HasPrefix word "/") then None else
      let name := TrimPrefix word "/" in
      let name := match SplitFirstByte "@" name with Some (l, _) => l | None => name end in
      command_named (ToLower name)
  end.

Definition id_byte (c : ascii) : bool :=
  negb (existsb (Ascii.eqb c) [" "; "009"; "013"; "010"; "/"]%char).

Definition parseApprovalCallback (data0 : string) : option (string * string) :=
  let data := TrimSpace data0 in
  if negb (HasPrefix data "gm:a:") || (64 <? len data) then None else
  match split_byte ":" (TrimPrefix data "gm:a:") with
  | [id; token] =>
      if (id =?s "") || negb (forall_bytes id_byte id) || (36 <? len id) || negb (validBindingToken token)
      then None else Some (id, token)
  | _ => None
  end.
End Parsing.

(** ** The receiver *)

Record TelegramReceiver := {
  tv_authorizer : StaticAuthorizer; tv_executor : option ApprovalExecutor; tv_updates : bool;
}.

Definition with_updates (f : gmap Z UpdateRow -> gmap Z UpdateRow) : DB -> DB :=
  with_access (fun t => put ac_updates (f (ac_updates t)) t).
Definition updates (d : DB) : gmap Z UpdateRow := ac_updates (db_access d).

(** [json.Marshal] of a reply, and back. *)
Definition reply_json (r : TelegramReply) : jval :=
  VObj (omitempty (tg_method r =?s "") "method" (VStr (tg_method r))
        ++ [("chat_id", VStr (tg_chat_id r)); ("text", VStr (tg_text r))]).
Definition store_reply : jval -> TelegramReply -> option TelegramReply :=
  store_struct false [("method", member tg_method store_string); ("chat_id", member tg_chat_id store_string);
                      ("text", member tg_text store_string)].

(** [http.MaxBytesReader(w, req.Body, 64<<10)], one JSON value, then the end:
    a body over the limit is never followed by an end of file. *)
Definition decode_update (body : string) : option telegramUpdate :=
  if (65536 <? Z.of_nat (len body))%Z then None else decode_json store_update zero_update body.

(** A reply and perhaps an error. *)
Abbreviation handled := (TelegramReply * option string)%type.

Section Receiver.
Context `{HOST : !Host} {PS : Type} `{OPERATOR : !QueueOperator PS} `{PROVIDER : !CommandProvider PS}.

Definition processMessage (r : TelegramReceiver) (msg : telegramMessage) : M PS handled :=
  match parseTelegramCommand (tm_text msg) with
  | None =>
      err ← RejectUnsupported (message_Actor msg) (message_CorrelationID msg) "command";
      mret (reply_to (message_ChatID msg) "unsupported command", Some err)
  | Some cmd =>
      resp ← Run (tv_authorizer r) {| cq_transport_actor := message_Actor msg; cq_command := cmd;
                                      cq_correlation_id := message_CorrelationID msg |};
      mret match resp.2 with
           | Some err => (reply_to (message_ChatID msg) "command denied", Some err)
           | None => (reply_to (message_ChatID msg) (cp_summary resp.1), None)
           end
  end.

Definition processCallback (r : TelegramReceiver) (cb : telegramCallbackQuery) : M PS handled :=
  match parseApprovalCallback (tc_data cb) with
  | None =>
      err ← RejectUnsupported (callback_Actor cb)
              ("telegram:callback:" +:+ cleanToken (tc_id cb) 80) "callback";
      mret (reply_to (callback_ChatID cb) "unsupported callback", Some err)
  | Some (id, token) =>
      match tv_executor r with
      | None => mret (reply_to (callback_ChatID cb) "approval service unavailable",
                      Some "approval service unavailable")
      | Some e =>
          done ← ExecuteTelegramApproval e id token (callback_Actor cb);
          mret match done.2 with
               | Some err => (reply_to (callback_ChatID cb) "approval rejected", Some err)
               | None => (reply_to (callback_ChatID cb) "approval accepted", None)
               end
      end
  end.

(** TelegramReceiver.Process *)
Definition Process (r : TelegramReceiver) (update : telegramUpdate) : M PS handled :=
  match td_message update, td_callback_query update with
  | Some msg, _ => processMessage r msg
  | None, Some cb => processCallback r cb
  | None, None =>
      let correlationID := "telegram:update:" +:+ FormatInt (td_update_id update) in
      err ← RejectUnsupported {| ta_transport := "telegram"; ta_external_id := correlationID |}
              correlationID "update";
      mret (no_reply, Some err)
  end.

Definition update_taken (id : Z) (d : DB) : result unit :=
  match updates d !! id with
  | Some _ => Err "duplicate key value violates unique constraint"
  | None => Ok tt
  end.

(** SQLTelegramUpdateStore.Process: the update runs inside a transaction but
    on connections of its own, so only the row of the update waits for the
    commit; the last two round trips are the insertion and the commit. *)
Definition ProcessOnce (updateID : Z) (fn : M PS handled) : M PS handled :=
  guardM (updateID =? 0)%Z "valid Telegram update store request required";;
  roundtripM;;
  roundtripM;;
  row ← queryM (fun d => Ok (updates d !! updateID));
  match row with
  | Some row =>
      match decode_json store_reply no_reply (up_reply_json row) with
      | None => failM "stored Telegram update reply invalid"
      | Some stored =>
          roundtripM;;
          mret (stored, if up_denied row then Some "Telegram update denied" else None)
      end
  | None =>
      out ← fn;
      now ← nowM;
      queryM (update_taken updateID);;
      execM (fun d => Ok (tt, with_updates (<[updateID :=
        {| up_reply_json := print_json (reply_json out.1);
           up_denied := match out.2 with Some _ => true | None => false end;
           up_processed_at := now |}]>) d));;
      mret out
  end.

(** The handler after authentication; the error of the processing is dropped,
    and an update the store failed on has an empty reply. *)
Definition answer_update (r : TelegramReceiver) (update : telegramUpdate) : M PS HttpResponse :=
  out ← tryM (if tv_updates r then ProcessOnce (td_update_id update) (Process r update)
              else Process r update);
  mret match out with
       | Err _ => reply StatusOK ("{}" +:+ String "010" "")
       | Ok (rep, _) =>
           if tg_chat_id rep =?s "" then reply StatusOK ("{}" +:+ String "010" "")
           else reply StatusOK (encode_line (reply_json (put tg_method "sendMessage" rep)))
       end.

Definition StatusServiceUnavailable : Z := 503.

(** [handler]: [secretHeader] is X-Telegram-Bot-Api-Secret-Token. *)
Definition webhook (r : TelegramReceiver) (secret : string) (httpMethod secretHeader body : string)
    : M PS HttpResponse :=
  if httpMethod <>?s MethodPost then mret (http_error "method not allowed" StatusMethodNotAllowed) else
  if (secret <>?s "") && (secretHeader <>?s secret)
  then mret (http_error "telegram update unauthorized" StatusUnauthorized) else
  match decode_update body with
  | None => mret (http_error "invalid telegram update" StatusBadRequest)
  | Some update => answer_update r update
  end.

Definition HandlerWithSecret (r : TelegramReceiver) (secret : string)
    (httpMethod secretHeader body : string) : M PS HttpResponse :=
  if TrimSpace secret =?s ""
  then mret (http_error "telegram receiver unavailable" StatusServiceUnavailable)
  else webhook r secret httpMethod secretHeader body.
End Receiver.

(** ** What an update can do *)

(** The read-only commands read. *)
Class CommandReads {PS : Type} `(PROVIDER : !CommandProvider PS) : Prop :=
  { summary_reads : forall c s, (Summary c s).2 = s }.

Section Facts.
Context `{HOST : !Host} {PS : Type} `{OPERATOR : !QueueOperator PS} `{PROVIDER : !CommandProvider PS}.
Context `{READS : !SnapshotReads OPERATOR} `{CREADS : !CommandReads PROVIDER}.
Implicit Types w : World PS.

#[local] Hint Resolve keeps_Map : effects.

Lemma keeps_reject ta cid kind : keeps_ext (PS := PS) (RejectUnsupported ta cid kind).
Proof. unfold RejectUnsupported. solve_keeps. Qed.

Lemma keeps_Run authorizer req : keeps_ext (PS := PS) (Run authorizer req).
Proof.
  assert (forall c, keeps_ext (PS := PS) (extM (Summary c))) as Hs.
  { intros c w. unfold extM. pose proof (summary_reads c (w_ext w)) as H.
    destruct (Summary c (w_ext w)) as [r s]. exact H. }
  unfold Run, command_refused, command_audit. solve_keeps.
Qed.

Lemma keeps_message r msg : keeps_ext (PS := PS) (processMessage r msg).
Proof.
  unfold processMessage. destruct (parseTelegramCommand _) as [cmd|].
  - apply keeps_bind; [apply keeps_Run|]. intros ?. apply keeps_ret.
  - apply keeps_bind; [apply keeps_reject|]. intros ?. apply keeps_ret.
Qed.

(** An update that changed the queue was a callback that executed an
    approval. *)
Lemma Process_ext r update w : w_ext (Process r update w).2 <> w_ext w ->
  exists cb id token e, td_message update = None /\ td_callback_query update = Some cb
    /\ parseApprovalCallback (tc_data cb) = Some (id, token) /\ tv_executor r = Some e
    /\ w_ext (Process r update w).2 = w_ext (ExecuteTelegramApproval e id token (callback_Actor cb) w).2.
Proof.
  unfold Process. destruct (td_message update) as [msg|].
  { intros H. destruct H. apply keeps_message. }
  destruct (td_callback_query update) as [cb|].
  2: { intros H. destruct H. apply keeps_bind; [apply keeps_reject|]. intros ?. apply keeps_ret. }
  unfold processCallback. destruct (parseApprovalCallback (tc_data cb)) as [[id token]|] eqn:Ep.
  2: { intros H. destruct H. apply keeps_bind; [apply keeps_reject|]. intros ?. apply keeps_ret. }
  destruct (tv_executor r) as [e|] eqn:Ee; [|by intros []].
  intros _. exists cb, id, token, e. split_and!; [done..|]. rewrite bind_run.
  destruct (ExecuteTelegramApproval e id token (callback_Actor cb) w) as [[a|err] w1]; done.
Qed.

Lemma roundtrip_run w r w' : roundtripM w = (r, w') -> w_db w' = w_db w /\ w_ext w' = w_ext w.
Proof.
  unfold roundtripM, queryM. destruct (next_outcome w) as [o w1] eqn:E.
  apply next_outcome_db in E as [Hd He]. by destruct o; intros [= _ <-].
Qed.

(** The store runs the update on the world it found. *)
Lemma ProcessOnce_ext id fn w : w_ext (ProcessOnce id fn w).2 <> w_ext w ->
  (id <> 0)%Z /\ updates (w_db w) !! id = None
  /\ exists w1, w_db w1 = w_db w /\ w_ext w1 = w_ext w /\ w_ext (ProcessOnce id fn w).2 = w_ext (fn w1).2.
Proof.
  intros H. unfold ProcessOnce in *.
  apply bind_changed in H as (? & w1 & [Hg ->]%guardM_ok & H & ->); [|apply keeps_guard].
  apply bind_changed in H as (? & w2 & H2 & H & ->); [|apply keeps_query].
  apply roundtrip_run in H2 as [D2 X2].
  apply bind_changed in H as (? & w3 & H3 & H & ->); [|apply keeps_query].
  apply roundtrip_run in H3 as [D3 X3].
  apply bind_changed in H as (row & w4 & H4 & H & ->); [|apply keeps_query].
  apply queryM_ok in H4 as (Hq & D4 & X4). injection Hq as <-.
  split; [by apply Z.eqb_neq|]. rewrite D3, D2 in *. destruct (updates (w_db w) !! id) as [row|].
  { destruct H. destruct (decode_json _ _ _); [|done].
    apply keeps_bind; [apply keeps_query|]. intros ?. apply keeps_ret. }
  split; [done|]. exists w4. split_and!; [congruence|congruence|]. rewrite bind_run.
  destruct (fn w4) as [[out|err] w5]; [|done].
  assert (forall m : M PS handled, keeps_ext m -> w_ext (m w5).2 = w_ext w5) as Hk by (intros m Hm; apply Hm).
  apply Hk. solve_keeps.
Qed.

(** C38: End to end: if a webhook request changed the queue, then it was a POST
    bearing the configured secret, its body was one update within 64 KiB whose
    callback carries an approval's identifier and token, and everything the
    executor checks held: the sender of the callback is mapped to a permitted
    actor, the request was pending (or abandoned), unexpired and unused, the
    token has the stored digest, the live queue has the approved snapshot if the
    request was pending, and the change is the approved operation, run once. *)
Theorem HandlerWithSecret_guarded r secret httpMethod secretHeader body w :
  w_ext (HandlerWithSecret r secret httpMethod secretHeader body w).2 <> w_ext w ->
  httpMethod = MethodPost /\ secretHeader = secret /\ TrimSpace secret <> ""
  /\ exists update cb id token e row actor now,
    decode_update body = Some update /\ td_callback_query update = Some cb
    /\ parseApprovalCallback (tc_data cb) = Some (id, token) /\ tv_executor r = Some e
    /\ (tv_updates r = true -> updates (w_db w) !! td_update_id update = None)
    /\ guarded e id token (callback_Actor cb) (w_db w) (w_ext w)
         (w_ext (HandlerWithSecret r secret httpMethod secretHeader body w).2) row actor now.
Proof.
  unfold HandlerWithSecret, webhook. intros H.
  destruct (TrimSpace secret =?s "") eqn:Es; [by destruct H|]. apply eqs_false in Es.
  destruct (httpMethod <>?s MethodPost) eqn:Em; [by destruct H|].
  destruct ((secret <>?s "") && (secretHeader <>?s secret)) eqn:Eh; [by destruct H|].
  destruct (decode_update body) as [update|]; [|by destruct H].
  assert (secretHeader = secret) as ->.
  { to_prop. destruct Eh as [->|?]; [by destruct Es|done]. }
  split_and!; [by to_prop|done|done|]. unfold answer_update in *.
  assert (forall m : M PS handled, w_ext ((out ← tryM m; mret match out with
       | Err _ => reply StatusOK ("{}" +:+ String "010" "")
       | Ok (rep, _) =>
           if tg_chat_id rep =?s "" then reply StatusOK ("{}" +:+ String "010" "")
           else reply StatusOK (encode_line (reply_json (put tg_method "sendMessage" rep)))
       end) w).2 = w_ext (m w).2) as Hm.
  { intros m. rewrite bind_run. unfold tryM. by destruct (m w). }
  rewrite Hm in *. clear Hm. destruct (tv_updates r) eqn:Eu.
  - apply ProcessOnce_ext in H as Hp. destruct Hp as (_ & Hfresh & w1 & D1 & X1 & E1).
    rewrite E1 in *. rewrite <- X1 in H. apply Process_ext in H as Hc.
    destruct Hc as (cb & id & token & e & _ & Hcb & Hp & He & Hx). rewrite Hx in *.
    apply execute_guarded_ok in H as (row & actor & now & G). rewrite D1, X1 in G.
    exists update, cb, id, token, e, row, actor, now. by split_and!.
  - apply Process_ext in H as Hc. destruct Hc as (cb & id & token & e & _ & Hcb & Hp & He & Hx).
    rewrite Hx in *. apply execute_guarded_ok in H as (row & actor & now & G).
    exists update, cb, id, token, e, row, actor, now. by split_and!.
Qed.

Lemma reply_round_trip r : ValidString (tg_method r) = true -> ValidString (tg_chat_id r) = true ->
  ValidString (tg_text r) = true -> decode_json store_reply no_reply (print_json (reply_json r)) = Some r.
Proof.
  intros Hm Hc Ht. unfold decode_json. destruct r as [m c t]. cbn in Hm, Hc, Ht. rewrite parse_print.
  - unfold reply_json, omitempty, store_reply. cbn [tg_method tg_chat_id tg_text].
    destruct (m =?s "") eqn:E; [apply eqs_true in E as ->|]; reflexivity.
  - unfold reply_json, omitempty. cbn [tg_method tg_chat_id tg_text]. destruct (m =?s ""); cbn; by rewrite ?Hm, Hc, Ht.
  - unfold reply_json, omitempty. cbn [tg_method tg_chat_id tg_text]. by destruct (m =?s "").
Qed.

(** What a processed update leaves behind. *)
Lemma ProcessOnce_ok id fn w out w' : ProcessOnce id fn w = (Ok out, w') ->
  (id <> 0)%Z /\ exists row, updates (w_db w') !! id = Some row
    /\ (up_reply_json row = print_json (reply_json out.1)
        \/ decode_json store_reply no_reply (up_reply_json row) = Some out.1).
Proof.
  unfold ProcessOnce. intros H. apply bind_ok in H as (? & w1 & [Hg ->]%guardM_ok & H).
  split; [by apply Z.eqb_neq|].
  apply bind_ok in H as (? & w2 & _ & H). apply bind_ok in H as (? & w3 & _ & H).
  apply bind_ok in H as (row & w4 & (Hq & D4 & _)%queryM_ok & H). injection Hq as <-.
  destruct (updates (w_db w3) !! id) as [row|] eqn:Er.
  - destruct (decode_json _ _ _) as [stored|] eqn:Ed; [|done].
    apply bind_ok in H as (? & w5 & H5 & H). apply roundtrip_run in H5 as [D5 _].
    injection H as <- <-. exists row. rewrite D5, D4. split; [done|by right].
  - apply bind_ok in H as (o & w5 & _ & H). apply bind_ok in H as (now & w6 & _ & H).
    apply bind_ok in H as (? & w7 & _ & H). apply bind_ok in H as (? & w8 & [H8 _]%execM_ok & H).
    injection H as <- <-. injection H8 as _ <-. eexists. split; [apply lookup_insert_eq|by left].
Qed.

(** The answer to an update whose row is there. *)
Definition replay (row : UpdateRow) : M PS handled :=
  roundtripM;; roundtripM;; roundtripM;;
  match decode_json store_reply no_reply (up_reply_json row) with
  | None => failM "stored Telegram update reply invalid"
  | Some stored =>
      roundtripM;; mret (stored, if up_denied row then Some "Telegram update denied" else None)
  end.

Lemma ProcessOnce_stored id fn w row : (id <> 0)%Z -> updates (w_db w) !! id = Some row ->
  ProcessOnce id fn w = replay row w.
Proof.
  intros Hid Hr. unfold ProcessOnce, replay. rewrite (proj2 (Z.eqb_neq _ _) Hid).
  rewrite (bind_step _ _ w tt w) by done. rewrite !(bind_run roundtripM).
  destruct (roundtripM w) as [[[]|e] w3] eqn:E3; [|done]. apply roundtrip_run in E3 as [D3 _].
  rewrite !(bind_run roundtripM).
  destruct (roundtripM w3) as [[[]|e] w4] eqn:E4; [|done]. apply roundtrip_run in E4 as [D4 _].
  rewrite !bind_run. unfold roundtripM, queryM. destruct (next_outcome w4) as [o w5] eqn:O5.
  apply next_outcome_db in O5 as [D5 _]. destruct o; [|done..].
  by rewrite D5, D4, D3, Hr.
Qed.

Lemma roundtrip_reliable w : reliable w -> exists w', roundtripM w = (Ok tt, w') /\ reliable w'.
Proof.
  intros Hw. destruct (next_outcome_reliable w Hw) as (w' & O & R & _). exists w'.
  unfold roundtripM, queryM. by rewrite O.
Qed.

Lemma replay_reliable row w stored : reliable w ->
  decode_json store_reply no_reply (up_reply_json row) = Some stored ->
  exists err w', replay row w = (Ok (stored, err), w').
Proof.
  intros Hw Hd. unfold replay.
  destruct (roundtrip_reliable w Hw) as (w1 & E1 & R1). rewrite (bind_step _ _ _ _ _ E1).
  destruct (roundtrip_reliable w1 R1) as (w2 & E2 & R2). rewrite (bind_step _ _ _ _ _ E2).
  destruct (roundtrip_reliable w2 R2) as (w3 & E3 & R3). rewrite (bind_step _ _ _ _ _ E3). rewrite Hd.
  destruct (roundtrip_reliable w3 R3) as (w4 & E4 & _). rewrite (bind_step _ _ _ _ _ E4). by eexists _, _.
Qed.

(** An update that was answered is not processed again: whatever happens
    later to the rest of the world, a repeated delivery does not depend on what
    it would run, touches neither the queue nor the database, and a store that
    answers gives the recorded reply. *)
Theorem update_processed_once id fn w out w' fn' w2 :
  ProcessOnce id fn w = (Ok out, w') -> updates (w_db w2) = updates (w_db w') ->
  ProcessOnce id fn' w2 = ProcessOnce id (failM "not run") w2
  /\ w_ext (ProcessOnce id fn' w2).2 = w_ext w2 /\ w_db (ProcessOnce id fn' w2).2 = w_db w2
  /\ (reliable w2 -> ValidString (tg_method out.1) = true -> ValidString (tg_chat_id out.1) = true ->
      ValidString (tg_text out.1) = true -> exists err w3, ProcessOnce id fn' w2 = (Ok (out.1, err), w3)).
Proof.
  intros (Hid & row & Hr & Hj)%ProcessOnce_ok Hu. rewrite <- Hu in Hr.
  rewrite !(ProcessOnce_stored id _ w2 row) by done. split_and!; [done|..].
  - assert (keeps_ext (replay row)) as Hk by (unfold replay; solve_keeps). apply Hk.
  - assert (effect eq (replay row)) as Hk by (unfold replay; solve_effect). symmetry. apply Hk.
  - intros Hw Hm Hc Ht. apply replay_reliable; [done|].
    destruct Hj as [Hj|Hj]; [|done]. rewrite Hj. by apply reply_round_trip.
Qed.
End Facts.
