(* ===== verification/Identity.v ===== *)
(** * Mailboxes, application passwords and tokens (internal/identity/identity.go)

    The identity service keeps its mailboxes, application passwords and tokens
    in memory, writes them through to the database with an audit event, and
    projects them onto the daemon that Dovecot asks.  The service is the
    external state of the world; it is wired as in cmd/gotth-mail: over SQL,
    with the audit table as its writer.  An order of the range over a Go map
    is a parameter, and each call runs under the lock of the service. *)

From stdpp Require Import base list gmap sets strings sorting.
From Stdlib Require Import ZArith Lia Ascii.
From S2P Require Import Prelude GoStd Json JsonText JsonStruct Sha256 Sha1 Policy Queue AuditLog Database Relay Daemon Verifier Lookup Tokens Authz Regex Approval Executor Telegram.
Import authz.

Module identity.

(** ** Data *)

Record Mailbox := {
  im_id : string; im_email : string; im_display_name : string; im_active : bool;
  im_verifier : string; im_created_at : Z; im_updated_at : Z;
}.

Record AppPassword := {
  pw_id : string; pw_mailbox_id : string; pw_label : string; pw_verifier : string;
  pw_created_at : Z; pw_revoked_at : option Z;
}.

Record AppPasswordCreated := {
  pc_id : string; pc_label : string; pc_secret_once : string; pc_created_at : Z;
}.

Record Token := {
  to_id : string; to_kind : string; to_verifier : string; to_scopes : list string; to_revoked : bool;
}.

(** The service: its maps, its authorizer (none is one without mappings) and
    the daemon it is bound to. *)
Record Service := {
  is_mailboxes : gmap string Mailbox;
  is_passwords : gmap string AppPassword;
  is_tokens : gmap string Token;
  is_known_domains : gset string;
  is_authorizer : StaticAuthorizer;
  is_daemon : option Daemon.Service;
}.

#[export] Instance mailbox_eta : Eta Mailbox := fun m =>
  {| im_id := im_id m; im_email := im_email m; im_display_name := im_display_name m;
     im_active := im_active m; im_verifier := im_verifier m; im_created_at := im_created_at m;
     im_updated_at := im_updated_at m |}.
#[export] Instance password_eta : Eta AppPassword := fun p =>
  {| pw_id := pw_id p; pw_mailbox_id := pw_mailbox_id p; pw_label := pw_label p;
     pw_verifier := pw_verifier p; pw_created_at := pw_created_at p; pw_revoked_at := pw_revoked_at p |}.
#[export] Instance service_eta : Eta Service := fun s =>
  {| is_mailboxes := is_mailboxes s; is_passwords := is_passwords s; is_tokens := is_tokens s;
     is_known_domains := is_known_domains s; is_authorizer := is_authorizer s;
     is_daemon := is_daemon s |}.

Definition MaxActiveAppPasswords : nat := MaxAppPasswordVerifiers.
Definition ErrAppPasswordLimit : string := "active app password limit reached".

Definition NewService (authorizer : StaticAuthorizer) (domains : list string) (lower : string -> string)
    : Service :=
  {| is_mailboxes := ∅; is_passwords := ∅; is_tokens := ∅;
     is_known_domains := list_to_set (map lower domains); is_authorizer := authorizer;
     is_daemon := None |}.

(** ** The identifiers of rows *)

Definition stableUUID (seed : string) : string := newUUID (Some (take 16 (Sha1.sum (bytes_of seed)))).
Definition TokenStorageID (actorID : string) : string := stableUUID ("token:" +:+ actorID).

(** ** Statements *)

Definition with_tokens (f : gmap string TokenRow -> gmap string TokenRow) : DB -> DB :=
  with_access (fun t => put ac_tokens (f (ac_tokens t)) t).
Definition tokens (d : DB) : gmap string TokenRow := ac_tokens (db_access d).

(** The first row of a table with a property. *)
Definition find_row {A} (p : string -> A -> bool) (m : gmap string A) : option (string * A) :=
  List.find (fun kv => p kv.1 kv.2) (map_to_list m).

Definition duplicate : string := "duplicate key value violates unique constraint".

(** INSERT INTO domains ... ON CONFLICT (name) DO UPDATE SET updated_at: the
    policy columns take their defaults. *)
Definition upsert_domain (id name : string) (d : DB) : result (unit * DB) :=
  match find_row (fun _ r => dm_name r =?s name) (db_domains d) with
  | Some _ => Ok (tt, d)
  | None =>
      match db_domains d !! id with
      | Some _ => Err duplicate
      | None => Ok (tt, with_domains (<[id := {| dm_name := name; dm_enabled := true;
                  dm_scope := ScopeUnrestricted; dm_revision := 1 |}]>) d)
      end
  end.

(** INSERT INTO mailboxes ... ON CONFLICT (domain_id, local_part) DO UPDATE SET
    display_name, enabled, verifier, updated_at. *)
Definition upsert_mailbox (id : string) (row : MailboxRow) (d : DB) : result (unit * DB) :=
  match db_domains d !! mb_domain_id row with
  | None => Err "insert or update violates foreign key constraint"
  | Some _ =>
      match find_row (fun _ r => (mb_domain_id r =?s mb_domain_id row)
                                 && (mb_local_part r =?s mb_local_part row)) (db_mailboxes d) with
      | Some (old, r) =>
          Ok (tt, with_mailboxes (<[old := put mb_display_name (mb_display_name row)
            (put mb_enabled (mb_enabled row) (put mb_verifier (mb_verifier row)
              (put mb_updated_at (mb_updated_at row) r)))]>) d)
      | None =>
          match db_mailboxes d !! id with
          | Some _ => Err duplicate
          | None => Ok (tt, with_mailboxes (<[id := row]>) d)
          end
      end
  end.

(** PostgreSQL's [length]: the number of characters. *)
Definition char_length (s : string) : nat := length (runes s).

(** The CHECK constraints of tokens (0001, 0005). *)
Definition token_row_check (r : TokenRow) : bool :=
  existsb (fun k => k =?s tk_kind r) ["api"; "app_password"; "plugin_service"; "scim_client"; "break_glass"]
  && if tk_kind r =?s "app_password" then
       match tk_public_id r with
       | Some p => (5 <=? char_length p) && (char_length p <=? 128)
                   && (1 <=? char_length (tk_label r)) && (char_length (tk_label r) <=? 128)
       | None => false
       end
     else match tk_public_id r with Some _ => false | None => true end.

(** A row whose public identifier an application password already has. *)
Definition public_id_taken (id : string) (r : TokenRow) (d : DB) : bool :=
  (tk_kind r =?s "app_password")
  && match find_row (fun k r' => negb (k =?s id) && (tk_kind r' =?s "app_password")
                      && bool_decide (tk_public_id r' = tk_public_id r)) (tokens d) with
     | Some _ => true
     | None => false
     end.

Definition store_token (id : string) (r : TokenRow) (d : DB) : result (unit * DB) :=
  if negb (token_row_check r) then Err "check constraint violated" else
  if public_id_taken id r d then Err duplicate else
  Ok (tt, with_tokens (<[id := r]>) d).

Definition insert_token (id : string) (r : TokenRow) (d : DB) : result (unit * DB) :=
  match tokens d !! id with
  | Some _ => Err duplicate
  | None => store_token id r d
  end.

(** ... ON CONFLICT (id) DO UPDATE SET verifier, scope_json, revoked_at: the
    proposed row is checked before the conflict is found. *)
Definition upsert_token (id : string) (r : TokenRow) (d : DB) : result (unit * DB) :=
  if negb (token_row_check r) then Err "check constraint violated" else
  match tokens d !! id with
  | Some old => store_token id (put tk_verifier (tk_verifier r) (put tk_scope_json (tk_scope_json r)
                  (put tk_revoked_at (tk_revoked_at r) old))) d
  | None => store_token id r d
  end.

(** ** The service *)

Section Identity.
Context `{HOST : !Host} `{MAIL : !MailParser} `{ORDER : !MapOrder} `{KDF : !Pbkdf2}.

Abbreviation I := (M Service).
Implicit Types st : Service.

Definition readM {A} (f : Service -> A) : I A := extM (fun st => (Ok (f st), st)).
Definition updateM (f : Service -> Service) : I unit := extM (fun st => (Ok tt, f st)).

(** *** Secrets *)

(** [rand.Read] into [n] bytes, from an item of the entropy source. *)
Definition fill (n : nat) (bytes : list N) : list N :=
  map (fun b => b mod 256)%N (take n (bytes ++ repeat 0%N n)).

Definition randomToken {PS} (n : nat) : M PS string :=
  b ← entropyM;
  match b with
  | Some bytes => mret (raw_url_encode (fill n bytes))
  | None => failM "rand: read failed"
  end.
Definition randomSecret : I string := randomToken 24.

Definition HashSecret {PS} (secret : string) : M PS string :=
  guardM (len secret <? 8) "password too short";;
  salt ← randomToken 10;
  mret (MakeDjangoPBKDF2SHA256 secret salt 120000).

(** *** Audit and authorization *)

Definition identity_event (now : Z) (actor : Actor) (action resource result code : string) : Event :=
  {| ev_id := ""; ev_time := now;
     ev_actor := {| actor_type := a_type actor; actor_id := a_id actor |}; ev_source := None;
     ev_action := action; ev_resource := {| resource_type := "identity"; resource_id := resource |};
     ev_before := JNull; ev_after := JNull; ev_correlation_id := "identity"; ev_result := result;
     ev_error_code := code |}.

Definition audit (actor : Actor) (action resource result code : string) : I unit :=
  now ← nowM;
  WriteSQL (identity_event now actor action resource result code).

(** [_ = s.audit(..., err); return err] *)
Definition audited {A} (actor : Actor) (action resource result err : string) : I A :=
  tryM (audit actor action resource result err);;
  failM err.

(** [if err := s.authorize(...); err != nil { _ = s.audit(..., "denied", err);
    return err }]; the authorizer may panic. *)
Definition authorize (actor : Actor) (act : Action) (mailbox action : string) : I unit :=
  authorizer ← readM is_authorizer;
  match Decide authorizer actor act {| r_type := "mailbox"; r_id := mailbox |} with
  | None => failM nil_map_panic
  | Some d => if d_allow d then mret tt else audited actor action mailbox "denied" (d_reason d)
  end.

(** *** Mailboxes *)

(** store.ValidateDomainName *)
Definition domain_byte (c : ascii) : bool :=
  (byte_val c =? 46)%N || (byte_val c =? 45)%N || in_range 97 122 c || in_range 48 57 c.
Definition ValidateDomainName (s : string) : bool :=
  (s =?s ToLower s) && (3 <=? len s) && negb (Contains s "..") && Contains s "."
  && forall_bytes domain_byte s.

Definition validateMailbox (st : Service) (email : string) : result unit :=
  if negb (bool_decide (ParseAddress email = Some email)) || negb (count_byte "@" email =? 1)
  then Err "invalid userName" else
  match SplitFirstByte "@" (ToLower email) with
  | Some (_, domain) =>
      if negb (ValidateDomainName domain) then Err "invalid domain" else
      if bool_decide (domain ∈ is_known_domains st) then Ok tt else Err "domain outside allowed policy"
  | None => Err "panic: index out of range"
  end.

Definition optional (v : string) : option string := if v =?s "" then None else Some v.

Definition mailbox_row (domainID local : string) (m : Mailbox) : MailboxRow :=
  {| mb_domain_id := domainID; mb_local_part := local; mb_enabled := im_active m;
     mb_verifier := optional (im_verifier m); mb_quota_bytes := None;
     mb_display_name := optional (im_display_name m); mb_scim_resource_id := None;
     mb_created_at := im_created_at m; mb_updated_at := im_updated_at m |}.

Definition persistMailbox (m : Mailbox) : I unit :=
  match SplitFirstByte "@" (ToLower (im_email m)) with
  | None => failM "invalid mailbox address"
  | Some (local, domain) =>
      let domainID := stableUUID ("domain:" +:+ domain) in
      execM (upsert_domain domainID domain);;
      execM (upsert_mailbox (stableUUID ("mailbox:" +:+ ToLower (im_email m)))
               (mailbox_row domainID local m))
  end.

(** *** The projection onto the daemon *)

Fixpoint replace_at (s : string) : string :=
  match s with
  | EmptyString => EmptyString
  | String c s => String (if Ascii.eqb c "@" then "/"%char else c) (replace_at s)
  end.

Definition daemon_mailbox (m : Mailbox) : Daemon.Mailbox :=
  let addr := ToLower (im_email m) in
  {| ml_address := addr; ml_enabled := im_active m; ml_home := "/mail/" +:+ replace_at addr;
     ml_uid := 5000; ml_gid := 5000; ml_quota_bytes := 0; ml_verifier := im_verifier m;
     ml_default_sieve := "" |}.

(** On a bound daemon, which also gets the audit writer. *)
Definition on_daemon (f : Daemon.Service -> Daemon.Service) (st : Service) : Service :=
  put is_daemon ((fun d => f (put sv_audit true d)) <$> is_daemon st) st.

Definition syncDaemonMailbox (m : Mailbox) : Service -> Service :=
  on_daemon (UpsertIdentityMailbox (daemon_mailbox m)).

Definition active_for (mailboxID : string) (p : AppPassword) : bool :=
  (pw_mailbox_id p =?s mailboxID) && match pw_revoked_at p with None => true | Some _ => false end.

Definition active_passwords (k : nat) (st : Service) (mailboxID : string) : list AppPassword :=
  List.filter (active_for mailboxID) (map snd (range k (is_passwords st))).

Definition activeAppPasswordCount (st : Service) (mailboxID : string) : nat :=
  length (active_passwords 0 st mailboxID).

Definition syncDaemonAppPasswords (mailboxID : string) (st : Service) : Service :=
  on_daemon (SetAppPasswordVerifiers mailboxID (map pw_verifier (active_passwords 1 st mailboxID))) st.

Definition BindDaemon (service : Daemon.Service) (st : Service) : Service :=
  let bound := put is_daemon (Some service) st in
  let projected := foldl (fun st p => syncDaemonMailbox p.2 st) bound (range 2 (is_mailboxes st)) in
  foldl (fun st p => syncDaemonAppPasswords p.1 st) projected (range 3 (is_mailboxes st)).

(** *** Users *)

Definition ListUsers (st : Service) : list Mailbox := map snd (range 4 (is_mailboxes st)).
Definition GetUser (st : Service) (id : string) : option Mailbox := is_mailboxes st !! ToLower id.

Definition set_mailbox (m : Mailbox) (st : Service) : Service :=
  syncDaemonMailbox m (put is_mailboxes (<[ToLower (im_email m) := m]> (is_mailboxes st)) st).

(** The verifier of a given password. *)
Definition hashed (actor : Actor) (m : Mailbox) (password : string) : I string :=
  if password =?s "" then mret (im_verifier m) else
  h ← tryM (HashSecret password);
  match h with
  | Ok v => mret v
  | Err err => audited actor "scim.user.write" (im_email m) "failure" err
  end.

(** The mailbox as it is stored over the one it replaces. *)
Definition stored_mailbox (m : Mailbox) (verifier : string) (now : Z) (old : option Mailbox) : Mailbox :=
  let email := ToLower (im_email m) in
  {| im_id := if im_id m =?s "" then email else im_id m; im_email := email;
     im_display_name := im_display_name m; im_active := im_active m;
     im_verifier := match old with
                    | Some o => if verifier =?s "" then im_verifier o else verifier
                    | None => verifier
                    end;
     im_created_at := match old with Some o => im_created_at o | None => now end;
     im_updated_at := now |}.

Definition CreateOrReplaceUser (actor : Actor) (m : Mailbox) (password : string) : I Mailbox :=
  authorize actor "mailbox:provision" (im_email m) "scim.user.write";;
  valid ← readM (fun st => validateMailbox st (im_email m));
  match valid with
  | Err err => audited actor "scim.user.write" (im_email m) "failure" err
  | Ok _ =>
      verifier ← hashed actor m password;
      now ← nowM;
      old ← readM (fun st => is_mailboxes st !! ToLower (ToLower (im_email m)));
      let m' := stored_mailbox m verifier now old in
      audit actor "scim.user.write" (im_id m') "success" "";;
      persistMailbox m';;
      updateM (set_mailbox m');;
      mret m'
  end.

Record PatchOperation := { po_op : string; po_path : string; po_value : jval }.

Definition set_display_name (name : string) (m : Mailbox) : Mailbox := put im_display_name name m.

Definition applyPatch (m : Mailbox) (op : PatchOperation) : I Mailbox :=
  let path := TrimPrefix (ToLower (po_path op)) "/" in
  let verb := ToLower (po_op op) in
  let display := (path =?s "displayname") || (path =?s "name/formatted") in
  let unsupported := failM "unsupported patch operation or path" in
  if (verb =?s "add") || (verb =?s "replace") then
    if path =?s "active" then
      match po_value op with
      | VBool b => mret (put im_active b m)
      | _ => failM "active must be boolean"
      end
    else if display then
      match po_value op with
      | VStr v => mret (set_display_name v m)
      | _ => failM "displayName must be string"
      end
    else if path =?s "password" then
      match po_value op with
      | VStr v => h ← HashSecret v; mret (put im_verifier h m)
      | _ => failM "password must be string"
      end
    else unsupported
  else if (verb =?s "remove") && display then mret (set_display_name "" m)
  else unsupported.

Fixpoint applyPatches (m : Mailbox) (ops : list PatchOperation) : I Mailbox :=
  match ops with
  | [] => mret m
  | op :: ops => m' ← applyPatch m op; applyPatches m' ops
  end.

Definition user_missing {A} (actor : Actor) (action id : string) : I A :=
  audited actor action id "failure" "user not found".

Definition PatchUser (actor : Actor) (id : string) (ops : list PatchOperation) : I Mailbox :=
  found ← readM (fun st => GetUser st id);
  match found with
  | None => user_missing actor "scim.user.patch" id
  | Some m =>
      patched ← tryM (applyPatches m ops);
      match patched with
      | Err err => audited actor "scim.user.patch" id "failure" err
      | Ok m' => CreateOrReplaceUser actor m' ""
      end
  end.

Definition DisableUser (actor : Actor) (id : string) : I Mailbox :=
  found ← readM (fun st => GetUser st id);
  match found with
  | None => user_missing actor "scim.user.disable" id
  | Some m => CreateOrReplaceUser actor (put im_active false m) ""
  end.

(** The application passwords of one mailbox become those of another. *)
Definition rename_passwords (previous key : string) (l : gmap string AppPassword)
    : gmap string AppPassword :=
  (fun p => if pw_mailbox_id p =?s previous then put pw_mailbox_id key p else p) <$> l.

Definition ApplySCIMMailbox (previousEmail : string) (mailbox0 : Mailbox) (st : Service) : Service :=
  let key := ToLower (im_email mailbox0) in
  let previous := ToLower previousEmail in
  let mailbox := match is_mailboxes st !! previous with
                 | Some current => if im_verifier mailbox0 =?s ""
                                   then put im_verifier (im_verifier current) mailbox0 else mailbox0
                 | None => mailbox0
                 end in
  let st1 :=
    if (previous <>?s "") && (previous <>?s key) then
      let dropped := put is_mailboxes (delete previous (is_mailboxes st)) st in
      let undone := put is_daemon (DeleteIdentityMailbox previous <$> is_daemon dropped) dropped in
      put is_passwords (rename_passwords previous key (is_passwords undone)) undone
    else st in
  syncDaemonAppPasswords key (set_mailbox mailbox st1).

(** *** Application passwords *)

Definition password_le (p q : AppPassword) : Prop :=
  (pw_created_at p < pw_created_at q)%Z \/ (pw_created_at p = pw_created_at q /\ String.le (pw_id p) (pw_id q)).
#[local] Instance password_le_dec : RelDecision password_le.
Proof. intros p q. unfold password_le. apply _. Defined.

Definition ListAppPasswords (st : Service) (mailboxID : string) : list AppPassword :=
  merge_sort password_le
    (List.filter (fun p => pw_mailbox_id p =?s ToLower mailboxID) (map snd (range 5 (is_passwords st)))).

Definition ListAppPasswordsForActor (actor : Actor) (mailboxID : string) : I (list AppPassword) :=
  authorize actor "mailbox:app_password.read" mailboxID "app_password.list";;
  readM (fun st => ListAppPasswords st mailboxID).

Definition appPasswordSuccessEvent (actor : Actor) (action : string) (p : AppPassword) : Event :=
  {| ev_id := "";
     ev_time := match pw_revoked_at p with
                | Some t => if action =?s "app_password.revoke" then t else pw_created_at p
                | None => pw_created_at p
                end;
     ev_actor := {| actor_type := a_type actor; actor_id := a_id actor |}; ev_source := None;
     ev_action := action;
     ev_resource := {| resource_type := "identity"; resource_id := pw_mailbox_id p |};
     ev_before := JNull;
     ev_after := JObj [("credential_id", JStr (pw_id p)); ("label", JStr (pw_label p))];
     ev_correlation_id := "identity"; ev_result := "success"; ev_error_code := "" |}.

Definition password_row (p : AppPassword) : TokenRow :=
  {| tk_subject_type := "mailbox"; tk_subject_id := pw_mailbox_id p; tk_kind := "app_password";
     tk_verifier := pw_verifier p; tk_label := pw_label p;
     tk_scope_json := marshal_strings ["mailbox:" +:+ ToLower (pw_mailbox_id p) +:+ ":app_password"];
     tk_created_at := pw_created_at p; tk_revoked_at := None; tk_public_id := Some (pw_id p) |}.

(** SELECT ... FROM mailboxes m JOIN domains d ... WHERE d.name=$1 AND
    m.local_part=$2 FOR UPDATE *)
Definition select_mailbox (domain local : string) (d : DB) : result (option string) :=
  Ok (fst <$> find_row (fun _ m => (mb_local_part m =?s local)
        && match db_domains d !! mb_domain_id m with Some r => dm_name r =?s domain | None => false end)
      (db_mailboxes d)).

Definition active_row (mailboxID : string) (r : TokenRow) : bool :=
  (tk_subject_type r =?s "mailbox") && (tk_subject_id r =?s mailboxID) && (tk_kind r =?s "app_password")
  && match tk_revoked_at r with None => true | Some _ => false end.
Definition count_active (mailboxID : string) (d : DB) : nat :=
  length (List.filter (fun kv => active_row mailboxID kv.2) (map_to_list (tokens d))).

Definition persistAppPasswordCreate (actor : Actor) (p : AppPassword) : I unit :=
  transaction (
    match SplitFirstByte "@" (pw_mailbox_id p) with
    | None => failM "invalid mailbox address"
    | Some (local, domain) =>
        row ← queryM (select_mailbox domain local);
        match row with
        | None => failM "mailbox not found"
        | Some _ =>
            active ← queryM (fun d => Ok (count_active (pw_mailbox_id p) d));
            guardM (MaxActiveAppPasswords <=? active) ErrAppPasswordLimit;;
            execM (insert_token (stableUUID ("app_password:" +:+ pw_id p)) (password_row p));;
            WriteSQL (appPasswordSuccessEvent actor "app_password.create" p);;
            mret (true, tt)
        end
    end).

(** Between the checks under the first lock and under the second one nothing
    else runs: calls are sequential. *)
Definition add_password (p : AppPassword) (st : Service) : Service :=
  syncDaemonAppPasswords (pw_mailbox_id p) (put is_passwords (<[pw_id p := p]> (is_passwords st)) st).

Definition create_refused {A} (actor : Actor) (mailboxID err : string) : I A :=
  audited actor "app_password.create" mailboxID "failure" err.

(** The mailbox exists and is below its limit. *)
Definition check_mailbox (actor : Actor) (mailboxID : string) : I unit :=
  found ← readM (fun st => is_mailboxes st !! mailboxID);
  count ← readM (fun st => activeAppPasswordCount st mailboxID);
  match found with
  | None => create_refused actor mailboxID "mailbox not found"
  | Some _ => if MaxActiveAppPasswords <=? count then create_refused actor mailboxID ErrAppPasswordLimit
              else mret tt
  end.

(** The secret, its verifier, the time and the identifier of a new password. *)
Definition new_credential : I (string * string * Z * string) :=
  secret ← randomSecret;
  verifier ← HashSecret secret;
  now ← nowM;
  idToken ← randomToken 12;
  mret (secret, verifier, now, "app_" +:+ idToken).

Definition CreateAppPassword (actor : Actor) (mailboxID0 label0 : string) : I AppPasswordCreated :=
  let label := TrimSpace label0 in
  if label =?s "" then create_refused actor mailboxID0 "label required" else
  if 128 <? len label then create_refused actor mailboxID0 "label exceeds 128 bytes" else
  authorize actor "mailbox:app_password.create" mailboxID0 "app_password.create";;
  let mailboxID := ToLower mailboxID0 in
  check_mailbox actor mailboxID;;
  credential ← new_credential;
  let '(secret, verifier, now, id) := credential in
  check_mailbox actor mailboxID;;
  let p := {| pw_id := id; pw_mailbox_id := mailboxID; pw_label := label; pw_verifier := verifier;
              pw_created_at := now; pw_revoked_at := None |} in
  persisted ← tryM (persistAppPasswordCreate actor p);
  match persisted with
  | Err err => create_refused actor mailboxID err
  | Ok _ =>
      updateM (add_password p);;
      mret {| pc_id := id; pc_label := label; pc_secret_once := secret; pc_created_at := now |}
  end.

(** SELECT id FROM tokens WHERE public_id=$1 AND subject_type='mailbox' AND
    subject_id=$2 AND kind='app_password' FOR UPDATE *)
Definition select_password (p : AppPassword) (d : DB) : result (option string) :=
  Ok (fst <$> find_row (fun _ r => bool_decide (tk_public_id r = Some (pw_id p))
        && (tk_subject_type r =?s "mailbox") && (tk_subject_id r =?s pw_mailbox_id p)
        && (tk_kind r =?s "app_password")) (tokens d)).

(** UPDATE tokens SET revoked_at=$1 WHERE id=$2 *)
Definition revoke_row (id : string) (at_time : option Z) (d : DB) : result (unit * DB) :=
  Ok (tt, with_tokens (alter (put tk_revoked_at at_time) id) d).

Definition persistAppPasswordRevoke (actor : Actor) (p : AppPassword) : I unit :=
  transaction (
    row ← queryM (select_password p);
    match row with
    | None => failM "app password not found"
    | Some id =>
        execM (revoke_row id (pw_revoked_at p));;
        WriteSQL (appPasswordSuccessEvent actor "app_password.revoke" p);;
        mret (true, tt)
    end).

Definition RevokeAppPassword (actor : Actor) (mailboxID0 tokenID : string) : I unit :=
  authorize actor "mailbox:app_password.revoke" mailboxID0 "app_password.revoke";;
  let mailboxID := ToLower mailboxID0 in
  let refused err := audited actor "app_password.revoke" mailboxID "failure" err in
  now ← nowM;
  found ← readM (fun st => is_passwords st !! tokenID);
  match found with
  | None => refused "app password not found"
  | Some p =>
      if pw_mailbox_id p <>?s mailboxID then refused "app password not found" else
      match pw_revoked_at p with
      | Some _ => mret tt
      | None =>
          let p' := put pw_revoked_at (Some now) p in
          persisted ← tryM (persistAppPasswordRevoke actor p');
          match persisted with
          | Err err => refused err
          | Ok _ => updateM (fun st => syncDaemonAppPasswords mailboxID
                      (put is_passwords (<[tokenID := p']> (is_passwords st)) st))
          end
      end
  end.

Definition VerifyDovecot (st : Service) (mailboxID0 secret : string) : bool :=
  let mailboxID := ToLower mailboxID0 in
  match is_mailboxes st !! mailboxID with
  | None => false
  | Some m =>
      im_active m
      && (is_ok (VerifyDjangoPBKDF2SHA256 (im_verifier m) secret)
          || (negb (MaxActiveAppPasswords <? activeAppPasswordCount st mailboxID)
              && existsb (fun p => is_ok (VerifyDjangoPBKDF2SHA256 (pw_verifier p) secret))
                   (active_passwords 6 st mailboxID)))
  end.

(** *** Bearer tokens *)

Definition ValidateTokenKind (k : string) : bool :=
  existsb (fun x => x =?s k) ["api"; "app_password"; "plugin_service"; "scim_client"; "break_glass"].

Definition token_row (tok : Token) (now : Z) (revoked : option Z) : TokenRow :=
  {| tk_subject_type := "token"; tk_subject_id := to_id tok; tk_kind := to_kind tok;
     tk_verifier := to_verifier tok; tk_label := to_id tok;
     tk_scope_json := marshal_strings (to_scopes tok); tk_created_at := now;
     tk_revoked_at := revoked; tk_public_id := None |}.

Definition persistToken (tok : Token) : I unit :=
  revoked ← (if to_revoked tok then t ← nowM; mret (Some t) else mret None);
  now ← nowM;
  execM (upsert_token (TokenStorageID (to_id tok)) (token_row tok now revoked)).

Definition AddTokenWithScopes (id kind0 secret : string) (scopes : list string) : I unit :=
  let kind := if kind0 =?s "api_token" then "api" else kind0 in
  guardM (negb (ValidateTokenKind kind)) "invalid token kind";;
  verifier ← HashSecret secret;
  let tok := {| to_id := id; to_kind := kind; to_verifier := verifier; to_scopes := scopes;
                to_revoked := false |} in
  persistToken tok;;
  updateM (fun st => put is_tokens (<[id := tok]> (is_tokens st)) st).

Definition bearer_matches (kind secret : string) (tok : Token) : bool :=
  negb (to_revoked tok) && (to_kind tok =?s kind)
  && is_ok (VerifyDjangoPBKDF2SHA256 (to_verifier tok) secret).

Definition AuthenticateBearer (st : Service) (header requiredKind : string) : result Actor :=
  let kind := if requiredKind =?s "api_token" then "api" else requiredKind in
  if negb (HasPrefix header "Bearer ") then Err "bearer token required" else
  let secret := TrimSpace (TrimPrefix header "Bearer ") in
  match List.find (bearer_matches kind secret) (map snd (range 7 (is_tokens st))) with
  | Some tok => Ok {| a_type := requiredKind; a_id := to_id tok; a_mailbox := "";
                      a_scopes := to_scopes tok; a_groups := []; a_roles := [] |}
  | None => Err "invalid bearer token"
  end.

(** *** Loading *)

(** [json.Unmarshal] into a nil [[]string], its error dropped: an element that
    is not a string leaves an empty one. *)
Definition lenient_strings (text : string) : list string :=
  match parse_json text with
  | Some (VArr l) => map (fun v => match v with VStr s => s | _ => "" end) l
  | _ => []
  end.

Definition loaded_mailbox (domain : string) (r : MailboxRow) : Mailbox :=
  let email := ToLower (mb_local_part r +:+ "@" +:+ domain) in
  let scim := default "" (mb_scim_resource_id r) in
  {| im_id := if scim =?s "" then email else scim; im_email := email;
     im_display_name := default "" (mb_display_name r); im_active := mb_enabled r;
     im_verifier := default "" (mb_verifier r); im_created_at := mb_created_at r;
     im_updated_at := mb_updated_at r |}.

Definition load_domains (d : DB) (st : Service) : Service :=
  foldl (fun st p => if dm_enabled p.2
                     then put is_known_domains ({[ToLower (dm_name p.2)]} ∪ is_known_domains st) st
                     else st) st (range 8 (db_domains d)).
Definition load_mailboxes (d : DB) (st : Service) : Service :=
  foldl (fun st p => match db_domains d !! mb_domain_id p.2 with
                     | Some dom => let m := loaded_mailbox (dm_name dom) p.2 in
                                   put is_mailboxes (<[im_email m := m]> (is_mailboxes st)) st
                     | None => st
                     end) st (range 9 (db_mailboxes d)).
Definition load_token (st : Service) (r : TokenRow) : Service :=
  if tk_kind r =?s "app_password" then st else
  put is_tokens (<[tk_label r :=
    {| to_id := tk_label r; to_kind := tk_kind r; to_verifier := tk_verifier r;
       to_scopes := lenient_strings (tk_scope_json r);
       to_revoked := match tk_revoked_at r with Some _ => true | None => false end |}]> (is_tokens st)) st.
Definition load_tokens (d : DB) (st : Service) : Service :=
  foldl (fun st p => load_token st p.2) st (range 10 (tokens d)).
Definition load_password (st : Service) (r : TokenRow) : Service :=
  match tk_public_id r with
  | Some id =>
      if tk_kind r =?s "app_password" then
        put is_passwords (<[id := {| pw_id := id; pw_mailbox_id := ToLower (tk_subject_id r);
          pw_label := tk_label r; pw_verifier := tk_verifier r; pw_created_at := tk_created_at r;
          pw_revoked_at := tk_revoked_at r |}]> (is_passwords st)) st
      else st
  | None => st
  end.
Definition load_passwords (d : DB) (st : Service) : Service :=
  foldl (fun st p => load_password st p.2) st (range 11 (tokens d)).

Definition over_limit (st : Service) : bool :=
  existsb (fun p => MaxActiveAppPasswords <? activeAppPasswordCount st p.1) (range 12 (is_mailboxes st)).

Definition load_step (load : DB -> Service -> Service) : I unit :=
  d ← queryM (fun d => Ok d);
  updateM (load d).

(** [loadSQL], before a daemon is bound. *)
Definition loadSQL : I unit :=
  load_step load_domains;;
  load_step load_mailboxes;;
  load_step load_tokens;;
  load_step load_passwords;;
  over ← readM over_limit;
  guardM over "mailbox exceeds active app password limit".
End Identity.
End identity.
