(* ===== verification/IdentityFacts.v ===== *)
(** * The identity service keeps its daemon in step

    The invariant of the service: its maps are keyed as they should be, no
    mailbox has more than eight active application passwords, each password
    has its row, and the bound daemon knows exactly the mailboxes and the
    active verifiers.  Every call keeps it, whatever fails, so the daemon and
    the service accept the same secrets, and a revoked password is dead. *)

From stdpp Require Import base list gmap sets strings sorting relations.
From Stdlib Require Import ZArith Lia Ascii.
From S2P Require Import Prelude GoStd Json JsonText JsonStruct Sha256 Sha1 Policy Queue AuditLog Database Relay Daemon Verifier Lookup Tokens Authz Regex Approval Executor Telegram Identity.
Import authz identity.
#[local] Existing Instances M_ret M_bind.

Section IdentityFacts.
Context `{HOST : !Host} `{MAIL : !MailParser}.
Context `{ORDER : !MapOrder} `{LAWS : !MapOrderLaws} `{KDF : !Pbkdf2}.
Implicit Types (st : Service) (w : World Service) (sv : Daemon.Service).

(** ** Addresses *)

(** The service keys a mailbox by its address in lower case, the daemon by the
    normal form of that.  net/mail admits addresses for which the two differ:
    one with a leading no-break space is not trimmed by the parser, and is by
    the daemon.  These are the ones for which they agree. *)
Definition canonical_email (email : string) : Prop :=
  normalizeAddress (ToLower email) = ToLower email /\ ToLower (ToLower email) = ToLower email.

Lemma SplitFirstByte_eq b a l r : SplitFirstByte b a = Some (l, r) -> a = l +:+ String b r.
Proof.
  revert l. induction a as [|c a IH]; intros l; cbn [SplitFirstByte]; [done|].
  destruct (Ascii.eqb c b) eqn:E; [intros [= <- <-]; apply Ascii.eqb_eq in E; by subst|].
  destruct (SplitFirstByte b a) as [[l' r']|]; [|done]. intros [= <- <-].
  rewrite app_cons. f_equal. by apply IH.
Qed.

Lemma split_at_first a l r : SplitFirstByte "@" a = Some (l, r) -> forall_bytes domain_byte r = true ->
  after_at a = r.
Proof.
  intros ->%SplitFirstByte_eq Hr. unfold after_at. rewrite SplitLastByte_app; [done|].
  apply SplitLastByte_none. revert Hr. apply byte_class_incl. by vm_compute.
Qed.

(** An admitted canonical address in lower case is one the projection can keep. *)
Lemma admitted_normal st email : validateMailbox st email = Ok tt -> canonical_email email ->
  normal_address (ToLower email).
Proof.
  unfold validateMailbox. destruct (negb _ || _); [done|]. intros V [N L].
  destruct (SplitFirstByte "@" (ToLower email)) as [[local domain]|] eqn:Es; [|done].
  destruct (ValidateDomainName domain) eqn:Ev; [|done].
  unfold ValidateDomainName in Ev. repeat (apply andb_true_iff in Ev as [Ev ?]). to_prop.
  rename select (forall_bytes domain_byte domain = true) into Hd.
  pose proof (split_at_first _ _ _ Es Hd) as Ha. split; [done| | |].
  - intros Hnil. by rewrite Hnil in Es.
  - rewrite Ha. unfold normalizeDomain. rewrite TrimSpace_plain; [done|].
    revert Hd. apply byte_class_incl. by vm_compute.
  - rewrite Ha. by intros ->.
Qed.

(** Lower case and normal form on printable ASCII. *)
Lemma plain_is_ascii s : forall_bytes plain_byte s = true -> is_ascii s = true.
Proof. unfold is_ascii. apply byte_class_incl. by vm_compute. Qed.

Lemma lower_plain s : forall_bytes plain_byte s = true ->
  forall_bytes plain_byte (map_bytes lower_byte s) = true
  /\ map_bytes lower_byte (map_bytes lower_byte s) = map_bytes lower_byte s.
Proof.
  pose proof (forall_ascii (fun c => implb (plain_byte c) (plain_byte (lower_byte c)
    && Ascii.eqb (lower_byte (lower_byte c)) (lower_byte c))) ltac:(by vm_compute)) as H.
  induction s as [|c s IH]; [done|]. cbn [forall_bytes map_bytes]. intros [Hc Hs]%andb_true_iff.
  specialize (H c). cbv beta in H. rewrite Hc in H. apply andb_true_iff in H as [H E].
  apply Ascii.eqb_eq in E. destruct (IH Hs) as [IH1 IH2]. by rewrite H, E, IH1, IH2.
Qed.

Lemma ToLower_plain s : forall_bytes plain_byte s = true -> ToLower s = map_bytes lower_byte s.
Proof. intros H. unfold ToLower. by rewrite plain_is_ascii. Qed.

(** Every address of printable ASCII is canonical that the parser, if it takes
    its lower case at all, takes for itself. *)
Lemma plain_canonical email : forall_bytes plain_byte email = true ->
  (forall a, ParseAddress (ToLower email) = Some a -> a = ToLower email) -> canonical_email email.
Proof.
  intros Hp Hparse. destruct (lower_plain email Hp) as [Hl Hi]. unfold canonical_email.
  rewrite (ToLower_plain email Hp) in *. rewrite (ToLower_plain _ Hl). split; [|done].
  unfold normalizeAddress. rewrite (TrimSpace_plain _ Hl).
  destruct (ParseAddress _) as [a|]; [rewrite (Hparse a) by done|]; by rewrite (ToLower_plain _ Hl), Hi.
Qed.

(** ** Active passwords *)

Definition actives st (mailboxID : string) : list AppPassword :=
  List.filter (active_for mailboxID) (map snd (map_to_list (is_passwords st))).

Lemma Permutation_filter {A} (f : A -> bool) l l' : l ≡ₚ l' -> List.filter f l ≡ₚ List.filter f l'.
Proof.
  induction 1 as [|x l l' H IH|x y l|l1 l2 l3 _ IH1 _ IH2]; cbn.
  - done.
  - destruct (f x); [by constructor|done].
  - destruct (f x), (f y); try done. apply Permutation_swap.
  - by rewrite IH1.
Qed.

Lemma active_passwords_perm k st a : active_passwords k st a ≡ₚ actives st a.
Proof. unfold active_passwords, actives. apply Permutation_filter. by rewrite range_perm. Qed.

Lemma count_actives st a : activeAppPasswordCount st a = length (actives st a).
Proof. unfold activeAppPasswordCount. by rewrite active_passwords_perm. Qed.

Definition one_active (a : string) (p : AppPassword) : list AppPassword :=
  if active_for a p then [p] else [].

(** The actives of a map with one more entry. *)
Lemma filter_insert (m : gmap string AppPassword) id p a :
  m !! id = None ->
  List.filter (active_for a) (map snd (map_to_list (<[id := p]> m)))
  ≡ₚ one_active a p ++ List.filter (active_for a) (map snd (map_to_list m)).
Proof.
  intros H. unfold one_active. rewrite map_to_list_insert by done. cbn.
  by destruct (active_for a p).
Qed.

Lemma actives_new st id p a : is_passwords st !! id = None ->
  actives (put is_passwords (<[id := p]> (is_passwords st)) st) a ≡ₚ one_active a p ++ actives st a.
Proof. intros H. by apply filter_insert. Qed.

Lemma actives_changed st id p q : is_passwords st !! id = Some q ->
  exists rest, forall a, actives st a ≡ₚ one_active a q ++ rest a
    /\ actives (put is_passwords (<[id := p]> (is_passwords st)) st) a ≡ₚ one_active a p ++ rest a.
Proof.
  intros H. pose (m := delete id (is_passwords st)).
  exists (fun a => List.filter (active_for a) (map snd (map_to_list m))). intros a.
  assert (m !! id = None) as Hm by apply lookup_delete_eq. unfold actives. cbn [is_passwords put service_eta].
  split.
  - rewrite <- (filter_insert m id q a Hm). unfold m. by rewrite insert_delete_id.
  - rewrite <- (filter_insert m id p a Hm). unfold m. by rewrite insert_delete_eq.
Qed.

Lemma elem_actives st a p :
  p ∈ actives st a <-> (exists id, is_passwords st !! id = Some p) /\ active_for a p = true.
Proof.
  unfold actives. rewrite list_elem_of_In, filter_In, <- list_elem_of_In, list_elem_of_fmap.
  split; intros [H Ha]; (split; [|done]).
  - destruct H as ([id q] & -> & H%elem_of_map_to_list). by exists id.
  - destruct H as (id & H). exists (id, p). by rewrite elem_of_map_to_list.
Qed.

(** ** The invariant *)

(** What the daemon knows of the mailboxes and passwords. *)
Record projects st sv : Prop := {
  pr_canonical : canonical_service sv;
  pr_mailbox : forall key m, is_mailboxes st !! key = Some m -> sv_mailboxes sv !! key = Some (daemon_mailbox m);
  pr_verifiers : forall key, default [] (default None (sv_verifiers sv !! key)) ≡ₚ map pw_verifier (actives st key);
}.

(** The service and its daemon in step. The limit on the passwords of a mailbox
    is lost when SCIM renames a mailbox onto the address of another, whose
    passwords it then joins: [free] says that no such renaming happened. *)
Record in_step (free : bool) st : Prop := {
  co_keys : forall key m, is_mailboxes st !! key = Some m ->
    ToLower (im_email m) = key /\ ToLower key = key /\ normal_address key;
  co_passwords : forall id p, is_passwords st !! id = Some p ->
    pw_id p = id /\ is_Some (is_mailboxes st !! pw_mailbox_id p);
  co_limit : free = true -> forall key, length (actives st key) <= MaxActiveAppPasswords;
  co_daemon : forall sv, is_daemon st = Some sv -> projects st sv;
}.
Definition consistent st : Prop := in_step true st.

Lemma daemon_mailbox_address m key : ToLower (im_email m) = key -> normalizeAddress key = key ->
  normalizeAddress (ml_address (daemon_mailbox m)) = key
  /\ put ml_address key (daemon_mailbox m) = daemon_mailbox m.
Proof. intros H Hn. unfold daemon_mailbox. rewrite H. by split. Qed.

(** A mailbox under a normal key is stored and projected. *)
Lemma consistent_set_mailbox free st m :
  in_step free st -> let key := ToLower (im_email m) in ToLower key = key -> normal_address key ->
  in_step free (set_mailbox m st).
Proof.
  intros [K P L D] key Hl Hn. destruct (daemon_mailbox_address m key) as [A1 A2]; [done|apply Hn|].
  split; cbn.
  - intros k m'. fold key. rewrite lookup_insert. case_decide as E; [|apply K].
    intros [= <-]. subst k. by split_and!.
  - intros id p Hp. destruct (P id p Hp) as [E H]. split; [done|]. fold key.
    rewrite lookup_insert. case_decide; [by eexists|done].
  - apply L.
  - intros sv. destruct (is_daemon st) as [sv0|] eqn:E; [|done]. intros [= <-].
    destruct (D sv0 eq_refl) as [C M V]. split.
    + apply canonical_upsert; [by destruct C|by rewrite A1].
    + intros k m'. cbn. fold key. rewrite upsert_mailboxes, A1, A2.
      destruct (decide (key = k)) as [<-|Hk].
      * rewrite !lookup_insert_eq. by intros [= ->].
      * rewrite !lookup_insert_ne by done. apply M.
    + intros k. rewrite upsert_verifiers. apply V.
Qed.

(** The daemon is told the active passwords of a mailbox. *)
Lemma consistent_sync free st a :
  (forall key m, is_mailboxes st !! key = Some m ->
    ToLower (im_email m) = key /\ ToLower key = key /\ normal_address key) ->
  (forall id p, is_passwords st !! id = Some p -> pw_id p = id /\ is_Some (is_mailboxes st !! pw_mailbox_id p)) ->
  (free = true -> forall key, length (actives st key) <= MaxActiveAppPasswords) ->
  normalizeAddress a = a ->
  (forall sv, is_daemon st = Some sv -> canonical_service sv
    /\ (forall key m, is_mailboxes st !! key = Some m -> sv_mailboxes sv !! key = Some (daemon_mailbox m))
    /\ (forall key, key <> a -> default [] (default None (sv_verifiers sv !! key))
                                ≡ₚ map pw_verifier (actives st key))) ->
  in_step free (syncDaemonAppPasswords a st).
Proof.
  intros K P L Ha D. split; [exact K|exact P|exact L|].
  intros sv. cbn. destruct (is_daemon st) as [sv0|] eqn:E; [|done]. intros [= <-].
  destruct (D sv0 eq_refl) as (C & M & V). split.
  - apply canonical_verifiers; [by destruct C|by rewrite Ha].
  - exact M.
  - intros key. cbn. rewrite Ha, lookup_insert. case_decide as Ek.
    + subst key. rewrite <- (active_passwords_perm 1 st a).
      destruct (active_passwords 1 st a); done.
    + by apply V.
Qed.

(** ** Running the service *)

Lemma readM_eq {A} (f : Service -> A) w : readM f w = (Ok (f (w_ext w)), w).
Proof. by destruct w. Qed.
Lemma readM_bind {A B} (f : Service -> A) (k : A -> M Service B) w :
  (readM f ≫= k) w = k (f (w_ext w)) w.
Proof. by rewrite bind_run, readM_eq. Qed.
Lemma keeps_read {A} (f : Service -> A) : keeps_ext (readM f).
Proof. intros w. by rewrite readM_eq. Qed.
#[local] Hint Resolve keeps_read : effects.

(** A relation between the service before and after, through a part of a
    program that keeps it. *)
Lemma bind_ext {A B} (R : Service -> Service -> Prop) (m : M Service A) (k : A -> M Service B) w :
  keeps_ext m -> R (w_ext w) (w_ext w) ->
  (forall a w1, m w = (Ok a, w1) -> w_ext w1 = w_ext w -> R (w_ext w1) (w_ext (k a w1).2)) ->
  R (w_ext w) (w_ext ((m ≫= k) w).2).
Proof.
  intros Hm HR Hk. specialize (Hm w). rewrite bind_run. destruct (m w) as [[a|e] w1] eqn:E; cbn [snd] in Hm.
  - rewrite <- Hm. by apply Hk.
  - cbn [snd]. by rewrite Hm.
Qed.

Lemma keeps_audit actor action resource result code :
  keeps_ext (audit actor action resource result code).
Proof. unfold audit. solve_keeps. Qed.
#[local] Hint Resolve keeps_audit : effects.

Lemma keeps_audited {A} actor action resource result err :
  keeps_ext (audited (A := A) actor action resource result err).
Proof. unfold audited. solve_keeps. Qed.
#[local] Hint Resolve keeps_audited : effects.

Lemma keeps_authorize actor act mailbox action : keeps_ext (authorize actor act mailbox action).
Proof. unfold authorize. solve_keeps. Qed.
Lemma keeps_token {PS} n : keeps_ext (PS := PS) (randomToken n).
Proof. unfold randomToken. solve_keeps. Qed.
#[local] Hint Resolve keeps_authorize keeps_token : effects.
Lemma keeps_HashSecret {PS} secret : keeps_ext (PS := PS) (HashSecret secret).
Proof. unfold HashSecret. solve_keeps. Qed.
#[local] Hint Resolve keeps_HashSecret : effects.
Lemma keeps_hashed actor m password : keeps_ext (hashed actor m password).
Proof. unfold hashed. solve_keeps. Qed.
Lemma keeps_persist m : keeps_ext (persistMailbox m).
Proof. unfold persistMailbox. solve_keeps. Qed.
Lemma keeps_check actor mailboxID : keeps_ext (check_mailbox actor mailboxID).
Proof. unfold check_mailbox, create_refused. solve_keeps. Qed.
Lemma keeps_credential : keeps_ext new_credential.
Proof. unfold new_credential, randomSecret. solve_keeps. Qed.
Lemma keeps_refused {A} actor mailboxID err : keeps_ext (create_refused (A := A) actor mailboxID err).
Proof. unfold create_refused. solve_keeps. Qed.
Lemma keeps_persist_create actor p : keeps_ext (persistAppPasswordCreate actor p).
Proof. unfold persistAppPasswordCreate. solve_keeps. Qed.
Lemma keeps_persist_revoke actor p : keeps_ext (persistAppPasswordRevoke actor p).
Proof. unfold persistAppPasswordRevoke. solve_keeps. Qed.
Lemma keeps_patch m op : keeps_ext (applyPatch m op).
Proof. unfold applyPatch. solve_keeps. Qed.
#[local] Hint Resolve keeps_hashed keeps_persist keeps_check keeps_credential keeps_refused
  keeps_persist_create keeps_persist_revoke keeps_patch : effects.
Lemma keeps_patches m ops : keeps_ext (applyPatches m ops).
Proof. revert m. induction ops; intros m; cbn [applyPatches]; solve_keeps. Qed.
Lemma keeps_persist_token tok : keeps_ext (persistToken tok).
Proof. unfold persistToken. solve_keeps. Qed.
#[local] Hint Resolve keeps_patches keeps_persist_token : effects.

(** *** What each call does to the service *)

Lemma authorize_ok actor act mailbox action w u w' :
  authorize actor act mailbox action w = (Ok u, w') ->
  w' = w /\ permitted (is_authorizer (w_ext w)) actor act {| r_type := "mailbox"; r_id := mailbox |}.
Proof.
  unfold authorize. rewrite readM_bind.
  destruct (Decide _ _ _ _) as [d|] eqn:E; [|done]. destruct (d_allow d) eqn:Ea.
  - intros H. injection H as _ <-. split; [done|]. by eapply Decide_permitted.
  - unfold audited. intros H. apply bind_ok in H as (? & ? & _ & H). done.
Qed.

(** A user write stores one mailbox the service admits, of an address that was
    given. *)
Definition wrote_mailbox (given : string -> Prop) st st' : Prop :=
  st' = st \/ exists email m, given email /\ validateMailbox st email = Ok tt /\ im_email m = ToLower email
                              /\ st' = set_mailbox m st.

Lemma wrote_mono (given given' : string -> Prop) st st' : (forall email, given email -> given' email) ->
  wrote_mailbox given st st' -> wrote_mailbox given' st st'.
Proof. intros H [->|(email & m & G & W)]; [by left|right]. exists email, m. split; [by apply H|done]. Qed.

Lemma CreateOrReplaceUser_ext actor m password w :
  wrote_mailbox (eq (im_email m)) (w_ext w) (w_ext (CreateOrReplaceUser actor m password w).2).
Proof.
  unfold CreateOrReplaceUser. apply bind_ext; [auto with effects|by left|]. intros _ w1 _ X1. cbv beta.
  rewrite readM_bind. destruct (validateMailbox (w_ext w1) (im_email m)) as [[]|err] eqn:V.
  2: { left. apply keeps_audited. }
  apply bind_ext; [auto with effects|by left|]. intros verifier w2 _ X2.
  apply bind_ext; [apply keeps_now|by left|]. intros now w3 _ X3. rewrite readM_bind. cbv zeta.
  apply bind_ext; [auto with effects|by left|]. intros _ w4 _ X4.
  apply bind_ext; [auto with effects|by left|]. intros _ w5 _ X5.
  right. exists (im_email m). eexists. split; [done|]. split; [by rewrite X5, X4, X3, X2|].
  split; [|reflexivity]. done.
Qed.

(** The addresses of the mailboxes the service has. *)
Definition held_email st (email : string) : Prop :=
  exists key m, is_mailboxes st !! key = Some m /\ im_email m = email.

Lemma applyPatches_email ops : forall m w m' w', applyPatches m ops w = (Ok m', w') -> im_email m' = im_email m.
Proof.
  induction ops as [|op ops IH]; intros m w m' w'; cbn [applyPatches]; [by intros [= <- _]|].
  intros H. apply bind_ok in H as (m1 & w1 & H1 & ->%IH). unfold applyPatch in H1. cbv zeta in H1.
  repeat match type of H1 with context [if ?b then _ else _] => destruct b end; try done;
    destruct (po_value op) eqn:E; try done; try (by injection H1 as <- _).
  all: by apply bind_ok in H1 as (h & w2 & _ & [= <- _]).
Qed.

Lemma PatchUser_ext actor id ops w :
  wrote_mailbox (held_email (w_ext w)) (w_ext w) (w_ext (PatchUser actor id ops w).2).
Proof.
  unfold PatchUser. rewrite readM_bind. destruct (GetUser _ _) as [m|] eqn:G; [|left; apply keeps_audited].
  apply bind_ext; [apply keeps_try; auto with effects|by left|]. intros patched w1 H1%tryM_run X1.
  destruct patched as [m'|err]; [|left; apply keeps_audited]. apply applyPatches_email in H1.
  eapply wrote_mono; [|apply CreateOrReplaceUser_ext]. intros email <-. rewrite X1. by exists (ToLower id), m.
Qed.

Lemma DisableUser_ext actor id w :
  wrote_mailbox (held_email (w_ext w)) (w_ext w) (w_ext (DisableUser actor id w).2).
Proof.
  unfold DisableUser. rewrite readM_bind. destruct (GetUser _ _) as [m|] eqn:G; [|left; apply keeps_audited].
  eapply wrote_mono; [|apply CreateOrReplaceUser_ext]. intros email <-. by exists (ToLower id), m.
Qed.

Lemma AddToken_ext id kind secret scopes w :
  let st' := w_ext (AddTokenWithScopes id kind secret scopes w).2 in
  st' = w_ext w \/ exists tok, st' = put is_tokens (<[id := tok]> (is_tokens (w_ext w))) (w_ext w).
Proof.
  cbv zeta. unfold AddTokenWithScopes. cbv zeta.
  apply (bind_ext (fun st st' => st' = st \/ exists tok, st' = put is_tokens (<[id := tok]> (is_tokens st)) st));
    [apply keeps_guard|by left|]. intros _ w1 _ X1.
  apply (bind_ext (fun st st' => st' = st \/ exists tok, st' = put is_tokens (<[id := tok]> (is_tokens st)) st));
    [auto with effects|by left|]. intros verifier w2 _ X2.
  apply (bind_ext (fun st st' => st' = st \/ exists tok, st' = put is_tokens (<[id := tok]> (is_tokens st)) st));
    [auto with effects|by left|]. intros _ w3 _ X3. right. by eexists.
Qed.

(** *** Application passwords *)

Lemma audited_err {A} actor action resource result err w (a : A) w' :
  audited actor action resource result err w <> (Ok a, w').
Proof. unfold audited. intros H. apply bind_ok in H as (? & ? & _ & H). done. Qed.

Lemma check_mailbox_ok actor a w u w' : check_mailbox actor a w = (Ok u, w') ->
  w' = w /\ is_Some (is_mailboxes (w_ext w) !! a) /\ length (actives (w_ext w) a) < MaxActiveAppPasswords.
Proof.
  unfold check_mailbox, create_refused. rewrite !readM_bind, count_actives.
  destruct (is_mailboxes _ !! a) as [m|]; [|intros H; by apply audited_err in H].
  destruct (_ <=? _) eqn:E; [intros H; by apply audited_err in H|].
  intros H. injection H as _ <-. split_and!; [done|by eexists|]. apply Nat.leb_gt in E. exact E.
Qed.

Lemma stored_token_new id r d d' :
  store_token id r d = Ok (tt, d') -> tk_kind r = "app_password" ->
  d' = with_tokens (<[id := r]>) d
  /\ forall k r', tokens d !! k = Some r' -> k <> id -> tk_kind r' = "app_password" ->
       tk_public_id r' <> tk_public_id r.
Proof.
  unfold store_token. destruct (negb _); [done|]. destruct (public_id_taken id r d) eqn:E; [done|].
  intros [= <-] Hk. split; [done|]. intros k r' Hr' Hne Hk' Hp.
  unfold public_id_taken, find_row in E. rewrite Hk, eqs_refl in E. cbn [andb] in E.
  destruct (List.find _ _) as [x|] eqn:F; [done|].
  pose proof (find_none _ _ F (k, r')) as N. cbn in N.
  assert (In (k, r') (map_to_list (tokens d))) as Hin
    by (apply list_elem_of_In; by apply elem_of_map_to_list).
  specialize (N Hin). apply eqs_false in Hne. rewrite Hne, Hk', eqs_refl, bool_decide_true in N by done.
  done.
Qed.

(** What a committed creation wrote. *)
Lemma persistAppPasswordCreate_ok actor p w u w' :
  persistAppPasswordCreate actor p w = (Ok u, w') ->
  w_ext w' = w_ext w
  /\ count_active (pw_mailbox_id p) (w_db w) < MaxActiveAppPasswords
  /\ (forall k r, tokens (w_db w) !! k = Some r -> tk_kind r = "app_password" ->
       tk_public_id r <> Some (pw_id p))
  /\ exists ev, w_db w' = with_audit (fun l => l ++ [ev])
       (with_tokens (<[stableUUID ("app_password:" +:+ pw_id p) := password_row p]>) (w_db w))
     /\ ev_action ev = "app_password.create" /\ ev_result ev = "success"
     /\ tokens (w_db w) !! stableUUID ("app_password:" +:+ pw_id p) = None.
Proof.
  unfold persistAppPasswordCreate. intros H.
  apply transaction_ok in H as (w1 & c & w2 & H & D1 & X1 & X2 & Hd).
  destruct (SplitFirstByte _ _) as [[local domain]|]; [|done].
  apply bind_ok in H as (row & w3 & (Hq & D3 & X3)%queryM_ok & H). destruct row as [id|]; [|done].
  apply bind_ok in H as (active & w4 & (Ha & D4 & X4)%queryM_ok & H). injection Ha as <-.
  apply bind_ok in H as (_ & w5 & [Hg ->]%guardM_ok & H). apply Nat.leb_gt in Hg.
  apply bind_ok in H as ([] & w6 & [Hs X6]%execM_ok & H).
  apply bind_ok in H as ([] & w7 & (ev & D7 & X7 & Ea & _ & _ & _ & Er & _)%WriteSQL_ok & H).
  injection H as <- <- <-. cbn in Hd. unfold insert_token in Hs. rewrite D4, D3, D1 in Hs.
  destruct (tokens (w_db w) !! stableUUID _) as [old|] eqn:Et; [done|].
  apply stored_token_new in Hs as [Hs Hu]; [|done]. split; [congruence|].
  split; [by rewrite <- D1, <- D3|]. split.
  - intros k r Hr Hk. apply (Hu k r Hr); [|done]. intros ->. rewrite Et in Hr. done.
  - exists ev. split; [|done]. rewrite Hd, D7. by rewrite Hs.
Qed.

(** An issued password: the secret of the credential is hashed in its
    verifier. *)
Lemma randomToken_ok {PS} n (w : World PS) t (w' : World PS) : randomToken n w = (Ok t, w') ->
  w_db w' = w_db w /\ w_ext w' = w_ext w /\ exists bytes, t = raw_url_encode (fill n bytes).
Proof.
  unfold randomToken. intros H. apply bind_ok in H as (b & w1 & H1 & H).
  destruct (entropyM_run w) as (b' & w1' & E & D & X & _). rewrite E in H1. injection H1 as -> ->.
  destruct b as [bytes|]; [|done]. injection H as <- <-. by split_and!; [| |exists bytes].
Qed.

Lemma HashSecret_ok {PS} secret (w : World PS) v (w' : World PS) : HashSecret secret w = (Ok v, w') ->
  w_db w' = w_db w /\ w_ext w' = w_ext w /\ 8 <= len secret
  /\ exists bytes, v = MakeDjangoPBKDF2SHA256 secret (raw_url_encode (fill 10 bytes)) 120000.
Proof.
  unfold HashSecret. intros H. apply bind_ok in H as (_ & w1 & [Hg ->]%guardM_ok & H).
  apply bind_ok in H as (salt & w2 & (D & X & bytes & ->)%randomToken_ok & H). injection H as <- <-.
  apply Nat.ltb_ge in Hg. split_and!; [done..|]. by exists bytes.
Qed.

Lemma new_credential_ok w secret verifier now id w' :
  new_credential w = (Ok (secret, verifier, now, id), w') ->
  w_db w' = w_db w /\ w_ext w' = w_ext w
  /\ (exists bytes, secret = raw_url_encode (fill 24 bytes))
  /\ exists bytes, verifier = MakeDjangoPBKDF2SHA256 secret (raw_url_encode (fill 10 bytes)) 120000.
Proof.
  unfold new_credential, randomSecret. intros H.
  apply bind_ok in H as (s & w1 & (D1 & X1 & Hs)%randomToken_ok & H).
  apply bind_ok in H as (v & w2 & (D2 & X2 & _ & bytes & ->)%HashSecret_ok & H).
  apply bind_ok in H as (t & w3 & H3 & H).
  destruct (nowM_run w2) as (t' & w3' & E3 & D3 & X3 & _). rewrite E3 in H3. injection H3 as <- <-.
  apply bind_ok in H as (i & w4 & (D4 & X4 & _)%randomToken_ok & H).
  injection H as <- <- <- <- <-. split_and!; [congruence..|exact Hs|]. by exists bytes.
Qed.

(** A created password: what held, and what was stored. *)
Record created_password (actor : Actor) (mailboxID0 label0 secret : string) (p : AppPassword)
    st st' (d : DB) : Prop := {
  cr_permitted : permitted (is_authorizer st) actor "mailbox:app_password.create"
    {| r_type := "mailbox"; r_id := mailboxID0 |};
  cr_mailbox : pw_mailbox_id p = ToLower mailboxID0 /\ is_Some (is_mailboxes st !! pw_mailbox_id p);
  cr_label : pw_label p = TrimSpace label0 /\ pw_label p <> "" /\ len (pw_label p) <= 128;
  cr_active : pw_revoked_at p = None;
  cr_below : length (actives st (pw_mailbox_id p)) < MaxActiveAppPasswords;
  cr_secret : exists bytes, secret = raw_url_encode (fill 24 bytes);
  cr_verifier : exists bytes,
    pw_verifier p = MakeDjangoPBKDF2SHA256 secret (raw_url_encode (fill 10 bytes)) 120000;
  cr_fresh : forall k r, tokens d !! k = Some r -> tk_kind r = "app_password" ->
    tk_public_id r <> Some (pw_id p);
  cr_service : st' = add_password p st;
}.

(** A call that fails leaves the service alone. *)
Definition err_keeps {A} (m : M Service A) : Prop :=
  forall w e w', m w = (Err e, w') -> w_ext w' = w_ext w.

Lemma err_keeps_all {A} (m : M Service A) : keeps_ext m -> err_keeps m.
Proof. intros H w e w' E. specialize (H w). by rewrite E in H. Qed.
Lemma err_keeps_bind {A B} (m : M Service A) (k : A -> M Service B) :
  keeps_ext m -> (forall a, err_keeps (k a)) -> err_keeps (m ≫= k).
Proof.
  intros Hm Hk w e w' E. specialize (Hm w). rewrite bind_run in E.
  destruct (m w) as [[a|e'] w1]; cbn [snd] in Hm; [|by injection E as _ <-].
  rewrite <- Hm. by apply (Hk a) in E.
Qed.
Lemma err_keeps_update {A} f (a : A) : err_keeps (updateM f;; mret a).
Proof. by intros w e w' E. Qed.

Lemma CreateAppPassword_err actor mailboxID0 label0 : err_keeps (CreateAppPassword actor mailboxID0 label0).
Proof.
  unfold CreateAppPassword. cbv zeta.
  destruct (_ =?s _); [apply err_keeps_all; auto with effects|].
  destruct (_ <? _); [apply err_keeps_all; auto with effects|].
  do 2 (apply err_keeps_bind; [auto with effects|intros _]).
  apply err_keeps_bind; [auto with effects|]. intros [[[secret verifier] now] id].
  apply err_keeps_bind; [auto with effects|intros _].
  apply err_keeps_bind; [apply keeps_try; auto with effects|]. intros persisted.
  destruct persisted; [apply err_keeps_update|apply err_keeps_all; auto with effects].
Qed.

Lemma CreateAppPassword_ok actor mailboxID0 label0 w out w' :
  CreateAppPassword actor mailboxID0 label0 w = (Ok out, w') ->
  exists p, created_password actor mailboxID0 label0 (pc_secret_once out) p (w_ext w) (w_ext w') (w_db w)
    /\ out = {| pc_id := pw_id p; pc_label := pw_label p; pc_secret_once := pc_secret_once out;
                pc_created_at := pw_created_at p |}
    /\ count_active (pw_mailbox_id p) (w_db w) < MaxActiveAppPasswords
    /\ exists ev, w_db w' = with_audit (fun l => l ++ [ev])
         (with_tokens (<[stableUUID ("app_password:" +:+ pw_id p) := password_row p]>) (w_db w))
       /\ ev_action ev = "app_password.create" /\ ev_result ev = "success"
       /\ tokens (w_db w) !! stableUUID ("app_password:" +:+ pw_id p) = None.
Proof.
  unfold CreateAppPassword. cbv zeta. unfold create_refused.
  destruct (TrimSpace label0 =?s "") eqn:El; [intros H; by apply audited_err in H|].
  destruct (128 <? len _) eqn:En; [intros H; by apply audited_err in H|].
  intros H. apply bind_ok in H as (_ & w1 & [-> Hp]%authorize_ok & H).
  apply bind_ok in H as (_ & w2 & (-> & Hm & Hl)%check_mailbox_ok & H).
  apply bind_ok in H as ([[[secret verifier] now] id] & w3 & (D3 & X3 & Hs & Hv)%new_credential_ok & H).
  apply bind_ok in H as (_ & w4 & (-> & _ & _)%check_mailbox_ok & H).
  apply bind_ok in H as (persisted & w5 & H5%tryM_run & H).
  destruct persisted as [[]|err]; [|by apply audited_err in H].
  apply persistAppPasswordCreate_ok in H5 as (X5 & Hc & Hf & ev & Hd & Ha & Hres & Ht).
  apply bind_ok in H as ([] & w6 & H6 & H). injection H as <- <-. injection H6 as <-.
  rewrite D3 in Hc, Hf, Hd, Ht.
  eexists {| pw_id := id; pw_mailbox_id := ToLower mailboxID0; pw_label := TrimSpace label0;
             pw_verifier := verifier; pw_created_at := now; pw_revoked_at := None |}.
  split; [|split_and!; [reflexivity|exact Hc|exists ev; by split_and!]].
  apply Nat.ltb_ge in En. apply eqs_false in El.
  split; cbn [pw_mailbox_id pw_label pw_revoked_at pw_verifier pw_id pc_secret_once]; try done.
  cbn [w_ext set_ext]. by rewrite X5, X3.
Qed.

(** ** Revocation *)

Lemma persistAppPasswordRevoke_ok actor p w u w' :
  persistAppPasswordRevoke actor p w = (Ok u, w') ->
  w_ext w' = w_ext w
  /\ exists id r ev, tokens (w_db w) !! id = Some r /\ tk_public_id r = Some (pw_id p)
       /\ tk_kind r = "app_password"
       /\ w_db w' = with_audit (fun l => l ++ [ev])
            (with_tokens (alter (put tk_revoked_at (pw_revoked_at p)) id) (w_db w))
       /\ ev_action ev = "app_password.revoke" /\ ev_result ev = "success".
Proof.
  unfold persistAppPasswordRevoke. intros H.
  apply transaction_ok in H as (w1 & c & w2 & H & D1 & X1 & X2 & Hd).
  apply bind_ok in H as (row & w3 & (Hq & D3 & X3)%queryM_ok & H). destruct row as [id|]; [|done].
  apply bind_ok in H as ([] & w6 & [Hs X6]%execM_ok & H).
  apply bind_ok in H as ([] & w7 & (ev & D7 & X7 & Ea & _ & _ & _ & Er & _)%WriteSQL_ok & H).
  injection H as <- <- <-. cbn in Hd. injection Hs as Hs. split; [congruence|].
  unfold select_password, find_row in Hq. rewrite D1 in Hq.
  destruct (List.find _ _) as [[k r]|] eqn:F; [|done]. injection Hq as ->.
  apply find_some in F as [Hin F]. cbn in F. apply list_elem_of_In, elem_of_map_to_list in Hin.
  exists id, r, ev. split_and!; [done| | |rewrite Hd, D7, <- Hs, D3, D1; done|done..];
    repeat (apply andb_true_iff in F as [F ?]); to_prop; naive_solver.
Qed.

Lemma RevokeAppPassword_err actor mailboxID0 tokenID : err_keeps (RevokeAppPassword actor mailboxID0 tokenID).
Proof.
  unfold RevokeAppPassword. cbv zeta. apply err_keeps_bind; [auto with effects|intros _].
  apply err_keeps_bind; [apply keeps_now|]. intros now. apply err_keeps_bind; [auto with effects|]. intros found.
  destruct found as [p|]; [|apply err_keeps_all; auto with effects].
  destruct (_ <>?s _); [apply err_keeps_all; auto with effects|].
  destruct (pw_revoked_at p); [by apply err_keeps_all|].
  apply err_keeps_bind; [apply keeps_try; auto with effects|]. intros persisted.
  destruct persisted; [by intros w e w' E|apply err_keeps_all; auto with effects].
Qed.

(** What a revocation did: the password was revoked already, or is now. *)
Definition revoked_password st st' (mailboxID tokenID : string) (p' : AppPassword) : Prop :=
  exists p, is_passwords st !! tokenID = Some p /\ pw_mailbox_id p = mailboxID /\ pw_revoked_at p = None
    /\ pw_revoked_at p' <> None /\ p' = put pw_revoked_at (pw_revoked_at p') p
    /\ st' = syncDaemonAppPasswords mailboxID (put is_passwords (<[tokenID := p']> (is_passwords st)) st).

Lemma RevokeAppPassword_ok actor mailboxID0 tokenID w u w' :
  RevokeAppPassword actor mailboxID0 tokenID w = (Ok u, w') ->
  permitted (is_authorizer (w_ext w)) actor "mailbox:app_password.revoke"
    {| r_type := "mailbox"; r_id := mailboxID0 |}
  /\ ((w_ext w' = w_ext w /\ w_db w' = w_db w
       /\ exists p, is_passwords (w_ext w) !! tokenID = Some p /\ pw_revoked_at p <> None)
      \/ (exists p', revoked_password (w_ext w) (w_ext w') (ToLower mailboxID0) tokenID p'
           /\ exists id r ev, tokens (w_db w) !! id = Some r /\ tk_public_id r = Some (pw_id p')
              /\ tk_kind r = "app_password"
              /\ w_db w' = with_audit (fun l => l ++ [ev])
                   (with_tokens (alter (put tk_revoked_at (pw_revoked_at p')) id) (w_db w))
              /\ ev_action ev = "app_password.revoke" /\ ev_result ev = "success")).
Proof.
  unfold RevokeAppPassword. cbv zeta. intros H.
  apply bind_ok in H as (_ & w1 & [-> Hp]%authorize_ok & H). split; [exact Hp|].
  apply bind_ok in H as (now & w2 & H2 & H).
  destruct (nowM_run w) as (t & w2' & E2 & D2 & X2 & _). rewrite E2 in H2. injection H2 as <- <-.
  rewrite readM_bind, X2 in H.
  destruct (is_passwords (w_ext w) !! tokenID) as [p|] eqn:Ep; [|by apply audited_err in H].
  destruct (pw_mailbox_id p <>?s _) eqn:Em; [by apply audited_err in H|]. to_prop.
  destruct (pw_revoked_at p) as [t0|] eqn:Er.
  { injection H as _ <-. left. split_and!; [done..|]. exists p. by rewrite Er. }
  apply bind_ok in H as (persisted & w5 & H5%tryM_run & H).
  destruct persisted as [[]|err]; [|by apply audited_err in H].
  apply persistAppPasswordRevoke_ok in H5 as (X5 & id & r & ev & Hr & Hid & Hk & Hd & Ha & Hres).
  injection H as _ <-. rewrite D2 in Hr, Hd. right. exists (put pw_revoked_at (Some t) p).
  split; [|by exists id, r, ev]. exists p. split_and!; [done|done|done|done|done|].
  cbn [w_ext set_ext]. by rewrite X5, X2.
Qed.

(** ** The rows of the passwords *)

(** Rows of tokens stay, with their kind and public identifier. *)
Definition keeps_rows (d d' : DB) : Prop := forall k r, tokens d !! k = Some r ->
  exists r', tokens d' !! k = Some r' /\ tk_kind r' = tk_kind r /\ tk_public_id r' = tk_public_id r.

#[local] Instance keeps_rows_preorder : PreOrder keeps_rows.
Proof.
  split; [intros d k r H; by exists r|]. intros d1 d2 d3 H1 H2 k r H.
  destruct (H1 k r H) as (r2 & E2 & K2 & P2). destruct (H2 k r2 E2) as (r3 & E3 & K3 & P3).
  exists r3. split_and!; [done|congruence..].
Qed.

Lemma keeps_rows_same d d' : db_access d' = db_access d -> keeps_rows d d'.
Proof. unfold keeps_rows, tokens. intros -> k r H. by exists r. Qed.

Lemma rows_WriteSQL e : effect (PS := Service) keeps_rows (WriteSQL e).
Proof. apply effect_WriteSQL; [apply _|]. intros d e'. by apply keeps_rows_same. Qed.
#[local] Hint Resolve rows_WriteSQL : effects.

Lemma rows_stored id r d u d' :
  (forall old, tokens d !! id = Some old -> tk_kind r = tk_kind old /\ tk_public_id r = tk_public_id old) ->
  store_token id r d = Ok (u, d') -> keeps_rows d d'.
Proof.
  intros Ho. unfold store_token. destruct (negb _); [done|]. destruct (public_id_taken _ _ _); [done|].
  intros [= _ <-] k r0 H. unfold tokens in *. cbn. destruct (decide (k = id)) as [->|Hk].
  - exists r. rewrite lookup_insert_eq. destruct (Ho r0 H). by split_and!.
  - exists r0. by rewrite lookup_insert_ne.
Qed.

Lemma rows_insert_token id r d u d' : insert_token id r d = Ok (u, d') -> keeps_rows d d'.
Proof.
  unfold insert_token. destruct (tokens d !! id) eqn:E; [done|]. apply rows_stored. congruence.
Qed.
Lemma rows_upsert_token id r d u d' : upsert_token id r d = Ok (u, d') -> keeps_rows d d'.
Proof.
  unfold upsert_token. destruct (negb _); [done|]. destruct (tokens d !! id) as [old|] eqn:E; apply rows_stored.
  - intros old' H. rewrite E in H. injection H as <-. by split.
  - congruence.
Qed.
Lemma rows_revoke id t d u d' : revoke_row id t d = Ok (u, d') -> keeps_rows d d'.
Proof.
  intros [= _ <-] k r H. unfold tokens in *. cbn. rewrite lookup_alter. case_decide; subst.
  - rewrite H. cbn. by eexists.
  - by exists r.
Qed.
Lemma rows_upsert_domain id name d u d' : upsert_domain id name d = Ok (u, d') -> keeps_rows d d'.
Proof.
  unfold upsert_domain. destruct (find_row _ _); [by intros [= _ <-]|].
  destruct (db_domains d !! id); [done|]. intros [= _ <-]. by apply keeps_rows_same.
Qed.
Lemma rows_upsert_mailbox id row d u d' : upsert_mailbox id row d = Ok (u, d') -> keeps_rows d d'.
Proof.
  unfold upsert_mailbox. destruct (db_domains d !! _); [|done].
  destruct (find_row _ _) as [[old r]|]; [intros [= _ <-]; by apply keeps_rows_same|].
  destruct (db_mailboxes d !! id); [done|]. intros [= _ <-]. by apply keeps_rows_same.
Qed.
#[local] Hint Resolve rows_insert_token rows_upsert_token rows_revoke rows_upsert_domain
  rows_upsert_mailbox : effects.

Lemma rows_read {A} (f : Service -> A) : effect keeps_rows (readM f).
Proof. apply effect_ext; apply _. Qed.
Lemma rows_audited {A} actor action resource result err :
  effect keeps_rows (audited (A := A) actor action resource result err).
Proof. unfold audited, audit. solve_effect. Qed.
#[local] Hint Resolve rows_read rows_audited : effects.
Lemma rows_authorize actor act mailbox action : effect keeps_rows (authorize actor act mailbox action).
Proof. unfold authorize. solve_effect. Qed.
Lemma rows_hash secret : effect (PS := Service) keeps_rows (HashSecret secret).
Proof. unfold HashSecret, randomToken. solve_effect. Qed.
#[local] Hint Resolve rows_authorize rows_hash : effects.
Lemma rows_CreateOrReplaceUser actor m password : effect keeps_rows (CreateOrReplaceUser actor m password).
Proof. unfold CreateOrReplaceUser, hashed, audit, persistMailbox, updateM. solve_effect. Qed.
#[local] Hint Resolve rows_CreateOrReplaceUser : effects.
Lemma rows_patches m ops : effect keeps_rows (applyPatches m ops).
Proof.
  revert m. induction ops; intros m; cbn [applyPatches]; [solve_effect|].
  apply effect_bind; [apply _|unfold applyPatch; solve_effect|]. intros m'. apply IHops.
Qed.
#[local] Hint Resolve rows_patches : effects.
Lemma rows_PatchUser actor id ops : effect keeps_rows (PatchUser actor id ops).
Proof. unfold PatchUser, user_missing. solve_effect. Qed.
Lemma rows_DisableUser actor id : effect keeps_rows (DisableUser actor id).
Proof. unfold DisableUser, user_missing. solve_effect. Qed.
Lemma rows_AddToken id kind secret scopes : effect keeps_rows (AddTokenWithScopes id kind secret scopes).
Proof. unfold AddTokenWithScopes, persistToken, updateM. solve_effect. Qed.
Lemma rows_CreateAppPassword actor mailboxID label : effect keeps_rows (CreateAppPassword actor mailboxID label).
Proof.
  unfold CreateAppPassword, create_refused, check_mailbox, create_refused, new_credential, randomSecret,
    randomToken, persistAppPasswordCreate, updateM. solve_effect.
Qed.
Lemma rows_RevokeAppPassword actor mailboxID id : effect keeps_rows (RevokeAppPassword actor mailboxID id).
Proof. unfold RevokeAppPassword, persistAppPasswordRevoke, updateM. solve_effect. Qed.

(** ** Histories *)

(** What the SCIM store projects: a mailbox of a canonical address, over an old
    address that is its own normal form, or over none. *)
Definition scim_ready (previous : string) (m : Mailbox) : Prop :=
  let key := ToLower (im_email m) in ToLower key = key /\ normal_address key
  /\ (ToLower previous = "" \/ normalizeAddress (ToLower previous) = ToLower previous).
(** The renaming that joins the passwords of two mailboxes. *)
Definition onto_another st (previous : string) (m : Mailbox) : Prop :=
  ToLower previous <> "" /\ ToLower previous <> ToLower (im_email m)
  /\ is_Some (is_mailboxes st !! ToLower (im_email m)).

(** One call on the service, with canonical addresses; with [free], SCIM
    renames no mailbox onto the address of another. *)
Inductive identity_step (free : bool) w : World Service -> Prop :=
| step_user actor m password : canonical_email (im_email m) ->
    identity_step free w (CreateOrReplaceUser actor m password w).2
| step_patch actor id ops : identity_step free w (PatchUser actor id ops w).2
| step_disable actor id : identity_step free w (DisableUser actor id w).2
| step_token id kind secret scopes : identity_step free w (AddTokenWithScopes id kind secret scopes w).2
| step_create actor mailboxID label : identity_step free w (CreateAppPassword actor mailboxID label w).2
| step_revoke actor mailboxID id : identity_step free w (RevokeAppPassword actor mailboxID id w).2
| step_scim previous m : scim_ready previous m -> (free = true -> ~ onto_another (w_ext w) previous m) ->
    identity_step free w (set_ext (ApplySCIMMailbox previous m (w_ext w)) w).

(** Every password has its row. *)
Definition stored st (d : DB) : Prop := forall id p, is_passwords st !! id = Some p ->
  exists k r, tokens d !! k = Some r /\ tk_kind r = "app_password" /\ tk_public_id r = Some id.

Definition kept_world (free : bool) w : Prop := in_step free (w_ext w) /\ stored (w_ext w) (w_db w).
Definition sound_world w : Prop := consistent (w_ext w) /\ stored (w_ext w) (w_db w).

Lemma stored_rows st d d' : stored st d -> keeps_rows d d' -> stored st d'.
Proof.
  intros H K id p Hp. destruct (H id p Hp) as (k & r & Hr & E1 & E2).
  destruct (K k r Hr) as (r' & Hr' & F1 & F2). exists k, r'. split_and!; [done|congruence..].
Qed.

(** *** Every call keeps the invariant *)

Lemma consistent_wrote free st st' : in_step free st -> wrote_mailbox canonical_email st st' -> in_step free st'.
Proof.
  intros C [->|(email & m & Hc & V & E & ->)]; [done|]. pose proof (admitted_normal _ _ V Hc) as N.
  destruct Hc as [_ L]. apply consistent_set_mailbox; [done|by rewrite E, L..].
Qed.

Lemma held_canonical free st email : in_step free st -> held_email st email -> canonical_email email.
Proof. intros C (key & m & Hm & <-). destruct (co_keys _ _ C _ _ Hm) as (E & L & N). split; rewrite E; [apply N|done]. Qed.

Lemma passwords_wrote given st st' : wrote_mailbox given st st' -> is_passwords st' = is_passwords st.
Proof. by intros [->|(email & m & _ & _ & _ & ->)]. Qed.

Lemma consistent_token free st id tok : in_step free st ->
  in_step free (put is_tokens (<[id := tok]> (is_tokens st)) st).
Proof. intros [K P L D]. split; [exact K|exact P|exact L|]. intros sv Hsv. by destruct (D sv Hsv). Qed.

Lemma consistent_add free st p : in_step free st -> is_passwords st !! pw_id p = None ->
  is_Some (is_mailboxes st !! pw_mailbox_id p) -> pw_revoked_at p = None ->
  length (actives st (pw_mailbox_id p)) < MaxActiveAppPasswords -> in_step free (add_password p st).
Proof.
  intros [K P L D] Hn Hm Hr Hl. pose proof Hm as [m Em]. destruct (K _ _ Em) as (_ & _ & N).
  assert (forall a, actives (put is_passwords (<[pw_id p := p]> (is_passwords st)) st) a
                    ≡ₚ one_active a p ++ actives st a) as A by (intros a; by apply actives_new).
  unfold add_password. apply consistent_sync; [exact K| | |apply N|].
  - intros id q. cbn. rewrite lookup_insert. case_decide as E; [|apply P].
    intros [= <-]. by subst.
  - intros Hf a. rewrite A, length_app. unfold one_active, active_for. rewrite Hr, andb_true_r.
    destruct (pw_mailbox_id p =?s a) eqn:E; cbn; [|by apply L]. to_prop. subst a. lia.
  - intros sv Hsv. destruct (D sv Hsv) as [C M V]. split_and!; [done|exact M|].
    intros a Ha. rewrite A, V. unfold one_active, active_for.
    assert ((pw_mailbox_id p =?s a) = false) as -> by (apply eqs_false; congruence). done.
Qed.

(** A password that changes for another of the same mailbox, inactive. *)
Lemma consistent_revoke free st a id p' : in_step free st -> revoked_password st (syncDaemonAppPasswords a
    (put is_passwords (<[id := p']> (is_passwords st)) st)) a id p' ->
  in_step free (syncDaemonAppPasswords a (put is_passwords (<[id := p']> (is_passwords st)) st)).
Proof.
  intros [K P L D] (p & Hp & Hm & Hr & Hr' & E & _). destruct (P id p Hp) as [Hid [m Em]].
  assert (pw_mailbox_id p' = a) as Ha' by (rewrite E; exact Hm).
  rewrite Hm in Em. destruct (K _ _ Em) as (_ & _ & N).
  destruct (actives_changed st id p' p Hp) as [rest A].
  apply consistent_sync; [exact K| | |apply N|].
  - intros i q. cbn. rewrite lookup_insert. case_decide as Ei; [|apply P].
    intros [= <-]. subst i. rewrite Ha', E. split; [exact Hid|by eexists].
  - intros Hf b. destruct (A b) as [A1 A2]. rewrite A2, length_app. pose proof (L Hf b) as Lb.
    rewrite A1, length_app in Lb. unfold one_active at 1, active_for.
    destruct (pw_revoked_at p'); [|done]. rewrite andb_false_r. cbn. lia.
  - intros sv Hsv. destruct (D sv Hsv) as [C M V]. split_and!; [done|exact M|].
    intros b Hb. destruct (A b) as [A1 A2]. rewrite A2, V, A1. unfold one_active, active_for.
    rewrite Ha', Hm. assert ((a =?s b) = false) as -> by (apply eqs_false; congruence). done.
Qed.

Lemma values_fmap {A B} (f : A -> B) (m : gmap string A) :
  map snd (map_to_list (f <$> m)) = map f (map snd (map_to_list m)).
Proof.
  rewrite map_to_list_fmap. induction (map_to_list m) as [|[i x] l IH]; [done|].
  cbn [fmap list_fmap map]. by rewrite <- IH.
Qed.

Lemma active_for_eq a p : active_for a p =
  (pw_mailbox_id p =?s a) && match pw_revoked_at p with None => true | Some _ => false end.
Proof. done. Qed.

(** The passwords of a renamed mailbox join those of its new address. *)
Lemma actives_rename st st1 previous key a :
  is_passwords st1 = rename_passwords previous key (is_passwords st) -> previous <> key ->
  map pw_verifier (actives st1 a)
  ≡ₚ if decide (a = previous) then [] else
     if decide (a = key) then map pw_verifier (actives st previous) ++ map pw_verifier (actives st key)
     else map pw_verifier (actives st a).
Proof.
  intros E Hne. unfold actives. rewrite E. unfold rename_passwords. rewrite values_fmap.
  generalize (map snd (map_to_list (is_passwords st))). clear E.
  induction l as [|p l IH]; [by repeat case_decide|].
  cbn [map List.filter]. rewrite !active_for_eq.
  destruct (pw_mailbox_id p =?s previous) eqn:E1.
  - apply eqs_true in E1. cbn [pw_mailbox_id put password_eta pw_revoked_at]. rewrite E1. cbn [andb].
    assert ((previous =?s key) = false) as -> by by apply eqs_false. cbn [andb].
    destruct (decide (a = previous)) as [->|Ha].
    { assert ((key =?s previous) = false) as -> by (apply eqs_false; congruence). exact IH. }
    destruct (decide (a = key)) as [->|Hak].
    { rewrite eqs_refl. destruct (pw_revoked_at p); [exact IH|]. cbn [andb map app]. by constructor. }
    assert ((key =?s a) = false) as -> by (apply eqs_false; congruence).
    assert ((previous =?s a) = false) as -> by (apply eqs_false; congruence). exact IH.
  - destruct (decide (a = previous)) as [->|Ha]; [rewrite E1; exact IH|].
    destruct (decide (a = key)) as [->|Hak].
    { cbn [andb]. destruct (_ && _); [|exact IH]. cbn [map]. rewrite <- Permutation_middle. by constructor. }
    destruct (_ && _); cbn [map]; [by constructor|exact IH].
Qed.

Lemma consistent_resync free st a : in_step free st -> normalizeAddress a = a ->
  in_step free (syncDaemonAppPasswords a st).
Proof.
  intros [K P L D] Ha. apply consistent_sync; [exact K|exact P|exact L|exact Ha|].
  intros sv Hsv. destruct (D sv Hsv) as [C M V]. split_and!; [exact C|exact M|]. intros b _. apply V.
Qed.

(** The old address of a renamed mailbox, forgotten. *)
Definition forget (previous key : string) st : Service :=
  put is_passwords (rename_passwords previous key (is_passwords st))
    (put is_daemon (DeleteIdentityMailbox previous <$> is_daemon st)
      (put is_mailboxes (delete previous (is_mailboxes st)) st)).

Lemma forget_verifiers st previous m a : let key := ToLower (im_email m) in previous <> key ->
  map pw_verifier (actives (set_mailbox m (forget previous key st)) a)
  ≡ₚ if decide (a = previous) then [] else
     if decide (a = key) then map pw_verifier (actives st previous) ++ map pw_verifier (actives st key)
     else map pw_verifier (actives st a).
Proof. intros key H. by apply actives_rename. Qed.

Lemma forget_keys free st previous m : in_step free st ->
  let key := ToLower (im_email m) in ToLower key = key -> normal_address key ->
  let st2 := set_mailbox m (forget previous key st) in
  (forall k m', is_mailboxes st2 !! k = Some m' -> ToLower (im_email m') = k /\ ToLower k = k /\ normal_address k)
  /\ (forall id p, is_passwords st2 !! id = Some p -> pw_id p = id /\ is_Some (is_mailboxes st2 !! pw_mailbox_id p)).
Proof.
  intros [K P _ _] key Hl Hn st2.
  assert (is_mailboxes st2 = <[key := m]> (delete previous (is_mailboxes st))) as HM by done. rewrite HM. split.
  - intros k m'. destruct (decide (k = key)) as [->|Hkk]; [rewrite lookup_insert_eq; by intros [= <-]|].
    rewrite lookup_insert_ne by done. intros [_ H]%lookup_delete_Some. by apply K.
  - intros id p'. change (is_passwords st2) with (rename_passwords previous key (is_passwords st)).
    unfold rename_passwords. rewrite lookup_fmap, fmap_Some. intros (p & Hp & ->).
    destruct (P id p Hp) as [Hid Hs]. destruct (pw_mailbox_id p =?s previous) eqn:E; to_prop.
    + split; [exact Hid|]. cbn. rewrite lookup_insert_eq. by eexists.
    + split; [exact Hid|]. destruct (decide (pw_mailbox_id p = key)) as [->|Hk].
      * rewrite lookup_insert_eq. by eexists.
      * rewrite lookup_insert_ne by done. by rewrite lookup_delete_ne.
Qed.

Lemma consistent_rename free st previous m : in_step free st ->
  let key := ToLower (im_email m) in ToLower key = key -> normal_address key ->
  previous <> key -> normalizeAddress previous = previous ->
  (free = true -> is_mailboxes st !! key = None) ->
  in_step free (syncDaemonAppPasswords key (set_mailbox m (forget previous key st))).
Proof.
  intros C key Hl Hn Hne Hpn Hk. destruct (daemon_mailbox_address m key) as [A1 A2]; [done|apply Hn|].
  destruct (forget_keys free st previous m C Hl Hn) as [K2 P2]. fold key in K2, P2.
  pose proof (fun a => forget_verifiers st previous m a Hne) as HA. cbv beta zeta in HA. fold key in HA.
  destruct C as [K P L D]. set (st2 := set_mailbox m (forget previous key st)) in *.
  apply consistent_sync; [exact K2|exact P2| |apply Hn|].
  - intros Hf a. rewrite <- (length_map pw_verifier), HA.
    destruct (decide (a = previous)); [cbn; lia|]. destruct (decide (a = key)); rewrite ?length_app, !length_map;
      [|by apply L]. assert (actives st key = []) as ->.
    { destruct (actives st key) as [|p l] eqn:E; [done|exfalso].
      assert (p ∈ actives st key) as [[id Hp] Ha]%elem_actives by (rewrite E; by left).
      rewrite active_for_eq in Ha. apply andb_true_iff in Ha as [Ha _]. to_prop.
      destruct (P id p Hp) as [_ [x Hx]]. by rewrite Ha, Hk in Hx. }
    cbn. rewrite Nat.add_0_r. by apply L.
  - intros sv.
    change (is_daemon st2) with ((fun d => UpsertIdentityMailbox (daemon_mailbox m) (put sv_audit true d))
      <$> (DeleteIdentityMailbox previous <$> is_daemon st)).
    destruct (is_daemon st) as [sv0|] eqn:E; [|done]. intros [= <-].
    destruct (D sv0 eq_refl) as [C M V]. pose proof (canonical_delete sv0 previous C) as C1. split_and!.
    + apply canonical_upsert; [by destruct C1|by rewrite A1].
    + intros k m'. change (is_mailboxes st2) with (<[key := m]> (delete previous (is_mailboxes st))).
      rewrite upsert_mailboxes, A1, A2. cbn. rewrite Hpn. destruct (decide (k = key)) as [->|Hkk].
      * rewrite !lookup_insert_eq. by intros [= ->].
      * rewrite !lookup_insert_ne by done. intros [Hkp H]%lookup_delete_Some.
        rewrite lookup_delete_ne by done. by apply M.
    + intros a Ha. rewrite upsert_verifiers. cbn. rewrite Hpn, HA. clear HA.
      destruct (decide (a = previous)) as [->|Hap].
      * by rewrite lookup_delete_eq.
      * rewrite (decide_False (P := a = key)) by done. rewrite lookup_delete_ne by done. apply V.
Qed.

Lemma consistent_scim free st previous m : in_step free st -> scim_ready previous m ->
  (free = true -> ~ onto_another st previous m) -> in_step free (ApplySCIMMailbox previous m st).
Proof.
  intros C (L & N & H) Hf. unfold ApplySCIMMailbox. cbv zeta. set (p := ToLower previous) in *.
  set (m' := match is_mailboxes st !! p with Some _ => _ | None => _ end).
  assert (ToLower (im_email m') = ToLower (im_email m)) as Ek.
  { unfold m'. destruct (is_mailboxes st !! p); [|done]. by destruct (_ =?s _). }
  destruct ((p <>?s "") && _) eqn:B.
  - apply andb_true_iff in B as [B1 B2]. to_prop. destruct H as [H|Hp]; [done|].
    change (put is_passwords _ _) with (forget p (ToLower (im_email m)) st).
    rewrite <- Ek. apply consistent_rename; try (by rewrite Ek); [done..|]. rewrite Ek. intros Ef.
    destruct (is_mailboxes st !! ToLower (im_email m)) eqn:E; [|done]. destruct (Hf Ef).
    split_and!; [done..|by eexists].
  - apply consistent_resync; [|apply N]. apply consistent_set_mailbox; [done|by rewrite Ek..].
Qed.
End IdentityFacts.
