(* ===== verification/IdentitySafety.v ===== *)
(** * What the identity service promises

    The invariant of IdentityFacts holds along every history of calls, so the
    bound daemon gives Dovecot the verdict of the service itself; a created
    password logs in, a revoked one never does again, and a bearer token is
    recognised exactly when it is stored, live and of the wanted kind. *)

From stdpp Require Import base list gmap sets strings sorting relations.
From Stdlib Require Import ZArith Lia Ascii.
From S2P Require Import Prelude GoStd Json JsonText JsonStruct Sha256 Sha1 Policy Queue AuditLog Database Relay Daemon Helper Verifier Lookup Tokens Authz Regex Approval Executor Telegram Identity IdentityFacts.
Import authz identity.
#[local] Existing Instances M_ret M_bind.

Section IdentitySafety.
Context `{HOST : !Host} `{MAIL : !MailParser}.
Context `{ORDER : !MapOrder} `{LAWS : !MapOrderLaws} `{KDF : !Pbkdf2}.
Implicit Types (st : Service) (w : World Service) (sv : Daemon.Service).

(** ** The invariant along a history *)

Lemma created_sound free actor a label secret p st st' d d' :
  in_step free st -> stored st d -> created_password actor a label secret p st st' d ->
  keeps_rows d d' ->
  (exists k r, tokens d' !! k = Some r /\ tk_kind r = "app_password" /\ tk_public_id r = Some (pw_id p)) ->
  in_step free st' /\ stored st' d'.
Proof.
  intros C S [_ [_ Hm] _ Hr Hb _ _ Hf ->] K Hrow. split.
  - apply consistent_add; [done| |done..]. destruct (is_passwords st !! pw_id p) as [q|] eqn:E; [|done].
    destruct (S _ _ E) as (k & r & H1 & H2 & H3). by destruct (Hf k r H1 H2).
  - intros id q. unfold add_password. cbn. rewrite lookup_insert. case_decide as E.
    + intros _. by subst.
    + intros H. by eapply stored_rows.
Qed.

Lemma revoked_sound free st st' a id p' d : in_step free st -> stored st d ->
  revoked_password st st' a id p' -> in_step free st' /\ stored st' d.
Proof.
  intros C S R. pose proof R as (p & Hp & _ & _ & _ & _ & ->). split; [by eapply consistent_revoke|].
  intros i q. cbn. rewrite lookup_insert. case_decide as E; [|by apply S].
  intros _. subst i. by eapply S.
Qed.

Lemma scim_passwords st previous m : is_passwords (ApplySCIMMailbox previous m st) = is_passwords st
  \/ is_passwords (ApplySCIMMailbox previous m st)
     = rename_passwords (ToLower previous) (ToLower (im_email m)) (is_passwords st).
Proof. unfold ApplySCIMMailbox. cbv zeta. destruct (_ && _); [by right|by left]. Qed.

Lemma scim_stored st previous m d : stored st d -> stored (ApplySCIMMailbox previous m st) d.
Proof.
  intros S id p. destruct (scim_passwords st previous m) as [->| ->]; [apply S|].
  unfold rename_passwords. rewrite lookup_fmap, fmap_Some. intros (q & Hq & _). by eapply S.
Qed.

Lemma user_sound free (given : string -> Prop) st st' d d' : in_step free st -> stored st d ->
  (forall email, given email -> canonical_email email) -> wrote_mailbox given st st' -> keeps_rows d d' ->
  in_step free st' /\ stored st' d'.
Proof.
  intros C S G W K. split; [by eapply consistent_wrote, wrote_mono|]. intros id p.
  rewrite (passwords_wrote _ _ _ W). by apply (stored_rows st d d').
Qed.

Lemma effect_rows {A} (m : M Service A) w : effect keeps_rows m -> keeps_rows (w_db w) (w_db (m w).2).
Proof. intros H. apply H. Qed.

Lemma kept_step free w w' : kept_world free w -> identity_step free w w' -> kept_world free w'.
Proof.
  intros [C S] [actor m password N|actor id ops|actor id|id kind secret scopes|actor a label|actor a id|
                previous m R Hf]; unfold kept_world.
  - eapply user_sound; [done..| |apply CreateOrReplaceUser_ext|apply effect_rows, rows_CreateOrReplaceUser].
    by intros email <-.
  - eapply user_sound; [done..| |apply PatchUser_ext|apply effect_rows, rows_PatchUser].
    intros email Hh. by eapply held_canonical.
  - eapply user_sound; [done..| |apply DisableUser_ext|apply effect_rows, rows_DisableUser].
    intros email Hh. by eapply held_canonical.
  - pose proof (stored_rows _ _ _ S (effect_rows _ w (rows_AddToken id kind secret scopes))) as S'.
    destruct (AddToken_ext id kind secret scopes w) as [E|[tok E]]; rewrite E; split; [done|exact S'| |exact S'].
    by apply consistent_token.
  - pose proof (effect_rows _ w (rows_CreateAppPassword actor a label)) as K.
    destruct (CreateAppPassword actor a label w) as [[out|e] w1] eqn:E; cbn [snd] in *.
    + apply CreateAppPassword_ok in E as (p & Hcr & _ & _ & ev & Hd & _).
      eapply created_sound; [done..|]. rewrite Hd. eexists _, (password_row p).
      split; [apply lookup_insert_eq|done].
    + apply CreateAppPassword_err in E. rewrite E. split; [done|by eapply stored_rows].
  - pose proof (effect_rows _ w (rows_RevokeAppPassword actor a id)) as K.
    destruct (RevokeAppPassword actor a id w) as [[out|e] w1] eqn:E; cbn [snd] in *.
    + apply RevokeAppPassword_ok in E as [_ [(-> & -> & _)|(p' & R & _)]]; [done|].
      eapply revoked_sound; [done| |done]. by eapply stored_rows.
    + apply RevokeAppPassword_err in E. rewrite E. split; [done|by eapply stored_rows].
  - cbn. split; [by apply consistent_scim|by apply scim_stored].
Qed.

Lemma kept_history free w w' : kept_world free w -> rtc (identity_step free) w w' -> kept_world free w'.
Proof. intros H Hs. induction Hs as [|w1 w2 w3 Hs _ IH]; [done|]. by apply IH, (kept_step free w1). Qed.

(** C33: along any history of calls on the service, user writes, patches,
    tokens, application passwords created and revoked and SCIM projections,
    whatever the database refuses, in which every address written is canonical
    (its lower case is its own normal form): the mailboxes stay keyed by their
    lower-case address, each password is one of a known mailbox with its row of
    kind app_password, and the bound daemon holds each mailbox and exactly its
    active verifiers; and as long as SCIM renames no mailbox onto the address
    of another, no mailbox gets a ninth active application password. *)
Theorem identity_invariant free w w' :
  kept_world free w -> rtc (identity_step free) w w' ->
  in_step free (w_ext w') /\ stored (w_ext w') (w_db w')
  /\ (free = true -> forall a, activeAppPasswordCount (w_ext w') a <= MaxActiveAppPasswords)
  /\ forall sv a m, is_daemon (w_ext w') = Some sv -> is_mailboxes (w_ext w') !! a = Some m ->
       exists verifiers, mailboxAuth sv a = Some (daemon_mailbox m, verifiers)
         /\ verifiers ≡ₚ map pw_verifier (active_passwords 0 (w_ext w') a).
Proof.
  intros H Hs. destruct (kept_history free w w' H Hs) as [C S]. split_and!; [done..| |].
  - intros Hf a. rewrite count_actives. by apply C.
  - intros sv a m Hsv Hm. destruct (co_keys _ _ C _ _ Hm) as (_ & _ & N).
    destruct (co_daemon _ _ C _ Hsv) as [Cs M V]. rewrite mailboxAuth_canonical, (M _ _ Hm) by (done || apply N).
    eexists. split; [reflexivity|]. by rewrite V, active_passwords_perm.
Qed.

(** ** Binding a daemon *)

(** A service whose maps are in order, whatever its daemon. *)
Definition in_order st : Prop := consistent (put is_daemon None st).

Lemma in_order_parts st : in_order st ->
  (forall key m, is_mailboxes st !! key = Some m ->
    ToLower (im_email m) = key /\ ToLower key = key /\ normal_address key)
  /\ (forall id p, is_passwords st !! id = Some p -> pw_id p = id /\ is_Some (is_mailboxes st !! pw_mailbox_id p))
  /\ (forall key, length (actives st key) <= MaxActiveAppPasswords).
Proof. intros [K P L _]. split_and!; [exact K|exact P|by apply L]. Qed.

Lemma sound_in_order w : sound_world w -> in_order (w_ext w).
Proof. intros [[K P L _] _]. by split. Qed.

(** The daemon after the mailboxes of a list were projected. *)
Lemma bind_mailboxes st l : forall sv,
  (forall key m, (key, m) ∈ l -> ToLower (im_email m) = key /\ normal_address key) -> canonical_service sv ->
  exists sv', foldl (fun st p => syncDaemonMailbox p.2 st) (put is_daemon (Some sv) st) l
              = put is_daemon (Some sv') st
    /\ canonical_service sv' /\ sv_verifiers sv' = sv_verifiers sv
    /\ (forall key, sv_mailboxes sv' !! key =
          match List.find (fun p => p.1 =?s key) (reverse l) with
          | Some p => Some (daemon_mailbox p.2) | None => sv_mailboxes sv !! key end).
Proof.
  induction l as [|[k m] l IH] using rev_ind; intros sv Hl C.
  - by exists sv.
  - destruct (IH sv) as (sv1 & E & C1 & V1 & M1); [|done|].
    { intros key m' H. apply Hl. apply elem_of_app. by left. }
    destruct (Hl k m) as [Hk N]; [apply elem_of_app; right; by left|].
    destruct (daemon_mailbox_address m k Hk) as [A1 A2]; [apply N|].
    exists (UpsertIdentityMailbox (daemon_mailbox m) (put sv_audit true sv1)). split_and!.
    + by rewrite foldl_snoc, E.
    + apply canonical_upsert; [by destruct C1|by rewrite A1].
    + by rewrite upsert_verifiers, <- V1.
    + intros key. rewrite upsert_mailboxes, A1, A2, reverse_snoc. cbn [List.find fst snd].
      destruct (k =?s key) eqn:Ek; to_prop; [subst; by rewrite lookup_insert_eq|].
      rewrite lookup_insert_ne by done. apply M1.
Qed.

(** ... and after their verifiers were set. *)
Lemma bind_passwords st l : forall sv,
  (forall key m, (key, m) ∈ l -> normalizeAddress key = key) -> canonical_service sv ->
  exists sv', foldl (fun st p => syncDaemonAppPasswords p.1 st) (put is_daemon (Some sv) st)
                (l : list (string * Mailbox)) = put is_daemon (Some sv') st
    /\ canonical_service sv' /\ sv_mailboxes sv' = sv_mailboxes sv
    /\ (forall key, default [] (default None (sv_verifiers sv' !! key)) =
          if bool_decide (key ∈ map fst l) then map pw_verifier (active_passwords 1 st key)
          else default [] (default None (sv_verifiers sv !! key))).
Proof.
  induction l as [|[k m] l IH] using rev_ind; intros sv Hl C.
  - exists sv. split_and!; [done..|]. intros key. by rewrite bool_decide_false by apply not_elem_of_nil.
  - destruct (IH sv) as (sv1 & E & C1 & M1 & V1); [|done|].
    { intros key m' H. eapply Hl. apply elem_of_app. by left. }
    assert (normalizeAddress k = k) as Hk by (apply (Hl k m), elem_of_app; right; by left).
    exists (SetAppPasswordVerifiers k (map pw_verifier (active_passwords 1 st k)) (put sv_audit true sv1)).
    split_and!.
    + by rewrite foldl_snoc, E.
    + apply canonical_verifiers; [by destruct C1|by rewrite Hk].
    + by rewrite <- M1.
    + intros key. cbn. rewrite Hk, map_app. destruct (decide (key = k)) as [->|Hne].
      * rewrite lookup_insert_eq, bool_decide_true by (apply elem_of_app; right; by left).
        by destruct (active_passwords 1 st k).
      * rewrite lookup_insert_ne by done.
        etransitivity; [apply V1|]. erewrite bool_decide_ext; [done|].
        change (map fst [(k, m)]) with [k]. rewrite elem_of_app, list_elem_of_singleton. naive_solver.
Qed.

(** [BindDaemon] makes a daemon the projection of the service: bound to
    any canonical directory without verifiers of its own, it then holds each
    mailbox and exactly its active verifiers, whatever the orders of the two
    ranges, so that the invariant starts there. *)
Theorem BindDaemon_projects st sv :
  in_order st -> canonical_service sv -> sv_verifiers sv = ∅ -> consistent (BindDaemon sv st).
Proof.
  intros Ho C Hv. destruct (in_order_parts st Ho) as (K & P & L). unfold BindDaemon. cbv zeta.
  assert (forall k key m, (key, m) ∈ range k (is_mailboxes st) -> is_mailboxes st !! key = Some m) as Hr
    by (intros k key m H; by rewrite range_perm, elem_of_map_to_list in H).
  change (is_mailboxes (put is_daemon (Some sv) st)) with (is_mailboxes st).
  destruct (bind_mailboxes st (range 2 (is_mailboxes st)) sv) as (sv1 & -> & C1 & V1 & M1); [|done|].
  { intros key m H%Hr. destruct (K _ _ H) as (? & _ & ?). by split. }
  destruct (bind_passwords st (range 3 (is_mailboxes st)) sv1) as (sv2 & E & C2 & M2 & V2); [|done|].
  { intros key m H%Hr. apply (K _ _ H). }
  change (is_mailboxes (put is_daemon (Some sv1) st)) with (is_mailboxes st). rewrite E.
  split; [exact K|exact P|by intros _|]. intros sv' [= <-]. split; [done| |].
  - intros key m H. change (is_mailboxes st !! key = Some m) in H. rewrite M2, M1. destruct (List.find _ _) as [[k m']|] eqn:F.
    + apply find_some in F as [F1 F2]. cbn in F2. to_prop. subst k.
      apply list_elem_of_In, elem_of_reverse, Hr in F1. cbn. congruence.
    + exfalso. pose proof (find_none _ _ F (key, m)) as N. cbn in N. rewrite eqs_refl in N.
      enough (true = false) by done. apply N. apply list_elem_of_In, elem_of_reverse.
      by rewrite range_perm, elem_of_map_to_list.
  - intros key. change (actives (put is_daemon (Some sv2) st) key) with (actives st key).
    rewrite V2. case_bool_decide as Hin; [by rewrite active_passwords_perm|].
    rewrite V1, Hv, lookup_empty. cbn.
    destruct (actives st key) as [|p l] eqn:A; [done|exfalso]. apply Hin.
    assert (p ∈ actives st key) as [[id Hp] Ha]%elem_actives by (rewrite A; by left).
    destruct (P _ _ Hp) as [_ [m Hm]]. apply list_elem_of_fmap. exists (key, m). split; [done|].
    rewrite range_perm, elem_of_map_to_list. unfold active_for in Ha.
    apply andb_true_iff in Ha as [Ha _]. to_prop. by subst.
Qed.

(** ** The verdict on a secret *)

(** A secret of an active mailbox: its own, or that of a live password. *)
Definition accepted st (a secret : string) : Prop := exists m, is_mailboxes st !! a = Some m
  /\ im_active m = true
  /\ (VerifyDjangoPBKDF2SHA256 (im_verifier m) secret = Ok tt
      \/ exists p, p ∈ actives st a /\ VerifyDjangoPBKDF2SHA256 (pw_verifier p) secret = Ok tt).

Lemma verify_is_ok v secret :
  is_ok (VerifyDjangoPBKDF2SHA256 v secret) = true <-> VerifyDjangoPBKDF2SHA256 v secret = Ok tt.
Proof. split; [apply verify_ok|by intros ->]. Qed.

Lemma exists_verifier l secret :
  existsb (fun p => is_ok (VerifyDjangoPBKDF2SHA256 (pw_verifier p) secret)) l = true
  <-> exists p, p ∈ l /\ VerifyDjangoPBKDF2SHA256 (pw_verifier p) secret = Ok tt.
Proof.
  rewrite existsb_exists. setoid_rewrite verify_is_ok. by setoid_rewrite list_elem_of_In.
Qed.

Lemma VerifyDovecot_accepted st a secret : consistent st -> ToLower a = a ->
  VerifyDovecot st a secret = true <-> accepted st a secret.
Proof.
  intros C Ha. unfold VerifyDovecot, accepted. rewrite Ha.
  destruct (is_mailboxes st !! a) as [m|] eqn:Em; [|naive_solver]. rewrite count_actives.
  pose proof (co_limit _ _ C eq_refl a) as L. destruct (_ <? length _) eqn:El; [to_prop; lia|].
  cbn [negb andb]. rewrite andb_true_iff, orb_true_iff, exists_verifier, verify_is_ok.
  setoid_rewrite active_passwords_perm. naive_solver.
Qed.

(** What a reason of the daemon says of its verdict. *)
Definition right_secret (reason : string) : Prop :=
  reason = "passdb_authenticated" \/ reason = "audit_unavailable".

Lemma audited_success_reason {PS} sv cid req method (w : World PS) :
  right_secret (rp_reason (audited_success sv cid req method w).1).
Proof.
  unfold audited_success. destruct (auditPassdb _ _ _ _ _ _ _) as [[] w1]; [left|right]; apply resp_db.
Qed.

Lemma existsb_verifiers verifiers st a secret : verifiers ≡ₚ map pw_verifier (actives st a) ->
  existsb (fun v => is_ok (VerifyDjangoPBKDF2SHA256 v secret)) verifiers = true
  <-> exists p, p ∈ actives st a /\ VerifyDjangoPBKDF2SHA256 (pw_verifier p) secret = Ok tt.
Proof.
  intros V. rewrite existsb_exists. setoid_rewrite <- list_elem_of_In. setoid_rewrite V.
  setoid_rewrite list_elem_of_fmap. setoid_rewrite verify_is_ok. split.
  - intros (v & (p & -> & Hp) & Hv). by exists p.
  - intros (p & Hp & Hv). exists (pw_verifier p). split; [by exists p|done].
Qed.

(** A verdict stands for a proposition. *)
Definition verdict (r : Response) (P : Prop) : Prop :=
  (right_secret (rp_reason r) <-> P) /\ (rp_decision r = DecisionOK -> right_secret (rp_reason r)).

Lemma verdict_no {PS} cid d reason (w : World PS) (P : Prop) : d <> DecisionOK -> ~ right_secret reason -> ~ P ->
  verdict (resp cid d reason w).1 P.
Proof.
  intros Hd Hr HP. destruct (resp_db cid d reason w) as (E1 & E2 & _).
  unfold verdict. rewrite E1, E2. split; [by split|by intros H].
Qed.

Lemma verdict_yes {PS} sv cid req method (w : World PS) (P : Prop) : P -> verdict (audited_success sv cid req method w).1 P.
Proof. intros HP. pose proof (audited_success_reason sv cid req method w). by repeat split. Qed.

(** What the daemon finds right: a secret of an active mailbox, that of an
    application password only if there are not too many. *)
Definition accepted_within st (a secret : string) : Prop := exists m, is_mailboxes st !! a = Some m
  /\ im_active m = true
  /\ (VerifyDjangoPBKDF2SHA256 (im_verifier m) secret = Ok tt
      \/ length (actives st a) <= MaxActiveAppPasswords
         /\ exists p, p ∈ actives st a /\ VerifyDjangoPBKDF2SHA256 (pw_verifier p) secret = Ok tt).

Lemma passdb_verdict {PS} free st sv (cid : string) req (w : World PS) :
  in_step free st -> is_daemon st = Some sv ->
  let a := normalizeAddress (pd_username req) in
  is_Some (is_mailboxes st !! a) ->
  verdict (DovecotPassdb sv cid req w).1 (sv_unavailable sv = false
    /\ pd_protocol req ∈ ["imap"; "submission"] /\ oidc_secret (pd_secret req) = false
    /\ accepted_within st a (pd_secret req)).
Proof.
  intros C Hsv a [m Hm]. destruct (co_keys _ _ C _ _ Hm) as (_ & Hl & N).
  destruct (co_daemon _ _ C _ Hsv) as [Cs M V].
  unfold DovecotPassdb, unavailable_or, audited_failure.
  destruct (sv_unavailable sv); [apply verdict_no; [done|by intros [?|?]|by intros [? _]]|].
  destruct ((pd_protocol req <>?s "imap") && _) eqn:Ep.
  { apply verdict_no; [done|by intros [?|?]|]. intros (_ & Hp & _).
    apply andb_true_iff in Ep as [? ?]. to_prop.
    rewrite !elem_of_cons in Hp. destruct Hp as [?|[?|?%not_elem_of_nil]]; done. }
  assert (pd_protocol req ∈ ["imap"; "submission"]) as Hp.
  { rewrite !elem_of_cons. to_prop. destruct Ep; auto. }
  fold a. rewrite (mailboxAuth_canonical sv a), (M _ _ Hm) by (done || apply N).
  cbn [fmap option_fmap option_map ml_enabled ml_verifier daemon_mailbox].
  set (verifiers := default [] (default None (sv_verifiers sv !! a))) in *.
  assert (length verifiers = length (actives st a)) as Hlen by by unfold verifiers; rewrite V, length_map.
  destruct (im_active m) eqn:Ea; cbn [negb].
  2: { apply verdict_no; [done|by intros [?|?]|]. intros (_ & _ & _ & m' & Hm' & Ha' & _). congruence. }
  destruct (oidc_secret _); [apply verdict_no; [done|by intros [?|?]|by intros (_ & _ & ? & _)]|].
  destruct (is_ok (VerifyDjangoPBKDF2SHA256 (im_verifier m) _)) eqn:Ev.
  { apply verdict_yes. split_and!; [done..|]. exists m. apply verify_ok in Ev. split_and!; [done..|by left]. }
  destruct (MaxAppPasswordVerifiers <? length verifiers) eqn:El.
  { apply Nat.ltb_lt in El. apply verdict_no; [done|by intros [?|?]|].
    intros (_ & _ & _ & m' & Hm' & _ & [H|[H _]]).
    - rewrite Hm in Hm'. injection Hm' as <-. by rewrite H in Ev.
    - rewrite Hlen in El. by apply (Nat.lt_irrefl _ (Nat.lt_le_trans _ _ _ El H)). }
  apply Nat.ltb_ge in El. rewrite Hlen in El.
  pose proof (existsb_verifiers verifiers st a (pd_secret req) (V a)) as Hx.
  destruct (existsb _ verifiers).
  - apply verdict_yes. split_and!; [done..|]. exists m. split_and!; [done..|]. right. split; [exact El|by apply Hx].
  - apply verdict_no; [done|by intros [?|?]|]. intros (_ & _ & _ & m' & Hm' & _ & [H|[_ H]]).
    + rewrite Hm in Hm'. injection Hm' as <-. by rewrite H in Ev.
    + by apply Hx in H.
Qed.

Lemma accepted_limit st a secret : consistent st -> accepted_within st a secret <-> accepted st a secret.
Proof.
  intros C. pose proof (co_limit _ _ C eq_refl a). unfold accepted_within, accepted.
  split; intros (m & Hm & Ha & H'); exists m; naive_solver.
Qed.

Lemma passdb_agrees {PS} st sv (cid : string) req (w : World PS) :
  consistent st -> is_daemon st = Some sv ->
  let a := normalizeAddress (pd_username req) in
  is_Some (is_mailboxes st !! a) ->
  let r := (DovecotPassdb sv cid req w).1 in
  (right_secret (rp_reason r) <->
     sv_unavailable sv = false /\ pd_protocol req ∈ ["imap"; "submission"]
     /\ oidc_secret (pd_secret req) = false /\ VerifyDovecot st a (pd_secret req) = true)
  /\ (rp_decision r = DecisionOK -> right_secret (rp_reason r)).
Proof.
  intros C Hsv a Hm r. pose proof (passdb_verdict true st sv cid req w C Hsv Hm) as H.
  destruct Hm as [m Hm]. destruct (co_keys _ _ C _ _ Hm) as (_ & Hl & _).
  rewrite VerifyDovecot_accepted, <- accepted_limit by done. exact H.
Qed.

(** C32: Dovecot gets the verdict of the identity service, as it is after any
    history of calls with canonical addresses and without two mailboxes renamed
    into one. For a mailbox the service knows, the bound daemon finds a secret
    right (and answers OK, or defers when that success cannot be audited)
    exactly if [VerifyDovecot] accepts it, the daemon can be reached, it is
    asked for imap or submission, and the secret has not the shape of an OIDC
    token; in those three cases it refuses what the service might accept, and
    it never gives an OK for a secret the service refuses. *)
Theorem Dovecot_agrees {PS} w w' sv (cid : string) req (v : World PS) :
  sound_world w -> rtc (identity_step true) w w' -> is_daemon (w_ext w') = Some sv ->
  let a := normalizeAddress (pd_username req) in
  is_Some (is_mailboxes (w_ext w') !! a) ->
  let r := (DovecotPassdb sv cid req v).1 in
  (right_secret (rp_reason r) <->
     sv_unavailable sv = false /\ pd_protocol req ∈ ["imap"; "submission"]
     /\ oidc_secret (pd_secret req) = false /\ VerifyDovecot (w_ext w') a (pd_secret req) = true)
  /\ (rp_decision r = DecisionOK -> VerifyDovecot (w_ext w') a (pd_secret req) = true).
Proof.
  intros H Hs Hsv a Hm r. destruct (kept_history true w w' H Hs) as [C _].
  destruct (passdb_agrees (w_ext w') sv cid req v C Hsv Hm) as [V Hok].
  split; [exact V|]. by intros (_ & _ & _ & ?)%Hok%V.
Qed.

(** ** A created password *)

Lemma strip_bytes (P : ascii -> bool) p s : HasPrefix s p = true -> forall_bytes P s = true ->
  forall_bytes P p = true.
Proof.
  intros [r Hr]%HasPrefix_strip. revert s Hr. induction p as [|c p IH]; intros [|c' s]; cbn; try done.
  destruct (Ascii.eqb c c') eqn:E; [|done]. apply Ascii.eqb_eq in E as ->.
  intros Hr [Hc Hs]%andb_true_iff. by rewrite Hc, (IH s).
Qed.

Lemma count_dots s : forall_bytes token_byte s = true -> count_byte "." s = 0.
Proof.
  induction s as [|c s IH]; [done|]. cbn [forall_bytes count_byte]. intros [Hc Hs]%andb_true_iff.
  rewrite IH by done. destruct (Ascii.eqb c ".") eqn:E; [|done].
  apply Ascii.eqb_eq in E. by subst c.
Qed.

(** A random token is no OIDC token. *)
Lemma token_secret s : forall_bytes token_byte s = true -> oidc_secret s = false.
Proof.
  intros H. unfold oidc_secret. rewrite count_dots by done. rewrite orb_false_r.
  destruct (HasPrefix s "oidc:") eqn:E; [|done].
  by apply (strip_bytes token_byte) in E; [vm_compute in E|].
Qed.

Lemma fill_bytes n bytes : Forall (fun b => b < 256)%N (fill n bytes).
Proof.
  unfold fill. apply Forall_fmap, Forall_true. intros b. cbn. by apply N.mod_lt.
Qed.
Lemma length_fill n bytes : length (fill n bytes) = n.
Proof. unfold fill. rewrite length_map, length_take, length_app, repeat_length. lia. Qed.

Lemma token_chars n bytes : let t := raw_url_encode (fill n bytes) in
  forall_bytes token_byte t = true /\ len t = raw_url_len n.
Proof. destruct (raw_url_chars _ (fill_bytes n bytes)) as (_ & H & L). by rewrite length_fill in L. Qed.

Context `{KLAWS : !Pbkdf2Laws}.

Lemma hash_accepts secret bytes :
  VerifyDjangoPBKDF2SHA256 (MakeDjangoPBKDF2SHA256 secret (raw_url_encode (fill 10 bytes)) 120000) secret = Ok tt.
Proof.
  destruct (token_chars 10 bytes) as [H L]. apply Verify_Make; [lia| | |done].
  - intros E. by rewrite E in L.
  - unfold no_dollar. revert H. apply byte_class_incl. by vm_compute.
Qed.

(** C35: an application password that was created logs in. A permitted actor
    gets one with a label of at most 128 bytes, for a known mailbox with less
    than eight of them in memory and in the database; its row and one audit
    event are committed together and nothing else is; and from then on the
    secret that is shown once is no OIDC token, and [VerifyDovecot] accepts it
    exactly as long as the mailbox is active. *)
Theorem created_password_accepted actor mailboxID label w out w' :
  sound_world w -> CreateAppPassword actor mailboxID label w = (Ok out, w') ->
  let a := ToLower mailboxID in
  permitted (is_authorizer (w_ext w)) actor "mailbox:app_password.create"
    {| r_type := "mailbox"; r_id := mailboxID |}
  /\ pc_label out = TrimSpace label /\ 1 <= len (pc_label out) <= 128
  /\ activeAppPasswordCount (w_ext w) a < MaxActiveAppPasswords
  /\ count_active a (w_db w) < MaxActiveAppPasswords
  /\ activeAppPasswordCount (w_ext w') a = S (activeAppPasswordCount (w_ext w) a)
  /\ (exists p ev, is_passwords (w_ext w') !! pc_id out = Some p
       /\ w_db w' = with_audit (fun l => l ++ [ev])
            (with_tokens (<[stableUUID ("app_password:" +:+ pc_id out) := password_row p]>) (w_db w))
       /\ ev_action ev = "app_password.create" /\ ev_result ev = "success")
  /\ oidc_secret (pc_secret_once out) = false
  /\ exists m, is_mailboxes (w_ext w') !! a = Some m
       /\ VerifyDovecot (w_ext w') a (pc_secret_once out) = im_active m.
Proof.
  intros [C S] H a. pose proof (rows_CreateAppPassword actor mailboxID label w) as K. rewrite H in K.
  apply CreateAppPassword_ok in H as (p & Hcr & Eo & Hc & ev & Hd & Ea & Er & _).
  assert (consistent (w_ext w')) as C'.
  { eapply (created_sound true _ _ _ _ _ _ _ _ (w_db w')); [done..|]. rewrite Hd.
    eexists _, (password_row p). split; [apply lookup_insert_eq|done]. }
  pose proof Hcr as [Hp [Em [m Hm]] [El [Hne Hlen]] Hr Hb [sb Es] [vb Ev] Hf Est].
  rewrite Em in *. fold a in Hm, Hb, Hc. rewrite !count_actives.
  assert (is_passwords (w_ext w) !! pw_id p = None) as Hn.
  { destruct (is_passwords (w_ext w) !! pw_id p) as [q|] eqn:E; [|done].
    destruct (S _ _ E) as (k & r & H1 & H2 & H3). by destruct (Hf k r H1 H2). }
  assert (actives (w_ext w') a ≡ₚ p :: actives (w_ext w) a) as A.
  { rewrite Est. unfold add_password. etransitivity; [by apply actives_new|].
    unfold one_active, active_for. by rewrite Em, Hr, eqs_refl. }
  rewrite Eo. cbn [pc_label pc_id pc_secret_once]. split_and!; [done|done| |done..| | | | |].
  - destruct (pw_label p); [done|cbn; lia].
  - done.
  - by rewrite A.
  - exists p, ev. split_and!; [|done..]. rewrite Est. apply lookup_insert_eq.
  - rewrite Es. apply token_secret, token_chars.
  - exists m. split; [rewrite Est; exact Hm|]. destruct (co_keys _ _ C _ _ Hm) as (_ & Hl & _).
    apply Bool.eq_iff_eq_true. rewrite VerifyDovecot_accepted by done. unfold accepted.
    assert (is_mailboxes (w_ext w') !! a = Some m) as -> by (rewrite Est; exact Hm).
    split; [intros (m' & [= <-] & ? & _); done|]. intros Ha. exists m. split_and!; [done..|].
    right. exists p. split; [rewrite A; by left|]. rewrite Ev. apply hash_accepts.
Qed.

(** ** Addresses that are not canonical *)

Lemma CreateOrReplaceUser_ok actor m password w out w' :
  CreateOrReplaceUser actor m password w = (Ok out, w') -> password <> "" ->
  validateMailbox (w_ext w) (im_email m) = Ok tt /\ w_ext w' = set_mailbox out (w_ext w)
  /\ im_email out = ToLower (im_email m) /\ im_active out = im_active m
  /\ exists bytes, im_verifier out = MakeDjangoPBKDF2SHA256 password (raw_url_encode (fill 10 bytes)) 120000.
Proof.
  unfold CreateOrReplaceUser. intros H Hpw. apply bind_ok in H as (u & w1 & [-> _]%authorize_ok & H).
  rewrite readM_bind in H. destruct (validateMailbox _ _) as [[]|err] eqn:V; [|by apply audited_err in H].
  apply bind_ok in H as (verifier & w2 & H2 & H). unfold hashed in H2. apply eqs_false in Hpw. rewrite Hpw in H2.
  apply bind_ok in H2 as (h & w3 & H3%tryM_run & H2). destruct h as [v|err]; [|by apply audited_err in H2].
  injection H2 as -> ->. apply HashSecret_ok in H3 as (_ & X3 & _ & bytes & Ev).
  apply bind_ok in H as (now & w4 & H4 & H). pose proof (keeps_now w2) as X4. rewrite H4 in X4.
  rewrite readM_bind in H. cbv zeta in H.
  apply bind_ok in H as (u5 & w5 & H5 & H). apply bind_ok in H as (u6 & w6 & H6 & H).
  match type of H5 with ?a w4 = _ => pose proof (keeps_audit _ _ _ _ _ w4 : w_ext (a w4).2 = _) as X5 end.
  match type of H6 with ?a w5 = _ => pose proof (keeps_persist _ w5 : w_ext (a w5).2 = _) as X6 end.
  rewrite H5 in X5. rewrite H6 in X6. cbn [snd] in X4, X5, X6. injection H as <- <-.
  split; [done|]. split; [cbn [w_ext set_ext]; by rewrite X6, X5, X4, X3|].
  split_and!; [done..|]. exists bytes. cbn [im_verifier stored_mailbox]. rewrite <- Ev.
  assert ((verifier =?s "") = false) as -> by by rewrite Ev. by destruct (is_mailboxes _ !! _).
Qed.

Lemma twin_entry free st owner out sv key :
  in_step free st -> is_daemon st = Some sv -> is_mailboxes st !! key = Some owner ->
  ToLower (im_email out) <> key -> normalizeAddress (ToLower (im_email out)) = key ->
  is_mailboxes (set_mailbox out st) !! key = Some owner
  /\ exists sv' verifiers, is_daemon (set_mailbox out st) = Some sv'
       /\ mailboxAuth sv' key = Some (put ml_address key (daemon_mailbox out), verifiers)
       /\ verifiers ≡ₚ map pw_verifier (actives st key) /\ sv_unavailable sv' = sv_unavailable sv.
Proof.
  intros C Hsv Hm Hne Hn. destruct (co_keys _ _ C _ _ Hm) as (_ & _ & N).
  destruct (co_daemon _ _ C _ Hsv) as [Cs M V]. split; [cbn; by rewrite lookup_insert_ne|].
  exists (UpsertIdentityMailbox (daemon_mailbox out) (put sv_audit true sv)). eexists. split_and!.
  - cbn. by rewrite Hsv.
  - rewrite mailboxAuth_canonical; [|apply canonical_upsert; [by destruct Cs|by cbn; rewrite Hn]|apply N].
    rewrite upsert_mailboxes. cbn [ml_address daemon_mailbox]. by rewrite Hn, lookup_insert_eq.
  - rewrite upsert_verifiers. apply V.
  - unfold UpsertIdentityMailbox. by destruct (sv_domains _ !! _).
Qed.


(** ** A revoked password *)

Definition revoked st (id : string) : Prop :=
  exists p, is_passwords st !! id = Some p /\ pw_revoked_at p <> None.

Lemma revoked_step free w w' id : kept_world free w -> identity_step free w w' ->
  revoked (w_ext w) id -> revoked (w_ext w') id.
Proof.
  intros [C S] [actor m password N|actor i ops|actor i|i kind secret scopes|actor a label|actor a i|
                previous m R Hfree] (p & Hp & Hr); unfold revoked.
  - rewrite (passwords_wrote _ _ _ (CreateOrReplaceUser_ext actor m password w)). by exists p.
  - rewrite (passwords_wrote _ _ _ (PatchUser_ext actor i ops w)). by exists p.
  - rewrite (passwords_wrote _ _ _ (DisableUser_ext actor i w)). by exists p.
  - destruct (AddToken_ext i kind secret scopes w) as [->|[tok ->]]; by exists p.
  - destruct (CreateAppPassword actor a label w) as [[out|e] w1] eqn:E; cbn [snd].
    + apply CreateAppPassword_ok in E as (q & [_ _ _ _ _ _ _ Hf ->] & _). exists p. split; [|done].
      unfold add_password. cbn. rewrite lookup_insert_ne; [done|]. intros <-.
      destruct (S _ _ Hp) as (k & r & H1 & H2 & H3). by destruct (Hf k r H1 H2).
    + apply CreateAppPassword_err in E as ->. by exists p.
  - destruct (RevokeAppPassword actor a i w) as [[out|e] w1] eqn:E; cbn [snd].
    + apply RevokeAppPassword_ok in E as [_ [(-> & _)|(p' & (q & Hq & _ & Hq' & Hr' & _ & ->) & _)]];
        [by exists p|].
      cbn. rewrite lookup_insert. case_decide; [by exists p'|by exists p].
    + apply RevokeAppPassword_err in E as ->. by exists p.
  - cbn [w_ext set_ext]. destruct (scim_passwords (w_ext w) previous m) as [->| ->]; [by exists p|].
    unfold rename_passwords. rewrite lookup_fmap, Hp. cbn. eexists. split; [reflexivity|].
    by destruct (_ =?s _).
Qed.

Lemma revoked_history free w w' id : kept_world free w -> rtc (identity_step free) w w' ->
  revoked (w_ext w) id -> revoked (w_ext w') id.
Proof.
  intros H Hs. induction Hs as [|w1 w2 w3 Hs _ IH]; [done|]. intros R.
  apply IH; [by eapply kept_step|by eapply revoked_step].
Qed.

Lemma revoked_dead free st id a p : in_step free st -> revoked st id -> p ∈ actives st a -> pw_id p <> id.
Proof.
  intros C (q & Hq & Hr) [[i Hp] Ha]%elem_actives Hid. destruct (co_passwords _ _ C _ _ Hp) as [E _].
  assert (p = q) as -> by congruence. rewrite active_for_eq in Ha. destruct (pw_revoked_at q); [|done].
  by rewrite andb_false_r in Ha.
Qed.

Lemma RevokeAppPassword_revokes actor mailboxID id w u w' :
  RevokeAppPassword actor mailboxID id w = (Ok u, w') -> revoked (w_ext w') id.
Proof.
  intros [_ [(-> & _ & R)|(p' & (q & Hq & _ & Hq' & Hr' & _ & ->) & _)]]%RevokeAppPassword_ok; [done|].
  exists p'. split; [|done]. apply lookup_insert_eq.
Qed.

(** C34: a revocation is final. Once [RevokeAppPassword] answered without an
    error, to an actor who may revoke for the mailbox, the row is revoked and
    the event committed (or the password was revoked before and nothing is
    written); and after any further calls on the service with canonical
    addresses, two mailboxes renamed into one included, every secret its daemon
    tells Dovecot is right belongs to the mailbox itself or to another live
    password: the revoked one cannot come back, be replaced under its
    identifier, or log in under a renamed address. *)
Theorem revocation_final free actor mailboxID id w u w1 w2 :
  kept_world free w -> RevokeAppPassword actor mailboxID id w = (Ok u, w1) ->
  rtc (identity_step free) w1 w2 ->
  permitted (is_authorizer (w_ext w)) actor "mailbox:app_password.revoke"
    {| r_type := "mailbox"; r_id := mailboxID |}
  /\ (w_db w1 = w_db w /\ revoked (w_ext w) id
      \/ exists k r ev t, tokens (w_db w) !! k = Some r /\ tk_public_id r = Some id
           /\ w_db w1 = with_audit (fun l => l ++ [ev])
                (with_tokens (alter (put tk_revoked_at (Some t)) k) (w_db w))
           /\ ev_action ev = "app_password.revoke" /\ ev_result ev = "success")
  /\ revoked (w_ext w2) id
  /\ forall sv cid req wd m, is_daemon (w_ext w2) = Some sv ->
       let a := normalizeAddress (pd_username req) in
       is_mailboxes (w_ext w2) !! a = Some m ->
       rp_decision (DovecotPassdb sv cid req wd : Response * World Service).1 = DecisionOK ->
       im_active m = true
       /\ (VerifyDjangoPBKDF2SHA256 (im_verifier m) (pd_secret req) = Ok tt
           \/ exists p, p ∈ actives (w_ext w2) a /\ pw_id p <> id
                /\ VerifyDjangoPBKDF2SHA256 (pw_verifier p) (pd_secret req) = Ok tt).
Proof.
  intros H E Hs. assert (kept_world free w1) as H1.
  { apply (kept_step free w); [done|]. change w1 with (Ok u, w1).2. rewrite <- E. constructor. }
  destruct (kept_history free _ _ H1 Hs) as [C _].
  pose proof (revoked_history free _ _ id H1 Hs (RevokeAppPassword_revokes _ _ _ _ _ _ E)) as R.
  apply RevokeAppPassword_ok in E as [Hp E]. split_and!; [done| |done|].
  - destruct E as [(_ & D & Rv)|(p' & (q & Hq & _ & _ & Hr' & Ep & _) & k & r & ev & Hk & Hpub & _ & Hd & Ha & Hres)];
      [by left|right].
    destruct (pw_revoked_at p') as [t|] eqn:Et; [|done]. exists k, r, ev, t. split_and!; try done.
    rewrite Hpub, Ep. cbn. f_equal. destruct H as [C0 _]. by apply (co_passwords _ _ C0).
  - intros sv cid req wd m Hsv a Hm Hd.
    destruct (passdb_verdict free _ sv cid req wd C Hsv) as [V Hok]; [by eexists|].
    apply Hok, V in Hd as (_ & _ & _ & m' & Hm' & Hact & Hd). fold a in Hm', Hd.
    assert (m' = m) as -> by congruence. split; [done|]. destruct Hd as [Hd|(_ & p & Hpa & Hv)]; [by left|right].
    exists p. split_and!; [done| |done]. by eapply revoked_dead.
Qed.

(** ** Bearer tokens *)

(** A bearer token authenticates exactly if a stored token that is not
    revoked, of the wanted kind (api_token is api), verifies the trimmed
    secret after the scheme; the actor has the identifier and the scopes of
    such a token and nothing else: no mailbox, group or role. *)
Theorem AuthenticateBearer_exact st header kind :
  match AuthenticateBearer st header kind with
  | Ok actor => exists id tok secret, is_tokens st !! id = Some tok /\ header = "Bearer " +:+ secret
      /\ to_revoked tok = false /\ to_kind tok = (if kind =?s "api_token" then "api" else kind)
      /\ VerifyDjangoPBKDF2SHA256 (to_verifier tok) (TrimSpace secret) = Ok tt
      /\ actor = {| a_type := kind; a_id := to_id tok; a_mailbox := ""; a_scopes := to_scopes tok;
                    a_groups := []; a_roles := [] |}
  | Err e => forall id tok secret, is_tokens st !! id = Some tok -> header = "Bearer " +:+ secret ->
      to_revoked tok = false -> to_kind tok = (if kind =?s "api_token" then "api" else kind) ->
      VerifyDjangoPBKDF2SHA256 (to_verifier tok) (TrimSpace secret) <> Ok tt
  end.
Proof.
  unfold AuthenticateBearer. set (k := if kind =?s _ then _ else _). cbv zeta.
  destruct (HasPrefix header "Bearer ") eqn:Hp; cbn [negb].
  2: { intros id tok secret _ -> _ _ _. enough (HasPrefix ("Bearer " +:+ secret) "Bearer " = true) by congruence.
       apply HasPrefix_strip. by exists secret. }
  apply HasPrefix_strip in Hp as [secret Hs]. apply strip_some in Hs as ->.
  assert (TrimPrefix ("Bearer " +:+ secret) "Bearer " = secret) as -> by done.
  destruct (List.find _ _) as [tok|] eqn:F.
  - apply find_some in F as [Hin Hb]. apply list_elem_of_In, list_elem_of_fmap in Hin as ([id t] & -> & Hin).
    rewrite range_perm, elem_of_map_to_list in Hin. unfold bearer_matches in Hb.
    apply andb_true_iff in Hb as [[Hr Hk]%andb_true_iff Hv]. to_prop. exists id, t, secret.
    split_and!; [done..|by apply verify_ok|done].
  - intros id tok secret' Ht E Hr Hk Hv. assert (secret' = secret) as -> by by inversion E.
    pose proof (find_none _ _ F tok) as N. unfold bearer_matches in N. rewrite Hr, Hk, eqs_refl, Hv in N.
    enough (true = false) by done. apply N. apply list_elem_of_In, list_elem_of_fmap. exists (id, tok).
    split; [done|]. by rewrite range_perm, elem_of_map_to_list.
Qed.
End IdentitySafety.
