(* ===== verification/Scim.v ===== *)
(** * The SCIM store (internal/scimstore/sql.go)

    The transactions the SCIM server runs over its resources, their indexes,
    tombstones and group members, and over the mailboxes they provision.  The
    server and its protocol are a third-party library: a transaction is an
    arbitrary program over the operations of the store ([Callback]), and the
    decoder of a document is a parameter.  The identity service, if there is
    one, is shared with the world, and sees the projections of a transaction
    when it has committed. *)

From stdpp Require Import base list gmap sets strings sorting.
From Stdlib Require Import ZArith Lia Ascii.
From S2P Require Import Prelude GoStd Json JsonText JsonStruct Sha256 Sha1 Policy Queue AuditLog Database Relay Daemon Verifier Lookup Tokens Authz Regex Approval Executor Telegram Identity.
Import authz identity.

Module scim.

(** ** The interface of the SCIM library *)

Record IndexKey := { ik_name : string; ik_value : string; ik_case_exact : bool; ik_unique : bool }.
Record ScimRecord := {
  sr_scope : string; sr_type : string; sr_id : string; sr_external_id : string; sr_manager : string;
  sr_version : string; sr_credential_version : string; sr_created : Z; sr_modified : Z;
  sr_data : string; sr_indexes : list IndexKey;
}.
Record Tombstone := {
  tm_scope : string; tm_type : string; tm_id : string; tm_external_id : string; tm_manager : string;
  tm_version : string; tm_deleted : Z;
}.
Record Query := { qy_scope : string; qy_type : string; qy_attribute : string; qy_value : string; qy_limit : Z }.

Definition no_record : ScimRecord :=
  {| sr_scope := ""; sr_type := ""; sr_id := ""; sr_external_id := ""; sr_manager := ""; sr_version := "";
     sr_credential_version := ""; sr_created := 0; sr_modified := 0; sr_data := ""; sr_indexes := [] |}.

Definition ErrNotFound : string := "gotthscim.ErrNotFound".
Definition ErrTooMany : string := "gotthscim.ErrTooMany".
Definition ErrTombstoned : string := "gotthscim.ErrTombstoned".
Definition ErrConflict : string := "gotthscim.ErrConflict".
Definition ErrPrecondition : string := "gotthscim.ErrPrecondition".
Definition ProtocolError (status : nat) (scim_type detail : string) : string :=
  FormatInt (Z.of_nat status) +:+ " " +:+ scim_type +:+ " " +:+ detail.

(** [DecodeDocument]: the object in the data of a record; and the JSON value
    of that text, as an audit row keeps it. *)
Class ScimCodec := {
  DecodeDocument : string -> option (gmap string jval);
  document_json : string -> json;
}.

(** ** Data of the store *)

Record RequestMetadata := {
  md_actor : Actor; md_correlation_id : string; md_source_ip : string; md_user_agent : string;
}.
Record Adoption := {
  ad_mailbox_id : string; ad_mailbox : string; ad_updated_at : Z; ad_consumed : bool;
}.
Record PasswordChange := { pw_change_verifier : string; pw_revision : string }.
Record MailboxProjection := { pj_previous : string; pj_mailbox : Mailbox }.

(** The transaction; a failed statement aborts it, as PostgreSQL does. *)
Record Transaction := {
  tx_metadata : RequestMetadata;
  tx_passwords : gmap string PasswordChange;
  tx_project : list MailboxProjection;
  tx_adoption : option Adoption;
  tx_aborted : bool;
}.

(** The identity service the store is wired to, and the open transaction. *)
Record SQLStore := { ss_identity : option Service; ss_tx : Transaction }.

#[export] Instance adoption_eta : Eta Adoption := fun a =>
  {| ad_mailbox_id := ad_mailbox_id a; ad_mailbox := ad_mailbox a; ad_updated_at := ad_updated_at a;
     ad_consumed := ad_consumed a |}.
#[export] Instance transaction_eta : Eta Transaction := fun t =>
  {| tx_metadata := tx_metadata t; tx_passwords := tx_passwords t; tx_project := tx_project t;
     tx_adoption := tx_adoption t; tx_aborted := tx_aborted t |}.
#[export] Instance store_eta : Eta SQLStore := fun s => {| ss_identity := ss_identity s; ss_tx := ss_tx s |}.

Definition resources (d : DB) : gmap string ScimResourceRow := ac_scim (db_access d).
Definition tombstones (d : DB) : gmap string TombstoneRow := ac_tombstones (db_access d).
Definition indexes (d : DB) : gmap (string * string) ScimIndexRow := ac_indexes (db_access d).
Definition contracts (d : DB) : gmap (string * string * string) (bool * bool) := ac_contracts (db_access d).
Definition members (d : DB) : gset (string * string * string) := ac_members (db_access d).

Definition with_resources f : DB -> DB := with_access (fun t => put ac_scim (f (ac_scim t)) t).
Definition with_tombstones f : DB -> DB := with_access (fun t => put ac_tombstones (f (ac_tombstones t)) t).
Definition with_indexes f : DB -> DB := with_access (fun t => put ac_indexes (f (ac_indexes t)) t).
Definition with_contracts f : DB -> DB := with_access (fun t => put ac_contracts (f (ac_contracts t)) t).
Definition with_members f : DB -> DB := with_access (fun t => put ac_members (f (ac_members t)) t).
Definition with_sessions f : DB -> DB := with_access (fun t => put ac_sessions (f (ac_sessions t)) t).

(** [t.UnixNano()] in an int64. *)
Definition UnixNano (t : Z) : Z := ((t + 2 ^ 63) mod 2 ^ 64 - 2 ^ 63)%Z.

Definition fk_insert : string := "insert or update violates foreign key constraint".
Definition fk_delete : string := "update or delete violates foreign key constraint".
Definition check_violated : string := "check constraint violated".

Section Scim.
Context `{HOST : !Host} `{MAIL : !MailParser} `{ORDER : !MapOrder} `{KDF : !Pbkdf2} `{CODEC : !ScimCodec}.

Abbreviation T := (M SQLStore).

Definition mapStoreError (err : string) : string :=
  if (err =?s fk_insert) || (err =?s fk_delete)
  then ProtocolError 409 "" "SCIM resource remains referenced by existing state"
  else if err =?s duplicate then ErrConflict else err.
Definition mapped {A} (m : T A) : T A :=
  r ← tryM m;
  match r with Ok a => mret a | Err e => failM (mapStoreError e) end.

Definition txM {A} (f : Transaction -> A) : T A := extM (fun s => (Ok (f (ss_tx s)), s)).
Definition update_tx (f : Transaction -> Transaction) : T unit :=
  extM (fun s => (Ok tt, put ss_tx (f (ss_tx s)) s)).
Definition identityM : T (option Service) := extM (fun s => (Ok (ss_identity s), s)).

(** A statement of the transaction. *)
Definition statement {A} (run : T A) : T A :=
  aborted ← txM tx_aborted;
  guardM aborted "current transaction is aborted";;
  r ← tryM run;
  match r with
  | Ok a => mret a
  | Err e => update_tx (put tx_aborted true);; failM e
  end.
Definition select {A} (q : DB -> result A) : T A := statement (queryM q).
Definition exec {A} (s : DB -> result (A * DB)) : T A := statement (execM s).

(** *** Records *)

Definition validateRecordShape (r : ScimRecord) : bool :=
  negb ((sr_scope r =?s "") || (sr_type r =?s "") || (sr_id r =?s "") || (sr_version r =?s "")
        || (sr_created r =? 0)%Z || (sr_modified r <? sr_created r)%Z || (len (sr_data r) =? 0)
        || (2 ^ 20 <? N.of_nat (len (sr_data r)))%N).

Definition recordPasswordKey (scope type id : string) : string :=
  scope +:+ String "000" (type +:+ String "000" id).

Definition scimAction (type verb : string) : string := "scim." +:+ ToLower type +:+ "." +:+ verb.

Definition row_of (r : ScimRecord) : ScimResourceRow :=
  {| sm_scope := sr_scope r; sm_type := sr_type r; sm_external_id := sr_external_id r;
     sm_manager := sr_manager r; sm_version := sr_version r;
     sm_credential_version := sr_credential_version r; sm_created := UnixNano (sr_created r);
     sm_modified := UnixNano (sr_modified r); sm_data := sr_data r |}.
Definition scanRecord (id : string) (r : ScimResourceRow) : ScimRecord :=
  {| sr_scope := sm_scope r; sr_type := sm_type r; sr_id := id; sr_external_id := sm_external_id r;
     sr_manager := sm_manager r; sr_version := sm_version r;
     sr_credential_version := sm_credential_version r; sr_created := sm_created r;
     sr_modified := sm_modified r; sr_data := sm_data r; sr_indexes := [] |}.
Definition with_indexes_of (l : list IndexKey) (r : ScimRecord) : ScimRecord :=
  {| sr_scope := sr_scope r; sr_type := sr_type r; sr_id := sr_id r; sr_external_id := sr_external_id r;
     sr_manager := sr_manager r; sr_version := sr_version r;
     sr_credential_version := sr_credential_version r; sr_created := sr_created r;
     sr_modified := sr_modified r; sr_data := sr_data r; sr_indexes := l |}.

Definition bounded (low high : nat) (s : string) : bool := (low <=? char_length s) && (char_length s <=? high).

(** The CHECK constraints of scim_resources. *)
Definition resource_check (id : string) (r : ScimResourceRow) : bool :=
  bounded 1 1024 (sm_scope r) && bounded 1 1024 (sm_type r) && bounded 1 1024 id
  && (N.of_nat (char_length (sm_external_id r)) <=? 65536)%N && bounded 0 1024 (sm_manager r)
  && bounded 1 1024 (sm_version r) && bounded 0 1024 (sm_credential_version r)
  && (sm_created r <=? sm_modified r)%Z && (1 <=? len (sm_data r))
  && (N.of_nat (len (sm_data r)) <=? 2 ^ 20)%N.

Definition at_key (scope type : string) (r : ScimResourceRow) : bool :=
  (sm_scope r =?s scope) && (sm_type r =?s type).

Definition select_resource (scope type id : string) (d : DB) : option ScimResourceRow :=
  r ← resources d !! id; if at_key scope type r then Some r else None.

(** The index rows of a resource in the order of their ordinals. *)
Definition index_le (p q : ScimIndexRow) : Prop := ix_ordinal p <= ix_ordinal q.
#[local] Instance index_le_dec : RelDecision index_le.
Proof. intros p q. unfold index_le. apply _. Defined.
Definition index_rows (scope type id : string) (d : DB) : list ScimIndexRow :=
  merge_sort index_le (map snd (List.filter (fun kv => (kv.1.1 =?s id) && (ix_scope kv.2 =?s scope)
                                                   && (ix_type kv.2 =?s type)) (map_to_list (indexes d)))).
Definition index_key (r : ScimIndexRow) : IndexKey :=
  {| ik_name := ix_name r; ik_value := ix_value r; ik_case_exact := ix_case_exact r; ik_unique := ix_unique r |}.

(** [loadIndexesByID]: no identifiers, no query. *)
Definition loadIndexesByID (scope type : string) (ids : list string) : T (string -> list IndexKey) :=
  if length ids =? 0 then mret (fun _ => []) else
  select (fun d => Ok (fun id => if bool_decide (id ∈ ids) then map index_key (index_rows scope type id d) else [])).

(** *** Get and List *)

Definition Get (scope type id : string) : T ScimRecord :=
  row ← select (fun d => Ok (select_resource scope type id d));
  match row with
  | None => failM ErrNotFound
  | Some r =>
      l ← loadIndexesByID scope type [id];
      mret (with_indexes_of (l id) (scanRecord id r))
  end.

Definition index_matches (q : Query) (r : ScimIndexRow) : bool :=
  if ix_case_exact r then ix_value r =?s qy_value q else sql_lower (ix_value r) =?s sql_lower (qy_value q).

Definition query_matches (q : Query) (d : DB) (id : string) (r : ScimResourceRow) : bool :=
  at_key (qy_scope q) (qy_type q) r
  && (if qy_attribute q =?s "" then true
      else if EqualFold (qy_attribute q) "externalId" then sm_external_id r =?s qy_value q
      else match indexes d !! (id, ToLower (qy_attribute q)) with
           | Some i => (ix_scope i =?s sm_scope r) && (ix_type i =?s sm_type r) && index_matches q i
           | None => false
           end).

Definition id_le (p q : string * ScimResourceRow) : Prop := sql_leb p.1 q.1 = true.
#[local] Instance id_le_dec : RelDecision id_le.
Proof. intros p q. unfold id_le. apply _. Defined.

(** The rows of the query, in the order of their identifiers. *)
Definition matching (q : Query) (d : DB) : list (string * ScimResourceRow) :=
  merge_sort id_le (List.filter (fun kv => query_matches q d kv.1 kv.2) (map_to_list (resources d))).

Definition ListRecords (q : Query) : T (list ScimRecord) :=
  guardM ((qy_scope q =?s "") || (qy_type q =?s "") || (qy_limit q <? 1)%Z) "SCIM store query is invalid";;
  rows ← select (fun d =>
    if (2 ^ 63 <=? qy_limit q + 1)%Z then Err "LIMIT must not be negative"
    else Ok (take (Z.to_nat (qy_limit q + 1)) (matching q d)));
  guardM (Z.to_nat (qy_limit q) <? length rows) ErrTooMany;;
  l ← loadIndexesByID (qy_scope q) (qy_type q) (map fst rows);
  mret (map (fun kv => with_indexes_of (l kv.1) (scanRecord kv.1 kv.2)) rows).

(** *** Statements on resources *)

Definition insert_resource (r : ScimRecord) (d : DB) : result (unit * DB) :=
  if negb (resource_check (sr_id r) (row_of r)) then Err check_violated else
  match resources d !! sr_id r with
  | Some _ => Err duplicate
  | None => Ok (tt, with_resources (<[sr_id r := row_of r]>) d)
  end.

Definition update_resource (r : ScimRecord) (d : DB) : result (unit * DB) :=
  match select_resource (sr_scope r) (sr_type r) (sr_id r) d with
  | None => Ok (tt, d)
  | Some old =>
      let new := {| sm_scope := sm_scope old; sm_type := sm_type old; sm_external_id := sr_external_id r;
                    sm_manager := sm_manager old; sm_version := sr_version r;
                    sm_credential_version := sr_credential_version r; sm_created := sm_created old;
                    sm_modified := UnixNano (sr_modified r); sm_data := sr_data r |} in
      if negb (resource_check (sr_id r) new) then Err check_violated
      else Ok (tt, with_resources (<[sr_id r := new]>) d)
  end.

(** Whether an identifier is a member of a group; the groups and the indexes
    of a resource go with it. *)
Definition is_member (scope id : string) (d : DB) : bool :=
  existsb (fun m => (m.1.1 =?s scope) && (m.2 =?s id)) (elements (members d)).

Definition delete_resource (scope type id : string) (d : DB) : result (unit * DB) :=
  match select_resource scope type id d with
  | None => Ok (tt, d)
  | Some _ =>
      if (type =?s "User") && is_member scope id d then Err fk_delete else
      Ok (tt, with_members (filter (fun m => ~ (m.1.1 = scope /\ m.1.2 = id /\ type = "Group")))
        (with_indexes (filter (fun kv => kv.1.1 <> id)) (with_resources (delete id) d)))
  end.

Definition tombstone_row (t : Tombstone) : TombstoneRow :=
  {| tb_scope := tm_scope t; tb_type := tm_type t; tb_external_id := tm_external_id t;
     tb_manager := tm_manager t; tb_version := tm_version t; tb_deleted := UnixNano (tm_deleted t) |}.
Definition tombstone_check (id : string) (r : TombstoneRow) : bool :=
  bounded 1 1024 (tb_scope r) && bounded 1 1024 (tb_type r) && bounded 1 1024 id
  && (N.of_nat (char_length (tb_external_id r)) <=? 65536)%N && bounded 0 1024 (tb_manager r)
  && bounded 1 1024 (tb_version r).

(** The subject of a tombstone: scope, type and external identifier. *)
Definition same_subject (scope type external : string) (r : TombstoneRow) : bool :=
  (tb_scope r =?s scope) && (tb_type r =?s type) && (tb_external_id r =?s external).

Definition insert_tombstone (t : Tombstone) (d : DB) : result (unit * DB) :=
  if negb (tombstone_check (tm_id t) (tombstone_row t)) then Err check_violated else
  match tombstones d !! tm_id t, find_row (fun _ r => (tm_external_id t <>?s "")
          && same_subject (tm_scope t) (tm_type t) (tm_external_id t) r) (tombstones d) with
  | None, None => Ok (tt, with_tombstones (<[tm_id t := tombstone_row t]>) d)
  | _, _ => Err duplicate
  end.

(** SELECT EXISTS (... FROM scim_tombstones WHERE id=$1 OR ...) *)
Definition reserved (r : ScimRecord) (d : DB) : bool :=
  match tombstones d !! sr_id r with
  | Some _ => true
  | None => match find_row (fun _ t => (sr_external_id r <>?s "")
                    && same_subject (sr_scope r) (sr_type r) (sr_external_id r) t) (tombstones d) with
            | Some _ => true
            | None => false
            end
  end.

(** SELECT EXISTS (... WHERE resource_type='User' AND external_id=$1) *)
Definition subject_owned (external : string) (d : DB) : bool :=
  match find_row (fun _ r => (sm_type r =?s "User") && (sm_external_id r =?s external)) (resources d) with
  | Some _ => true
  | None => false
  end.

(** A mailbox of a SCIM resource that an OIDC identity is bound to. *)
Definition bound_mailboxes (resourceID : string) (d : DB) : list (string * IdentityRow) :=
  List.filter (fun kv => (ir_provider kv.2 =?s "authentik")
    && match ir_mailbox_id kv.2 with
       | Some m => match db_mailboxes d !! m with
                   | Some row => bool_decide (mb_scim_resource_id row = Some resourceID)
                   | None => false
                   end
       | None => false
       end) (map_to_list (ac_identities (db_access d))).
Definition identity_bound (resourceID : string) (d : DB) : bool := negb (length (bound_mailboxes resourceID d) =? 0).

(** *** Indexes *)

Definition delete_indexes (r : ScimRecord) (d : DB) : result (unit * DB) :=
  Ok (tt, with_indexes (filter (fun kv => ~ (kv.1.1 = sr_id r /\ ix_scope kv.2 = sr_scope r
                                              /\ ix_type kv.2 = sr_type r))) d).

Definition insert_contract (key : string * string * string) (v : bool * bool) (d : DB) : result (unit * DB) :=
  Ok (tt, match contracts d !! key with Some _ => d | None => with_contracts (<[key := v]>) d end).

(** Two rows of one unique index. *)
Definition index_clash (folded : string) (new : ScimIndexRow) (key : string * string) (r : ScimIndexRow) : bool :=
  ix_unique new && ix_unique r && (ix_scope r =?s ix_scope new) && (ix_type r =?s ix_type new)
  && (key.2 =?s folded) && Bool.eqb (ix_case_exact r) (ix_case_exact new)
  && (if ix_case_exact new then ix_value r =?s ix_value new
      else sql_lower (ix_value r) =?s sql_lower (ix_value new)).

Definition index_check (folded : string) (r : ScimIndexRow) : bool :=
  bounded 1 1024 (ix_name r) && (folded =?s sql_lower (ix_name r))
  && (1 <=? char_length (ix_value r)) && (N.of_nat (char_length (ix_value r)) <=? 65536)%N.

Definition insert_index (id folded : string) (new : ScimIndexRow) (d : DB) : result (unit * DB) :=
  if negb (index_check folded new) then Err check_violated else
  match indexes d !! (id, folded) with
  | Some _ => Err duplicate
  | None =>
      if existsb (fun kv => index_clash folded new kv.1 kv.2) (map_to_list (indexes d)) then Err duplicate else
      match select_resource (ix_scope new) (ix_type new) id d with
      | None => Err fk_insert
      | Some _ => Ok (tt, with_indexes (<[(id, folded) := new]>) d)
      end
  end.

Definition index_row (r : ScimRecord) (ordinal : nat) (i : IndexKey) : ScimIndexRow :=
  {| ix_scope := sr_scope r; ix_type := sr_type r; ix_name := ik_name i; ix_value := ik_value i;
     ix_ordinal := ordinal; ix_case_exact := ik_case_exact i; ix_unique := ik_unique i |}.

Definition replace_index (r : ScimRecord) (ordinal : nat) (i : IndexKey) : T unit :=
  let folded := ToLower (ik_name i) in
  let key := (sr_scope r, sr_type r, folded) in
  exec (insert_contract key (ik_case_exact i, ik_unique i));;
  contract ← select (fun d => Ok (contracts d !! key));
  match contract with
  | None => failM "sql: no rows in result set"
  | Some (caseExact, unique) =>
      guardM (negb (Bool.eqb caseExact (ik_case_exact i)) || negb (Bool.eqb unique (ik_unique i))) ErrConflict;;
      mapped (exec (insert_index (sr_id r) folded (index_row r ordinal i)))
  end.

Fixpoint replace_each (r : ScimRecord) (ordinal : nat) (l : list IndexKey) : T unit :=
  match l with
  | [] => mret tt
  | i :: l => replace_index r ordinal i;; replace_each r (S ordinal) l
  end.

Definition replaceIndexes (r : ScimRecord) : T unit :=
  exec (delete_indexes r);;
  replace_each r 0 (sr_indexes r).

(** *** Mailboxes *)

Definition address_of (d : DB) (row : MailboxRow) : option string :=
  (fun dom => mb_local_part row +:+ "@" +:+ dm_name dom) <$> db_domains d !! mb_domain_id row.

(** The mailbox of a resource: its row, address and verifier. *)
Definition scim_mailbox (id : string) (d : DB) : option (string * string * string) :=
  kv ← find_row (fun _ m => bool_decide (mb_scim_resource_id m = Some id)) (db_mailboxes d);
  address ← address_of d kv.2;
  Some (kv.1, address, default "" (mb_verifier kv.2)).

(** The mailbox of an adoption: its row, address and whether its domain is
    enabled. *)
Definition adoption_mailbox (id : string) (d : DB) : option (MailboxRow * string * bool) :=
  row ← db_mailboxes d !! id;
  dom ← db_domains d !! mb_domain_id row;
  Some (row, sql_lower (mb_local_part row +:+ "@" +:+ dm_name dom), dm_enabled dom).

(** [value, _ := v.(string)] of a field of an object: the last one counts. *)
Definition string_of (v : option jval) : string := match v with Some (VStr s) => s | _ => "" end.
Definition last_field (name : string) (fields : list (string * jval)) : option jval :=
  snd <$> List.find (fun kv => kv.1 =?s name) (rev fields).

Definition display_name (document : gmap string jval) : string :=
  let name := string_of (document !! "displayName") in
  if name =?s "" then
    match document !! "name" with
    | Some (VObj fields) => string_of (last_field "formatted" fields)
    | _ => ""
    end
  else name.

(** The claim on an existing mailbox, consumed by the first user it fits. *)
Definition consume_adoption (a : Adoption) (m : Mailbox) : T (Mailbox * string * string) :=
  found ← select (fun d => Ok (adoption_mailbox (ad_mailbox_id a) d));
  match found with
  | None => failM "legacy adoption mailbox is unavailable"
  | Some (row, email, domainEnabled) =>
      guardM (negb (EqualFold email (ad_mailbox a)) || negb (EqualFold email (im_email m))
              || negb (mb_updated_at row =? ad_updated_at a)%Z
              || (default "" (mb_scim_resource_id row) <>?s "") || negb domainEnabled) ErrConflict;;
      guardM (negb (Bool.eqb (mb_enabled row) (im_active m))
              || (default "" (mb_display_name row) <>?s im_display_name m)) ErrConflict;;
      update_tx (put tx_adoption (Some (put ad_consumed true a)));;
      mret (put im_created_at (mb_created_at row) m, email, default "" (mb_verifier row))
  end.

Definition active_value (v : option jval) : T bool :=
  match v with
  | None => mret true
  | Some (VBool b) => mret b
  | Some _ => failM "SCIM active value is invalid"
  end.

(** The mailbox of a record and the address it had. *)
Definition mailboxFromRecord (r : ScimRecord) : T (Mailbox * string) :=
  match DecodeDocument (sr_data r) with
  | None => failM "SCIM document is invalid"
  | Some document =>
      let userName := string_of (document !! "userName") in
      guardM (userName =?s "") "SCIM userName is required";;
      active ← active_value (document !! "active");
      let m := {| im_id := sr_id r; im_email := ToLower userName; im_display_name := display_name document;
                  im_active := active; im_verifier := ""; im_created_at := sr_created r;
                  im_updated_at := sr_modified r |} in
      row ← select (fun d => Ok (scim_mailbox (sr_id r) d));
      adoption ← txM tx_adoption;
      found ← match row, adoption with
              | Some (_, address, verifier), _ => mret (m, address, verifier)
              | None, Some a => consume_adoption a m
              | None, None => mret (m, "", "")
              end;
      let '(m', previous, verifier) := found in
      change ← txM (fun t => tx_passwords t !! recordPasswordKey (sr_scope r) (sr_type r) (sr_id r));
      mret (put im_verifier (match change with Some c => pw_change_verifier c | None => verifier end) m', previous)
  end.

(** UPDATE mailboxes ... WHERE id=$6 AND scim_resource_id IS NULL: the rows
    affected. *)
Definition scim_id_taken (id resourceID : string) (d : DB) : bool :=
  match find_row (fun k m => negb (k =?s id) && bool_decide (mb_scim_resource_id m = Some resourceID))
          (db_mailboxes d) with Some _ => true | None => false end.

Definition update_adopted (id resourceID : string) (m : Mailbox) (d : DB) : result (nat * DB) :=
  match db_mailboxes d !! id with
  | Some row =>
      match mb_scim_resource_id row with
      | Some _ => Ok (0, d)
      | None =>
          if scim_id_taken id resourceID d then Err duplicate else
          Ok (1, with_mailboxes (<[id := put mb_display_name (optional (im_display_name m))
            (put mb_enabled (im_active m) (put mb_verifier (optional (im_verifier m))
              (put mb_updated_at (im_updated_at m) (put mb_scim_resource_id (Some resourceID) row))))]>) d)
      end
  | None => Ok (0, d)
  end.

(** INSERT INTO domains ... ON CONFLICT (name) ... RETURNING id *)
Definition resolve_domain (id name : string) (d : DB) : result (string * DB) :=
  match upsert_domain id name d with
  | Err e => Err e
  | Ok (_, d') => match find_row (fun _ r => dm_name r =?s name) (db_domains d') with
                  | Some (k, _) => Ok (k, d')
                  | None => Err "sql: no rows in result set"
                  end
  end.

Definition scim_row (domainID local resourceID : string) (m : Mailbox) : MailboxRow :=
  put mb_scim_resource_id (Some resourceID) (mailbox_row domainID local m).

(** INSERT INTO mailboxes ... ON CONFLICT (id) DO UPDATE ... *)
Definition upsert_scim_mailbox (id resourceID : string) (row : MailboxRow) (d : DB) : result (unit * DB) :=
  match db_domains d !! mb_domain_id row,
        find_row (fun k r => negb (k =?s id) && (mb_domain_id r =?s mb_domain_id row)
                             && (mb_local_part r =?s mb_local_part row)) (db_mailboxes d) with
  | _, Some _ => Err duplicate
  | None, None => Err fk_insert
  | Some _, None =>
      if scim_id_taken id resourceID d then Err duplicate else
      let stored := match db_mailboxes d !! id with
                    | Some old => put mb_quota_bytes (mb_quota_bytes old)
                                    (put mb_created_at (mb_created_at old) row)
                    | None => row
                    end in
      Ok (tt, with_mailboxes (<[id := stored]>) d)
  end.

(** The sessions of the identities bound to the mailbox of a resource. *)
Definition revoke_sessions (resourceID : string) (now : Z) (d : DB) : result (unit * DB) :=
  let bound := map fst (bound_mailboxes resourceID d) in
  Ok (tt, with_sessions (fmap (fun s => if bool_decide (se_revoked_at s = None /\ se_identity_ref_id s ∈ bound)
                                        then put se_revoked_at (Some now) s else s)) d).
Definition revokeSessionsForSCIMID (resourceID : string) (now : Z) : T unit := exec (revoke_sessions resourceID now).

(** UPDATE tokens SET subject_id, scope_json WHERE kind='app_password' AND
    lower(subject_id)=lower($3) *)
Definition move_tokens (email previous : string) (d : DB) : result (unit * DB) :=
  Ok (tt, with_tokens (fmap (fun t =>
    if (tk_kind t =?s "app_password") && (sql_lower (tk_subject_id t) =?s sql_lower previous)
    then put tk_subject_id email (put tk_scope_json (marshal_strings ["mailbox:" +:+ email +:+ ":app_password"]) t)
    else t)) d).

Definition adopted (t : Transaction) (previous : string) : option Adoption :=
  match tx_adoption t with
  | Some a => if ad_consumed a && EqualFold previous (ad_mailbox a) then Some a else None
  | None => None
  end.

Definition persistMailbox (r : ScimRecord) (previous : string) (m : Mailbox) : T unit :=
  guardM (negb (bool_decide (ParseAddress (im_email m) = Some (im_email m)))) "SCIM mailbox address is invalid";;
  match SplitFirstByte "@" (im_email m) with
  | None => failM "SCIM mailbox address is invalid"
  | Some (local, domain) =>
      adoption ← txM (fun t => adopted t previous);
      match adoption with
      | Some a =>
          changed ← mapped (exec (update_adopted (ad_mailbox_id a) (sr_id r) m));
          guardM (negb (changed =? 1)) ErrConflict
      | None =>
          row ← (if previous =?s "" then mret None else select (fun d => Ok (Some (scim_mailbox (sr_id r) d))));
          mailboxID ← match row with
                      | None => mret (stableUUID ("scim-mailbox:" +:+ sr_id r))
                      | Some None => failM "sql: no rows in result set"
                      | Some (Some (id, _, _)) => mret id
                      end;
          domainID ← exec (resolve_domain (stableUUID ("domain:" +:+ domain)) domain);
          mapped (exec (upsert_scim_mailbox mailboxID (sr_id r) (scim_row domainID local (sr_id r) m)));;
          (if im_active m then mret tt else revokeSessionsForSCIMID (sr_id r) (im_updated_at m));;
          if (previous <>?s "") && negb (EqualFold previous (im_email m))
          then exec (move_tokens (im_email m) previous) else mret tt
      end
  end.

(** *** Audit *)

Definition scim_event (id : string) (now : Z) (md : RequestMetadata) (action : string) (before after : ScimRecord)
    : Event :=
  let shown r := if len (sr_data r) =? 0 then JNull else document_json (sr_data r) in
  {| ev_id := id; ev_time := now;
     ev_actor := {| actor_type := a_type (md_actor md); actor_id := a_id (md_actor md) |};
     ev_source := if (md_source_ip md =?s "") && (md_user_agent md =?s "") then None
                  else Some {| source_ip := md_source_ip md; source_user_agent := md_user_agent md |};
     ev_action := action;
     ev_resource := {| resource_type := "identity";
                       resource_id := if sr_id after =?s "" then sr_id before else sr_id after |};
     ev_before := shown before; ev_after := shown after; ev_correlation_id := md_correlation_id md;
     ev_result := "success"; ev_error_code := "" |}.

Definition scim_audit (action : string) (before after : ScimRecord) : T unit :=
  ids ← identityM;
  match ids with
  | None => mret tt
  | Some _ =>
      md ← txM tx_metadata;
      guardM ((a_type (md_actor md) <>?s "scim_client") || (a_id (md_actor md) =?s ""))
        "authenticated SCIM actor is required";;
      entropy ← entropyM;
      match entropy with
      | None => failM "rand: read failed"
      | Some bytes =>
          now ← nowM;
          exec (insert_audit (scim_event (newUUID (Some (fill 16 bytes))) now md action before after))
      end
  end.

(** *** Groups *)

Definition member_id (v : jval) : result string :=
  match v with
  | VObj fields =>
      let id := string_of (last_field "value" fields) in
      let kind := string_of (last_field "type" fields) in
      if (id =?s "") || ((kind <>?s "") && (kind <>?s "User"))
      then Err (ProtocolError 400 "invalidValue" "Group members must reference Users") else Ok id
  | _ => Err (ProtocolError 400 "invalidValue" "Group member is invalid")
  end.

Fixpoint member_ids (seen : gset string) (items : list jval) : result (list string) :=
  match items with
  | [] => Ok []
  | v :: items =>
      match member_id v with
      | Err e => Err e
      | Ok id =>
          if bool_decide (id ∈ seen) then Err (ProtocolError 409 "uniqueness" "Group member is duplicated") else
          match member_ids ({[id]} ∪ seen) items with
          | Ok l => Ok (id :: l)
          | Err e => Err e
          end
      end
  end.

Definition group_members (data : string) : result (list string) :=
  match DecodeDocument data with
  | None => Err "SCIM document is invalid"
  | Some document =>
      match document !! "members" with
      | None => Ok []
      | Some (VArr items) => member_ids ∅ items
      | Some _ => Err (ProtocolError 400 "invalidValue" "Group members are invalid")
      end
  end.

Definition live_users (scope : string) (ids : list string) (d : DB) : list string :=
  List.filter (fun id => match select_resource scope "User" id d with Some _ => true | None => false end) ids.

Definition delete_members (scope group : string) (d : DB) : result (unit * DB) :=
  Ok (tt, with_members (filter (fun m => ~ (m.1.1 = scope /\ m.1.2 = group))) d).

Definition member_rows (scope group : string) (ids : list string) : gset (string * string * string) :=
  list_to_set (map (fun id => (scope, group, id)) ids).

Definition insert_members (scope group : string) (ids : list string) (d : DB) : result (unit * DB) :=
  if existsb (fun id => (id =?s group) || negb (bounded 1 1024 id)) ids || negb (bounded 1 1024 group)
     || negb (bounded 1 1024 scope) then Err check_violated else
  if negb (length (live_users scope ids d) =? length ids) then Err fk_insert else
  match select_resource scope "Group" group d with
  | None => Err fk_insert
  | Some _ => Ok (tt, with_members (fun m => member_rows scope group ids ∪ m) d)
  end.

Definition replaceGroupMembers (r : ScimRecord) : T unit :=
  ids ← liftM (group_members (sr_data r));
  (if length ids =? 0 then mret tt else
   found ← select (fun d => Ok (live_users (sr_scope r) ids d));
   guardM (negb (length found =? length ids))
     (ProtocolError 409 "invalidValue" "Group member is not a live User in this scope"));;
  exec (delete_members (sr_scope r) (sr_id r));;
  if length ids =? 0 then mret tt else mapped (exec (insert_members (sr_scope r) (sr_id r) ids)).

(** *** Projections *)

(** [identity.AuthorizeProvision] and [identity.ValidateMailbox]. *)
Definition AuthorizeProvision (st : Service) (actor : Actor) (email : string) : option bool :=
  d_allow <$> Decide (is_authorizer st) actor "mailbox:provision" {| r_type := "mailbox"; r_id := email |}.

Definition authorize_provision (st : Service) (email : string) : T unit :=
  md ← txM tx_metadata;
  match AuthorizeProvision st (md_actor md) email with
  | None => failM nil_map_panic
  | Some allowed => guardM (negb allowed) (ProtocolError 403 "" "provisioning scope is not authorized")
  end.

Definition project (previous : string) (m : Mailbox) : T unit :=
  update_tx (fun t => put tx_project (tx_project t ++ [{| pj_previous := previous; pj_mailbox := m |}]) t).

Definition projectRecord (action : string) (before after : ScimRecord) : T unit :=
  if sr_type after =?s "Group" then replaceGroupMembers after;; scim_audit action before after else
  ids ← identityM;
  match ids with
  | None => mret tt
  | Some st =>
      if sr_type after <>?s "User" then mret tt else
      found ← mailboxFromRecord after;
      let '(m, previous) := found in
      authorize_provision st (im_email m);;
      guardM (negb (is_ok (validateMailbox st (im_email m))))
        (ProtocolError 400 "invalidValue" "userName violates mailbox policy");;
      persistMailbox after previous m;;
      project previous m;;
      scim_audit action before after
  end.

(** UPDATE mailboxes SET enabled=false, updated_at=$1 WHERE scim_resource_id=$2 *)
Definition disable_mailboxes (resourceID : string) (now : Z) (d : DB) : result (unit * DB) :=
  Ok (tt, with_mailboxes (fmap (fun m => if bool_decide (mb_scim_resource_id m = Some resourceID)
                                         then put mb_enabled false (put mb_updated_at now m) else m)) d).

Definition disableProjection (r : ScimRecord) (now : Z) : T unit :=
  ids ← identityM;
  match ids with
  | None => mret tt
  | Some st =>
      if sr_type r <>?s "User" then mret tt else
      found ← mailboxFromRecord r;
      let '(m, previous) := found in
      authorize_provision st (im_email m);;
      exec (disable_mailboxes (sr_id r) now);;
      revokeSessionsForSCIMID (sr_id r) now;;
      project previous (put im_updated_at now (put im_active false m))
  end.

(** *** Operations of a transaction *)

Definition Create (r : ScimRecord) : T unit :=
  guardM (negb (validateRecordShape r)) "SCIM record shape is invalid";;
  adoption ← txM tx_adoption;
  match adoption with
  | Some _ =>
      if sr_type r =?s "User" then
        owned ← select (fun d => Ok (subject_owned (sr_external_id r) d));
        guardM owned ErrConflict
      else mret tt
  | None => mret tt
  end;;
  gone ← select (fun d => Ok (reserved r d));
  guardM gone ErrTombstoned;;
  mapped (exec (insert_resource r));;
  replaceIndexes r;;
  projectRecord (scimAction (sr_type r) "create") no_record r.

Definition Replace (r : ScimRecord) (expectedVersion : string) : T unit :=
  guardM (negb (validateRecordShape r)) "SCIM record shape is invalid";;
  current ← Get (sr_scope r) (sr_type r) (sr_id r);
  guardM ((expectedVersion =?s "") || (sr_version current <>?s expectedVersion)) ErrPrecondition;;
  guardM (negb (sr_created r =? sr_created current)%Z || (sr_manager r <>?s sr_manager current))
    "SCIM record creation time and manager are immutable";;
  (if sr_external_id current <>?s sr_external_id r then
     bound ← select (fun d => Ok (identity_bound (sr_id r) d));
     guardM bound ErrConflict
   else mret tt);;
  exec (update_resource r);;
  replaceIndexes r;;
  projectRecord (scimAction (sr_type r) "replace") current r.

(** The tombstone names the deleted resource. *)
Definition tombstone_fits (scope type id : string) (current : ScimRecord) (t : Tombstone) : bool :=
  (tm_scope t =?s scope) && (tm_type t =?s type) && (tm_id t =?s id)
  && (tm_external_id t =?s sr_external_id current) && (tm_manager t =?s sr_manager current)
  && (tm_version t =?s sr_version current) && negb (tm_deleted t =? 0)%Z.

Definition Delete (scope type id expectedVersion : string) (t : Tombstone) : T unit :=
  current ← Get scope type id;
  guardM ((expectedVersion =?s "") || (sr_version current <>?s expectedVersion)) ErrPrecondition;;
  guardM (negb (tombstone_fits scope type id current t)) "SCIM tombstone does not match deleted resource";;
  (if type =?s "User" then
     member ← select (fun d => Ok (is_member scope id d));
     guardM member (ProtocolError 409 "" "User remains referenced by a Group")
   else mret tt);;
  disableProjection current (tm_deleted t);;
  mapped (exec (delete_resource scope type id));;
  mapped (exec (insert_tombstone t));;
  scim_audit (scimAction type "delete") current no_record.

Definition tombstone_le (p q : string * TombstoneRow) : Prop := sql_leb p.1 q.1 = true.
#[local] Instance tombstone_le_dec : RelDecision tombstone_le.
Proof. intros p q. unfold tombstone_le. apply _. Defined.

Definition Tombstones (scope type : string) : T (list Tombstone) :=
  rows ← select (fun d => Ok (merge_sort tombstone_le
    (List.filter (fun kv => (tb_scope kv.2 =?s scope) && (tb_type kv.2 =?s type)) (map_to_list (tombstones d)))));
  mret (map (fun kv => {| tm_scope := tb_scope kv.2; tm_type := tb_type kv.2; tm_id := kv.1;
    tm_external_id := tb_external_id kv.2; tm_manager := tb_manager kv.2; tm_version := tb_version kv.2;
    tm_deleted := tb_deleted kv.2 |}) rows).

Definition SetPassword (scope type id password : string) : T string :=
  guardM ((scope =?s "") || (type <>?s "User") || (id =?s "") || (len password =? 0))
    "SCIM password target is invalid";;
  h ← tryM (HashSecret password);
  match h with
  | Err _ => failM (ProtocolError 400 "invalidValue" "password does not meet mailbox policy")
  | Ok verifier =>
      let revision := raw_url_encode (Sha.sum256 (bytes_of verifier)) in
      update_tx (fun t => put tx_passwords (<[recordPasswordKey scope type id :=
        {| pw_change_verifier := verifier; pw_revision := revision |}]> (tx_passwords t)) t);;
      mret revision
  end.

(** ** Transactions *)

(** A call of the SCIM server on its transaction. *)
Inductive Call : Type -> Type :=
| call_get (scope type id : string) : Call ScimRecord
| call_list (q : Query) : Call (list ScimRecord)
| call_create (r : ScimRecord) : Call unit
| call_replace (r : ScimRecord) (version : string) : Call unit
| call_delete (scope type id version : string) (t : Tombstone) : Call unit
| call_tombstones (scope type : string) : Call (list Tombstone)
| call_password (scope type id password : string) : Call string.

Definition perform {A} (c : Call A) : T A :=
  match c with
  | call_get scope type id => Get scope type id
  | call_list q => ListRecords q
  | call_create r => Create r
  | call_replace r version => Replace r version
  | call_delete scope type id version t => Delete scope type id version t
  | call_tombstones scope type => Tombstones scope type
  | call_password scope type id password => SetPassword scope type id password
  end.

(** The callback: it ends with an error or without one, or calls an operation
    and goes on with its answer, errors included. *)
Inductive Callback :=
| finish (r : result unit)
| perform_then {A} (c : Call A) (k : result A -> Callback).

Fixpoint run_callback (f : Callback) : T unit :=
  match f with
  | finish r => liftM r
  | perform_then c k => r ← tryM (perform c); run_callback (k r)
  end.

Definition open_transaction (md : RequestMetadata) (adoption : option Adoption) : T unit :=
  update_tx (fun _ => {| tx_metadata := md; tx_passwords := ∅; tx_project := []; tx_adoption := adoption;
                         tx_aborted := false |}).

(** The claim of a transaction has been used, if it has one. *)
Definition claim_open (t : Transaction) : bool :=
  match tx_adoption t with Some a => negb (ad_consumed a) | None => false end.

Definition transact_body (md : RequestMetadata) (adoption : option Adoption) (f : Callback)
    : T (bool * list MailboxProjection) :=
  open_transaction md adoption;;
  mapped (run_callback f);;
  unused ← txM claim_open;
  guardM unused "legacy mailbox adoption claim was not consumed";;
  aborted ← txM tx_aborted;
  guardM aborted "pq: Could not complete operation in a failed transaction";;
  l ← txM tx_project;
  mret (true, l).

Definition apply_projections (l : list MailboxProjection) (st : Service) : Service :=
  foldl (fun st p => ApplySCIMMailbox (pj_previous p) (pj_mailbox p) st) st l.

(** [Transact], over a database and with a callback; the context is live. *)
Definition Transact (md : RequestMetadata) (adoption : option Adoption) (f : Callback) : T unit :=
  l ← transaction (transact_body md adoption f);
  extM (fun s => (Ok tt, put ss_identity (apply_projections l <$> ss_identity s) s)).
End Scim.
End scim.
