(* ===== verification/ScimFacts.v ===== *)
(** * What SCIM transactions keep

    Whatever the SCIM server asks for and whatever fails: identifiers are
    never used again, indexes and group members name live resources, unique
    attributes are unique; a replacement is conditional on the version it
    names; and a user that is disabled or deleted has lost its mailbox, its
    sessions and its mail login when the transaction has committed. *)

From stdpp Require Import base list gmap sets strings sorting.
From Stdlib Require Import ZArith Lia Ascii.
From S2P Require Import Prelude GoStd Json JsonText JsonStruct Sha256 Sha1 Policy Queue AuditLog Database Relay Daemon Verifier Lookup Tokens Authz Regex Approval Executor Telegram Identity Scim.
Import authz identity scim.
#[local] Existing Instances M_ret M_bind.

Create HintDb scim.

(** ** Effects from a known state *)

Section From.
Context {PS : Type} (R : relation DB) `{!PreOrder R}.

(** [effect] for the databases with a property. *)
Definition effect_from {A} (P : DB -> Prop) (m : M PS A) : Prop :=
  forall w, P (w_db w) -> R (w_db w) (w_db (m w).2).

Lemma effect_from_all {A} P (m : M PS A) : effect R m -> effect_from P m.
Proof. by intros H w _. Qed.

Lemma effect_all {A} (m : M PS A) : effect_from (fun _ => True) m -> effect R m.
Proof. intros H w. by apply H. Qed.

(** What the first part established is known to the rest. *)
Lemma effect_from_bind {A B} (P : DB -> Prop) (Q : A -> DB -> Prop) (m : M PS A) (k : A -> M PS B) :
  effect_from P m -> (forall w a w1, P (w_db w) -> m w = (Ok a, w1) -> Q a (w_db w1)) ->
  (forall a, effect_from (Q a) (k a)) -> effect_from P (m ≫= k).
Proof.
  intros Hm HQ Hk w HP. specialize (Hm w HP). rewrite bind_run.
  destruct (m w) as [[a|e] w1] eqn:E; cbn [snd] in *; [|done].
  etrans; [exact Hm|]. apply Hk. by eapply HQ.
Qed.

Lemma effect_from_exec {A} P (s : DB -> result (A * DB)) :
  (forall d a d', P d -> s d = Ok (a, d') -> R d d') -> effect_from P (execM (PS := PS) s).
Proof.
  intros Hs w HP. unfold execM. destruct (next_outcome w) as [o w1] eqn:E.
  apply next_outcome_db in E as [Hd _]. rewrite <- Hd in *.
  destruct o, (s (w_db w1)) as [[a d]|e] eqn:Es; cbn [snd w_db set_db]; first [by eapply Hs|done].
Qed.

Lemma effect_mono (R' : relation DB) {A} (m : M PS A) : subrelation R R' -> effect R m -> effect R' m.
Proof. intros HR H w. by apply HR. Qed.
End From.

(** ** Statements and transactions *)

Section Statements.
Context `{HOST : !Host} `{MAIL : !MailParser} `{ORDER : !MapOrder} `{KDF : !Pbkdf2} `{CODEC : !ScimCodec}.
Implicit Types (w : World SQLStore) (d : DB).

Lemma effect_statement R `{!PreOrder R} {A} (m : M SQLStore A) : effect R m -> effect R (statement m).
Proof. intros H. unfold statement, txM, update_tx. repeat first [exact H|effect_step]. Qed.
Lemma effect_select R `{!PreOrder R} {A} (q : DB -> result A) : effect R (select q).
Proof. apply effect_statement; [apply _|]. by apply effect_query. Qed.
Lemma effect_stmt R `{!PreOrder R} {A} (s : DB -> result (A * DB)) :
  (forall d a d', s d = Ok (a, d') -> R d d') -> effect R (exec s).
Proof. intros H. apply effect_statement; [apply _|]. by apply effect_exec. Qed.
Lemma effect_mapped R `{!PreOrder R} {A} (m : M SQLStore A) : effect R m -> effect R (mapped m).
Proof. intros H. unfold mapped. repeat first [exact H|effect_step]. Qed.
Lemma effect_txM R `{!PreOrder R} {A} (f : Transaction -> A) : effect R (txM f).
Proof. by apply effect_ext. Qed.
Lemma effect_update_tx R `{!PreOrder R} f : effect R (update_tx f).
Proof. by apply effect_ext. Qed.
Lemma effect_identityM R `{!PreOrder R} : effect R identityM.
Proof. by apply effect_ext. Qed.

(** A statement, run: it fails at once in an aborted transaction, and aborts
    it by failing. *)
Lemma txM_run {A} (f : Transaction -> A) w : txM f w = (Ok (f (ss_tx (w_ext w))), w).
Proof. by destruct w. Qed.
Lemma statement_run {A} (m : M SQLStore A) w : statement m w =
  if tx_aborted (ss_tx (w_ext w)) then (Err "current transaction is aborted", w) else
  match m w with
  | (Ok a, w1) => (Ok a, w1)
  | (Err e, w1) => (Err e, set_ext (put ss_tx (put tx_aborted true (ss_tx (w_ext w1))) (w_ext w1)) w1)
  end.
Proof.
  unfold statement. rewrite bind_run, txM_run. destruct (tx_aborted _); [done|].
  unfold tryM, guardM, mbind, M_bind, mret, M_ret. cbv beta iota. by destruct (m w) as [[a|e] w1].
Qed.

Lemma mapped_run {A} (m : M SQLStore A) w : mapped m w =
  match m w with (Ok a, w1) => (Ok a, w1) | (Err e, w1) => (Err (mapStoreError e), w1) end.
Proof. unfold mapped, tryM, mbind, M_bind, mret, M_ret. by destruct (m w) as [[a|e] w1]. Qed.

(** A program that leaves a part of the store alone. *)
Definition keeps_part {X A} (part : SQLStore -> X) (m : M SQLStore A) : Prop :=
  forall w, part (w_ext (m w).2) = part (w_ext w).

Section KeepsPart.
Context {X : Type} (part : SQLStore -> X).
Hypothesis part_aborted : forall s, part (put ss_tx (put tx_aborted true (ss_tx s)) s) = part s.

Lemma part_ext {A} (m : M SQLStore A) : keeps_ext m -> keeps_part part m.
Proof. intros H w. by rewrite H. Qed.
Lemma part_bind {A B} (m : M SQLStore A) (k : A -> M SQLStore B) :
  keeps_part part m -> (forall a, keeps_part part (k a)) -> keeps_part part (m ≫= k).
Proof.
  intros Hm Hk w. specialize (Hm w). rewrite bind_run. destruct (m w) as [[a|e] w1]; [|done].
  rewrite Hk. exact Hm.
Qed.
Lemma part_try {A} (m : M SQLStore A) : keeps_part part m -> keeps_part part (tryM m).
Proof. intros H w. specialize (H w). unfold tryM. by destruct (m w). Qed.
Lemma part_mapped {A} (m : M SQLStore A) : keeps_part part m -> keeps_part part (mapped m).
Proof. intros H w. specialize (H w). rewrite mapped_run. by destruct (m w) as [[a|e] w1]. Qed.
Lemma part_statement {A} (m : M SQLStore A) : keeps_ext m -> keeps_part part (statement m).
Proof.
  intros H w. rewrite statement_run. destruct (tx_aborted _); [done|]. specialize (H w).
  destruct (m w) as [[a|e] w1]; cbn [snd] in *; [by rewrite H|]. cbn [w_ext set_ext]. by rewrite part_aborted, H.
Qed.
Lemma part_select {A} (q : DB -> result A) : keeps_part part (select q).
Proof. apply part_statement, keeps_query. Qed.
Lemma part_exec {A} (s : DB -> result (A * DB)) : keeps_part part (exec s).
Proof. apply part_statement, keeps_exec. Qed.
Lemma part_txM {A} (f : Transaction -> A) : keeps_part part (txM f).
Proof. intros w. by rewrite txM_run. Qed.
Lemma part_identityM : keeps_part part identityM.
Proof. intros [d o c e s]. done. Qed.
Lemma part_update_tx f : (forall s, part (put ss_tx (f (ss_tx s)) s) = part s) -> keeps_part part (update_tx f).
Proof. intros H w. apply H. Qed.
End KeepsPart.

End Statements.

Ltac scim_step_tac :=
  lazymatch goal with
  | |- effect ?R (select ?q) => apply (effect_select R q)
  | |- effect ?R (exec ?s) => apply (effect_stmt R s); solve [eauto with scim]
  | |- effect ?R (mapped ?m) => apply (effect_mapped R m)
  | |- effect ?R (txM ?f) => apply (effect_txM R f)
  | |- effect ?R (update_tx ?f) => apply (effect_update_tx R f)
  | |- effect ?R identityM => apply (effect_identityM R)
  | |- effect ?R (mbind ?k ?m) => apply (effect_bind R m k); [|intros ?]
  | |- effect ?R (tryM ?m) => apply (effect_try R m)
  | |- effect ?R (mret ?a) => apply (effect_ret R a)
  | |- effect ?R (failM ?e) => apply (effect_fail R e)
  | |- effect ?R (liftM ?r) => apply (effect_lift R r)
  | |- effect ?R (guardM ?b ?e) => apply (effect_guard R b e)
  | |- effect ?R nowM => apply (effect_now R)
  | |- effect ?R entropyM => apply (effect_entropy R)
  | |- effect _ (match ?x with _ => _ end) => destruct x
  | |- effect _ (let _ := _ in _) => cbv zeta
  | |- _ => solve [eauto with scim typeclass_instances]
  end.
Ltac solve_scim := repeat scim_step_tac.

Ltac part_step :=
  lazymatch goal with
  | |- keeps_part ?p (mbind ?k ?m) => apply (part_bind p m k); [|intros ?]
  | |- keeps_part ?p (select ?q) => apply (part_select p); done
  | |- keeps_part ?p (exec ?s) => apply (part_exec p); done
  | |- keeps_part ?p (mapped ?m) => apply (part_mapped p m)
  | |- keeps_part ?p (tryM ?m) => apply (part_try p m)
  | |- keeps_part ?p (txM ?f) => apply (part_txM p f)
  | |- keeps_part ?p (update_tx ?f) => apply (part_update_tx p f); done
  | |- keeps_part ?p identityM => apply part_identityM
  | |- keeps_part ?p (mret ?a) => apply part_ext, (keeps_ret a)
  | |- keeps_part ?p (failM ?e) => apply part_ext, (keeps_fail e)
  | |- keeps_part ?p (liftM ?r) => apply part_ext, (keeps_lift r)
  | |- keeps_part ?p (guardM ?b ?e) => apply part_ext, (keeps_guard b e)
  | |- keeps_part ?p nowM => apply part_ext, keeps_now
  | |- keeps_part ?p entropyM => apply part_ext, keeps_entropy
  | |- keeps_part _ (match ?x with _ => _ end) => destruct x
  | |- keeps_part _ (let _ := _ in _) => cbv zeta
  | |- _ => solve [eauto with scim]
  end.
Ltac solve_ids := repeat part_step.
Abbreviation keeps_project := (keeps_part (fun s => tx_project (ss_tx s))).

Section ScimFacts.
Context `{HOST : !Host} `{MAIL : !MailParser} `{ORDER : !MapOrder} `{KDF : !Pbkdf2} `{CODEC : !ScimCodec}.
Implicit Types (w : World SQLStore) (d : DB).

(** ** Well-formed SCIM tables *)

Record scim_wf d : Prop := {
  wf_tombstones : forall id, is_Some (tombstones d !! id) -> resources d !! id = None;
  wf_indexes : forall id folded i, indexes d !! (id, folded) = Some i ->
    is_Some (select_resource (ix_scope i) (ix_type i) id d);
  wf_unique : forall k1 i1 k2 i2, indexes d !! k1 = Some i1 -> indexes d !! k2 = Some i2 -> k1 <> k2 ->
    index_clash k1.2 i1 k2 i2 = false;
  wf_members : forall scope group user, (scope, group, user) ∈ members d ->
    is_Some (select_resource scope "Group" group d) /\ is_Some (select_resource scope "User" user d);
}.

Definition scim_step d d' : Prop := tombstones d ⊆ tombstones d' /\ (scim_wf d -> scim_wf d').

#[local] Instance scim_step_preorder : PreOrder scim_step.
Proof.
  split; [by intros d|]. intros d1 d2 d3 [T1 W1] [T2 W2]. split; [by etrans|auto].
Qed.

(** Statements on other tables. *)
Definition same_scim d d' : Prop := resources d' = resources d /\ tombstones d' = tombstones d
  /\ indexes d' = indexes d /\ members d' = members d.

Lemma same_step d d' : same_scim d d' -> scim_step d d'.
Proof.
  intros (R & T & I & M). split; [by rewrite T|]. intros [W1 W2 W3 W4].
  split; unfold select_resource; rewrite ?R, ?T, ?I, ?M; done.
Qed.

#[local] Instance same_scim_preorder : PreOrder same_scim.
Proof.
  split; [by intros d|]. intros d1 d2 d3 (R1 & T1 & I1 & M1) (R2 & T2 & I2 & M2).
  unfold same_scim. by rewrite R2, T2, I2, M2.
Qed.

Lemma select_eq scope type id d r : select_resource scope type id d = Some r <->
  resources d !! id = Some r /\ sm_scope r = scope /\ sm_type r = type.
Proof.
  unfold select_resource, at_key. destruct (resources d !! id) as [r'|]; cbn; [|naive_solver].
  destruct ((sm_scope r' =?s scope) && _) eqn:E; to_prop; naive_solver.
Qed.

(** Resources that stay, with their scope and type. *)
Definition keeps_links d d' : Prop := forall id r, resources d !! id = Some r ->
  exists r', resources d' !! id = Some r' /\ sm_scope r' = sm_scope r /\ sm_type r' = sm_type r.

Lemma keeps_select d d' scope type id : keeps_links d d' ->
  is_Some (select_resource scope type id d) -> is_Some (select_resource scope type id d').
Proof.
  intros K [r (Hr & <- & <-)%select_eq]. destruct (K _ _ Hr) as (r' & Hr' & E1 & E2).
  exists r'. by rewrite select_eq.
Qed.

(** *** Each statement *)

Lemma step_insert_resource r d u d' : reserved r d = false -> insert_resource r d = Ok (u, d') -> scim_step d d'.
Proof.
  intros Hr. unfold insert_resource. destruct (negb _); [done|].
  destruct (resources d !! sr_id r) eqn:E; [done|]. intros [= _ <-].
  assert (keeps_links d (with_resources (<[sr_id r := row_of r]>) d)) as K.
  { intros id x Hx. exists x. unfold resources in *. cbn. rewrite lookup_insert_ne by congruence. done. }
  split; [done|]. intros [W1 W2 W3 W4]. split.
  - intros id H. unfold resources. cbn. rewrite lookup_insert. case_decide as Hid; [|by apply W1].
    subst id. unfold reserved in Hr. destruct H as [t Ht].
    change (tombstones d !! sr_id r = Some t) in Ht. by rewrite Ht in Hr.
  - intros id folded i Hi. eapply keeps_select; [exact K|]. by eapply W2.
  - exact W3.
  - intros scope group user Hm. destruct (W4 _ _ _ Hm). split; by eapply keeps_select.
Qed.

Lemma step_update_resource r d u d' : update_resource r d = Ok (u, d') -> scim_step d d'.
Proof.
  unfold update_resource. destruct (select_resource _ _ _ d) as [old|] eqn:E; [|by intros [= _ <-]].
  apply select_eq in E as (E & E1 & E2). destruct (negb _); [done|]. intros [= _ <-].
  match goal with |- scim_step d ?x => set (d' := x) end.
  assert (keeps_links d d') as K.
  { intros id x Hx. unfold resources in *. cbn. rewrite lookup_insert. case_decide; [|by exists x].
    subst id. eexists. split; [reflexivity|]. cbn. by simplify_eq. }
  split; [done|]. intros [W1 W2 W3 W4]. split.
  - intros id H. unfold resources. cbn. specialize (W1 id H).
    rewrite lookup_insert_ne; [done|]. intros <-. unfold resources in *. congruence.
  - intros id folded i Hi. eapply keeps_select; [exact K|]. by eapply W2.
  - exact W3.
  - intros scope group user Hm. destruct (W4 _ _ _ Hm). split; by eapply keeps_select.
Qed.

Lemma is_member_true scope id d : is_member scope id d = true <-> exists g, (scope, g, id) ∈ members d.
Proof.
  unfold is_member. rewrite existsb_exists. setoid_rewrite <- list_elem_of_In.
  setoid_rewrite elem_of_elements. split.
  - intros ([[s g] u] & H & E). cbn in E. apply andb_true_iff in E as [E1 E2]. to_prop. subst. by exists g.
  - intros (g & H). exists (scope, g, id). split; [done|]. cbn. by rewrite !eqs_refl.
Qed.

Lemma step_delete_resource scope type id d u d' : delete_resource scope type id d = Ok (u, d') ->
  scim_step d d' /\ (is_Some (select_resource scope type id d) -> resources d' !! id = None).
Proof.
  unfold delete_resource. destruct (select_resource _ _ _ d) as [old|] eqn:E.
  2: { intros [= _ <-]. split; [done|by intros [? ?]]. }
  apply select_eq in E as (E & E1 & E2). destruct (_ && _) eqn:Em; [done|]. intros [= _ <-].
  assert (forall i x, i <> id -> resources d !! i = Some x -> delete id (resources d) !! i = Some x) as K
    by (intros i x Hi Hx; by rewrite lookup_delete_ne).
  split; [|intros _; apply lookup_delete_eq]. split; [done|]. intros [W1 W2 W3 W4]. split.
  - intros i H. change (delete id (resources d) !! i = None). apply lookup_delete_None. right. by apply W1.
  - intros i folded x [Hx Hi]%map_lookup_filter_Some. cbn in Hi.
    destruct (W2 i folded x Hx) as [r (Hr & A & B)%select_eq]. exists r. apply select_eq.
    split; [by apply K|done].
  - intros k1 i1 k2 i2 [H1 _]%map_lookup_filter_Some [H2 _]%map_lookup_filter_Some. by apply W3.
  - intros s g m [Hne Hm]%elem_of_filter. cbn in Hne. change ((s, g, m) ∈ members d) in Hm.
    destruct (W4 _ _ _ Hm) as [[x1 (G & Gs & Gt)%select_eq] [x2 (U & Us & Ut)%select_eq]].
    assert (m <> id) as Hmi.
    { intros ->. assert (x2 = old) as -> by congruence. rewrite <- Us, E1 in Hm.
      assert (is_member scope id d = true) as Hx by (apply is_member_true; by exists g).
      rewrite Hx, <- E2, Ut in Em. done. }
    assert (g <> id) as Hgi.
    { intros ->. assert (x1 = old) as -> by congruence. apply Hne. split_and!; congruence. }
    split; [exists x1|exists x2]; apply select_eq; (split; [by apply K|done]).
Qed.

Lemma insert_tombstone_ok t d u d' : insert_tombstone t d = Ok (u, d') ->
  tombstones d !! tm_id t = None /\ d' = with_tombstones (<[tm_id t := tombstone_row t]>) d.
Proof.
  unfold insert_tombstone. destruct (negb _); [done|]. destruct (tombstones d !! tm_id t); [done|].
  destruct (find_row _ _); [done|]. by intros [= _ <-].
Qed.

Lemma step_insert_tombstone t d u d' : resources d !! tm_id t = None ->
  insert_tombstone t d = Ok (u, d') -> scim_step d d'.
Proof.
  intros Hr [E ->]%insert_tombstone_ok.
  split; [by apply insert_subseteq|]. intros [W1 W2 W3 W4]. split; [|exact W2|exact W3|exact W4].
  intros id H. change (is_Some (<[tm_id t := tombstone_row t]> (tombstones d) !! id)) in H.
  change (resources d !! id = None). destruct (decide (tm_id t = id)) as [<-|Hne]; [done|].
  rewrite lookup_insert_ne in H by done. by apply W1.
Qed.

Lemma fewer_indexes (P : (string * string) * ScimIndexRow -> Prop) `{!forall x, base.Decision (P x)} d : scim_step d (with_indexes (filter P) d).
Proof.
  split; [done|]. intros [W1 W2 W3 W4]. split; [exact W1| | |exact W4].
  - intros id folded i [Hi _]%map_lookup_filter_Some. by eapply W2.
  - intros k1 i1 k2 i2 [H1 _]%map_lookup_filter_Some [H2 _]%map_lookup_filter_Some. by apply W3.
Qed.

Lemma step_delete_indexes r d u d' : delete_indexes r d = Ok (u, d') -> scim_step d d'.
Proof. intros [= _ <-]. apply fewer_indexes. Qed.

Lemma step_insert_contract key v d u d' : insert_contract key v d = Ok (u, d') -> scim_step d d'.
Proof.
  unfold insert_contract. destruct (contracts d !! key); intros [= _ <-]; [done|]. by apply same_step.
Qed.

Lemma clash_symmetric k1 i1 k2 i2 : index_clash k1 i1 k2 i2 = true ->
  index_clash k2.2 i2 (k2.1, k1) i1 = true.
Proof.
  unfold index_clash. intros H. repeat (apply andb_true_iff in H as [H ?]).
  repeat match goal with H : (_ =?s _) = true |- _ => apply eqs_true in H end.
  repeat match goal with H : Bool.eqb _ _ = true |- _ => apply Bool.eqb_prop in H end.
  repeat (apply andb_true_iff; split); try done; cbn; try apply eqs_true; try congruence.
  - apply Bool.eqb_true_iff. congruence.
  - destruct (ix_case_exact i1) eqn:E1, (ix_case_exact i2) eqn:E2; try congruence; apply eqs_true;
      repeat match goal with H : (_ =?s _) = true |- _ => apply eqs_true in H end; congruence.
Qed.

Lemma step_insert_index id folded new d u d' : insert_index id folded new d = Ok (u, d') -> scim_step d d'.
Proof.
  unfold insert_index. destruct (negb _); [done|]. destruct (indexes d !! (id, folded)) eqn:E; [done|].
  destruct (existsb _ _) eqn:Ec; [done|]. destruct (select_resource _ _ id d) as [r|] eqn:Es; [|done].
  intros [= _ <-].
  assert (forall k i, indexes d !! k = Some i -> index_clash folded new k i = false) as Hc.
  { intros k i Hi. apply not_true_is_false. intros Hx.
    assert (existsb (fun kv => index_clash folded new kv.1 kv.2) (map_to_list (indexes d)) = true) as Ht.
    { apply existsb_exists. exists (k, i). split; [|done]. by apply list_elem_of_In, elem_of_map_to_list. }
    congruence. }
  split; [done|]. intros [W1 W2 W3 W4]. split; [exact W1| | |exact W4].
  - intros i f x H. change (<[(id, folded) := new]> (indexes d) !! (i, f) = Some x) in H.
    change (is_Some (select_resource (ix_scope x) (ix_type x) i d)).
    rewrite lookup_insert in H. case_decide; [|by eapply W2]. simplify_eq. by exists r.
  - intros k1 i1 k2 i2 H1 H2 Hne.
    change (<[(id, folded) := new]> (indexes d) !! k1 = Some i1) in H1.
    change (<[(id, folded) := new]> (indexes d) !! k2 = Some i2) in H2.
    rewrite lookup_insert in H1. rewrite lookup_insert in H2.
    destruct (decide ((id, folded) = k1)) as [<-|], (decide ((id, folded) = k2)) as [<-|]; simplify_eq; auto.
    apply not_true_is_false. intros Hx. destruct k1 as [a b]. apply clash_symmetric in Hx. cbn in Hx.
    specialize (Hc (a, b) i1 H1). unfold index_clash in *. cbn in *. congruence.
Qed.

Lemma step_delete_members scope group d u d' : delete_members scope group d = Ok (u, d') -> scim_step d d'.
Proof.
  intros [= _ <-]. split; [done|]. intros [W1 W2 W3 W4]. split; [exact W1|exact W2|exact W3|].
  intros s g m [_ Hm]%elem_of_filter. by apply W4.
Qed.

Lemma live_all scope ids d : length (live_users scope ids d) = length ids ->
  forall id, id ∈ ids -> is_Some (select_resource scope "User" id d).
Proof.
  unfold live_users. induction ids as [|x ids IH]; [by intros _ id ?%not_elem_of_nil|].
  cbn [List.filter]. destruct (select_resource scope "User" x d) as [r|] eqn:E; cbn [length].
  - intros [= H] id [->|Hid]%elem_of_cons; [by exists r|by apply IH].
  - intros H. exfalso. match type of H with length ?l = _ => assert (length l <= length ids) end.
    { apply filter_length_le. }
    lia.
Qed.

Lemma step_insert_members scope group ids d u d' : insert_members scope group ids d = Ok (u, d') ->
  scim_step d d'.
Proof.
  unfold insert_members. destruct (_ || _); [done|]. destruct (negb _) eqn:El; [done|].
  destruct (select_resource scope "Group" group d) as [r|] eqn:E; [|done]. intros [= _ <-].
  apply negb_false_iff, Nat.eqb_eq in El. pose proof (live_all _ _ _ El) as Hl.
  split; [done|]. intros [W1 W2 W3 W4]. split; [exact W1|exact W2|exact W3|].
  intros s g m [Hm|Hm]%elem_of_union; [|by apply W4].
  unfold member_rows in Hm. rewrite elem_of_list_to_set, list_elem_of_fmap in Hm.
  destruct Hm as (id & [= -> -> ->] & Hid).
  change (is_Some (select_resource scope "Group" group d) /\ is_Some (select_resource scope "User" id d)).
  split; [by exists r|by apply Hl].
Qed.

(** Statements on the other tables. *)
Lemma same_upsert_domain id name d u d' : upsert_domain id name d = Ok (u, d') -> same_scim d d'.
Proof.
  unfold upsert_domain. destruct (find_row _ _); [by intros [= _ <-]|].
  destruct (db_domains d !! id); [done|]. by intros [= _ <-].
Qed.
Lemma same_resolve id name d k d' : resolve_domain id name d = Ok (k, d') -> same_scim d d'.
Proof.
  unfold resolve_domain. destruct (upsert_domain id name d) as [[u d1]|e] eqn:E; [|done].
  destruct (find_row _ _) as [[k' r]|]; [|done]. intros [= _ <-]. by eapply same_upsert_domain.
Qed.
Lemma same_upsert_mailbox id rid row d u d' : upsert_scim_mailbox id rid row d = Ok (u, d') -> same_scim d d'.
Proof.
  unfold upsert_scim_mailbox. destruct (db_domains d !! _), (find_row _ _); try done.
  destruct (scim_id_taken id rid d); [done|]. by intros [= _ <-].
Qed.
Lemma same_adopted id rid m d n d' : update_adopted id rid m d = Ok (n, d') -> same_scim d d'.
Proof.
  unfold update_adopted. destruct (db_mailboxes d !! id) as [row|]; [|by intros [= _ <-]].
  destruct (mb_scim_resource_id row); [by intros [= _ <-]|]. destruct (scim_id_taken id rid d); [done|].
  by intros [= _ <-].
Qed.
Lemma same_sessions rid now d u d' : revoke_sessions rid now d = Ok (u, d') -> same_scim d d'.
Proof. by intros [= _ <-]. Qed.
Lemma same_tokens email previous d u d' : move_tokens email previous d = Ok (u, d') -> same_scim d d'.
Proof. by intros [= _ <-]. Qed.
Lemma same_disable rid now d u d' : disable_mailboxes rid now d = Ok (u, d') -> same_scim d d'.
Proof. by intros [= _ <-]. Qed.
Lemma same_audit e d u d' : insert_audit e d = Ok (u, d') -> same_scim d d'.
Proof. unfold insert_audit. destruct (existsb _ _); [done|]. by intros [= _ <-]. Qed.

(** *** The operations *)

#[local] Hint Resolve same_resolve same_upsert_mailbox same_adopted same_sessions same_tokens same_disable
  same_audit step_update_resource step_delete_indexes step_insert_contract step_insert_index
  step_delete_members step_insert_members : scim.

Lemma same_mailboxFromRecord r : effect same_scim (mailboxFromRecord r).
Proof. unfold mailboxFromRecord, active_value, consume_adoption. solve_scim. Qed.
Lemma same_persist r previous m : effect same_scim (persistMailbox r previous m).
Proof. unfold persistMailbox, revokeSessionsForSCIMID. solve_scim. Qed.
Lemma same_scim_audit action before after : effect same_scim (scim_audit action before after).
Proof. unfold scim_audit. solve_scim. Qed.
#[local] Hint Resolve same_mailboxFromRecord same_persist same_scim_audit : scim.
Lemma same_disableProjection r now : effect same_scim (disableProjection r now).
Proof. unfold disableProjection, authorize_provision, project, revokeSessionsForSCIMID. solve_scim. Qed.
Lemma same_Get scope type id : effect same_scim (Get scope type id).
Proof. unfold Get, loadIndexesByID. solve_scim. Qed.

Lemma step_of {A} (m : M SQLStore A) : effect same_scim m -> effect scim_step m.
Proof. apply effect_mono. exact same_step. Qed.

Lemma step_replaceIndexes r : effect scim_step (replaceIndexes r).
Proof.
  unfold replaceIndexes. scim_step_tac; [solve_scim|]. generalize 0. induction (sr_indexes r) as [|i l IH];
    intros n; cbn [replace_each]; [solve_scim|]. scim_step_tac; [unfold replace_index; solve_scim|apply IH].
Qed.

Lemma step_projectRecord action before after : effect scim_step (projectRecord action before after).
Proof.
  unfold projectRecord, replaceGroupMembers, authorize_provision, project.
  pose proof (step_of _ (same_mailboxFromRecord after)). pose proof (step_of _ (same_scim_audit action before after)).
  assert (forall p m, effect scim_step (persistMailbox after p m)) by (intros; apply step_of, same_persist).
  solve_scim.
Qed.

Lemma statement_ok {A} (m : M SQLStore A) w a w1 : statement m w = (Ok a, w1) -> m w = (Ok a, w1).
Proof. rewrite statement_run. destruct (tx_aborted _); [done|]. by destruct (m w) as [[x|err] w2]. Qed.

Lemma select_ok {A} (q : DB -> result A) w a w1 : select q w = (Ok a, w1) ->
  q (w_db w) = Ok a /\ w_db w1 = w_db w /\ w_ext w1 = w_ext w.
Proof. intros H. apply statement_ok in H. by apply queryM_ok. Qed.

Lemma exec_ok {A} (s : DB -> result (A * DB)) w a w1 : exec s w = (Ok a, w1) ->
  s (w_db w) = Ok (a, w_db w1) /\ w_ext w1 = w_ext w.
Proof. intros H. apply statement_ok in H. by apply execM_ok. Qed.

Lemma mapped_ok {A} (m : M SQLStore A) w a w1 : mapped m w = (Ok a, w1) -> m w = (Ok a, w1).
Proof. rewrite mapped_run. by destruct (m w) as [[x|e] w2]. Qed.

Lemma txM_ok {A} (f : Transaction -> A) w a w1 : txM f w = (Ok a, w1) -> a = f (ss_tx (w_ext w)) /\ w1 = w.
Proof. rewrite txM_run. by intros [= <- <-]. Qed.
Lemma identityM_ok w a w1 : identityM w = (Ok a, w1) -> a = ss_identity (w_ext w) /\ w1 = w.
Proof. unfold identityM, extM. destruct w. cbn. by intros [= <- <-]. Qed.
Lemma update_tx_ok f w u w1 : update_tx f w = (Ok u, w1) -> w1 = set_ext (put ss_tx (f (ss_tx (w_ext w))) (w_ext w)) w.
Proof. unfold update_tx, extM. by intros [= _ <-]. Qed.

(** A part that leaves the SCIM tables alone, before one that knows them. *)
Lemma from_same {A B} (P : DB -> Prop) (m : M SQLStore A) (k : A -> M SQLStore B) :
  (forall d d', same_scim d d' -> P d -> P d') -> effect same_scim m ->
  (forall a, effect_from scim_step P (k a)) -> effect_from scim_step P (m ≫= k).
Proof.
  intros HP Hm Hk. apply (effect_from_bind scim_step P (fun _ => P)); [| |exact Hk].
  - apply effect_from_all, step_of, Hm.
  - intros w a w1 H E. apply (HP (w_db w)); [|done]. specialize (Hm w). by rewrite E in Hm.
Qed.

Lemma from_select {A B} (P : DB -> Prop) (q : DB -> result A) (k : A -> M SQLStore B) :
  (forall a, effect_from scim_step (fun d => P d /\ q d = Ok a) (k a)) ->
  effect_from scim_step P (select q ≫= k).
Proof.
  intros Hk. apply (effect_from_bind scim_step P (fun a d => P d /\ q d = Ok a)); [| |exact Hk].
  - apply effect_from_all. apply effect_select; apply _.
  - intros w a w1 HP H. apply select_ok in H as (Hq & Hd & _). rewrite Hd. by split.
Qed.

Lemma from_guard {B} (P : DB -> Prop) bad e (k : unit -> M SQLStore B) :
  (bad = false -> effect_from scim_step P (k tt)) -> effect_from scim_step P (guardM bad e ≫= k).
Proof. intros Hk w HP. destruct bad; [done|]. by apply Hk. Qed.

Lemma from_exec (P : DB -> Prop) {A} (s : DB -> result (A * DB)) :
  (forall d a d', P d -> s d = Ok (a, d') -> scim_step d d') -> effect_from scim_step P (mapped (exec s)).
Proof.
  intros H w HP. pose proof (effect_from_exec scim_step P s H w HP) as Hw.
  unfold exec. rewrite mapped_run, statement_run. destruct (tx_aborted _); [done|].
  by destruct (execM s w) as [[a|err] w2].
Qed.

Lemma step_Create r : effect scim_step (Create r).
Proof.
  unfold Create. apply effect_bind; [apply _|solve_scim|]. intros _.
  apply effect_bind; [apply _|solve_scim|]. intros adoption.
  apply effect_bind; [apply _| |].
  { solve_scim. }
  intros _. apply effect_all. apply from_select. intros gone. apply from_guard. intros ->.
  apply (effect_from_bind scim_step _ (fun _ _ => True)); [|done|].
  - apply from_exec. intros d u d' [_ [= Hr]]. by apply step_insert_resource.
  - intros _. apply effect_from_all. apply effect_bind; [apply _|apply step_replaceIndexes|]. intros _.
    apply step_projectRecord.
Qed.

Lemma step_Replace r version : effect scim_step (Replace r version).
Proof.
  unfold Replace. pose proof (step_of _ (same_Get (sr_scope r) (sr_type r) (sr_id r))).
  pose proof (step_replaceIndexes r).
  assert (forall b, effect scim_step (projectRecord (scimAction (sr_type r) "replace") b r))
    by (intros b; apply step_projectRecord).
  solve_scim.
Qed.

Lemma Get_ok scope type id w r w1 : Get scope type id w = (Ok r, w1) ->
  w_db w1 = w_db w /\ w_ext w1 = w_ext w /\ exists row l, select_resource scope type id (w_db w) = Some row
    /\ r = with_indexes_of l (scanRecord id row).
Proof.
  unfold Get. intros H. apply bind_ok in H as (row & w2 & (E & D & X)%select_ok & H). injection E as <-.
  destruct (select_resource scope type id (w_db w)) as [row|] eqn:Er; [|done].
  apply bind_ok in H as (l & w3 & H3 & H). injection H as <- <-.
  unfold loadIndexesByID in H3. cbn [length Nat.eqb] in H3. apply select_ok in H3 as (_ & D3 & X3).
  split_and!; [congruence..|]. by exists row, (l id).
Qed.

Lemma step_Delete scope type id version t : effect scim_step (Delete scope type id version t).
Proof.
  unfold Delete. apply effect_all.
  apply (effect_from_bind scim_step _ (fun _ d => is_Some (select_resource scope type id d)
    /\ (forall d', same_scim d d' -> is_Some (select_resource scope type id d')))).
  { apply effect_from_all, step_of, same_Get. }
  { intros w r w1 _ (D & _ & row & l & Hr & _)%Get_ok. rewrite D.
    split; [by rewrite Hr|]. intros d' (R & _). unfold select_resource in *. rewrite R, Hr. by eexists. }
  intros current. apply from_guard. intros _. apply from_guard. intros Hfit. apply negb_false_iff in Hfit.
  assert (tm_id t = id) as Hid by (unfold tombstone_fits in Hfit;
    repeat (apply andb_true_iff in Hfit as [Hfit ?]); to_prop; done).
  set (P := fun d => _ /\ _).
  assert (forall d d', same_scim d d' -> P d -> P d') as HP.
  { intros d d' Hs [_ H]. split; [by apply H|]. intros d2 H2. apply H. by etrans. }
  apply from_same; [exact HP|destruct (_ =?s _); solve_scim|]. intros _.
  apply from_same; [exact HP|apply same_disableProjection|]. intros _.
  apply (effect_from_bind scim_step _ (fun _ d => resources d !! id = None)).
  - apply from_exec. intros d u d' _ [H _]%step_delete_resource. exact H.
  - intros w u w1 [H _] (E & _)%mapped_ok%exec_ok. apply step_delete_resource in E as [_ E]. by apply E.
  - intros _. apply (effect_from_bind scim_step _ (fun _ _ => True)); [|done|].
    + apply from_exec. intros d u d' Hd. apply step_insert_tombstone. by rewrite Hid.
    + intros _. apply effect_from_all, step_of, same_scim_audit.
Qed.

Lemma step_perform {A} (c : Call A) : effect scim_step (perform c).
Proof.
  destruct c; cbn [perform].
  - apply step_of, same_Get.
  - unfold ListRecords, loadIndexesByID. solve_scim.
  - apply step_Create.
  - apply step_Replace.
  - apply step_Delete.
  - unfold Tombstones. solve_scim.
  - unfold SetPassword, HashSecret, randomToken. solve_scim.
Qed.

Lemma step_callback f : effect scim_step (run_callback f).
Proof.
  induction f as [r|A c k IH]; cbn [run_callback]; [solve_scim|].
  apply effect_bind; [apply _|apply effect_try, step_perform|exact IH].
Qed.

Lemma step_Transact md adoption f : effect scim_step (Transact md adoption f).
Proof.
  unfold Transact. apply effect_bind; [apply _| |intros l; apply effect_ext; apply _].
  apply effect_transaction; [apply _|]. unfold transact_body, open_transaction. pose proof (step_callback f).
  solve_scim.
Qed.

(** *** Histories *)

(** A transaction with any callback, or anything else that leaves the SCIM
    tables alone. *)
Inductive scim_call w : World SQLStore -> Prop :=
| call_transact md adoption f : scim_call w (Transact md adoption f w).2
| call_other w' : same_scim (w_db w) (w_db w') -> scim_call w w'.

(** C37: along every history of SCIM transactions, whatever the SCIM server
    calls, however it reacts to errors and whatever the database refuses or
    loses: no identifier is used again after its resource was deleted, each
    index row and each group membership names a live resource of its scope,
    no two resources share the value of a unique attribute, and tombstones
    stay for ever. *)
Theorem scim_invariant w w' :
  scim_wf (w_db w) -> rtc scim_call w w' ->
  scim_wf (w_db w') /\ tombstones (w_db w) ⊆ tombstones (w_db w')
  /\ forall id, is_Some (tombstones (w_db w) !! id) -> resources (w_db w') !! id = None.
Proof.
  intros Hwf Hs. assert (scim_step (w_db w) (w_db w')) as [T W].
  { clear Hwf. induction Hs as [w1|w1 w2 w3 H _ IH]; [done|]. etrans; [|exact IH]. destruct H as [md ad f|w2 H].
    - apply step_Transact.
    - by apply same_step. }
  split_and!; [by apply W|exact T|]. intros id [t Ht]. apply (wf_tombstones _ (W Hwf)).
  exists t. by eapply lookup_weaken.
Qed.

(** ** Conditional replacement *)

Definition same_resources d d' : Prop := resources d' = resources d.
#[local] Instance same_resources_preorder : PreOrder same_resources.
Proof. split; [by intros d|]. unfold same_resources. intros d1 d2 d3 H1 H2. by rewrite H2. Qed.

Lemma resources_of {A} (m : M SQLStore A) : effect same_scim m -> effect same_resources m.
Proof. apply effect_mono. by intros d d' [H _]. Qed.

Lemma resources_insert_index id folded new d u d' : insert_index id folded new d = Ok (u, d') -> same_resources d d'.
Proof.
  unfold insert_index. destruct (negb _); [done|]. destruct (indexes d !! _); [done|].
  destruct (existsb _ _); [done|]. destruct (select_resource _ _ id d); [|done]. by intros [= _ <-].
Qed.
Lemma resources_contract key v d u d' : insert_contract key v d = Ok (u, d') -> same_resources d d'.
Proof. unfold insert_contract. destruct (contracts d !! key); by intros [= _ <-]. Qed.
Lemma resources_delete_indexes r d u d' : delete_indexes r d = Ok (u, d') -> same_resources d d'.
Proof. by intros [= _ <-]. Qed.
Lemma resources_delete_members s g d u d' : delete_members s g d = Ok (u, d') -> same_resources d d'.
Proof. by intros [= _ <-]. Qed.
Lemma resources_insert_members s g l d u d' : insert_members s g l d = Ok (u, d') -> same_resources d d'.
Proof.
  unfold insert_members. destruct (_ || _); [done|]. destruct (negb _); [done|].
  destruct (select_resource _ _ g d); [|done]. by intros [= _ <-].
Qed.
#[local] Hint Resolve resources_insert_index resources_contract resources_delete_indexes
  resources_delete_members resources_insert_members : scim.

Lemma resources_replaceIndexes r : effect same_resources (replaceIndexes r).
Proof.
  unfold replaceIndexes. scim_step_tac; [solve_scim|]. generalize 0. induction (sr_indexes r) as [|i l IH];
    intros n; cbn [replace_each]; [solve_scim|]. scim_step_tac; [unfold replace_index; solve_scim|apply IH].
Qed.
Lemma resources_projectRecord action before after : effect same_resources (projectRecord action before after).
Proof.
  unfold projectRecord, replaceGroupMembers, authorize_provision, project.
  pose proof (resources_of _ (same_mailboxFromRecord after)).
  pose proof (resources_of _ (same_scim_audit action before after)).
  assert (forall p m, effect same_resources (persistMailbox after p m)) by (intros; apply resources_of, same_persist).
  solve_scim.
Qed.

Lemma same_after {A} (m : M SQLStore A) w a w1 : effect same_resources m -> m w = (Ok a, w1) ->
  resources (w_db w1) = resources (w_db w).
Proof. intros H E. specialize (H w). by rewrite E in H. Qed.

Lemma Replace_refused r version w u w1 : Replace r version w = (Ok u, w1) ->
  version <> "" /\ exists row, select_resource (sr_scope r) (sr_type r) (sr_id r) (w_db w) = Some row
    /\ sm_version row = version /\ sm_created row = sr_created r /\ sm_manager row = sr_manager r.
Proof.
  unfold Replace. intros H. apply bind_ok in H as (_ & w2 & [_ ->]%guardM_ok & H).
  apply bind_ok in H as (current & w3 & (D3 & X3 & row & l & Hr & ->)%Get_ok & H).
  apply bind_ok in H as (_ & w4 & [Hv ->]%guardM_ok & H).
  apply bind_ok in H as (_ & w5 & [Hc ->]%guardM_ok & H). cbn in Hv, Hc.
  apply orb_false_iff in Hv as [Hv1 Hv2], Hc as [Hc1 Hc2]. apply negb_false_iff in Hc1. to_prop.
  split; [done|]. exists row. by split_and!.
Qed.

(** A replacement is conditional. One that succeeded found a resource of
    exactly the key and the non-empty version it names, kept its creation
    time and manager, stored the new content and version, and touched no
    other resource; so of two writers that read the same version only the
    first succeeds, if versions are fresh. *)
Theorem Replace_conditional r version w u w1 :
  Replace r version w = (Ok u, w1) ->
  (exists row, select_resource (sr_scope r) (sr_type r) (sr_id r) (w_db w) = Some row
     /\ version <> "" /\ sm_version row = version /\ sm_created row = sr_created r
     /\ sm_manager row = sr_manager r
     /\ resources (w_db w1) = <[sr_id r :=
          {| sm_scope := sr_scope r; sm_type := sr_type r; sm_external_id := sr_external_id r;
             sm_manager := sr_manager r; sm_version := sr_version r;
             sm_credential_version := sr_credential_version r; sm_created := sr_created r;
             sm_modified := UnixNano (sr_modified r); sm_data := sr_data r |}]> (resources (w_db w)))
  /\ forall r2 w2 u2 w3, sr_scope r2 = sr_scope r -> sr_type r2 = sr_type r -> sr_id r2 = sr_id r ->
       sr_version r <> version -> resources (w_db w2) = resources (w_db w1) ->
       Replace r2 version w2 <> (Ok u2, w3).
Proof.
  intros H. pose proof H as (Hv & row & Hr & Ev & Ec & Em)%Replace_refused.
  assert (exists new, resources (w_db w1) = <[sr_id r := new]> (resources (w_db w))
    /\ new = {| sm_scope := sr_scope r; sm_type := sr_type r; sm_external_id := sr_external_id r;
             sm_manager := sr_manager r; sm_version := sr_version r;
             sm_credential_version := sr_credential_version r; sm_created := sr_created r;
             sm_modified := UnixNano (sr_modified r); sm_data := sr_data r |}) as (new & En & ->).
  { unfold Replace in H. apply bind_ok in H as (_ & w2 & [_ ->]%guardM_ok & H).
    apply bind_ok in H as (current & w3 & (D3 & _)%Get_ok & H).
    apply bind_ok in H as (_ & w4 & [_ ->]%guardM_ok & H). apply bind_ok in H as (_ & w5 & [_ ->]%guardM_ok & H).
    apply bind_ok in H as (u6 & w6 & H6 & H).
    assert (resources (w_db w6) = resources (w_db w)) as R6.
    { rewrite <- D3. refine (same_after _ _ _ _ _ H6). clear H6. solve_scim. }
    apply bind_ok in H as (u7 & w7 & (E7 & _)%exec_ok & H).
    apply bind_ok in H as (u8 & w8 & H8 & H).
    pose proof (same_after _ _ _ _ (resources_replaceIndexes r) H8) as R8.
    pose proof (same_after _ _ _ _ (resources_projectRecord _ _ r) H) as R9.
    assert (select_resource (sr_scope r) (sr_type r) (sr_id r) (w_db w6) = Some row) as Hr6
      by (unfold select_resource in *; by rewrite R6).
    unfold update_resource in E7. rewrite Hr6 in E7. cbv zeta in E7. destruct (resource_check _ _); [cbn [negb] in E7|done]. injection E7 as _ E7.
    apply select_eq in Hr as (_ & K1 & K2).
    eexists. split; [|reflexivity]. rewrite R9, R8, <- E7, <- R6. unfold resources. cbn.
    by rewrite K1, K2, Em, Ec. }
  split; [by exists row|]. intros r2 w2 u2 w3 Hs Ht Hi Hne Hw (_ & row2 & Hr2 & Ev2 & _)%Replace_refused.
  rewrite Hs, Ht, Hi in Hr2. apply select_eq in Hr2 as (Hr2 & _). rewrite Hw, En, lookup_insert_eq in Hr2.
  injection Hr2 as <-. by apply Hne.
Qed.

(** ** All or nothing *)

Abbreviation keeps_ids := (keeps_part ss_identity).

Lemma ids_mailboxFromRecord r : keeps_ids (mailboxFromRecord r).
Proof. unfold mailboxFromRecord, active_value, consume_adoption. solve_ids. Qed.
Lemma ids_audit action before after : keeps_ids (scim_audit action before after).
Proof. unfold scim_audit. solve_ids. Qed.
Lemma ids_persist r previous m : keeps_ids (persistMailbox r previous m).
Proof. unfold persistMailbox, revokeSessionsForSCIMID. solve_ids. Qed.
Lemma ids_Get scope type id : keeps_ids (Get scope type id).
Proof. unfold Get, loadIndexesByID. solve_ids. Qed.
#[local] Hint Resolve ids_mailboxFromRecord ids_audit ids_persist ids_Get : scim.
Lemma ids_projectRecord action before after : keeps_ids (projectRecord action before after).
Proof. unfold projectRecord, replaceGroupMembers, authorize_provision, project. solve_ids. Qed.
Lemma ids_disableProjection r now : keeps_ids (disableProjection r now).
Proof. unfold disableProjection, authorize_provision, project, revokeSessionsForSCIMID. solve_ids. Qed.
Lemma ids_replaceIndexes r : keeps_ids (replaceIndexes r).
Proof.
  unfold replaceIndexes. part_step; [solve_ids|]. generalize 0. induction (sr_indexes r) as [|i l IH];
    intros n; cbn [replace_each]; [solve_ids|]. part_step; [unfold replace_index; solve_ids|apply IH].
Qed.
#[local] Hint Resolve ids_projectRecord ids_disableProjection ids_replaceIndexes : scim.

Lemma ids_perform {A} (c : Call A) : keeps_ids (perform c).
Proof.
  destruct c; cbn [perform].
  - apply ids_Get.
  - unfold ListRecords, loadIndexesByID. solve_ids.
  - unfold Create. solve_ids.
  - unfold Replace. solve_ids.
  - unfold Delete. solve_ids.
  - unfold Tombstones. solve_ids.
  - unfold SetPassword, HashSecret, randomToken. solve_ids.
Qed.

Lemma ids_callback f : keeps_ids (run_callback f).
Proof.
  induction f as [r|A c k IH]; cbn [run_callback]; [solve_ids|].
  apply part_bind; [apply part_try, ids_perform|exact IH].
Qed.

(** A run of the callback that can be committed: it ended without an error,
    no statement of it failed, and its claim on a mailbox was used. *)
Record committable md adoption f w (w2 : World SQLStore) : Prop := {
  cm_run : exists w1, w_db w1 = w_db w /\ ss_identity (w_ext w1) = ss_identity (w_ext w)
    /\ ss_tx (w_ext w1) = {| tx_metadata := md; tx_passwords := ∅; tx_project := []; tx_adoption := adoption;
                             tx_aborted := false |}
    /\ run_callback f w1 = (Ok tt, w2);
  cm_whole : tx_aborted (ss_tx (w_ext w2)) = false;
  cm_claim : claim_open (ss_tx (w_ext w2)) = false;
}.

Lemma body_ok md adoption f w0 w c l w2 : w_db w0 = w_db w -> w_ext w0 = w_ext w ->
  transact_body md adoption f w0 = (Ok (c, l), w2) ->
  c = true /\ l = tx_project (ss_tx (w_ext w2)) /\ committable md adoption f w w2
  /\ ss_identity (w_ext w2) = ss_identity (w_ext w).
Proof.
  intros D0 X0 H. unfold transact_body in H. apply bind_ok in H as (u1 & w1 & ->%update_tx_ok & H).
  apply bind_ok in H as ([] & w3 & H3%mapped_ok & H).
  apply bind_ok in H as (unused & w4 & [-> ->]%txM_ok & H). apply bind_ok in H as (u5 & w5 & [Hc ->]%guardM_ok & H).
  apply bind_ok in H as (ab & w6 & [-> ->]%txM_ok & H). apply bind_ok in H as (u7 & w7 & [Ha ->]%guardM_ok & H).
  apply bind_ok in H as (l' & w8 & [-> ->]%txM_ok & H). injection H as <- <- <-.
  pose proof (ids_callback f (set_ext (put ss_tx {| tx_metadata := md; tx_passwords := ∅; tx_project := [];
    tx_adoption := adoption; tx_aborted := false |} (w_ext w0)) w0)) as Hi. rewrite H3 in Hi. cbn in Hi.
  split_and!; [done|done| |by rewrite Hi, X0]. split; [|done|done]. eexists. split_and!; [| | |exact H3]; cbn; by rewrite ?X0.
Qed.

Lemma ids_body md adoption f : keeps_ids (transact_body md adoption f).
Proof. unfold transact_body, open_transaction. pose proof (ids_callback f). solve_ids. Qed.

(** A SCIM transaction is all or nothing. If it ends without an error, the
    database is the one its callback built without a failed statement and the
    identity service has exactly the projections of that run, in their order;
    if it ends with an error, the identity service is untouched and so is the
    database, unless only the answer to the commit of such a run was lost. *)
Theorem Transact_all_or_nothing md adoption f w r w' :
  Transact md adoption f w = (r, w') ->
  match r with
  | Ok _ => exists w2, committable md adoption f w w2 /\ w_db w' = w_db w2
      /\ ss_identity (w_ext w') = apply_projections (tx_project (ss_tx (w_ext w2))) <$> ss_identity (w_ext w)
  | Err e => ss_identity (w_ext w') = ss_identity (w_ext w)
      /\ (w_db w' = w_db w \/ e = driver_error /\ exists w2, committable md adoption f w w2 /\ w_db w' = w_db w2)
  end.
Proof.
  unfold Transact. rewrite bind_run. unfold transaction.
  destruct (next_outcome w) as [o w1] eqn:E. apply next_outcome_db in E as [D1 X1].
  destruct o; [|intros [= <- <-]; split; [by rewrite X1|by left]..].
  pose proof (ids_body md adoption f w1) as Hi. rewrite X1 in Hi.
  destruct (transact_body md adoption f w1) as [[[c l]|e] w2] eqn:Eb; cbn [snd] in Hi.
  2: { intros [= <- <-]. split; [exact Hi|by left]. }
  destruct (body_ok md adoption f w1 w c l w2 D1 X1 Eb) as (-> & -> & Hc & _).
  destruct (next_outcome w2) as [c w3] eqn:E3. apply next_outcome_db in E3 as [D3 X3]. destruct c.
  - intros [= <- <-]. exists w2. split_and!; [done|exact D3|]. cbn. by rewrite X3, Hi.
  - intros [= <- <-]. split; [cbn; by rewrite X3|by left].
  - intros [= <- <-]. split; [by rewrite X3|right]. split; [done|]. by exists w2.
Qed.

(** ** Deprovisioning *)

Lemma project_mailboxFromRecord r : keeps_project (mailboxFromRecord r).
Proof. unfold mailboxFromRecord, active_value, consume_adoption. solve_ids. Qed.

Lemma mailboxFromRecord_email r w m previous w1 : mailboxFromRecord r w = (Ok (m, previous), w1) ->
  exists document, DecodeDocument (sr_data r) = Some document
    /\ im_email m = ToLower (string_of (document !! "userName")) /\ im_id m = sr_id r.
Proof.
  unfold mailboxFromRecord. destruct (DecodeDocument (sr_data r)) as [document|]; [|done]. cbv zeta.
  intros H. exists document. split; [done|].
  apply bind_ok in H as (u2 & w2 & _ & H). apply bind_ok in H as (active & w3 & _ & H).
  apply bind_ok in H as (row & w4 & _ & H). apply bind_ok in H as (adoption & w5 & _ & H).
  apply bind_ok in H as ([[m' p] verifier] & w6 & H6 & H).
  apply bind_ok in H as (change & w7 & _ & H). injection H as <- _ _. cbn.
  assert (im_email m' = ToLower (string_of (document !! "userName")) /\ im_id m' = sr_id r) as [-> ->]; [|done].
  destruct row as [[[? address] v]|]; [by injection H6 as <- _ _ _|].
  destruct adoption as [a|]; [|by injection H6 as <- _ _ _].
  unfold consume_adoption in H6. apply bind_ok in H6 as (found & w8 & _ & H6).
  destruct found as [[[row' email'] enabled]|]; [|done].
  apply bind_ok in H6 as (? & w9 & _ & H6). apply bind_ok in H6 as (? & w10 & _ & H6).
  apply bind_ok in H6 as (? & w11 & _ & H6). by injection H6 as <- _ _ _.
Qed.

(** The mailboxes, identities and sessions. *)
Definition same_people d d' : Prop := db_mailboxes d' = db_mailboxes d
  /\ ac_identities (db_access d') = ac_identities (db_access d)
  /\ ac_sessions (db_access d') = ac_sessions (db_access d).
#[local] Instance same_people_preorder : PreOrder same_people.
Proof.
  split; [by intros d|]. intros d1 d2 d3 (A1 & B1 & C1) (A2 & B2 & C2). unfold same_people. by rewrite A2, B2, C2.
Qed.

Lemma people_delete scope type id d u d' : delete_resource scope type id d = Ok (u, d') -> same_people d d'.
Proof.
  unfold delete_resource. destruct (select_resource _ _ id d); [|by intros [= _ <-]].
  destruct (_ && _); [done|]. by intros [= _ <-].
Qed.
Lemma people_tombstone t d u d' : insert_tombstone t d = Ok (u, d') -> same_people d d'.
Proof. by intros [_ ->]%insert_tombstone_ok. Qed.
Lemma people_audit e d u d' : insert_audit e d = Ok (u, d') -> same_people d d'.
Proof. unfold insert_audit. destruct (existsb _ _); [done|]. by intros [= _ <-]. Qed.
#[local] Hint Resolve people_audit : scim.

(** A deleted user: its mailbox is disabled and its sessions are over. *)
Record deprovisioned (id : string) d : Prop := {
  dp_gone : resources d !! id = None;
  dp_tombstone : is_Some (tombstones d !! id);
  dp_mailboxes : forall k m, db_mailboxes d !! k = Some m -> mb_scim_resource_id m = Some id -> mb_enabled m = false;
  dp_sessions : forall k s, ac_sessions (db_access d) !! k = Some s ->
    se_identity_ref_id s ∈ map fst (bound_mailboxes id d) -> se_revoked_at s <> None;
}.

Lemma people_bound id d d' : same_people d d' -> bound_mailboxes id d' = bound_mailboxes id d.
Proof. intros (A & B & _). unfold bound_mailboxes. by rewrite A, B. Qed.

(** What the disabling of a user does to mailboxes and sessions. *)
Lemma disable_and_revoke id now d d1 d2 :
  disable_mailboxes id now d = Ok (tt, d1) -> revoke_sessions id now d1 = Ok (tt, d2) ->
  (forall k m, db_mailboxes d2 !! k = Some m -> mb_scim_resource_id m = Some id -> mb_enabled m = false)
  /\ (forall k s, ac_sessions (db_access d2) !! k = Some s ->
       se_identity_ref_id s ∈ map fst (bound_mailboxes id d2) -> se_revoked_at s <> None).
Proof.
  intros [= <-] [= <-]. split.
  - intros k m. cbn. rewrite lookup_fmap, fmap_Some. intros (m0 & _ & ->). case_bool_decide; [done|].
    by intros ?.
  - intros k s. cbn. rewrite lookup_fmap, fmap_Some. intros (s0 & Hs & ->).
    set (d1 := with_mailboxes _ d). change (bound_mailboxes id (with_sessions _ d1)) with (bound_mailboxes id d1).
    case_bool_decide as Hb; [done|]. intros Hin Hr. by apply Hb.
Qed.

Lemma disableProjection_ok r now w st u w1 : sr_type r = "User" -> ss_identity (w_ext w) = Some st ->
  disableProjection r now w = (Ok u, w1) ->
  (forall k m, db_mailboxes (w_db w1) !! k = Some m -> mb_scim_resource_id m = Some (sr_id r) -> mb_enabled m = false)
  /\ (forall k s, ac_sessions (db_access (w_db w1)) !! k = Some s ->
       se_identity_ref_id s ∈ map fst (bound_mailboxes (sr_id r) (w_db w1)) -> se_revoked_at s <> None)
  /\ exists document m previous, DecodeDocument (sr_data r) = Some document
       /\ im_email m = ToLower (string_of (document !! "userName")) /\ im_active m = false
       /\ tx_project (ss_tx (w_ext w1)) = tx_project (ss_tx (w_ext w)) ++ [{| pj_previous := previous; pj_mailbox := m |}].
Proof.
  intros Ht Hst H. unfold disableProjection in H.
  apply bind_ok in H as (ids & w2 & [-> ->]%identityM_ok & H). rewrite Hst, Ht in H. cbn [negb String.eqb Ascii.eqb Bool.eqb] in H.
  apply bind_ok in H as ([m previous] & w3 & H3 & H).
  pose proof (project_mailboxFromRecord r w) as P3. rewrite H3 in P3. cbn [snd] in P3.
  apply mailboxFromRecord_email in H3 as (document & Hdoc & Em & _).
  apply bind_ok in H as (u4 & w4 & H4 & H).
  assert (w4 = w3) as ->.
  { unfold authorize_provision in H4. apply bind_ok in H4 as (md & w5 & [-> ->]%txM_ok & H4).
    destruct (AuthorizeProvision _ _ _); [|done]. by apply guardM_ok in H4 as [_ ->]. }
  apply bind_ok in H as ([] & w5 & [E5 X5]%exec_ok & H).
  apply bind_ok in H as ([] & w6 & [E6 X6]%exec_ok & H). apply update_tx_ok in H as ->.
  destruct (disable_and_revoke _ _ _ _ _ E5 E6) as [Hm Hs]. split; [exact Hm|]. split; [exact Hs|].
  exists document, (put im_updated_at now (put im_active false m)), previous. split_and!; [done|exact Em|done|]. cbn. rewrite X6, X5. by f_equal.
Qed.

Lemma Delete_ok scope id version t w st u w1 : ss_identity (w_ext w) = Some st ->
  Delete scope "User" id version t w = (Ok u, w1) ->
  deprovisioned id (w_db w1)
  /\ exists row document m previous, select_resource scope "User" id (w_db w) = Some row
       /\ version <> "" /\ sm_version row = version
       /\ DecodeDocument (sm_data row) = Some document
       /\ im_email m = ToLower (string_of (document !! "userName")) /\ im_active m = false
       /\ tx_project (ss_tx (w_ext w1)) = tx_project (ss_tx (w_ext w)) ++ [{| pj_previous := previous; pj_mailbox := m |}].
Proof.
  intros Hst H. pose proof (step_Delete scope "User" id version t w) as _. unfold Delete in H.
  apply bind_ok in H as (current & w2 & (D2 & X2 & row & l & Hr & ->)%Get_ok & H).
  apply bind_ok in H as (u3 & w3 & [Hv ->]%guardM_ok & H). apply bind_ok in H as (u4 & w4 & [Hf ->]%guardM_ok & H).
  apply negb_false_iff in Hf. assert (tm_id t = id) as Hid by (unfold tombstone_fits in Hf;
    repeat (apply andb_true_iff in Hf as [Hf ?]); to_prop; done).
  cbn in Hv. apply orb_false_iff in Hv as [Hv1 Hv2]. apply negb_false_iff in Hv2. to_prop.
  apply bind_ok in H as (u5 & w5 & H5 & H). assert (w_db w5 = w_db w2 /\ w_ext w5 = w_ext w2) as [D5 X5].
  { apply bind_ok in H5 as (b & w6 & (_ & D6 & X6)%select_ok & H5). by apply guardM_ok in H5 as [_ ->]. }
  apply bind_ok in H as (u6 & w6 & H6 & H).
  pose proof (same_disableProjection (with_indexes_of l (scanRecord id row)) (tm_deleted t) w5) as S6.
  rewrite H6 in S6. cbn [snd] in S6. destruct S6 as (R6 & _). rewrite D5, D2 in R6.
  apply (disableProjection_ok _ _ _ st) in H6 as (Hm & Hs & document & m & previous & Hdoc & Em & Ea & Ep);
    [|by apply select_eq in Hr as (_ & _ & ?)|by rewrite X5, X2].
  apply bind_ok in H as ([] & w7 & [E7 X7]%mapped_ok%exec_ok & H).
  apply bind_ok in H as ([] & w8 & [E8 X8]%mapped_ok%exec_ok & H).
  pose proof (same_scim_audit (scimAction "User" "delete") (with_indexes_of l (scanRecord id row)) no_record w8) as S9.
  assert (effect same_people (scim_audit (scimAction "User" "delete") (with_indexes_of l (scanRecord id row)) no_record)) as P9
    by (unfold scim_audit; solve_scim).
  specialize (P9 w8). rewrite H in S9, P9. cbn [snd] in S9, P9. destruct S9 as (R9 & T9 & _).
  assert (same_people (w_db w6) (w_db w1)) as P.
  { etrans; [by eapply people_delete|]. etrans; [by eapply people_tombstone|exact P9]. }
  assert (keeps_project (scim_audit (scimAction "User" "delete") (with_indexes_of l (scanRecord id row)) no_record)) as A9
    by (unfold scim_audit; solve_ids).
  specialize (A9 w8). rewrite H in A9. cbn [snd] in A9. split.
  - split.
    + rewrite R9. apply step_delete_resource in E7 as [_ E7].
      apply insert_tombstone_ok in E8 as [_ ->]. apply E7.
      unfold select_resource in *. rewrite R6. by rewrite Hr.
    + rewrite T9. apply insert_tombstone_ok in E8 as [_ ->]. rewrite <- Hid.
      change (is_Some (<[tm_id t := tombstone_row t]> (tombstones (w_db w7)) !! tm_id t)).
      rewrite lookup_insert_eq. by eexists.
    + intros k x. destruct P as (-> & _). apply Hm.
    + intros k s. rewrite (people_bound id _ _ P). destruct P as (_ & _ & ->). apply Hs.
  - exists row, document, m, previous. split_and!; [done|done|done|exact Hdoc|exact Em|done|].
    rewrite A9, X8, X7, Ep, X5, X2. done.
Qed.

(** The transaction of one call. *)
Definition one_call (c : Call unit) : Callback := perform_then c (fun r => finish r).

Lemma one_call_ok c w w2 : run_callback (one_call c) w = (Ok tt, w2) -> perform c w = (Ok tt, w2).
Proof.
  cbn [run_callback one_call]. rewrite bind_run. unfold tryM. destruct (perform c w) as [[[]|e] w1]; [|done].
  by intros [= <-].
Qed.

(** The projected mailbox is in the service, as active as it was given. *)
Lemma projected_mailbox previous m st : exists m', im_active m' = im_active m
  /\ is_mailboxes (ApplySCIMMailbox previous m st) !! ToLower (im_email m) = Some m'.
Proof.
  unfold ApplySCIMMailbox. cbv zeta.
  match goal with |- context [set_mailbox ?x _] => set (m1 := x) end.
  assert (im_active m1 = im_active m /\ im_email m1 = im_email m) as [Ea Ee].
  { unfold m1. destruct (is_mailboxes st !! _); [|done]. by destruct (im_verifier m =?s ""). }
  exists m1. split; [exact Ea|]. destruct (_ && _); unfold syncDaemonAppPasswords, on_daemon, set_mailbox,
    syncDaemonMailbox; cbn; rewrite Ee; apply lookup_insert_eq.
Qed.

(** A SCIM DELETE that has committed. *)
Lemma committed_delete md scope id version t w u w' st :
  ss_identity (w_ext w) = Some st ->
  Transact md None (one_call (call_delete scope "User" id version t)) w = (Ok u, w') ->
  deprovisioned id (w_db w')
  /\ exists row document st', select_resource scope "User" id (w_db w) = Some row
       /\ version <> "" /\ sm_version row = version
       /\ DecodeDocument (sm_data row) = Some document /\ ss_identity (w_ext w') = Some st'
       /\ let email := ToLower (string_of (document !! "userName")) in
          (exists m, is_mailboxes st' !! ToLower email = Some m /\ im_active m = false)
          /\ forall secret, VerifyDovecot st' email secret = false.
Proof.
  intros Hst H. unfold Transact in H. apply bind_ok in H as (l & w1 & H1 & H).
  apply transaction_ok in H1 as (w2 & c & w3 & Hb & D2 & X2 & X1 & D1).
  destruct (body_ok _ _ _ w2 w c l w3 D2 X2 Hb) as (-> & -> & [(w0 & D0 & I0 & T0 & R) _ _] & Hi).
  apply one_call_ok in R. cbn [perform] in R. rewrite Hst in I0.
  destruct (Delete_ok _ _ _ _ _ _ _ _ I0 R) as [Hd (row & document & m & p & Hr & Hv & Ev & Hdoc & Em & Ea & Ep)].
  injection H as _ <-. cbn [w_db set_ext]. rewrite D1. split; [exact Hd|].
  exists row, document. rewrite D0 in Hr. rewrite T0 in Ep. cbn in Ep.
  destruct (projected_mailbox p m st) as (m' & Em' & Hm'). rewrite Em in Hm'.
  exists (ApplySCIMMailbox p m st). split_and!; [done..| | |].
  - cbn. by rewrite X1, Hi, Hst, Ep.
  - exists m'. split; [exact Hm'|congruence].
  - intros secret. unfold VerifyDovecot. rewrite Hm', Em', Ea. done.
Qed.

(** C36: deleting a user cuts it off. When the transaction of a SCIM DELETE
    has committed, the resource of exactly the version it names is gone for
    ever, every mailbox it provisioned is disabled, every session of an OIDC
    identity bound to such a mailbox is revoked, and the identity service
    accepts no secret for the address of the user, neither its own password
    nor any application password. *)
Theorem delete_deprovisions md scope id version t w u w' st :
  ss_identity (w_ext w) = Some st ->
  Transact md None (one_call (call_delete scope "User" id version t)) w = (Ok u, w') ->
  deprovisioned id (w_db w')
  /\ exists row document st', select_resource scope "User" id (w_db w) = Some row
       /\ version <> "" /\ sm_version row = version
       /\ DecodeDocument (sm_data row) = Some document /\ ss_identity (w_ext w') = Some st'
       /\ let email := ToLower (string_of (document !! "userName")) in
          (exists m, is_mailboxes st' !! ToLower email = Some m /\ im_active m = false)
          /\ forall secret, VerifyDovecot st' email secret = false.
Proof. apply committed_delete. Qed.
End ScimFacts.
