(* ===== verification/ScimProjection.v ===== *)
(** * What the SCIM store projects onto the identity service

    The identity service takes a SCIM projection without a check of its own;
    its invariant needs the projected addresses to be canonical.  Here the store
    is shown to meet that: as long as the addresses of the mailbox rows and the
    user names of the stored and submitted User documents are canonical, every
    projection a transaction queues is one the service can take, so a
    transaction keeps the service and its daemon in step. *)

From stdpp Require Import base list gmap sets strings sorting relations.
From Stdlib Require Import ZArith Lia Ascii.
From S2P Require Import Prelude GoStd Json JsonText JsonStruct Sha256 Policy Queue AuditLog Database Relay Daemon Verifier Lookup Tokens Authz Regex Approval Executor Telegram Identity IdentityFacts IdentitySafety Scim ScimFacts.
Import authz identity scim.
#[local] Existing Instances M_ret M_bind.

Section ScimProjection.
Context `{HOST : !Host} `{MAIL : !MailParser} `{ORDER : !MapOrder} `{KDF : !Pbkdf2} `{CODEC : !ScimCodec}.
Context `{LAWS : !MapOrderLaws}.
Implicit Types (w : World SQLStore) (d : DB).

(** ** Canonical rows and documents *)

(** An address the service can be told to give up. *)
Definition plain_previous (a : string) : Prop := ToLower a = "" \/ normalizeAddress (ToLower a) = ToLower a.

(** A user name whose mailbox the service can keep, and give up again. *)
Definition canonical_name (userName : string) : Prop :=
  let email := ToLower userName in
  ToLower (ToLower email) = ToLower email /\ normal_address (ToLower email) /\ plain_previous (sql_lower email).

Definition canonical_document (data : string) : Prop := forall document,
  DecodeDocument data = Some document -> canonical_name (string_of (document !! "userName")).

Record canonical_store d : Prop := {
  cs_domain : forall k m, db_mailboxes d !! k = Some m -> is_Some (db_domains d !! mb_domain_id m);
  cs_address : forall k m a, db_mailboxes d !! k = Some m -> address_of d m = Some a ->
    plain_previous a /\ plain_previous (sql_lower a);
  cs_names : forall id row, resources d !! id = Some row -> sm_type row = "User" -> canonical_document (sm_data row);
}.

Definition keeps_canonical : relation DB := fun d d' => canonical_store d -> canonical_store d'.
#[local] Instance keeps_canonical_preorder : PreOrder keeps_canonical.
Proof. split; [intros d H; exact H|]. intros d1 d2 d3 H1 H2 H. apply H2, H1, H. Qed.

Lemma canonical_same d d' : db_mailboxes d' = db_mailboxes d -> db_domains d' = db_domains d ->
  resources d' = resources d -> keeps_canonical d d'.
Proof.
  intros E1 E2 E3 [C1 C2 C3]. split.
  - intros k m. rewrite E1, E2. apply C1.
  - intros k m a. unfold address_of. rewrite E1, E2. apply C2.
  - intros id row. rewrite E3. apply C3.
Qed.

(** *** Statements that touch neither *)

Lemma canonical_delete_indexes r d u d' : delete_indexes r d = Ok (u, d') -> keeps_canonical d d'.
Proof. intros [= _ <-]. by apply canonical_same. Qed.
Lemma canonical_insert_contract k v d u d' : insert_contract k v d = Ok (u, d') -> keeps_canonical d d'.
Proof. intros [= _ <-]. destruct (contracts d !! k); by apply canonical_same. Qed.
Lemma canonical_insert_index id f i d u d' : insert_index id f i d = Ok (u, d') -> keeps_canonical d d'.
Proof.
  unfold insert_index. destruct (negb _); [done|]. destruct (indexes d !! _); [done|]. destruct (existsb _ _); [done|].
  destruct (select_resource _ _ _ d); [|done]. intros [= _ <-]. by apply canonical_same.
Qed.
Lemma canonical_delete_members s g d u d' : delete_members s g d = Ok (u, d') -> keeps_canonical d d'.
Proof. intros [= _ <-]. by apply canonical_same. Qed.
Lemma canonical_insert_members s g l d u d' : insert_members s g l d = Ok (u, d') -> keeps_canonical d d'.
Proof.
  unfold insert_members. destruct (_ || _); [done|]. destruct (negb _); [done|].
  destruct (select_resource _ _ g d); [|done]. intros [= _ <-]. by apply canonical_same.
Qed.
Lemma canonical_tombstone t d u d' : insert_tombstone t d = Ok (u, d') -> keeps_canonical d d'.
Proof. intros [_ ->]%insert_tombstone_ok. by apply canonical_same. Qed.
Lemma canonical_tokens email previous d u d' : move_tokens email previous d = Ok (u, d') -> keeps_canonical d d'.
Proof. intros [= _ <-]. by apply canonical_same. Qed.
Lemma canonical_sessions rid now d u d' : revoke_sessions rid now d = Ok (u, d') -> keeps_canonical d d'.
Proof. intros [= _ <-]. by apply canonical_same. Qed.
Lemma canonical_audit e d u d' : insert_audit e d = Ok (u, d') -> keeps_canonical d d'.
Proof. unfold insert_audit. destruct (existsb _ _); [done|]. intros [= _ <-]. by apply canonical_same. Qed.

(** *** Statements on mailboxes *)

(** The rows change, their addresses do not. *)
Lemma canonical_rows f d :
  (forall k m', f (db_mailboxes d) !! k = Some m' -> exists k0 m, db_mailboxes d !! k0 = Some m
    /\ mb_domain_id m' = mb_domain_id m /\ mb_local_part m' = mb_local_part m) ->
  keeps_canonical d (with_mailboxes f d).
Proof.
  intros H [C1 C2 C3]. split; [| |exact C3].
  - intros k m' (k0 & m & Hm & E & _)%H. cbn. rewrite E. by eapply C1.
  - intros k m' a (k0 & m & Hm & E1 & E2)%H Ha. apply (C2 k0 m a Hm). unfold address_of in *. cbn in Ha.
    by rewrite E1, E2 in Ha.
Qed.

Lemma canonical_disable rid now d u d' : disable_mailboxes rid now d = Ok (u, d') -> keeps_canonical d d'.
Proof.
  intros [= _ <-]. apply canonical_rows. intros k m'. rewrite lookup_fmap, fmap_Some. intros (m & Hm & ->).
  exists k, m. by case_bool_decide.
Qed.
Lemma canonical_adopted id rid m d n d' : update_adopted id rid m d = Ok (n, d') -> keeps_canonical d d'.
Proof.
  unfold update_adopted. destruct (db_mailboxes d !! id) as [row|] eqn:E; [|by intros [= _ <-]].
  destruct (mb_scim_resource_id row); [by intros [= _ <-]|]. destruct (scim_id_taken id rid d); [done|].
  intros [= _ <-]. apply canonical_rows. intros k m'. rewrite lookup_insert. case_decide; [|by exists k, m'].
  intros [= <-]. by exists id, row.
Qed.

Lemma canonical_resolve id name d k d' : resolve_domain id name d = Ok (k, d') ->
  keeps_canonical d d' /\ exists dom, db_domains d' !! k = Some dom /\ dm_name dom = name.
Proof.
  unfold resolve_domain. destruct (upsert_domain id name d) as [[u d1]|e] eqn:E; [|done].
  destruct (find_row _ (db_domains d1)) as [[k' r]|] eqn:F; [|done]. intros [= <- <-]. split.
  - unfold upsert_domain in E. destruct (find_row _ (db_domains d)); [by injection E as _ <-|].
    destruct (db_domains d !! id) eqn:Ei; [done|]. injection E as _ <-. intros [C1 C2 C3].
    assert (forall m, is_Some (db_domains d !! mb_domain_id m) -> mb_domain_id m <> id) as Hne.
    { intros m [dom Hd] Eq. rewrite Eq in Hd. congruence. }
    split; [| |exact C3].
    + intros i m Hm. cbn in Hm |- *. pose proof (C1 i m Hm) as Hd. rewrite lookup_insert_ne; [exact Hd|].
      by apply not_eq_sym, Hne.
    + intros i m a Hm. cbn in Hm. unfold address_of. cbn. rewrite lookup_insert_ne; [by apply (C2 i m a)|].
      apply not_eq_sym, Hne. by eapply C1.
  - unfold find_row in F. apply find_some in F as [F1 F2]. cbn in F2. to_prop. exists r.
    split; [|done]. by apply elem_of_map_to_list, list_elem_of_In.
Qed.

(** The row of a projected mailbox has its address. *)
Lemma canonical_upsert_mailbox id rid local domain domainID m d u d' :
  (exists dom, db_domains d !! domainID = Some dom /\ dm_name dom = domain) ->
  plain_previous (local +:+ "@" +:+ domain) -> plain_previous (sql_lower (local +:+ "@" +:+ domain)) ->
  upsert_scim_mailbox id rid (scim_row domainID local rid m) d = Ok (u, d') -> keeps_canonical d d'.
Proof.
  intros (dom & Hd & En) P1 P2. unfold upsert_scim_mailbox.
  change (mb_domain_id (scim_row domainID local rid m)) with domainID. rewrite Hd.
  destruct (find_row _ _); [done|]. destruct (scim_id_taken id rid d); [done|].
  intros [= _ <-] [C1 C2 C3].
  set (stored := match db_mailboxes d !! id with Some old => _ | None => _ end).
  assert (mb_domain_id stored = domainID /\ mb_local_part stored = local) as [S1 S2]
    by (unfold stored; by destruct (db_mailboxes d !! id)).
  split; [| |exact C3].
  - intros k m'. cbn. rewrite lookup_insert. case_decide; [|apply C1]. intros [= <-]. rewrite S1, Hd. by eexists.
  - intros k m' a. unfold address_of. cbn. rewrite lookup_insert. case_decide; [|apply C2].
    intros [= <-]. rewrite S1, S2, Hd. cbn. rewrite En. by intros [= <-].
Qed.

(** *** Statements on resources *)

Definition canonical_record (r : ScimRecord) : Prop := sr_type r = "User" -> canonical_document (sr_data r).

Lemma canonical_resources (rs : gmap string ScimResourceRow) d :
  (forall id row, rs !! id = Some row -> sm_type row = "User" -> canonical_document (sm_data row)) ->
  keeps_canonical d (with_resources (fun _ => rs) d).
Proof. intros H [C1 C2 C3]. split; [exact C1|exact C2|exact H]. Qed.

Lemma canonical_insert_resource r d u d' : canonical_record r -> insert_resource r d = Ok (u, d') -> keeps_canonical d d'.
Proof.
  unfold insert_resource. intros Hr. destruct (negb _); [done|]. destruct (resources d !! _); [done|].
  intros [= _ <-] C. apply (canonical_resources (<[sr_id r := row_of r]> (resources d))); [|exact C].
  intros id row. rewrite lookup_insert. case_decide; [by intros [= <-]|apply (cs_names _ C)].
Qed.
Lemma canonical_update_resource r d u d' : canonical_record r -> update_resource r d = Ok (u, d') -> keeps_canonical d d'.
Proof.
  unfold update_resource. intros Hr. destruct (select_resource _ _ _ d) as [old|] eqn:E; [|by intros [= _ <-]].
  cbv zeta. destruct (negb _); [done|]. intros [= _ <-] C.
  apply select_eq in E as (_ & _ & Et).
  match goal with |- context [<[sr_id r := ?n]>] => apply (canonical_resources (<[sr_id r := n]> (resources d))); [|exact C] end.
  intros id row. rewrite lookup_insert. case_decide; [|apply (cs_names _ C)]. intros [= <-]. cbn. rewrite Et. exact Hr.
Qed.
Lemma canonical_delete_resource scope type id d u d' : delete_resource scope type id d = Ok (u, d') -> keeps_canonical d d'.
Proof.
  unfold delete_resource. destruct (select_resource scope type id d); [|by intros [= _ <-]].
  destruct (_ && _); [done|]. intros [= _ <-] [C1 C2 C3]. split; [exact C1|exact C2|].
  intros k row H. change (delete id (resources d) !! k = Some row) in H. apply lookup_delete_Some in H as [_ H].
  by apply (C3 k).
Qed.
#[local] Hint Resolve canonical_delete_indexes canonical_insert_contract canonical_insert_index
  canonical_delete_members canonical_insert_members canonical_tombstone canonical_tokens canonical_sessions
  canonical_audit canonical_disable canonical_adopted canonical_insert_resource canonical_update_resource
  canonical_delete_resource : scim.

(** ** The operations *)

Lemma canonical_mailboxFromRecord r : effect keeps_canonical (mailboxFromRecord r).
Proof. unfold mailboxFromRecord, active_value, consume_adoption. solve_scim. Qed.
Lemma canonical_scim_audit action before after : effect keeps_canonical (scim_audit action before after).
Proof. unfold scim_audit. solve_scim. Qed.
Lemma canonical_Get scope type id : effect keeps_canonical (Get scope type id).
Proof. unfold Get, loadIndexesByID. solve_scim. Qed.
#[local] Hint Resolve canonical_mailboxFromRecord canonical_scim_audit canonical_Get : scim.

Lemma canonical_replaceIndexes r : effect keeps_canonical (replaceIndexes r).
Proof.
  unfold replaceIndexes. scim_step_tac; [solve_scim|]. generalize 0. induction (sr_indexes r) as [|i l IH];
    intros n; cbn [replace_each]; [solve_scim|]. scim_step_tac; [unfold replace_index; solve_scim|apply IH].
Qed.

(** A mailbox whose address the store may write. *)
Definition canonical_mailbox (m : Mailbox) : Prop := exists userName, im_email m = ToLower userName /\ canonical_name userName.

Lemma name_previous userName : canonical_name userName ->
  plain_previous (ToLower userName) /\ plain_previous (sql_lower (ToLower userName)).
Proof. intros (L & N & P). split; [right; apply N|exact P]. Qed.

Lemma canonical_persist r previous m : canonical_mailbox m -> effect keeps_canonical (persistMailbox r previous m).
Proof.
  intros (userName & Em & [P1 P2]%name_previous). unfold persistMailbox. scim_step_tac; [solve_scim|].
  destruct (SplitFirstByte "@" (im_email m)) as [[local domain]|] eqn:Es; [|solve_scim].
  apply SplitFirstByte_eq in Es. rewrite <- Em, Es in P1, P2.
  scim_step_tac; [solve_scim|]. scim_step_tac; [solve_scim|]. scim_step_tac; [solve_scim|].
  apply (effect_bind keeps_canonical); [solve_scim|]. intros mailboxID.
  assert (forall domainID, effect_from keeps_canonical (fun d => exists dom, db_domains d !! domainID = Some dom
    /\ dm_name dom = domain) (mapped (exec (upsert_scim_mailbox mailboxID (sr_id r)
      (scim_row domainID local (sr_id r) m))))) as Hup.
  { intros domainID w Hd. unfold exec. rewrite mapped_run, statement_run. destruct (tx_aborted _); [by intros C|].
    pose proof (effect_from_exec keeps_canonical _ (upsert_scim_mailbox mailboxID (sr_id r)
      (scim_row domainID local (sr_id r) m)) (fun d u d' Hd => canonical_upsert_mailbox _ _ _ _ _ _ d u d' Hd P1 P2)
      w Hd) as Hw. by destruct (execM _ w) as [[x|err] w2]. }
  apply effect_all. apply (effect_from_bind keeps_canonical _ (fun domainID d => exists dom,
    db_domains d !! domainID = Some dom /\ dm_name dom = domain)).
  - apply effect_from_all. apply (effect_stmt keeps_canonical). intros d k d' [H _]%canonical_resolve. exact H.
  - intros w k w1 _ [[_ H]%canonical_resolve _]%exec_ok. exact H.
  - intros domainID. apply (effect_from_bind keeps_canonical _ (fun _ _ => True)); [apply Hup|done|].
    intros _. apply effect_from_all. unfold revokeSessionsForSCIMID. solve_scim.
Qed.

(** ** Projections that can be taken *)

Definition ready (p : MailboxProjection) : Prop := scim_ready (pj_previous p) (pj_mailbox p).
Definition ready_world w : Prop := canonical_store (w_db w) /\ Forall ready (tx_project (ss_tx (w_ext w))).
Definition stays_ready {A} (m : M SQLStore A) : Prop := forall w, ready_world w -> ready_world (m w).2.

Lemma stays_bind {A B} (m : M SQLStore A) (k : A -> M SQLStore B) :
  stays_ready m -> (forall w a w1, ready_world w -> m w = (Ok a, w1) -> ready_world w1 -> ready_world (k a w1).2) ->
  stays_ready (m ≫= k).
Proof.
  intros Hm Hk w Hw. specialize (Hm w Hw). rewrite bind_run. destruct (m w) as [[a|e] w1] eqn:E; [|exact Hm].
  by eapply Hk.
Qed.
Lemma stays_of {A} (m : M SQLStore A) : effect keeps_canonical m -> keeps_project m -> stays_ready m.
Proof. intros H P w [C F]. split; [by apply H|]. unfold keeps_part in P. by rewrite P. Qed.
Lemma stays_then {A B} (m : M SQLStore A) (k : A -> M SQLStore B) :
  stays_ready m -> (forall a, stays_ready (k a)) -> stays_ready (m ≫= k).
Proof. intros Hm Hk. apply stays_bind; [exact Hm|]. intros w a w1 _ _ H. by apply Hk. Qed.

(** What the store reads of a record: its name, and where its mailbox was. *)
Lemma mailboxFromRecord_previous r w m previous w1 : canonical_store (w_db w) ->
  mailboxFromRecord r w = (Ok (m, previous), w1) -> plain_previous previous.
Proof.
  intros C. unfold mailboxFromRecord. destruct (DecodeDocument (sr_data r)) as [document|]; [|done]. cbv zeta. intros H.
  apply bind_ok in H as (u2 & w2 & [_ ->]%guardM_ok & H). apply bind_ok in H as (active & w3 & H3 & H).
  assert (w3 = w) as ->.
  { unfold active_value in H3. destruct (document !! "active") as [[]|]; try done; by injection H3. }
  apply bind_ok in H as (row & w4 & (Hrow & D4 & X4)%select_ok & H). injection Hrow as <-.
  apply bind_ok in H as (adoption & w5 & [-> ->]%txM_ok & H).
  apply bind_ok in H as ([[m' p] verifier] & w6 & H6 & H). apply bind_ok in H as (change & w7 & _ & H).
  injection H as _ -> _.
  assert (forall k x a, db_mailboxes (w_db w) !! k = Some x -> address_of (w_db w) x = Some a ->
    plain_previous a /\ plain_previous (sql_lower a)) as HC by exact (cs_address _ C).
  destruct (scim_mailbox (sr_id r) (w_db w)) as [[[k address] v]|] eqn:Es.
  { injection H6 as _ <- _ _. unfold scim_mailbox in Es. destruct (find_row _ _) as [[k0 x]|] eqn:F; [|done]. cbn in Es.
    destruct (address_of (w_db w) x) as [a|] eqn:Ea; [|done]. injection Es as _ <- _.
    unfold find_row in F. apply find_some in F as [F _].
    eapply HC; [|exact Ea]. by apply elem_of_map_to_list, list_elem_of_In. }
  destruct (tx_adoption _) as [a|]; [|injection H6 as _ <- _ _; by left].
  unfold consume_adoption in H6. apply bind_ok in H6 as (found & w8 & (Hq & D8 & _)%select_ok & H6).
  injection Hq as <-. rewrite D4 in H6.
  destruct (adoption_mailbox (ad_mailbox_id a) (w_db w)) as [[[x email] enabled]|] eqn:Ea; [|done].
  apply bind_ok in H6 as (? & w9 & _ & H6). apply bind_ok in H6 as (? & w10 & _ & H6).
  apply bind_ok in H6 as (? & w11 & _ & H6). injection H6 as _ <- _ _.
  unfold adoption_mailbox in Ea. destruct (db_mailboxes (w_db w) !! _) as [owned|] eqn:Em; [|done]. cbn in Ea.
  destruct (db_domains (w_db w) !! mb_domain_id owned) as [dom|] eqn:Ed; [|done]. injection Ea as _ <- _.
  eapply HC; [exact Em|]. unfold address_of. by rewrite Ed.
Qed.

Lemma stays_project previous m : scim_ready previous m -> stays_ready (project previous m).
Proof. intros H w [C F]. split; [exact C|]. cbn. apply Forall_app. split; [exact F|]. by apply Forall_singleton. Qed.

Lemma stays_mailboxFromRecord r : stays_ready (mailboxFromRecord r).
Proof. apply stays_of; [apply canonical_mailboxFromRecord|apply project_mailboxFromRecord]. Qed.
Lemma stays_audit action before after : stays_ready (scim_audit action before after).
Proof. apply stays_of; [apply canonical_scim_audit|unfold scim_audit; solve_ids]. Qed.
Lemma stays_select {A} (q : DB -> result A) : stays_ready (select q).
Proof. apply stays_of; [solve_scim|solve_ids]. Qed.
Lemma stays_guard bad e : stays_ready (guardM bad e).
Proof. apply stays_of; [solve_scim|solve_ids]. Qed.
Lemma stays_provision st email : stays_ready (authorize_provision st email).
Proof. apply stays_of; unfold authorize_provision; [solve_scim|solve_ids]. Qed.

Lemma record_ready r w m previous w1 : canonical_document (sr_data r) -> canonical_store (w_db w) ->
  mailboxFromRecord r w = (Ok (m, previous), w1) ->
  canonical_mailbox m /\ forall m', im_email m' = im_email m -> scim_ready previous m'.
Proof.
  intros Hd C H. pose proof (mailboxFromRecord_previous _ _ _ _ _ C H) as P.
  apply mailboxFromRecord_email in H as (document & Hdoc & Em & _). pose proof (Hd _ Hdoc) as N. split; [by eexists|].
  intros m' E. unfold scim_ready. rewrite E, Em. destruct N as (L & N & _). by split_and!.
Qed.

Lemma stays_projectRecord action before after : canonical_record after -> stays_ready (projectRecord action before after).
Proof.
  intros Hr. unfold projectRecord. destruct (sr_type after =?s "Group").
  { apply stays_then; [|intros _; apply stays_audit]. apply stays_of; unfold replaceGroupMembers; [solve_scim|solve_ids]. }
  apply stays_then; [apply stays_of; [solve_scim|solve_ids]|]. intros [st|]; [|by intros w].
  destruct (sr_type after =?s "User") eqn:Et; cbn [negb]; [|by intros w]. apply eqs_true in Et. specialize (Hr Et).
  apply stays_bind; [apply stays_mailboxFromRecord|]. intros w [m previous] w1 [C _] H [C1 F1].
  destruct (record_ready _ _ _ _ _ Hr C H) as [Hm Hp].
  refine ((_ : stays_ready _) w1 (conj C1 F1)).
  apply stays_then; [apply stays_provision|]. intros _. apply stays_then; [apply stays_guard|]. intros _.
  apply stays_then; [apply stays_of; [by apply canonical_persist|unfold persistMailbox, revokeSessionsForSCIMID; solve_ids]|].
  intros _. apply stays_then; [by apply stays_project, Hp|]. intros _. apply stays_audit.
Qed.

Lemma stays_disableProjection r now : canonical_record r -> stays_ready (disableProjection r now).
Proof.
  intros Hr. unfold disableProjection. apply stays_then; [apply stays_of; [solve_scim|solve_ids]|]. intros [st|]; [|by intros w].
  destruct (sr_type r =?s "User") eqn:Et; cbn [negb]; [|by intros w]. apply eqs_true in Et. specialize (Hr Et).
  apply stays_bind; [apply stays_mailboxFromRecord|]. intros w [m previous] w1 [C _] H [C1 F1].
  destruct (record_ready _ _ _ _ _ Hr C H) as [Hm Hp]. refine ((_ : stays_ready _) w1 (conj C1 F1)).
  apply stays_then; [apply stays_provision|]. intros _.
  apply stays_then; [apply stays_of; [solve_scim|solve_ids]|]. intros _.
  apply stays_then; [apply stays_of; unfold revokeSessionsForSCIMID; [solve_scim|solve_ids]|]. intros _.
  by apply stays_project, Hp.
Qed.

Lemma stays_Get scope type id : stays_ready (Get scope type id).
Proof. apply stays_of; [apply canonical_Get|unfold Get, loadIndexesByID; solve_ids]. Qed.
Lemma stays_replaceIndexes r : stays_ready (replaceIndexes r).
Proof.
  apply stays_of; [apply canonical_replaceIndexes|]. unfold replaceIndexes. part_step; [solve_ids|].
  generalize 0. induction (sr_indexes r) as [|i l IH]; intros n; cbn [replace_each]; [solve_ids|].
  part_step; [unfold replace_index; solve_ids|apply IH].
Qed.

Lemma stays_Create r : canonical_record r -> stays_ready (Create r).
Proof.
  intros Hr. unfold Create. apply stays_then; [apply stays_guard|]. intros _.
  apply stays_then; [apply stays_of; [solve_scim|solve_ids]|]. intros adoption.
  apply stays_then; [apply stays_of; [solve_scim|solve_ids]|]. intros _.
  apply stays_then; [apply stays_select|]. intros gone. apply stays_then; [apply stays_guard|]. intros _.
  apply stays_then; [apply stays_of; [solve_scim|solve_ids]|]. intros _.
  apply stays_then; [apply stays_replaceIndexes|]. intros _. by apply stays_projectRecord.
Qed.

Lemma stays_Replace r version : canonical_record r -> stays_ready (Replace r version).
Proof.
  intros Hr. unfold Replace. apply stays_then; [apply stays_guard|]. intros _.
  apply stays_then; [apply stays_Get|]. intros current.
  do 2 (apply stays_then; [apply stays_guard|]; intros _).
  apply stays_then; [apply stays_of; [solve_scim|solve_ids]|]. intros _.
  apply stays_then; [apply stays_of; [solve_scim|solve_ids]|]. intros _.
  apply stays_then; [apply stays_replaceIndexes|]. intros _. by apply stays_projectRecord.
Qed.

Lemma stays_Delete scope type id version t : stays_ready (Delete scope type id version t).
Proof.
  unfold Delete. apply stays_bind; [apply stays_Get|]. intros w current w1 [C _] H [C1 F1].
  assert (canonical_record current) as Hr.
  { apply Get_ok in H as (_ & _ & row & l & Hrow & ->). intros Et. apply select_eq in Hrow as (Hrow & _ & _).
    by apply (cs_names _ C id row). }
  refine ((_ : stays_ready _) w1 (conj C1 F1)). do 2 (apply stays_then; [apply stays_guard|]; intros _).
  apply stays_then; [apply stays_of; [solve_scim|solve_ids]|]. intros _.
  apply stays_then; [by apply stays_disableProjection|]. intros _.
  apply stays_of; unfold scim_audit; [solve_scim|solve_ids].
Qed.

(** ** Transactions *)

(** A callback that submits canonical names only. *)
Definition canonical_call {A} (c : Call A) : Prop :=
  match c with call_create r | call_replace r _ => canonical_record r | _ => True end.
Fixpoint canonical_callback (f : Callback) : Prop :=
  match f with finish _ => True | perform_then c k => canonical_call c /\ forall r, canonical_callback (k r) end.

Lemma stays_perform {A} (c : Call A) : canonical_call c -> stays_ready (perform c).
Proof.
  destruct c; cbn [perform canonical_call]; intros H.
  - apply stays_Get.
  - apply stays_of; unfold ListRecords, loadIndexesByID; [solve_scim|solve_ids].
  - by apply stays_Create.
  - by apply stays_Replace.
  - apply stays_Delete.
  - apply stays_of; unfold Tombstones; [solve_scim|solve_ids].
  - apply stays_of; unfold SetPassword, HashSecret, randomToken; [solve_scim|solve_ids].
Qed.

Lemma stays_callback f : canonical_callback f -> stays_ready (run_callback f).
Proof.
  induction f as [r|A c k IH]; cbn [run_callback canonical_callback]; [intros _; apply stays_of; [solve_scim|solve_ids]|].
  intros [Hc Hk]. apply stays_then; [|intros r; by apply IH].
  intros w Hw. pose proof (stays_perform c Hc w Hw) as H. unfold tryM. by destruct (perform c w).
Qed.

Lemma projected_in_step l st : in_step false st -> Forall ready l -> in_step false (apply_projections l st).
Proof.
  intros C H. revert st C. induction H as [|p l Hp _ IH]; intros st C; [exact C|]. apply IH.
  by apply consistent_scim.
Qed.

(** The store meets what the identity service needs of it. A SCIM transaction
    over a database with canonical addresses and user names, whose callback
    submits canonical user names, keeps the identity service and its daemon in
    step, whatever it does and whatever fails, and leaves such a database, so
    that the next one does too. *)
Theorem Transact_in_step md adoption f w r w' st :
  canonical_store (w_db w) -> canonical_callback f ->
  ss_identity (w_ext w) = Some st -> in_step false st -> Transact md adoption f w = (r, w') ->
  canonical_store (w_db w') /\ exists st', ss_identity (w_ext w') = Some st' /\ in_step false st'.
Proof.
  intros C Hf Hst Hin H. apply Transact_all_or_nothing in H.
  assert (forall w2, committable md adoption f w w2 -> ready_world w2) as Hc.
  { intros w2 [(w1 & D1 & _ & X1 & Hrun) _ _]. pose proof (stays_callback f Hf w1) as Hw. rewrite Hrun in Hw.
    apply Hw. split; [by rewrite D1|]. by rewrite X1. }
  destruct r as [u|e].
  - destruct H as (w2 & [C2 F2]%Hc & D & X). rewrite D. split; [exact C2|]. rewrite X, Hst.
    exists (apply_projections (tx_project (ss_tx (w_ext w2))) st). split; [done|by apply projected_in_step].
  - destruct H as (X & D). rewrite X, Hst. split; [|by exists st].
    destruct D as [->|(_ & w2 & [C2 _]%Hc & ->)]; done.
Qed.
End ScimProjection.
