(* ===== verification/Authn.v ===== *)
(** * OIDC logins and sessions (internal/authn)

    A login attempt is stored, consumed once by the callback, and turned into
    a session of the mailbox that SCIM provisioned for the verified subject.
    The flow ([StartLogin], [CompleteCallback]) runs against the interface
    [StateStore], which the SQL store and the store in memory implement.  The
    OIDC library is a third-party client: its operations are parameters, and
    it keeps its state outside the database.  Byte arrays and digests are
    strings of their bytes; times are kept exactly. *)

From stdpp Require Import base list gmap sets strings sorting.
From Stdlib Require Import ZArith Lia Ascii.
From S2P Require Import Prelude GoStd Json JsonText JsonStruct Sha256 Sha1 Policy Queue AuditLog Database Postfix Remote Relay Daemon Verifier Lookup Tokens Authz Regex Approval Executor Telegram Identity Scim.
Import authz identity.
#[local] Existing Instances M_ret M_bind.

Module authn.

Definition ErrInvalidOIDCState : string := "invalid oidc state".
Definition ErrInvalidOIDCToken : string := "invalid oidc token".

(** ** The OIDC library *)

Record ProtectedAttempt := {
  pa_state_hash : string; pa_nonce_ciphertext : string; pa_pkce_ciphertext : string;
  pa_context_ciphertext : string;
}.
Record Authorization := { az_url : string; az_attempt : ProtectedAttempt }.
Record VerifiedIdentity := {
  vi_issuer : string; vi_subject : string; vi_display_name : string; vi_email : option string;
}.

(** A callback's response is looked at only for its state. *)
Class OIDCClient (PS : Type) := {
  AuthorizationResponse : Type;
  rs_state : AuthorizationResponse -> string;
  Begin : Command PS Authorization;
  CompleteResponse : AuthorizationResponse -> ProtectedAttempt -> Command PS VerifiedIdentity;
}.

(** ** Data *)

Record LoginAttempt := {
  la_protected : ProtectedAttempt; la_browser_hash : string; la_redirect : string;
  la_created_at : Z; la_expires_at : Z; la_used_at : option Z;
}.
Record Identity := {
  id_subject : string; id_issuer : string; id_email : string; id_name : string; id_groups : list string;
}.
Record Session := {
  sn_id : string; sn_identity_ref_id : string; sn_created_at : Z; sn_expires_at : Z;
  sn_last_seen_at : Z; sn_csrf_secret_hash : string; sn_auth_method : string;
}.
Record BoundSession := {
  bs_session : Session; bs_issuer : string; bs_subject : string; bs_mailbox : string;
  bs_roles : list RoleAssignment;
}.

#[export] Instance attempt_eta : Eta LoginAttempt := fun a =>
  {| la_protected := la_protected a; la_browser_hash := la_browser_hash a; la_redirect := la_redirect a;
     la_created_at := la_created_at a; la_expires_at := la_expires_at a; la_used_at := la_used_at a |}.
#[export] Instance session_eta : Eta Session := fun s =>
  {| sn_id := sn_id s; sn_identity_ref_id := sn_identity_ref_id s; sn_created_at := sn_created_at s;
     sn_expires_at := sn_expires_at s; sn_last_seen_at := sn_last_seen_at s;
     sn_csrf_secret_hash := sn_csrf_secret_hash s; sn_auth_method := sn_auth_method s |}.
#[export] Instance bound_eta : Eta BoundSession := fun b =>
  {| bs_session := bs_session b; bs_issuer := bs_issuer b; bs_subject := bs_subject b;
     bs_mailbox := bs_mailbox b; bs_roles := bs_roles b |}.

(** The stores of attempts and sessions.  [identity_sessions] is
    [store.(IdentitySessionStore)]: whether the store binds sessions to
    identities, and how. *)
Class StateStore (PS : Type) := {
  PutAttempt : LoginAttempt -> M PS unit;
  ConsumeAttempt : string -> string -> Z -> M PS LoginAttempt;
  PutSession : Session -> M PS unit;
  GetSession : string -> M PS (option Session);
  identity_sessions : option (Identity -> Session -> M PS Session);
}.

(** ** Digests and tokens *)

Fixpoint string_of_bytes (l : list N) : string :=
  match l with
  | [] => ""
  | b :: l => String (ascii_of_N b) (string_of_bytes l)
  end.
Definition Sum256 (s : string) : string := string_of_bytes (Sha.sum256 (bytes_of s)).
Definition hashText (value : string) : string := raw_url_encode (Sha.sum256 (bytes_of value)).

Definition ValidCSRF (session : Session) (secret : string) : bool :=
  if (secret =?s "") || (sn_csrf_secret_hash session =?s "") then false
  else hashText secret =?s sn_csrf_secret_hash session.

Definition SafeOIDCError (err : option string) : string :=
  match err with
  | None => ""
  | Some e => if e =?s ErrInvalidOIDCState then ErrInvalidOIDCState
              else if e =?s ErrInvalidOIDCToken then ErrInvalidOIDCToken
              else "OIDC operation failed"
  end.

Definition randomToken {PS} (size : nat) : M PS string :=
  b ← entropyM;
  match b with
  | Some bytes => mret (raw_url_encode (fill size bytes))
  | None => failM "rand: read failed"
  end.
Definition NewBrowserBinding {PS} : M PS string := randomToken 32.

Definition randomUUID {PS} : M PS string :=
  b ← entropyM;
  match b with
  | Some bytes => mret (newUUID (Some (fill 16 bytes)))
  | None => failM "rand: read failed"
  end.

(** ** URLs

    [u.Query().Get(key)]: the first value of a key, over the pairs that parse. *)
Fixpoint QueryUnescape (s : string) : option string :=
  match s with
  | EmptyString => Some ""
  | String "%" s =>
      match s with
      | String a (String b s) =>
          match hex_value a, hex_value b with
          | Some x, Some y => String (ascii_of_N (16 * x + y)) <$> QueryUnescape s
          | _, _ => None
          end
      | _ => None
      end
  | String "+" s => String " " <$> QueryUnescape s
  | String c s => String c <$> QueryUnescape s
  end.

(** [strings.Split(s, sep)] for one byte. *)
Fixpoint SplitByte (b : ascii) (s : string) : list string :=
  match s with
  | EmptyString => [""]
  | String c s =>
      if Ascii.eqb c b then "" :: SplitByte b s
      else match SplitByte b s with
           | part :: parts => String c part :: parts
           | [] => [String c ""]
           end
  end.

Definition query_pair (part : string) : option (string * string) :=
  if Contains part ";" || (part =?s "") then None else
  let '(key, value) := default (part, "") (SplitFirstByte "=" part) in
  key ← QueryUnescape key; value ← QueryUnescape value; Some (key, value).

Definition query_get (raw key : string) : string :=
  match List.find (fun p => p.1 =?s key) (omap query_pair (SplitByte "&" raw)) with
  | Some p => p.2
  | None => ""
  end.

Section Flow.
Context `{HOST : !Host} `{PARSER : !UrlParser} {PS : Type} `{CLIENT : !OIDCClient PS} `{STORE : !StateStore PS}.

(** An absolute URL has a scheme. *)
Definition localRedirect (value : string) : result string :=
  if value =?s "" then Ok "/" else
  if (2048 <? len value) || negb (ValidString value) || HasControl value then Err ErrInvalidOIDCState else
  match url_parse value with
  | None => Err ErrInvalidOIDCState
  | Some parsed =>
      if (url_scheme parsed <>?s "") || (url_host parsed <>?s "") || negb (HasPrefix (url_path parsed) "/")
         || HasPrefix (url_path parsed) "//"
      then Err ErrInvalidOIDCState else Ok value
  end.

(** ** The login *)

Record LoginStart := { st_state_id : string; st_nonce : string; st_url : string }.

(** Durations are in nanoseconds. *)
Definition minutes (n : Z) : Z := (n * 60 * 1000000000)%Z.

Definition StartLogin (browserBinding redirectAfter0 : string) (now ttl : Z) : M PS LoginStart :=
  guardM ((browserBinding =?s "") || (1024 <? len browserBinding) || (ttl <=? 0)%Z || (minutes 30 <? ttl)%Z)
    ErrInvalidOIDCState;;
  redirectAfter ← liftM (localRedirect redirectAfter0);
  authorization ← extM Begin;
  match url_parse (az_url authorization) with
  | None => failM "parse OIDC authorization URL"
  | Some parsed =>
      let state := query_get (url_raw_query parsed) "state" in
      let nonce := query_get (url_raw_query parsed) "nonce" in
      guardM ((state =?s "") || (nonce =?s "")
              || (Sum256 state <>?s pa_state_hash (az_attempt authorization)))
        "gotth-oidc returned inconsistent authorization material";;
      PutAttempt {| la_protected := az_attempt authorization; la_browser_hash := Sum256 browserBinding;
                    la_redirect := redirectAfter; la_created_at := now; la_expires_at := (now + ttl)%Z;
                    la_used_at := None |};;
      mret {| st_state_id := state; st_nonce := nonce; st_url := az_url authorization |}
  end.

(** ** The callback *)

Record CallbackResult := {
  cr_identity : Identity; cr_session : Session; cr_redirect : string; cr_csrf_secret : string;
}.

Definition identity_of (verified : VerifiedIdentity) : Identity :=
  {| id_subject := vi_subject verified; id_issuer := vi_issuer verified;
     id_email := default "" (vi_email verified); id_name := vi_display_name verified; id_groups := [] |}.

Definition new_session (id csrfSecret : string) (now : Z) : Session :=
  {| sn_id := id; sn_identity_ref_id := ""; sn_created_at := now; sn_expires_at := (now + minutes 720)%Z;
     sn_last_seen_at := now; sn_csrf_secret_hash := hashText csrfSecret; sn_auth_method := "oidc" |}.

(** The session is bound to the identity, or stored under its name. *)
Definition admit_session (identity : Identity) (session : Session) : M PS Session :=
  match identity_sessions with
  | Some put_identity_session => put_identity_session identity session
  | None =>
      let session := put sn_identity_ref_id (id_issuer identity +:+ "|" +:+ id_subject identity) session in
      PutSession session;; mret session
  end.

(** What follows the consumption of the attempt. *)
Definition exchange (response : AuthorizationResponse) (attempt : LoginAttempt) (now : Z) : M PS CallbackResult :=
  completed ← tryM (extM (CompleteResponse response (la_protected attempt)));
  match completed with
  | Err _ => failM ErrInvalidOIDCToken
  | Ok verified =>
      let identity := identity_of verified in
      sessionID ← randomToken 32;
      csrfSecret ← randomToken 32;
      session ← admit_session identity (new_session sessionID csrfSecret now);
      mret {| cr_identity := identity; cr_session := session; cr_redirect := la_redirect attempt;
              cr_csrf_secret := csrfSecret |}
  end.

Definition claim_attempt (response : AuthorizationResponse) (browserBinding : string) (now : Z) : M PS LoginAttempt :=
  guardM (TrimSpace (rs_state response) =?s "") ErrInvalidOIDCState;;
  ConsumeAttempt (rs_state response) browserBinding now.

Definition CompleteCallback (response : AuthorizationResponse) (browserBinding : string) (now : Z)
    : M PS CallbackResult :=
  attempt ← claim_attempt response browserBinding now;
  exchange response attempt now.
End Flow.

(** ** The store in memory *)

Module memory.
Record Store := { mem_attempts : gmap string LoginAttempt; mem_sessions : gmap string Session }.

Definition NewStore : Store := {| mem_attempts := ∅; mem_sessions := ∅ |}.

Definition PutAttempt (a : LoginAttempt) : Command Store unit := fun s =>
  match mem_attempts s !! pa_state_hash (la_protected a) with
  | Some _ => (Err "OIDC attempt already exists", s)
  | None => (Ok tt, {| mem_attempts := <[pa_state_hash (la_protected a) := a]> (mem_attempts s);
                       mem_sessions := mem_sessions s |})
  end.

Definition GetSession (id : string) : Command Store (option Session) := fun s =>
  (Ok (mem_sessions s !! id), s).

Definition ConsumeAttempt (state browserBinding : string) (now : Z) : Command Store LoginAttempt := fun s =>
  match mem_attempts s !! Sum256 state with
  | None => (Err ErrInvalidOIDCState, s)
  | Some a =>
      if negb (bool_decide (la_used_at a = None)) || (la_expires_at a <? now)%Z
         || (la_browser_hash a <>?s Sum256 browserBinding)
      then (Err ErrInvalidOIDCState, s)
      else let a' := put la_used_at (Some now) a in
           (Ok a', {| mem_attempts := <[Sum256 state := a']> (mem_attempts s);
                      mem_sessions := mem_sessions s |})
  end.

Definition PutSession (session : Session) : Command Store unit := fun s =>
  (Ok tt, {| mem_attempts := mem_attempts s; mem_sessions := <[sn_id session := session]> (mem_sessions s) |}).

(** The store beside the state of the client. *)
Definition on_store {CS A} (op : Command Store A) : M (Store * CS) A :=
  extM (fun x => let (r, s) := op x.1 in (r, (s, x.2))).
End memory.

#[export] Instance memory_store {CS} : StateStore (memory.Store * CS) := {
  PutAttempt a := memory.on_store (memory.PutAttempt a);
  ConsumeAttempt state browser now := memory.on_store (memory.ConsumeAttempt state browser now);
  PutSession s := memory.on_store (memory.PutSession s);
  GetSession id := memory.on_store (memory.GetSession id);
  identity_sessions := None;
}.
#[export] Instance memory_client {CS} `{CLIENT : !OIDCClient CS} : OIDCClient (memory.Store * CS) := {
  AuthorizationResponse := AuthorizationResponse;
  rs_state := rs_state;
  Begin := fun x => let (r, c) := Begin x.2 in (r, (x.1, c));
  CompleteResponse := fun response attempt x =>
    let (r, c) := CompleteResponse response attempt x.2 in (r, (x.1, c));
}.

(** ** The SQL store (sql_store.go) *)

Module sql_store.
Section Sql.
Context `{HOST : !Host} {PS : Type}.

Definition login_states (d : DB) : gmap string LoginStateRow := ac_login_states (db_access d).
Definition sessions (d : DB) : gmap string SessionRow := ac_sessions (db_access d).
Definition identities (d : DB) : gmap string IdentityRow := ac_identities (db_access d).
Definition bindings (d : DB) : gmap string BindingRow := ac_bindings (db_access d).
Definition with_login_states f : DB -> DB := with_access (fun t => put ac_login_states (f (ac_login_states t)) t).
Definition with_sessions f : DB -> DB := with_access (fun t => put ac_sessions (f (ac_sessions t)) t).
Definition with_identities f : DB -> DB := with_access (fun t => put ac_identities (f (ac_identities t)) t).

(** *** Attempts *)

(** The CHECK constraints of oidc_login_states (0003). *)
Definition login_state_check (hash : string) (r : LoginStateRow) : bool :=
  (len hash =? 32) && (len (ls_nonce_ciphertext r) =? 72) && (len (ls_pkce_ciphertext r) =? 72)
  && (1 <=? char_length (ls_context_ciphertext r))
  && (N.of_nat (char_length (ls_context_ciphertext r)) <=? 65536)%N
  && (len (ls_browser_hash r) =? 32)
  && (1 <=? char_length (ls_redirect r)) && (char_length (ls_redirect r) <=? 2048)
  && (ls_created_at r <? ls_expires_at r)%Z
  && match ls_used_at r with Some t => (ls_created_at r <=? t)%Z | None => true end.

Definition attempt_row (a : LoginAttempt) : LoginStateRow :=
  {| ls_nonce_ciphertext := pa_nonce_ciphertext (la_protected a);
     ls_pkce_ciphertext := pa_pkce_ciphertext (la_protected a);
     ls_context_ciphertext := pa_context_ciphertext (la_protected a);
     ls_browser_hash := la_browser_hash a; ls_redirect := la_redirect a;
     ls_created_at := la_created_at a; ls_expires_at := la_expires_at a; ls_used_at := la_used_at a |}.

Definition insert_login_state (hash : string) (r : LoginStateRow) (d : DB) : result (unit * DB) :=
  if negb (login_state_check hash r) then Err scim.check_violated else
  match login_states d !! hash with
  | Some _ => Err duplicate
  | None => Ok (tt, with_login_states (<[hash := r]>) d)
  end.

Definition PutAttempt (a : LoginAttempt) : M PS unit :=
  execM (insert_login_state (pa_state_hash (la_protected a)) (attempt_row a)).

(** UPDATE oidc_login_states SET used_at=$1 WHERE ... RETURNING ... *)
Definition use_login_state (hash browser : string) (now : Z) (d : DB) : result (option LoginStateRow * DB) :=
  match login_states d !! hash with
  | None => Ok (None, d)
  | Some r =>
      if (ls_browser_hash r =?s browser) && bool_decide (ls_used_at r = None) && (now <=? ls_expires_at r)%Z
      then let r' := put ls_used_at (Some now) r in
           if login_state_check hash r' then Ok (Some r', with_login_states (<[hash := r']>) d)
           else Err scim.check_violated
      else Ok (None, d)
  end.

Definition stored_attempt (hash : string) (r : LoginStateRow) : LoginAttempt :=
  {| la_protected := {| pa_state_hash := hash; pa_nonce_ciphertext := ls_nonce_ciphertext r;
                        pa_pkce_ciphertext := ls_pkce_ciphertext r;
                        pa_context_ciphertext := ls_context_ciphertext r |};
     la_browser_hash := ls_browser_hash r; la_redirect := ls_redirect r;
     la_created_at := ls_created_at r; la_expires_at := ls_expires_at r; la_used_at := ls_used_at r |}.

Definition decodeProtectedAttempt (a : LoginAttempt) : result LoginAttempt :=
  if negb (len (pa_state_hash (la_protected a)) =? 32)
     || negb (len (pa_nonce_ciphertext (la_protected a)) =? 72)
     || negb (len (pa_pkce_ciphertext (la_protected a)) =? 72)
     || negb (len (la_browser_hash a) =? 32)
  then Err "stored OIDC attempt has invalid protected-field size" else Ok a.

Definition ConsumeAttempt (state browserBinding : string) (now : Z) : M PS LoginAttempt :=
  row ← execM (use_login_state (Sum256 state) (Sum256 browserBinding) now);
  match row with
  | None => failM ErrInvalidOIDCState
  | Some r => liftM (decodeProtectedAttempt (stored_attempt (Sum256 state) r))
  end.

(** *** Sessions *)

Definition session_row (s : Session) : SessionRow :=
  {| se_identity_ref_id := sn_identity_ref_id s; se_csrf_secret_hash := sn_csrf_secret_hash s;
     se_auth_method := sn_auth_method s; se_created_at := sn_created_at s;
     se_expires_at := sn_expires_at s; se_last_seen_at := sn_last_seen_at s; se_revoked_at := None |}.
Definition session_of (id : string) (r : SessionRow) : Session :=
  {| sn_id := id; sn_identity_ref_id := se_identity_ref_id r; sn_created_at := se_created_at r;
     sn_expires_at := se_expires_at r; sn_last_seen_at := se_last_seen_at r;
     sn_csrf_secret_hash := se_csrf_secret_hash r; sn_auth_method := se_auth_method r |}.

Definition insert_session (s : Session) (d : DB) : result (unit * DB) :=
  match sessions d !! sn_id s, identities d !! sn_identity_ref_id s with
  | Some _, _ => Err duplicate
  | None, None => Err scim.fk_insert
  | None, Some _ => Ok (tt, with_sessions (<[sn_id s := session_row s]>) d)
  end.

Definition PutSession (s : Session) : M PS unit := execM (insert_session s).

Definition GetSession (id : string) : M PS (option Session) :=
  row ← tryM (queryM (fun d =>
    Ok (r ← sessions d !! id; if bool_decide (se_revoked_at r = None) then Some (session_of id r) else None)));
  mret (match row with Ok found => found | Err _ => None end).

(** *** Identities *)

(** lower(m.local_part || '@' || d.name), when the mailbox has its domain. *)
Definition mailbox_email (d : DB) (m : MailboxRow) : option string :=
  dom ← db_domains d !! mb_domain_id m;
  Some (sql_lower (mb_local_part m +:+ "@" +:+ dm_name dom)).

Definition scim_le (p q : string * ScimResourceRow) : Prop :=
  sql_leb (sm_scope p.2) (sm_scope q.2) = true /\ (sm_scope p.2 = sm_scope q.2 -> sql_leb p.1 q.1 = true).
#[local] Instance scim_le_dec : RelDecision scim_le.
Proof. intros p q. unfold scim_le. apply _. Defined.

(** The User resources of a subject, and the enabled mailboxes of a resource:
    their identifiers and addresses. *)
Definition subject_resources (subject : string) (d : DB) : list (string * ScimResourceRow) :=
  merge_sort scim_le (List.filter (fun kv => (sm_type kv.2 =?s "User") && (sm_external_id kv.2 =?s subject))
                        (map_to_list (scim.resources d))).
Definition active_mailbox (resourceID : string) (d : DB) (kv : string * MailboxRow) : option (string * string) :=
  if bool_decide (mb_scim_resource_id kv.2 = Some resourceID) && mb_enabled kv.2
  then pair kv.1 <$> mailbox_email d kv.2 else None.

(** ... ORDER BY sr.scope, sr.id LIMIT 2 *)
Definition candidates (subject : string) (d : DB) : list (string * string) :=
  take 2 (flat_map (fun sr => omap (active_mailbox sr.1 d) (map_to_list (db_mailboxes d)))
            (subject_resources subject d)).

Definition same_identity (provider issuer subject : string) (r : IdentityRow) : bool :=
  (ir_provider r =?s provider) && (ir_issuer r =?s issuer) && (ir_subject r =?s subject).
Definition identity_row_check (r : IdentityRow) : bool :=
  ((ir_provider r =?s "authentik") || (ir_provider r =?s "local"))
  && scim.bounded 1 2048 (ir_issuer r) && scim.bounded 1 1024 (ir_subject r).

(** A row of another identity at the provider with the same mailbox. *)
Definition mailbox_taken (mailbox : option string) (r : IdentityRow) : bool :=
  (ir_provider r =?s "authentik")
  && match mailbox with Some m => bool_decide (ir_mailbox_id r = Some m) | None => false end.

(** INSERT INTO identity_refs ... ON CONFLICT (provider, issuer, subject) DO
    UPDATE SET updated_at RETURNING id::text, mailbox_id::text: the rows have
    no updated_at. *)
Definition upsert_identity (id : string) (row : IdentityRow) (d : DB)
    : result (string * option string * DB) :=
  if negb (identity_row_check row) then Err scim.check_violated else
  match find_row (fun _ r => same_identity (ir_provider row) (ir_issuer row) (ir_subject row) r) (identities d) with
  | Some (old, r) => Ok (old, ir_mailbox_id r, d)
  | None =>
      match identities d !! id, find_row (fun _ r => mailbox_taken (ir_mailbox_id row) r) (identities d) with
      | None, None =>
          if match ir_mailbox_id row with
             | Some m => bool_decide (db_mailboxes d !! m = None)
             | None => false
             end
          then Err scim.fk_insert
          else Ok (id, ir_mailbox_id row, with_identities (<[id := row]>) d)
      | _, _ => Err duplicate
      end
  end.

Definition session_event (session : Session) (email : string) : Event :=
  {| ev_id := ""; ev_time := sn_created_at session;
     ev_actor := {| actor_type := "oidc_subject"; actor_id := sn_identity_ref_id session |};
     ev_source := None; ev_action := "oidc.session.create";
     ev_resource := {| resource_type := "identity"; resource_id := sn_identity_ref_id session |};
     ev_before := JNull; ev_after := JObj [("mailbox", JStr email)]; ev_correlation_id := "oidc";
     ev_result := "success"; ev_error_code := "" |}.

Definition authentik_row (identity : Identity) (mailboxID : string) : IdentityRow :=
  {| ir_provider := "authentik"; ir_issuer := id_issuer identity; ir_subject := id_subject identity;
     ir_mailbox_id := Some mailboxID |}.

Definition PutIdentitySession (identity : Identity) (session0 : Session) : M PS Session :=
  guardM ((TrimSpace (id_issuer identity) =?s "") || (TrimSpace (id_subject identity) =?s "")
          || (TrimSpace (id_email identity) =?s "")) "verified OIDC identity is incomplete";;
  transaction (
    found ← queryM (fun d => Ok (candidates (id_subject identity) d));
    match found with
    | [(mailboxID, email)] =>
        guardM (negb (EqualFold email (TrimSpace (id_email identity))))
          "verified OIDC email does not match the SCIM mailbox";;
        identityID ← randomUUID;
        bound ← execM (upsert_identity identityID (authentik_row identity mailboxID));
        match bound with
        | (_, None) => failM "sql: converting NULL to string is unsupported"
        | (boundID, Some boundMailbox) =>
            guardM (boundMailbox <>?s mailboxID) "verified OIDC identity is already bound to another mailbox";;
            let session := put sn_identity_ref_id boundID session0 in
            execM (insert_session session);;
            WriteSQL (session_event session email);;
            mret (true, session)
        end
    | _ => failM "verified OIDC identity does not resolve to exactly one active SCIM mailbox"
    end).

(** *** Bound sessions *)

Definition live_at (now : Z) (r : SessionRow) : bool :=
  bool_decide (se_revoked_at r = None) && (now <? se_expires_at r)%Z && (se_created_at r <=? now)%Z.

Definition select_bound (id : string) (now : Z) (d : DB) : option BoundSession :=
  s ← sessions d !! id;
  ir ← identities d !! se_identity_ref_id s;
  mailboxID ← ir_mailbox_id ir;
  m ← db_mailboxes d !! mailboxID;
  email ← mailbox_email d m;
  if live_at now s && mb_enabled m then
    Some {| bs_session := session_of id s; bs_issuer := ir_issuer ir; bs_subject := ir_subject ir;
            bs_mailbox := email; bs_roles := [] |}
  else None.

(** The role bindings of an identity with the names of their domains. *)
Definition role_name (d : DB) (r : BindingRow) : string * option string :=
  (rb_role r, id ← rb_domain_id r; dm_name <$> db_domains d !! id).
Definition name_leb (p q : option string) : bool :=
  match p, q with
  | _, None => true
  | None, Some _ => false
  | Some a, Some b => sql_leb a b
  end.
Definition role_le (p q : string * option string) : Prop :=
  sql_leb p.1 q.1 = true /\ (p.1 = q.1 -> name_leb p.2 q.2 = true).
#[local] Instance role_le_dec : RelDecision role_le.
Proof. intros p q. unfold role_le. apply _. Defined.

Definition select_roles (identityRefID : string) (d : DB) : list RoleAssignment :=
  map (fun p => {| ra_role := p.1; ra_domain := default "" (sql_lower <$> p.2) |})
    (merge_sort role_le (map (role_name d)
      (List.filter (fun r => rb_identity_ref_id r =?s identityRefID) (map snd (map_to_list (bindings d)))))).

(** An error is no session. *)
Definition BoundSession_of (id : string) (now : Z) : M PS BoundSession :=
  guardM (id =?s "") "no session";;
  bound ← queryM (fun d => match select_bound id now d with Some b => Ok b | None => Err "sql: no rows in result set" end);
  roles ← queryM (fun d => Ok (select_roles (sn_identity_ref_id (bs_session bound)) d));
  mret (put bs_roles roles bound).

Definition BoundSession (id : string) (now : Z) : M PS (option authn.BoundSession) :=
  r ← tryM (BoundSession_of id now);
  mret (match r with Ok b => Some b | Err _ => None end).
End Sql.
End sql_store.

#[export] Instance sql_state_store `{HOST : !Host} {PS : Type} : StateStore PS := {
  PutAttempt := sql_store.PutAttempt;
  ConsumeAttempt := sql_store.ConsumeAttempt;
  PutSession := sql_store.PutSession;
  GetSession := sql_store.GetSession;
  identity_sessions := Some sql_store.PutIdentitySession;
}.

End authn.
