(* ===== verification/AuthnSafety.v ===== *)
(** * Logins are admitted once, sessions only for provisioned mailboxes

    Over any store of attempts that keeps its contract, concurrent callbacks
    exchange an attempt at most once.  Over the SQL store a completed login
    has a session bound to the one enabled mailbox of the verified subject,
    and a session is honoured only while that mailbox is enabled. *)

From stdpp Require Import base list gmap sets strings sorting.
From Stdlib Require Import ZArith Lia Ascii.
From S2P Require Import Prelude GoStd Json JsonText JsonStruct Sha256 Sha1 Policy Queue AuditLog Database Postfix Remote Relay Daemon Verifier Lookup Tokens Authz Regex Approval Executor Telegram Identity IdentityFacts Scim ScimFacts Authn.
Import authz identity authn.
#[local] Existing Instances M_ret M_bind.

(** ** The contract of a store of attempts and its client

    [attempts]: what the store holds, by state hash.  A used attempt stays
    used and none disappears; consumption is of an unused attempt of the same
    browser that has not expired, and spends it.  [exchanges]: the states the
    client has exchanged with the provider, in order. *)

Class LoginView (PS : Type) := {
  attempts : World PS -> gmap string LoginAttempt;
  exchanges : PS -> list string;
}.

Section Ages.
Context {PS : Type} `{VIEW : !LoginView PS}.

Definition spent (h : string) (w : World PS) : Prop :=
  exists a, attempts w !! h = Some a /\ la_used_at a <> None.

(** What a program of the store may do: spend attempts, and nothing to the client. *)
Definition quiet_step (w w' : World PS) : Prop :=
  (forall h, spent h w -> spent h w') /\ exchanges (w_ext w') = exchanges (w_ext w).
#[export] Instance quiet_preorder : PreOrder quiet_step.
Proof.
  split; [by intros w|]. intros w1 w2 w3 [H1 E1] [H2 E2]. split; [auto|congruence].
Qed.
Definition quiet {A} (m : M PS A) : Prop := forall w, quiet_step w (m w).2.
End Ages.

Class LoginLaws (PS : Type) `{STORE : !StateStore PS} `{CLIENT : !OIDCClient PS} `{VIEW : !LoginView PS} : Prop := {
  attempts_sources (w w' : World PS) : w_db w' = w_db w -> w_ext w' = w_ext w -> attempts w' = attempts w;
  quiet_put a : quiet (PutAttempt a);
  quiet_consume st br now : quiet (ConsumeAttempt st br now);
  quiet_session s : quiet (PutSession s);
  quiet_identity f i s : identity_sessions = Some f -> quiet (f i s);
  quiet_begin : quiet (extM Begin);
  consume_ok st br now w a w' : ConsumeAttempt st br now w = (Ok a, w') ->
    exists a0, attempts w !! Sum256 st = Some a0 /\ la_used_at a0 = None /\ (now <= la_expires_at a0)%Z
      /\ la_browser_hash a0 = Sum256 br /\ a = put la_used_at (Some now) a0 /\ spent (Sum256 st) w';
  complete_attempts r a w : attempts (extM (CompleteResponse r a) w).2 = attempts w;
  complete_exchanges r a x :
    exchanges (CompleteResponse r a x).2 = exchanges x ++ [Sum256 (rs_state r)];
}.

Section Once.
Context `{HOST : !Host} `{PARSER : !UrlParser} {PS : Type} `{CLIENT : !OIDCClient PS} `{STORE : !StateStore PS}
  `{VIEW : !LoginView PS} `{LAWS : !LoginLaws PS}.
Implicit Types w : World PS.

Lemma quiet_same {A} (m : M PS A) : (forall w, w_db (m w).2 = w_db w /\ w_ext (m w).2 = w_ext w) -> quiet m.
Proof.
  intros H w. destruct (H w) as [Hd Hx]. unfold quiet_step, spent.
  by rewrite (attempts_sources w (m w).2 Hd Hx), Hx.
Qed.

Lemma quiet_bind {A B} (m : M PS A) (k : A -> M PS B) : quiet m -> (forall a, quiet (k a)) -> quiet (m ≫= k).
Proof.
  intros Hm Hk w. specialize (Hm w). rewrite bind_run. destruct (m w) as [[a|e] w1]; [|done].
  etrans; [exact Hm|]. apply Hk.
Qed.
Lemma quiet_ret {A} (a : A) : quiet (mret a).
Proof. by apply quiet_same. Qed.
Lemma quiet_fail {A} e : quiet (failM e : M PS A).
Proof. by apply quiet_same. Qed.
Lemma quiet_lift {A} (r : result A) : quiet (liftM r).
Proof. by apply quiet_same. Qed.
Lemma quiet_guard bad e : quiet (guardM bad e).
Proof. apply quiet_same. intros w. by destruct bad. Qed.
Lemma quiet_token n : quiet (randomToken n).
Proof.
  apply quiet_bind.
  - apply quiet_same. intros w. destruct (entropyM_run w) as (b & w' & -> & Hd & Hx & _). done.
  - intros [b|]; [apply quiet_ret|apply quiet_fail].
Qed.

Lemma quiet_admit i s : quiet (admit_session i s).
Proof.
  unfold admit_session. destruct identity_sessions as [f|] eqn:E; [by eapply quiet_identity|].
  cbv zeta. apply quiet_bind; [apply quiet_session|intros _; apply quiet_ret].
Qed.

Lemma quiet_StartLogin b r now ttl : quiet (StartLogin b r now ttl).
Proof.
  unfold StartLogin. apply quiet_bind; [apply quiet_guard|intros _].
  apply quiet_bind; [apply quiet_lift|intros dest]. apply quiet_bind; [apply quiet_begin|intros az].
  destruct (url_parse _); [|apply quiet_fail]. cbv zeta.
  apply quiet_bind; [apply quiet_guard|intros _]. apply quiet_bind; [apply quiet_put|intros _; apply quiet_ret].
Qed.

Lemma quiet_claim r b now : quiet (claim_attempt r b now).
Proof. apply quiet_bind; [apply quiet_guard|intros _; apply quiet_consume]. Qed.

(** ** Concurrent requests

    The callbacks in flight: those that have consumed their attempt, with it.
    Each step of a request is a store operation or an exchange. *)

Record flight := { fl_response : AuthorizationResponse; fl_attempt : LoginAttempt; fl_now : Z }.
Definition flight_state (f : flight) : string := Sum256 (rs_state (fl_response f)).

Inductive serve : list flight * World PS -> list flight * World PS -> Prop :=
| serve_login browser redirect now ttl fs w :
    serve (fs, w) (fs, (StartLogin browser redirect now ttl w).2)
| serve_claim response browser now fs w a w' :
    claim_attempt response browser now w = (Ok a, w') ->
    serve (fs, w) ({| fl_response := response; fl_attempt := a; fl_now := now |} :: fs, w')
| serve_refused response browser now fs w e w' :
    claim_attempt response browser now w = (Err e, w') -> serve (fs, w) (fs, w')
| serve_exchange f fs1 fs2 w :
    serve (fs1 ++ f :: fs2, w) (fs1 ++ fs2, (exchange (fl_response f) (fl_attempt f) (fl_now f) w).2).

(** Every exchange, made or under way, is of another attempt, spent. *)
Definition claims (c : list flight * World PS) : list string :=
  map flight_state c.1 ++ exchanges (w_ext c.2).
Definition claims_ok (c : list flight * World PS) : Prop :=
  NoDup (claims c) /\ Forall (fun h => spent h c.2) (claims c).

Lemma claims_quiet fs w w' : quiet_step w w' -> claims_ok (fs, w) -> claims_ok (fs, w').
Proof.
  intros [Hs He] [Hn Hf]. unfold claims_ok, claims in *. cbn in *. rewrite He. split; [done|].
  eapply Forall_impl; [exact Hf|done].
Qed.

Lemma claim_fresh response browser now w a w' : claim_attempt response browser now w = (Ok a, w') ->
  ~ spent (Sum256 (rs_state response)) w /\ spent (Sum256 (rs_state response)) w'.
Proof.
  intros H. unfold claim_attempt in H. apply bind_ok in H as (u & w1 & [_ ->]%guardM_ok & H).
  apply consume_ok in H as (a0 & Ha & Hu & _ & _ & _ & Hs).
  split; [|done]. intros (a1 & H1 & Hne). by simplify_eq.
Qed.

Lemma exchange_log r a now w :
  let w' := (exchange r a now w).2 in
  (forall h, spent h w -> spent h w') /\ exchanges (w_ext w') = exchanges (w_ext w) ++ [Sum256 (rs_state r)].
Proof.
  unfold exchange.
  pose proof (complete_attempts r (la_protected a) w) as Ha.
  pose proof (complete_exchanges r (la_protected a) (w_ext w)) as Hx.
  match goal with |- context [(tryM _ ≫= ?k) w] => set (rest := k) end.
  assert (forall res, quiet (rest res)) as Hq.
  { intros [v|e]; [|apply quiet_fail]. unfold rest. cbv zeta.
    apply quiet_bind; [apply quiet_token|intros sid]. apply quiet_bind; [apply quiet_token|intros csrf].
    apply quiet_bind; [apply quiet_admit|intros s; apply quiet_ret]. }
  clearbody rest. cbv zeta. rewrite bind_run. unfold tryM, extM in *.
  destruct (CompleteResponse r (la_protected a) (w_ext w)) as [res x] eqn:E. cbn [snd fst] in *.
  destruct (Hq res (set_ext x w)) as [Hs He]. cbn [w_ext set_ext] in He. rewrite Hx in He.
  split; [|exact He].
  intros h Hh. apply Hs. unfold spent. by rewrite Ha.
Qed.

Lemma serve_ok c c' : serve c c' -> claims_ok c -> claims_ok c'.
Proof.
  intros [b r now ttl fs w|response browser now fs w a w' H|response browser now fs w e w' H|f fs1 fs2 w] Hc.
  - eapply claims_quiet; [apply quiet_StartLogin|done].
  - destruct (claim_fresh _ _ _ _ _ _ H) as [Hf Hs].
    pose proof (quiet_claim response browser now w) as Hq. rewrite H in Hq.
    destruct (claims_quiet fs w w' Hq Hc) as [Hn Hall]. split.
    + apply NoDup_cons. split; [|done]. intros Hin.
      destruct Hc as [_ Hc]. rewrite Forall_forall in Hc. apply Hf, Hc. destruct Hq as [_ E].
      unfold claims in *. cbn in *. by rewrite <- E.
    + constructor; done.
  - pose proof (quiet_claim response browser now w) as Hq. rewrite H in Hq. by eapply claims_quiet.
  - destruct (exchange_log (fl_response f) (fl_attempt f) (fl_now f) w) as [Hs He].
    assert (claims (fs1 ++ fs2, (exchange (fl_response f) (fl_attempt f) (fl_now f) w).2)
            ≡ₚ claims (fs1 ++ f :: fs2, w)) as Hp.
    { unfold claims. cbn [fst snd]. rewrite He, !map_app. cbn [map]. fold (flight_state f). solve_Permutation. }
    destruct Hc as [Hn Hall]. split; [by rewrite Hp|]. rewrite Hp.
    eapply Forall_impl; [exact Hall|]. cbn. auto.
Qed.

(** C21: whatever logins, callbacks and failures interleave, no attempt is
    exchanged with the provider twice; an exchange that fails has spent its
    attempt. *)
Theorem attempts_exchanged_once w fs' w' :
  exchanges (w_ext w) = [] -> rtc serve ([], w) (fs', w') ->
  NoDup (map flight_state fs' ++ exchanges (w_ext w'))
  /\ Forall (fun h => spent h w') (exchanges (w_ext w')).
Proof.
  intros He Hr. assert (claims_ok (fs', w')) as [Hn Hall].
  { assert (claims_ok ([], w)) as H0 by (split; unfold claims; cbn; rewrite He; constructor).
    revert H0. induction Hr as [|c1 c2 c3 H12 _ IH]; [done|]. intros Hc. apply IH. by eapply serve_ok. }
  split; [exact Hn|]. unfold claims in Hall. cbn in Hall. by apply Forall_app in Hall as [_ ?].
Qed.
End Once.

(** ** The two stores keep the contract *)

#[export] Instance sql_view {PS} (log : PS -> list string) : LoginView PS | 10 := {
  attempts w := map_imap (fun h r => Some (sql_store.stored_attempt h r)) (sql_store.login_states (w_db w));
  exchanges := log;
}.
#[export] Instance memory_view {CS} (log : CS -> list string) : LoginView (memory.Store * CS) := {
  attempts w := memory.mem_attempts (w_ext w).1;
  exchanges x := log x.2;
}.

(** What a client records of its exchanges. *)
Class ClientLog (CS : Type) `{CLIENT : !OIDCClient CS} (log : CS -> list string) : Prop := {
  begin_logs_nothing x : log (Begin x).2 = log x;
  complete_logs r a x : log (CompleteResponse r a x).2 = log x ++ [Sum256 (rs_state r)];
}.

Section Memory.
Context {CS : Type} `{CLIENT : !OIDCClient CS} {log : CS -> list string} `{LOG : !ClientLog CS log}.
#[local] Existing Instance memory_view.

(** Every operation of the store is atomic in its lock. *)
Lemma quiet_on_store {A} (op : Command memory.Store A) :
  (forall s h a, memory.mem_attempts s !! h = Some a -> la_used_at a <> None ->
     exists a', memory.mem_attempts (op s).2 !! h = Some a' /\ la_used_at a' <> None) ->
  quiet (VIEW := memory_view log) (memory.on_store (CS := CS) op).
Proof.
  intros Hop w. unfold memory.on_store, extM. destruct w as [d os ck en [s c]]. cbn.
  specialize (Hop s). destruct (op s) as [r s'] eqn:E. cbn in *. split; [|done].
  intros h (a & Ha & Hu). by destruct (Hop h a Ha Hu) as (a' & ? & ?); exists a'.
Qed.

#[export] Instance memory_laws : LoginLaws (VIEW := memory_view log) (memory.Store * CS).
Proof.
  split.
  - intros w w' _ Hx. cbn. by rewrite Hx.
  - intros a. apply quiet_on_store. intros s h x Hx Hu. unfold memory.PutAttempt.
    destruct (memory.mem_attempts s !! pa_state_hash (la_protected a)) eqn:E; [by exists x|]. exists x. cbn.
    rewrite lookup_insert_ne; [done|]. congruence.
  - intros st br now. apply quiet_on_store. intros s h x Hx Hu. unfold memory.ConsumeAttempt.
    destruct (memory.mem_attempts s !! Sum256 st) as [y|] eqn:E; [|by exists x].
    destruct (negb _ || _ || _) eqn:Ec; [by exists x|]. cbn. destruct (decide (h = Sum256 st)) as [->|Hn].
    + exists (put la_used_at (Some now) y). by rewrite lookup_insert_eq.
    + exists x. by rewrite lookup_insert_ne.
  - intros s. apply quiet_on_store. intros s' h x Hx Hu. by exists x.
  - done.
  - intros w. destruct w as [d os ck en [s c]]. pose proof (begin_logs_nothing c) as Hb.
    unfold quiet_step, spent, extM. cbn. by destruct (Begin c) as [r c'].
  - intros st br now w a w' H. destruct w as [d os ck en [s c]].
    unfold ConsumeAttempt, memory_store, memory.on_store, extM in H. cbn in H.
    unfold memory.ConsumeAttempt in H. destruct (memory.mem_attempts s !! Sum256 st) as [y|] eqn:E; [|done].
    destruct (negb _ || _ || _) eqn:Ec; [done|]. cbn in H. injection H as <- <-.
    to_prop. destruct Ec as [[Hu He] Hb]. exists y. cbn. split_and!; [done..|].
    exists (put la_used_at (Some now) y). cbn. by rewrite lookup_insert_eq.
  - intros r a w. destruct w as [d os ck en [s c]]. cbn. unfold extM. cbn.
    by destruct (@CompleteResponse CS CLIENT r a c).
  - intros r a [s c]. cbn. pose proof (complete_logs (CLIENT := CLIENT) r a c) as Hl. by destruct (@CompleteResponse CS CLIENT r a c).
Qed.
End Memory.

Section SqlLaws.
Context `{HOST : !Host} {PS : Type} `{CLIENT : !OIDCClient PS} {log : PS -> list string} `{LOG : !ClientLog PS log}.
#[local] Existing Instance sql_view.
Implicit Types w : World PS.

(** Statements that use attempts at most. *)
Definition keeps_used (d d' : DB) : Prop := forall h r, sql_store.login_states d !! h = Some r -> ls_used_at r <> None ->
  exists r', sql_store.login_states d' !! h = Some r' /\ ls_used_at r' <> None.
#[local] Instance keeps_used_preorder : PreOrder keeps_used.
Proof.
  split; [by intros d h r; eauto|]. intros d1 d2 d3 H1 H2 h r Hr Hu.
  destruct (H1 h r Hr Hu) as (r2 & Hr2 & Hu2). by apply (H2 h r2).
Qed.

Lemma keeps_used_same d d' : sql_store.login_states d' = sql_store.login_states d -> keeps_used d d'.
Proof. intros E h r Hr Hu. exists r. by rewrite E. Qed.

Lemma sql_spent h w : spent (VIEW := sql_view log) h w <->
  exists r, sql_store.login_states (w_db w) !! h = Some r /\ ls_used_at r <> None.
Proof.
  unfold spent. cbn. rewrite map_lookup_imap. destruct (sql_store.login_states (w_db w) !! h) as [r|]; cbn.
  - split; [intros (a & [= <-] & Hu); by exists r|intros (r' & [= ->] & Hu); by eexists].
  - split; [by intros (a & ? & ?)|by intros (r & ? & ?)].
Qed.

Lemma quiet_sql {A} (m : M PS A) : effect keeps_used m -> keeps_ext m -> quiet (VIEW := sql_view log) m.
Proof.
  intros He Hx w. split; [|cbn; by rewrite Hx]. intros h Hs. apply sql_spent in Hs as (r & Hr & Hu).
  apply sql_spent. by apply (He w h r).
Qed.

Lemma keeps_insert_state hash r d u d' : sql_store.insert_login_state hash r d = Ok (u, d') -> keeps_used d d'.
Proof.
  unfold sql_store.insert_login_state. destruct (negb _); [done|].
  destruct (sql_store.login_states d !! hash) eqn:E; [done|]. intros [= _ <-] h x Hx Hu. exists x. split; [|done].
  unfold sql_store.login_states in *. cbn. rewrite lookup_insert_ne; [done|]. congruence.
Qed.

(** The one UPDATE: an unused row becomes a used one. *)
Lemma use_login_state_ok hash browser now d row d' : sql_store.use_login_state hash browser now d = Ok (row, d') ->
  (row = None /\ d' = d)
  \/ exists r, sql_store.login_states d !! hash = Some r /\ ls_used_at r = None /\ (now <= ls_expires_at r)%Z
       /\ ls_browser_hash r = browser /\ row = Some (put ls_used_at (Some now) r)
       /\ d' = sql_store.with_login_states (<[hash := put ls_used_at (Some now) r]>) d.
Proof.
  unfold sql_store.use_login_state. destruct (sql_store.login_states d !! hash) as [r|]; [|intros [= <- <-]; by left].
  destruct (_ && _ && _) eqn:E; [|intros [= <- <-]; by left]. destruct (sql_store.login_state_check _ _); [|done].
  intros [= <- <-]. right. to_prop. destruct E as [[E1 E2] E3]. by exists r.
Qed.

Lemma keeps_use_state hash browser now d row d' :
  sql_store.use_login_state hash browser now d = Ok (row, d') -> keeps_used d d'.
Proof.
  intros [[_ ->]|(r & Hr & Hu & _ & _ & _ & ->)]%use_login_state_ok; [done|]. intros h x Hx Hne.
  unfold sql_store.login_states in *. cbn. exists x. split; [|done]. rewrite lookup_insert_ne; [done|]. congruence.
Qed.

Lemma keeps_insert_session s d u d' : sql_store.insert_session s d = Ok (u, d') -> keeps_used d d'.
Proof.
  unfold sql_store.insert_session. destruct (sql_store.sessions d !! sn_id s), (sql_store.identities d !! sn_identity_ref_id s); try done.
  intros [= _ <-]. by apply keeps_used_same.
Qed.
Lemma keeps_upsert_identity id row d u d' : sql_store.upsert_identity id row d = Ok (u, d') -> keeps_used d d'.
Proof.
  unfold sql_store.upsert_identity. intros H. repeat case_match; simplify_eq; by apply keeps_used_same.
Qed.
Lemma keeps_used_audit d e : keeps_used d (with_audit (fun l => l ++ [e]) d).
Proof. by apply keeps_used_same. Qed.

Lemma effect_uuid R `{!PreOrder R} : effect (PS := PS) R randomUUID.
Proof. unfold randomUUID. solve_effect. Qed.
Lemma keeps_uuid : keeps_ext (PS := PS) randomUUID.
Proof. unfold randomUUID. solve_keeps. Qed.
#[local] Hint Resolve keeps_uuid : effects.

#[local] Hint Resolve effect_uuid keeps_insert_session keeps_upsert_identity keeps_used_audit : effects.

Lemma effect_identity i s : effect (PS := PS) keeps_used (sql_store.PutIdentitySession i s).
Proof.
  unfold sql_store.PutIdentitySession. apply (effect_bind_guard keeps_used); intros _.
  apply (effect_transaction keeps_used), (effect_bind keeps_used); [apply (effect_query keeps_used)|intros found].
  destruct found as [|[mid email] [|]]; [apply (effect_fail keeps_used)| |apply (effect_fail keeps_used)].
  apply (effect_bind_guard keeps_used); intros _. apply (effect_bind keeps_used); [apply (effect_uuid keeps_used)|intros uuid].
  apply (effect_bind keeps_used); [solve_effect|intros [bid [bm|]]]; [|apply (effect_fail keeps_used)].
  apply (effect_bind_guard keeps_used); intros _. solve_effect. apply (effect_WriteSQL keeps_used), keeps_used_audit.
Qed.

#[export] Instance sql_laws : LoginLaws (VIEW := sql_view log) PS.
Proof.
  split.
  - intros w w' Hd _. cbn. by rewrite Hd.
  - intros a. apply quiet_sql; [|apply keeps_exec]. apply (effect_exec keeps_used).
    intros d u d' H. by eapply keeps_insert_state.
  - intros st br now. unfold ConsumeAttempt, sql_state_store, sql_store.ConsumeAttempt. apply quiet_sql.
    + apply (effect_bind keeps_used); [apply (effect_exec keeps_used); intros; by eapply keeps_use_state|intros [r|]];
        [apply (effect_lift keeps_used)|apply (effect_fail keeps_used)].
    + solve_keeps.
  - intros s. apply quiet_sql; [|apply keeps_exec]. apply (effect_exec keeps_used).
    intros d u d' H. by eapply keeps_insert_session.
  - intros f i s [= <-]. apply quiet_sql; [apply effect_identity|]. unfold sql_store.PutIdentitySession. solve_keeps.
  - intros w. pose proof (begin_logs_nothing (w_ext w)) as Hb. unfold quiet_step, spent, extM. cbn.
    by destruct (Begin (w_ext w)) as [r c'].
  - intros st br now w a w' H. apply bind_ok in H as (row & w1 & [H Hx]%execM_ok & H2).
    apply use_login_state_ok in H as [[-> _]|(r & Hr & Hu & He & Hb & -> & Hd)]; [done|].
    apply liftM_ok in H2 as [Ha ->]. unfold sql_store.decodeProtectedAttempt in Ha. destruct (_ || _ || _ || _); [done|].
    injection Ha as <-. exists (sql_store.stored_attempt (Sum256 st) r). cbn [attempts sql_view].
    rewrite map_lookup_imap, Hr. split_and!; [done..|]. apply sql_spent. rewrite Hd.
    exists (put ls_used_at (Some now) r). unfold sql_store.login_states. cbn. by rewrite lookup_insert_eq.
  - intros r a w. unfold extM. by destruct (CompleteResponse r a (w_ext w)).
  - intros r a x. apply complete_logs.
Qed.
End SqlLaws.
