(* ===== verification/AuthnSessions.v ===== *)
(** * Sessions of verified identities

    Over the SQL store: what a completed login has established, when a session
    is honoured and with which roles, and that a deprovisioned user has none. *)

From stdpp Require Import base list gmap sets strings sorting.
From Stdlib Require Import ZArith Lia Ascii.
From S2P Require Import Prelude GoStd Json JsonText JsonStruct Sha256 Sha1 Policy Queue AuditLog Database Postfix Remote Relay Daemon Verifier Lookup Tokens Authz Regex Approval Executor Telegram Identity IdentityFacts Scim ScimFacts Authn AuthnSafety.
Import authz identity authn.
#[local] Existing Instances M_ret M_bind.

(** ** Rows *)

Lemma find_row_some {A} (p : string -> A -> bool) (m : gmap string A) k v :
  find_row p m = Some (k, v) -> m !! k = Some v /\ p k v = true.
Proof.
  unfold find_row. intros H. apply find_some in H as [H1 H2]. split; [|done].
  by apply elem_of_map_to_list, list_elem_of_In.
Qed.
Lemma find_row_none {A} (p : string -> A -> bool) (m : gmap string A) k v :
  find_row p m = None -> m !! k = Some v -> p k v = false.
Proof.
  unfold find_row. intros H Hm. apply (find_none _ _ H (k, v)).
  by apply list_elem_of_In, elem_of_map_to_list.
Qed.

Lemma elem_of_rows {A} (p : string * A -> bool) (m : gmap string A) kv :
  kv ∈ List.filter p (map_to_list m) <-> m !! kv.1 = Some kv.2 /\ p kv = true.
Proof. rewrite list_elem_of_In, filter_In, <- list_elem_of_In, elem_of_map_to_list'. done. Qed.

Section Sessions.
Context `{HOST : !Host} {PS : Type}.
Implicit Types (w : World PS) (d : DB).

(** ** The mailbox of a subject *)

(** An enabled mailbox with its domain that a User of the subject provisioned. *)
Definition provisioned d (subject mailboxID email : string) : Prop :=
  exists rid r m, scim.resources d !! rid = Some r /\ sm_type r = "User" /\ sm_external_id r = subject
    /\ db_mailboxes d !! mailboxID = Some m /\ mb_scim_resource_id m = Some rid /\ mb_enabled m = true
    /\ sql_store.mailbox_email d m = Some email.
Definition sole_mailbox d (subject mailboxID email : string) : Prop :=
  provisioned d subject mailboxID email
  /\ forall other e, provisioned d subject other e -> other = mailboxID.

Lemma active_mailbox_some rid d k m mid email :
  sql_store.active_mailbox rid d (k, m) = Some (mid, email) <->
  k = mid /\ mb_scim_resource_id m = Some rid /\ mb_enabled m = true /\ sql_store.mailbox_email d m = Some email.
Proof.
  unfold sql_store.active_mailbox. cbn. destruct (bool_decide _ && _) eqn:E; to_prop.
  - destruct E as [E1 E2]. destruct (sql_store.mailbox_email d m) as [e|]; cbn; split.
    + by intros [= -> ->].
    + by intros (-> & _ & _ & [= ->]).
    + done.
    + by intros (_ & _ & _ & ?).
  - split; [done|]. intros (_ & E1 & E2 & _). destruct E; congruence.
Qed.

Lemma elem_of_candidates d subject mid email :
  (mid, email) ∈ flat_map (fun sr => omap (sql_store.active_mailbox sr.1 d) (map_to_list (db_mailboxes d)))
                   (sql_store.subject_resources subject d)
  <-> provisioned d subject mid email.
Proof.
  rewrite list_elem_of_In, in_flat_map. unfold sql_store.subject_resources, provisioned. split.
  - intros ([rid r] & Hr & Hm). apply list_elem_of_In in Hr, Hm. rewrite merge_sort_Permutation in Hr.
    apply elem_of_rows in Hr as [Hr Hp]. apply list_elem_of_omap in Hm as ([k m] & Hm & Ha).
    apply elem_of_map_to_list in Hm. apply active_mailbox_some in Ha as (-> & ? & ? & ?).
    cbn in *. to_prop. destruct Hp. by exists rid, r, m.
  - intros (rid & r & m & Hr & Ht & Hx & Hm & Hs & He & Hl). exists (rid, r).
    rewrite <- !list_elem_of_In, merge_sort_Permutation, elem_of_rows, list_elem_of_omap. cbn.
    split; [by rewrite Ht, Hx, !eqs_refl|]. exists (mid, m). rewrite elem_of_map_to_list, active_mailbox_some. done.
Qed.

Lemma candidates_sole d subject mid email :
  sql_store.candidates subject d = [(mid, email)] -> sole_mailbox d subject mid email.
Proof.
  unfold sql_store.candidates. set (l := flat_map _ _). intros H.
  assert (l = [(mid, email)]) as Hl.
  { clearbody l. destruct l as [|x [|y l]]; [done|by injection H as ->|discriminate H]. }
  split.
  - apply elem_of_candidates. fold l. rewrite Hl. by left.
  - intros other e Ho. apply elem_of_candidates in Ho. fold l in Ho. rewrite Hl in Ho.
    by apply list_elem_of_singleton in Ho as [= -> _].
Qed.

(** ** Binding a session *)

Lemma upsert_identity_ok id row d bid mailbox d' :
  sql_store.upsert_identity id row d = Ok (bid, mailbox, d') -> mailbox = ir_mailbox_id row ->
  sql_store.identities d' !! bid = Some row
  /\ (d' = d \/ sql_store.identities d !! bid = None /\ d' = sql_store.with_identities (<[bid := row]>) d).
Proof.
  unfold sql_store.upsert_identity. destruct (negb _); [done|].
  destruct (find_row _ (sql_store.identities d)) as [[old r]|] eqn:E.
  - apply find_row_some in E as [Hr Hs]. intros [= <- <- <-] Hm. split; [|by left]. rewrite Hr. f_equal.
    unfold sql_store.same_identity in Hs. destruct r, row. cbn in *. to_prop. naive_solver.
  - destruct (sql_store.identities d !! id) eqn:Ei; [done|]. match goal with |- context [find_row ?p ?t] => destruct (find_row p t) end; [done|].
    destruct (match ir_mailbox_id row with Some m => bool_decide (db_mailboxes d !! m = None) | None => false end);
      [done|]. intros [= <- <- <-] _.
    split; [unfold sql_store.identities; cbn; apply lookup_insert_eq|by right].
Qed.

Lemma PutIdentitySession_ok i s w s' w' : sql_store.PutIdentitySession i s w = (Ok s', w') ->
  exists mid email bid d1 ev, sole_mailbox (w_db w) (id_subject i) mid email
    /\ EqualFold email (TrimSpace (id_email i)) = true
    /\ s' = put sn_identity_ref_id bid s
    /\ sql_store.identities d1 !! bid = Some (sql_store.authentik_row i mid)
    /\ (d1 = w_db w \/ sql_store.identities (w_db w) !! bid = None
        /\ d1 = sql_store.with_identities (<[bid := sql_store.authentik_row i mid]>) (w_db w))
    /\ sql_store.sessions (w_db w) !! sn_id s = None
    /\ w_db w' = with_audit (fun l => l ++ [ev])
                   (sql_store.with_sessions (<[sn_id s := sql_store.session_row s']>) d1)
    /\ ev_action ev = "oidc.session.create" /\ resource_id (ev_resource ev) = bid
    /\ w_ext w' = w_ext w.
Proof.
  unfold sql_store.PutIdentitySession. intros H. apply bind_ok in H as (u & w0 & [_ ->]%guardM_ok & H).
  apply transaction_ok in H as (w1 & c & w2 & Hb & D1 & X1 & X2 & D2).
  apply bind_ok in Hb as (found & w3 & (Hq & D3 & X3)%queryM_ok & Hb). rewrite D1 in Hq. injection Hq as Hq.
  destruct found as [|[mid email] [|]]; [done| |done].
  apply bind_ok in Hb as (u1 & w4 & [Hg ->]%guardM_ok & Hb).
  apply bind_ok in Hb as (uuid & w5 & Hu & Hb).
  assert (w_db w5 = w_db w3 /\ w_ext w5 = w_ext w3) as [D5 X5].
  { pose proof (effect_uuid (PS := PS) eq w3) as E1. pose proof (keeps_uuid w3) as E2. by rewrite Hu in E1, E2. }
  apply bind_ok in Hb as ([bid [bm|]] & w6 & [Hi X6]%execM_ok & Hb); [|done].
  apply bind_ok in Hb as (u2 & w7 & [Hg2 ->]%guardM_ok & Hb). to_prop. subst bm.
  apply upsert_identity_ok in Hi as [Hi Hd1]; [|done]. cbv zeta in Hb.
  apply bind_ok in Hb as (u3 & w8 & [Hs X8]%execM_ok & Hb).
  apply bind_ok in Hb as (u4 & w9 & (ev & D9 & X9 & Ea & Er & _)%WriteSQL_ok & [= <- <- <-]).
  exists mid, email, bid, (w_db w6), ev. unfold sql_store.insert_session in Hs.
  destruct (sql_store.sessions (w_db w6) !! _) eqn:Es, (sql_store.identities (w_db w6) !! _); try done.
  injection Hs as _ Hs. rewrite D5, D3, D1 in Hd1. split_and!; try done.
  - by apply candidates_sole.
  - cbn in Es. by destruct Hd1 as [Hd1|[_ Hd1]]; rewrite Hd1 in Es.
  - by rewrite D2, D9, <- Hs.
  - by rewrite Er.
  - congruence.
Qed.

(** ** Honoured sessions *)

Lemma select_bound_some sid now d b : sql_store.select_bound sid now d = Some b <->
  exists s ir mid m email, sql_store.sessions d !! sid = Some s
    /\ sql_store.identities d !! se_identity_ref_id s = Some ir /\ ir_mailbox_id ir = Some mid
    /\ db_mailboxes d !! mid = Some m /\ sql_store.mailbox_email d m = Some email
    /\ se_revoked_at s = None /\ (se_created_at s <= now < se_expires_at s)%Z /\ mb_enabled m = true
    /\ b = {| bs_session := sql_store.session_of sid s; bs_issuer := ir_issuer ir; bs_subject := ir_subject ir;
              bs_mailbox := email; bs_roles := [] |}.
Proof.
  unfold sql_store.select_bound, sql_store.live_at. split.
  - intros H. destruct (sql_store.sessions d !! sid) as [s|]; [|done]. cbn in H.
    destruct (sql_store.identities d !! _) as [ir|] eqn:E1; [|done]. cbn in H.
    destruct (ir_mailbox_id ir) as [mid|] eqn:E2; [|done]. cbn in H.
    destruct (db_mailboxes d !! mid) as [m|] eqn:E3; [|done]. cbn in H.
    destruct (sql_store.mailbox_email d m) as [email|] eqn:E4; [|done]. cbn in H.
    destruct (_ && mb_enabled m) eqn:E5; [|done]. to_prop. destruct E5 as [[[E5 E6] E7] E8]. injection H as <-.
    exists s, ir, mid, m, email. split_and!; auto with lia.
  - intros (s & ir & mid & m & email & Hs & Hi & Hm & Hrow & He & Hr & Ht & Hen & ->).
    rewrite Hs. cbn. rewrite Hi. cbn. rewrite Hm. cbn. rewrite Hrow. cbn. rewrite He. cbn.
    rewrite Hr, Hen, bool_decide_true by done.
    destruct Ht as [H1%Z.leb_le H2%Z.ltb_lt]. by rewrite H1, H2.
Qed.

(** ** Completed logins *)

Lemma raw_url_nonempty l : l <> [] -> raw_url_encode l <> "".
Proof. destruct l as [|x [|y [|z l]]]; by intros H. Qed.

Lemma authn_token_ok n w t w' : n <> 0 -> randomToken n w = (Ok t, w') ->
  w_db w' = w_db w /\ w_ext w' = w_ext w /\ t <> "".
Proof.
  intros Hn H. apply bind_ok in H as (b & w1 & He & H). destruct (entropyM_run w) as (b' & w2 & E & Hd & Hx & _).
  rewrite E in He. injection He as -> ->. destruct b as [bytes|]; [|done]. injection H as <- <-.
  split_and!; [done..|]. apply raw_url_nonempty. unfold fill. destruct n; [done|]. by destruct bytes.
Qed.

Lemma hashText_valid s secret : secret <> "" -> sn_csrf_secret_hash s = hashText secret -> ValidCSRF s secret = true.
Proof.
  intros Hs He. unfold ValidCSRF. rewrite He. apply eqs_false in Hs as ->.
  assert (hashText secret <> "") as ->%eqs_false; [|apply eqs_refl].
  apply raw_url_nonempty. intros E. destruct (sum256_shape (bytes_of secret)) as [Hl _]. by rewrite E in Hl.
Qed.

Context `{CLIENT : !OIDCClient PS}.

Lemma claim_sql_ok response browser now w a w' :
  claim_attempt response browser now w = (Ok a, w') ->
  exists row, let h := Sum256 (rs_state response) in
    sql_store.login_states (w_db w) !! h = Some row /\ ls_used_at row = None
    /\ (now <= ls_expires_at row)%Z /\ ls_browser_hash row = Sum256 browser
    /\ a = sql_store.stored_attempt h (put ls_used_at (Some now) row)
    /\ w_db w' = sql_store.with_login_states (<[h := put ls_used_at (Some now) row]>) (w_db w)
    /\ w_ext w' = w_ext w.
Proof.
  intros H. apply bind_ok in H as (u & w0 & [_ ->]%guardM_ok & H). cbn [ConsumeAttempt sql_state_store] in H.
  apply bind_ok in H as (row & w1 & [H Hx]%execM_ok & H2).
  apply use_login_state_ok in H as [[-> _]|(r & Hr & Hu & He & Hb & -> & Hd)]; [done|].
  apply liftM_ok in H2 as [Ha ->]. unfold sql_store.decodeProtectedAttempt in Ha.
  destruct (_ || _ || _ || _); [done|]. injection Ha as <-. by exists r.
Qed.

(** What a login that ended in [res] has established, from [d] to [d']: the one
    mailbox of the subject, at most a new identity row bound to it, exactly one
    new session, one audit event, and nothing else. *)
Record admitted (now : Z) (i : Identity) (res : CallbackResult) d d' : Prop := {
  ad_established : exists mid email d1 ev, let s := cr_session res in let ref := sn_identity_ref_id s in
    sole_mailbox d (id_subject i) mid email
    /\ EqualFold email (TrimSpace (id_email i)) = true
    /\ sql_store.identities d1 !! ref = Some (sql_store.authentik_row i mid)
    /\ (d1 = d \/ sql_store.identities d !! ref = None
        /\ d1 = sql_store.with_identities (<[ref := sql_store.authentik_row i mid]>) d)
    /\ sql_store.sessions d !! sn_id s = None
    /\ d' = with_audit (fun l => l ++ [ev]) (sql_store.with_sessions (<[sn_id s := sql_store.session_row s]>) d1)
    /\ ev_action ev = "oidc.session.create" /\ resource_id (ev_resource ev) = ref
    /\ sql_store.select_bound (sn_id s) now d'
       = Some {| bs_session := s; bs_issuer := id_issuer i; bs_subject := id_subject i;
                 bs_mailbox := email; bs_roles := [] |};
  ad_csrf : ValidCSRF (cr_session res) (cr_csrf_secret res) = true;
}.

Lemma login_admitted response browser now w res w' :
  CompleteCallback response browser now w = (Ok res, w') ->
  let h := Sum256 (rs_state response) in
  exists row verified, sql_store.login_states (w_db w) !! h = Some row /\ ls_used_at row = None
    /\ (now <= ls_expires_at row)%Z /\ ls_browser_hash row = Sum256 browser
    /\ cr_redirect res = ls_redirect row
    /\ CompleteResponse response (la_protected (sql_store.stored_attempt h row)) (w_ext w) = (Ok verified, w_ext w')
    /\ cr_identity res = identity_of verified
    /\ sql_store.login_states (w_db w') !! h = Some (put ls_used_at (Some now) row)
    /\ admitted now (identity_of verified) res
         (sql_store.with_login_states (<[h := put ls_used_at (Some now) row]>) (w_db w)) (w_db w').
Proof.
  intros H h. apply bind_ok in H as (a & w1 & (row & Hr & Hu & He & Hb & -> & D1 & X1)%claim_sql_ok & H).
  unfold exchange in H. apply bind_ok in H as (completed & w2 & Hc & H).
  unfold tryM, extM in Hc. destruct (CompleteResponse _ _ _) as [r x] eqn:Ec. injection Hc as <- <-.
  destruct r as [verified|e]; [|done]. cbv zeta in H.
  apply bind_ok in H as (sid & w3 & (D3 & X3 & _)%authn_token_ok & H); [|done].
  apply bind_ok in H as (csrf & w4 & (D4 & X4 & Hs)%authn_token_ok & H); [|done].
  apply bind_ok in H as (s & w5 & Hi & [= <- <-]).
  cbn [admit_session identity_sessions sql_state_store] in Hi. unfold admit_session in Hi. cbn in Hi.
  apply PutIdentitySession_ok in Hi as (mid & email & bid & d1 & ev & Hm & Hf & -> & Hid & Hd1 & Hfree & D5 & Ea & Er & X5).
  cbn [w_db w_ext set_ext] in *. rewrite D3 in D4. rewrite D4, D1 in Hm, Hd1, Hfree.
  assert (sql_store.mailbox_email d1 = sql_store.mailbox_email (w_db w) /\ db_mailboxes d1 = db_mailboxes (w_db w)
    /\ sql_store.login_states d1 !! h = Some (put ls_used_at (Some now) row)) as (M1 & M2 & M4).
  { destruct Hd1 as [->|[_ ->]]; split_and!; try done; unfold sql_store.login_states; cbn; apply lookup_insert_eq. }
  exists row, verified. split_and!; try done.
  - rewrite X5, X4, X3. cbn. by rewrite <- X1, <- Ec.
  - by rewrite D5.
  - split.
    + exists mid, email, d1, ev. cbv zeta. split_and!; [exact Hm|done|exact Hid|exact Hd1|exact Hfree|exact D5|done|exact Er|].
      apply select_bound_some.
      destruct Hm as [(rid & r & m & _ & _ & _ & Hrow & _ & Hen & Hem) _].
      exists (sql_store.session_row (put sn_identity_ref_id bid (new_session sid csrf now))),
        (sql_store.authentik_row (identity_of verified) mid), mid, m, email.
      rewrite D5. unfold sql_store.sessions. cbn. rewrite lookup_insert_eq.
      split; [done|]. split; [exact Hid|]. split; [done|]. split; [by rewrite M2|].
      split; [by change (sql_store.mailbox_email d1 m = Some email); rewrite M1|]. unfold minutes. split_and!; done || lia.
    + by apply hashText_valid.
Qed.

(** C22: what a callback establishes: it answers with a login only for an unused
    attempt of the same browser that has not expired, which it has used up,
    and a response the provider's client verified; the verified subject has
    exactly one enabled mailbox that SCIM provisioned, of the verified address.
    The database it leaves is the old one with the attempt used up, that
    identity bound to that mailbox (by its row, or by one new row), exactly one
    new session, under an identifier that was free, and one audit event;
    the session is honoured for that identity and mailbox, and the CSRF
    secret is the session's. *)
Theorem login_session_sound response browser now w res w' :
  CompleteCallback response browser now w = (Ok res, w') ->
  let h := Sum256 (rs_state response) in
  exists row verified, sql_store.login_states (w_db w) !! h = Some row /\ ls_used_at row = None
    /\ (now <= ls_expires_at row)%Z /\ ls_browser_hash row = Sum256 browser
    /\ cr_redirect res = ls_redirect row
    /\ CompleteResponse response (la_protected (sql_store.stored_attempt h row)) (w_ext w) = (Ok verified, w_ext w')
    /\ cr_identity res = identity_of verified
    /\ sql_store.login_states (w_db w') !! h = Some (put ls_used_at (Some now) row)
    /\ admitted now (identity_of verified) res
         (sql_store.with_login_states (<[h := put ls_used_at (Some now) row]>) (w_db w)) (w_db w').
Proof. apply login_admitted. Qed.

(** ** Roles *)

Lemma elem_of_select_roles ref d ra : ra ∈ sql_store.select_roles ref d <->
  exists k r, sql_store.bindings d !! k = Some r /\ rb_identity_ref_id r = ref
    /\ ra = {| ra_role := rb_role r;
               ra_domain := default "" (sql_lower <$> (sql_store.role_name d r).2) |}.
Proof.
  unfold sql_store.select_roles. rewrite list_elem_of_fmap. split.
  - intros (p & -> & Hp). rewrite merge_sort_Permutation, list_elem_of_fmap in Hp.
    destruct Hp as (r & -> & Hr). apply list_elem_of_In, filter_In in Hr as [Hr He].
    apply list_elem_of_In, list_elem_of_fmap in Hr as ([k r'] & -> & Hr%elem_of_map_to_list).
    cbn in *. to_prop. by exists k, r'.
  - intros (k & r & Hr & He & ->). exists (sql_store.role_name d r). split; [done|].
    rewrite merge_sort_Permutation, list_elem_of_fmap. exists r. split; [done|].
    apply list_elem_of_In, filter_In. rewrite He, eqs_refl. split; [|done].
    apply list_elem_of_In, list_elem_of_fmap. exists (k, r). by rewrite elem_of_map_to_list.
Qed.

Lemma BoundSession_ok sid now w b w' : sql_store.BoundSession sid now w = (Ok (Some b), w') ->
  w_db w' = w_db w /\ w_ext w' = w_ext w
  /\ exists b0, sql_store.select_bound sid now (w_db w) = Some b0
       /\ b = put bs_roles (sql_store.select_roles (sn_identity_ref_id (bs_session b0)) (w_db w)) b0.
Proof.
  intros H. apply bind_ok in H as (r & w1 & H & [= E <-]). unfold tryM in H.
  destruct (sql_store.BoundSession_of sid now w) as [r0 w2] eqn:Eb. injection H as <- <-.
  destruct r0 as [b'|]; [|done]. injection E as <-.
  apply bind_ok in Eb as (u & w3 & [_ ->]%guardM_ok & Eb).
  apply bind_ok in Eb as (b0 & w4 & (Hq & D4 & X4)%queryM_ok & Eb).
  apply bind_ok in Eb as (roles & w5 & (Hr & D5 & X5)%queryM_ok & [= <- <-]).
  destruct (sql_store.select_bound sid now (w_db w)) as [b1|]; [|done]. injection Hq as ->. injection Hr as <-.
  split; [congruence|]. split; [congruence|]. exists b0. by rewrite D4.
Qed.

Lemma BoundSession_same sid now w : w_db (sql_store.BoundSession sid now w).2 = w_db w
  /\ w_ext (sql_store.BoundSession sid now w).2 = w_ext w.
Proof.
  split.
  - enough (effect (PS := PS) eq (sql_store.BoundSession sid now)) as H by (symmetry; apply H).
    unfold sql_store.BoundSession, sql_store.BoundSession_of. solve_effect.
  - enough (keeps_ext (PS := PS) (sql_store.BoundSession sid now)) as H by apply H.
    unfold sql_store.BoundSession, sql_store.BoundSession_of. solve_keeps.
Qed.

(** The session is honoured, and these are the roles of its identity. *)
Record honoured sid now (b : BoundSession) d : Prop := {
  hn_row : exists s ir mid m, sql_store.sessions d !! sid = Some s /\ bs_session b = sql_store.session_of sid s
    /\ se_revoked_at s = None /\ (se_created_at s <= now < se_expires_at s)%Z
    /\ sql_store.identities d !! se_identity_ref_id s = Some ir
    /\ bs_issuer b = ir_issuer ir /\ bs_subject b = ir_subject ir
    /\ ir_mailbox_id ir = Some mid /\ db_mailboxes d !! mid = Some m /\ mb_enabled m = true
    /\ sql_store.mailbox_email d m = Some (bs_mailbox b);
  hn_roles : forall ra, ra ∈ bs_roles b <->
    exists k r, sql_store.bindings d !! k = Some r /\ rb_identity_ref_id r = sn_identity_ref_id (bs_session b)
      /\ ra = {| ra_role := rb_role r; ra_domain := default "" (sql_lower <$> (sql_store.role_name d r).2) |};
}.

Lemma BoundSession_honoured sid now w b w' :
  sql_store.BoundSession sid now w = (Ok (Some b), w') -> honoured sid now b (w_db w).
Proof.
  intros (_ & _ & b0 & Hb & ->)%BoundSession_ok.
  apply select_bound_some in Hb as (s & ir & mid & m & email & Hs & Hi & Hm & Hrow & He & Hr & Ht & Hen & ->).
  split.
  - exists s, ir, mid, m. by split_and!; try apply Ht.
  - intros ra. apply elem_of_select_roles.
Qed.

(** A session is honoured only as its row and its identity say: it is not
    revoked, the time is in its window, the mailbox of its identity is enabled
    and is the one it names, and its roles are exactly the bindings of the
    identity. *)
Theorem BoundSession_sound sid now w b w' :
  sql_store.BoundSession sid now w = (Ok (Some b), w') -> honoured sid now b (w_db w) /\ w_db w' = w_db w.
Proof.
  intros H. split; [by eapply BoundSession_honoured|]. by apply BoundSession_ok in H as (-> & _).
Qed.
End Sessions.

(** ** Deprovisioning *)

Section Deprovisioned.
Context `{HOST : !Host} `{MAIL : !MailParser} `{ORDER : !MapOrder} `{KDF : !Pbkdf2} `{CODEC : !scim.ScimCodec}.

(** From the commit of a SCIM DELETE on, no session is honoured for a mailbox
    the deleted user provisioned, whatever the time and whatever other
    identities are bound to it. *)
Theorem deleted_user_has_no_session md scope id version t (w w' : World scim.SQLStore) u st sid now v b v' :
  scim.ss_identity (w_ext w) = Some st ->
  scim.Transact md None (one_call (scim.call_delete scope "User" id version t)) w = (Ok u, w') ->
  w_db v = w_db w' ->
  sql_store.BoundSession (PS := scim.SQLStore) sid now v = (Ok (Some b), v') ->
  exists ir mid m, sql_store.identities (w_db w') !! sn_identity_ref_id (bs_session b) = Some ir
    /\ ir_mailbox_id ir = Some mid /\ db_mailboxes (w_db w') !! mid = Some m
    /\ mb_enabled m = true /\ mb_scim_resource_id m <> Some id.
Proof.
  intros Hst H Hv Hb. apply (committed_delete _ _ _ _ _ _ _ _ _ Hst) in H as [[_ _ Hm _] _].
  apply BoundSession_honoured in Hb as [(s & ir & mid & m & _ & Es & _ & _ & Hi & _ & _ & Hir & Hrow & Hen & _) _].
  rewrite Hv in *. exists ir, mid, m. rewrite Es. split_and!; [done..|].
  intros Hs. rewrite (Hm _ _ Hrow Hs) in Hen. done.
Qed.
End Deprovisioned.
