(* ===== verification/RoleBinding.v ===== *)
(** * Role bindings (internal/rolebinding/rolebinding.go)

    The operator grants and revokes the roles of a verified identity: a preview
    returns the digest of the current state, and the change is applied in one
    transaction only when that digest is confirmed and still current. *)

From stdpp Require Import base list gmap sets strings pretty.
From Stdlib Require Import ZArith Lia Ascii.
From S2P Require Import Prelude GoStd Json JsonText JsonStruct Sha256 Sha1 Policy Queue AuditLog Database QueueStore Admin Postfix Remote Relay Daemon Verifier Lookup Tokens Authz Regex Approval Executor Telegram Identity Scim Authn.
Import authz identity authn.
#[local] Existing Instances M_ret M_bind.

(** ** Time.Format(time.RFC3339Nano) of a UTC time

    The time is in nanoseconds since 1970; a civil date is computed over
    cycles of 400 years. *)

Module rfc3339.
Definition civil (days : Z) : Z * Z * Z :=
  let z := (days + 719468)%Z in
  let era := (z / 146097)%Z in
  let doe := (z mod 146097)%Z in
  let yoe := ((doe - doe / 1460 + doe / 36524 - doe / 146096) / 365)%Z in
  let doy := (doe - (365 * yoe + yoe / 4 - yoe / 100))%Z in
  let mp := ((5 * doy + 2) / 153)%Z in
  let d := (doy - (153 * mp + 2) / 5 + 1)%Z in
  let m := if (mp <? 10)%Z then (mp + 3)%Z else (mp - 9)%Z in
  (yoe + era * 400 + (if (m <=? 2)%Z then 1 else 0), m, d)%Z.

(** At least [width] digits. *)
Definition padded (width : nat) (n : Z) : string :=
  let s := FormatInt n in
  String.string_of_list_ascii (replicate (width - len s) "0"%char) +:+ s.

Fixpoint trim_zeros (r : string) : string :=
  match r with
  | String "0" r => trim_zeros r
  | _ => r
  end.
Definition fraction (nanos : Z) : string :=
  if (nanos =? 0)%Z then "" else "." +:+ String.rev (trim_zeros (String.rev (padded 9 nanos))).

Definition format (t : Z) : string :=
  let seconds := (t / 1000000000)%Z in
  let rest := (seconds mod 86400)%Z in
  let '(y, m, d) := civil (seconds / 86400) in
  (if (y <? 0)%Z then "-" +:+ padded 4 (- y) else padded 4 y) +:+ "-" +:+ padded 2 m +:+ "-" +:+ padded 2 d
  +:+ "T" +:+ padded 2 (rest / 3600) +:+ ":" +:+ padded 2 (rest / 60 mod 60) +:+ ":" +:+ padded 2 (rest mod 60)
  +:+ fraction (t mod 1000000000) +:+ "Z".
End rfc3339.

Example rfc3339_leap_day : rfc3339.format 1709210096120000000 = "2024-02-29T12:34:56.12Z".
Proof. vm_compute. reflexivity. Qed.
Example rfc3339_epoch : rfc3339.format 0 = "1970-01-01T00:00:00Z".
Proof. vm_compute. reflexivity. Qed.

Module rolebinding.

Definition OperationGrant : string := "grant".
Definition OperationRevoke : string := "revoke".

Record Request := {
  rq_operation : string; rq_issuer : string; rq_subject : string; rq_mailbox : string;
  rq_role : string; rq_domain : string;
}.
Record Plan := {
  pl_plan_id : string; pl_identity_id : string; pl_mailbox : string; pl_role : string;
  pl_domain : string; pl_operation : string;
}.
Record Result := { re_plan : Plan; re_changed : bool }.

(** What the database says about a request; [st_binding] is the row that
    binds the role, with the time of its last update. *)
Record state := {
  st_identity_id : string; st_mailbox : string; st_domain_id : string; st_mailbox_enabled : bool;
  st_mailbox_domain_enabled : bool; st_target_domain_enabled : bool; st_binding_id : string;
  st_binding_updated : Z;
}.

Section RoleBinding.
Context `{HOST : !Host} `{MAIL : !MailParser} `{PARSER : !UrlParser} {PS : Type}.

(** ** Validation *)

Definition validIssuer (value : string) : bool :=
  match url_parse value with
  | None => false
  | Some parsed =>
      (url_scheme parsed =?s "https") && (url_host parsed <>?s "")
      && (url_host parsed =?s ToLower (url_host parsed)) && negb (url_user parsed)
      && (url_raw_query parsed =?s "") && (url_fragment parsed =?s "")
      && (url_path parsed =?s "/application/o/gotth-mail/") && (url_text parsed =?s value)
  end.

Definition validText (value : string) (minimum maximum : nat) : bool :=
  ValidString value && (minimum <=? length (runes value)) && (length (runes value) <=? maximum)
  && negb (HasControl value).

Definition label_byte (c : ascii) : bool :=
  in_range 97 122 c || in_range 48 57 c || (byte_val c =? 45)%N.
Definition validLabel (label : string) : bool :=
  (1 <=? len label) && (len label <=? 63) && negb (HasPrefix label "-") && negb (HasSuffixByte label "-")
  && forall_bytes label_byte label.
Definition validDomain (value : string) : bool :=
  (3 <=? len value) && (len value <=? 253) && negb (HasSuffixByte value ".") && negb (Contains value "..")
  && (value =?s ToLower value)
  && (2 <=? length (SplitByte "." value)) && forallb validLabel (SplitByte "." value).

Definition normalize (request0 : Request) : result Request :=
  let operation := TrimSpace (rq_operation request0) in
  if (rq_issuer request0 <>?s TrimSpace (rq_issuer request0))
     || (rq_subject request0 <>?s TrimSpace (rq_subject request0))
  then Err "role-binding identity is invalid" else
  let mailbox := ToLower (TrimSpace (rq_mailbox request0)) in
  let role := TrimSpace (rq_role request0) in
  let domain := ToLower (TrimSpace (rq_domain request0)) in
  if (operation <>?s OperationGrant) && (operation <>?s OperationRevoke)
  then Err "role-binding operation must be grant or revoke" else
  if negb (validIssuer (rq_issuer request0)) || negb (validText (rq_subject request0) 1 1024)
  then Err "role-binding identity is invalid" else
  if negb (bool_decide (ParseAddress mailbox = Some mailbox)) || negb (count_byte "@" mailbox =? 1)
  then Err "role-binding mailbox is invalid" else
  let request := {| rq_operation := operation; rq_issuer := rq_issuer request0;
                    rq_subject := rq_subject request0; rq_mailbox := mailbox; rq_role := role;
                    rq_domain := domain |} in
  if role =?s RoleGlobalAdmin then
    if domain <>?s "" then Err "global administrator role cannot name a domain" else Ok request
  else if (role =?s RoleDomainManager) || (role =?s RoleScopedDomainAccess) then
    if negb (validDomain domain) then Err "domain-scoped role requires one valid domain" else Ok request
  else Err "role-binding role is invalid".

(** ** The current state *)

(** SELECT ir.id::text, lower(m.local_part || '@' || md.name), m.enabled,
    md.enabled ...: the address, and whether mailbox and domain are enabled. *)
Definition identity_mailbox (d : DB) (r : IdentityRow) : option (string * bool * bool) :=
  mailboxID ← ir_mailbox_id r;
  m ← db_mailboxes d !! mailboxID;
  dom ← db_domains d !! mb_domain_id m;
  Some (sql_lower (mb_local_part m +:+ "@" +:+ dm_name dom), mb_enabled m, dm_enabled dom).
Definition identity_matches (request : Request) (d : DB) (r : IdentityRow) : bool :=
  sql_store.same_identity "authentik" (rq_issuer request) (rq_subject request) r
  && match identity_mailbox d r with Some (email, _, _) => email =?s rq_mailbox request | None => false end.
Definition select_identity (request : Request) (d : DB) : option (string * (string * bool * bool)) :=
  '(id, r) ← find_row (fun _ r => identity_matches request d r) (sql_store.identities d);
  pair id <$> identity_mailbox d r.

Definition select_domain (name : string) (d : DB) : option (string * bool) :=
  '(id, r) ← find_row (fun _ r => dm_name r =?s name) (db_domains d); Some (id, dm_enabled r).

(** ... WHERE identity_ref_id=$1 AND role=$2 AND domain_id IS NOT DISTINCT FROM $3 *)
Definition binding_matches (identityID role : string) (domain : option string) (r : BindingRow) : bool :=
  (rb_identity_ref_id r =?s identityID) && (rb_role r =?s role) && bool_decide (rb_domain_id r = domain).
Definition select_binding (identityID role : string) (domain : option string) (d : DB) : option (string * Z) :=
  '(id, r) ← find_row (fun _ r => binding_matches identityID role domain r) (sql_store.bindings d);
  Some (id, rb_updated_at r).

Definition target_domain (request : Request) : M PS (string * bool) :=
  if rq_domain request <>?s "" then
    found ← queryM (fun d => Ok (select_domain (rq_domain request) d));
    match found with
    | None => failM "role-binding domain was not found"
    | Some p => mret p
    end
  else mret ("", true).

Definition load (request : Request) : M PS state :=
  found ← queryM (fun d => Ok (select_identity request d));
  match found with
  | None => failM "exact verified Authentik identity was not found"
  | Some (identityID, (mailbox, enabled, domainEnabled)) =>
      target ← target_domain request;
      let '(domainID, targetEnabled) := target in
      guardM ((rq_operation request =?s OperationGrant)
              && (negb enabled || negb domainEnabled || negb targetEnabled))
        "role binding cannot be granted for disabled state";;
      binding ← queryM (fun d => Ok (select_binding identityID (rq_role request) (optional domainID) d));
      mret {| st_identity_id := identityID; st_mailbox := mailbox; st_domain_id := domainID;
              st_mailbox_enabled := enabled; st_mailbox_domain_enabled := domainEnabled;
              st_target_domain_enabled := targetEnabled;
              st_binding_id := match binding with Some (id, _) => id | None => "" end;
              st_binding_updated := match binding with Some (_, t) => t | None => 0 end |}
  end.

(** ** The plan *)

Definition plan_payload (request : Request) (current : state) : jval :=
  VObj [("Schema", VStr "gotth-mail/role-binding-plan/v1"); ("RequestedOperation", VStr (rq_operation request));
        ("IdentityID", VStr (st_identity_id current)); ("Mailbox", VStr (st_mailbox current));
        ("Role", VStr (rq_role request)); ("Domain", VStr (rq_domain request));
        ("DomainID", VStr (st_domain_id current)); ("ExistingBindingID", VStr (st_binding_id current));
        ("ExistingBindingUpdated",
         VStr (if st_binding_id current <>?s "" then rfc3339.format (st_binding_updated current) else ""))].

Definition effective (request : Request) (current : state) : string :=
  if ((rq_operation request =?s OperationGrant) && (st_binding_id current <>?s ""))
     || ((rq_operation request =?s OperationRevoke) && (st_binding_id current =?s ""))
  then "unchanged" else rq_operation request.

Definition buildPlan (request : Request) (current : state) : Plan :=
  {| pl_plan_id := sha256_hex (bytes_of (print_json (plan_payload request current)));
     pl_identity_id := st_identity_id current; pl_mailbox := st_mailbox current; pl_role := rq_role request;
     pl_domain := rq_domain request; pl_operation := effective request current |}.

Definition equalDigest (expected actual : string) : bool :=
  match hex_decode expected, hex_decode actual with
  | Some x, Some y => (length x =? 32) && (length y =? 32) && bool_decide (x = y)
  | _, _ => false
  end.

Definition Preview (request0 : Request) : M PS Plan :=
  request ← liftM (normalize request0);
  current ← load request;
  mret (buildPlan request current).

(** ** Statements on role_bindings *)

Definition with_bindings f : DB -> DB := with_access (fun t => put ac_bindings (f (ac_bindings t)) t).

(** The CHECK constraints of role_bindings (0006, 0018). *)
Definition binding_check (r : BindingRow) : bool :=
  ((rb_role r =?s RoleGlobalAdmin) && bool_decide (rb_domain_id r = None))
  || (((rb_role r =?s RoleDomainManager) || (rb_role r =?s RoleScopedDomainAccess))
      && negb (bool_decide (rb_domain_id r = None))).

(** The unique indexes on (identity, role) and (identity, role, domain), and
    the foreign keys. *)
Definition insert_binding (id : string) (r : BindingRow) (d : DB) : result (unit * DB) :=
  if negb (binding_check r) then Err scim.check_violated else
  match sql_store.bindings d !! id,
        find_row (fun _ => binding_matches (rb_identity_ref_id r) (rb_role r) (rb_domain_id r)) (sql_store.bindings d) with
  | None, None =>
      if bool_decide (sql_store.identities d !! rb_identity_ref_id r = None)
         || match rb_domain_id r with Some dom => bool_decide (db_domains d !! dom = None) | None => false end
      then Err scim.fk_insert else Ok (tt, with_bindings (<[id := r]>) d)
  | _, _ => Err duplicate
  end.

(** DELETE FROM role_bindings WHERE id=$1 AND identity_ref_id=$2: the number
    of rows affected. *)
Definition delete_binding (id identityID : string) (d : DB) : result (nat * DB) :=
  match sql_store.bindings d !! id with
  | Some r => if rb_identity_ref_id r =?s identityID then Ok (1, with_bindings (delete id) d) else Ok (0, d)
  | None => Ok (0, d)
  end.

(** ** Applying a plan *)

Definition binding_event (now : Z) (request : Request) (plan : Plan) (current : state) : Event :=
  let redacted := JObj ((if rq_domain request <>?s "" then [("domain", JStr (rq_domain request))] else [])
                        ++ [("role", JStr (rq_role request))]) in
  let grant := pl_operation plan =?s OperationGrant in
  {| ev_id := ""; ev_time := now; ev_actor := {| actor_type := "local_admin"; actor_id := "cli" |};
     ev_source := None; ev_action := "identity.role_binding." +:+ pl_operation plan;
     ev_resource := {| resource_type := "identity"; resource_id := st_identity_id current |};
     ev_before := if grant then JNull else redacted; ev_after := if grant then redacted else JNull;
     ev_correlation_id := "gotth-mailctl-role-binding"; ev_result := "success"; ev_error_code := "" |}.

(** The INSERT of a grant, the DELETE of a revocation. *)
Definition change_binding (request : Request) (plan : Plan) (current : state) (now : Z) : M PS unit :=
  if pl_operation plan =?s OperationGrant then
    id ← randomUUID;
    execM (insert_binding id {| rb_identity_ref_id := st_identity_id current; rb_role := rq_role request;
                                rb_domain_id := optional (st_domain_id current); rb_updated_at := now |})
  else
    affected ← execM (delete_binding (st_binding_id current) (st_identity_id current));
    guardM (negb (affected =? 1)) "role-binding revoke did not affect one exact row".

Definition Apply (request0 : Request) (confirmation : string) : M PS Result :=
  request ← liftM (normalize request0);
  transaction (
    current ← load request;
    let plan := buildPlan request current in
    guardM (negb (equalDigest (pl_plan_id plan) (TrimSpace confirmation)))
      "confirmation digest does not match current role-binding state";;
    if pl_operation plan =?s "unchanged" then mret (false, {| re_plan := plan; re_changed := false |}) else
    now ← nowM;
    change_binding request plan current now;;
    WriteSQL (binding_event now request plan current);;
    mret (true, {| re_plan := plan; re_changed := true |})).
End RoleBinding.
End rolebinding.
