(* ===== verification/RoleBindingSafety.v ===== *)
(** * What a role binding grants

    The bindings stay well-formed; an applied plan was confirmed for exactly
    the state it was applied to; and the authority of a session follows its
    bindings. *)

From stdpp Require Import base list gmap sets strings.
From Stdlib Require Import ZArith Lia Ascii.
From S2P Require Import Prelude GoStd Json JsonText JsonStruct Sha256 Sha1 Policy Queue AuditLog Database QueueStore Admin PlanDigest Postfix Remote Relay Daemon Verifier Lookup Tokens Authz Regex Approval Executor Telegram Identity IdentityFacts Scim ScimFacts Authn AuthnSafety AuthnSessions RoleBinding.
Import authz identity authn rolebinding.
#[local] Existing Instances M_ret M_bind.

Section RoleBindingSafety.
Context `{HOST : !Host} `{MAIL : !MailParser} `{PARSER : !UrlParser} {PS : Type}.
Implicit Types (w : World PS) (d : DB).

(** ** Well-formed bindings *)

Record bindings_wf d : Prop := {
  bw_check : forall k r, sql_store.bindings d !! k = Some r -> binding_check r = true;
  bw_unique : forall k1 r1 k2 r2, sql_store.bindings d !! k1 = Some r1 -> sql_store.bindings d !! k2 = Some r2 ->
    rb_identity_ref_id r1 = rb_identity_ref_id r2 -> rb_role r1 = rb_role r2 ->
    rb_domain_id r1 = rb_domain_id r2 -> k1 = k2;
  bw_identity : forall k r, sql_store.bindings d !! k = Some r ->
    is_Some (sql_store.identities d !! rb_identity_ref_id r);
  bw_domain : forall k r dom, sql_store.bindings d !! k = Some r -> rb_domain_id r = Some dom ->
    is_Some (db_domains d !! dom);
  bw_id : sql_store.bindings d !! "" = None;
}.

Lemma binding_matches_true i role dom r : binding_matches i role dom r = true <->
  rb_identity_ref_id r = i /\ rb_role r = role /\ rb_domain_id r = dom.
Proof. unfold binding_matches. rewrite !andb_true_iff, !eqs_true, bool_decide_eq_true. naive_solver. Qed.

Lemma insert_binding_ok id r d u d' : insert_binding id r d = Ok (u, d') ->
  binding_check r = true /\ sql_store.bindings d !! id = None /\ d' = with_bindings (<[id := r]>) d
  /\ (forall k r', sql_store.bindings d !! k = Some r' ->
        binding_matches (rb_identity_ref_id r) (rb_role r) (rb_domain_id r) r' = false)
  /\ is_Some (sql_store.identities d !! rb_identity_ref_id r)
  /\ (forall dom, rb_domain_id r = Some dom -> is_Some (db_domains d !! dom)).
Proof.
  unfold insert_binding. destruct (binding_check r) eqn:Ec; [|done]. cbn [negb].
  destruct (sql_store.bindings d !! id) eqn:Ei; [done|].
  destruct (find_row _ (sql_store.bindings d)) eqn:Ef; [done|].
  destruct (bool_decide _ || _) eqn:Eb; [done|]. intros [= _ <-]. apply orb_false_iff in Eb as [E1 E2].
  split_and!; [done..| | |].
  - intros k r' Hk. by apply (find_row_none _ _ k r' Ef).
  - apply bool_decide_eq_false in E1. by destruct (sql_store.identities d !! _).
  - intros dom E. rewrite E in E2. apply bool_decide_eq_false in E2. by destruct (db_domains d !! dom).
Qed.

Lemma wf_insert id r d u d' : bindings_wf d -> id <> "" -> insert_binding id r d = Ok (u, d') -> bindings_wf d'.
Proof.
  intros [W1 W2 W3 W4 W5] Hid (Hc & Hi & -> & Hn & Hr & Hd)%insert_binding_ok.
  assert (forall k x, sql_store.bindings (with_bindings (<[id := r]>) d) !! k = Some x ->
            (k = id /\ x = r) \/ (k <> id /\ sql_store.bindings d !! k = Some x)) as Hk.
  { intros k x. unfold sql_store.bindings. cbn. rewrite lookup_insert. case_decide; naive_solver. }
  split.
  - intros k x [[-> ->]|[_ H]]%Hk; eauto.
  - intros k1 r1 k2 r2 [[-> ->]|[N1 H1]]%Hk [[-> ->]|[N2 H2]]%Hk E1 E2 E3; [done|..].
    + specialize (Hn _ _ H2). apply not_true_iff_false in Hn. destruct Hn. by apply binding_matches_true.
    + specialize (Hn _ _ H1). apply not_true_iff_false in Hn. destruct Hn. by apply binding_matches_true.
    + eauto.
  - intros k x [[-> ->]|[_ H]]%Hk; [exact Hr|by eapply W3].
  - intros k x dom [[-> ->]|[_ H]]%Hk E; [by apply Hd|by eapply W4].
  - unfold sql_store.bindings. cbn. by rewrite lookup_insert_ne.
Qed.

Lemma delete_binding_ok id i d n d' : delete_binding id i d = Ok (n, d') ->
  (n = 0 /\ d' = d) \/ (n = 1 /\ d' = with_bindings (delete id) d
    /\ exists r, sql_store.bindings d !! id = Some r /\ rb_identity_ref_id r = i).
Proof.
  unfold delete_binding. destruct (sql_store.bindings d !! id) as [r|] eqn:E; [|intros [= <- <-]; by left].
  destruct (rb_identity_ref_id r =?s i) eqn:Ei; intros [= <- <-]; [|by left]. to_prop. right.
  split; [done|]. split; [done|]. by exists r.
Qed.

Lemma wf_delete id i d n d' : bindings_wf d -> delete_binding id i d = Ok (n, d') -> bindings_wf d'.
Proof.
  intros W [[_ ->]|(_ & -> & _)]%delete_binding_ok; [done|]. destruct W as [W1 W2 W3 W4 W5].
  assert (forall k x, sql_store.bindings (with_bindings (delete id) d) !! k = Some x ->
            sql_store.bindings d !! k = Some x) as Hk.
  { intros k x. unfold sql_store.bindings. cbn. intros H%lookup_delete_Some. apply H. }
  split; [intros; eapply W1; eauto|intros ???? H1%Hk H2%Hk; by eapply W2|intros ?? H%Hk; by eapply W3| |].
  - intros ??? H%Hk. by eapply W4.
  - unfold sql_store.bindings. cbn. apply lookup_delete_None. by right.
Qed.

Definition keeps_bindings_wf d d' : Prop := bindings_wf d -> bindings_wf d'.
#[local] Instance keeps_bindings_wf_preorder : PreOrder keeps_bindings_wf.
Proof. split; [by intros d W|]. intros d1 d2 d3 H1 H2 W. auto. Qed.

Lemma wf_audit d e : keeps_bindings_wf d (with_audit (fun l => l ++ [e]) d).
Proof. intros [W1 W2 W3 W4 W5]. by split. Qed.

Lemma effect_load R `{!PreOrder R} request : effect (PS := PS) R (load request).
Proof.
  unfold load. apply (effect_bind R); [apply effect_query, _|intros [[id [[email en] den]]|]]; [|apply (effect_fail R)].
  apply (effect_bind R).
  - unfold target_domain. destruct (_ <>?s _); [|apply (effect_ret R)].
    apply (effect_bind R); [apply (effect_query R)|intros [p|]]; [apply (effect_ret R)|apply (effect_fail R)].
  - intros [dom ten]. apply (effect_bind_guard R); intros _. solve_effect.
Qed.

Lemma randomUUID_ok w id w' : randomUUID w = (Ok id, w') -> w_db w' = w_db w /\ w_ext w' = w_ext w /\ id <> "".
Proof.
  intros H. apply bind_ok in H as (b & w1 & He & H). destruct (entropyM_run w) as (b' & w2 & E & Hd & Hx & _).
  rewrite E in He. injection He as -> ->. destruct b as [bytes|]; [|done]. injection H as <- <-.
  split_and!; [done..|]. unfold newUUID. apply app_nonempty_r.
Qed.

Lemma keeps_change request plan current now : effect (PS := PS) keeps_bindings_wf (change_binding request plan current now).
Proof.
  unfold change_binding. destruct (_ =?s OperationGrant).
  - intros w. rewrite bind_run. destruct (randomUUID w) as [[id|e] w1] eqn:E.
    + apply randomUUID_ok in E as (<- & _ & Hid).
      apply (effect_exec keeps_bindings_wf). intros d u d' H W. by eapply wf_insert.
    + pose proof (effect_uuid (PS := PS) eq w) as H. rewrite E in H. cbn in *. by rewrite H.
  - apply (effect_bind keeps_bindings_wf); [|intros n; apply (effect_guard keeps_bindings_wf)].
    apply (effect_exec keeps_bindings_wf). intros d u d' H W. by eapply wf_delete.
Qed.

(** Whatever the request, the confirmation and the failures: the constraints of
    the table hold, and bindings name live identities and domains. *)
Lemma bindings_wf_Apply request confirmation w :
  bindings_wf (w_db w) -> bindings_wf (w_db (rolebinding.Apply request confirmation w).2).
Proof.
  enough (effect (PS := PS) keeps_bindings_wf (rolebinding.Apply request confirmation)) as H by apply H.
  unfold rolebinding.Apply. apply (effect_bind keeps_bindings_wf); [apply (effect_lift keeps_bindings_wf)|intros rq].
  apply (effect_transaction keeps_bindings_wf), (effect_bind keeps_bindings_wf); [apply effect_load, _|intros current].
  cbv zeta. apply (effect_bind_guard keeps_bindings_wf); intros _.
  destruct (_ =?s "unchanged"); [apply (effect_ret keeps_bindings_wf)|].
  apply (effect_bind keeps_bindings_wf); [apply (effect_now keeps_bindings_wf)|intros now].
  apply (effect_bind keeps_bindings_wf); [apply keeps_change|intros _].
  apply (effect_bind keeps_bindings_wf); [apply (effect_WriteSQL keeps_bindings_wf), wf_audit|intros _].
  apply (effect_ret keeps_bindings_wf).
Qed.

(** ** What an applied plan was confirmed for *)

(** The state of a request in a database. *)
Definition loaded (request : Request) d (c : state) : Prop :=
  select_identity request d
    = Some (st_identity_id c, (st_mailbox c, st_mailbox_enabled c, st_mailbox_domain_enabled c))
  /\ (if rq_domain request <>?s ""
      then select_domain (rq_domain request) d = Some (st_domain_id c, st_target_domain_enabled c)
      else st_domain_id c = "" /\ st_target_domain_enabled c = true)
  /\ (rq_operation request = OperationGrant ->
      st_mailbox_enabled c && st_mailbox_domain_enabled c && st_target_domain_enabled c = true)
  /\ match select_binding (st_identity_id c) (rq_role request) (optional (st_domain_id c)) d with
     | Some (id, t) => st_binding_id c = id /\ st_binding_updated c = t
     | None => st_binding_id c = ""
     end.

Lemma load_ok request w c w' : load request w = (Ok c, w') ->
  w_db w' = w_db w /\ w_ext w' = w_ext w /\ loaded request (w_db w) c.
Proof.
  intros H. apply bind_ok in H as (found & w1 & (Hq & D1 & X1)%queryM_ok & H). injection Hq as Hq.
  destruct found as [[id [[email en] den]]|]; [|done].
  apply bind_ok in H as ([dom ten] & w2 & Ht & H).
  assert (w_db w2 = w_db w1 /\ w_ext w2 = w_ext w1
    /\ if rq_domain request <>?s "" then select_domain (rq_domain request) (w_db w) = Some (dom, ten)
       else dom = "" /\ ten = true) as (D2 & X2 & Hd).
  { unfold target_domain in Ht. destruct (rq_domain request <>?s ""); [|by injection Ht as -> -> ->].
    apply bind_ok in Ht as (f & w3 & (Hf & D3 & X3)%queryM_ok & Ht). rewrite D1 in Hf.
    destruct f as [p|]; [|done]. injection Ht as -> ->. split_and!; [done..|congruence]. }
  apply bind_ok in H as (u & w4 & [Hg ->]%guardM_ok & H).
  apply bind_ok in H as (b & w5 & (Hb & D5 & X5)%queryM_ok & [= <- <-]). rewrite D2, D1 in Hb.
  split_and!; [congruence|congruence|]. unfold loaded. cbn. split; [done|]. split; [exact Hd|]. split.
  - intros Hop. rewrite Hop, eqs_refl in Hg. cbn in Hg. destruct en, den, ten; done.
  - injection Hb as ->. by destruct b as [[k t]|].
Qed.

(** Whether the role of a request is bound to its identity. *)
Definition bound (request : Request) (c : state) d : Prop := exists k r, sql_store.bindings d !! k = Some r
  /\ binding_matches (st_identity_id c) (rq_role request) (optional (st_domain_id c)) r = true.

Lemma loaded_bound request d c : bindings_wf d -> loaded request d c ->
  (st_binding_id c = "" /\ ~ bound request c d)
  \/ (st_binding_id c <> "" /\ exists r, sql_store.bindings d !! st_binding_id c = Some r
       /\ binding_matches (st_identity_id c) (rq_role request) (optional (st_domain_id c)) r = true).
Proof.
  intros W (_ & _ & _ & H). unfold select_binding in H.
  destruct (find_row _ (sql_store.bindings d)) as [[id r]|] eqn:E; cbn in H.
  - apply find_row_some in E as [Hr Hm]. destruct H as [-> _]. right. split; [|by exists r].
    intros ->. by rewrite (bw_id d W) in Hr.
  - left. split; [done|]. intros (k & r & Hr & Hm). by rewrite (find_row_none _ _ k r E Hr) in Hm.
Qed.

Lemma equalDigest_decode l x : equalDigest (sha256_hex l) x = true -> hex_decode x = Some (Sha.sum256 l).
Proof.
  destruct (sum256_shape l) as [Hn Hb]. unfold equalDigest, sha256_hex.
  rewrite hex_decode_encode by done. destruct (hex_decode x); [|done].
  rewrite !andb_true_iff, bool_decide_eq_true. intros [_ ->]. done.
Qed.

Lemma normalize_global rq0 rq : normalize rq0 = Ok rq -> rq_role rq = RoleGlobalAdmin -> rq_domain rq = "".
Proof.
  unfold normalize. cbv zeta. intros H Hr. destruct (_ || _); [done|]. destruct (_ && _); [done|].
  destruct (_ || _); [done|]. destruct (_ || _); [done|]. destruct (_ =?s RoleGlobalAdmin) eqn:E.
  - destruct (_ <>?s "") eqn:Ed; [done|]. injection H as <-. cbn. by to_prop.
  - exfalso. to_prop. apply E. destruct (_ || _); [|done]. destruct (negb _); [done|]. injection H as <-. exact Hr.
Qed.

(** The change a plan made to the bindings, with its event. *)
Record changed_binding (request : Request) (c : state) d d' : Prop := {
  cb_tables : exists change ev, d' = with_audit (fun l => l ++ [ev]) (with_bindings change d)
    /\ ev_action ev = "identity.role_binding." +:+ rq_operation request
    /\ resource_id (ev_resource ev) = st_identity_id c;
  cb_others : forall k r, binding_matches (st_identity_id c) (rq_role request) (optional (st_domain_id c)) r = false ->
    sql_store.bindings d' !! k = Some r <-> sql_store.bindings d !! k = Some r;
}.

Lemma change_ok request c now w u w' : bindings_wf (w_db w) -> loaded request (w_db w) c ->
  effective request c = rq_operation request ->
  (rq_operation request = OperationGrant \/ rq_operation request = OperationRevoke) ->
  change_binding request (buildPlan request c) c now w = (Ok u, w') ->
  (rq_operation request = OperationGrant -> bound request c (w_db w'))
  /\ (rq_operation request = OperationRevoke -> ~ bound request c (w_db w'))
  /\ (exists change, w_db w' = with_bindings change (w_db w))
  /\ (forall k r, binding_matches (st_identity_id c) (rq_role request) (optional (st_domain_id c)) r = false ->
        sql_store.bindings (w_db w') !! k = Some r <-> sql_store.bindings (w_db w) !! k = Some r).
Proof.
  intros W Hl He Hop H. unfold change_binding in H. cbn [pl_operation buildPlan] in H. rewrite He in H.
  pose proof (loaded_bound _ _ _ W Hl) as Hb. destruct Hop as [Hop|Hop]; rewrite Hop in *; cbn [OperationGrant OperationRevoke String.eqb Ascii.eqb Bool.eqb] in H.
  - apply bind_ok in H as (id & w1 & (D1 & X1 & Hid)%randomUUID_ok & [H Hx]%execM_ok). rewrite D1 in H.
    apply insert_binding_ok in H as (_ & Hn & -> & _ & _ & _). unfold sql_store.bindings in *. cbn in *. split_and!.
    + intros _. eexists id, _. unfold sql_store.bindings. cbn. rewrite lookup_insert_eq. split; [done|].
      by apply binding_matches_true.
    + done.
    + by eexists.
    + intros k r Hm. rewrite lookup_insert. case_decide as Hk; [|done]. subst k. split; [|by rewrite Hn].
      intros [= <-]. apply not_true_iff_false in Hm. destruct Hm. by apply binding_matches_true.
  - apply bind_ok in H as (n & w1 & [H Hx]%execM_ok & [Hg ->]%guardM_ok). to_prop. subst n.
    apply delete_binding_ok in H as [[? _]|(_ & -> & r & Hr & Hi)]; [done|].
    destruct Hb as [[He0 _]|(_ & r' & Hr' & Hm)]; [rewrite He0, (bw_id _ W) in Hr; done|].
    rewrite Hr in Hr'. injection Hr' as <-. unfold sql_store.bindings in *. cbn in *. split_and!.
    + done.
    + intros _ (k & x & Hk & Hx'). unfold sql_store.bindings in Hk. cbn in Hk. apply lookup_delete_Some in Hk as [Hne Hk].
      apply Hne. apply binding_matches_true in Hm as (E1 & E2 & E3), Hx' as (F1 & F2 & F3).
      eapply (bw_unique _ W); [exact Hr|exact Hk|congruence..].
    + by eexists.
    + intros k x Hx'. rewrite lookup_delete_Some. split; [by intros [_ ?]|]. intros Hk. split; [|done].
      intros <-. rewrite Hr in Hk. injection Hk as <-. congruence.
Qed.

Lemma normalize_operation rq0 rq : normalize rq0 = Ok rq ->
  rq_operation rq = OperationGrant \/ rq_operation rq = OperationRevoke.
Proof.
  unfold normalize. cbv zeta. intros H. destruct (_ || _); [done|].
  destruct (_ && _) eqn:E; [done|]. apply andb_false_iff in E.
  assert (rq_operation rq = TrimSpace (rq_operation rq0)) as ->.
  { repeat (match type of H with context [if ?b then _ else _] => destruct b end; try done);
    by injection H as <-. }
  destruct E as [E|E]; to_prop; auto.
Qed.

Lemma Apply_ok rq0 confirmation w res w' : bindings_wf (w_db w) ->
  rolebinding.Apply rq0 confirmation w = (Ok res, w') ->
  exists request c, normalize rq0 = Ok request /\ loaded request (w_db w) c
    /\ re_plan res = buildPlan request c
    /\ hex_decode (TrimSpace confirmation) = Some (Sha.sum256 (bytes_of (print_json (plan_payload request c))))
    /\ (rq_operation request = OperationGrant -> bound request c (w_db w'))
    /\ (rq_operation request = OperationRevoke -> ~ bound request c (w_db w'))
    /\ (if re_changed res then changed_binding request c (w_db w) (w_db w') else w_db w' = w_db w).
Proof.
  intros W H. apply bind_ok in H as (request & w0 & [Hn ->]%liftM_ok & H).
  apply transaction_ok in H as (w1 & commit & w2 & Hb & D1 & X1 & X2 & D2).
  apply bind_ok in Hb as (c & w3 & (D3 & X3 & Hl)%load_ok & Hb). cbv zeta in Hb.
  apply bind_ok in Hb as (u & w4 & [Hg ->]%guardM_ok & Hb). apply negb_false_iff, equalDigest_decode in Hg.
  rewrite D1 in Hl. pose proof (normalize_operation _ _ Hn) as Hop.
  pose proof (loaded_bound _ _ _ W Hl) as Hbound. cbn [pl_operation buildPlan] in Hb.
  exists request, c. destruct (effective request c =?s "unchanged") eqn:Eu.
  - injection Hb as <- <- <-. rewrite D2. cbn. split_and!; try done; intros Hr; unfold effective in Eu; rewrite Hr in Eu;
      cbn in Eu; destruct (st_binding_id c =?s "") eqn:Ei; cbn in Eu; to_prop; try done.
    + destruct Hbound as [[? _]|(_ & r & Hx & Hm)]; [done|by exists (st_binding_id c), r].
    + by destruct Hbound as [[_ ?]|[? _]].
  - assert (effective request c = rq_operation request) as He.
    { unfold effective in *. by destruct (_ || _). }
    apply bind_ok in Hb as (now & w5 & Hnow & Hb). destruct (nowM_run w3) as (t & w5' & E & D5 & X5 & _).
    rewrite E in Hnow. injection Hnow as -> ->.
    apply bind_ok in Hb as (u1 & w6 & Hc & Hb).
    apply bind_ok in Hb as (u2 & w7 & (ev & D7 & X7 & Ea & Er & _)%WriteSQL_ok & [= <- <- <-]).
    apply change_ok in Hc as (Hc1 & Hc2 & (change & Hd) & Hc4); [|by rewrite D5, D3, D1..|done|done].
    rewrite D5, D3, D1 in Hd, Hc4. rewrite D2, D7. split_and!; try done.
    cbn [re_changed]. split.
    + exists change, ev. rewrite Hd. split; [done|]. rewrite Ea, Er. cbn. by rewrite He.
    + exact Hc4.
Qed.

(** C25: an applied plan was confirmed for the state it changed: the confirmation
    is the digest of the request and of the identity, domain and binding rows
    the transaction saw; afterwards the role is bound, for a grant, or not
    bound any more, for a revocation; a grant is only to an enabled mailbox in
    enabled domains; no other binding changed, and one audit event tells, or
    nothing did. *)
Theorem Apply_confirmed rq0 confirmation w res w' : bindings_wf (w_db w) ->
  rolebinding.Apply rq0 confirmation w = (Ok res, w') ->
  exists request c, normalize rq0 = Ok request /\ loaded request (w_db w) c
    /\ re_plan res = buildPlan request c
    /\ hex_decode (TrimSpace confirmation) = Some (Sha.sum256 (bytes_of (print_json (plan_payload request c))))
    /\ (rq_operation request = OperationGrant -> bound request c (w_db w'))
    /\ (rq_operation request = OperationRevoke -> ~ bound request c (w_db w'))
    /\ (if re_changed res then changed_binding request c (w_db w) (w_db w') else w_db w' = w_db w).
Proof. apply Apply_ok. Qed.
End RoleBindingSafety.
