(* ===== verification/IdentityApi.v ===== *)
(** * Requests on application passwords (internal/api/identity_api.go, internal/httpui/httpui.go)

    The two ways in: the JSON API, for an API token or a session, and the
    self-service page, for a session.  Both run over the identity service and
    the SQL store of sessions.  A request carries what the handlers look at;
    an absent cookie is [None], and [ar_form] is what [r.ParseForm] leaves in
    [r.Form]. *)

From stdpp Require Import base list gmap sets strings.
From Stdlib Require Import ZArith Lia Ascii.
From S2P Require Import Prelude GoStd Json JsonText JsonStruct Sha256 Sha1 Policy Queue AuditLog Database QueueStore Postfix Remote Http Helper Relay Daemon Verifier Lookup LookupRoutes Tokens Authz Regex Approval Executor Telegram Identity Scim Authn RoleBinding.
Import authz identity authn.
#[local] Existing Instances M_ret M_bind.

Module api.

Record Request := {
  ar_method : string; ar_path : string; ar_authorization : string; ar_csrf_header : string;
  ar_correlation : string; ar_remote_addr : string; ar_session_cookie : option string;
  ar_csrf_cookie : option string; ar_body : string; ar_form : option (list (string * string));
}.

(** [r.Form.Get(key)] *)
Definition form_get (form : list (string * string)) (key : string) : string :=
  match List.find (fun p => p.1 =?s key) form with Some p => p.2 | None => "" end.

Definition MethodDelete : string := "DELETE".
Definition StatusForbidden : Z := 403.

Definition writeJSON (v : jval) : HttpResponse := reply StatusOK (encode_line v).

(** The JSON of an application password; its verifier has no field. *)
Definition password_json (p : AppPassword) : jval :=
  VObj ([("id", VStr (pw_id p)); ("mailbox_id", VStr (pw_mailbox_id p)); ("label", VStr (pw_label p));
         ("created_at", VStr (rfc3339.format (pw_created_at p)))]
        ++ match pw_revoked_at p with Some t => [("revoked_at", VStr (rfc3339.format t))] | None => [] end).
Definition passwords_json (l : list AppPassword) : jval :=
  match l with [] => VNull | _ => VArr (map password_json l) end.
Definition created_json (c : AppPasswordCreated) : jval :=
  VObj [("id", VStr (pc_id c)); ("label", VStr (pc_label c)); ("secret_once", VStr (pc_secret_once c));
        ("created_at", VStr (rfc3339.format (pc_created_at c)))].

Section Api.
Context `{HOST : !Host} `{MAIL : !MailParser} `{ORDER : !MapOrder} `{KDF : !Pbkdf2}.

Abbreviation I := (M Service).

(** ** Who asks *)

Definition writeAPIAudit (rq : Request) (action resource result code : string) : I unit :=
  tryM (WriteSQL
    {| ev_id := ""; ev_time := 0; ev_actor := {| actor_type := "api"; actor_id := ar_remote_addr rq |};
       ev_source := None; ev_action := action;
       ev_resource := {| resource_type := "identity"; resource_id := resource |};
       ev_before := JNull; ev_after := JNull; ev_correlation_id := ar_correlation rq; ev_result := result;
       ev_error_code := code |});;
  mret tt.

Definition unauthorized (text : string) : HttpResponse := http_error text StatusUnauthorized.

(** An answer, or the actor and its session. *)
Definition identityRequestActor (rq : Request) : I (HttpResponse + (Actor * option BoundSession)) :=
  if ar_authorization rq <>?s "" then
    r ← readM (fun st => AuthenticateBearer st (ar_authorization rq) "api_token");
    mret (match r with
          | Ok actor => inr (actor, None)
          | Err _ => inl (unauthorized "identity authentication required")
          end)
  else
    match ar_session_cookie rq with
    | None | Some "" => mret (inl (unauthorized "identity authentication required"))
    | Some id =>
        now ← nowM;
        bound ← sql_store.BoundSession id now;
        mret (match bound with
              | None => inl (unauthorized "identity session is invalid")
              | Some b =>
                  inr ({| a_type := "oidc_subject"; a_id := sn_identity_ref_id (bs_session b);
                          a_mailbox := bs_mailbox b; a_scopes := []; a_groups := []; a_roles := [] |}, Some b)
              end)
    end.

Definition validSessionCSRF (rq : Request) (bound : BoundSession) : bool :=
  match ar_csrf_cookie rq with
  | None => false
  | Some cookie =>
      if (cookie =?s "") || (ar_csrf_header rq =?s "") || (ar_csrf_header rq <>?s cookie) then false
      else ValidCSRF (bs_session bound) cookie
  end.

(** ** /api/v1/mailboxes/{mailbox}/app-passwords[/{id}] *)

Definition label_fields : struct_type string := [("label", store_string)].
Definition decode_label (body : string) : option string :=
  let body := visible (2 ^ 20) body in
  match parse_value (json_fuel body) maxNestingDepth body with
  | Some (v, _) => store_struct false label_fields v ""
  | None => None
  end.

Definition answer {A} (status : Z) (show : A -> HttpResponse) (m : I A) : I HttpResponse :=
  r ← tryM m;
  mret (match r with Ok a => show a | Err e => http_error e status end).

Definition app_password_call (rq : Request) (actor : Actor) (parts : list string) (mailboxID : string) : I HttpResponse :=
  if (length parts =? 2) && (ar_method rq =?s MethodGet) then
    answer StatusForbidden (fun l => writeJSON (passwords_json l)) (ListAppPasswordsForActor actor mailboxID)
  else if (length parts =? 2) && (ar_method rq =?s MethodPost) then
    match decode_label (ar_body rq) with
    | None =>
        writeAPIAudit rq "app_password.create" mailboxID "failure" "bad_request";;
        mret (http_error "bad app password request" StatusBadRequest)
    | Some label => answer StatusBadRequest (fun c => writeJSON (created_json c)) (CreateAppPassword actor mailboxID label)
    end
  else if (length parts =? 3) && (ar_method rq =?s MethodDelete) then
    answer StatusBadRequest (fun _ => writeJSON (VObj [("revoked", VBool true)]))
      (RevokeAppPassword actor mailboxID (nth 2 parts ""))
  else mret (reply StatusMethodNotAllowed "").

Definition mutates (rq : Request) : bool := (ar_method rq =?s MethodPost) || (ar_method rq =?s MethodDelete).

Definition app_passwords (rq : Request) : I HttpResponse :=
  let parts := SplitByte "/" (TrimPrefix (ar_path rq) "/api/v1/mailboxes/") in
  if (length parts <? 2) || (nth 1 parts "" <>?s "app-passwords")
  then mret (http_error "404 page not found" StatusNotFound) else
  let mailboxID := nth 0 parts "" in
  who ← identityRequestActor rq;
  match who with
  | inl refusal =>
      writeAPIAudit rq "app_password.auth" mailboxID "denied" "authentication_failed";;
      mret refusal
  | inr (actor, session) =>
      if match session with Some b => mutates rq && negb (validSessionCSRF rq b) | None => false end then
        writeAPIAudit rq "app_password.csrf" mailboxID "denied" "csrf_failed";;
        mret (http_error "CSRF validation failed" StatusForbidden)
      else app_password_call rq actor parts mailboxID
  end.

(** ** The self-service page *)

Definition boundUIIdentity (rq : Request) : I (HttpResponse + (BoundSession * Actor * string)) :=
  match ar_session_cookie rq with
  | None | Some "" => mret (inl (unauthorized "identity session required"))
  | Some id =>
      now ← nowM;
      bound ← sql_store.BoundSession id now;
      mret (match bound with
            | None => inl (unauthorized "identity session is invalid")
            | Some b =>
                match ar_csrf_cookie rq with
                | Some csrf =>
                    if ValidCSRF (bs_session b) csrf then
                      inr (b, {| a_type := "oidc_subject"; a_id := sn_identity_ref_id (bs_session b);
                                 a_mailbox := bs_mailbox b; a_scopes := []; a_groups := [];
                                 a_roles := bs_roles b |}, csrf)
                    else inl (unauthorized "identity CSRF binding is invalid")
                | None => inl (unauthorized "identity CSRF binding is invalid")
                end
            end)
  end.

Definition validUIFormCSRF (form cookie : string) (session : Session) : bool :=
  (form <>?s "") && (form =?s cookie) && ValidCSRF session form.

(** What the page shows: the mailbox, its passwords, the one just created,
    the CSRF token of the forms and a message. *)
Record Page := {
  pg_mailbox : string; pg_csrf : string; pg_apps : list AppPassword; pg_created : option AppPasswordCreated;
  pg_message : string;
}.

Definition messageForIdentityMutation (err : option string) (action : string) : string :=
  match err with
  | Some e => e
  | None => if action =?s "create" then "app password created; copy the secret now" else "app password revoked"
  end.

Definition form_action (form : list (string * string)) (actor : Actor) (mailbox : string)
    : I (option AppPasswordCreated * string) :=
  let action := form_get form "action" in
  let said r := messageForIdentityMutation (match r with Ok _ => None | Err e => Some e end) action in
  if action =?s "create" then
    r ← tryM (CreateAppPassword actor mailbox (form_get form "label"));
    mret (match r with Ok c => Some c | Err _ => None end, said (let! _ := r in Ok tt))
  else if action =?s "revoke" then
    r ← tryM (RevokeAppPassword actor mailbox (form_get form "credential_id"));
    mret (None, said r)
  else mret (None, said (Err "invalid app-password action")).

Definition app_passwords_page (rq : Request) : I (HttpResponse + Page) :=
  if (ar_method rq <>?s MethodGet) && (ar_method rq <>?s MethodPost)
  then mret (inl (reply StatusMethodNotAllowed "")) else
  who ← boundUIIdentity rq;
  match who with
  | inl refusal => mret (inl refusal)
  | inr (b, actor, csrf) =>
      let show (done : option AppPasswordCreated * string) : I (HttpResponse + Page) :=
        apps ← tryM (ListAppPasswordsForActor actor (bs_mailbox b));
        mret (match apps with
              | Err _ => inl (http_error "app-password authorization required" StatusForbidden)
              | Ok l => inr {| pg_mailbox := bs_mailbox b; pg_csrf := csrf; pg_apps := l;
                               pg_created := done.1; pg_message := done.2 |}
              end) in
      if ar_method rq =?s MethodPost then
        match ar_form rq with
        | Some form =>
            if validUIFormCSRF (form_get form "csrf_token") csrf (bs_session b)
            then done ← form_action form actor (bs_mailbox b); show done
            else mret (inl (http_error "CSRF validation failed" StatusForbidden))
        | None => mret (inl (http_error "CSRF validation failed" StatusForbidden))
        end
      else show (None, "")
  end.
End Api.
End api.
