(* ===== verification/SessionAuthority.v ===== *)
(** * What a request may do

    From the request to the change: an application password is created or
    revoked only for an authenticated, authorized caller and only for the
    mailbox the request is about; the authority of a session is exactly its
    mailbox and the role bindings of its identity, and a revoked role is gone. *)

From stdpp Require Import base list gmap sets strings.
From Stdlib Require Import ZArith Lia Ascii.
From S2P Require Import Prelude GoStd Json JsonText JsonStruct Sha256 Sha1 Policy Queue AuditLog Database QueueStore Admin PlanDigest Postfix Remote Http Helper Relay Daemon Verifier Lookup LookupRoutes Tokens Authz Regex Approval Executor Telegram Identity IdentityFacts IdentitySafety Scim ScimFacts Authn AuthnSafety AuthnSessions RoleBinding RoleBindingSafety IdentityApi.
Import authz identity authn.
#[local] Existing Instances M_ret M_bind.

Section Authority.
Context `{HOST : !Host} `{MAIL : !MailParser} `{ORDER : !MapOrder} `{KDF : !Pbkdf2}.
Implicit Types (w : World Service) (rq : api.Request).

(** ** Sessions as actors *)

(** A role bound to an identity in a domain; no domain is "*". *)
Definition role_bound (d : DB) (ref role domain : string) : Prop := exists k row,
  sql_store.bindings d !! k = Some row /\ rb_identity_ref_id row = ref /\ rb_role row = role
  /\ domain = any_domain (ToLower (TrimSpace (default "" (sql_lower <$> (sql_store.role_name d row).2)))).

(** What the identity row [ref], whose mailbox has the address [email], may do. *)
Definition session_may (d : DB) (ref email : string) (act : Action) (r : Resource) : Prop :=
  (email <> "" /\ EqualFold email (r_id r) = true
   /\ (act = "webmail:use" \/ HasPrefix act "mailbox:app_password." = true))
  \/ has_any_prefix act ["status:"; "doctor:"]
  \/ role_bound d ref RoleGlobalAdmin "*"
  \/ (role_bound d ref RoleDomainManager (resourceDomain r) /\ has_any_prefix act ["domain:"; "mailbox:"; "alias:"])
  \/ (role_bound d ref RoleScopedDomainAccess (resourceDomain r)
      /\ has_any_prefix act ["mailbox:read"; "alias:read"; "domain:read"]).

Definition session_actor (b : BoundSession) (roles : list RoleAssignment) : Actor :=
  {| a_type := "oidc_subject"; a_id := sn_identity_ref_id (bs_session b); a_mailbox := bs_mailbox b;
     a_scopes := []; a_groups := []; a_roles := roles |}.

Lemma owns_eq (b : BoundSession) roles r : owns_mailbox (session_actor b roles) r = true <->
  bs_mailbox b <> "" /\ EqualFold (bs_mailbox b) (r_id r) = true.
Proof. unfold owns_mailbox. cbn. rewrite andb_true_iff, negb_true_iff, eqs_false. done. Qed.

Lemma granted_roles s b roles role domain : granted s (session_actor b roles) role domain <->
  exists x, x ∈ roles /\ ra_role x = role /\ known_role role = true
    /\ domain = any_domain (ToLower (TrimSpace (ra_domain x))).
Proof.
  split.
  - intros [x|m _ _ Hg]; [by exists x|]. by apply not_elem_of_nil in Hg.
  - intros (x & ? & ? & ? & ?). by eapply granted_assignment.
Qed.

Lemma granted_bound s sid now b d role domain : honoured sid now b d -> known_role role = true ->
  granted s (session_actor b (bs_roles b)) role domain <->
  role_bound d (sn_identity_ref_id (bs_session b)) role domain.
Proof.
  intros [_ Hr] Hk. rewrite granted_roles. split.
  - intros (x & (k & row & H1 & H2 & ->)%Hr & <- & _ & ->). by exists k, row.
  - intros (k & row & H1 & H2 & <- & ->). eexists. split; [apply Hr; by exists k, row|]. done.
Qed.

Lemma session_permitted s sid now b d act r : honoured sid now b d ->
  permitted s (session_actor b (bs_roles b)) act r
  <-> session_may d (sn_identity_ref_id (bs_session b)) (bs_mailbox b) act r.
Proof.
  intros Hh. unfold session_may. split.
  - intros [| | | | | | _ Ho Ha| _ Hg| _ Hp| _ Hg Hp| _ Hg Hp]; try done.
    + left. apply owns_eq in Ho as [? ?]. done.
    + right; right; left. by apply (granted_bound s _ _ _ _ _ _ Hh).
    + right. by left.
    + do 3 right. left. split; [by apply (granted_bound s _ _ _ _ _ _ Hh)|done].
    + do 4 right. split; [by apply (granted_bound s _ _ _ _ _ _ Hh)|done].
  - intros [(H1 & H2 & H3)|[H|[H|[[H Hp]|[H Hp]]]]].
    + apply permitted_mailbox; [done|by apply owns_eq|done].
    + by apply permitted_status.
    + apply permitted_global; [done|]. by apply (granted_bound s _ _ _ _ _ _ Hh).
    + apply permitted_manager; [done| |done]. by apply (granted_bound s _ _ _ _ _ _ Hh).
    + apply permitted_scoped; [done| |done]. by apply (granted_bound s _ _ _ _ _ _ Hh).
Qed.

Lemma nowM_same w t w1 : nowM w = (Ok t, w1) -> w_db w1 = w_db w /\ w_ext w1 = w_ext w.
Proof. intros H. destruct (nowM_run w) as (t' & w' & E & ? & ? & _). rewrite E in H. by injection H as _ <-. Qed.

Lemma boundUIIdentity_ok rq w b actor csrf w' : api.boundUIIdentity rq w = (Ok (inr (b, actor, csrf)), w') ->
  w_db w' = w_db w /\ w_ext w' = w_ext w /\ actor = session_actor b (bs_roles b)
  /\ ValidCSRF (bs_session b) csrf = true /\ api.ar_csrf_cookie rq = Some csrf
  /\ exists sid now, api.ar_session_cookie rq = Some sid /\ (nowM w).1 = Ok now /\ honoured sid now b (w_db w).
Proof.
  unfold api.boundUIIdentity. destruct (api.ar_session_cookie rq) as [sid|]; [|done].
  destruct sid as [|c sid]; [done|]. set (id := String c sid). intros H.
  apply bind_ok in H as (now & w1 & Hnow & H). pose proof (nowM_same _ _ _ Hnow) as [D1 X1].
  apply bind_ok in H as (bound & w2 & H2 & H).
  destruct bound as [b'|]; [|done]. pose proof (BoundSession_honoured _ _ _ _ _ H2) as Hh.
  apply BoundSession_ok in H2 as (D2 & X2 & _). destruct (api.ar_csrf_cookie rq) as [cookie|]; [|done].
  destruct (ValidCSRF (bs_session b') cookie) eqn:Ev; [|done]. injection H as <- <- <- <-.
  rewrite D1 in Hh. split_and!; [congruence|congruence|done|done|done|]. exists id, now.
  by rewrite Hnow.
Qed.

(** The session of a cookie, as the database has it at a time: its row, live and
    not revoked, the identity row it names, and that identity's mailbox, enabled
    and of this address. *)
Record stored_session (d : DB) (now : Z) (cookie : string) (se : SessionRow) (ir : IdentityRow) (email : string)
    : Prop := {
  sd_row : sql_store.sessions d !! cookie = Some se;
  sd_live : se_revoked_at se = None /\ (se_created_at se <= now < se_expires_at se)%Z;
  sd_identity : sql_store.identities d !! se_identity_ref_id se = Some ir;
  sd_mailbox : exists mid m, ir_mailbox_id ir = Some mid /\ db_mailboxes d !! mid = Some m
    /\ mb_enabled m = true /\ sql_store.mailbox_email d m = Some email;
}.


(** ** Revoked roles *)

Section Revoked.
Context `{PARSER : !UrlParser}.

(** When the operator has revoked the global role of an identity, no session
    of that identity is a global administrator's any more: it is allowed only
    its mailbox, the bounded reads, and what its domain-scoped bindings give. *)
Theorem revoked_admin_powerless ask confirmation w res w1 request s rq v b actor csrf v' act r d :
  bindings_wf (w_db w) -> rolebinding.Apply ask confirmation w = (Ok res, w1) ->
  rolebinding.normalize ask = Ok request ->
  rolebinding.rq_operation request = rolebinding.OperationRevoke ->
  rolebinding.rq_role request = RoleGlobalAdmin ->
  w_db v = w_db w1 -> api.boundUIIdentity rq v = (Ok (inr (b, actor, csrf)), v') ->
  sn_identity_ref_id (bs_session b) = rolebinding.pl_identity_id (rolebinding.re_plan res) ->
  Decide s actor act r = Some d -> d_allow d = true ->
  (EqualFold (bs_mailbox b) (r_id r) = true /\ (act = "webmail:use" \/ HasPrefix act "mailbox:app_password." = true))
  \/ has_any_prefix act ["status:"; "doctor:"]
  \/ exists k row dom, sql_store.bindings (w_db w1) !! k = Some row
       /\ rb_identity_ref_id row = sn_identity_ref_id (bs_session b) /\ rb_domain_id row = Some dom
       /\ (rb_role row = RoleDomainManager \/ rb_role row = RoleScopedDomainAccess).
Proof.
  intros W H Hn Hop Hrole Hv Hb Hid Hd Ha.
  pose proof (bindings_wf_Apply ask confirmation w W) as W1. rewrite H in W1. cbn [snd] in W1.
  apply (Apply_ok _ _ _ _ _ W) in H as (rq1 & c & Hn' & (_ & Hdom & _ & _) & Hp & _ & _ & Hr & _).
  rewrite Hn in Hn'. injection Hn' as <-. specialize (Hr Hop).
  apply boundUIIdentity_ok in Hb as (_ & _ & -> & _ & _ & sid & now & _ & _ & Hh). rewrite Hv in Hh.
  apply (Decide_allow _ _ _ _ _ Hd) in Ha. apply (session_permitted s _ _ _ _ _ _ Hh) in Ha.
  rewrite Hp in Hid. cbn in Hid.
  assert (forall role dom, role = RoleDomainManager \/ role = RoleScopedDomainAccess ->
    role_bound (w_db w1) (sn_identity_ref_id (bs_session b)) role dom ->
    exists k row dom', sql_store.bindings (w_db w1) !! k = Some row
      /\ rb_identity_ref_id row = sn_identity_ref_id (bs_session b) /\ rb_domain_id row = Some dom'
      /\ (rb_role row = RoleDomainManager \/ rb_role row = RoleScopedDomainAccess)) as Hscoped.
  { intros role dom Hr' (k & row & Hk & Hi & Hro & _). pose proof (bw_check _ W1 _ _ Hk) as Hc.
    unfold rolebinding.binding_check in Hc. rewrite Hro in Hc.
    destruct (rb_domain_id row) as [dom'|] eqn:E; [by exists k, row, dom'; rewrite Hro|].
    destruct Hr' as [->| ->]; done. }
  destruct Ha as [(_ & ? & ?)|[?|[Hg|[[Hg _]|[Hg _]]]]]; [by left|by right; left| |right; right..].
  - destruct Hr. destruct Hg as (k & row & Hk & Hi & Hro & _). exists k, row. split; [done|].
    apply binding_matches_true. pose proof (bw_check _ W1 _ _ Hk) as Hc. unfold rolebinding.binding_check in Hc.
    rewrite Hro in Hc. split; [by rewrite Hi|]. split; [by rewrite Hrole|].
    assert (rolebinding.rq_domain request = "") as E by by apply (normalize_global ask).
    rewrite E in Hdom. destruct Hdom as [-> _]. destruct (rb_domain_id row); done.
  - eapply Hscoped; [by left|exact Hg].
  - eapply Hscoped; [by right|exact Hg].
Qed.
End Revoked.

(** ** Application passwords *)

Section Passwords.
Context `{LAWS : !MapOrderLaws}.

(** Only passwords of one mailbox were created or changed. *)
Definition only_of (a : string) (st st' : Service) : Prop := forall id,
  is_passwords st' !! id <> is_passwords st !! id ->
  (exists p, is_passwords st' !! id = Some p /\ pw_mailbox_id p = a)
  /\ (forall p, is_passwords st !! id = Some p -> pw_mailbox_id p = a).

Lemma only_of_same a st st' : is_passwords st' = is_passwords st -> only_of a st st'.
Proof. by intros E id H; rewrite E in H. Qed.

Lemma passwords_sync a st : is_passwords (syncDaemonAppPasswords a st) = is_passwords st.
Proof. done. Qed.

Lemma insert_only_of (l : gmap string AppPassword) id p a (st st' : Service) :
  is_passwords st' = <[id := p]> (is_passwords st) -> pw_mailbox_id p = a ->
  (forall q, is_passwords st !! id = Some q -> pw_mailbox_id q = a) -> only_of a st st'.
Proof.
  intros E Hp Hq k Hk. rewrite E in *. destruct (decide (k = id)) as [->|Hn].
  - rewrite lookup_insert_eq in *. split; [by exists p|done].
  - by rewrite lookup_insert_ne in Hk.
Qed.

(** What a call on the passwords of a mailbox may have done. *)
Definition password_call (actor : Actor) (mailboxID : string) (w w' : World Service) : Prop :=
  is_passwords (w_ext w') <> is_passwords (w_ext w) ->
  (exists act, HasPrefix act "mailbox:app_password." = true
     /\ permitted (is_authorizer (w_ext w)) actor act {| r_type := "mailbox"; r_id := mailboxID |})
  /\ only_of (ToLower mailboxID) (w_ext w) (w_ext w').

Lemma create_call actor mailboxID label w : sound_world w ->
  password_call actor mailboxID w (CreateAppPassword actor mailboxID label w).2.
Proof.
  intros Hs Hne. destruct (CreateAppPassword actor mailboxID label w) as [[out|e] w'] eqn:E; cbn [snd] in *.
  - apply CreateAppPassword_ok in E as (p & Hc & _). split.
    + exists "mailbox:app_password.create". split; [done|]. apply Hc.
    + rewrite (cr_service _ _ _ _ _ _ _ _ Hc). destruct (cr_mailbox _ _ _ _ _ _ _ _ Hc) as [Hm _].
      eapply (insert_only_of ∅ (pw_id p) p); [done|done|]. intros q Hq.
      destruct Hs as [_ Hst]. destruct (Hst _ _ Hq) as (k & r & H1 & H2 & H3).
      by destruct (cr_fresh _ _ _ _ _ _ _ _ Hc k r H1).
  - apply CreateAppPassword_err in E. by rewrite E in Hne.
Qed.

Lemma revoke_call actor mailboxID id w :
  password_call actor mailboxID w (RevokeAppPassword actor mailboxID id w).2.
Proof.
  intros Hne. destruct (RevokeAppPassword actor mailboxID id w) as [[out|e] w'] eqn:E; cbn [snd] in *.
  - apply RevokeAppPassword_ok in E as [Hp [(E1 & _)|(p' & (p & Hq & Hm & _ & _ & -> & Hst) & _)]]; [by rewrite E1 in Hne|]. split.
    + by exists "mailbox:app_password.revoke".
    + rewrite Hst. eapply (insert_only_of ∅ id); [done|by cbn|]. intros q Hq'. by rewrite Hq in Hq'; injection Hq' as <-.
  - apply RevokeAppPassword_err in E. by rewrite E in Hne.
Qed.

(** The actor of a session without roles is permitted an action on passwords
    only for its own mailbox. *)
Lemma own_mailbox s b act mailboxID : HasPrefix act "mailbox:app_password." = true ->
  permitted s (session_actor b []) act {| r_type := "mailbox"; r_id := mailboxID |} ->
  EqualFold (bs_mailbox b) mailboxID = true.
Proof.
  intros Ha. assert (forall role dom, ~ granted s (session_actor b []) role dom) as Hn.
  { intros role dom (x & Hx & _)%granted_roles. by apply not_elem_of_nil in Hx. }
  intros [| | | | | | _ Ho _| _ Hg| _ Hp| _ Hg _| _ Hg _]; try done; try by destruct (Hn _ _ Hg).
  - by apply owns_eq in Ho as [_ ?].
  - destruct Hp as (p & Hp & Hx). apply HasPrefix_strip in Ha as [x Hx1]. apply strip_some in Hx1 as ->.
    rewrite !elem_of_cons in Hp. destruct Hp as [->|[->|Hp]]; [done..|]. by apply not_elem_of_nil in Hp.
Qed.

Lemma answer_ext {A} status show (m : M Service A) w : w_ext (api.answer status show m w).2 = w_ext (m w).2.
Proof. unfold api.answer. rewrite bind_run. unfold tryM. by destruct (m w) as [[a|e] w1]. Qed.

Lemma keeps_api_audit rq action resource result code : keeps_ext (PS := Service) (api.writeAPIAudit rq action resource result code).
Proof. unfold api.writeAPIAudit. solve_keeps. Qed.
#[local] Hint Resolve keeps_api_audit keeps_authorize : effects.

Lemma app_password_call_guarded rq actor parts mailboxID w : sound_world w ->
  let w' := (api.app_password_call rq actor parts mailboxID w).2 in
  password_call actor mailboxID w w'
  /\ (is_passwords (w_ext w') <> is_passwords (w_ext w) -> api.mutates rq = true).
Proof.
  intros Hs. cbv zeta. unfold api.app_password_call, api.mutates.
  assert (forall m : M Service HttpResponse, keeps_ext m -> (password_call actor mailboxID w (m w).2
    /\ (is_passwords (w_ext (m w).2) <> is_passwords (w_ext w) -> (api.ar_method rq =?s MethodPost)
        || (api.ar_method rq =?s api.MethodDelete) = true))) as Hsame.
  { intros m Hm. split; intros Hne; by rewrite (Hm w) in Hne. }
  destruct ((length parts =? 2) && (api.ar_method rq =?s MethodGet)).
  { apply Hsame. unfold api.answer, ListAppPasswordsForActor. solve_keeps. apply keeps_read. }
  destruct ((length parts =? 2) && (api.ar_method rq =?s MethodPost)) eqn:E2.
  { apply andb_true_iff in E2 as [_ E2]. destruct (api.decode_label (api.ar_body rq)) as [label|].
    - split; [|by rewrite E2]. unfold password_call. rewrite answer_ext. by apply create_call.
    - apply Hsame. solve_keeps. }
  destruct ((length parts =? 3) && (api.ar_method rq =?s api.MethodDelete)) eqn:E3.
  { apply andb_true_iff in E3 as [_ E3]. split; [|by rewrite E3, orb_true_r].
    unfold password_call. rewrite answer_ext. apply revoke_call. }
  apply Hsame. solve_keeps.
Qed.

(** How the caller of the JSON API authenticated. *)
Definition api_caller rq w (actor : Actor) (session : option BoundSession) : Prop :=
  match session with
  | None => AuthenticateBearer (w_ext w) (api.ar_authorization rq) "api_token" = Ok actor
  | Some b => api.ar_authorization rq = "" /\ actor = session_actor b []
      /\ exists sid now, api.ar_session_cookie rq = Some sid /\ honoured sid now b (w_db w)
  end.

Lemma identityRequestActor_run rq w : exists r w1, api.identityRequestActor rq w = (r, w1)
  /\ w_db w1 = w_db w /\ w_ext w1 = w_ext w
  /\ match r with Ok (inr (actor, session)) => api_caller rq w actor session | _ => True end.
Proof.
  unfold api.identityRequestActor. destruct (api.ar_authorization rq <>?s "") eqn:Ea.
  - rewrite readM_bind. eexists _, w. split_and!; [reflexivity|done..|].
    destruct (AuthenticateBearer _ _ _) eqn:E; done.
  - apply negb_false_iff in Ea. to_prop. destruct (api.ar_session_cookie rq) as [[|c sid]|] eqn:Ec;
      [by eexists _, w|set (id := String c sid) in *|by eexists _, w].
    destruct (nowM_run w) as (now & w1 & E & D1 & X1 & _). rewrite (bind_step _ _ _ _ _ E). rewrite bind_run.
    destruct (BoundSession_same id now w1) as [D2 X2].
    destruct (sql_store.BoundSession id now w1) as [[[b|]|e] w2] eqn:E2; cbn [snd] in *;
      eexists _, w2; (split; [reflexivity|]); (split; [congruence|]); (split; [congruence|]); [|done..].
    split; [done|]. split; [done|]. exists id, now. split; [done|]. apply BoundSession_honoured in E2. by rewrite D1 in E2.
Qed.

(** C24: end to end through the JSON API: if a request changed the application
    passwords, it was a POST or a DELETE; its caller was the owner of an API
    token permitted the action on the mailbox in the path, or a session that
    is honoured, without an Authorization header, whose CSRF cookie and header
    agree with the secret of the session, and the mailbox in the path is the
    mailbox of the session; and only passwords of that mailbox changed. *)
Theorem app_passwords_guarded rq w : sound_world w ->
  let w' := (api.app_passwords rq w).2 in
  let mailboxID := nth 0 (SplitByte "/" (TrimPrefix (api.ar_path rq) "/api/v1/mailboxes/")) "" in
  is_passwords (w_ext w') <> is_passwords (w_ext w) ->
  api.mutates rq = true /\ only_of (ToLower mailboxID) (w_ext w) (w_ext w')
  /\ exists actor session act, api_caller rq w actor session
       /\ HasPrefix act "mailbox:app_password." = true
       /\ permitted (is_authorizer (w_ext w)) actor act {| r_type := "mailbox"; r_id := mailboxID |}
       /\ match session with
          | Some b => api.validSessionCSRF rq b = true /\ EqualFold (bs_mailbox b) mailboxID = true
          | None => True
          end.
Proof.
  intros Hs. cbv zeta. unfold api.app_passwords. cbv zeta. set (parts := SplitByte _ _).
  destruct (_ || _); [done|]. destruct (identityRequestActor_run rq w) as (r & w1 & E & D & X & Hr).
  rewrite bind_run, E. destruct r as [[refusal|[actor session]]|e].
  - intros Hne. rewrite (keeps_bind _ _ (keeps_api_audit _ _ _ _ _) (fun _ => keeps_ret refusal) w1), X in Hne. done.
  - assert (sound_world w1) as Hs1 by (unfold sound_world in *; by rewrite D, X).
    destruct (app_password_call_guarded rq actor parts (nth 0 parts "") w1 Hs1) as [Hc Hm].
    unfold password_call in Hc. rewrite X in Hc, Hm.
    destruct session as [b|].
    + destruct (api.mutates rq && negb (api.validSessionCSRF rq b)) eqn:Eb.
      { intros Hne. rewrite (keeps_bind _ _ (keeps_api_audit _ _ _ _ _) (fun _ => keeps_ret _) w1), X in Hne. done. }
      intros Hne. destruct (Hc Hne) as [(act & Ha & Hp) Ho]. specialize (Hm Hne). split; [done|]. split; [done|].
      exists actor, (Some b), act. rewrite Hm in Eb. cbn in Eb. apply negb_false_iff in Eb.
      split_and!; [done..|]. destruct Hr as (_ & -> & _). by eapply own_mailbox.
    + intros Hne. destruct (Hc Hne) as [(act & Ha & Hp) Ho]. split; [by apply Hm|]. split; [done|].
      by exists actor, None, act.
  - cbn [snd]. rewrite X. done.
Qed.
End Passwords.
End Authority.
