(* ===== verification/ScimToken.v ===== *)
(** * SCIM bearer tokens (internal/scimtoken/scimtoken.go)

    The operator admits the bearer secret of a SCIM client: a preview returns
    the digest of the secret and of the stored token, and the token is
    created, rotated or reactivated in one transaction only when that digest
    is confirmed and still current.  The secret is never stored: the row keeps
    a verifier.  A file is what opening its path without following a symbolic
    link shows. *)

From stdpp Require Import base list gmap sets strings.
From Stdlib Require Import ZArith Lia Ascii.
From S2P Require Import Prelude GoStd Json JsonText JsonStruct Sha256 Sha1 Policy Queue AuditLog Database QueueStore Admin PlanDigest Postfix Remote Http Helper Relay Daemon Verifier Lookup LookupRoutes Tokens Authz Regex Approval Executor Telegram Identity IdentityFacts IdentitySafety Scim ScimFacts Authn AuthnSafety AuthnSessions RoleBinding RoleBindingSafety.
Import authz identity.
#[local] Existing Instances M_ret M_bind.

Module scimtoken.

Definition minSecretBytes : nat := 32.
Definition maxSecretBytes : nat := 512.

Record Plan := { pl_plan_id : string; pl_actor_id : string; pl_operation : string }.
Record Result := { re_plan : Plan; re_changed : bool }.
Record tokenState := {
  ts_found : bool; ts_verifier : string; ts_revoked : bool; ts_subject_type : string;
  ts_subject_id : string; ts_kind : string;
}.

(** An open file: [sf_data] is [None] when reading it fails. *)
Record SecretFile := { sf_regular : bool; sf_uid : Z; sf_perm : N; sf_data : option string }.

(** ** Validation *)

(** [^[a-z0-9][a-z0-9._-]{0,127}$] *)
Definition actor_start (c : ascii) : bool := in_range 97 122 c || in_range 48 57 c.
Definition actor_byte (c : ascii) : bool :=
  actor_start c || (byte_val c =? 46)%N || (byte_val c =? 95)%N || (byte_val c =? 45)%N.
Definition actorIDPattern (s : string) : bool :=
  match s with
  | EmptyString => false
  | String c s => actor_start c && forall_bytes actor_byte s && (len s <=? 127)
  end.
Definition validateActorID (actorID : string) : result unit :=
  if actorIDPattern actorID then Ok tt
  else Err "SCIM token actor ID must be a lowercase stable identifier".

Definition bearerByte (c : ascii) : bool :=
  in_range 97 122 c || in_range 65 90 c || in_range 48 57 c || (byte_val c =? 45)%N || (byte_val c =? 46)%N
  || (byte_val c =? 95)%N || (byte_val c =? 126)%N || (byte_val c =? 43)%N || (byte_val c =? 47)%N
  || (byte_val c =? 61)%N.
Definition validateSecret (secret : string) : result unit :=
  if (len secret <? minSecretBytes) || (maxSecretBytes <? len secret)
  then Err "SCIM bearer must contain 32-512 bytes" else
  if forall_bytes bearerByte secret then Ok tt
  else Err "SCIM bearer contains non-bearer-safe bytes".

(** [euid] is the effective user. *)
Definition ReadSecret (euid : Z) (path : string) (file : option SecretFile) : result string :=
  if path =?s "" then Err "--secret-file required" else
  match file with
  | None => Err "open secret file"
  | Some f =>
      if negb (sf_regular f) then Err "secret file must be regular" else
      if negb (sf_uid f =? euid)%Z then Err "secret file must be owned by the effective user" else
      if negb (N.land (sf_perm f) 63 =? 0)%N
      then Err "secret file must not grant group or world permissions" else
      match sf_data f with
      | None => Err "read secret file"
      | Some data =>
          let secret := visible (Z.of_nat (maxSecretBytes + 1)) data in
          let! _ := validateSecret secret in Ok secret
      end
  end.

Definition equalDigest : string -> string -> bool := rolebinding.equalDigest.

Section ScimToken.
Context `{HOST : !Host} `{KDF : !Pbkdf2} {PS : Type}.

(** ** The stored token and the plan *)

Definition absent : tokenState :=
  {| ts_found := false; ts_verifier := ""; ts_revoked := false; ts_subject_type := ""; ts_subject_id := "";
     ts_kind := "" |}.
Definition state_of (r : TokenRow) : tokenState :=
  {| ts_found := true; ts_verifier := tk_verifier r;
     ts_revoked := negb (bool_decide (tk_revoked_at r = None)); ts_subject_type := tk_subject_type r;
     ts_subject_id := tk_subject_id r; ts_kind := tk_kind r |}.

Definition loadState (actorID : string) : M PS tokenState :=
  liftM (validateActorID actorID);;
  row ← queryM (fun d => Ok (tokens d !! TokenStorageID actorID));
  match row with
  | None => mret absent
  | Some r =>
      guardM ((tk_subject_type r <>?s "token") || (tk_subject_id r <>?s actorID) || (tk_kind r <>?s "scim_client"))
        "stable token row is owned by a different subject or kind";;
      mret (state_of r)
  end.

Definition operation_of (secret : string) (state : tokenState) : result string :=
  if ts_found state then
    if negb (is_ok (ValidateDjangoPBKDF2SHA256 (ts_verifier state)))
    then Err "stored SCIM token verifier is invalid" else
    if is_ok (VerifyDjangoPBKDF2SHA256 (ts_verifier state) secret) then
      Ok (if ts_revoked state then "reactivate" else "unchanged")
    else Ok "rotate"
  else Ok "create".

Definition plan_payload (actorID operation secret : string) (state : tokenState) : jval :=
  VObj [("domain", VStr "gotth-mail/scim-token-plan/v1"); ("actor_id", VStr actorID);
        ("operation", VStr operation); ("secret_digest", VStr (sha256_hex (bytes_of secret)));
        ("verifier_state",
         VStr (if ts_found state then sha256_hex (bytes_of (ts_verifier state)) else "absent"));
        ("revoked", VBool (ts_revoked state))].

Definition buildPlan (actorID secret : string) (state : tokenState) : result Plan :=
  let! _ := validateActorID actorID in
  let! _ := validateSecret secret in
  let! operation := operation_of secret state in
  Ok {| pl_plan_id := sha256_hex (bytes_of (print_json (plan_payload actorID operation secret state)));
        pl_actor_id := actorID; pl_operation := operation |}.

Definition Preview (actorID secret : string) : M PS Plan :=
  state ← loadState actorID;
  liftM (buildPlan actorID secret state).

(** ** Applying a plan *)

(** UPDATE tokens SET verifier=$1, revoked_at=NULL WHERE id=$2 AND
    subject_type='token' AND subject_id=$3 AND kind='scim_client': the number
    of rows affected. *)
Definition update_client (actorID verifier : string) (d : DB) : result (nat * DB) :=
  let id := TokenStorageID actorID in
  match tokens d !! id with
  | Some r =>
      if (tk_subject_type r =?s "token") && (tk_subject_id r =?s actorID) && (tk_kind r =?s "scim_client")
      then let! p := store_token id (put tk_verifier verifier (put tk_revoked_at None r)) d in Ok (1, p.2)
      else Ok (0, d)
  | None => Ok (0, d)
  end.

Definition client_row (actorID verifier : string) (now : Z) : TokenRow :=
  {| tk_subject_type := "token"; tk_subject_id := actorID; tk_kind := "scim_client"; tk_verifier := verifier;
     tk_label := actorID; tk_scope_json := "[]"; tk_created_at := now; tk_revoked_at := None;
     tk_public_id := None |}.

Definition token_event (now : Z) (plan : Plan) (actorID : string) : Event :=
  {| ev_id := ""; ev_time := now; ev_actor := {| actor_type := "local_admin"; actor_id := "cli" |};
     ev_source := None; ev_action := "scim.token." +:+ pl_operation plan;
     ev_resource := {| resource_type := "scim_client"; resource_id := actorID |};
     ev_before := JNull;
     ev_after := JObj [("actor_id", JStr actorID); ("operation", JStr (pl_operation plan))];
     ev_correlation_id := "gotth-mailctl-scim-token"; ev_result := "success"; ev_error_code := "" |}.

(** The UPDATE of a stored token, the INSERT of a new one. *)
Definition save_client (state : tokenState) (actorID verifier : string) (now : Z) : M PS unit :=
  if ts_found state then
    affected ← execM (update_client actorID verifier);
    guardM (negb (affected =? 1)) ("SCIM token update affected " +:+ FormatInt (Z.of_nat affected) +:+ " rows")
  else execM (insert_token (TokenStorageID actorID) (client_row actorID verifier now)).

Definition Apply (actorID secret confirmation : string) : M PS Result :=
  liftM (validateActorID actorID);;
  liftM (validateSecret secret);;
  transaction (
    state ← loadState actorID;
    plan ← liftM (buildPlan actorID secret state);
    guardM (negb (equalDigest (pl_plan_id plan) confirmation))
      "confirmation digest does not match current SCIM token state";;
    if pl_operation plan =?s "unchanged" then mret (false, {| re_plan := plan; re_changed := false |}) else
    verifier ← HashSecret secret;
    now ← nowM;
    save_client state actorID verifier now;;
    WriteSQL (token_event now plan actorID);;
    mret (true, {| re_plan := plan; re_changed := true |})).
End ScimToken.
End scimtoken.

(** * What an admission establishes *)

Import scimtoken.

Section ScimTokenFacts.
Context `{HOST : !Host} `{KDF : !Pbkdf2} {PS : Type}.
Implicit Types (w : World PS) (d : DB) (st : Service).

Lemma store_token_ok id r d u d' : store_token id r d = Ok (u, d') -> d' = with_tokens (<[id := r]>) d.
Proof.
  unfold store_token. destruct (negb _); [done|]. destruct (public_id_taken id r d); [done|]. by intros [= _ <-].
Qed.

(** The state of a client in a database. *)
Definition current (actorID : string) d : tokenState :=
  match tokens d !! TokenStorageID actorID with Some r => state_of r | None => absent end.

Lemma loadState_ok actorID w s w' : loadState actorID w = (Ok s, w') ->
  w_db w' = w_db w /\ w_ext w' = w_ext w /\ s = current actorID (w_db w)
  /\ forall r, tokens (w_db w) !! TokenStorageID actorID = Some r ->
       tk_subject_type r = "token" /\ tk_subject_id r = actorID /\ tk_kind r = "scim_client".
Proof.
  unfold loadState, current. intros H. apply bind_ok in H as (u & w1 & [_ ->]%liftM_ok & H).
  apply bind_ok in H as (row & w2 & (Hq & D & X)%queryM_ok & H). injection Hq as <-.
  destruct (tokens (w_db w) !! TokenStorageID actorID) as [r|].
  - apply bind_ok in H as (u' & w3 & [Hg ->]%guardM_ok & [= <- <-]). apply orb_false_iff in Hg as [Hg H3].
    apply orb_false_iff in Hg as [H1 H2]. to_prop. split_and!; [done..|]. by intros ? [= <-].
  - injection H as <- <-. by split_and!.
Qed.

(** A row through which a client's secret is accepted. *)
Record live_client (actorID secret : string) (r : TokenRow) : Prop := {
  lc_subject : tk_subject_type r = "token" /\ tk_subject_id r = actorID;
  lc_kind : tk_kind r = "scim_client";
  lc_live : tk_revoked_at r = None;
  lc_accepts : VerifyDjangoPBKDF2SHA256 (tk_verifier r) secret = Ok tt;
}.

Definition same_but_secret (r r' : TokenRow) : Prop :=
  r' = put tk_verifier (tk_verifier r') (put tk_revoked_at None r).

Lemma save_client_ok actorID secret verifier now w u w' :
  VerifyDjangoPBKDF2SHA256 verifier secret = Ok tt ->
  save_client (current actorID (w_db w)) actorID verifier now w = (Ok u, w') ->
  exists r, w_db w' = with_tokens (<[TokenStorageID actorID := r]>) (w_db w) /\ w_ext w' = w_ext w
    /\ live_client actorID secret r
    /\ match tokens (w_db w) !! TokenStorageID actorID with
       | Some old => same_but_secret old r
       | None => r = client_row actorID verifier now
       end.
Proof.
  intros Hv. unfold save_client, current.
  destruct (tokens (w_db w) !! TokenStorageID actorID) as [old|] eqn:E; cbn [ts_found state_of absent].
  - intros H. apply bind_ok in H as (n & w1 & [H X]%execM_ok & [Hg ->]%guardM_ok). to_prop. subst n.
    unfold update_client in H. rewrite E in H. destruct (_ && _) eqn:Em; [|done].
    apply rbind_ok in H as ([u1 d1] & Hs & [= <-]). apply store_token_ok in Hs.
    apply andb_true_iff in Em as [[H1 H2]%andb_true_iff H3]. to_prop.
    eexists. split; [exact Hs|]. split; [done|]. split; [|done]. by split.
  - intros [H X]%execM_ok. unfold insert_token in H. rewrite E in H. apply store_token_ok in H.
    eexists. split; [exact H|]. split; [done|]. split; [|done]. by split.
Qed.

(** An applied plan, with the state it was confirmed for. *)
Record issued (actorID secret confirmation : string) (res : Result) d d' : Prop := {
  is_valid : actorIDPattern actorID = true /\ validateSecret secret = Ok tt;
  is_operation : operation_of secret (current actorID d) = Ok (pl_operation (re_plan res));
  is_confirmed : hex_decode confirmation = Some (Sha.sum256 (bytes_of (print_json
    (plan_payload actorID (pl_operation (re_plan res)) secret (current actorID d)))));
  is_row : exists r, tokens d' !! TokenStorageID actorID = Some r /\ live_client actorID secret r
    /\ (if re_changed res
        then exists ev, d' = with_audit (fun l => l ++ [ev]) (with_tokens (<[TokenStorageID actorID := r]>) d)
             /\ ev_action ev = "scim.token." +:+ pl_operation (re_plan res)
             /\ match tokens d !! TokenStorageID actorID with
                | Some old => same_but_secret old r
                | None => tk_label r = actorID
                end
        else d' = d);
}.

Lemma buildPlan_ok actorID secret s plan : buildPlan actorID secret s = Ok plan ->
  operation_of secret s = Ok (pl_operation plan)
  /\ pl_plan_id plan
     = sha256_hex (bytes_of (print_json (plan_payload actorID (pl_operation plan) secret s))).
Proof.
  unfold buildPlan. intros (u1 & _ & H)%rbind_ok. apply rbind_ok in H as (u2 & _ & H).
  apply rbind_ok in H as (op & Ho & [= <-]). by split.
Qed.

(** A plan that changes nothing has its client already. *)
Lemma unchanged_live actorID secret d s : s = current actorID d ->
  (forall r, tokens d !! TokenStorageID actorID = Some r ->
     tk_subject_type r = "token" /\ tk_subject_id r = actorID /\ tk_kind r = "scim_client") ->
  operation_of secret s = Ok "unchanged" ->
  exists r, tokens d !! TokenStorageID actorID = Some r /\ live_client actorID secret r.
Proof.
  intros -> Hrow. unfold operation_of, current.
  destruct (tokens d !! TokenStorageID actorID) as [r|]; cbn [ts_found ts_verifier ts_revoked state_of absent]; [|done].
  destruct (negb _); [done|]. destruct (is_ok _) eqn:Ev; [|done].
  destruct (negb (bool_decide _)) eqn:Er; [done|]. intros _. exists r. split; [done|].
  destruct (Hrow r eq_refl) as (? & ? & ?). apply negb_false_iff, bool_decide_eq_true in Er.
  split; [done..|]. by apply verify_ok.
Qed.

Context `{KLAWS : !Pbkdf2Laws}.

Lemma HashSecret_accepts secret w v w' : HashSecret secret w = (Ok v, w') ->
  w_db w' = w_db w /\ w_ext w' = w_ext w /\ VerifyDjangoPBKDF2SHA256 v secret = Ok tt.
Proof. intros (D & X & _ & bytes & ->)%HashSecret_ok. split_and!; [done..|]. apply hash_accepts. Qed.

Lemma Apply_issued actorID secret confirmation w res w' :
  Apply actorID secret confirmation w = (Ok res, w') ->
  issued actorID secret confirmation res (w_db w) (w_db w').
Proof.
  unfold Apply. intros H. apply bind_ok in H as ([] & w0 & [Ha ->]%liftM_ok & H).
  apply bind_ok in H as ([] & w0 & [Hs ->]%liftM_ok & H).
  assert (actorIDPattern actorID = true) as Hp by (unfold validateActorID in Ha; by destruct (actorIDPattern actorID)).
  apply transaction_ok in H as (w1 & commit & w2 & Hb & D1 & _ & _ & D2).
  apply bind_ok in Hb as (s & w3 & (D3 & X3 & Es & Hrow)%loadState_ok & Hb). rewrite D1 in Es, Hrow.
  apply bind_ok in Hb as (plan & w4 & [Hplan ->]%liftM_ok & Hb). apply buildPlan_ok in Hplan as [Hop Hid].
  apply bind_ok in Hb as (u & w4 & [Hg ->]%guardM_ok & Hb).
  apply negb_false_iff in Hg. rewrite Hid in Hg. apply equalDigest_decode in Hg.
  destruct (pl_operation plan =?s "unchanged") eqn:Eu.
  - injection Hb as <- <- <-. cbn in D2. to_prop. rewrite Eu, Es in Hop.
    split; cbn [re_plan re_changed]; [done|rewrite Eu; exact Hop|by rewrite <- Es|]. rewrite D2.
    destruct (unchanged_live _ _ _ _ eq_refl Hrow Hop) as (r & Hr & Hl). by exists r.
  - apply bind_ok in Hb as (v & w5 & (D5 & X5 & Hv)%HashSecret_accepts & Hb).
    apply bind_ok in Hb as (now & w6 & Hnow & Hb). destruct (nowM_run w5) as (t & w6' & E & D6 & X6 & _).
    rewrite E in Hnow. injection Hnow as -> ->.
    assert (w_db w6 = w_db w) as D by (by rewrite D6, D5, D3, D1). rewrite Es, <- D in Hb.
    apply bind_ok in Hb as (u1 & w7 & (r & D7 & X7 & Hl & Hr)%(save_client_ok _ _ _ _ _ _ _ Hv) & Hb).
    apply bind_ok in Hb as (u2 & w8 & (ev & D8 & _ & Ea & _)%WriteSQL_ok & [= <- <- <-]). rewrite D in D7, Hr.
    split; cbn [re_plan re_changed]; [done|by rewrite <- Es|by rewrite <- Es|].
    exists r. rewrite D2, D8, D7. split; [unfold tokens; cbn; apply lookup_insert_eq|]. split; [done|].
    exists ev. split; [done|]. split; [by rewrite Ea|].
    destruct (tokens (w_db w) !! TokenStorageID actorID); [done|]. by rewrite Hr.
Qed.

(** ** The server that is started on the database *)

(** The row of every token but an application password sits where its label
    says. *)
Definition tokens_labelled d : Prop := forall k r, tokens d !! k = Some r -> tk_kind r <> "app_password" ->
  k = TokenStorageID (tk_label r).

Lemma labelled_issued actorID secret confirmation res d d' : issued actorID secret confirmation res d d' ->
  tokens_labelled d -> tokens_labelled d'.
Proof.
  intros [_ _ _ (r & Hr & Hl & Hd)] L. destruct (re_changed res); [|by subst].
  destruct Hd as (ev & -> & _ & Hold). intros k x. unfold tokens. cbn. rewrite lookup_insert.
  case_decide as Hk; [|apply L]. intros [= <-] _. subst k.
  destruct (tokens d !! TokenStorageID actorID) as [old|] eqn:Eo; [|by rewrite Hold].
  unfold same_but_secret in Hold. pose proof (lc_kind _ _ _ Hl) as Hk. rewrite Hold in Hk |- *. cbn in *.
  apply (L _ _ Eo). by rewrite Hk.
Qed.

Definition token_of (r : TokenRow) : Token :=
  {| to_id := tk_label r; to_kind := tk_kind r; to_verifier := tk_verifier r;
     to_scopes := lenient_strings (tk_scope_json r);
     to_revoked := match tk_revoked_at r with Some _ => true | None => false end |}.

(** A row is loaded under its label when no other row has that label. *)
Lemma load_fold (l : list (string * TokenRow)) st r : r ∈ map snd l -> tk_kind r <> "app_password" ->
  (forall q, q ∈ map snd l -> tk_kind q <> "app_password" -> tk_label q = tk_label r -> q = r) ->
  is_tokens (foldl (fun st p => load_token st p.2) st l) !! tk_label r = Some (token_of r).
Proof.
  intros Hin Hk Hu. induction l as [|[k q] l IH] using rev_ind; [by apply not_elem_of_nil in Hin|].
  rewrite foldl_app. cbn [foldl snd]. rewrite map_app in Hin, Hu. cbn [map snd] in Hin, Hu.
  assert (forall q', q' ∈ map snd l -> tk_kind q' <> "app_password" -> tk_label q' = tk_label r -> q' = r) as Hu'.
  { intros q' Hq'. apply Hu. apply elem_of_app. by left. }
  apply elem_of_app in Hin. unfold load_token at 1.
  destruct (tk_kind q =?s "app_password") eqn:Eq.
  { apply IH; [|done]. destruct Hin as [?|Hq]; [done|]. apply list_elem_of_singleton in Hq as ->. by to_prop. }
  to_prop. cbn [is_tokens put]. destruct (decide (tk_label q = tk_label r)) as [El|El].
  - rewrite (Hu q) by (done || (apply elem_of_app; right; by apply list_elem_of_singleton)). apply lookup_insert_eq.
  - rewrite lookup_insert_ne by done. apply IH; [|done]. destruct Hin as [?|Hq]; [done|].
    by apply list_elem_of_singleton in Hq as ->.
Qed.

Context `{ORDER : !MapOrder} `{LAWS : !MapOrderLaws}.

Lemma load_tokens_labelled d st k r : tokens_labelled d -> tokens d !! k = Some r -> tk_kind r <> "app_password" ->
  is_tokens (load_tokens d st) !! tk_label r = Some (token_of r).
Proof.
  intros L Hr Hk. unfold load_tokens. pose proof (range_perm 10 _ (tokens d)) as Hp. apply load_fold; [|done|].
  - apply list_elem_of_fmap. exists (k, r). split; [done|]. by rewrite Hp, elem_of_map_to_list.
  - intros q Hq Hkq El. apply list_elem_of_fmap in Hq as ([kq q'] & -> & Hq). rewrite Hp, elem_of_map_to_list in Hq.
    cbn in *. pose proof (L _ _ Hr Hk) as E1. pose proof (L _ _ Hq Hkq) as E2. rewrite El, <- E1 in E2. subst kq.
    rewrite Hr in Hq. by injection Hq as <-.
Qed.

Lemma secret_plain secret : validateSecret secret = Ok tt -> TrimSpace secret = secret.
Proof.
  unfold validateSecret. destruct (_ || _); [done|]. destruct (forall_bytes bearerByte secret) eqn:E; [|done].
  intros _. apply TrimSpace_plain. revert E. apply byte_class_incl. by vm_compute.
Qed.

(** C27: a SCIM token that was applied works. The confirmation was the digest
    of the actor, the operation, the secret and the token the transaction saw;
    the token is created, rotated or reactivated, with exactly its row and one
    audit event written, or it was live already and nothing was; and a server
    started on the database recognises the secret as a SCIM client's, through
    a live token that accepts it. *)
Theorem issued_token_authenticates actorID secret confirmation w res w' st :
  tokens_labelled (w_db w) -> Apply actorID secret confirmation w = (Ok res, w') ->
  issued actorID secret confirmation res (w_db w) (w_db w') /\ tokens_labelled (w_db w')
  /\ exists actor id tok,
       AuthenticateBearer (load_tokens (w_db w') st) ("Bearer " +:+ secret) "scim_client" = Ok actor
       /\ a_type actor = "scim_client" /\ a_id actor = to_id tok
       /\ is_tokens (load_tokens (w_db w') st) !! id = Some tok /\ to_revoked tok = false
       /\ VerifyDjangoPBKDF2SHA256 (to_verifier tok) secret = Ok tt.
Proof.
  intros L H. apply Apply_issued in H. pose proof (labelled_issued _ _ _ _ _ _ H L) as L'.
  split; [done|]. split; [done|]. destruct H as [[_ Hs] _ _ (r & Hr & [_ Hk Hlive Hv] & _)].
  assert (tk_kind r <> "app_password") as Hk' by (by rewrite Hk).
  pose proof (load_tokens_labelled _ st _ _ L' Hr Hk') as Hload.
  pose proof (AuthenticateBearer_exact (load_tokens (w_db w') st) ("Bearer " +:+ secret) "scim_client") as Hx.
  destruct (AuthenticateBearer _ _ _) as [actor|e].
  - destruct Hx as (id & tok & secret' & Ht & E & Hrev & _ & Hver & ->). assert (secret' = secret) as -> by by inversion E.
    rewrite secret_plain in Hver by done. eexists _, id, tok. by split_and!.
  - exfalso. eapply Hx; [exact Hload|done| |done|].
    + unfold token_of. cbn. by rewrite Hlive.
    + cbn. by rewrite secret_plain.
Qed.
End ScimTokenFacts.
