(* ===== verification/FrontAuth.v ===== *)
(** * Authentication at the mail front (internal/frontauth/frontauth.go)

    NGINX asks before it proxies a mail connection: for a recipient of an
    unauthenticated SMTP client, or for the credentials of an IMAP or SMTP
    client.  The handler answers from the daemon's lookups, with the address
    of one of two fixed backends.  A request carries its header lines in
    order, by canonical name; the resolver is a parameter. *)

From stdpp Require Import base list gmap sets strings.
From Stdlib Require Import ZArith Lia Ascii.
From S2P Require Import Prelude GoStd Json JsonText JsonStruct Sha256 Sha1 Policy Queue AuditLog Database QueueStore Admin PlanDigest Postfix Remote Http Helper Relay Daemon Verifier Lookup LookupRoutes Tokens Authz Regex Approval Executor Telegram Identity IdentityFacts IdentitySafety Scim Authn RoleBinding IdentityApi.
Import identity.
#[local] Existing Instances M_ret M_bind.

Module frontauth.

Definition serviceTokenHeader : string := "X-GOTTH-Mail-Front-Token".
Definition maxHeaderBytes : nat := 1024.
Definition maxTokenBytes : nat := 1024.
Definition minTokenBytes : nat := 32.

Definition IP : Type := list N.
Class Resolver (PS : Type) := { LookupIPAddr : string -> Command PS (list IP) }.

Record Request := { fr_method : string; fr_header : list (string * string) }.
Record Reply := { ry_status : Z; ry_header : gmap string string; ry_body : string }.

Record Handler (PS : Type) := {
  hd_service : Daemon.Service; hd_token_digest : string; hd_postfix_server : string; hd_postfix_port : string;
  hd_dovecot_server : string; hd_dovecot_port : string; hd_resolve_backend : string -> M PS string;
}.
Arguments hd_service {PS}. Arguments hd_token_digest {PS}. Arguments hd_postfix_server {PS}.
Arguments hd_postfix_port {PS}. Arguments hd_dovecot_server {PS}. Arguments hd_dovecot_port {PS}.
Arguments hd_resolve_backend {PS}.

(** What looking at a path, or opening it, shows: [tf_data] is [None] when
    reading fails. *)
Record TokenFile := { tf_symlink : bool; tf_regular : bool; tf_perm : N; tf_data : option string }.

(** ** Service tokens *)

Definition token_char (c : ascii) : bool :=
  in_range 97 122 c || in_range 65 90 c || in_range 48 57 c || (byte_val c =? 45)%N || (byte_val c =? 95)%N.
Definition validToken (token : string) : bool :=
  negb (len token <? minTokenBytes) && negb (maxTokenBytes <? len token) && forall_bytes token_char token.

Definition carriage_return : ascii := "013".
Definition nul : ascii := "000".

Definition invalid_token : string := "front-auth service token must contain 32..1024 bytes on one line".

(** The file is looked at and then opened: two observations. *)
Definition LoadTokenFile (info opened : option TokenFile) : result string :=
  match info with
  | None => Err "front-auth service token must be a private regular file"
  | Some i =>
      if tf_symlink i || negb (tf_regular i) || negb (N.land (tf_perm i) 63 =? 0)%N
      then Err "front-auth service token must be a private regular file" else
      match opened with
      | None => Err "open front-auth service token"
      | Some f =>
          match tf_data f with
          | None => Err "read front-auth service token"
          | Some data =>
              let data := visible (Z.of_nat (maxTokenBytes + 2)) data in
              let token := TrimSuffixByte (TrimSuffixByte data newline) carriage_return in
              if validToken token then Ok token else Err invalid_token
          end
      end
  end.

(** ** Headers *)

(** [textproto.CanonicalMIMEHeaderKey] of a name that is a token. *)
Fixpoint canonical_key (start : bool) (name : string) : string :=
  match name with
  | EmptyString => EmptyString
  | String c name => String (if start then upper_byte c else lower_byte c) (canonical_key (Ascii.eqb c "-") name)
  end.

Definition header_values (r : Request) (name : string) : list string :=
  omap (fun p => if p.1 =?s canonical_key true name then Some p.2 else None) (fr_header r).
Definition header_get (r : Request) (name : string) : string := nth 0 (header_values r name) "".

Definition contains_any (bytes s : string) : bool :=
  negb (forall_bytes (fun c => negb (Contains bytes (String c ""))) s).

Definition line_bytes : string := String carriage_return (String newline (String nul "")).
Definition path_bytes : string := "<>" +:+ String nul (String carriage_return (String newline "")).

Definition boundedHeader (r : Request) (name : string) : option string :=
  match header_values r name with
  | [value] => if (maxHeaderBytes <? len value) || contains_any line_bytes value then None else Some value
  | _ => None
  end.

Example token_key : canonical_key true serviceTokenHeader = "X-Gotth-Mail-Front-Token".
Proof. reflexivity. Qed.

Section FrontAuth.
Context `{HOST : !Host} `{MAIL : !MailParser} `{ORDER : !MapOrder} `{KDF : !Pbkdf2} {PS : Type}.

(** ** Addresses *)

(** A path in angle brackets: [closeIndex] is where the first [>] stands. *)
Definition bracketed (path : string) : option string :=
  match SplitFirstByte ">" path with
  | None => None
  | Some (before, after) =>
      if (len before <=? 1) || match after with String c _ => negb (Ascii.eqb c " ") && negb (Ascii.eqb c "009") | EmptyString => false end
      then None else Some (TrimPrefix before "<")
  end.

Definition parsed_address (value : string) : option string :=
  if (value =?s "") || contains_any path_bytes value then None else
  match ParseAddress value with
  | Some address => if EqualFold address value then Some address else None
  | None => None
  end.

Definition rcpt_to : string := "RCPT TO:".
Definition smtpRecipient (value0 : string) : option string :=
  let value := TrimSpace value0 in
  let command := String.substring 0 (len rcpt_to) value in
  if (len rcpt_to <=? len value) && EqualFold command rcpt_to then
    let path := TrimSpace (String.substring (len rcpt_to) (len value - len rcpt_to) value) in
    if negb (HasPrefix path "<") then None else
    value ← bracketed path; parsed_address value
  else parsed_address value.

Definition canonicalUsername (value : string) : option string := ToLower <$> parsed_address (TrimSpace value).

(** ** Answers *)

Definition fresh_header : gmap string string := {[ "Cache-Control" := "no-store" ]}.

(** [http.Error] *)
Definition http_failure (text : string) (status : Z) : Reply :=
  {| ry_status := status;
     ry_header := <["Content-Type" := "text/plain; charset=utf-8"]> (<["X-Content-Type-Options" := "nosniff"]> fresh_header);
     ry_body := text +:+ String newline "" |}.

Definition reject_with (header : gmap string string) (status errorCode : string) : Reply :=
  {| ry_status := StatusOK; ry_header := <["Auth-Error-Code" := errorCode]> (<["Auth-Status" := status]> header);
     ry_body := "" |}.
Definition reject : string -> string -> Reply := reject_with fresh_header.
Definition temporary : Reply :=
  reject_with (<["Auth-Wait" := "3"]> fresh_header) "authentication temporarily unavailable" "451 4.3.0".

Definition retryable (decision : string) : bool := (decision =?s DecisionDefer) || (decision =?s DecisionError).
Definition rejectAuthDecision (decision : string) : Reply :=
  if retryable decision then temporary else reject "authentication failed" "535 5.7.8".
Definition rejectRecipientDecision (decision : string) : Reply :=
  if retryable decision then temporary else reject "authentication failed" "550 5.1.1".

(** ** Backends *)

Definition To4 (ip : IP) : option (N * N * N * N) :=
  match ip with
  | [a; b; c; d] => Some (a, b, c, d)
  | [z0; z1; z2; z3; z4; z5; z6; z7; z8; z9; x; y; a; b; c; d] =>
      if bool_decide ([z0; z1; z2; z3; z4; z5; z6; z7; z8; z9; x; y] = repeat 0%N 10 ++ [255; 255]%N)
      then Some (a, b, c, d) else None
  | _ => None
  end.
Definition IsPrivate (ip : N * N * N * N) : bool :=
  let '(a, b, c, d) := ip in
  ((a =? 10)%N || ((a =? 172)%N && (N.land b 240 =? 16)%N) || ((a =? 192)%N && (b =? 168)%N)).
Definition dotted (ip : N * N * N * N) : string :=
  let '(a, b, c, d) := ip in
  let n x := FormatInt (Z.of_N x) in n a +:+ "." +:+ n b +:+ "." +:+ n c +:+ "." +:+ n d.

Definition private_ipv4 (ip : IP) : option string :=
  v4 ← To4 ip; if IsPrivate v4 then Some (dotted v4) else None.

Definition resolvePrivateBackend `{RESOLVER : !Resolver PS} (host : string) : M PS string :=
  addresses ← extM (LookupIPAddr host);
  match omap private_ipv4 addresses with
  | address :: _ => mret address
  | [] => failM "backend did not resolve to private IPv4"
  end.

Definition New `{RESOLVER : !Resolver PS} (service : Daemon.Service) (token : string) : result (Handler PS) :=
  if validToken token then
    Ok {| hd_service := service; hd_token_digest := authn.Sum256 token; hd_postfix_server := "postfix";
          hd_postfix_port := "25"; hd_dovecot_server := "dovecot"; hd_dovecot_port := "143";
          hd_resolve_backend := resolvePrivateBackend |}
  else Err invalid_token.

(** ** Requests *)

Variable h : Handler PS.
Implicit Types (w : World PS).

Definition authorized (token : string) : bool :=
  validToken token && (authn.Sum256 token =?s hd_token_digest h).

Definition accept (server port username : string) w : Reply * World PS :=
  let (address, w') := hd_resolve_backend h server w in
  match address with
  | Err _ => (temporary, w')
  | Ok address =>
      let header := <["Auth-Port" := port]> (<["Auth-Server" := address]> (<["Auth-Status" := "OK"]> fresh_header)) in
      ({| ry_status := StatusOK;
          ry_header := if username <>?s "" then <["Auth-User" := username]> header else header;
          ry_body := "" |}, w')
  end.

Definition newCorrelationID w : string * World PS :=
  match entropyM w with
  | (Ok (Some b), w') => ("front-auth-" +:+ hex_encode (fill 16 b), w')
  | (_, w') => ("front-auth", w')
  end.

Definition serve_recipient (r : Request) (correlationID : string) w : Reply * World PS :=
  match to ← boundedHeader r "Auth-SMTP-To"; smtpRecipient to with
  | None => (reject "invalid recipient" "501 5.1.3", w)
  | Some recipient =>
      let (response, w') := PostfixRecipient (hd_service h) correlationID recipient w in
      if rp_decision response <>?s DecisionOK then (rejectRecipientDecision (rp_decision response), w')
      else accept (hd_postfix_server h) (hd_postfix_port h) "" w'
  end.

Definition credentials (r : Request) : option (string * string) :=
  username ← boundedHeader r "Auth-User"; secret ← boundedHeader r "Auth-Pass";
  user ← canonicalUsername username; if secret =?s "" then None else Some (user, secret).

Definition serve_credentials (r : Request) (protocol correlationID : string) w : Reply * World PS :=
  match credentials r with
  | None => (reject "invalid credentials" "535 5.7.8", w)
  | Some (user, secret) =>
      let smtp := protocol =?s "smtp" in
      let (response, w') := DovecotPassdb (hd_service h) correlationID
        {| pd_username := user; pd_secret := secret; pd_protocol := if smtp then "submission" else "imap" |} w in
      if rp_decision response <>?s DecisionOK then (rejectAuthDecision (rp_decision response), w')
      else if smtp then accept (hd_postfix_server h) (hd_postfix_port h) user w'
      else accept (hd_dovecot_server h) (hd_dovecot_port h) user w'
  end.

Definition ServeHTTP (r : Request) w : Reply * World PS :=
  if (fr_method r <>?s MethodGet) || negb (authorized (header_get r serviceTokenHeader))
  then (http_failure "forbidden" api.StatusForbidden, w) else
  match boundedHeader r "Auth-Protocol", boundedHeader r "Auth-Method" with
  | Some protocol, Some method =>
      let (correlationID, w1) := newCorrelationID w in
      if (protocol =?s "smtp") && (method =?s "none") then serve_recipient r correlationID w1
      else if ((protocol =?s "imap") || (protocol =?s "smtp")) && ((method =?s "plain") || (method =?s "login"))
      then serve_credentials r protocol correlationID w1
      else (reject "unsupported authentication" "535 5.7.8", w1)
  | _, _ => (http_failure "invalid auth request" StatusBadRequest, w)
  end.
End FrontAuth.
End frontauth.

(** * Whom the front lets through *)

Import frontauth.

Section FrontAuthFacts.
Context `{HOST : !Host} `{MAIL : !MailParser}.
Context `{ORDER : !MapOrder} `{LAWS : !MapOrderLaws} `{KDF : !Pbkdf2} {PS : Type} `{RESOLVER : !Resolver PS}.
Implicit Types (w : World PS) (s : Daemon.Service) (h : Handler PS) (r : Request).

Definition says_ok (rp : Reply) : Prop := ry_header rp !! "Auth-Status" = Some "OK".

Lemma reject_says hd status code : status <> "OK" -> ~ says_ok (reject_with hd status code).
Proof.
  unfold says_ok, reject_with. cbn [ry_header]. rewrite lookup_insert_ne, lookup_insert_eq by done. congruence.
Qed.
Lemma temporary_says : ~ says_ok temporary.
Proof. by apply reject_says. Qed.
Lemma failure_says text status : ~ says_ok (http_failure text status).
Proof. unfold says_ok, http_failure, fresh_header. cbn [ry_header]. by rewrite !lookup_insert_ne, lookup_singleton_ne by done. Qed.
Lemma rejectRecipient_says d : ~ says_ok (rejectRecipientDecision d).
Proof. unfold rejectRecipientDecision. destruct (retryable d); [apply temporary_says|by apply reject_says]. Qed.
Lemma rejectAuth_says d : ~ says_ok (rejectAuthDecision d).
Proof. unfold rejectAuthDecision. destruct (retryable d); [apply temporary_says|by apply reject_says]. Qed.

(** The address of a backend: private, and what the resolver gave for it. *)
Definition backend_address (server address : string) : Prop := exists (x : PS) ips ip v4,
  (LookupIPAddr server x).1 = Ok ips /\ ip ∈ ips /\ To4 ip = Some v4 /\ IsPrivate v4 = true /\ address = dotted v4.

Lemma resolve_ok server w address w' : resolvePrivateBackend server w = (Ok address, w') ->
  w_db w' = w_db w /\ backend_address server address.
Proof.
  unfold resolvePrivateBackend. intros H. apply bind_ok in H as (ips & w1 & H1 & H). unfold extM in H1.
  destruct (LookupIPAddr server (w_ext w)) as [res x] eqn:E. injection H1 as -> <-.
  destruct (omap private_ipv4 ips) as [|a l] eqn:Ef; [done|]. injection H as -> <-. split; [done|].
  assert (address ∈ omap private_ipv4 ips) as Hin by (rewrite Ef; by left).
  apply list_elem_of_omap in Hin as (ip & Hip & Hp). unfold private_ipv4 in Hp.
  destruct (To4 ip) as [v4|] eqn:E4; cbn in Hp; [|done]. destruct (IsPrivate v4) eqn:Ep; [|done]. injection Hp as <-.
  exists (w_ext w), ips, ip, v4. by rewrite E.
Qed.

(** What the front tells NGINX to do. *)
Record forwarded (server port username : string) (rp : Reply) : Prop := {
  fw_status : ry_status rp = StatusOK;
  fw_port : ry_header rp !! "Auth-Port" = Some port;
  fw_user : ry_header rp !! "Auth-User" = if username <>?s "" then Some username else None;
  fw_server : exists address, ry_header rp !! "Auth-Server" = Some address /\ backend_address server address;
}.

Lemma accept_ok s token h server port username w rp w' : New s token = Ok h ->
  accept h server port username w = (rp, w') -> says_ok rp ->
  forwarded server port username rp /\ w_db w' = w_db w.
Proof.
  unfold New. intros Hn. destruct (validToken token); [|done]. injection Hn as <-.
  unfold accept. cbn [hd_resolve_backend].
  destruct (resolvePrivateBackend server w) as [[address|e] w1] eqn:E; intros [= <- <-] Hs; [|by destruct (temporary_says Hs)].
  apply resolve_ok in E as [D B]. split; [|done]. split; cbn [ry_status ry_header]; [done|..].
  - destruct (username <>?s ""); [rewrite lookup_insert_ne by done|]; by rewrite lookup_insert_eq.
  - destruct (username <>?s ""); [by rewrite lookup_insert_eq|]. unfold fresh_header.
    by rewrite !lookup_insert_ne, lookup_singleton_ne by done.
  - exists address. split; [|done]. destruct (username <>?s ""); [rewrite lookup_insert_ne by done|];
      by rewrite lookup_insert_ne, lookup_insert_eq by done.
Qed.

(** An address the daemon has an enabled mailbox or alias for. *)
Definition deliverable s (address : string) : Prop :=
  sv_unavailable s = false
  /\ let a := normalizeAddress (normalizeAddress address) in
     (exists m, mailboxes s 1 !! a = Some m /\ ml_enabled m = true)
     \/ (exists x, aliases s 1 !! a = Some x /\ as_enabled x = true).

Lemma resp_with_db cid d reason f w : w_db (resp_with cid d reason f w).2 = w_db w.
Proof.
  unfold resp_with. pose proof (resp_db cid d reason w) as (_ & _ & H). by destruct (resp cid d reason w).
Qed.

Lemma recipient_ok s cid address w (r0 : Response) w' : PostfixRecipient s cid address w = (r0, w') ->
  w_db w' = w_db w /\ (rp_decision r0 = DecisionOK -> deliverable s address).
Proof.
  intros H.
  assert (forall d reason, resp cid d reason w = (r0, w') -> w_db w' = w_db w /\ (rp_decision r0 = DecisionOK -> d = DecisionOK)) as R.
  { intros d reason E. destruct (resp_db cid d reason w) as (_ & _ & D). rewrite E in D. split; [done|]. by eapply resp_not_ok. }
  unfold PostfixRecipient, PostfixMailbox, PostfixAlias, unavailable_or, deliverable in *.
  destruct (sv_unavailable s); [by apply R in H as [? H]; split; [done|intros ?%H]|].
  destruct (mailboxes s 0 !! _) as [m0|].
  - destruct (mailboxes s 1 !! _) as [m|]; [|by apply R in H as [? H]; split; [done|intros ?%H]].
    destruct (ml_enabled m) eqn:Em; cbn [negb] in H; [|by apply R in H as [? H]; split; [done|intros ?%H]].
    apply R in H as [? _]. split; [done|]. intros _. split; [done|]. left. by exists m.
  - destruct (aliases s 0 !! _) as [x0|]; [|by apply R in H as [? H]; split; [done|intros ?%H]].
    destruct (aliases s 1 !! _) as [x|]; [|by apply R in H as [? H]; split; [done|intros ?%H]].
    destruct (as_enabled x) eqn:Ex; cbn [negb] in H; [|by apply R in H as [? H]; split; [done|intros ?%H]].
    pose proof (resp_with_db cid DecisionOK "alias_expanded" (put rp_targets (copy_slice (as_targets x))) w) as D.
    rewrite H in D. split; [done|]. intros _. split; [done|]. right. by exists x.
Qed.

Lemma newCorrelationID_db w : w_db (newCorrelationID w).2 = w_db w.
Proof.
  unfold newCorrelationID. destruct (entropyM_run w) as (b & w' & E & D & _). rewrite E. by destruct b.
Qed.

(** A recipient, or credentials, the front lets through. *)
Record recipient_passed s r (rp : Reply) (d d' : DB) : Prop := {
  rc_method : boundedHeader r "Auth-Method" = Some "none";
  rc_recipient : exists to address, boundedHeader r "Auth-SMTP-To" = Some to /\ smtpRecipient to = Some address
    /\ deliverable s address;
  rc_backend : forwarded "postfix" "25" "" rp;
  rc_db : d' = d;
}.

Record credentials_passed s r (protocol : string) (rp : Reply) (d d' : DB) : Prop := {
  cd_method : boundedHeader r "Auth-Method" = Some "plain" \/ boundedHeader r "Auth-Method" = Some "login";
  cd_user : exists user secret m verifiers method, credentials r = Some (user, secret)
    /\ forwarded (if protocol =?s "smtp" then "postfix" else "dovecot") (if protocol =?s "smtp" then "25" else "143")
         user rp
    /\ sv_unavailable s = false /\ oidc_secret secret = false
    /\ mailboxAuth s (normalizeAddress user) = Some (m, verifiers) /\ ml_enabled m = true
    /\ authenticates m verifiers secret method
    /\ (if sv_audit s
        then exists ev, d' = with_audit (fun l => l ++ [ev]) d /\ ev_action ev = passdbAuditAction method
               /\ resource_id (ev_resource ev) = normalizeAddress user
        else d' = d)
    /\ forall st, consistent st -> is_daemon st = Some s -> is_Some (is_mailboxes st !! normalizeAddress user) ->
         VerifyDovecot st (normalizeAddress user) secret = true;
}.

Lemma serve_recipient_ok s token h r cid w rp w' : New s token = Ok h ->
  boundedHeader r "Auth-Method" = Some "none" ->
  serve_recipient h r cid w = (rp, w') -> says_ok rp -> recipient_passed s r rp (w_db w) (w_db w').
Proof.
  intros Hn Hm H Hs. unfold serve_recipient in H.
  destruct (boundedHeader r "Auth-SMTP-To") as [to|] eqn:Eto; cbn [mbind option_bind] in H.
  2: { injection H as <- <-. by destruct (reject_says fresh_header "invalid recipient" "501 5.1.3"). }
  destruct (smtpRecipient to) as [address|] eqn:Ea.
  2: { injection H as <- <-. by destruct (reject_says fresh_header "invalid recipient" "501 5.1.3"). }
  assert (hd_service h = s /\ hd_postfix_server h = "postfix" /\ hd_postfix_port h = "25") as (Es & Ep & Eq).
  { unfold New in Hn. destruct (validToken token); [|done]. by injection Hn as <-. }
  rewrite Es, Ep, Eq in H. destruct (PostfixRecipient s cid address w) as [r0 w1] eqn:E.
  apply recipient_ok in E as [D Hd]. destruct (rp_decision r0 <>?s DecisionOK) eqn:Ed.
  { injection H as <- <-. by destruct (rejectRecipient_says _ Hs). }
  to_prop. apply (accept_ok _ _ _ _ _ _ _ _ _ Hn) in H as [F D2]; [|done].
  split; [done| |done|congruence]. exists to, address. split_and!; [done..|]. by apply Hd.
Qed.

Lemma serve_credentials_ok s token h r protocol cid w rp w' : New s token = Ok h ->
  boundedHeader r "Auth-Method" = Some "plain" \/ boundedHeader r "Auth-Method" = Some "login" ->
  serve_credentials h r protocol cid w = (rp, w') -> says_ok rp ->
  credentials_passed s r protocol rp (w_db w) (w_db w').
Proof.
  intros Hn Hm H Hs. split; [done|]. unfold serve_credentials in H.
  destruct (credentials r) as [[user secret]|].
  2: { injection H as <- <-. by destruct (reject_says fresh_header "invalid credentials" "535 5.7.8"). }
  assert (hd_service h = s /\ hd_postfix_server h = "postfix" /\ hd_postfix_port h = "25"
          /\ hd_dovecot_server h = "dovecot" /\ hd_dovecot_port h = "143") as (Es & Ep & Eq & Er & Et).
  { unfold New in Hn. destruct (validToken token); [|done]. by injection Hn as <-. }
  rewrite Es, Ep, Eq, Er, Et in H. cbv zeta in H.
  set (req := {| pd_username := user; pd_secret := secret; pd_protocol := _ |}) in H.
  destruct (DovecotPassdb s cid req w) as [r0 w1] eqn:E. destruct (rp_decision r0 <>?s DecisionOK) eqn:Ed.
  { injection H as <- <-. by destruct (rejectAuth_says _ Hs). }
  to_prop. pose proof (passdb_sound _ _ _ _ _ _ E Ed) as (Hu & _ & Ho & m & vs & method & Hmb & Hen & Ha & Haudit).
  assert (forwarded (if protocol =?s "smtp" then "postfix" else "dovecot")
            (if protocol =?s "smtp" then "25" else "143") user rp /\ w_db w' = w_db w1) as [F D].
  { destruct (protocol =?s "smtp"); by apply (accept_ok _ _ _ _ _ _ _ _ _ Hn) in H. }
  exists user, secret, m, vs, method. split_and!; [done..| |].
  - rewrite D. destruct (sv_audit s); [|done]. destruct Haudit as (ev & Hev & Hact & _ & _ & Hres).
    exists ev. split_and!; [done..|]. by rewrite Hres.
  - intros st C Hst Hk. pose proof (passdb_agrees st s cid req w C Hst Hk) as [V1 V2].
    rewrite E in V1, V2. cbn [fst] in V1, V2. apply V1 in V2; [|done]. by destruct V2 as (_ & _ & _ & ?).
Qed.

(** C28: NGINX is told to forward a connection only for a GET request with the
    service token (up to SHA-256 collisions), to one of the two fixed backends
    at a private address the resolver gave; without credentials only for SMTP
    and a recipient the daemon has an enabled mailbox or alias for; with them
    only as an enabled mailbox whose secret the daemon found right and audited
    so, which the identity service the daemon is bound to accepts too. *)
Theorem ServeHTTP_guarded s token h r w rp w' :
  New s token = Ok h -> ServeHTTP h r w = (rp, w') -> says_ok rp ->
  fr_method r = MethodGet /\ validToken (header_get r serviceTokenHeader) = true
  /\ authn.Sum256 (header_get r serviceTokenHeader) = authn.Sum256 token
  /\ exists protocol, boundedHeader r "Auth-Protocol" = Some protocol
     /\ (protocol = "smtp" /\ recipient_passed s r rp (w_db w) (w_db w')
         \/ (protocol = "imap" \/ protocol = "smtp") /\ credentials_passed s r protocol rp (w_db w) (w_db w')).
Proof.
  intros Hn H Hs. unfold ServeHTTP in H. destruct (_ || _) eqn:Eg.
  { injection H as <- <-. by destruct (failure_says _ _ Hs). }
  apply orb_false_iff in Eg as [Eg Et]. apply negb_false_iff, andb_true_iff in Et as [Ev Et]. to_prop.
  assert (hd_token_digest h = authn.Sum256 token) as Eh.
  { unfold New in Hn. destruct (validToken token); [|done]. by injection Hn as <-. }
  rewrite Eh in Et. split_and!; [done..|].
  destruct (boundedHeader r "Auth-Protocol") as [protocol|].
  2: { injection H as <- <-. by destruct (failure_says _ _ Hs). }
  destruct (boundedHeader r "Auth-Method") as [method|] eqn:Em.
  2: { injection H as <- <-. by destruct (failure_says _ _ Hs). }
  exists protocol. split; [done|]. pose proof (newCorrelationID_db w) as D.
  destruct (newCorrelationID w) as [cid w1]. cbn [snd] in D. rewrite <- D.
  destruct ((protocol =?s "smtp") && _) eqn:E1.
  { apply andb_true_iff in E1 as [? ?]. to_prop. subst. left. split; [done|]. by eapply serve_recipient_ok. }
  destruct ((_ || _) && _) eqn:E2.
  { apply andb_true_iff in E2 as [E3 E4]. right. split; [apply orb_true_iff in E3 as [?|?]; to_prop; auto|].
    eapply serve_credentials_ok; [done| |done..]. rewrite Em. apply orb_true_iff in E4 as [?|?]; to_prop; subst; auto. }
  injection H as <- <-. by destruct (reject_says fresh_header "unsupported authentication" "535 5.7.8").
Qed.
End FrontAuthFacts.
