(* ===== verification/AdminApi.v ===== *)
(** * Administration requests (internal/api/outbound_policy.go, notification_approvals.go)

    The JSON routes an API token administers with: preview and confirmed change
    of a domain's outbound policy, and approval requests for the mail queue.
    The identity service is read once, for the token; the handlers run over
    the administration service of Admin.v and the approval service of
    Executor.v.  A handler that panics closes its connection ([aborted]). *)

From stdpp Require Import base list gmap sets strings.
From Stdlib Require Import ZArith Lia Ascii.
From S2P Require Import Prelude GoStd Json JsonText JsonStruct Sha256 Policy Queue AuditLog Database QueueStore Sources Admission HoldMachine Reconcile Postfix Http Helper Decision Admin Activation Verifier Lookup Tokens Authz NotifyText Approval Executor Identity IdentitySafety.
Import authz identity.
#[local] Existing Instances M_ret M_bind.

Module admin_api.

Definition maxOutboundPolicyAdminRequestBytes : Z := 16 * 2 ^ 10.
Definition StatusAccepted : Z := 202.
Definition StatusForbidden : Z := 403.
Definition StatusServiceUnavailable : Z := 503.
Definition aborted : HttpResponse := {| rs_status := 0; rs_body := ""; rs_broken := true |}.

Record outboundPolicyAdminRequest := { pa_domain : string; pa_scope : string; pa_confirmation : string }.
#[export] Instance admin_request_eta : Eta outboundPolicyAdminRequest := fun r =>
  {| pa_domain := pa_domain r; pa_scope := pa_scope r; pa_confirmation := pa_confirmation r |}.
Definition admin_request_fields : struct_type outboundPolicyAdminRequest :=
  [("domain", member pa_domain store_string); ("scope", member pa_scope store_string);
   ("confirmation", member pa_confirmation store_string)].

Record queueApprovalInput := { qi_external_actor_id : string; qi_queue : string }.
#[export] Instance approval_input_eta : Eta queueApprovalInput := fun r =>
  {| qi_external_actor_id := qi_external_actor_id r; qi_queue := qi_queue r |}.
Definition approval_input_fields : struct_type queueApprovalInput :=
  [("external_actor_id", member qi_external_actor_id store_string); ("queue_id", member qi_queue store_string)].

(** ** The JSON of the answers *)

Definition impact_json (i : Impact) : jval :=
  VObj [("aliases", int_json (im_aliases i)); ("external_targets", int_json (im_external_targets i));
        ("queued_recipients", int_json (im_queued_recipients i))].
Definition plan_json (p : ChangePlan) : jval :=
  VObj [("digest", VStr (cp_digest p)); ("domain_id", VStr (cp_domain_id p)); ("domain", VStr (cp_domain p));
        ("current_scope", VStr (cp_current_scope p)); ("requested_scope", VStr (cp_requested_scope p));
        ("revision", uint_json (cp_revision p)); ("impact", impact_json (cp_impact p))].
Definition reconciliation_json (s : ActivationReconciliation) : jval :=
  VObj [("selected", json_int (ar_selected s)); ("held", json_int (ar_held s));
        ("already_held", json_int (ar_already_held s)); ("no_longer_blocked", json_int (ar_no_longer_blocked s));
        ("failed", json_int (ar_failed s))].
Definition result_json (r : ChangeResult) : jval :=
  VObj ([("plan", plan_json (cr_plan r)); ("changed", VBool (cr_changed r))]
        ++ match cr_reconciliation r with Some s => [("reconciliation", reconciliation_json s)] | None => [] end).
(** The keys of a map are printed in order. *)
Definition approval_json (created : ApprovalRequest) : jval :=
  VObj [("action", VStr (rq_action created)); ("approval_id", VStr (rq_id created));
        ("resource", VObj [("Type", VStr (r_type (rq_resource created))); ("ID", VStr (r_id (rq_resource created)))]);
        ("status", VStr "pending")].

(** [http.MaxBytesReader] and a strict decoder that expects the end of the
    body after one value. *)
Definition decode_bounded {A} (limit : Z) (fields : struct_type A) (zero : A) (rq : HttpRequest) : option A :=
  if (limit <? Z.of_nat (len (rq_body rq)))%Z then None else strict_json fields zero (rq_body rq).

Definition correlation_byte (c : ascii) : bool :=
  in_range 97 122 c || in_range 65 90 c || in_range 48 57 c || Contains "._:@/-" (String c "").
Definition safeCorrelationID (value0 : string) : string :=
  let value := TrimSpace value0 in
  if (value =?s "") || (128 <? len value) then "" else
  if forall_bytes correlation_byte value then value else "".

Section Api.
Context `{HOST : !Host} `{ORDER : !MapOrder} `{KDF : !Pbkdf2}.
Variables (ids : Service) (authorizer : StaticAuthorizer).

Definition decodeOutboundPolicyAdmin (rq : HttpRequest) : option outboundPolicyAdminRequest :=
  match decode_bounded maxOutboundPolicyAdminRequestBytes admin_request_fields
          {| pa_domain := ""; pa_scope := ""; pa_confirmation := "" |} rq with
  | None => None
  | Some out =>
      match NormalizeDomain (pa_domain out) with
      | Ok domain => Some (put pa_domain domain out)
      | Err _ => None
      end
  end.

Definition bad_policy_request : HttpResponse := http_error "bad outbound policy request" StatusBadRequest.

(** A refusal, or the actor of the token. *)
Definition requireDomainAdmin (rq : HttpRequest) (domain : string) : HttpResponse + ActorRef :=
  match AuthenticateBearer ids (rq_authorization rq) "api_token" with
  | Err _ => inl (http_error "admin bearer token required" StatusUnauthorized)
  | Ok actor =>
      match Decide authorizer actor "domain:admin" {| r_type := "domain"; r_id := domain |} with
      | None => inl aborted
      | Some decision =>
          if d_allow decision then inr {| actor_type := a_type actor; actor_id := a_id actor |}
          else inl (http_error "domain authorization required" StatusForbidden)
      end
  end.

Section Policy.
Context {PS : Type} `{BOUND : !QueueBoundary PS}.
(** The hold actor of the policy service, when it is there. *)
Variable services : option ActorRef.

(** [if !method || !decode || !requireDomainAdmin { return }] *)
Definition domain_admin (rq : HttpRequest)
    (serve : ActorRef -> outboundPolicyAdminRequest -> M PS HttpResponse) : M PS HttpResponse :=
  if rq_method rq <>?s MethodPost then mret (reply StatusMethodNotAllowed "") else
  match decodeOutboundPolicyAdmin rq with
  | None => mret bad_policy_request
  | Some request =>
      match requireDomainAdmin rq (pa_domain request) with
      | inl refusal => mret refusal
      | inr actor => serve actor request
      end
  end.

Definition preview_route (rq : HttpRequest) : M PS HttpResponse :=
  domain_admin rq (fun _ request =>
    plan ← tryM (PreviewChange (pa_domain request) (pa_scope request));
    mret match plan with
         | Ok plan => reply StatusOK (encode_line (plan_json plan))
         | Err _ => http_error "outbound policy preview failed" StatusBadRequest
         end).

Definition apply_route (rq : HttpRequest) : M PS HttpResponse :=
  domain_admin rq (fun actor request =>
    result ← tryM (ActivationApply services actor (rq_correlation rq) (pa_domain request) (pa_scope request)
                     (pa_confirmation request));
    mret match result with
         | Err _ => http_error "outbound policy apply failed" StatusBadRequest
         | Ok result =>
             let failed := match cr_reconciliation result with Some s => 0 <? ar_failed s | None => false end in
             reply (if failed then StatusAccepted else StatusOK) (encode_line (result_json result))
         end).

Definition registerOutboundPolicyAdmin (path : string) : option (HttpRequest -> M PS HttpResponse) :=
  if path =?s "/api/v1/domains/outbound-policy/preview" then Some preview_route
  else if path =?s "/api/v1/domains/outbound-policy/apply" then Some apply_route
  else None.
End Policy.

Section Approvals.
Context {PS : Type} `{OPERATOR : !QueueOperator PS} `{SENDER : !PromptSender PS}.
(** Whether the approval service is there. *)
Variable available : bool.

Definition approval_resource (action : Action) (queueID : string) : Resource :=
  {| r_type := "postfix_queue"; r_id := if action =?s "queue:retry" then queueID else "default" |}.

Definition approval_request (action : Action) (input : queueApprovalInput) (initiator : Actor) (correlationID : string)
    (now : Z) : TelegramApprovalRequest :=
  let resource := approval_resource action (qi_queue input) in
  {| tr_transport_actor := {| ta_transport := "telegram"; ta_external_id := qi_external_actor_id input |};
     tr_initiator := initiator; tr_action := action; tr_resource := resource; tr_correlation_id := correlationID;
     tr_expires_at := (now + 5 * 60 * 10 ^ 9)%Z;
     tr_title := if action =?s "queue:retry" then "Approve queue retry" else "Approve queue flush";
     tr_summary := if action =?s "queue:retry" then "Schedule immediate delivery of queue message " +:+ r_id resource
                   else "Schedule immediate delivery of all queued mail" |}.

Definition invalid_approval : HttpResponse := http_error "invalid approval request" StatusBadRequest.

Definition trim_input (input : queueApprovalInput) : queueApprovalInput :=
  {| qi_external_actor_id := TrimSpace (qi_external_actor_id input); qi_queue := TrimSpace (qi_queue input) |}.

Definition complete_input (action : Action) (input : queueApprovalInput) (correlationID : string) : bool :=
  negb ((qi_external_actor_id input =?s "") || (128 <? len (qi_external_actor_id input))
        || (r_id (approval_resource action (qi_queue input)) =?s "") || (correlationID =?s "")).

Definition approval_route (action : Action) (rq : HttpRequest) : M PS HttpResponse :=
  if rq_method rq <>?s MethodPost then mret (reply StatusMethodNotAllowed "") else
  if negb available then mret (http_error "notification approval unavailable" StatusServiceUnavailable) else
  match AuthenticateBearer ids (rq_authorization rq) "api_token" with
  | Err _ => mret (http_error "admin bearer token required" StatusUnauthorized)
  | Ok initiator =>
      match decode_bounded (8 * 2 ^ 10) approval_input_fields {| qi_external_actor_id := ""; qi_queue := "" |} rq with
      | None => mret invalid_approval
      | Some raw =>
          let input := trim_input raw in
          let correlationID := safeCorrelationID (rq_correlation rq) in
          if negb (complete_input action input correlationID)
          then mret (http_error "complete approval request required" StatusBadRequest) else
          match Decide authorizer initiator "notification:approval.create" (approval_resource action (qi_queue input)) with
          | None => mret aborted
          | Some decision =>
              if negb (d_allow decision)
              then mret (http_error "notification approval authorization required" StatusForbidden) else
              now ← nowM;
              created ← tryM (RequestTelegramApproval authorizer (approval_request action input initiator correlationID now));
              mret match created with
                   | Err _ => http_error "approval request rejected" StatusBadRequest
                   | Ok created => reply StatusAccepted (encode_line (approval_json created))
                   end
          end
      end
  end.

Definition registerNotificationApprovals (path : string) : option (HttpRequest -> M PS HttpResponse) :=
  if path =?s "/api/v1/queue/flush" then Some (approval_route "queue:flush")
  else if path =?s "/api/v1/queue/retry" then Some (approval_route "queue:retry")
  else None.
End Approvals.
End Api.
End admin_api.

Import admin_api.

(** ** What the routes let through *)

Section Guards.
Context `{HOST : !Host} `{ORDER : !MapOrder} `{LAWS : !MapOrderLaws} `{KDF : !Pbkdf2}.
Variables (ids : Service) (authorizer : StaticAuthorizer).

(** The request carries the secret of this live API token, whose scopes
    include [act], for every resource or for [resource]. *)
Definition token_may (rq : HttpRequest) (tok : Token) (act resource : string) : Prop :=
  (exists id secret, is_tokens ids !! id = Some tok /\ rq_authorization rq = "Bearer " +:+ secret
     /\ VerifyDjangoPBKDF2SHA256 (to_verifier tok) (TrimSpace secret) = Ok tt)
  /\ to_revoked tok = false /\ to_kind tok = "api"
  /\ exists scope, scope ∈ to_scopes tok
       /\ scope ∈ [act; act +:+ ":" +:+ ToLower resource; "mailbox:" +:+ ToLower resource +:+ ":" +:+ act].

Lemma bearer_may rq actor act r d :
  AuthenticateBearer ids (rq_authorization rq) "api_token" = Ok actor ->
  Decide authorizer actor act r = Some d -> d_allow d = true ->
  exists tok, token_may rq tok act (r_id r) /\ a_type actor = "api_token" /\ a_id actor = to_id tok.
Proof.
  intros Ha Hd Hal. pose proof (AuthenticateBearer_exact ids (rq_authorization rq) "api_token") as Hx. rewrite Ha in Hx.
  destruct Hx as (id & tok & secret & Ht & Hh & Hr & Hk & Hv & ->). exists tok.
  apply Decide_permitted in Hd; [|done]. inversion Hd as [ty|ty|sc ty Hs Hin|ty|ty|ty|ty|ty|ty|ty|ty]; try done.
  split; [|done]. split; [by exists id, secret|]. split_and!; [done|done|]. by exists sc.
Qed.

Lemma requireDomainAdmin_ok rq domain actor : requireDomainAdmin ids authorizer rq domain = inr actor ->
  exists tok, token_may rq tok "domain:admin" domain
    /\ actor = {| actor_type := "api_token"; actor_id := to_id tok |}.
Proof.
  unfold requireDomainAdmin. destruct (AuthenticateBearer _ _ _) as [a|] eqn:Ea; [|done].
  destruct (Decide _ _ _ _) as [d|] eqn:Ed; [|done]. destruct (d_allow d) eqn:El; [|done]. intros [= <-].
  destruct (bearer_may _ _ _ _ _ Ea Ed El) as (tok & Ht & -> & ->). by exists tok.
Qed.

Section PolicyGuard.
Context {PS : Type} `{BOUND : !QueueBoundary PS} `{IDNA : !IdnaLaws}.

Lemma activate_queues_history holdActor actor cid l s :
  effect (PS := PS) history (activate_queues holdActor actor cid l s).
Proof.
  revert s. induction l as [|q l IH]; intros s; cbn [activate_queues]; [apply effect_ret; apply _|].
  apply (effect_bind history); [apply activate_queue_moves|]. intros e. apply IH.
Qed.

Lemma keeps_ApplyChange actor cid raw requested confirmation :
  keeps_ext (PS := PS) (ApplyChange actor cid raw requested confirmation).
Proof.
  unfold ApplyChange, apply_body, loadChangePlan, loadAliasImpact, loadQueuedRecipientImpact. solve_keeps.
Qed.

(** Whatever [ActivationApply] returns, it changed nothing, or the
    confirmation was the digest of the plan of the rows it saw, and what
    changed is that plan's scope and holds. *)
Lemma ActivationApply_effect services actor cid raw requested confirmation (w : World PS) r w' :
  ActivationApply services actor cid raw requested confirmation w = (r, w') ->
  (w_db w' = w_db w /\ w_ext w' = w_ext w)
  \/ exists plan d, plan_pure raw requested (w_db w) = Ok plan
       /\ equalPlanDigest (cp_digest plan) confirmation = true
       /\ (d = w_db w \/ scope_changed actor cid plan (w_db w) d) /\ history d (w_db w').
Proof.
  unfold ActivationApply. rewrite bind_run. intros H.
  pose proof (keeps_ApplyChange actor cid raw requested confirmation w) as Hx.
  destruct (ApplyChange actor cid raw requested confirmation w) as [[res|e] w1] eqn:Ea; simpl in Hx;
    apply ApplyChange_ok in Ea as [Hany Hok].
  2: { injection H as <- <-. destruct Hany as [?|(plan & Hp & He & Hs)]; [by left|].
       right. exists plan, (w_db w1). split_and!; [done|done|by right|reflexivity]. }
  destruct (Hok res eq_refl) as (Hp & He & Hs). right. exists (cr_plan res), (w_db w1). split_and!; [done..| |].
  { destruct (cr_changed res); [by right|]. left. apply Hs. }
  change w' with (r, w').2. rewrite <- H. clear H. destruct (negb _); [reflexivity|]. cbv zeta.
  destruct (_ =? _); [reflexivity|]. destruct services as [h|]; [|reflexivity].
  apply (effect_bind history); [apply activate_queues_history|]. intros s. apply effect_ret. apply _.
Qed.

Lemma PreviewChange_changes_nothing raw requested (w : World PS) :
  w_db (PreviewChange raw requested w).2 = w_db w /\ w_ext (PreviewChange raw requested w).2 = w_ext w.
Proof.
  split.
  - symmetry. enough (effect (PS := PS) eq (PreviewChange raw requested)) as H by apply H.
    unfold PreviewChange, loadChangePlan, loadAliasImpact, loadQueuedRecipientImpact. solve_effect.
  - enough (keeps_ext (PS := PS) (PreviewChange raw requested)) as H by apply H.
    unfold PreviewChange, loadChangePlan, loadAliasImpact, loadQueuedRecipientImpact. solve_keeps.
Qed.

Lemma decoded_canonical rq request : decodeOutboundPolicyAdmin rq = Some request ->
  NormalizeDomain (pa_domain request) = Ok (pa_domain request).
Proof.
  unfold decodeOutboundPolicyAdmin. destruct (decode_bounded _ _ _ _) as [out|]; [|done].
  destruct (NormalizeDomain (pa_domain out)) as [dom|] eqn:En; [|done]. intros [= <-]. cbn.
  by eapply NormalizeDomain_idem.
Qed.

(** C30: the policy routes change nothing but for a POST to the apply route
    whose bounded body is exactly one request, with the secret of a live API
    token that holds domain:admin for the domain of that request, confirming
    the digest of the plan of the rows it saw; then the change is the scope of
    that very domain, with an event in the token's name, followed by hold
    transitions only.  This holds under every schedule of failures, and when
    the reply reports one. *)
Theorem outbound_policy_admin_guarded services path route rq (w : World PS) r w' :
  registerOutboundPolicyAdmin ids authorizer services path = Some route -> route rq w = (r, w') ->
  (w_db w' = w_db w /\ w_ext w' = w_ext w)
  \/ exists tok request plan d,
       path = "/api/v1/domains/outbound-policy/apply" /\ rq_method rq = MethodPost
       /\ decodeOutboundPolicyAdmin rq = Some request /\ cp_domain plan = pa_domain request
       /\ token_may rq tok "domain:admin" (pa_domain request)
       /\ plan_pure (pa_domain request) (pa_scope request) (w_db w) = Ok plan
       /\ equalPlanDigest (cp_digest plan) (pa_confirmation request) = true
       /\ (d = w_db w
           \/ scope_changed {| actor_type := "api_token"; actor_id := to_id tok |} (rq_correlation rq) plan (w_db w) d)
       /\ history d (w_db w').
Proof.
  unfold registerOutboundPolicyAdmin. destruct (path =?s _) eqn:E1; [|destruct (path =?s "/api/v1/domains/outbound-policy/apply") eqn:E2; [|done]];
    intros [= <-] H; unfold preview_route, apply_route, domain_admin in H;
    (destruct (_ <>?s _) eqn:Em in H; [injection H as _ <-; by left|]);
    (destruct (decodeOutboundPolicyAdmin rq) as [request|] eqn:Ed; [|injection H as _ <-; by left]);
    (destruct (requireDomainAdmin _ _ _ _) as [refusal|actor] eqn:Er; [injection H as _ <-; by left|]);
    rewrite bind_run in H; unfold tryM in H.
  - pose proof (PreviewChange_changes_nothing (pa_domain request) (pa_scope request) w) as Hp.
    destruct (PreviewChange _ _ w) as [r0 w0]. injection H as _ <-. by left.
  - destruct (ActivationApply _ _ _ _ _ _ w) as [r0 w0] eqn:Ea. injection H as _ <-.
    apply ActivationApply_effect in Ea as [?|(plan & d & Hp & He & Hs & Hh)]; [by left|]. right.
    apply requireDomainAdmin_ok in Er as (tok & Ht & ->). to_prop. exists tok, request, plan, d.
    split_and!; try done. apply decoded_canonical in Ed. apply plan_pure_fields in Hp as (? & _ & _ & Hn & _). congruence.
Qed.
End PolicyGuard.

Section ApprovalGuard.
Context {PS : Type} `{OPERATOR : !QueueOperator PS} `{READS : !SnapshotReads OPERATOR} `{SENDER : !PromptSender PS}.

Lemma approval_action path available (route : HttpRequest -> M PS HttpResponse) :
  registerNotificationApprovals ids authorizer available path = Some route ->
  exists action, (path, action) ∈ [("/api/v1/queue/flush", "queue:flush"); ("/api/v1/queue/retry", "queue:retry")]
    /\ route = approval_route ids authorizer available action.
Proof.
  unfold registerNotificationApprovals. destruct (path =?s _) eqn:E1.
  - to_prop. subst. intros [= <-]. exists "queue:flush". split; [left|done].
  - destruct (path =?s "/api/v1/queue/retry") eqn:E2; [|done]. to_prop. subst. intros [= <-]. exists "queue:retry".
    split; [right; left|done].
Qed.

#[local] Ltac refused H := injection H as <- <-; left; split_and!; [done..|by intros ? [= <-]].

End ApprovalGuard.
End Guards.
