(* ===== verification/HoldTrail.v ===== *)
(** * The audit trail explains the state of every message

    HoldMachine.v says what a transition of the hold machine is. Here the calls
    of the outbound services themselves are put in a row, whatever fails in
    them: registrations and admissions, decisions, required holds,
    reconciliations, previews and releases, and changes of a policy scope with
    their holds.  The events such a run appends to the audit log replay to the
    hold state of every message it found or registered. *)

From stdpp Require Import base list gmap sets strings relations.
From Stdlib Require Import ZArith Lia.
From S2P Require Import Prelude GoStd Policy Queue AuditLog Database QueueStore Sources Admission HoldMachine Reconcile Release Decision Admin Activation Tokens Authz Identity AdminApi.

(** ** Paths of the hold machine *)

(** The actions, in their order, are ones the machine allows from the state. *)
Fixpoint walk (state : string) (l : list hold_action) : Prop :=
  match l with
  | [] => True
  | a :: l => state ∈ action_from a /\ walk (action_target a) l
  end.

Lemma walk_app st l k : walk st (l ++ k) <-> walk st l /\ walk (replay st l) k.
Proof. revert st. induction l as [|a l IH]; intros st; cbn; [naive_solver|]. rewrite IH. naive_solver. Qed.

(** A path from a state before any hold to one after it goes through the
    verified hold. *)
Lemma walk_held l : forall st, walk st l -> st ∉ past_hold -> replay st l ∈ past_hold -> AApplied ∈ l.
Proof.
  induction l as [|a l IH]; intros st; cbn; [by intros _ ? ?|]. intros [Hf Hl] Hn Hr.
  destruct (decide (action_target a ∈ past_hold)) as [Ht|Ht]; [|right; by eapply IH].
  destruct (into_past_hold a st Hf Ht) as [E|]; [|done]. destruct a; try done. by left.
Qed.

(** ** What a run leaves behind *)

(** The events replay: each message of [d] keeps its arrival identity,
    recipients and sources, and its state and attempts are those the events
    about it lead to; a new message started as pending; and no event of the
    hold machine is about a message that is not there. *)
Record replays d d' (evs : list Event) : Prop := {
  rp_audit : db_audit d' = db_audit d ++ evs;
  rp_kept : forall q row, db_queues d !! q = Some row -> exists row', db_queues d' !! q = Some row'
    /\ walk (qw_hold_state row) (trail q evs)
    /\ qw_hold_state row' = replay (qw_hold_state row) (trail q evs)
    /\ qw_attempts row' = (qw_attempts row + attempts_of (trail q evs))%Z
    /\ identity_columns row' = identity_columns row
    /\ db_recipients d' !! q = db_recipients d !! q /\ db_sources d' !! q = db_sources d !! q;
  rp_new : forall q row', db_queues d !! q = None -> db_queues d' !! q = Some row' ->
    walk HoldPending (trail q evs) /\ qw_hold_state row' = replay HoldPending (trail q evs)
    /\ qw_attempts row' = attempts_of (trail q evs);
  rp_absent : forall q, db_queues d' !! q = None -> trail q evs = [];
}.

Lemma attempts_app l k : attempts_of (l ++ k) = (attempts_of l + attempts_of k)%Z.
Proof. unfold attempts_of. rewrite filter_app, length_app. lia. Qed.

Lemma replay_app st l k : replay st (l ++ k) = replay (replay st l) k.
Proof. unfold replay. by rewrite foldl_app. Qed.

Lemma replays_app d1 d2 d3 evs1 evs2 : replays d1 d2 evs1 -> replays d2 d3 evs2 -> replays d1 d3 (evs1 ++ evs2).
Proof.
  intros [A1 K1 N1 E1] [A2 K2 N2 E2]. split.
  - by rewrite A2, A1, app_assoc.
  - intros q row (r & H1 & W1 & S1 & T1 & I1 & P1 & Q1)%K1. destruct (K2 _ _ H1) as (r' & H2 & W2 & S2 & T2 & I2 & P2 & Q2).
    exists r'. rewrite trail_app, walk_app, replay_app, attempts_app. rewrite S1 in W2, S2.
    split_and!; try done; [|congruence..]. rewrite T2, T1. lia.
  - intros q row' Hq H. rewrite trail_app, walk_app, replay_app, attempts_app.
    destruct (db_queues d2 !! q) as [r|] eqn:Er.
    + destruct (N1 _ _ Hq Er) as (W1 & S1 & T1). destruct (K2 _ _ Er) as (r' & H2 & W2 & S2 & T2 & _).
      assert (r' = row') as -> by congruence. rewrite S1 in W2, S2. split_and!; [done..|]. by rewrite T2, T1.
    + rewrite (E1 _ Er). destruct (N2 _ _ Er H) as (? & ? & ?). by split_and!.
  - intros q Hq. rewrite trail_app, (E2 _ Hq), app_nil_r. apply E1.
    destruct (db_queues d2 !! q) as [r|] eqn:Er; [|done]. destruct (K2 _ _ Er) as (r' & H2 & _). congruence.
Qed.

(** Events that are not about a queued message. *)
Definition quiet (ev : Event) : Prop := resource_type (ev_resource ev) <> "postfix_queue".

Lemma quiet_trail q ev : quiet ev -> trail q [ev] = [].
Proof. intros H. unfold trail, about_queue. cbn. apply eqs_false in H. by rewrite H. Qed.

(** The tables of the queued messages. *)
Definition same_messages d d' : Prop := db_queues d' = db_queues d
  /\ db_recipients d' = db_recipients d /\ db_sources d' = db_sources d.

Lemma replays_same d d' evs : same_messages d d' -> db_audit d' = db_audit d ++ evs ->
  (forall q, trail q evs = []) -> replays d d' evs.
Proof.
  intros (Eq & Er & Es) A T. split; [done| | |].
  - intros q row H. exists row. rewrite Eq, Er, Es, T. unfold attempts_of. cbn. split_and!; try done. lia.
  - intros q row'. rewrite Eq. congruence.
  - intros q _. apply T.
Qed.

Definition replayed : relation DB := fun d d' => exists evs, replays d d' evs.

#[export] Instance replayed_preorder : PreOrder replayed.
Proof.
  split.
  - intros d. exists []. apply replays_same; [done|by rewrite app_nil_r|done].
  - intros d1 d2 d3 [evs1 H1] [evs2 H2]. exists (evs1 ++ evs2). by eapply replays_app.
Qed.

Lemma transition_replayed d d' : transition d d' -> replayed d d'.
Proof.
  intros [q a row row' ev Hrow [Hf Ht Hi Hn _ _ _] Ha Hr ->]. exists [ev]. split; [done| | |].
  - intros k r Hk. rewrite (trail_event k q a ev Ha Hr). cbn. case_decide as Hkq.
    + subst k. rewrite Hrow in Hk. injection Hk as <-. exists row'. rewrite lookup_insert_eq, Hn.
      unfold attempts_of. split_and!; try done; by destruct a.
    + exists r. rewrite lookup_insert_ne by done. unfold attempts_of. cbn. split_and!; try done. lia.
  - intros k r Hk. cbn. rewrite lookup_insert. case_decide; congruence.
  - intros k Hk. rewrite (trail_event k q a ev Ha Hr). rewrite decide_False; [done|]. intros ->.
    cbn in Hk. by rewrite lookup_insert_eq in Hk.
Qed.

Lemma history_replayed d d' : history d d' -> replayed d d'.
Proof. induction 1 as [d|d1 d2 d3 H _ IH]; [done|]. etrans; [by apply transition_replayed|done]. Qed.

Lemma quiet_replayed d d' ev : same_messages d d' -> db_audit d' = db_audit d ++ [ev] -> quiet ev -> replayed d d'.
Proof. intros Hs Ha Hq. exists [ev]. apply replays_same; [done..|]. intros q. by apply quiet_trail. Qed.

Lemma untouched_replayed d d' : same_messages d d' -> db_audit d' = db_audit d -> replayed d d'.
Proof. intros Hs Ha. exists []. apply replays_same; [done|by rewrite app_nil_r|done]. Qed.

(** ** The services *)

Section Services.
Context `{HOST : !Host} {PS : Type}.
Implicit Types (w : World PS) (d : DB).

Lemma history_effect {A} (m : M PS A) : effect history m -> effect replayed m.
Proof. intros H w. apply history_replayed, H. Qed.

Lemma quiet_WriteSQL e : quiet e -> effect (PS := PS) replayed (WriteSQL e).
Proof.
  intros Hq. unfold WriteSQL. solve_effect. apply (effect_exec replayed). unfold insert_audit. intros d u d' H.
  destruct (existsb _ _); [done|]. injection H as <- <-. by eapply quiet_replayed.
Qed.

(** A registration commits a new pending message, or nothing. *)
Lemma register_body_replayed record now w1 x w2 :
  register_body (PS := PS) record now w1 = (Ok (true, x), w2) -> replayed (w_db w1) (w_db w2).
Proof.
  unfold register_body. intros H. apply bind_ok in H as (n & u1 & [Hins _]%execM_ok & H).
  apply bind_ok in H as ([] & ? & [_ ->]%guardM_ok & H). apply bind_ok in H as ([] & u2 & Hcopy & H).
  apply bind_ok in H as (q' & u3 & (_ & Hdl & _)%loadQueueRecord_ok & H).
  apply bind_ok in H as ([] & ? & [_ ->]%guardM_ok & H). injection H as _ <-. rewrite Hdl.
  pose proof (insert_queue_only _ _ _ _ _ Hins) as O1. unfold insert_queue in Hins.
  destruct (db_queues (w_db w1) !! qr_queue_id record) eqn:Eq.
  { injection Hins as <- Hins. injection Hcopy as <-. by rewrite Hins. }
  destruct (queue_row_check _); [|done]. injection Hins as <- Hins. cbn [Nat.eqb] in *.
  unfold copyQueueRecipients, copyQueueSources in Hcopy.
  apply bind_ok in Hcopy as ([] & u4 & Hr & [Hs _]%execM_ok).
  apply bind_ok in Hr as (rows & ? & [_ ->]%liftM_ok & [Hr _]%execM_ok).
  pose proof (copy_recipients_only _ _ _ _ _ Hr) as O2. pose proof (copy_sources_only _ _ _ _ _ Hs) as O3.
  apply copy_recipients_queues in Hr. apply copy_sources_queues in Hs.
  assert (only_queue (qr_queue_id record) (w_db w1) (w_db u2)) as [_ _ _ _ Oq Or Os Oa]
    by (etrans; [exact O1|]; by etrans).
  assert (exists row, db_queues (w_db u2) !! qr_queue_id record = Some row /\ qw_hold_state row = HoldPending
    /\ qw_attempts row = 0%Z) as (row & Hrow & Hst & Hat).
  { rewrite Hs, Hr, <- Hins. cbn. rewrite lookup_insert_eq. by eexists. }
  exists []. split.
  - by rewrite Oa, app_nil_r.
  - intros q r Hq. assert (q <> qr_queue_id record) as Hne by congruence. exists r.
    rewrite Oq, Or, Os by done. unfold attempts_of. cbn. split_and!; try done. lia.
  - intros q r Hq Hq'. destruct (decide (q = qr_queue_id record)) as [->|Hne]; [|by rewrite Oq, Hq in Hq'].
    assert (r = row) as -> by congruence. by split_and!.
  - done.
Qed.

Lemma Register_replayed r : effect (PS := PS) replayed (Register r).
Proof.
  unfold Register. apply (effect_bind_lift replayed). intros record _.
  apply (effect_bind replayed); [solve_effect|]. intros now. apply (effect_commit replayed).
  intros w1 x w2. apply register_body_replayed.
Qed.
#[local] Hint Resolve Register_replayed : effects.

Lemma quiet_recordSubmission cid recipient dec : effect (PS := PS) replayed (recordSubmissionDecision cid recipient dec).
Proof.
  unfold recordSubmissionDecision. assert (forall dom, effect (PS := PS) replayed (WriteSQL (submission_event cid dom dec)))
    by (intros dom; by apply quiet_WriteSQL). solve_effect.
Qed.
#[local] Hint Resolve quiet_recordSubmission : effects.

Lemma layers_replayed n aliases seen frontier : effect (PS := PS) replayed (load_layers n aliases seen frontier).
Proof. revert aliases seen frontier. induction n as [|n IH]; intros aliases seen frontier; cbn [load_layers]; solve_effect. Qed.
#[local] Hint Resolve layers_replayed : effects.

Lemma Admit_replayed req : effect (PS := PS) replayed (Admit req).
Proof.
  unfold Admit, resolveExpansionDeliveries, loadExpansionAliases, submissionSources, mailboxObjectByAddress,
    systemSenderAddress. solve_effect.
Qed.

Lemma leaves_replayed cid governing leaves dec : effect (PS := PS) replayed (decide_leaves cid governing leaves dec).
Proof. revert dec. induction leaves as [|leaf leaves IH]; intros dec; cbn [decide_leaves]; solve_effect. Qed.
#[local] Hint Resolve leaves_replayed : effects.

Lemma DecideSMTPRecipient_replayed cid mailbox sender recipient :
  effect (PS := PS) replayed (DecideSMTPRecipient cid mailbox sender recipient).
Proof.
  unfold DecideSMTPRecipient. apply fail_closed_effect.
  unfold submissionSources, mailboxObjectByAddress, systemSenderAddress, expandOriginal, loadExpansionAliases,
    resolvePolicySources. solve_effect.
Qed.

Lemma Decide_replayed actor cid req : effect (PS := PS) replayed (Decide actor cid req).
Proof.
  unfold Decide. apply fail_closed_effect. apply (effect_bind replayed); [solve_effect|intros _].
  pose proof (fun q dec => history_effect _ (RequireHold_history (PS := PS) (hold_actor actor) cid q dec)).
  pose proof (fun q => history_effect _ (load_history (PS := PS) q)).
  unfold decide_submission, decide_transport, Load, submissionSources, mailboxObjectByAddress, systemSenderAddress,
    resolvePolicySources. solve_effect.
Qed.

Lemma insert_sender_replayed id dom address d n d' : insert_sender id dom address d = Ok (n, d') -> replayed d d'.
Proof.
  unfold insert_sender. destruct (db_senders d !! id); [by intros [= _ <-]|]. destruct (existsb _ _); [done|].
  intros [= _ <-]. by apply untouched_replayed.
Qed.
#[local] Hint Resolve insert_sender_replayed : effects.

Lemma Bind_replayed actor cid id raw : effect (PS := PS) replayed (Bind actor cid id raw).
Proof.
  unfold Bind, bind_body. assert (forall now dom, effect (PS := PS) replayed (WriteSQL (bind_event now actor cid id dom)))
    by (intros now dom; by apply quiet_WriteSQL). solve_effect.
Qed.

Lemma scope_replayed actor cid plan d d' : scope_changed actor cid plan d d' -> replayed d d'.
Proof.
  intros (row & ev & _ & _ & _ & _ & -> & _ & _ & _ & Hr). apply (quiet_replayed _ _ ev); [done..|].
  unfold quiet. by rewrite Hr.
Qed.

Context `{BOUND : !QueueBoundary PS}.

Lemma ActivationApply_replayed services actor cid raw requested confirmation :
  effect (PS := PS) replayed (ActivationApply services actor cid raw requested confirmation).
Proof.
  intros w. destruct (ActivationApply services actor cid raw requested confirmation w) as [r w'] eqn:E.
  cbn [snd].
  apply ActivationApply_effect in E as [[-> _]|(plan & d & _ & _ & Hd & Hh)]; [reflexivity|].
  transitivity d; [|by apply history_replayed]. destruct Hd as [->|Hd]; [reflexivity|by eapply scope_replayed].
Qed.

(** One call of a service, whatever it answered; between the calls everything
    but the database may change. *)
Inductive served w : World PS -> Prop :=
| served_register r : served w (Register r w).2
| served_admit req : served w (Admit req w).2
| served_bind actor cid id raw : served w (Bind actor cid id raw w).2
| served_decide actor cid req : served w (Decide actor cid req w).2
| served_smtp cid mailbox sender recipient : served w (DecideSMTPRecipient cid mailbox sender recipient w).2
| served_require actor cid q dec : served w (RequireHold actor cid q dec w).2
| served_reconcile actor cid q : served w (Reconcile actor cid q w).2
| served_preview q : served w (Preview q w).2
| served_release actor cid q confirmation : served w (Release actor cid q confirmation w).2
| served_diagnose q : served w (Diagnose q w).2
| served_preview_change raw requested : served w (PreviewChange raw requested w).2
| served_change services actor cid raw requested confirmation :
    served w (ActivationApply services actor cid raw requested confirmation w).2
| served_outside w' : w_db w' = w_db w -> served w w'.

Lemma served_replayed w w' : served w w' -> replayed (w_db w) (w_db w').
Proof.
  destruct 1.
  - apply Register_replayed.
  - apply Admit_replayed.
  - apply Bind_replayed.
  - apply Decide_replayed.
  - apply DecideSMTPRecipient_replayed.
  - apply history_effect, RequireHold_history.
  - apply history_effect, Reconcile_effect.
  - generalize w. change (effect (PS := PS) replayed (Preview q)). unfold Preview, Load. pose proof (fun q => history_effect _ (load_history (PS := PS) q)).
    pose proof (fun r => history_effect _ (previewRecord_history (PS := PS) r)). solve_effect.
  - apply history_effect, Release_effect.
  - generalize w. change (effect (PS := PS) replayed (Diagnose q)). unfold Diagnose, Load.
    pose proof (fun q => history_effect _ (load_history (PS := PS) q)). solve_effect.
  - by rewrite (proj1 (PreviewChange_changes_nothing raw requested w)).
  - apply ActivationApply_replayed.
  - by rewrite H.
Qed.

Lemma served_trail w w' : rtc served w w' -> replayed (w_db w) (w_db w').
Proof. induction 1 as [w|w1 w2 w3 H _ IH]; [reflexivity|]. etrans; [by apply served_replayed|exact IH]. Qed.

(** The state of a message, if it is there, and the state it starts from. *)
Definition start_state d (q : string) : string := default HoldPending (state_of d q).

(** C8: the audit trail explains the state. Take any sequence of calls of the
    outbound services (registrations, admissions, sender bindings, decisions at
    submission and at transport, required holds, reconciliations, previews,
    releases, diagnoses, and scope changes with the holds they cause), whatever
    they are asked, whatever fails in them and whatever Postfix does in between.
    The events they append to the audit log say, for every message, a path of
    the hold machine from the state it had (pending, if it was registered on
    the way) to the state and the number of attempts it has; no message
    disappears; the arrival identity, recipients and sources of a message do not
    change; and a message that had not been held before is released only if the
    events contain its verified hold. *)
Theorem services_replay w w' : rtc served w w' ->
  exists evs, db_audit (w_db w') = db_audit (w_db w) ++ evs
    /\ (forall q row, db_queues (w_db w) !! q = Some row -> exists row', db_queues (w_db w') !! q = Some row'
          /\ identity_columns row' = identity_columns row
          /\ qw_attempts row' = (qw_attempts row + attempts_of (trail q evs))%Z
          /\ db_recipients (w_db w') !! q = db_recipients (w_db w) !! q
          /\ db_sources (w_db w') !! q = db_sources (w_db w) !! q)
    /\ (forall q row', db_queues (w_db w) !! q = None -> db_queues (w_db w') !! q = Some row' ->
          qw_attempts row' = attempts_of (trail q evs))
    /\ forall q, match db_queues (w_db w') !! q with
         | None => db_queues (w_db w) !! q = None /\ trail q evs = []
         | Some row' =>
             let st := start_state (w_db w) q in
             walk st (trail q evs) /\ qw_hold_state row' = replay st (trail q evs)
             /\ (st ∉ past_hold -> qw_hold_state row' = HoldReleased -> AApplied ∈ trail q evs)
         end.
Proof.
  intros [evs [A K N E]]%served_trail. exists evs. split_and!; [done| | |].
  - intros q row (row' & H & _ & _ & T & I & P & S)%K. by exists row'.
  - intros q row' Hq H. by destruct (N q row' Hq H) as (_ & _ & T).
  - intros q. unfold start_state, state_of. destruct (db_queues (w_db w) !! q) as [row|] eqn:Eq.
    + destruct (K q row Eq) as (row' & -> & W & S & _). cbn. split_and!; [done..|].
      intros Hn Hr. apply (walk_held _ _ W Hn). rewrite <- S, Hr. set_solver.
    + destruct (db_queues (w_db w') !! q) as [row'|] eqn:Eq'; [|by split; [|apply E]].
      destruct (N q row' Eq Eq') as (W & S & _). cbn. split_and!; [done..|].
      intros Hn Hr. apply (walk_held _ _ W Hn). rewrite <- S, Hr. set_solver.
Qed.
End Services.
