(* ===== verification/Witnesses.v ===== *)
(** * Concrete runs

    A small installation on the concrete host of Sample.v: two domains, one of
    them restricted to itself, a mailbox, an alias, and a Postfix queue that
    answers.  Every property with hypotheses is applied to it here, so its
    hypotheses hold together somewhere. *)

From stdpp Require Import base list gmap sets strings relations.
From Stdlib Require Import ZArith Lia Ascii.
From S2P Require Import Prelude GoStd Sha256 Policy Sample Queue AuditLog Database QueueStore Sources Admission ExpansionTotal HoldMachine Reconcile Release Decision.

#[export] Instance sample_collation : ByteCollation.
Proof. done. Qed.

(** ** The installation *)

Definition sample_db : DB :=
  {| db_domains :=
       {[ "d1" := {| dm_name := "example.org"; dm_enabled := true;
                     dm_scope := ScopeSameDomainOnly; dm_revision := 3 |};
          "d2" := {| dm_name := "example.net"; dm_enabled := true;
                     dm_scope := ScopeUnrestricted; dm_revision := 1 |} ]};
     db_mailboxes :=
       {[ "m1" := {| mb_domain_id := "d1"; mb_local_part := "alice"; mb_enabled := true;
                     mb_verifier := None; mb_quota_bytes := None; mb_display_name := None;
                     mb_scim_resource_id := None; mb_created_at := 1; mb_updated_at := 1 |} ]};
     db_aliases :=
       {[ "a1" := {| al_domain_id := "d1"; al_local_part := "team"; al_enabled := true;
                     al_targets_json := json_of_strings ["bob@example.org"; "eve@example.org"] |} ]};
     db_senders := ∅; db_queues := ∅; db_recipients := ∅; db_sources := ∅; db_audit := [];
     db_access := empty_access |}.

Definition sample_queue : string := "4XyQ1b2T3cz1K2".
Definition sample_fingerprint : string := sha256_hex [].

Definition sample_registration : QueueRegistration :=
  {| rg_queue_id := sample_queue; rg_arrival_fingerprint := sample_fingerprint;
     rg_envelope_sender := "alice@example.org";
     rg_recipients := ["dave@example.net"; "bob@EXAMPLE.ORG"];
     rg_sources := [{| qs_kind := SourceEnvelopeSender; qs_object_id := "m1" |};
                    {| qs_kind := SourceAuthenticatedMailbox; qs_object_id := "m1" |}] |}.

(** The Postfix queue: the entries by queue ID. *)
Definition Postfix := gmap string QueueMetadata.

Definition set_held (held : bool) (m : QueueMetadata) : QueueMetadata :=
  {| qm_queue_id := qm_queue_id m; qm_arrival_fingerprint := qm_arrival_fingerprint m;
     qm_envelope_sender := qm_envelope_sender m; qm_recipients := qm_recipients m;
     qm_held := held |}.

#[export] Instance sample_boundary : QueueBoundary Postfix := {
  Inspect q s := (match s !! q with Some m => Ok m | None => Err "not found" end, s);
  Hold q s := (match s !! q with Some _ => Ok tt | None => Err "not found" end,
               alter (set_held true) q s);
  ReleaseHold q s := (match s !! q with Some _ => Ok tt | None => Err "not found" end,
                      alter (set_held false) q s);
}.

Definition sample_metadata (held : bool) : QueueMetadata :=
  {| qm_queue_id := sample_queue; qm_arrival_fingerprint := sample_fingerprint;
     qm_envelope_sender := "alice@example.org";
     qm_recipients := ["bob@example.org"; "dave@example.net"]; qm_held := held |}.

Definition sample_world (held : bool) (d : DB) : World Postfix :=
  {| w_db := d; w_outcomes := []; w_clock := [7%Z];
     w_entropy := [repeat 1%N 16; repeat 2%N 16; repeat 3%N 16; repeat 4%N 16];
     w_ext := {[ sample_queue := sample_metadata held ]} |}.

(** The same installation after an administrator lifted the restriction. *)
Definition lift_scope (d : DB) : DB :=
  with_domains (fun m => <[ "d1" := {| dm_name := "example.org"; dm_enabled := true;
                                       dm_scope := ScopeUnrestricted; dm_revision := 4 |} ]> m) d.

(** A run that returns, with its value and its final world. *)
Lemma run_ok {PS A} (m : M PS A) w :
  is_ok (m w).1 = true -> {p : A * World PS | m w = (Ok p.1, p.2)}.
Proof. destruct (m w) as [[a|e] w']; [|done]. intros _. by exists (a, w'). Defined.

(** The same for a value returned beside no error. *)
Definition no_error {A} (r : result (A * option string)) : bool :=
  match r with Ok (_, None) => true | _ => false end.
Lemma run_clean {PS A} (m : M PS (A * option string)) w :
  no_error (m w).1 = true -> {p : A * World PS | m w = (Ok (p.1, None), p.2)}.
Proof. destruct (m w) as [[[a [e|]]|e] w']; try done. intros _. by exists (a, w'). Defined.

Ltac compute_it := vm_compute; reflexivity.
Ltac decide_it := apply (bool_decide_unpack _); vm_compute; exact I.

Definition sample_actor : ActorRef := {| actor_type := "user"; actor_id := "u1" |}.

(** The message registered, required to be held, held, released. *)
Definition registered : DB := Eval vm_compute in w_db (Register sample_registration (sample_world false sample_db)).2.

Definition sample_hold : Decision :=
  {| d_action := ActionDefer; d_reason := ReasonPolicyHold;
     d_revisions := {[ "example.org" := 3%N ]} |}.

Definition required : DB := Eval vm_compute in
  w_db (RequireHold sample_actor "c1" sample_queue sample_hold (sample_world false registered)).2.
Definition fresh (held : bool) (k : N) (d : DB) : World Postfix :=
  {| w_db := d; w_outcomes := []; w_clock := [7%Z];
     w_entropy := [repeat (k + 1)%N 16; repeat (k + 2)%N 16; repeat (k + 3)%N 16];
     w_ext := {[ sample_queue := sample_metadata held ]} |}.
Definition held : DB := Eval vm_compute in w_db (Reconcile sample_actor "c2" sample_queue (fresh false 10 required)).2.
Definition lifted : DB := lift_scope held.

Definition sample_confirmation : string := Eval vm_compute in
  match (Preview sample_queue (fresh true 20 lifted)).1 with
  | Ok plan => rp_confirmation_hash plan
  | Err _ => ""
  end.
Definition released : DB := Eval vm_compute in
  w_db (Release sample_actor "c3" sample_queue sample_confirmation (fresh true 30 lifted)).2.

Example sample_run :
  map (fun d => state_of d sample_queue) [registered; required; held; released]
  = [Some HoldPending; Some HoldRequired; Some HoldApplied; Some HoldReleased].
Proof. compute_it. Qed.

(** ** Policy *)

Definition restricted_org : GoverningDomain :=
  {| gd_domain := "example.org"; gd_scope := ScopeSameDomainOnly; gd_revision := 3 |}.
Definition open_net : GoverningDomain :=
  {| gd_domain := "example.net"; gd_scope := ScopeUnrestricted; gd_revision := 1 |}.
Definition sample_request (recipient : string) (l : list GoverningDomain) : Request :=
  {| rq_stage := StageSubmission; rq_queue_id := ""; rq_recipient := recipient;
     rq_governing := l |}.

Lemma Evaluate_refusal_witness :
  exists rcpt, ~ permits [restricted_org; open_net] rcpt.
Proof.
  destruct (Evaluate_refusal (sample_request "dave@example.net" [restricted_org; open_net]))
    as [[H _]|(rcpt & _ & H & _)].
  - vm_compute. discriminate.
  - exfalso. revert H. vm_compute. discriminate.
  - by exists rcpt.
Defined.

Lemma Evaluate_permutation_witness :
  Evaluate (sample_request "bob@example.org" [restricted_org; open_net])
  = Evaluate (sample_request "bob@example.org" [open_net; restricted_org]).
Proof. apply Evaluate_permutation. constructor. Defined.

Lemma Evaluate_monotone_witness :
  d_action (Evaluate (sample_request "bob@example.org" [restricted_org])) = ActionOK.
Proof.
  apply (Evaluate_monotone StageSubmission "" "bob@example.org" [restricted_org]
    [restricted_org; open_net]); [done| |compute_it].
  apply submseteq_skip, submseteq_nil_l.
Defined.

(** ** Queue provenance *)

Definition no_record : QueueRecord :=
  {| qr_queue_id := ""; qr_arrival_fingerprint := ""; qr_envelope_sender := "";
     qr_recipient_set_digest := ""; qr_source_set_digest := ""; qr_hold_state := "";
     qr_policy_reason := ""; qr_policy_revisions := ∅; qr_reconciliation_attempts := 0;
     qr_last_error_code := ""; qr_first_seen_at := 0; qr_updated_at := 0;
     qr_recipients := []; qr_sources := [] |}.

Definition sample_record : QueueRecord := Eval vm_compute in
  match normalizeQueueRegistration sample_registration with Ok q => q | Err _ => no_record end.

Lemma sample_normalised : normalizeQueueRegistration sample_registration = Ok sample_record.
Proof. compute_it. Qed.

Lemma normalizeQueueRegistration_idem_witness :
  normalizeQueueRegistration (registration_of sample_record) = Ok sample_record.
Proof.
  apply (normalizeQueueRegistration_idem sample_registration); [exact sample_normalised|].
  decide_it.
Defined.

(** The same message with its recipients and sources in another order, once
    repeated and once in another case. *)
Definition shuffled_registration : QueueRegistration :=
  {| rg_queue_id := sample_queue; rg_arrival_fingerprint := sample_fingerprint;
     rg_envelope_sender := "alice@EXAMPLE.org";
     rg_recipients := ["bob@EXAMPLE.ORG"; "dave@example.net"; "bob@EXAMPLE.ORG"];
     rg_sources := rev (rg_sources sample_registration) |}.

Definition shuffled_record : QueueRecord := Eval vm_compute in
  match normalizeQueueRegistration shuffled_registration with Ok q => q | Err _ => no_record end.

Lemma normalizeQueueRegistration_sets_witness : sample_record = shuffled_record.
Proof.
  apply (normalizeQueueRegistration_sets sample_registration shuffled_registration);
    [compute_it|compute_it|done|done|compute_it| |].
  - intros a. split; intros (raw & dom & Hin & H); exists raw, dom; (split; [|exact H]);
      cbn [rg_recipients sample_registration shuffled_registration] in *;
      rewrite !elem_of_cons in *; tauto.
  - intros s. simpl. set_solver.
Defined.

Lemma sameQueueIdentity_sets_witness :
  qr_recipients sample_record = qr_recipients shuffled_record
  \/ exists t1 t2 : list N, t1 <> t2 /\ Sha.sum256 t1 = Sha.sum256 t2.
Proof.
  destruct (sameQueueIdentity_sets sample_record shuffled_record) as [[H _]|(t1 & t2 & _ & ? & ?)];
    [compute_it|compute_it|compute_it|compute_it|compute_it| | | |].
  - decide_it.
  - repeat constructor.
  - by left.
  - right. by exists t1, t2.
Defined.

Lemma revisionMapsEqual_spec_witness :
  revisionMapsEqual {["example.org" := 3%N]} {["example.org" := 3%N]} = true.
Proof.
  apply revisionMapsEqual_spec; [|done].
  intros k r [<- <-]%lookup_singleton_Some. done.
Defined.

(** ** Audit *)

Lemma redactValue_discloses_witness :
  ~ mentions (redactValue (JObj [("user", JStr "alice"); ("password", JStr "hunter2")])) "hunter2".
Proof.
  rewrite redactValue_discloses by done. inversion 1 as [| |? k v ? Hin Hk Hd]; subst.
  apply elem_of_cons in Hin as [[= -> ->]|Hin]; [inversion Hd|].
  apply list_elem_of_singleton in Hin as [= -> ->]. vm_compute in Hk. discriminate.
Defined.

(** ** The queue store *)

Lemma Load_well_formed_witness : exists q, well_formed q /\ qr_queue_id q = sample_queue.
Proof.
  destruct (run_ok (Load sample_queue) (sample_world false registered)) as [[q w'] H];
    [compute_it|].
  destruct (Load_well_formed _ _ _ _ H) as (Hid & Hwf & _). exists q. exact (conj Hwf Hid).
Defined.

Lemma sample_no_orphans : no_orphans sample_db.
Proof. intros q _. split; apply lookup_empty. Qed.

Lemma Register_roundtrip_witness :
  exists w1, Register sample_registration (sample_world false sample_db)
             = (Ok (stamp 7 sample_record, true), w1).
Proof.
  destruct (Register_roundtrip sample_registration sample_record (sample_world false sample_db))
    as (w1 & _ & _ & H & _);
    [constructor|exact sample_no_orphans|exact sample_normalised|decide_it|discriminate|
     reflexivity|].
  exists w1. exact H.
Defined.

Lemma Register_sound_witness :
  exists stored, load_pure sample_queue registered = Ok stored.
Proof.
  destruct (run_ok (Register sample_registration) (sample_world false registered))
    as [[[stored created] w'] H]; [compute_it|].
  destruct (Register_sound _ _ _ _ _ H) as (q & _ & _ & Hl & Hc). exists stored.
  assert (created = false) as ->.
  { assert (snd <$> match (Register sample_registration (sample_world false registered)).1 with
            | Ok p => Some p | Err _ => None end = Some false) as Hs by compute_it.
    rewrite H in Hs. by injection Hs. }
  rewrite Hc in Hl. exact Hl.
Defined.

(** ** Authority, expansion and admission *)

Definition plain_world (d : DB) : World Postfix := sample_world false d.

Definition team_aliases : gmap string expansionAlias :=
  {[ "team@example.org" := {| ea_id := "a1"; ea_address := "team@example.org";
                              ea_targets := ["bob@example.org"; "eve@example.org"];
                              ea_kind := SourceList |} ]}.

Definition team_walk : gset string * gmap string QueueSource := Eval vm_compute in
  match walkExpansionGraph maxQueueSources team_aliases "team@example.org" ∅ ∅ ∅ with
  | Ok p => p | Err _ => (∅, ∅)
  end.

Lemma walkExpansionGraph_exact_witness : reach team_aliases "team@example.org" "eve@example.org".
Proof.
  apply (walkExpansionGraph_exact team_aliases "team@example.org" team_walk.1 team_walk.2).
  - intros x a Hx. unfold team_aliases in Hx. apply lookup_singleton_Some in Hx as [<- <-]. done.
  - compute_it.
  - decide_it.
Defined.

Lemma expandOriginal_exact_witness :
  exists recipients sources original,
    expands sample_db original recipients sources /\ length recipients = 2.
Proof.
  destruct (run_ok (expandOriginal "team@example.org") (plain_world sample_db))
    as [[[rs ss] w'] H]; [compute_it|].
  destruct (expandOriginal_exact _ _ _ _ _ H) as (_ & original & dom & _ & Hx).
  exists rs, ss, original. split; [exact Hx|].
  assert ((fun p => length p.1) <$> match (expandOriginal "team@example.org" (plain_world sample_db)).1
          with Ok p => Some p | Err _ => None end = Some 2) as Hs by compute_it.
  rewrite H in Hs. by injection Hs.
Defined.

(** The graph of team@example.org: two leaves under one alias. *)
Definition team_graph : gset string := {["team@example.org"; "bob@example.org"; "eve@example.org"]}.

Lemma team_edges x y : x ∈ team_graph -> db_edge sample_db x y ->
  x = "team@example.org" /\ y ∈ ["bob@example.org"; "eve@example.org"].
Proof.
  intros Hx (a & Ha & Hy). unfold team_graph in Hx. rewrite !elem_of_union, !elem_of_singleton in Hx.
  destruct Hx as [[->| ->]| ->]; [|by vm_compute in Ha..].
  assert (alias_at sample_db "team@example.org" = team_aliases !! "team@example.org") as E by compute_it.
  rewrite E in Ha. injection Ha as <-. done.
Qed.

Lemma team_leaves t : t ∈ ["bob@example.org"; "eve@example.org"] ->
  t ∈ team_graph /\ t <> "team@example.org".
Proof. revert t. apply Forall_forall. decide_it. Qed.

Lemma team_bounded : bounded_graph sample_db team_graph {["team@example.org"]}.
Proof.
  split.
  - intros x y Hx [_ Hy]%team_edges; [|done]. by apply team_leaves.
  - apply set_Forall_union; [apply set_Forall_union|]; apply set_Forall_singleton; [|done..].
    eexists. compute_it.
  - intros x Hx (t & He & Hr)%tc_step. apply team_edges in He as [-> Ht]; [|done].
    apply team_leaves in Ht as [Hg Hne].
    inversion Hr as [|? ? ? He]; subst; [done|by apply team_edges in He as [-> _]].
  - compute_it.
  - decide_it.
  - vm_compute. lia.
Qed.

Lemma expandOriginal_terminates_witness :
  exists recipients objects w', expandOriginal "team@example.org" (plain_world sample_db)
    = (Ok (recipients, objects), w').
Proof.
  eapply (expandOriginal_terminates _ "team@example.org" "example.org" _ team_graph {["team@example.org"]}).
  - constructor.
  - compute_it.
  - exact team_bounded.
  - decide_it.
Defined.

(** The alias is matched without regard to case but validated with it: a
    recipient whose local part is not in lower case is refused. *)
Example mixed_case_recipient_refused :
  (expandOriginal "Team@example.org" (plain_world sample_db)).1
  = Err "stored outbound alias is invalid".
Proof. compute_it. Qed.

Definition sample_admission : QueueAdmissionRequest :=
  {| qa_metadata := {| qm_queue_id := sample_queue; qm_arrival_fingerprint := sample_fingerprint;
                       qm_envelope_sender := "alice@example.org";
                       qm_recipients := ["bob@example.org"]; qm_held := false |};
     qa_authenticated_mailbox := "alice@example.org"; qa_system_sender_id := "";
     qa_deliveries := [{| qd_original := "team@example.org";
                          qd_recipient := "bob@example.org" |}] |}.

Lemma Admit_sound_witness :
  exists canonical, rmap canonical_delivery (qa_deliveries sample_admission) = Ok canonical
    /\ Forall (derived sample_db) canonical.
Proof.
  destruct (run_ok (Admit sample_admission) (plain_world sample_db)) as [[[q c] w'] H];
    [compute_it|].
  destruct (Admit_sound _ _ _ _ _ H) as (canonical & _ & _ & _ & _ & Hc & Hd & _).
  exists canonical. exact (conj Hc Hd).
Defined.

(** ** The hold machine *)

Lemma required_history : history registered required.
Proof.
  pose proof (RequireHold_history (PS := Postfix) sample_actor "c1" sample_queue sample_hold
    (sample_world false registered)) as H.
  assert (w_db (RequireHold sample_actor "c1" sample_queue sample_hold
    (sample_world false registered)).2 = required) as E by compute_it.
  rewrite E in H. exact H.
Qed.

Lemma held_history : history required held.
Proof.
  pose proof (Reconcile_effect sample_actor "c2" sample_queue (fresh false 10 required)) as H.
  assert (w_db (Reconcile sample_actor "c2" sample_queue (fresh false 10 required)).2 = held) as E
    by compute_it.
  rewrite E in H. exact H.
Qed.

(** A run that registers, holds and releases the message without the policy
    change, which the hold machine does not see. *)
Definition released_again : DB := Eval vm_compute in
  w_db (finishQueueRelease sample_actor "c3" sample_record HoldReleased ""
    (fresh true 50 (w_db (startQueueRelease sample_actor "c3" sample_record
                            (fresh true 40 held)).2))).2.

Lemma released_history : history held released_again.
Proof.
  pose proof (startQueueRelease_history sample_actor "c3" sample_record (fresh true 40 held)) as H1.
  pose proof (finishQueueRelease_history sample_actor "c3" sample_record HoldReleased "" (fun _ => eq_refl)
    (fresh true 50 (w_db (startQueueRelease sample_actor "c3" sample_record
                            (fresh true 40 held)).2))) as H2.
  assert (w_db (finishQueueRelease sample_actor "c3" sample_record HoldReleased ""
    (fresh true 50 (w_db (startQueueRelease sample_actor "c3" sample_record
                            (fresh true 40 held)).2))).2 = released_again) as E by compute_it.
  rewrite E in H2. etransitivity; [exact H1|exact H2].
Qed.

Lemma released_was_held_witness :
  exists dm, state_of dm sample_queue = Some HoldApplied.
Proof.
  destruct (released_was_held registered released_again sample_queue HoldPending)
    as (dm & _ & _ & H); [|compute_it|decide_it|compute_it|exists dm; exact H].
  etransitivity; [exact required_history|].
  etransitivity; [exact held_history|exact released_history].
Defined.

(** ** Reconciliation and release *)

Lemma Reconcile_sound_witness :
  exists q x, observed_held (PS := Postfix) sample_queue q x /\ qr_hold_state q = HoldApplied.
Proof.
  destruct (run_clean (Reconcile sample_actor "c2" sample_queue) (fresh false 10 required))
    as [[res w'] H]; [compute_it|].
  destruct (Reconcile_sound _ _ _ _ _ _ H) as (Ho & Hs & _).
  exists (rr_record res), (w_ext w'). exact (conj Ho Hs).
Defined.

Lemma Release_sound_witness :
  exists q x, observed_released (PS := Postfix) sample_queue q x
    /\ qr_hold_state q = HoldReleased.
Proof.
  destruct (run_clean (Release sample_actor "c3" sample_queue sample_confirmation)
    (fresh true 30 lifted)) as [[res w'] H]; [compute_it|].
  destruct (Release_sound _ _ _ _ _ _ _ H) as (Ho & Hs & _).
  exists (rl_record res), (w_ext w'). exact (conj Ho Hs).
Defined.

#[export] Instance sample_inspect_pure : InspectPure (PS := Postfix).
Proof. intros q x. done. Qed.

Definition still_held (x : Postfix) : bool :=
  match x !! sample_queue with Some m => qm_held m | None => false end.

Lemma Release_guarded_witness :
  exists record, forall a, a ∈ qr_recipients record -> policy_allows lifted (qr_sources record) a.
Proof.
  destruct (Release_guarded sample_actor "c3" sample_queue sample_confirmation
    (fresh true 30 lifted)) as (record & _ & _ & _ & _ & Ha & _).
  - intros E. assert (still_held (w_ext (Release sample_actor "c3" sample_queue
      sample_confirmation (fresh true 30 lifted)).2) = false) as H by compute_it.
    rewrite E in H. vm_compute in H. discriminate.
  - exists record. exact Ha.
Defined.

Definition sample_governing : list GoverningDomain := [restricted_org; open_net].
Definition sample_snapshot : gmap string N * list string := Eval vm_compute in
  match releasePolicySnapshot sample_governing with Ok s => s | Err _ => (∅, []) end.
Definition sample_states : gmap string (string * N) := Eval vm_compute in
  match snapshot_states sample_governing ∅ with Ok s => s | Err _ => ∅ end.

Lemma confirmation_binds_witness :
  release_identity sample_record = release_identity shuffled_record
  \/ exists t1 t2 : list N, t1 <> t2 /\ Sha.sum256 t1 = Sha.sum256 t2.
Proof.
  destruct (confirmation_binds sample_record shuffled_record sample_governing sample_governing
    sample_states sample_states sample_snapshot sample_snapshot) as [[H _]|[H1 H2]];
    [compute_it|compute_it|compute_it|compute_it|decide_it|compute_it|by left|].
  right. eexists _, _. exact (conj H1 H2).
Defined.

(** Postfix let the message go but the database still has it as held. *)
Lemma Release_requires_hold_witness :
  w_db (Release sample_actor "c3" sample_queue sample_confirmation (fresh false 30 lifted)).2
  = lifted.
Proof.
  apply (Release_requires_hold sample_actor "c3" sample_queue sample_confirmation
    (fresh false 30 lifted) (sample_metadata false) (w_ext (fresh false 30 lifted)));
    compute_it.
Defined.

(** ** Decisions *)

Lemma sortedStringContains_spec_witness :
  sortedStringContains ["a@x.org"; "b@x.org"; "c@x.org"] "b@x.org" = true.
Proof. apply sortedStringContains_spec; [decide_it|decide_it]. Defined.

Definition transport_request (recipient : string) : EnforcementRequest :=
  {| er_stage := StageTransport; er_queue_id := sample_queue; er_authenticated_mailbox := "";
     er_system_sender_id := ""; er_envelope_sender := ""; er_recipient := recipient;
     er_expansion_sources := [] |}.

Lemma revisions_are_bigints :
  forall i dom, db_domains registered !! i = Some dom -> (dm_revision dom < 2 ^ 63)%Z.
Proof.
  assert (map_Forall (fun _ dom => (dm_revision dom < 2 ^ 63)%Z) (db_domains registered)) as H
    by decide_it.
  exact H.
Qed.

Lemma Decide_hold_durable_witness :
  exists d, must_hold d (er_queue_id (transport_request "dave@example.net")) (d_revisions sample_hold).
Proof.
  destruct (run_clean (Decide sample_actor "c4" (transport_request "dave@example.net"))
    (fresh false 60 registered)) as [[dec w'] H]; [compute_it|].
  assert (dec = sample_hold) as Hdec.
  { assert (match (Decide sample_actor "c4" (transport_request "dave@example.net")
        (fresh false 60 registered)).1 with Ok (d, _) => Some d | Err _ => None end
      = Some sample_hold) as Hs by compute_it.
    rewrite H in Hs. cbn [fst] in Hs. injection Hs as Hs. exact Hs. }
  exists (w_db w'). rewrite <- Hdec. cbn [fst snd] in H.
  apply (Decide_hold_durable sample_actor "c4" (transport_request "dave@example.net")
    (fresh false 60 registered) dec w' revisions_are_bigints H);
    rewrite Hdec; reflexivity.
Defined.

Lemma Bind_immutable_witness :
  exists row, sy_address row = "noreply@example.org" /\ sy_enabled row = true.
Proof.
  destruct (run_ok (Bind sample_actor "c5" "sys1" "noreply@example.org") (plain_world sample_db))
    as [[b w'] H]; [compute_it|].
  destruct (Bind_immutable _ _ _ _ _ _ _ H)
    as (address & domain & dom & row & Hn & _ & _ & _ & _ & _ & Ha & He & _).
  exists row. vm_compute in Hn. injection Hn as <- <-. exact (conj Ha He).
Defined.

Lemma sample_unique_names : unique_names registered.
Proof.
  assert (map_Forall (fun i a => map_Forall (fun j b => dm_name a = dm_name b -> i = j)
    (db_domains registered)) (db_domains registered)) as H by decide_it.
  intros i j a b Ha Hb. exact (H i a Ha j b Hb).
Qed.

Definition stored_record : QueueRecord := Eval vm_compute in
  match load_pure sample_queue registered with Ok q => q | Err _ => no_record end.

Lemma sample_allowed : policy_allows registered (qr_sources stored_record) "bob@example.org".
Proof.
  exists "example.org". split; [compute_it|]. intros s Hs.
  exists {| dm_name := "example.org"; dm_enabled := true; dm_scope := ScopeSameDomainOnly;
            dm_revision := 3 |}.
  split; [|reflexivity]. exists "d1".
  assert (Forall (fun s => source_object registered s = Some (true, "d1"))
    (qr_sources stored_record)) as Hall by decide_it.
  rewrite Forall_forall in Hall. specialize (Hall s Hs). rewrite Hall.
  split_and!; [reflexivity|compute_it|reflexivity|compute_it|reflexivity|reflexivity].
Qed.

Lemma Decide_transport_complete_witness :
  exists dec w', Decide sample_actor "c4" (transport_request "bob@Example.org")
      (fresh false 60 registered) = (Ok (dec, None), w') /\ d_action dec = ActionOK.
Proof.
  destruct (Decide_transport_complete sample_actor "c4" (transport_request "bob@Example.org")
    (fresh false 60 registered) stored_record "bob@example.org" "example.org")
    as (dec & w' & H1 & H2 & _);
    [constructor|exact sample_unique_names|compute_it|reflexivity..|compute_it|compute_it|decide_it|
     exact sample_allowed|].
  exists dec, w'. exact (conj H1 H2).
Defined.
