(* ===== verification/AdminWitnesses.v ===== *)
(** * Concrete policy changes

    The installation of Witnesses.v with an open domain and a queued message
    for another one: previewing, confirming and activating a restriction. *)

From stdpp Require Import base list gmap sets strings relations.
From Stdlib Require Import ZArith Lia Ascii.
From S2P Require Import Prelude GoStd Sha256 Policy Sample Queue AuditLog Database QueueStore Sources HoldMachine Reconcile Decision Release Admin Activation PlanDigest HoldTrail Witnesses.

Definition opened : DB := Eval vm_compute in lift_scope registered.

Definition admin_world (held : bool) (d : DB) : World Postfix :=
  {| w_db := d; w_outcomes := []; w_clock := [9%Z];
     w_entropy := map (fun k => repeat k 16) [101; 102; 103; 104; 105; 106]%N;
     w_ext := {[ sample_queue := sample_metadata held ]} |}.

Definition no_plan : ChangePlan :=
  {| cp_digest := ""; cp_domain_id := ""; cp_domain := ""; cp_current_scope := "";
     cp_requested_scope := ""; cp_revision := 0; cp_impact := no_impact;
     cp_state_digest := ""; cp_affected_queue_ids := [] |}.

Definition sample_plan : ChangePlan := Eval vm_compute in
  match plan_pure "Example.org" ScopeSameDomainOnly opened with Ok p => p | Err _ => no_plan end.

Lemma sample_plan_ok : plan_pure "Example.org" ScopeSameDomainOnly opened = Ok sample_plan.
Proof. compute_it. Qed.

Example sample_impact :
  (cp_affected_queue_ids sample_plan, im_queued_recipients (cp_impact sample_plan))
  = ([sample_queue], 1%Z).
Proof. compute_it. Qed.

Lemma ApplyChange_atomic_witness :
  exists res, plan_pure "Example.org" ScopeSameDomainOnly opened = Ok (cr_plan res).
Proof.
  destruct (run_ok (ApplyChange sample_actor "c9" "Example.org" ScopeSameDomainOnly
    (cp_digest sample_plan)) (admin_world false opened)) as [[res w'] H]; [compute_it|].
  destruct (ApplyChange_atomic _ _ _ _ _ _ _ _ H) as [_ Hs].
  destruct (Hs res eq_refl) as [Hp _]. exists res. exact Hp.
Defined.

Lemma ActivationApply_holds_witness :
  exists d, restricted d "d1" "example.org"
    /\ (forall q, leaks opened "d1" "example.org" q -> state_of d q = Some HoldApplied).
Proof.
  destruct (run_ok (ActivationApply (Some sample_actor) sample_actor "c9" "Example.org"
    ScopeSameDomainOnly (cp_digest sample_plan)) (admin_world false opened))
    as [[res w'] H]; [compute_it|].
  destruct (ActivationApply_holds _ _ _ _ _ _ _ _ H) as (s & Hs & _ & _ & _ & Hr & Hh).
  assert (match (ActivationApply (Some sample_actor) sample_actor "c9" "Example.org"
    ScopeSameDomainOnly (cp_digest sample_plan) (admin_world false opened)).1 with
    | Ok r => Some (cr_plan r, ar_failed <$> cr_reconciliation r) | Err _ => None end
    = Some (sample_plan, Some 0)) as E by compute_it.
  rewrite H in E. cbn [fst snd] in E, Hs, Hr, Hh. injection E as E1 E2. rewrite Hs in E2. injection E2 as E2.
  rewrite E1 in Hr, Hh. exists (w_db w').
  exact (conj Hr (Hh E2)).
Defined.

(** The same state under another spelling of the domain. *)
Lemma plan_digest_binds_witness :
  alias_impact_rows "d1" opened = alias_impact_rows "d1" opened
  \/ exists t, collides t.
Proof.
  destruct (plan_digest_binds "Example.org" ScopeSameDomainOnly opened sample_plan
    "example.ORG" ScopeSameDomainOnly opened sample_plan) as [(_ & H & _)|(t & _ & H)];
    [exact sample_plan_ok|compute_it|reflexivity|compute_it|compute_it|decide_it|decide_it|
     left; exact H|right; exists t; exact H].
Defined.

Lemma preview_then_apply_witness :
  exists w', ApplyChange sample_actor "c9" "Example.org" ScopeSameDomainOnly
      (cp_digest sample_plan) (admin_world false opened)
    = (Ok {| cr_plan := sample_plan; cr_changed := true; cr_reconciliation := None |}, w').
Proof.
  destruct (run_ok (PreviewChange "Example.org" ScopeSameDomainOnly) (plain_world opened))
    as [[plan w0'] H]; [compute_it|].
  assert (match (PreviewChange (PS := Postfix) "Example.org" ScopeSameDomainOnly
    (plain_world opened)).1 with Ok p => p | Err _ => no_plan end = sample_plan) as E
    by compute_it.
  rewrite H in E. cbn [fst] in E. subst plan. cbn [fst snd] in H.
  apply (preview_then_apply "Example.org" ScopeSameDomainOnly (plain_world opened) w0'
    sample_plan sample_actor "c9" (admin_world false opened) H);
    [reflexivity|constructor|compute_it|compute_it|compute_it|decide_it|decide_it].
Defined.

(** ** A message from its registration to its release *)

Definition relax_digest : string := Eval vm_compute in
  match plan_pure "example.org" ScopeUnrestricted held with Ok p => cp_digest p | Err _ => "" end.
Definition relaxed : DB := Eval vm_compute in
  w_db (ActivationApply (Some sample_actor) sample_actor "c4" "example.org" ScopeUnrestricted relax_digest
    (admin_world true held)).2.
Definition relaxed_confirmation : string := Eval vm_compute in
  match (Preview sample_queue (fresh true 20 relaxed)).1 with
  | Ok plan => rp_confirmation_hash plan
  | Err _ => ""
  end.
Definition let_go_world : World Postfix :=
  (Release sample_actor "c5" sample_queue relaxed_confirmation (fresh true 30 relaxed)).2.

Lemma served_to {d} (w1 w1' w2 : World Postfix) : served w1 w1' -> w_db w1' = d -> w_db w2 = d -> rtc served w1 w2.
Proof. intros H H1 H2. apply (rtc_l _ _ w1' _ H). apply rtc_once, served_outside. congruence. Qed.

Lemma whole_life : rtc served (sample_world false sample_db) let_go_world.
Proof.
  transitivity (sample_world false registered).
  { apply (served_to (d := registered) _ _ _ (served_register _ sample_registration)); compute_it. }
  transitivity (fresh false 10 required).
  { apply (served_to (d := required) _ _ _ (served_require _ sample_actor "c1" sample_queue sample_hold)); compute_it. }
  transitivity (admin_world true held).
  { apply (served_to (d := held) _ _ _ (served_reconcile _ sample_actor "c2" sample_queue)); compute_it. }
  transitivity (fresh true 30 relaxed).
  { apply (served_to (d := relaxed) _ _ _ (served_change _ (Some sample_actor) sample_actor "c4" "example.org"
      ScopeUnrestricted relax_digest)); compute_it. }
  apply rtc_once. exact (served_release _ sample_actor "c5" sample_queue relaxed_confirmation).
Qed.

Example let_go : state_of (w_db let_go_world) sample_queue = Some HoldReleased.
Proof. compute_it. Qed.

Lemma services_replay_witness : exists evs,
  db_audit (w_db let_go_world) = db_audit sample_db ++ evs /\ AApplied ∈ trail sample_queue evs.
Proof.
  destruct (services_replay (sample_world false sample_db) let_go_world whole_life) as (evs & A & _ & _ & H).
  exists evs. split; [exact A|]. specialize (H sample_queue). pose proof let_go as L. unfold state_of in L.
  destruct (db_queues (w_db let_go_world) !! sample_queue) as [row|]; [|discriminate L].
  destruct H as (_ & _ & H). apply H; [decide_it|]. by injection L.
Defined.
