(* ===== verification/PostfixWitnesses.v ===== *)
(** * A concrete Postfix

    One queued message behind postqueue(1) and postsuper(1), run through the
    bounded command runner, the JSON listing, the helper and the remote
    client. *)

From stdpp Require Import base list gmap sets strings.
From Stdlib Require Import ZArith Lia Ascii.
From S2P Require Import Prelude GoStd Json JsonText Sha256 Policy Sample Queue AuditLog Database QueueStore HoldMachine Reconcile Postfix Http Helper Remote RemoteRefinement Release Decision Witnesses.

#[export] Instance sample_mail : MailLaws.
Proof. by split. Qed.

(** The state is whether the message is held. *)
Definition listing_entry (held : bool) : string :=
  encode_line (VObj
    [("queue_name", VStr (if held then "hold" else "deferred"));
     ("queue_id", VStr sample_queue); ("arrival_time", VNum "1700000000");
     ("message_size", VNum "2048"); ("sender", VStr "alice@example.org");
     ("recipients", VArr
        [VObj [("address", VStr "dave@example.net"); ("delay_reason", VStr "<timeout>")];
         VObj [("address", VStr "bob@EXAMPLE.ORG")]])]).

#[export] Instance sample_processes : Processes bool := {
  spawn path args held :=
    match args with
    | ["-j"] => ([listing_entry held], true, held)
    | ["-h"; _] => ([], true, true)
    | ["-H"; _] => ([], true, false)
    | _ => (["unknown request"], false, held)
    end;
}.
#[export] Instance sample_runner : CommandRunner bool := ExecCommandRunner.

Definition sample_postfix : PostfixBoundary :=
  {| pb_postqueue_path := "/usr/sbin/postqueue"; pb_postsuper_path := "/usr/sbin/postsuper";
     pb_instance_id := "Mail.Example.ORG"; pb_max_output_bytes := 8 * 2 ^ 20 |}.

Definition observe (held : bool) : QueueMetadata :=
  match (postfix_inspect sample_postfix sample_queue held).1 with
  | Ok m => m
  | Err _ => sample_metadata held
  end.
Definition inspected_active : QueueMetadata := Eval vm_compute in observe false.
Definition inspected_hold : QueueMetadata := Eval vm_compute in observe true.
Definition inspected (held : bool) : QueueMetadata :=
  if held then inspected_hold else inspected_active.

Lemma inspected_ok held :
  postfix_inspect sample_postfix sample_queue held = (Ok (inspected held), held).
Proof. destruct held; compute_it. Qed.

Example inspected_recipients :
  qm_recipients (inspected true) = ["bob@example.org"; "dave@example.net"]
  /\ qm_arrival_fingerprint (inspected true) = qm_arrival_fingerprint (inspected false).
Proof. split; compute_it. Qed.

Definition sample_entry (held : bool) : postqueueEntry :=
  default zero_entry (decode_entry (listing_entry held)).

Lemma arrival_fingerprint_identity_witness :
  qm_arrival_fingerprint (inspected true) = qm_arrival_fingerprint (inspected false).
Proof.
  assert (queueMetadataFromEntry "mail.example.org" (sample_entry true) = Ok (inspected true)) as H1
    by compute_it.
  assert (queueMetadataFromEntry "Mail.Example.ORG" (sample_entry false) = Ok (inspected false)) as H2
    by compute_it.
  assert (NormalizeDomain "mail.example.org" = Ok "mail.example.org") as N1 by compute_it.
  assert (NormalizeDomain "Mail.Example.ORG" = Ok "mail.example.org") as N2 by compute_it.
  assert (Forall go_len (entry_texts "mail.example.org" (sample_entry true) (inspected true)
    ++ entry_texts "mail.example.org" (sample_entry false) (inspected false))) as Hl
    by (repeat (constructor; [vm_compute; reflexivity|]); constructor).
  destruct (arrival_fingerprint_identity _ _ _ _ _ _ _ _ H1 H2 N1 N2 Hl) as [H _].
  apply H. split_and!; compute_it.
Defined.

Lemma snapshot_order_independent_witness :
  exists s, snapshot_lines_loop "mail.example.org" "" no_entries
      [""; listing_entry true; listing_entry false] = Ok s
    /\ sn_total (snapshot_result s) = 2.
Proof.
  destruct (snapshot_lines_loop "mail.example.org" "" no_entries
    [listing_entry true; ""; listing_entry false]) as [s1|] eqn:E; [|exfalso; revert E; vm_compute; discriminate].
  destruct (snapshot_order_independent "mail.example.org" ""
    [listing_entry true; ""; listing_entry false] [""; listing_entry true; listing_entry false] s1
    ltac:(constructor) E) as (s2 & H2 & Hr & _).
  exists s2. split; [exact H2|]. rewrite Hr.
  enough (Ok (sn_total (snapshot_result s1)) = Ok 2) as H by (by injection H).
  change (Ok (sn_total (snapshot_result s1))) with
    (rbind (Ok s1) (fun s => Ok (sn_total (snapshot_result s)))).
  rewrite <- E. compute_it.
Defined.

(** ** The deployed boundary *)

#[export] Instance sample_urls : UrlParser := {
  url_parse s :=
    match strip "http://" s with
    | Some host => Some {| url_scheme := "http"; url_host := host; url_user := false; url_path := "";
                           url_raw_query := ""; url_fragment := ""; url_text := s |}
    | None => None
    end;
}.

Definition sample_token : string := "delivery-token-0123456789abcdefgh".
Definition sample_release_token : string := "release-token-0123456789abcdefghi".

Definition sample_remote : RemotePostfixBoundary :=
  {| rb_base_url := "http://postfix:10026"; rb_token := sample_token;
     rb_release_token := sample_release_token; rb_client := true |}.
Definition sample_helper : Helper :=
  {| hp_token_hash := token_bytes sample_token;
     hp_release_token_hash := token_bytes sample_release_token |}.

Lemma sample_paired : paired sample_remote sample_helper.
Proof.
  exists " http://postfix:10026 ", sample_token, sample_release_token. split; [compute_it|].
  unfold NewHelper. change (negb (valid_token sample_token) || _ || _) with false. reflexivity.
Qed.

Lemma remote_boundary_refines_witness :
  exists m, (remote_inspect (HTTP := network sample_postfix sample_helper sample_remote)
               sample_remote sample_queue true).1 = Ok m
    /\ qm_held m = true.
Proof.
  destruct (remote_boundary_refines sample_postfix sample_remote sample_helper sample_queue true
    sample_paired) as (_ & _ & _ & H).
  exists (inspected true). split; [|reflexivity].
  apply H. split; [|decide_it]. simpl Inspect. by rewrite inspected_ok.
Defined.

Lemma remote_operator_refines_witness :
  (remote_flush (HTTP := network sample_postfix sample_helper sample_remote) sample_remote true).2
  = true.
Proof.
  destruct (remote_operator_refines sample_postfix sample_remote sample_helper sample_queue true
    sample_paired) as (_ & [H _] & _).
  rewrite H. compute_it.
Defined.
