(* ===== verification/GateWitnesses.v ===== *)
(** * A delivery, end to end

    The concrete Postfix of PostfixWitnesses.v, a core with one controller
    token, and an SMTP server that counts what it accepts. *)

From stdpp Require Import base list gmap sets strings.
From Stdlib Require Import ZArith Lia Ascii.
From S2P Require Import Prelude GoStd Json JsonText JsonStruct Sha256 Policy Sample Queue AuditLog Database QueueStore Sources Admission HoldMachine Reconcile Postfix Http Helper Remote RemoteRefinement Release Decision Admin Activation Daemon ControlWire Routes Gate Relay GateSafety Witnesses PostfixWitnesses.

(** ** An SMTP server *)

Record SmtpServer := { ss_accepted : list Mail; ss_transaction : Mail }.

Definition no_mail : Mail := ("", [], "").

(** It refuses the recipient nobody@example.net and answers everything else. *)
#[export] Instance sample_smtp : SmtpConnection SmtpServer := {
  smtp_dial t a s := (Ok tt, s);
  smtp_greeting n s := (Ok tt, s);
  smtp_hello n s := (Ok tt, s);
  smtp_mail f s := (Ok tt, {| ss_accepted := ss_accepted s; ss_transaction := (f, [], "") |});
  smtp_rcpt r s :=
    if r =?s "nobody@example.net" then (Err "550 no such user", s) else
    (Ok tt, {| ss_accepted := ss_accepted s;
               ss_transaction := let '(f, l, m) := ss_transaction s in (f, l ++ [r], m) |});
  smtp_data s := (Ok tt, s);
  smtp_write m s :=
    (Ok tt, {| ss_accepted := ss_accepted s;
               ss_transaction := let '(f, l, m0) := ss_transaction s in (f, l, m0 +:+ m) |});
  smtp_end s := (Ok tt, {| ss_accepted := ss_accepted s ++ [ss_transaction s];
                           ss_transaction := no_mail |});
  smtp_quit s := (Ok tt, s);
  smtp_hangup s := s;
}.

#[export] Instance sample_smtp_laws : SmtpLaws ss_accepted ss_transaction.
Proof.
  split; try (by intros; cbn in *; simplify_eq).
  - intros s. split_and!; try done. intros r. cbn. by destruct (r =?s _).
  - intros r s u s' H. cbn in H. destruct (r =?s _); [done|]. by injection H as _ <-.
Qed.

#[export] Instance sample_parser : MailParser := {
  ParseAddress s := if ParseAddressExact s then Some s else None;
}.

Definition sample_relay : SMTPRelay :=
  {| sr_addr := "relay.example.org:25"; sr_hello_name := "mail.example.org"; sr_timeout := 0 |}.

Definition empty_server : SmtpServer := {| ss_accepted := []; ss_transaction := no_mail |}.

Example sample_submission :
  ss_accepted (Submit sample_relay "alice@example.org" ["bob@example.org"] "hello" empty_server).2
  = [("alice@example.org", ["bob@example.org"], "hello")].
Proof. compute_it. Qed.

Lemma Submit_exact_witness :
  ss_accepted (Submit sample_relay "<>" ["bob@example.org"; "nobody@example.net"] "hello" empty_server).2
  = [].
Proof.
  destruct (Submit sample_relay "<>" ["bob@example.org"; "nobody@example.net"] "hello" empty_server)
    as [r s'] eqn:E.
  assert (r = Err "SMTP relay recipient rejected") as ->.
  { change r with (fst (r, s')). rewrite <- E. compute_it. }
  apply (Submit_exact ss_accepted ss_transaction) in E as [E|[E _]]; [exact E|].
  vm_compute in E. discriminate E.
Defined.

Example smtp_server_names :
  map smtpServerName ["relay.example.org:25"; "[2001:db8::1]:25"; "2001:db8::1"; "relay"]
  = ["relay.example.org"; "2001:db8::1"; "2001:db8::1"; "relay"].
Proof. compute_it. Qed.

(** ** The gate *)

#[export] Instance sample_format : TimeFormat := { format_stamp _ := "20260102T030405.000000006Z" }.
#[export] Instance sample_format_laws : TimeFormatLaws.
Proof. split. intros t. compute_it. Qed.

#[export] Instance sample_queue_boundary : QueueBoundary bool := PostfixQueueBoundary sample_postfix.
#[export] Instance sample_inspector : QueueInspector (World bool) := postfix_inspector sample_postfix.

Definition sample_controller : HTTPController :=
  {| hc_base_url := "http://core:8080"; hc_token := sample_token; hc_client := true |}.

Definition sample_service : Service :=
  {| sv_unavailable := false; sv_domains := ∅; sv_mailboxes := ∅; sv_aliases := ∅;
     sv_rate_limits := ∅; sv_verifiers := ∅; sv_audit := false;
     sv_outbound_policy := Some {| actor_type := ""; actor_id := "" |};
     sv_outbound_admission := true; sv_outbound_reconciler := true; sv_outbound_release := true;
     sv_helper_token := token_bytes sample_token; sv_helper_enabled := true;
     sv_release_token := token_bytes sample_release_token; sv_release_enabled := true |}.

Definition no_route : string -> Route (PS := bool) := fun _ _ w => (reply StatusNotFound "", w).

#[export] Instance sample_network : HttpClient (World bool) :=
  core_network sample_service no_route sample_controller.
#[export] Instance sample_control : Controller (World bool) := ControllerHTTP sample_controller.

Definition sample_arguments : PipeArguments :=
  {| pa_queue_id := sample_queue; pa_authenticated := "alice@example.org"; pa_system_sender := "";
     pa_client_address := "192.0.2.7"; pa_originals := ["bob@example.org"; "dave@example.net"];
     pa_recipients := ["bob@example.org"; "dave@example.net"] |}.

Definition sample_delivery : DeliveryRequest :=
  {| dr_queue_id := sample_queue; dr_authenticated_mailbox := "alice@example.org";
     dr_system_sender_id := "";
     dr_deliveries := [{| qd_original := "bob@example.org"; qd_recipient := "bob@example.org" |};
                       {| qd_original := "dave@example.net"; qd_recipient := "dave@example.net" |}] |}.

Example sample_pipe : delivery_request sample_arguments = Ok sample_delivery.
Proof. compute_it. Qed.

Definition gate_world (d : DB) : World bool :=
  {| w_db := d; w_outcomes := []; w_clock := [7%Z];
     w_entropy := [repeat 41%N 16; repeat 42%N 16; repeat 43%N 16; repeat 44%N 16];
     w_ext := false |}.

Definition sample_message : Message := {| ms_body := "hello"; ms_broken := false |}.

(** A relay that marks its call by an error. *)
Definition marking_relay : Gate.Relay (World bool) := fun sender recipients body w =>
  (Err (sender +:+ " " +:+ body), w).

(** With the restriction lifted the message reaches the relay; with it, the
    message is held in Postfix and recorded as held. *)
Example delivery_relayed :
  (Deliver marking_relay sample_delivery sample_message (gate_world (lift_scope sample_db))).1
  = Err "alice@example.org hello".
Proof. compute_it. Qed.

Example delivery_held :
  let (r, w) := Deliver marking_relay sample_delivery sample_message (gate_world sample_db) in
  (r, w_ext w, state_of (w_db w) sample_queue)
  = (Err "outbound queue placed on policy hold", true, Some HoldApplied).
Proof. compute_it. Qed.

Lemma Deliver_guarded_witness :
  exists m w1, cleared (lift_scope sample_db) (w_db w1) sample_delivery m
    /\ marking_relay (qm_envelope_sender m) (qm_recipients m) "hello" w1
       = Deliver marking_relay sample_delivery sample_message (gate_world (lift_scope sample_db)).
Proof.
  assert (valid_delivery sample_delivery) as Hv by (split; compute_it).
  assert (bigint_revisions (w_db (gate_world (lift_scope sample_db)))) as Hb.
  { apply (map_Forall_lookup (fun _ dom => (dm_revision dom < 2 ^ 63)%Z)). decide_it. }
  destruct (Deliver_guarded sample_service no_route sample_controller
    sample_delivery sample_message _ Hv Hb) as [(e & w' & H)|(m & body & w0 & w1 & _ & Hbody & Hc & H)].
  - exfalso. pose proof (H (fun _ _ _ w => (Ok tt, w))) as Hok.
    apply (f_equal (fun p => is_ok p.1)) in Hok. revert Hok. vm_compute. discriminate.
  - injection Hbody as <-. exists m, w1. split; [exact Hc|]. symmetry. apply (H marking_relay).
Defined.
