(* ===== verification/DaemonWitnesses.v ===== *)
(** * The daemon services on concrete inputs

    A key derivation that mixes the password, the salt and the iterations, two
    orders of the range over a map, and a directory with one mailbox. *)

From stdpp Require Import base list gmap sets strings.
From Stdlib Require Import ZArith Lia Ascii.
From S2P Require Import Prelude GoStd Json JsonText JsonStruct Sha256 Policy Sample Queue AuditLog Database QueueStore Sources Admission HoldMachine Reconcile Postfix Http Helper Remote RemoteRefinement Release Decision Admin Activation Daemon ControlWire Routes Gate Relay GateSafety Verifier Lookup LookupRoutes Witnesses PostfixWitnesses GateWitnesses.

#[export] Instance sample_kdf : Pbkdf2 := {
  pbkdf2_key password salt iter n :=
    map (fun k => (nth k password 0 + nth k salt 0 + Z.to_N iter + N.of_nat k) mod 256)%N (seq 0 n);
}.
#[export] Instance sample_kdf_laws : Pbkdf2Laws.
Proof.
  split; intros.
  - cbn. by rewrite length_map, length_seq.
  - cbn. apply Forall_fmap, Forall_true. intros k. cbn. by apply N.mod_lt.
Qed.

Definition order_up : MapOrder := {| range _ _ m := map_to_list m |}.
Definition order_down : MapOrder := {| range _ _ m := reverse (map_to_list m) |}.
#[export] Instance order_up_laws : MapOrderLaws (ORDER := order_up).
Proof. split. by intros. Qed.
#[export] Instance order_down_laws : MapOrderLaws (ORDER := order_down).
Proof. split. intros. apply reverse_Permutation. Qed.

(** ** Verifiers *)

Definition sample_verifier : string := MakeDjangoPBKDF2SHA256 "correct horse" "pepper" 1000.

Example sample_verifier_text :
  sample_verifier = "pbkdf2_sha256$1000$pepper$u73MzbbCYg9YYGRmWfX29/j5+vv8/f7/AAECAwQFBgc="
  /\ is_ok (ValidateDjangoPBKDF2SHA256 "pbkdf2_sha256$0$pepper$u73MzbbCYg9YYGRmWfX29/j5+vv8/f7/AAECAwQFBgc=")
     = false.
Proof. split; compute_it. Qed.

Lemma verifier_round_trip_witness :
  VerifyDjangoPBKDF2SHA256 sample_verifier "correct horse" = Ok tt
  /\ VerifyDjangoPBKDF2SHA256 sample_verifier "correct mouse" <> Ok tt.
Proof.
  destruct (verifier_round_trip "correct horse" "pepper" 1000 "correct mouse") as (_ & H1 & H2);
    [lia|done|compute_it|].
  split; [exact H1|]. intros [=H]%H2.
Defined.

(** ** A directory *)

Definition alice_mailbox : Mailbox :=
  {| ml_address := "alice@example.org"; ml_enabled := true; ml_home := "/srv/alice";
     ml_uid := 1000; ml_gid := 1000; ml_quota_bytes := 1048576; ml_verifier := sample_verifier;
     ml_default_sieve := "" |}.
Definition home_domain : Domain :=
  {| do_name := "example.org"; do_enabled := true; do_transport := "";
     do_dkim_selector := "mail"; do_dkim_private_key_path := "/keys/mail" |}.
Definition info_alias : Alias :=
  {| as_address := "info@example.org"; as_enabled := true; as_targets := ["alice@example.org"] |}.

Definition sample_directory : Service :=
  put sv_audit true
    (put sv_aliases {[ "info@example.org" := info_alias ]}
      (put sv_mailboxes {[ "alice@example.org" := alice_mailbox ]}
        (put sv_domains {[ "example.org" := home_domain ]} sample_service))).

Definition login (secret protocol : string) : PassdbRequest :=
  {| pd_username := "Alice@example.org"; pd_secret := secret; pd_protocol := protocol |}.

#[export] Instance sample_order : MapOrder := order_up.

Example wrong_secret :
  (rp_reason (DovecotPassdb sample_directory "c" (login "wrong" "imap") (gate_world sample_db)).1,
   rp_reason (DovecotPassdb sample_directory "c" (login "correct horse" "pop3") (gate_world sample_db)).1)
  = ("invalid_secret", "unsupported_protocol").
Proof. compute_it. Qed.

Example directory_answers :
  map (fun a : Answer (PS := bool) => rp_reason (a (gate_world sample_db)).1)
    [PostfixRecipient sample_directory "c" "Info@example.org"; PostfixDomain sample_directory "c" "EXAMPLE.org";
     PostfixRecipient sample_directory "c" "nobody@example.org"; RspamdDKIM sample_directory "c" "example.org";
     PostfixSenderLogin sample_directory "c"
       {| sl_sasl_username := "alice@example.org"; sl_mail_from := "info@example.org"; sl_client_ip := "" |}]
  = ["alias_expanded"; "domain_accepted"; "recipient_not_found"; "dkim_key_available"; "sender_login_mismatch"].
Proof. compute_it. Qed.

Lemma DovecotPassdb_sound_witness :
  exists m verifiers method, mailboxAuth sample_directory "alice@example.org" = Some (m, verifiers)
    /\ authenticates m verifiers "correct horse" method.
Proof.
  destruct (DovecotPassdb sample_directory "c" (login "correct horse" "imap") (gate_world sample_db))
    as [r w'] eqn:E.
  assert (rp_decision r = DecisionOK) as Hd by (change r with (fst (r, w')); rewrite <- E; compute_it).
  destruct (DovecotPassdb_sound sample_directory "c" _ _ _ _ E Hd)
    as (_ & _ & _ & m & vs & method & Hm & _ & Ha & _).
  exists m, vs, method. split; [|exact Ha]. rewrite <- Hm. done.
Defined.

Lemma sample_directory_named : well_named sample_directory.
Proof. split; (apply (bool_decide_unpack _); vm_compute; exact I). Qed.

Lemma lookup_order_independent_witness :
  DovecotPassdb (ORDER := order_up) sample_directory "c" (login "wrong" "imap") (gate_world sample_db)
  = DovecotPassdb (ORDER := order_down) sample_directory "c" (login "wrong" "imap") (gate_world sample_db).
Proof.
  apply (lookup_order_independent order_up order_down sample_directory "c" (gate_world sample_db)).
  exact sample_directory_named.
Defined.

Lemma sample_directory_canonical : canonical_service sample_directory.
Proof.
  split.
  - apply (map_Forall_lookup (fun k v => found_under do_name normalizeDomain (k, v) = k)). decide_it.
  - apply (map_Forall_lookup (fun k v => found_under ml_address normalizeAddress (k, v) = k)). decide_it.
  - apply (map_Forall_lookup (fun k v => normalizeAddress k = k)). decide_it.
  - apply (map_Forall_lookup (fun k v => normalizeAddress k = k)). decide_it.
Qed.

Lemma identity_projection_witness :
  let bob := put ml_address "Bob@Example.NET" alice_mailbox in
  is_Some (domains (UpsertIdentityMailbox bob sample_directory) 0 !! "example.net")
  /\ mailboxAuth (DeleteIdentityMailbox "alice@example.org" sample_directory) "alice@example.org" = None.
Proof.
  intros bob.
  destruct (identity_projection sample_directory bob "alice@example.org" [sample_verifier] 0)
    as (_ & _ & H1 & _ & H2 & _).
  - exact sample_directory_canonical.
  - split; first [compute_it|vm_compute; discriminate].
  - compute_it.
  - split; [exact H1|exact H2].
Defined.

(** ** The privileged routes *)

Lemma sample_service_configured : configured sample_service.
Proof.
  eapply (configured_release _ sample_release_token); [eapply (configured_helper _ sample_token);
    [apply (configured_none (put sv_helper_enabled false (put sv_release_enabled false sample_service))); done|]|];
    compute_it.
Qed.

Definition reconcile_request (token : string) : HttpRequest :=
  {| rq_method := MethodPost; rq_url := ""; rq_authorization := bearer_prefix +:+ token; rq_correlation := "c";
     rq_body := print_json (selector_json sample_queue) |}.

(** Reconciliation changes the database for the helper token only: the
    message Postfix lists is not the registered one, which the row records. *)
Example reconcile_refused :
  (mux sample_service no_route "/internal/v1/postfix/queue/reconcile"
     (reconcile_request sample_release_token) (gate_world required)).1 = reply StatusUnauthorized "".
Proof. compute_it. Qed.

Lemma reconcile_attempted :
  state_of (w_db (mux sample_service no_route "/internal/v1/postfix/queue/reconcile"
     (reconcile_request sample_token) (gate_world required)).2) sample_queue
  = Some HoldReconciliationError.
Proof. compute_it. Qed.

Lemma control_routes_authenticated_witness :
  bears (reconcile_request sample_token) (sv_helper_token sample_service).
Proof.
  pose proof reconcile_attempted as Hs.
  destruct (mux sample_service no_route "/internal/v1/postfix/queue/reconcile"
     (reconcile_request sample_token) (gate_world required)) as [rs w'] eqn:E.
  assert (guarded_by "/internal/v1/postfix/queue/reconcile" sample_service
    = Some (true, token_bytes sample_token)) as Hg by compute_it.
  apply (control_routes_authenticated _ _ _ _ _ _ _ _ _ sample_service_configured Hg E).
  intros ->. cbn [snd] in Hs.
  assert (state_of (w_db (gate_world required)) sample_queue = Some HoldRequired) as Hr by compute_it.
  discriminate (eq_trans (eq_sym Hr) Hs).
Defined.
