(* ===== verification/AccessWitnesses.v ===== *)
(** * Authorization, notification and approvals, run

    An operator reaches a queue through Telegram: the actor is mapped, asks for
    a flush, and the callback that carries the token runs it once. *)

From stdpp Require Import base list gmap sets strings.
From Stdlib Require Import ZArith Lia Ascii.
From S2P Require Import Prelude GoStd Json JsonText JsonStruct Sha256 Policy Sample Queue AuditLog Database QueueStore HoldMachine Reconcile Postfix Http Helper Lookup Tokens Authz NotifyText Regex Notification Approval Executor Telegram Witnesses PostfixWitnesses DaemonWitnesses.
Import authz.

(** ** Authorization *)

Definition viewer_mapping : RoleMapping :=
  {| rm_group := "mail-admins"; rm_domain := "example.org"; rm_role := RoleDomainManager;
     rm_verified := true |}.
Definition manager : Actor :=
  {| a_type := "oidc_subject"; a_id := "u1"; a_mailbox := "alice@example.org"; a_scopes := [];
     a_groups := ["mail-admins"]; a_roles := [] |}.
Definition org_alias : Resource := {| r_type := "domain"; r_id := "example.org" |}.

Definition mapped_authorizer : StaticAuthorizer := {| sa_mappings := [viewer_mapping] |}.

Example manager_decisions :
  map (fun act => d_allow <$> Decide mapped_authorizer manager act org_alias)
    ["domain:update"; "queue:flush"; "status:read"]
  = [Some true; Some false; Some true].
Proof. compute_it. Qed.

Lemma Decide_allows_iff_witness : permitted mapped_authorizer manager "domain:update" org_alias.
Proof.
  assert (exists d, Decide mapped_authorizer manager "domain:update" org_alias = Some d
    /\ d_allow d = true) as (d & E & H) by (eexists; split; compute_it).
  by apply (Decide_allows_iff _ _ _ _ _ E).
Defined.

Definition full_mappings : list RoleMapping :=
  [viewer_mapping;
   {| rm_group := "postmasters"; rm_domain := ""; rm_role := RoleGlobalAdmin; rm_verified := true |};
   {| rm_group := "helpers"; rm_domain := "example.org"; rm_role := RoleScopedDomainAccess;
      rm_verified := true |}].

Lemma validated_mappings_decide_witness :
  exists d, Decide {| sa_mappings := full_mappings |} manager "queue:flush" org_alias = Some d.
Proof. apply (validated_mappings_decide full_mappings ["example.org"]). compute_it. Defined.

(** An unknown role panics, unless nobody's group is verified for it. *)
Example unknown_role_panics :
  rolesFor {| sa_mappings := [{| rm_group := "mail-admins"; rm_domain := ""; rm_role := "owner";
                                 rm_verified := true |}] |} manager = None.
Proof. compute_it. Qed.

(** ** Alerts *)

Definition sample_alert : Alert :=
  {| at_id := "event-1"; at_class := "doctor"; at_title := "Backup  failed"; at_summary := "disk full";
     at_correlation_id := "c 1"; at_severity := "critical";
     at_resource := {| rn_type := "backup"; rn_id := "b1" |};
     at_details := {[ "api key" := "k-123"; "host" := "mx1" ]} |}.

Lemma SanitizeAlert_bounded_witness :
  exists a', SanitizeAlert (ORDER := order_up) sample_alert = Ok a' /\ at_details a' !! "api-key" = Some redacted_mark.
Proof.
  destruct (SanitizeAlert (ORDER := order_up) sample_alert) as [a'|] eqn:E; [|exfalso; revert E; vm_compute; discriminate].
  exists a'. split; [reflexivity|].
  destruct (SanitizeAlert_bounded (ORDER := order_up) sample_alert a' E) as (_ & _ & _ & _ & _ & _ & _ & _ & _ & _ & _ & _ & _ & _ & _ & _ & H).
  apply (H "api key" "k-123"); compute_it.
Defined.

#[export] Instance always_sent : Backend unit := {|
  backend_send a s :=
    (({| rs_status := "delivered"; rs_reason := "sent ok"; rs_evidence := empty_evidence |}, None), s) |}.

Definition alert_world : World (MemoryRecorder * unit) :=
  {| w_db := empty_db; w_outcomes := []; w_clock := [1%Z; 2%Z]; w_entropy := []; w_ext := (∅, tt) |}.

Lemma SendAlert_recorded_witness :
  exists rec, (SendAlert (ORDER := order_up) (PS := MemoryRecorder * unit) sample_alert alert_world).1 = Ok (rec, None)
    /\ is_final (dr_status rec) = true.
Proof.
  destruct (SendAlert (ORDER := order_up) (PS := MemoryRecorder * unit) sample_alert alert_world)
    as [r w'] eqn:E.
  assert (no_error r = true) as H by (change r with (fst (r, w')); rewrite <- E; compute_it).
  destruct r as [[rec [err|]]|err]; [discriminate H| |discriminate H].
  exists rec. split; [reflexivity|].
  destruct (SendAlert_recorded sample_alert alert_world rec None w' E) as [F _]. exact F.
Defined.

(** ** An approval *)

(** The queue counts the operations run on it; a snapshot shows the count. *)
#[export] Instance counting_operator : QueueOperator nat := {
  op_snapshot q s := (Ok {| sn_active := s; sn_deferred := 0; sn_held := 0; sn_total := s; sn_digest := q |}, s);
  op_flush s := (Ok tt, S s);
  op_retry q s := (Ok tt, S s);
}.
#[export] Instance counting_reads : SnapshotReads counting_operator.
Proof. by split. Qed.
#[export] Instance accepting_prompter : PromptSender nat := { send_prompt p s := (Ok true, s) }.
#[export] Instance fixed_summary : CommandProvider nat := { Summary c s := (Ok "queue: empty", s) }.
#[export] Instance fixed_summary_reads : CommandReads fixed_summary.
Proof. by split. Qed.

Definition operator_identity : TransportActor :=
  {| ta_transport := " Telegram "; ta_external_id := "chat:5:user:7" |}.
Definition operator_actor : Actor :=
  {| a_type := "api_token"; a_id := "ops"; a_mailbox := ""; a_scopes := ["queue:flush"];
     a_groups := []; a_roles := [] |}.
Definition operator_mapping : ActorMapping :=
  {| am_transport_actor := operator_identity; am_actor := operator_actor |}.
Definition plain_authorizer : StaticAuthorizer := {| sa_mappings := [] |}.

Definition access_world (d : DB) (k : N) (now : Z) (n : nat) : World nat :=
  {| w_db := d; w_outcomes := []; w_clock := repeat now 20;
     w_entropy := map (fun i => repeat (k + N.of_nat i)%N 16) (seq 0 8); w_ext := n |}.

Definition mapped_db : DB := Eval vm_compute in w_db (Put operator_mapping (access_world empty_db 0 5 0)).2.

Lemma Put_Map_witness :
  exists w : World nat, Map {| ta_transport := "telegram"; ta_external_id := "chat:5:user:7" |} w
            = (Ok (Some operator_actor), w).
Proof.
  destruct (run_ok (Put operator_mapping) (access_world empty_db 0 5 0) ltac:(compute_it)) as [[[] w'] E].
  cbn [fst snd] in E.
  assert (w_db w' = mapped_db) as D.
  { change w' with (snd (Ok tt : result unit, w')). rewrite <- E. compute_it. }
  set (w2 := access_world mapped_db 0 9 0).
  destruct (Map {| ta_transport := "telegram"; ta_external_id := "chat:5:user:7" |} w2) as [r w3] eqn:F.
  assert (is_ok r = true) as Hr.
  { change r with (fst (r, w3)). rewrite <- F. compute_it. }
  assert (w3 = w2) as -> by (change w3 with (snd (r, w3)); rewrite <- F; compute_it).
  destruct r as [r|]; [|done]. exists w2. rewrite F.
  destruct (Put_Map operator_mapping _ _ w2 _ _ _ E ltac:(compute_it) (eq_sym D) F) as [H _].
  by rewrite (H ltac:(compute_it)).
Defined.

Lemma ReplaceTelegram_exact_witness :
  mappings (w_db (ReplaceTelegram [] (access_world mapped_db 0 5 0)).2)
    !! ("telegram", "chat:5:user:7") = None.
Proof.
  destruct (ReplaceTelegram [] (access_world mapped_db 0 5 0)) as [r w'] eqn:E.
  destruct (ReplaceTelegram_exact [] _ r w' E) as [H|(_ & _ & H & _)].
  - exfalso. assert (size (mappings (w_db w')) = 0) as Hz.
    { change w' with (snd (r, w')). rewrite <- E. compute_it. }
    rewrite H in Hz. revert Hz. vm_compute. discriminate.
  - apply H. apply not_elem_of_nil.
Defined.

Definition flush_request : TelegramApprovalRequest :=
  {| tr_transport_actor := operator_identity; tr_initiator := manager; tr_action := "queue:flush";
     tr_resource := {| r_type := "queue"; r_id := "default" |}; tr_correlation_id := "c 9";
     tr_expires_at := 1000; tr_title := "Flush"; tr_summary := "Flush the queue" |}.

Definition prompted_world : World nat := access_world mapped_db 40 10 3.
Definition prompted_db : DB := Eval vm_compute in
  w_db (RequestTelegramApproval plain_authorizer flush_request prompted_world).2.
Definition prompted_id : string := Eval vm_compute in
  match (RequestTelegramApproval plain_authorizer flush_request prompted_world).1 with
  | Ok r => rq_id r
  | Err _ => ""
  end.
Definition prompted_token : string := Eval vm_compute in raw_url_encode (repeat 41%N 16).

Lemma RequestTelegramApproval_prompted_witness :
  permitted plain_authorizer operator_actor "queue:flush" (tr_resource flush_request).
Proof.
  destruct (RequestTelegramApproval plain_authorizer flush_request prompted_world) as [r w'] eqn:E.
  assert (is_ok r = true) as Hr by (change r with (fst (r, w')); rewrite <- E; compute_it).
  destruct r as [r|err]; [|discriminate Hr].
  destruct (RequestTelegramApproval_prompted plain_authorizer flush_request _ _ _ E)
    as (actor & _ & _ & _ & HM & _ & _ & H & _).
  assert (mapped_actor (w_db prompted_world) (tr_transport_actor flush_request) = Some operator_actor) as HO
    by compute_it.
  rewrite HO in HM. injection HM as <-. exact H.
Defined.

(** *** The store *)

Definition flush_confirmation (now : Z) : ApprovalConfirmation :=
  {| cf_id := prompted_id; cf_transport_actor := operator_identity; cf_actor := operator_actor;
     cf_action := "queue:flush"; cf_resource := {| r_type := "queue"; r_id := "default" |};
     cf_request_hash := match approvals prompted_db !! prompted_id with
                        | Some row => ap_request_hash row | None => "" end;
     cf_binding_token := prompted_token; cf_now := now |}.

Definition prompted_row : ApprovalRow := Eval vm_compute in
  match approvals prompted_db !! prompted_id with
  | Some row => row
  | None => request_row (row_request "" {| ap_transport := ""; ap_external_actor_id := "";
      ap_actor_type := ""; ap_actor_id := ""; ap_action := ""; ap_resource_type := "";
      ap_resource_id := ""; ap_request_hash := ""; ap_binding_hash := ""; ap_correlation_id := "";
      ap_expires_at := 0; ap_used_at := None; ap_started_at := None; ap_attempts := 0;
      ap_error_code := None; ap_result := ""; ap_created_at := 0; ap_updated_at := 0 |})
  end.

Lemma Claim_accepts_witness :
  exists r' w', Claim (flush_confirmation 20) 60 (access_world prompted_db 80 20 3) = (Ok r', w')
    /\ rq_result r' = "executing".
Proof.
  destruct (Claim_accepts (flush_confirmation 20) 60 (access_world prompted_db 80 20 3) prompted_row)
    as (r' & w' & E & _ & R & _); [exact (Forall_nil_2 _)|compute_it|compute_it|compute_it|compute_it|compute_it|compute_it|].
  exists r', w'. split; [exact E|exact R].
Defined.

Definition created_request : ApprovalRequest :=
  new_request flush_request operator_actor (request_hash "queue:flush" (tr_resource flush_request)
    {| sn_active := 3; sn_deferred := 0; sn_held := 0; sn_total := 3; sn_digest := "" |}).

Lemma Claim_needs_token_witness :
  exists r, (Create created_request 10 prompted_world).1 = Ok r /\ rq_binding_token r = prompted_token.
Proof.
  destruct (Create created_request 10 prompted_world) as [r w1] eqn:E.
  assert (is_ok r = true) as Hr by (change r with (fst (r, w1)); rewrite <- E; compute_it).
  destruct r as [r|err]; [|discriminate Hr].
  exists r. split; [reflexivity|].
  set (l := [do_activate prompted_id 11]).
  destruct (Claim (flush_confirmation 20) 60 (run_ops l w1)) as [c w2] eqn:F.
  assert (is_ok c = true) as Hc.
  { change c with (fst (c, w2)). rewrite <- F. change w1 with (snd (Ok r, w1)). rewrite <- E. compute_it. }
  destruct c as [c|err]; [|discriminate Hc].
  assert (rq_id r = prompted_id) as Hid.
  { assert (Ok (rq_id r) = Ok (A := string) prompted_id) as Q; [|by injection Q].
    change (Ok (rq_id r)) with (rbind (fst (Ok r, w1)) (fun r => Ok (rq_id r))). rewrite <- E. compute_it. }
  destruct (Claim_needs_token created_request 10 prompted_world r w1 l (flush_confirmation 20) 60 c w2
    E (eq_sym Hid) F) as (_ & _ & _ & _ & _ & _ & _ & H).
  destruct H as [H|[H _]]; [symmetry; exact H|]. exfalso. apply H.
  assert (Ok (rq_binding_token r) = Ok (A := string) prompted_token) as Q; [|by injection Q].
  change (Ok (rq_binding_token r)) with (rbind (fst (Ok r, w1)) (fun r => Ok (rq_binding_token r))).
  rewrite <- E. compute_it.
Defined.

(** *** The executor *)

Definition sample_executor : ApprovalExecutor :=
  {| ex_authorizer := plain_authorizer; ex_queue := true; ex_lease := 0; ex_after_mutation := None |}.
Definition live_world : World nat := access_world prompted_db 80 20 3.
Definition execute_flush : World nat -> result answer * World nat :=
  ExecuteTelegramApproval sample_executor prompted_id prompted_token operator_identity.

Example flush_executed_once :
  w_ext (execute_flush live_world).2 = 4
  /\ w_ext (execute_flush (execute_flush live_world).2).2 = 4
  /\ w_ext (ExecuteTelegramApproval sample_executor prompted_id "AAAAAAAAAAAAAAAAAAAAAA"
              operator_identity live_world).2 = 3
  /\ w_ext (execute_flush (access_world prompted_db 80 20 5)).2 = 5.
Proof. split_and!; compute_it. Qed.

Lemma ExecuteTelegramApproval_guarded_witness :
  exists row, approvals (w_db live_world) !! prompted_id = Some row /\ ap_used_at row = None.
Proof.
  destruct (ExecuteTelegramApproval_guarded sample_executor prompted_id prompted_token operator_identity
    live_world) as (row & actor & now & G).
  - assert (w_ext (execute_flush live_world).2 = 4) as H by compute_it.
    unfold execute_flush in H. rewrite H. discriminate.
  - exists row. split; [exact (gd_row _ _ _ _ _ _ _ _ _ _ G)|exact (gd_unused _ _ _ _ _ _ _ _ _ _ G)].
Defined.

Lemma ExecuteTelegramApproval_needs_token_witness :
  exists r, (Create created_request 10 prompted_world).1 = Ok r /\ rq_binding_token r = prompted_token.
Proof.
  destruct (Create created_request 10 prompted_world) as [r w1] eqn:E.
  assert (is_ok r = true) as Hr by (change r with (fst (r, w1)); rewrite <- E; compute_it).
  destruct r as [r|err]; [|discriminate Hr].
  exists r. split; [reflexivity|].
  assert (Ok (rq_id r) = Ok (A := string) prompted_id) as Hid.
  { change (Ok (rq_id r)) with (rbind (fst (Ok r, w1)) (fun r => Ok (rq_id r))). rewrite <- E. compute_it. }
  injection Hid as Hid.
  destruct (ExecuteTelegramApproval_needs_token created_request 10 prompted_world r w1
    [do_activate prompted_id 11] sample_executor prompted_token operator_identity E) as (_ & H & _).
  - rewrite Hid.
    assert (w_ext (ExecuteTelegramApproval sample_executor prompted_id prompted_token operator_identity
      (run_ops [do_activate prompted_id 11] (Create created_request 10 prompted_world).2)).2 = 4) as H
      by compute_it.
    assert (w_ext (run_ops [do_activate prompted_id 11] (Create created_request 10 prompted_world).2) = 3)
      as H0 by compute_it.
    rewrite E in H, H0. cbn [snd] in H, H0. rewrite H, H0. discriminate.
  - destruct H as [H|[H _]]; [symmetry; exact H|]. exfalso. apply H.
    assert (Ok (rq_binding_token r) = Ok (A := string) prompted_token) as Q; [|by injection Q].
    change (Ok (rq_binding_token r)) with (rbind (fst (Ok r, w1)) (fun r => Ok (rq_binding_token r))).
    rewrite <- E. compute_it.
Defined.

Lemma ExecuteTelegramApproval_once_witness :
  w_ext (execute_flush (execute_flush live_world).2).2 = w_ext (execute_flush live_world).2.
Proof.
  unfold execute_flush.
  destruct (ExecuteTelegramApproval sample_executor prompted_id prompted_token operator_identity
    live_world) as [r w'] eqn:E.
  assert (no_error r = true) as H by (change r with (fst (r, w')); rewrite <- E; compute_it).
  destruct r as [[res [err|]]|err]; [discriminate H| |discriminate H].
  destruct (ExecuteTelegramApproval_once sample_executor prompted_id prompted_token operator_identity
    live_world res w' [] sample_executor prompted_token operator_identity E) as (_ & _ & F).
  exact F.
Defined.

Lemma approval_one_time_witness :
  is_ok (Claim (flush_confirmation 30) 1
    (run_ops [do_retry prompted_id 30 "x"] (execute_flush live_world).2)).1 = false.
Proof.
  pose (row := default prompted_row (approvals (w_db (execute_flush live_world).2) !! prompted_id)).
  destruct (approval_one_time [do_retry prompted_id 30 "x"] (execute_flush live_world).2 prompted_id row
    (flush_confirmation 30) 1) as [_ H].
  - compute_it.
  - unfold over. assert (ap_result row = "approved") as -> by compute_it. by left.
  - reflexivity.
  - destruct (Claim _ _ _) as [[r'|err] w']; [|reflexivity]. exfalso. exact (H r' w' eq_refl).
Defined.

(** *** The webhook *)

Definition sample_receiver : TelegramReceiver :=
  {| tv_authorizer := plain_authorizer; tv_executor := Some sample_executor; tv_updates := true |}.
Definition webhook_secret : string := "webhook-secret".
Definition callback_body : string := print_json (VObj
  [("update_id", VNum "77");
   ("callback_query", VObj
      [("id", VStr "cb1"); ("from", VObj [("id", VNum "7")]);
       ("message", VObj [("message_id", VNum "1"); ("from", VObj [("id", VNum "1")]);
                         ("chat", VObj [("id", VNum "5")]); ("text", VStr "")]);
       ("data", VStr ("gm:a:" +:+ prompted_id +:+ ":" +:+ prompted_token))])]).

Example webhook_answers :
  let post secret := HandlerWithSecret sample_receiver webhook_secret MethodPost secret callback_body in
  map (fun o => (Http.rs_status o.1, w_ext o.2))
    (map (fun o => (match o.1 with Ok h => h | Err _ => reply 0 "" end, o.2))
       [post webhook_secret live_world; post "" live_world;
        post webhook_secret (post webhook_secret live_world).2])
  = [(200%Z, 4); (401%Z, 3); (200%Z, 4)].
Proof. compute_it. Qed.

Lemma HandlerWithSecret_guarded_witness :
  exists update, decode_update callback_body = Some update.
Proof.
  destruct (HandlerWithSecret_guarded sample_receiver webhook_secret MethodPost webhook_secret
    callback_body live_world) as (_ & _ & _ & update & cb & id & token & e & row & actor & now & H & _).
  - assert (w_ext (HandlerWithSecret sample_receiver webhook_secret MethodPost webhook_secret
      callback_body live_world).2 = 4) as H by compute_it.
    rewrite H. discriminate.
  - exists update. exact H.
Defined.

Definition process_update : World nat -> result handled * World nat :=
  ProcessOnce 77 (mret (reply_to "5" "approval accepted", None)).

Lemma update_processed_once_witness :
  exists w, updates (w_db w) <> ∅ /\ w_ext (ProcessOnce 77 (fun w => (Err "", set_ext 9 w)) w).2 = w_ext w.
Proof.
  destruct (process_update live_world) as [r w'] eqn:E.
  assert (is_ok r = true) as H by (change r with (fst (r, w')); rewrite <- E; compute_it).
  destruct r as [out|err]; [|discriminate H].
  exists w'. split.
  - intros Q. assert (size (updates (w_db (process_update live_world).2)) = 1) as S by compute_it.
    rewrite E in S. cbn [snd] in S. rewrite Q in S. discriminate S.
  - destruct (update_processed_once 77 (mret (reply_to "5" "approval accepted", None)) live_world out w'
      (fun w => (Err "", set_ext 9 w)) w' E eq_refl) as (_ & F & _). exact F.
Defined.
