(* ===== verification/IdentityWitnesses.v ===== *)
(** * The identity service, run

    A provisioner writes a mailbox, gives it an application password, logs in
    with it through the daemon, and revokes it; and a second mailbox whose
    address is not canonical takes over the login of the first. *)

From stdpp Require Import base list gmap sets strings relations.
From Stdlib Require Import ZArith Lia Ascii.
From S2P Require Import Prelude GoStd Json JsonText JsonStruct Sha256 Sha1 Policy Sample Queue AuditLog Database Relay Daemon Verifier Lookup Tokens Authz Regex Approval Executor Telegram Identity IdentityFacts IdentitySafety Witnesses GateWitnesses DaemonWitnesses AccessWitnesses.
Import authz identity.

(** ** A history *)

Definition provisioner : Actor :=
  {| a_type := "api_token"; a_id := "scim"; a_mailbox := "";
     a_scopes := ["mailbox:provision"; "mailbox:app_password.create"; "mailbox:app_password.revoke"];
     a_groups := []; a_roles := [] |}.
Definition empty_identity : Service := NewService plain_authorizer ["example.org"] ToLower.

Definition identity_world (d : DB) (st : Service) (k : N) : World Service :=
  {| w_db := d; w_outcomes := []; w_clock := repeat 30%Z 20;
     w_entropy := map (fun i => repeat (k + N.of_nat i)%N 24) (seq 0 8); w_ext := st |}.

Definition bound_world : World Service := identity_world empty_db (BindDaemon sample_service empty_identity) 10.
Definition alice_user : Mailbox :=
  {| im_id := ""; im_email := "Alice@example.org"; im_display_name := "Alice"; im_active := true;
     im_verifier := ""; im_created_at := 0; im_updated_at := 0 |}.
Definition alice_world : World Service := (CreateOrReplaceUser provisioner alice_user "long password" bound_world).2.
Definition phone_world : World Service := (CreateAppPassword provisioner "Alice@example.org" "phone" alice_world).2.
Definition phone_id : string := "app_Dg4ODg4ODg4ODg4O".
Definition phone_secret : string := "DAwMDAwMDAwMDAwMDAwMDAwMDAwMDAwM".
Definition revoked_world : World Service := (RevokeAppPassword provisioner "alice@example.org" phone_id phone_world).2.

Example phone_created :
  is_passwords (w_ext phone_world) !! phone_id <> None
  /\ map (VerifyDovecot (w_ext phone_world) "ALICE@example.org") [phone_secret; "long password"; "wrong"]
     = [true; true; false]
  /\ map (VerifyDovecot (w_ext revoked_world) "ALICE@example.org") [phone_secret; "long password"; "wrong"]
     = [false; true; false].
Proof. split_and!; [|compute_it..]. intros H. vm_compute in H. discriminate H. Qed.

Lemma sample_service_canonical : canonical_service sample_service.
Proof. split; intros k x H; unfold sample_service in H; cbn in H; by rewrite lookup_empty in H. Qed.

Lemma bound_sound : sound_world bound_world.
Proof.
  assert (w_ext bound_world = put is_daemon (Some sample_service) empty_identity) as E by done.
  split; [|intros id p H; rewrite E in H; cbn in H; by rewrite lookup_empty in H].
  rewrite E. split.
  - intros k m H. cbn in H. by rewrite lookup_empty in H.
  - intros k m H. cbn in H. by rewrite lookup_empty in H.
  - intros _ k. apply (Nat.le_0_l 8).
  - intros sv [= <-]. split; [apply sample_service_canonical| |].
    + intros k m H. cbn in H. by rewrite lookup_empty in H.
    + intros k. cbn. by rewrite lookup_empty.
Qed.

(** The parser of these runs takes an address for itself or not at all. *)
Lemma parse_itself email a : ParseAddress email = Some a -> a = email.
Proof. cbn. destruct (ParseAddressExact email); [by intros [= <-]|done]. Qed.

Lemma alice_canonical : canonical_email (im_email alice_user).
Proof. apply plain_canonical; [compute_it|]. intros a. apply parse_itself. Qed.

Lemma alice_step : identity_step true bound_world alice_world.
Proof. apply step_user. exact alice_canonical. Qed.
Lemma phone_step : identity_step true alice_world phone_world.
Proof. apply step_create. Qed.
Lemma revoked_world_step : identity_step true phone_world revoked_world.
Proof. apply step_revoke. Qed.

Lemma alice_sound : sound_world alice_world.
Proof. exact (kept_step true _ _ bound_sound alice_step). Qed.
Lemma phone_sound : sound_world phone_world.
Proof. exact (kept_step true _ _ alice_sound phone_step). Qed.

Lemma to_phone : rtc (identity_step true) bound_world phone_world.
Proof. apply (rtc_l _ _ alice_world _ alice_step). apply rtc_once. exact phone_step. Qed.

(** ** Witnesses *)

Lemma identity_invariant_witness :
  consistent (w_ext revoked_world) /\ activeAppPasswordCount (w_ext phone_world) "alice@example.org" = 1.
Proof.
  split; [|compute_it].
  apply (identity_invariant true bound_world revoked_world bound_sound).
  apply (rtc_r _ phone_world _ to_phone revoked_world_step).
Defined.

Lemma BindDaemon_projects_witness : consistent (BindDaemon sample_service (w_ext phone_world)).
Proof.
  apply (BindDaemon_projects (w_ext phone_world) sample_service).
  - exact (sound_in_order phone_world phone_sound).
  - exact sample_service_canonical.
  - reflexivity.
Defined.

Definition phone_login : PassdbRequest :=
  {| pd_username := "Alice@example.org"; pd_secret := phone_secret; pd_protocol := "imap" |}.

Definition bound_daemon (w : World Service) : Daemon.Service := default sample_service (is_daemon (w_ext w)).
Lemma phone_bound : is_daemon (w_ext phone_world) = Some (bound_daemon phone_world).
Proof.
  assert (is_Some (is_daemon (w_ext phone_world))) as [sv E] by by vm_compute; eexists.
  unfold bound_daemon. by rewrite E.
Qed.
Lemma revoked_bound : is_daemon (w_ext revoked_world) = Some (bound_daemon revoked_world).
Proof.
  assert (is_Some (is_daemon (w_ext revoked_world))) as [sv E] by by vm_compute; eexists.
  unfold bound_daemon. by rewrite E.
Qed.

Lemma Dovecot_agrees_witness :
  VerifyDovecot (w_ext phone_world) "alice@example.org" phone_secret = true.
Proof.
  destruct (Dovecot_agrees bound_world phone_world (bound_daemon phone_world) "c" phone_login phone_world
    bound_sound to_phone phone_bound)
    as [V _]; [apply (bool_decide_unpack _); vm_compute; exact I|].
  assert (right_secret (rp_reason (DovecotPassdb (bound_daemon phone_world) "c" phone_login phone_world).1)) as R
    by (left; compute_it).
  apply V in R as (_ & _ & _ & R). exact R.
Defined.

Lemma created_password_accepted_witness :
  exists out w', CreateAppPassword provisioner "Alice@example.org" "phone" alice_world = (Ok out, w')
    /\ oidc_secret (pc_secret_once out) = false
    /\ exists m, VerifyDovecot (w_ext w') (ToLower "Alice@example.org") (pc_secret_once out) = im_active m.
Proof.
  destruct (CreateAppPassword provisioner "Alice@example.org" "phone" alice_world) as [r w'] eqn:E.
  assert (is_ok r = true) as Hr by (change r with (fst (r, w')); rewrite <- E; compute_it).
  destruct r as [out|e]; [|discriminate Hr]. exists out, w'. split; [reflexivity|].
  destruct (created_password_accepted _ _ _ _ _ _ alice_sound E) as (_ & _ & _ & _ & _ & _ & _ & Ho & m & _ & V).
  split; [exact Ho|exists m; exact V].
Defined.

Lemma revocation_final_witness : revoked (w_ext revoked_world) phone_id.
Proof.
  assert (exists u, RevokeAppPassword provisioner "alice@example.org" phone_id phone_world = (Ok u, revoked_world))
    as [u E].
  { unfold revoked_world. destruct (RevokeAppPassword _ _ _ phone_world) as [r w'] eqn:E.
    assert (is_ok r = true) as Hr by (change r with (fst (r, w')); rewrite <- E; compute_it).
    destruct r as [u|e]; [|discriminate Hr]. by exists u. }
  destruct (revocation_final true provisioner "alice@example.org" phone_id phone_world u revoked_world revoked_world
    phone_sound E (rtc_refl _ _)) as (_ & _ & R & _). exact R.
Defined.

(** ** A twin address *)

(** A no-break space (U+00A0) before bob's address: net/mail takes it for a
    part of the local part, [strings.TrimSpace] for a space. *)
Definition bob_address : string := "bob@example.org".
Definition twin_address : string :=
  String (Ascii.ascii_of_N 194) (String (Ascii.ascii_of_N 160) bob_address).

Definition user_of (email : string) : Mailbox :=
  {| im_id := ""; im_email := email; im_display_name := ""; im_active := true;
     im_verifier := ""; im_created_at := 0; im_updated_at := 0 |}.
Definition bob_world : World Service :=
  (CreateOrReplaceUser provisioner (user_of bob_address) "the password of bob" bound_world).2.
Definition twin_world : World Service :=
  (CreateOrReplaceUser provisioner (user_of twin_address) "another password" bob_world).2.

Definition bob_login (password : string) : PassdbRequest :=
  {| pd_username := bob_address; pd_secret := password; pd_protocol := "imap" |}.
Definition bob_reason (w : World Service) (password : string) : string :=
  rp_reason (DovecotPassdb (bound_daemon w) "c" (bob_login password) w).1.

(** Whoever has the twin's password logs in as bob, and bob no longer does;
    the service itself still tells the two apart. *)
Example twin_logs_in_as_bob :
  (map (bob_reason bob_world) ["the password of bob"; "another password"],
   map (bob_reason twin_world) ["the password of bob"; "another password"],
   map (VerifyDovecot (w_ext twin_world) bob_address) ["the password of bob"; "another password"])
  = (["passdb_authenticated"; "invalid_secret"], ["invalid_secret"; "passdb_authenticated"], [true; false]).
Proof. compute_it. Qed.

Lemma bob_step : identity_step true bound_world bob_world.
Proof. apply step_user. apply plain_canonical; [compute_it|]. intros a. apply parse_itself. Qed.
Lemma bob_sound : sound_world bob_world.
Proof. exact (kept_step true _ _ bound_sound bob_step). Qed.

