(* ===== verification/ScimWitnesses.v ===== *)
(** * SCIM transactions, run

    A user is created, replaced and deleted; a second writer of the same
    version is refused. *)

From stdpp Require Import base list gmap sets strings relations.
From Stdlib Require Import ZArith Lia Ascii.
From S2P Require Import Prelude GoStd Json JsonText JsonStruct Sha256 Sha1 Policy Sample Queue AuditLog Database Relay Daemon Verifier Lookup Tokens Authz Regex Approval Executor Telegram Identity IdentityFacts IdentitySafety Scim ScimFacts ScimProjection Witnesses GateWitnesses DaemonWitnesses AccessWitnesses IdentityWitnesses.
Import authz identity scim.

#[export] Instance sample_codec : ScimCodec := {
  DecodeDocument s := match parse_json s with
                      | Some (VObj fields) => Some (list_to_map (rev fields))
                      | _ => None
                      end;
  document_json _ := JObj [];
}.

Definition scim_client : Actor :=
  {| a_type := "scim_client"; a_id := "authentik"; a_mailbox := ""; a_scopes := ["mailbox:provision"];
     a_groups := []; a_roles := [] |}.
Definition scim_metadata : RequestMetadata :=
  {| md_actor := scim_client; md_correlation_id := "c1"; md_source_ip := ""; md_user_agent := "" |}.

Definition q (s : string) : string := String "034" (s +:+ String "034" "").
Definition user_data (active : string) : string :=
  "{" +:+ q "userName" +:+ ":" +:+ q "Bob@example.org" +:+ "," +:+ q "active" +:+ ":" +:+ active +:+ "}".

Definition bob (version active : string) : ScimRecord :=
  {| sr_scope := "main"; sr_type := "User"; sr_id := "u-1"; sr_external_id := "bob-sub"; sr_manager := "authentik";
     sr_version := version; sr_credential_version := ""; sr_created := 40; sr_modified := 41;
     sr_data := user_data active;
     sr_indexes := [{| ik_name := "username"; ik_value := "bob@example.org"; ik_case_exact := false;
                       ik_unique := true |}] |}.
Definition bob_tombstone (version : string) : Tombstone :=
  {| tm_scope := "main"; tm_type := "User"; tm_id := "u-1"; tm_external_id := "bob-sub"; tm_manager := "authentik";
     tm_version := version; tm_deleted := 50 |}.

Definition no_transaction : Transaction :=
  {| tx_metadata := scim_metadata; tx_passwords := ∅; tx_project := []; tx_adoption := None; tx_aborted := false |}.
Definition scim_world : World SQLStore :=
  {| w_db := empty_db; w_outcomes := []; w_clock := [60%Z];
     w_entropy := map (fun i => repeat (70 + N.of_nat i)%N 16) (seq 0 8);
     w_ext := {| ss_identity := Some (w_ext bound_world); ss_tx := no_transaction |} |}.

(** A password first, then the user it is for. *)
Definition create_bob : Callback :=
  perform_then (call_password "main" "User" "u-1" "bob's long password") (fun _ =>
    one_call (call_create (bob "v1" "true"))).
Definition created_world : World SQLStore := (Transact scim_metadata None create_bob scim_world).2.
Definition deleted_world : World SQLStore :=
  (Transact scim_metadata None (one_call (call_delete "main" "User" "u-1" "v1" (bob_tombstone "v1"))) created_world).2.
Definition scim_service (w : World SQLStore) : Service := default (w_ext bound_world) (ss_identity (w_ext w)).

(** Bob logs in while the user lives; afterwards neither the identifier nor
    the subject can be used again, and what a callback ignores is not
    committed. *)
Example bob_lives_and_dies :
  map (fun w => VerifyDovecot (scim_service w) "bob@example.org" "bob's long password")
    [scim_world; created_world; deleted_world] = [false; true; false]
  /\ (Transact scim_metadata None (one_call (call_create (bob "v9" "true"))) deleted_world).1 = Err ErrTombstoned
  /\ (Transact scim_metadata None (one_call (call_create (bob "v9" "true"))) created_world).1 = Err ErrConflict
  /\ (Transact scim_metadata None (one_call (call_replace (bob "v2" "false") "v0")) created_world).1
     = Err ErrPrecondition
  /\ (Transact scim_metadata None (perform_then (call_create (bob "v9" "true")) (fun _ => finish (Ok tt)))
        created_world).1 = Err "pq: Could not complete operation in a failed transaction".
Proof. split_and!; compute_it. Qed.

Lemma empty_scim_wf : scim_wf (w_db scim_world).
Proof.
  split.
  - intros id [t H]. unfold tombstones in H. cbn in H. by rewrite lookup_empty in H.
  - intros id folded i H. unfold indexes in H. cbn in H. by rewrite lookup_empty in H.
  - intros k1 i1 k2 i2 H. unfold indexes in H. cbn in H. by rewrite lookup_empty in H.
  - intros s g u H. unfold members in H. cbn in H. by apply not_elem_of_empty in H.
Qed.

Lemma scim_invariant_witness : scim_wf (w_db deleted_world).
Proof.
  destruct (scim_invariant scim_world deleted_world empty_scim_wf) as (W & _ & _); [|exact W].
  apply (rtc_l _ _ created_world); [apply call_transact|]. apply rtc_once. apply call_transact.
Defined.

Lemma Replace_conditional_witness :
  exists row, select_resource "main" "User" "u-1" (w_db created_world) = Some row /\ sm_version row = "v1".
Proof.
  destruct (Replace (bob "v2" "false") "v1" created_world) as [r w1] eqn:E.
  assert (is_ok r = true) as Hr by (change r with (fst (r, w1)); rewrite <- E; compute_it).
  destruct r as [u|e]; [|discriminate Hr].
  destruct (Replace_conditional _ _ _ _ _ E) as [(row & H1 & _ & H2 & _) _]. exists row. split; [exact H1|exact H2].
Defined.

Lemma Transact_all_or_nothing_witness :
  w_db (Transact scim_metadata None (one_call (call_replace (bob "v2" "false") "v0")) created_world).2
  = w_db created_world.
Proof.
  destruct (Transact scim_metadata None (one_call (call_replace (bob "v2" "false") "v0")) created_world)
    as [r w'] eqn:E.
  assert (r = Err ErrPrecondition) as Hr by (change r with (fst (r, w')); rewrite <- E; compute_it).
  pose proof (Transact_all_or_nothing _ _ _ _ _ _ E) as H. rewrite Hr in H. cbn iota beta in H.
  destruct H as [_ [H|[H _]]]; [exact H|discriminate H].
Defined.

Lemma delete_deprovisions_witness :
  exists st, ss_identity (w_ext deleted_world) = Some st /\ VerifyDovecot st "bob@example.org" "bob's long password" = false.
Proof.
  assert (is_Some (ss_identity (w_ext created_world))) as [st Hst] by by vm_compute; eexists.
  assert (exists u, Transact scim_metadata None (one_call (call_delete "main" "User" "u-1" "v1" (bob_tombstone "v1")))
    created_world = (Ok u, deleted_world)) as [u E].
  { unfold deleted_world. destruct (Transact _ None _ created_world) as [r w'] eqn:E.
    assert (is_ok r = true) as Hr by (change r with (fst (r, w')); rewrite <- E; compute_it).
    destruct r as [u|e]; [|discriminate Hr]. by exists u. }
  destruct (delete_deprovisions _ _ _ _ _ _ _ _ st Hst E) as (_ & row & document & st' & H1 & _ & _ & H2 & H3 & _ & H4).
  exists st'. split; [exact H3|].
  assert (string_of (document !! "userName") = "Bob@example.org") as Hu.
  { assert (sm_data <$> select_resource "main" "User" "u-1" (w_db created_world) = Some (user_data "true")) as Hd
      by compute_it.
    rewrite H1 in Hd. injection Hd as Hd. rewrite Hd in H2.
    assert ((fun d : gmap string jval => string_of (d !! "userName")) <$> DecodeDocument (user_data "true")
      = Some "Bob@example.org") as Hs by compute_it.
    rewrite H2 in Hs. by injection Hs. }
  specialize (H4 "bob's long password"). rewrite Hu in H4. exact H4.
Defined.

(** ** Bob's documents are canonical *)

Lemma empty_canonical_store : canonical_store (w_db scim_world).
Proof.
  split.
  - intros k m H. cbn in H. by rewrite lookup_empty in H.
  - intros k m a H. cbn in H. by rewrite lookup_empty in H.
  - intros id row H. unfold resources in H. cbn in H. by rewrite lookup_empty in H.
Qed.

Lemma bob_name_canonical : canonical_name "Bob@example.org".
Proof. split; [reflexivity|]. split; [by split|right; reflexivity]. Qed.

Lemma bob_canonical version active : In active ["true"; "false"] -> canonical_record (bob version active).
Proof.
  intros H _ document Hd.
  assert (string_of (document !! "userName") = "Bob@example.org") as ->; [|exact bob_name_canonical].
  destruct H as [<-|[<-|[]]];
    (assert ((fun d : gmap string jval => string_of (d !! "userName")) <$> Some document = Some "Bob@example.org") as Hs
       by (rewrite <- Hd; compute_it));
    by injection Hs.
Qed.

Lemma bound_in_step : in_step false (w_ext bound_world).
Proof. destruct bound_sound as [[K P _ D] _]. by split. Qed.

(** The store that creates Bob leaves a service whose daemon is its
    projection. *)
Lemma Transact_in_step_witness :
  exists st, ss_identity (w_ext created_world) = Some st /\ in_step false st
    /\ VerifyDovecot st "bob@example.org" "bob's long password" = true.
Proof.
  destruct (Transact scim_metadata None create_bob scim_world) as [r w'] eqn:E.
  assert (created_world = w') as Hw by (unfold created_world; by rewrite E).
  destruct (Transact_in_step scim_metadata None create_bob scim_world r w' (w_ext bound_world)
    empty_canonical_store) as (_ & st & Hst & Hin); [|done|exact bound_in_step|exact E|].
  - split; [exact I|]. intros ?. split; [apply bob_canonical; by left|done].
  - rewrite Hw. exists st. split_and!; [exact Hst|exact Hin|].
    assert (VerifyDovecot (scim_service created_world) "bob@example.org" "bob's long password" = true) as V by compute_it.
    unfold scim_service in V. rewrite Hw, Hst in V. exact V.
Defined.
