(* ===== verification/AuthnWitnesses.v ===== *)
(** * Logins, sessions and roles, run

    Carol, whom SCIM provisioned, logs in beside a second callback of the same
    state; bob is deleted; alice is made an administrator and stops being one. *)

From stdpp Require Import base list gmap sets strings relations.
From Stdlib Require Import ZArith Lia Ascii.
From S2P Require Import Prelude GoStd Json JsonText JsonStruct Sha256 Sha1 Policy Sample Queue AuditLog Database QueueStore Admin PlanDigest Postfix Remote Http Helper Relay Daemon Verifier Lookup LookupRoutes Tokens Authz Regex Approval Executor Telegram Identity IdentityFacts IdentitySafety Scim ScimFacts Authn AuthnSafety AuthnSessions RoleBinding RoleBindingSafety IdentityApi SessionAuthority Witnesses GateWitnesses DaemonWitnesses AccessWitnesses IdentityWitnesses ScimWitnesses.
Import authz identity authn.
#[local] Existing Instances M_ret M_bind.

(** Local paths and https URLs. *)
#[export] Instance oidc_urls : UrlParser := {
  url_parse s :=
    if HasPrefix s "/" then
      Some {| url_scheme := ""; url_host := ""; url_user := false; url_path := s; url_raw_query := "";
              url_fragment := ""; url_text := s |}
    else
      rest ← strip "https://" s;
      let '(base, query) := default (rest, "") (SplitFirstByte "?" rest) in
      '(host, path) ← SplitFirstByte "/" base;
      Some {| url_scheme := "https"; url_host := host; url_user := false; url_path := "/" +:+ path;
              url_raw_query := query; url_fragment := ""; url_text := s |};
}.

Fixpoint repeat_char (n : nat) (c : ascii) : string :=
  match n with O => "" | S n => String c (repeat_char n c) end.

Definition carol_identity : VerifiedIdentity :=
  {| vi_issuer := "https://idp.example/application/o/gotth-mail/"; vi_subject := "carol-sub";
     vi_display_name := "Carol"; vi_email := Some "Carol@Example.org" |}.

(** A provider that knows carol; [note] keeps the record of exchanges. *)
Definition idp {PS} (note : string -> PS -> PS) : OIDCClient PS :=
  {| AuthorizationResponse := string;
     rs_state := fun r => r;
     Begin := fun x => (Ok {| az_url := "https://idp.example/authorize?client=mail&state=s-1&nonce=n%2D1";
                              az_attempt := {| pa_state_hash := Sum256 "s-1";
                                               pa_nonce_ciphertext := repeat_char 72 "n";
                                               pa_pkce_ciphertext := repeat_char 72 "p";
                                               pa_context_ciphertext := "context" |} |}, x);
     CompleteResponse := fun r _ x => (Ok carol_identity, note (Sum256 r) x) |}.

#[export] Instance logging_idp : OIDCClient (list string) := idp (fun h l => l ++ [h]).
#[export] Instance logging_idp_log : ClientLog (CLIENT := logging_idp) (list string) id.
Proof. by split. Qed.
#[export] Instance silent_idp : OIDCClient scim.SQLStore := idp (fun _ x => x).

Definition again {PS} (w : World PS) : World PS :=
  {| w_db := w_db w; w_outcomes := []; w_clock := [100%Z];
     w_entropy := map (fun i => repeat (120 + N.of_nat i)%N 32) (seq 0 8); w_ext := w_ext w |}.

(** ** Carol *)

Definition carol_data : string :=
  "{" +:+ q "userName" +:+ ":" +:+ q "carol@example.org" +:+ "," +:+ q "active" +:+ ":true}".
Definition carol : scim.ScimRecord :=
  {| scim.sr_scope := "main"; scim.sr_type := "User"; scim.sr_id := "u-2"; scim.sr_external_id := "carol-sub";
     scim.sr_manager := "authentik"; scim.sr_version := "v1"; scim.sr_credential_version := "";
     scim.sr_created := 40; scim.sr_modified := 41; scim.sr_data := carol_data; scim.sr_indexes := [] |}.
Definition carol_world : World scim.SQLStore :=
  again (scim.Transact scim_metadata None
    (scim.perform_then (scim.call_password "main" "User" "u-2" "carol's long password") (fun _ =>
       one_call (scim.call_create carol))) created_world).2.

Definition started_world : World scim.SQLStore := (StartLogin "browser-1" "/inbox" 100 (minutes 10) carol_world).2.
Definition login_run : result CallbackResult * World scim.SQLStore := CompleteCallback (PS := scim.SQLStore) "s-1" "browser-1" 200 started_world.
Definition login_world : World scim.SQLStore := login_run.2.
Definition session_id_of (r : result CallbackResult) : string :=
  match r with Ok r => sn_id (cr_session r) | Err _ => "" end.
Definition carol_session : string := session_id_of login_run.1.

Example carol_logs_in :
  is_ok (StartLogin "browser-1" "/inbox" 100 (minutes 10) carol_world).1 = true
  /\ is_ok login_run.1 = true
  /\ (CompleteCallback (PS := scim.SQLStore) "s-1" "browser-2" 200 started_world).1 = Err ErrInvalidOIDCState
  /\ (CompleteCallback (PS := scim.SQLStore) "s-1" "browser-1" 200 login_world).1 = Err ErrInvalidOIDCState
  /\ map (fun r => is_ok (localRedirect r)) [""; "/inbox"; "//evil.example/"; "https://evil.example/"]
     = [true; true; false; false].
Proof. split_and!; compute_it. Qed.

(** ** Two callbacks of one state *)

Definition race_world : World (list string) :=
  {| w_db := w_db started_world; w_outcomes := []; w_clock := []; w_entropy := w_entropy started_world; w_ext := [] |}.

(** Both callbacks arrive before the first one has exchanged its attempt. *)
Lemma attempts_exchanged_once_witness :
  exists fs w, rtc (serve (STORE := sql_state_store) (CLIENT := logging_idp)) ([], race_world) (fs, w)
    /\ exchanges (LoginView := sql_view id) (w_ext w) = [Sum256 "s-1"]
    /\ NoDup (map flight_state fs ++ exchanges (LoginView := sql_view id) (w_ext w)).
Proof.
  destruct (claim_attempt (CLIENT := logging_idp) "s-1" "browser-1" 200 race_world) as [r w1] eqn:E1.
  assert (is_ok r = true) as Hr by (change r with (fst (r, w1)); rewrite <- E1; compute_it).
  destruct r as [a|e]; [|discriminate Hr].
  destruct (claim_attempt (CLIENT := logging_idp) "s-1" "browser-1" 200 w1) as [r2 w2] eqn:E2.
  assert (is_ok r2 = false) as Hr2.
  { change w1 with (snd (Ok a, w1)) in E2. rewrite <- E1 in E2. change r2 with (fst (r2, w2)). rewrite <- E2. compute_it. }
  destruct r2 as [a2|e]; [discriminate Hr2|].
  pose (f := {| fl_response := "s-1" : AuthorizationResponse (OIDCClient := logging_idp); fl_attempt := a; fl_now := 200%Z |}).
  assert (rtc (serve (STORE := sql_state_store) (CLIENT := logging_idp)) ([], race_world)
            ([], (exchange (fl_response f) (fl_attempt f) (fl_now f) w2).2)) as H.
  { eapply rtc_l; [exact (serve_claim (CLIENT := logging_idp) "s-1" "browser-1" 200 [] race_world a w1 E1)|].
    eapply rtc_l; [exact (serve_refused (CLIENT := logging_idp) "s-1" "browser-1" 200 [f] w1 e w2 E2)|].
    apply rtc_once. exact (serve_exchange f [] [] w2). }
  exists [], (exchange (fl_response f) (fl_attempt f) (fl_now f) w2).2. split; [exact H|]. split.
  - assert (w_ext w2 = []) as Hx.
    { pose proof (quiet_claim (CLIENT := logging_idp) (VIEW := sql_view id) "s-1" "browser-1" 200 w1) as [_ Q2]. rewrite E2 in Q2.
      pose proof (quiet_claim (CLIENT := logging_idp) (VIEW := sql_view id) "s-1" "browser-1" 200 race_world) as [_ Q1]. rewrite E1 in Q1.
      cbn in Q1, Q2. unfold id in *. congruence. }
    destruct (exchange_log (VIEW := sql_view id) (fl_response f) (fl_attempt f) (fl_now f) w2) as [_ L].
    cbn [exchanges sql_view] in *. unfold id in *. rewrite L, Hx. reflexivity.
  - exact (proj1 (attempts_exchanged_once (VIEW := sql_view id) race_world [] _ eq_refl H)).
Defined.

(** ** Carol's session *)

Lemma carol_logged_in : exists res, login_run = (Ok res, login_world) /\ sn_id (cr_session res) = carol_session.
Proof.
  assert (is_ok login_run.1 = true) as Hr by compute_it.
  unfold login_world, carol_session. destruct login_run as [r w]. cbn [fst snd] in *.
  destruct r as [res|e]; [|discriminate Hr]. exists res. split; reflexivity.
Qed.

Lemma login_session_sound_witness : exists res, login_run = (Ok res, login_world)
  /\ cr_redirect res = "/inbox" /\ ValidCSRF (cr_session res) (cr_csrf_secret res) = true.
Proof.
  destruct carol_logged_in as (res & E & _). exists res. split; [exact E|].
  destruct (login_session_sound (PS := scim.SQLStore) _ _ _ _ _ _ E) as (row & verified & Hr & _ & _ & _ & Hd & _ & _ & _ & Ha).
  split; [|exact (ad_csrf _ _ _ _ _ Ha)]. rewrite Hd.
  assert (ls_redirect <$> sql_store.login_states (w_db started_world) !! Sum256 "s-1" = Some "/inbox") as Hx by compute_it.
  cbn [rs_state silent_idp idp] in Hr. rewrite Hr in Hx. by injection Hx.
Defined.

Lemma BoundSession_sound_witness : exists b w', sql_store.BoundSession carol_session 300 login_world = (Ok (Some b), w')
  /\ honoured carol_session 300 b (w_db login_world).
Proof.
  destruct (sql_store.BoundSession carol_session 300 login_world) as [r w'] eqn:E.
  assert (match r with Ok (Some _) => true | _ => false end = true) as Hr
    by (change r with (fst (r, w')); rewrite <- E; compute_it).
  destruct r as [[b|]|e]; [|discriminate Hr..]. exists b, w'. split; [reflexivity|].
  exact (proj1 (BoundSession_sound _ _ _ _ _ E)).
Defined.

(** Bob is deleted while carol is logged in. *)
Definition gone_world : World scim.SQLStore := (scim.Transact scim_metadata None
  (one_call (scim.call_delete "main" "User" "u-1" "v1" (bob_tombstone "v1"))) (again login_world)).2.

Lemma bob_gone : exists u, scim.Transact scim_metadata None
  (one_call (scim.call_delete "main" "User" "u-1" "v1" (bob_tombstone "v1"))) (again login_world) = (Ok u, gone_world).
Proof.
  unfold gone_world. destruct (scim.Transact _ None _ (again login_world)) as [r w'] eqn:E.
  assert (is_ok r = true) as Hr by (change r with (fst (r, w')); rewrite <- E; compute_it).
  destruct r as [u|e]; [|discriminate Hr]. exists u. reflexivity.
Qed.

Lemma deleted_user_has_no_session_witness :
  exists b w', sql_store.BoundSession carol_session 300 gone_world = (Ok (Some b), w')
    /\ exists mid m, db_mailboxes (w_db gone_world) !! mid = Some m /\ mb_scim_resource_id m <> Some "u-1".
Proof.
  assert (is_Some (scim.ss_identity (w_ext (again login_world)))) as [st Hst] by by vm_compute; eexists.
  destruct bob_gone as [u Eu].
  destruct (sql_store.BoundSession carol_session 300 gone_world) as [r w'] eqn:E.
  assert (match r with Ok (Some _) => true | _ => false end = true) as Hr
    by (change r with (fst (r, w')); rewrite <- E; compute_it).
  destruct r as [[b|]|e]; [|discriminate Hr..]. exists b, w'. split; [reflexivity|].
  pose proof (deleted_user_has_no_session scim_metadata "main" "u-1" "v1" (bob_tombstone "v1") (again login_world)
    gone_world u st carol_session 300 gone_world b w' Hst Eu (eq_refl (w_db gone_world)) E) as H.
  destruct H as (ir & mid & m & _ & _ & Hm & _ & Hn). exists mid, m. split; [exact Hm|exact Hn].
Defined.

(** ** Alice, the administrator *)

Definition sample_issuer : string := "https://idp.example/application/o/gotth-mail/".
Definition alice_mailbox_id : string := stableUUID "mailbox:alice@example.org".
Definition alice_identity : IdentityRow :=
  {| ir_provider := "authentik"; ir_issuer := sample_issuer; ir_subject := "alice-sub";
     ir_mailbox_id := Some alice_mailbox_id |}.
Definition alice_session : SessionRow :=
  {| se_identity_ref_id := "ref-1"; se_csrf_secret_hash := hashText "csrf-1"; se_auth_method := "oidc";
     se_created_at := 5; se_expires_at := 90; se_last_seen_at := 5; se_revoked_at := None |}.

(** Alice has a mailbox; she is logged in. *)
Definition with_alice (d : DB) : DB :=
  sql_store.with_sessions (<["sess-1" := alice_session]>) (sql_store.with_identities (<["ref-1" := alice_identity]>) d).
Definition refreshed (d : DB) (st : Service) : World Service := identity_world d st 150.
Definition staff_world : World Service := refreshed (with_alice (w_db alice_world)) (w_ext alice_world).

Definition role_request (operation : string) : rolebinding.Request :=
  {| rolebinding.rq_operation := operation; rolebinding.rq_issuer := sample_issuer;
     rolebinding.rq_subject := "alice-sub"; rolebinding.rq_mailbox := "Alice@example.org";
     rolebinding.rq_role := RoleGlobalAdmin; rolebinding.rq_domain := "" |}.
Definition plan_id_of (r : result rolebinding.Plan) : string :=
  match r with Ok p => rolebinding.pl_plan_id p | Err e => e end.
Definition grant_plan : string := plan_id_of (rolebinding.Preview (role_request "grant") staff_world).1.
Definition admin_world : World Service := (rolebinding.Apply (role_request "grant") grant_plan staff_world).2.
Definition revoke_plan : string := plan_id_of (rolebinding.Preview (role_request "revoke") admin_world).1.
Definition former_world : World Service := (rolebinding.Apply (role_request "revoke") revoke_plan admin_world).2.

Definition alice_request (method path form_csrf : string) : api.Request :=
  {| api.ar_method := method; api.ar_path := path; api.ar_authorization := "";
     api.ar_csrf_header := "csrf-1"; api.ar_correlation := "c1"; api.ar_remote_addr := "192.0.2.1";
     api.ar_session_cookie := Some "sess-1"; api.ar_csrf_cookie := Some "csrf-1";
     api.ar_body := "{" +:+ q "label" +:+ ":" +:+ q "laptop" +:+ "}";
     api.ar_form := Some [("csrf_token", form_csrf); ("action", "create"); ("label", "tablet")] |}.

(** The decision on an action on a domain, through the self-service session. *)
Definition session_decision (w : World Service) (act : string) (resource : Resource) : option bool :=
  match (api.boundUIIdentity (alice_request "GET" "/" "") w).1 with
  | Ok (inr (_, actor, _)) => d_allow <$> Decide plain_authorizer actor act resource
  | _ => None
  end.
Definition other_domain : Resource := {| r_type := "domain"; r_id := "example.net" |}.
Definition own : Resource := {| r_type := "mailbox"; r_id := "alice@example.org" |}.

(** Only the administrator may change another domain; a plan can be applied
    once; the page and the API refuse a wrong CSRF token. *)
Example alice_rises_and_falls :
  map (fun w => session_decision w "domain:admin" other_domain) [staff_world; admin_world; former_world]
    = [Some false; Some true; Some false]
  /\ map (fun w => session_decision w "webmail:use" own) [staff_world; former_world] = [Some true; Some true]
  /\ (rolebinding.Apply (role_request "grant") grant_plan admin_world).1
     = Err "confirmation digest does not match current role-binding state"
  /\ map (fun w => length (db_audit (w_db w))) [staff_world; admin_world; former_world] = [1; 2; 3]
  /\ rs_status <$> Some (match (api.app_passwords (alice_request "POST" "/api/v1/mailboxes/bob@example.org/app-passwords" "") staff_world).1
       with Ok rs => rs | Err _ => reply 0 "" end) = Some 400%Z
  /\ match (api.app_passwords_page (alice_request "POST" "/" "csrf-2") staff_world).1 with
     | Ok (inl rs) => rs_status rs | _ => 0%Z end = 403%Z
  /\ match (api.app_passwords_page (alice_request "POST" "/" "csrf-1") staff_world).1 with
     | Ok (inr page) => length (api.pg_apps page) | _ => 0 end = 1.
Proof. split_and!; compute_it. Qed.

Lemma no_bindings_wf d : sql_store.bindings d = ∅ -> bindings_wf d.
Proof.
  intros E. split; try (intros; rewrite E, lookup_empty in *; discriminate).
  by rewrite E, lookup_empty.
Qed.
Lemma staff_wf : bindings_wf (w_db staff_world).
Proof. apply no_bindings_wf. compute_it. Qed.

Example admin_bindings_wf : bindings_wf (w_db admin_world).
Proof. exact (bindings_wf_Apply (role_request "grant") grant_plan staff_world staff_wf). Qed.

Lemma applied operation plan (w : World Service) : is_ok (rolebinding.Apply (role_request operation) plan w).1 = true ->
  exists res, rolebinding.Apply (role_request operation) plan w
    = (Ok res, (rolebinding.Apply (role_request operation) plan w).2).
Proof.
  destruct (rolebinding.Apply _ plan w) as [[res|e] w']; cbn; [by exists res|done].
Qed.

Lemma Apply_confirmed_witness : exists res request c,
  rolebinding.Apply (role_request "grant") grant_plan staff_world = (Ok res, admin_world)
  /\ rolebinding.normalize (role_request "grant") = Ok request /\ bound request c (w_db admin_world).
Proof.
  destruct (applied "grant" grant_plan staff_world) as [res E]; [compute_it|].
  destruct (Apply_confirmed _ _ _ _ _ staff_wf E) as (request & c & Hn & _ & _ & _ & Hb & _ & _).
  exists res, request, c. split; [exact E|]. split; [exact Hn|]. apply Hb.
  assert (rolebinding.rq_operation <$> Some (match rolebinding.normalize (role_request "grant") with
    | Ok r => r | Err _ => role_request "" end) = Some "grant") as Ho by compute_it.
  rewrite Hn in Ho. by injection Ho.
Defined.

Lemma bound_run w : match (api.boundUIIdentity (alice_request "GET" "/" "") w).1 with
                    | Ok (inr _) => true | _ => false end = true ->
  exists b actor csrf, api.boundUIIdentity (alice_request "GET" "/" "") w
    = (Ok (inr (b, actor, csrf)), (api.boundUIIdentity (alice_request "GET" "/" "") w).2).
Proof.
  destruct (api.boundUIIdentity _ w) as [[[rs|[[b actor] csrf]]|e] w']; cbn; try done. intros _. by exists b, actor, csrf.
Qed.


Lemma revoked_admin_powerless_witness : exists b actor csrf w' d,
  api.boundUIIdentity (alice_request "GET" "/" "") former_world = (Ok (inr (b, actor, csrf)), w')
  /\ Decide plain_authorizer actor "webmail:use" own = Some d
  /\ ((EqualFold (bs_mailbox b) (r_id own) = true
       /\ ("webmail:use" = "webmail:use" \/ HasPrefix "webmail:use" "mailbox:app_password." = true))
      \/ has_any_prefix "webmail:use" ["status:"; "doctor:"]
      \/ exists k row dom, sql_store.bindings (w_db former_world) !! k = Some row
           /\ rb_identity_ref_id row = sn_identity_ref_id (bs_session b) /\ rb_domain_id row = Some dom
           /\ (rb_role row = RoleDomainManager \/ rb_role row = RoleScopedDomainAccess)).
Proof.
  assert (bindings_wf (w_db admin_world)) as W by exact (bindings_wf_Apply (role_request "grant") grant_plan staff_world staff_wf).
  destruct (applied "revoke" revoke_plan admin_world) as [res E]; [compute_it|].
  destruct (bound_run former_world) as (b & actor & csrf & Eb); [compute_it|].
  destruct (Decide plain_authorizer actor "webmail:use" own) as [d|] eqn:Ed.
  2: { exfalso. assert (session_decision former_world "webmail:use" own = Some true) as H by compute_it.
       unfold session_decision in H. rewrite Eb in H. cbn [fst] in H. rewrite Ed in H. discriminate H. }
  exists b, actor, csrf, (api.boundUIIdentity (alice_request "GET" "/" "") former_world).2, d.
  split; [exact Eb|]. split; [exact Ed|].
  assert (d_allow d = true) as Ha.
  { assert (session_decision former_world "webmail:use" own = Some true) as H by compute_it.
    unfold session_decision in H. rewrite Eb in H. cbn [fst] in H. rewrite Ed in H. injection H as H. exact H. }
  destruct (rolebinding.normalize (role_request "revoke")) as [request|e] eqn:En; [|discriminate En].
  assert (rolebinding.rq_operation request = "revoke" /\ rolebinding.rq_role request = RoleGlobalAdmin) as [Ho Hr].
  { assert (match rolebinding.normalize (role_request "revoke") with
            | Ok r => (rolebinding.rq_operation r, rolebinding.rq_role r) | Err _ => ("", "") end
            = ("revoke", RoleGlobalAdmin)) as H by compute_it.
    rewrite En in H. injection H as H1 H2. split; [exact H1|exact H2]. }
  assert (sn_identity_ref_id (bs_session b) = rolebinding.pl_identity_id (rolebinding.re_plan res)) as Hid.
  { assert (match (rolebinding.Apply (role_request "revoke") revoke_plan admin_world).1,
                  (api.boundUIIdentity (alice_request "GET" "/" "") former_world).1 with
            | Ok res, Ok (inr (b, _, _)) =>
                (sn_identity_ref_id (bs_session b), rolebinding.pl_identity_id (rolebinding.re_plan res))
            | _, _ => ("", "x") end = ("ref-1", "ref-1")) as H by compute_it.
    rewrite E, Eb in H. cbn [fst] in H. injection H as H1 H2. exact (eq_trans H1 (eq_sym H2)). }
  exact (revoked_admin_powerless (role_request "revoke") revoke_plan admin_world res former_world request plain_authorizer
    (alice_request "GET" "/" "") former_world b actor csrf _ "webmail:use" own d W E En Ho Hr (eq_refl (w_db former_world)) Eb Hid Ed Ha).
Defined.

Lemma stored_same st d d' : tokens d' = tokens d -> stored st d -> stored st d'.
Proof. intros E H id p Hp. rewrite E. exact (H id p Hp). Qed.
Lemma tokens_with_alice d : tokens (with_alice d) = tokens d.
Proof. reflexivity. Qed.

Lemma refreshed_sound (w : World Service) : sound_world w -> sound_world (refreshed (with_alice (w_db w)) (w_ext w)).
Proof.
  intros [C S]. split; [exact C|]. exact (stored_same (w_ext w) (w_db w) _ (tokens_with_alice _) S).
Qed.
Lemma staff_sound : sound_world staff_world.
Proof. exact (refreshed_sound alice_world alice_sound). Qed.

Definition laptop_request : api.Request := alice_request "POST" "/api/v1/mailboxes/ALICE@example.org/app-passwords" "".

Lemma app_passwords_guarded_witness :
  api.mutates laptop_request = true
  /\ only_of (ToLower "ALICE@example.org") (w_ext staff_world) (w_ext (api.app_passwords laptop_request staff_world).2).
Proof.
  destruct (app_passwords_guarded laptop_request staff_world staff_sound) as (Hm & Ho & _).
  - intros H. assert (size (is_passwords (w_ext (api.app_passwords laptop_request staff_world).2)) = 1) as H1 by compute_it.
    assert (size (is_passwords (w_ext staff_world)) = 0) as H0 by compute_it. rewrite H, H0 in H1. discriminate H1.
  - split; [exact Hm|exact Ho].
Defined.
