(* ===== verification/FrontWitnesses.v ===== *)
(** * SCIM tokens and the mail front, run

    A SCIM client gets a bearer token, and rotates it; alice logs in through
    the mail front with her application password. *)

From stdpp Require Import base list gmap sets strings relations.
From Stdlib Require Import ZArith Lia Ascii.
From S2P Require Import Prelude GoStd Json JsonText JsonStruct Sha256 Sha1 Policy Sample Queue AuditLog Database QueueStore Admin PlanDigest Postfix Remote Http Helper Relay Daemon Verifier Lookup LookupRoutes Tokens Authz Regex Approval Executor Telegram Identity IdentityFacts IdentitySafety Scim ScimFacts Authn AuthnSafety AuthnSessions RoleBinding RoleBindingSafety IdentityApi ScimToken FrontAuth Witnesses GateWitnesses DaemonWitnesses AccessWitnesses IdentityWitnesses ScimWitnesses AuthnWitnesses.
Import authz identity frontauth.
#[local] Existing Instances M_ret M_bind.

(** ** A SCIM token *)

Definition scim_secret : string := repeat_char 40 "s".
Definition token_plan (secret : string) (w : World Service) : string :=
  match (scimtoken.Preview "authentik" secret w).1 with Ok p => scimtoken.pl_plan_id p | Err _ => "" end.
Definition token_world : World Service :=
  (scimtoken.Apply "authentik" scim_secret (token_plan scim_secret phone_world) phone_world).2.

Definition later_world : World Service := refreshed (w_db token_world) (w_ext token_world).

Definition changed (r : result scimtoken.Result) : option (string * bool) :=
  match r with Ok r => Some (scimtoken.pl_operation (scimtoken.re_plan r), scimtoken.re_changed r) | Err _ => None end.

Example client_rotates :
  changed (scimtoken.Apply "authentik" scim_secret (token_plan scim_secret phone_world) phone_world).1 = Some ("create", true)
  /\ changed (scimtoken.Apply "authentik" scim_secret (token_plan scim_secret later_world) later_world).1
     = Some ("unchanged", false)
  /\ changed (scimtoken.Apply "authentik" scim_secret (token_plan scim_secret phone_world) later_world).1 = None
  /\ changed (scimtoken.Apply "authentik" (repeat_char 40 "t") (token_plan (repeat_char 40 "t") later_world) later_world).1
     = Some ("rotate", true)
  /\ changed (scimtoken.Apply "Authentik" scim_secret "" later_world).1 = None
  /\ is_ok (scimtoken.ReadSecret 0 "/run/secret" (Some {| scimtoken.sf_regular := true; scimtoken.sf_uid := 0;
       scimtoken.sf_perm := 416; scimtoken.sf_data := Some scim_secret |})) = false
  /\ scimtoken.ReadSecret 0 "/run/secret" (Some {| scimtoken.sf_regular := true; scimtoken.sf_uid := 0;
       scimtoken.sf_perm := 384; scimtoken.sf_data := Some scim_secret |}) = Ok scim_secret.
Proof. split_and!; compute_it. Qed.

(** A database with application passwords only. *)
Lemma only_passwords_labelled d :
  forallb (fun kv => tk_kind kv.2 =?s "app_password") (map_to_list (tokens d)) = true -> tokens_labelled d.
Proof.
  intros H k r Hr Hk. exfalso. apply Hk. rewrite forallb_forall in H.
  specialize (H (k, r)). rewrite <- elem_of_map_to_list, list_elem_of_In in Hr. apply H in Hr. cbn [snd] in Hr. by to_prop.
Qed.
Lemma phone_labelled : tokens_labelled (w_db phone_world).
Proof. apply only_passwords_labelled. compute_it. Qed.

Lemma issued_token_authenticates_witness : exists res actor,
  scimtoken.Apply "authentik" scim_secret (token_plan scim_secret phone_world) phone_world = (Ok res, token_world)
  /\ AuthenticateBearer (load_tokens (w_db token_world) empty_identity) ("Bearer " +:+ scim_secret) "scim_client" = Ok actor.
Proof.
  assert (exists res, scimtoken.Apply "authentik" scim_secret (token_plan scim_secret phone_world) phone_world
    = (Ok res, token_world)) as [res E].
  { unfold token_world. destruct (scimtoken.Apply _ _ _ phone_world) as [r w'] eqn:E.
    assert (is_ok r = true) as Hr by (change r with (fst (r, w')); rewrite <- E; compute_it).
    destruct r as [res|e]; [|discriminate Hr]. exists res. reflexivity. }
  destruct (issued_token_authenticates _ _ _ _ _ _ empty_identity phone_labelled E)
    as (_ & _ & actor & id & tok & H & _). exists res, actor. split; [exact E|exact H].
Defined.

(** ** The mail front *)

#[local] Instance compose_network : Resolver Service := {
  LookupIPAddr host x :=
    (if host =?s "dovecot" then Ok [repeat 0%N 10 ++ [255; 255; 8; 8; 8; 8]%N; [172; 18; 0; 7]%N] else Err "no such host", x);
}.

Definition front_token : string := repeat_char 32 "k".
Definition front : option (Handler Service) :=
  match New (bound_daemon phone_world) front_token with Ok h => Some h | Err _ => None end.

Definition front_request (protocol method user secret : string) : frontauth.Request :=
  {| fr_method := "GET";
     fr_header := [("X-Gotth-Mail-Front-Token", front_token); ("Auth-Protocol", protocol); ("Auth-Method", method);
                   ("Auth-User", user); ("Auth-Pass", secret); ("Auth-Smtp-To", "RCPT TO:<alice@example.org> NOTIFY=NEVER")] |}.
Definition front_answer (r : frontauth.Request) : list (option string) :=
  match front with
  | Some h => let rp := (ServeHTTP h r phone_world).1 in
              map (fun k => ry_header rp !! k) ["Auth-Status"; "Auth-Server"; "Auth-Port"; "Auth-User"; "Auth-Error-Code"]
  | None => []
  end.

Example front_answers :
  front_answer (front_request "imap" "plain" "Alice@Example.org" phone_secret)
    = [Some "OK"; Some "172.18.0.7"; Some "143"; Some "alice@example.org"; None]
  /\ front_answer (front_request "imap" "plain" "alice@example.org" "wrong")
    = [Some "authentication failed"; None; None; None; Some "535 5.7.8"]
  /\ front_answer (front_request "smtp" "none" "" "")
    = [Some "authentication temporarily unavailable"; None; None; None; Some "451 4.3.0"]
  /\ front_answer (front_request "pop3" "plain" "alice@example.org" phone_secret)
    = [Some "unsupported authentication"; None; None; None; Some "535 5.7.8"]
  /\ smtpRecipient "RCPT TO:<alice@example.org>x" = None.
Proof. split_and!; compute_it. Qed.

Lemma ServeHTTP_guarded_witness : exists h rp w' user,
  New (bound_daemon phone_world) front_token = Ok h
  /\ ServeHTTP h (front_request "imap" "plain" "Alice@Example.org" phone_secret) phone_world = (rp, w')
  /\ credentials (front_request "imap" "plain" "Alice@Example.org" phone_secret) = Some (user, phone_secret)
  /\ VerifyDovecot (w_ext phone_world) (normalizeAddress user) phone_secret = true.
Proof.
  destruct (New (bound_daemon phone_world) front_token) as [h|e] eqn:En.
  2: { exfalso. assert (is_ok (New (bound_daemon phone_world) front_token) = true) as Hr by compute_it. by rewrite En in Hr. }
  destruct (ServeHTTP h (front_request "imap" "plain" "Alice@Example.org" phone_secret) phone_world) as [rp w'] eqn:E.
  assert (credentials (front_request "imap" "plain" "Alice@Example.org" phone_secret)
    = Some ("alice@example.org", phone_secret)) as Hc by compute_it.
  assert (says_ok rp) as Hs.
  { assert (match New (bound_daemon phone_world) front_token with
            | Ok h => ry_header (ServeHTTP h (front_request "imap" "plain" "Alice@Example.org" phone_secret) phone_world).1 !! "Auth-Status"
            | Err _ => None end = Some "OK") as Hok by compute_it.
    rewrite En in Hok. rewrite E in Hok. exact Hok. }
  destruct (ServeHTTP_guarded _ _ _ _ _ _ _ En E Hs) as (_ & _ & _ & protocol & Hp & [[Hp' _]|[_ [_ Hx]]]).
  { exfalso. assert (boundedHeader (front_request "imap" "plain" "Alice@Example.org" phone_secret) "Auth-Protocol" = Some "imap") as H by compute_it.
    rewrite H in Hp. injection Hp as <-. discriminate Hp'. }
  destruct Hx as (user & secret & m & vs & method & Hu & _ & _ & _ & _ & _ & _ & _ & Hv).
  rewrite Hc in Hu. injection Hu as <- <-. exists h, rp, w', "alice@example.org".
  split; [reflexivity|]. split; [exact E|]. split; [exact Hc|].
  destruct phone_sound as [C _]. apply (Hv _ C phone_bound). apply (bool_decide_unpack _). vm_compute. exact I.
Defined.
