(* ===== verification/BackupWitnesses.v ===== *)
(** * A concrete backup

    The installation of Witnesses.v with a held message and a system sender
    is captured and restored into an empty database. *)

From stdpp Require Import base list gmap sets strings.
From Stdlib Require Import ZArith Lia.
From S2P Require Import Prelude GoStd Policy Sample Queue AuditLog Database QueueStore Sources HoldMachine Witnesses Backup.

Definition backup_db : DB :=
  with_senders (<["s1" := {| sy_domain_id := "d1"; sy_address := "daemon@example.org"; sy_enabled := true; sy_revision := 2 |}]>) held.
Definition backup_world : World Postfix := fresh true 30 backup_db.
Definition empty_world : World Postfix := fresh true 30 empty_db.

Definition sample_backup : option BackupState :=
  match CaptureBackupState backup_world with (Ok s, _) => Some s | _ => None end.
Definition restored_world : option (World Postfix) :=
  s ← sample_backup;
  match RestoreBackupState s 99 empty_world with (Ok _, w) => Some w | _ => None end.

(** The verification of a restored database, and after a mailbox is
    disabled: the backup of the resulting state can no longer verify. *)
Definition verified (change : DB -> DB) : option bool :=
  w ← restored_world;
  let w := fresh true 40 (change (w_db w)) in
  match CaptureBackupState w with
  | (Ok s, _) => Some (is_ok (VerifyBackupState s w).1)
  | _ => None
  end.

Example backup_verifies : verified id = Some true.
Proof. compute_it. Qed.

Definition disable_mailbox (m : MailboxRow) : MailboxRow :=
  {| mb_domain_id := mb_domain_id m; mb_local_part := mb_local_part m; mb_enabled := false;
     mb_verifier := mb_verifier m; mb_quota_bytes := mb_quota_bytes m; mb_display_name := mb_display_name m;
     mb_scim_resource_id := mb_scim_resource_id m; mb_created_at := mb_created_at m; mb_updated_at := mb_updated_at m |}.

(** VerifyBackupState fails on the very database the backup was taken from. *)
Example disabled_sender_never_verifies : verified (with_mailboxes (alter disable_mailbox "m1")) = Some false.
Proof. compute_it. Qed.

Lemma backup_round_trip_witness :
  exists s w1 v',
    CaptureBackupState backup_world = (Ok s, w1) /\ RestoreBackupState s 99 empty_world = (Ok tt, v')
    /\ same_policy backup_db (w_db v')
    /\ (forall u : World Postfix, reliable u -> w_db u = w_db v' ->
          (exists u', CaptureBackupState u = (Ok s, u'))
          /\ ((exists u', VerifyBackupState s u = (Ok tt, u')) <-> sources_resolve (w_db u) s)).
Proof.
  destruct (run_ok CaptureBackupState backup_world) as [[s w1] H1]; [compute_it|]. simpl in H1.
  assert (match CaptureBackupState backup_world with
          | (Ok s, _) => forallb (fun a => bool_decide (json_strings (json_of_strings (ba_targets a)) = Some (ba_targets a))) (bk_aliases s)
          | _ => false end = true) as He by compute_it.
  assert (match CaptureBackupState backup_world with
          | (Ok s, _) => is_ok (RestoreBackupState s 99 empty_world).1 | _ => false end = true) as Hr by compute_it.
  rewrite H1 in He, Hr. destruct (run_ok (RestoreBackupState s 99) empty_world Hr) as [[[] v'] H2]. simpl in H2.
  exists s, w1, v'. split; [exact H1|]. split; [exact H2|].
  apply (backup_round_trip backup_world s w1 99 empty_world v' H1); [|by split_and!|exact H2].
  intros a Ha. apply (bool_decide_unpack _). rewrite forallb_forall in He. by apply Is_true_eq_left, He, list_elem_of_In.
Defined.
