(* ===== verification/AdminApiWitnesses.v ===== *)
(** * Concrete administration requests

    An operator's API token restricts a domain of the installation of
    AdminWitnesses.v, and asks a mapped Telegram user to flush the queue. *)

From stdpp Require Import base list gmap sets strings.
From Stdlib Require Import ZArith Lia Ascii.
From S2P Require Import Prelude GoStd Json JsonStruct Sha256 Policy Sample Queue AuditLog Database QueueStore Sources HoldMachine Http Helper Decision Admin Activation Lookup Tokens Authz Approval Executor Identity AdminApi Witnesses AdminWitnesses DaemonWitnesses AccessWitnesses IdentityWitnesses.
Import authz identity admin_api.
#[local] Existing Instances M_ret M_bind.

Definition ops_secret : string := "operator secret".
Definition ops_service : Service :=
  w_ext (AddTokenWithScopes "ops" "api" ops_secret ["domain:admin:example.org"; "notification:approval.create"] bound_world).2.

Definition api_request (secret : string) (body : jval) : HttpRequest :=
  {| rq_method := "POST"; rq_url := "/"; rq_authorization := "Bearer " +:+ secret; rq_correlation := "c9";
     rq_body := print_json body |}.
Definition policy_request (secret domain : string) : HttpRequest :=
  api_request secret (VObj [("domain", VStr domain); ("scope", VStr ScopeSameDomainOnly);
                            ("confirmation", VStr (cp_digest sample_plan))]).
Definition policy_apply : string := "/api/v1/domains/outbound-policy/apply".

Definition policy_status (secret domain : string) : option (Z * bool) :=
  match registerOutboundPolicyAdmin ops_service plain_authorizer (Some sample_actor) policy_apply with
  | Some route =>
      match route (policy_request secret domain) (AdminWitnesses.admin_world false opened) with
      | (Ok r, w) => Some (rs_status r, bool_decide (length (db_audit (w_db w)) = length (db_audit opened)))
      | _ => None
      end
  | None => None
  end.

Example policy_answers :
  policy_status ops_secret "Example.org" = Some (200%Z, false)
  /\ policy_status "wrong secret" "Example.org" = Some (401%Z, true)
  /\ policy_status ops_secret "example.net" = Some (403%Z, true)
  /\ policy_status ops_secret "not a domain" = Some (400%Z, true).
Proof. split_and!; compute_it. Qed.

Definition sample_route (rq : HttpRequest) : M Postfix HttpResponse :=
  apply_route ops_service plain_authorizer (Some sample_actor) rq.

Lemma outbound_policy_admin_guarded_witness :
  exists r w' tok plan d,
    sample_route (policy_request ops_secret "Example.org") (AdminWitnesses.admin_world false opened) = (r, w')
    /\ w_db w' <> opened
    /\ token_may ops_service (policy_request ops_secret "Example.org") tok "domain:admin" "example.org"
    /\ cp_domain plan = "example.org" /\ history d (w_db w').
Proof.
  set (rq := policy_request ops_secret "Example.org"). set (w := AdminWitnesses.admin_world false opened).
  assert (negb (Nat.eqb (length (db_audit (w_db (sample_route rq w).2))) (length (db_audit opened))) = true) as Hne
    by compute_it.
  assert (match decodeOutboundPolicyAdmin rq with Some q => pa_domain q =?s "example.org" | None => false end = true) as Hq
    by compute_it.
  destruct (sample_route rq w) as [r w'] eqn:E. cbn [snd] in Hne.
  assert (w_db w' <> opened) as Hd by (intros Hw; rewrite Hw, Nat.eqb_refl in Hne; discriminate Hne).
  destruct (outbound_policy_admin_guarded ops_service plain_authorizer (Some sample_actor) policy_apply sample_route rq w r w'
    eq_refl E) as [[H _]|(tok & request & plan & d & _ & _ & Hr & Hp & Ht & _ & _ & _ & Hh)]; [contradiction (Hd H)|].
  rewrite Hr in Hq. apply eqs_true in Hq. rewrite Hq in Hp, Ht.
  exists r, w', tok, plan, d. exact (conj eq_refl (conj Hd (conj Ht (conj Hp Hh)))).
Defined.

(** ** A flush is asked for *)

Definition flush_route (rq : HttpRequest) : M nat HttpResponse :=
  approval_route ops_service plain_authorizer true "queue:flush" rq.
Definition flush_body (secret : string) : HttpRequest :=
  api_request secret (VObj [("external_actor_id", VStr (ta_external_id operator_identity))]).
Definition approval_status (secret : string) : option Z :=
  match flush_route (flush_body secret) prompted_world with (Ok r, _) => Some (rs_status r) | _ => None end.

Example approval_answers : (approval_status ops_secret, approval_status "wrong") = (Some 202%Z, Some 401%Z).
Proof. compute_it. Qed.

